(* ===== verification/_CoqProject ===== *)
-Q . S2P
Prelude.v
Ter.v
XrplNumber.v
XrplNumberFacts.v
XrplNumberCorrect.v
XrplNumberAdd.v
XrplNumberGrid.v
XrplNumberProps.v
XrplNumberMultiple.v
Amounts.v
AmountsFacts.v
AmountsRound.v
AmountsWhole.v
AmountsProps.v
Lending.v
LendingFacts.v
NumberRatios.v
LendingSpec.v
LendingRefine.v
LendingProps.v
LedgerViews.v
LedgerTables.v
RawStateTable.v
OpenView.v
ApplyStateTable.v
ViewCalls.v
ViewsProps.v
Directories.v
DirectoriesFacts.v
DirectoriesProps.v
LedgerState.v
Holdings.v
Transfers.v
Transactors.v
TransfersFrame.v
TransfersMPT.v
TransfersHoldings.v
TransfersXRP.v
TransfersLines.v
SampleLedger.v
TransfersProps.v
LoanManage.v
LoanBrokers.v
Vaults.v
VaultFunds.v
LoanPay.v
Bytes.v
PublicKeys.v
Signatures.v
WireFields.v
Wire.v
WireProps.v
LoanSet.v
LoanBooks.v
LoanManageFacts.v
LoanPayFacts.v
LoanSetFacts.v
LoanCoverFacts.v
LoanMachine.v
LoanProps.v
LoanSetProps.v
LoanMachineProps.v
VaultFacts.v
VaultBooks.v
VaultProps.v
Invariants.v
InvariantFacts.v
InvariantVaults.v
InvariantLoans.v
InvariantProps.v
InvariantChecks.v
InvariantXRP.v
SignaturesProps.v
Pipeline.v
Batch.v
PipelineFacts.v
TransactorTable.v
PipelineSamples.v
BatchProps.v
PipelineProps.v
