(* ===== verification/Prelude.v ===== *)
(** * Verification of the XRP Ledger lending protocol

    A development about vaults and loans in the XRP Ledger server (XLS-65 and XLS-66):
    the decimal floating point the server computes with, the amounts it pays in, the
    functions that split a payment into principal, interest and fee, the views through
    which transactions read and change a ledger, the transfers of funds, the
    transactions on vaults, loan brokers and loans, the checks of invariants that run
    after them, and the pipeline that takes a signed transaction into a ledger, alone or
    in a batch.

    ** The program and its model

    The layers of the source, each resting on the ones before.

    - [ripple::Number] ([include/xrpl/basics/Number.h],
      [src/libxrpl/basics/Number.cpp]): a 16-digit signed decimal mantissa and
      an exponent, four rounding modes, guard digits.  File [XrplNumber]: record
      [Number], module [Guard] for the class [Number::Guard], one definition
      per operator, module [RoundMode] for the thread-local mode and its scoped
      guards.
    - Amounts ([include/xrpl/protocol/{Asset,Issue,IOUAmount,XRPAmount,MPTAmount,
      STAmount,Protocol}.h], [src/libxrpl/protocol/{IOUAmount,STAmount}.cpp],
      [src/libxrpl/basics/mulDiv.cpp]).  File [Amounts]: assets, the canonical
      form of an [STAmount] with and without the amendment switchovers, its
      constructors, conversions, order, sums, products and quotients, the
      directed variants, and [roundToScale]/[roundToAsset].
    - Loan arithmetic ([src/xrpld/app/misc/LendingHelpers.h],
      [src/xrpld/app/misc/detail/LendingHelpers.cpp]).  File [Lending]: record
      [Loan] for the fields of the ledger object, the amortization formulas,
      the components of regular, late, full and over-payments, [doPayment],
      [doOverpayment], [loanMakeFullPayment] and [loanMakePayment] with its
      loop.
    - Ledger views ([include/xrpl/ledger/*.h], [src/libxrpl/ledger/{RawStateTable,
      OpenView,ApplyStateTable,ApplyViewBase,ApplyView}.cpp], [Ledger.cpp]).
      Files [LedgerViews] (entries by key, the interfaces [ReadView] and [RawView]),
      [RawStateTable], [OpenView], [ApplyStateTable] (shared entries live on a heap, so
      a write through a pointer is seen by the table), [Directories] (pages of keys in a
      ring).
    - Ledger state for transactions.  File [LedgerState]: one record per entry type with
      the fields the code uses, and [View], the entries by type; what the views show of
      them is the subject of the layer above.  [Keylets] is the class of the hash
      functions that name entries, which are parameters.
    - Holdings and transfers ([src/libxrpl/ledger/View.cpp], [CredentialHelpers.cpp]).
      Files [Holdings] (freezes, authorization, balances), [Transfers] (trust lines,
      tokens, XRP, payments to several receivers), [Transactors] (what transactors share:
      [Transactor.{h,cpp}], pseudo-accounts, direct payments of [Payment.cpp],
      credentials that expire, admission to a token).
    - Transactions ([src/xrpld/app/tx/detail]).  Files [Vaults] ([VaultCreate],
      [VaultSet], [VaultDelete], and the conversion of assets and shares in
      [View.cpp]), [VaultFunds] ([VaultDeposit], [VaultWithdraw], [VaultClawback]),
      [LoanBrokers] ([LoanBrokerSet], [LoanBrokerDelete], [LoanBrokerCoverDeposit],
      [LoanBrokerCoverWithdraw], [LoanBrokerCoverClawback]), [LoanSet] ([LoanSet],
      [LoanDelete]), [LoanManage], [LoanPay].  Each has the checks of the transaction
      ([X_preflight], [X_preclaim]) and its effect ([X_doApply]).
    - Invariant checks ([InvariantCheck.{h,cpp}], [ApplyContext.cpp]).  Files
      [Invariants] (the checks of vaults, brokers and loans, with the entries before and
      after a transaction that they are shown, [Visit]) and [InvariantChecks] (the checks
      of XRP, accounts, trust lines and tokens, and [checkInvariants], which runs all).
    - Keys and signatures ([PublicKey.cpp], [STTx.cpp], [Transactor.cpp]).  Files
      [PublicKeys] (forms of keys and signatures) and [Signatures] (single and multiple
      signatures of a transaction, who may sign for an account).  The curves and hash
      functions are the class [Crypto].
    - The wire format ([src/libxrpl/protocol/{Serializer,STObject,STArray,STVar,STTx}.cpp]
      and the serialized types, [sfields.macro], [transactions.macro],
      [InnerObjectFormats.cpp]).  Files [WireFields] (fields and templates) and [Wire]: a
      [Serializer] is the list of its bytes, a [SerialIter] the list of those left;
      [Leaf] has a constructor for each type of value, [STVar] is a value, an object or
      an array; [object_add] writes and [STTx_parse] reads, with the data that is hashed
      and signed.  The byte order of the host, which [STIssue] depends on, is an argument.
    - The pipeline ([Transactor.{h,cpp}], [applySteps.cpp], [apply.cpp],
      [ApplyContext.cpp], [DelegateUtils.cpp], [LoadFeeTrack.cpp]).  File [Pipeline]:
      the fields [STTx] that every transaction has, the record [Transactor] of what
      depends on its type, the ledger [OpenLedger] with keys, tickets, transactions and
      the drops of its header; [invokePreflight], [invoke_preclaim], [transact]
      ([Transactor::operator()]) and [apply_tx] (preflight, preclaim and doApply in a row),
      [applyTransaction] with the modes of a batch.  File [Batch] ([Batch.cpp]): its fee,
      checks and signers.  File [TransactorTable]: the fifteen transactions above as
      [Transactor]s, after [transactions.macro] and the declarations of their classes.

    Exceptions are the [Throw] branch of [result], one constructor per C++
    exception class; [let*] is the sequencing of statements that may throw.
    Transaction codes returned through [Expected] are values; a function that changes
    the ledger returns its code and the changed [View], and [let?] stops at the first
    code that is not success.  Thread-local
    state is an argument: the mode [md] of the number operations, the record
    [Settings] of the amount and loan functions, replaced by [with_mode] inside
    the scope of a [NumberRoundModeGuard].  References to ledger fields are
    passed and returned as a [Loan].  Unsigned words wrap at their width with
    [u32], [u64] and [u128], conversions to signed words with [i64].

    ** The files

    - [Prelude]: results, machine words, tactics, hints, lemmas on integers.  [Ter]:
      transaction codes and [Expected].
    - [XrplNumber], then its theory: [XrplNumberFacts] (reference rounding
      [round_quot], [pack] and the guard digits), [XrplNumberCorrect] (product,
      normalization), [XrplNumberAdd] (sums), [XrplNumberGrid] (exact arithmetic
      in units of [10^s], [on_grid], and comparison),
      [XrplNumberProps] (properties), [XrplNumberMultiple] (multiples of a
      unit), [NumberRatios] (parts of a whole, truncation).
    - [Amounts], [AmountsFacts] (the invariant [canonical] and conversions),
      [AmountsRound] (rounding to a scale), [AmountsWhole] (XRP and tokens as integers),
      [AmountsProps] (properties).
    - [Lending], [LendingFacts] (components, clamps, fees), [LendingSpec] (the abstract
      loan), [LendingRefine] (the refinement), [LendingProps] (properties).
    - [LedgerViews], [LedgerTables] (lemmas on tables over a parent), [RawStateTable],
      [OpenView], [ApplyStateTable], [ViewCalls] (transactions as sequences of calls),
      [ViewsProps] (properties).
    - [Directories], [DirectoriesFacts], [DirectoriesProps] (properties).
    - [LedgerState], [Holdings], [Transfers], [Transactors]; their theory:
      [TransfersFrame] (what transfers leave alone), [TransfersMPT] (with sums over maps),
      [TransfersHoldings], [TransfersXRP], [TransfersLines]; [SampleLedger] (a ledger for
      witnesses), [TransfersProps] (properties).
    - [LoanManage], [LoanBrokers], [LoanPay], [LoanSet]; [LoanBooks] (the books of a
      vault), [LoanManageFacts], [LoanPayFacts], [LoanSetFacts], [LoanCoverFacts];
      [LoanMachine] (the protocol as a state machine); [LoanProps],
      [LoanSetProps], [LoanMachineProps] (properties).
    - [Vaults], [VaultFunds]; [VaultFacts] (conversions and exchanges),
      [VaultBooks] (what the transactions do to books and balances), [VaultProps]
      (properties).
    - [Invariants], [InvariantFacts] (entries shown and changes summed),
      [InvariantVaults], [InvariantLoans] (what the transactions show to the checks),
      [InvariantProps] (properties); [InvariantChecks],
      [InvariantXRP] (its properties).
    - [Bytes] (big-endian numbers), [PublicKeys] (with its properties); [Signatures],
      [SignaturesProps] (properties).
    - [WireFields], [Wire], [WireProps] (what is written is read back; properties).
    - [Pipeline], [Batch], [PipelineFacts] (what a transaction that enters a ledger has
      passed and done, [reset_spec]), [TransactorTable], [PipelineSamples] (transactions
      to run), [BatchProps], [PipelineProps] (properties).

    ** What is shown

    - Numbers: products, sums and constructions are the exact result rounded by
      the mode; the operations keep numbers zero or normal; comparison is that
      of the exact values; conversion to an integer rounds and throws exactly
      on overflow; the shift-and-add division by ten is division by ten; values
      on one decimal grid add and subtract without error.
    - Amounts: constructors and sums keep the canonical form; comparison is
      that of the exact values; whole amounts add exactly and [canAdd] and
      [canSubtract] decide the range; [roundToAsset] gives the multiple of the
      unit that the mode selects and is stable; [mulRatio] on whole amounts is
      floor or ceiling.
    - Loan arithmetic: an abstract loan ([LendingSpec.Units]) holds whole units of the
      loan's scale, a payment is a step [pay_step], a transaction a sequence
      [pay_steps].  The loan functions implement it: computing and applying a
      payment is a step, the loop of [loanMakePayment] a sequence, what is
      reported as paid is exactly what the loan loses, and never more than the
      amount offered.  A borrower who offers what is due, in time, is served.  A
      full payment closes the loan exactly; a refused payment
      changes nothing; an overpayment is all or nothing; components and fees
      stay within what is outstanding.
    - Views: the calls of a transaction through a sandbox act as on a finite map, and
      applying them commits that map; a ledger built from an open view answers as the
      view did; searches for the next key end with the least one.  Directories list
      exactly the keys put into them, and deleting one ends.
    - Transfers: tokens, XRP and issued currencies move exactly as the amounts say, the
      outstanding amount of a token is what its holders have, every trust line stays
      listed with both its accounts.
    - Loans and brokers: the books of a vault ([LoanBooks.books_balance]) say that its
      total is what is available and what its borrowers owe, that the debt of each
      broker is what its borrowers owe, and the unrealized loss what they owe on impaired
      loans.  Making, paying, impairing and defaulting a loan and moving cover keep them,
      and the tokens that move are the ones the books record.  Through every sequence
      of transitions ([LoanMachine.transition]) loans keep their brokers and brokers
      their vaults and counts, and a loan that is paid or in default stays so.
    - Vaults: deposits, withdrawals and clawbacks of a vault in a token keep its books,
      and through every sequence of them the vault has the tokens that it calls
      available.  All shares redeem exactly what the vault is worth, fewer never more.
    - Invariant checks: the check for created XRP is exact; what deposits, withdrawals and
      clawbacks of a token vault leave passes [ValidVault], what the transactions of the
      lending protocol leave passes the checks of loans and of fields that must not
      change.
    - Signatures: a canonical signature has one encoding and one root; multiple
      signatures are accepted exactly when distinct listed signers reach the quorum.
    - Wire format: a transaction in order ([WireProps.tx_ok]) is read back from its bytes
      with all its parts; what is signed determines every field that a signature covers;
      what is read has exactly the fields of its type.
    - Pipeline, for any [Transactor]: a transaction that fails in the ledger has only
      paid its fee and used up its number; the drops of the header are those of the
      accounts through every sequence of transactions; an applied transaction is refused
      for ever; what enters was signed for its payer, but for two codes returned before
      the signature is looked at.  Batches: all or nothing, the signers required, and
      which of their keys are checked.
    - Where the code does not do what it says: theorems with a concrete input, such as
      two directed roundings of sums, the wrap-around of the accrued interest, products
      and ratios that are not rounded up, XRP that a payment to its own sender destroys,
      a maximum of a token that a multiple payment exceeds, a default that can never be
      declared, deposits below and withdrawals above the price of a share, transactions
      that succeed and are undone by a check, a fee taken from an account that has not
      signed, a transaction in a batch that its account has not signed, a path that is
      read but not written back.

    Theorems about amounts and loans assume the settings of current
    transactions, both switchovers on ([AmountsFacts.current]).  Loan theorems
    assume the outstanding values are whole units of the scale with at most 16
    digits ([LendingRefine.represents], [LendingSpec.units_ok]); they are kept by
    every payment.  Theorems on the balances of tokens assume that their books are in
    order ([TransfersMPT.books]), which every transfer keeps.  The theorems of the pipeline
    that depend on the transaction state it as a property of its [Transactor]: [NotTEC]
    (the checks before the signature claim no fee, proved for the fifteen), [Shown] (the
    checks are shown every entry that changed, proved for them), [tame] and
    [keeps_sequence].

    ** Fuel

    Loops that are not structural carry fuel that covers every input of their
    type: [scale_up] 16 (at most 15 multiplications reach 16 digits),
    [scale_down] 5 (a 64-bit value loses at most 4 digits), [pop_loop] 16,
    [mul_loop] 23 (a product of two 64-bit words has at most 39 digits),
    [legacy_up] 16 and [legacy_down] 5 and [into_range] 16 (as above), [shrink]
    4 (a 64-bit value).  The loops over the distance of two exponents recurse on
    that distance, [power] on its exponent, and [payment_loop] on the number of
    payments still allowed, at most 100 in a transaction.  The recursion of freezes and
    authorization through shares of vaults carries the depth of the code,
    [maxAssetCheckDepth] 5, and the search for a free address its 256 attempts
    ([maxAccountAttempts]); both limits are of the source.  Searches over tables and pages
    recurse on the number of entries.  The loops that read objects, arrays and paths have
    the number of bytes left, which is enough ([WireProps.reading_terminates]); the depth
    of nested objects is the ten of the source.

    ** What is not modelled

    Assertions ([XRPL_ASSERT]), which release builds do not contain; logging;
    the text and JSON forms of numbers, amounts and transactions, and the wire form of
    anything but transactions (the transactors work on records with the fields they use);
    roots of numbers; cryptography; the memory of the hash router that [checkValidity] consults, and its
    local checks; pseudo-transactions; transaction metadata; the offers, NFT offers and
    lines of liquidity pools that are removed after a transaction failed, and the
    invariant checks of entries the model does not have (offers, escrows, payment
    channels, non-fungible tokens, domains, liquidity pools); the payment engine, a
    parameter of withdrawals of cover to a third party; other transactions; consensus,
    networking and storage.  Undefined behaviour of signed overflow
    is modelled as wrap-around where a theorem does not exclude it.  The
    conversion of a Boost integer to 64 bits is the parameter [convert_to] of
    [mulRatio]. *)

From Stdlib Require Import ZArith Lia Bool List.
Import ListNotations.

Declare Scope xrpl_scope.
Delimit Scope xrpl_scope with xrpl.
Open Scope xrpl_scope.
Open Scope Z_scope.

(** ** Exceptions and results

    C++ exceptions that the modelled code throws, by class. *)

Inductive exn : Set :=
| overflow_error
| runtime_error
| logic_error.

Inductive result (A : Type) : Type :=
| Ok (a : A)
| Throw (e : exn).

Arguments Ok {A} a.
Arguments Throw {A} e.

Definition bind {A B} (m : result A) (f : A -> result B) : result B :=
  match m with
  | Ok a => f a
  | Throw e => Throw e
  end.

Notation "'let*' x ':=' m 'in' k" := (bind m (fun x => k))
  (at level 10, x pattern, m at level 100, k at level 200) : xrpl_scope.

(** ** Machine integers

    Unsigned arithmetic and conversions wrap at their width; the signed
    operations of the modelled code are exact on [Z] and shown in range. *)

Definition u32 (z : Z) : Z := z mod 2 ^ 32.
Definition u64 (z : Z) : Z := z mod 2 ^ 64.
Definition u128 (z : Z) : Z := z mod 2 ^ 128.
Definition i64 (z : Z) : Z := (z + 2 ^ 63) mod 2 ^ 64 - 2 ^ 63.
Definition i32 (z : Z) : Z := (z + 2 ^ 31) mod 2 ^ 32 - 2 ^ 31.

(** ** Automation *)

(** Case analysis on the innermost condition of a term. *)
Ltac case_match_bool :=
  match goal with
  | |- context [if ?b then _ else _] =>
      lazymatch b with
      | context [if _ then _ else _] => fail
      | _ => let E := fresh "E" in destruct b eqn:E
      end
  end.

(** Turn boolean comparisons on [Z] into propositions everywhere. *)
Ltac zbool :=
  repeat match goal with
  | H : (_ && _)%bool = true |- _ => apply andb_true_iff in H; destruct H
  | H : (_ || _)%bool = false |- _ => apply orb_false_iff in H; destruct H
  | H : negb _ = true |- _ => apply negb_true_iff in H
  | H : negb _ = false |- _ => apply negb_false_iff in H
  | H : (_ <? _) = true |- _ => apply Z.ltb_lt in H
  | H : (_ <? _) = false |- _ => apply Z.ltb_ge in H
  | H : (_ <=? _) = true |- _ => apply Z.leb_le in H
  | H : (_ <=? _) = false |- _ => apply Z.leb_gt in H
  | H : (_ =? _) = true |- _ => apply Z.eqb_eq in H
  | H : (_ =? _) = false |- _ => apply Z.eqb_neq in H
  end.

Ltac inv H := inversion H; clear H; subst.

(** Split conjunctions only. *)
Ltac splits := repeat match goal with |- _ /\ _ => split end.

(** Split a successful monadic computation into its steps. *)
Lemma bind_ok {A B} (m : result A) (f : A -> result B) b :
  bind m f = Ok b -> exists a, m = Ok a /\ f a = Ok b.
Proof. destruct m; simpl; intros H; [eauto | discriminate]. Qed.

Lemma bind_assoc {A B C} (m : result A) (f : A -> result B) (g : B -> result C) :
  bind (bind m f) g = bind m (fun a => bind (f a) g).
Proof. destruct m; reflexivity. Qed.

Ltac bind_inv H :=
  match type of H with
  | bind _ _ = Ok _ =>
      let a := fresh "a" in let H1 := fresh "Hb" in
      apply bind_ok in H; destruct H as (a & H1 & H)
  end.

Create HintDb xrpl discriminated.

(** ** Integer lemmas *)

Lemma u64_id z : 0 <= z < 2 ^ 64 -> u64 z = z.
Proof. intros; unfold u64; apply Z.mod_small; lia. Qed.

Lemma u32_id z : 0 <= z < 2 ^ 32 -> u32 z = z.
Proof. intros; unfold u32; apply Z.mod_small; lia. Qed.

Lemma u128_id z : 0 <= z < 2 ^ 128 -> u128 z = z.
Proof. intros; unfold u128; apply Z.mod_small; lia. Qed.

Lemma i64_id z : - 2 ^ 63 <= z < 2 ^ 63 -> i64 z = z.
Proof. intros; unfold i64; rewrite Z.mod_small; lia. Qed.

Lemma u64_range z : 0 <= u64 z < 2 ^ 64.
Proof. apply Z.mod_pos_bound; lia. Qed.

Lemma pow10_pos k : 0 <= k -> 0 < 10 ^ k.
Proof. intros; apply Z.pow_pos_nonneg; lia. Qed.

Lemma pow10_succ k : 0 <= k -> 10 ^ (k + 1) = 10 * 10 ^ k.
Proof. intros; rewrite Z.pow_add_r by lia; lia. Qed.

#[export] Hint Resolve u64_range pow10_pos : xrpl.
