(* ===== verification/Ter.v ===== *)
(** * Result codes

    The codes that the modelled functions and transactors return
    ([include/xrpl/protocol/TER.h]), and [Expected]
    ([include/xrpl/basics/Expected.h]). *)

From S2P Require Import Prelude.

Inductive TER : Set :=
| telFAILED_PROCESSING
| telINSUF_FEE_P
| telNETWORK_ID_MAKES_TX_NON_CANONICAL
| telREQUIRES_NETWORK_ID
| telWRONG_NETWORK
| temARRAY_EMPTY
| temARRAY_TOO_LARGE
| temBAD_AMOUNT
| temBAD_FEE
| temBAD_REGKEY
| temBAD_SIGNATURE
| temBAD_SIGNER
| temBAD_SRC_ACCOUNT
| temDISABLED
| temINVALID
| temINVALID_FLAG
| temINVALID_INNER_BATCH
| temMALFORMED
| temREDUNDANT
| temSEQ_AND_TICKET
| tefALREADY
| tefBAD_AUTH
| tefBAD_AUTH_MASTER
| tefBAD_LEDGER
| tefBAD_QUORUM
| tefBAD_SIGNATURE
| tefEXCEPTION
| tefINTERNAL
| tefINVARIANT_FAILED
| tefMASTER_DISABLED
| tefMAX_LEDGER
| tefNO_TICKET
| tefNOT_MULTI_SIGNING
| tefPAST_SEQ
| tefWRONG_PRIOR
| terINSUF_FEE_B
| terNO_ACCOUNT
| terNO_RIPPLE
| terADDRESS_COLLISION
| terPRE_SEQ
| terPRE_TICKET
| tesSUCCESS
| tecPATH_DRY
| tecPATH_PARTIAL
| tecDIR_FULL
| tecINSUF_RESERVE_LINE
| tecNO_LINE_INSUF_RESERVE
| tecNO_DST
| tecINSUFFICIENT_RESERVE
| tecNO_AUTH
| tecNO_LINE
| tecFAILED_PROCESSING
| tecNO_ISSUER
| tecFROZEN
| tecNO_PERMISSION
| tecNO_TARGET
| tecNO_ENTRY
| tecDST_TAG_NEEDED
| tecINTERNAL
| tecINVARIANT_FAILED
| tecEXPIRED
| tecDUPLICATE
| tecKILLED
| tecHAS_OBLIGATIONS
| tecTOO_SOON
| tecINSUFF_FEE
| tecINSUFFICIENT_FUNDS
| tecOBJECT_NOT_FOUND
| tecINSUFFICIENT_PAYMENT
| tecPRECISION_LOSS
| tecLOCKED
| tecWRONG_ASSET
| tecLIMIT_EXCEEDED
| tecOVERSIZE
| tecNO_DELEGATE_PERMISSION.

Definition isTesSuccess (t : TER) : bool := match t with tesSUCCESS => true | _ => false end.

Definition isTelLocal (t : TER) : bool :=
  match t with
  | telFAILED_PROCESSING | telINSUF_FEE_P | telNETWORK_ID_MAKES_TX_NON_CANONICAL | telREQUIRES_NETWORK_ID
  | telWRONG_NETWORK => true
  | _ => false
  end.

Definition isTemMalformed (t : TER) : bool :=
  match t with
  | temARRAY_EMPTY | temARRAY_TOO_LARGE | temBAD_AMOUNT | temBAD_FEE | temBAD_REGKEY | temBAD_SIGNATURE | temBAD_SIGNER
  | temBAD_SRC_ACCOUNT | temDISABLED | temINVALID | temINVALID_FLAG | temINVALID_INNER_BATCH | temMALFORMED | temREDUNDANT
  | temSEQ_AND_TICKET => true
  | _ => false
  end.

Definition isTefFailure (t : TER) : bool :=
  match t with
  | tefALREADY | tefBAD_AUTH | tefBAD_AUTH_MASTER | tefBAD_LEDGER | tefBAD_QUORUM | tefBAD_SIGNATURE | tefEXCEPTION
  | tefINTERNAL | tefINVARIANT_FAILED | tefMASTER_DISABLED | tefMAX_LEDGER | tefNO_TICKET | tefNOT_MULTI_SIGNING
  | tefPAST_SEQ | tefWRONG_PRIOR => true
  | _ => false
  end.

Definition isTerRetry (t : TER) : bool :=
  match t with
  | terINSUF_FEE_B | terNO_ACCOUNT | terNO_RIPPLE | terADDRESS_COLLISION | terPRE_SEQ | terPRE_TICKET => true
  | _ => false
  end.

Definition isTecClaim (t : TER) : bool :=
  negb (isTelLocal t || isTemMalformed t || isTefFailure t || isTerRetry t || isTesSuccess t).

(** [Expected<A, TER>] *)
Inductive Expected (A : Type) : Type :=
| Value (a : A)
| Unexpected (t : TER).

Arguments Value {A} a.
Arguments Unexpected {A} t.
