(* ===== verification/XrplNumber.v ===== *)
(** * Decimal floating point: [ripple::Number]

    Model of [include/xrpl/basics/Number.h] and
    [src/libxrpl/basics/Number.cpp]: the number representation, the [Guard]
    that carries the digits shifted out of a mantissa, the thread-local
    rounding mode, and the arithmetic.  The rounding mode that the code reads
    from thread-local storage is the argument [md] of each operation;
    [RoundMode] below relates it to [setround] and the scoped guards. *)

From Stdlib Require Import ZArith Lia Bool List.
From S2P Require Import Prelude.

Open Scope Z_scope.

(** ** Representation *)

Definition minMantissa : Z := 1000000000000000.
Definition maxMantissa : Z := 9999999999999999.
Definition minExponent : Z := -32768.
Definition maxExponent : Z := 32768.
Definition int_lowest : Z := -2147483648.
Definition int64_max : Z := 9223372036854775807.

Inductive rounding_mode : Set := to_nearest | towards_zero | downward | upward.

Record Number : Set := mkNumber { mantissa_ : Z; exponent_ : Z }.

(** [Number{}] *)
Definition zero : Number := mkNumber 0 int_lowest.

Definition one : Number := mkNumber 1000000000000000 (-15).

Definition number_eqb (x y : Number) : bool :=
  (mantissa_ x =? mantissa_ y) && (exponent_ x =? exponent_ y).

Definition number_ltb (x y : Number) : bool :=
  let lneg := mantissa_ x <? 0 in
  let rneg := mantissa_ y <? 0 in
  if xorb lneg rneg then lneg
  else if mantissa_ x =? 0 then 0 <? mantissa_ y
  else if mantissa_ y =? 0 then false
  else if exponent_ y <? exponent_ x then lneg
  else if exponent_ x <? exponent_ y then negb lneg
  else mantissa_ x <? mantissa_ y.

Definition number_gtb (x y : Number) : bool := number_ltb y x.
Definition number_leb (x y : Number) : bool := negb (number_ltb y x).
Definition number_geb (x y : Number) : bool := negb (number_ltb x y).

Definition signum (x : Number) : Z :=
  if mantissa_ x <? 0 then -1 else if mantissa_ x =? 0 then 0 else 1.

Definition number_neg (x : Number) : Number := mkNumber (- mantissa_ x) (exponent_ x).

Definition isnormal (x : Number) : bool :=
  let abs_m := if mantissa_ x <? 0 then - mantissa_ x else mantissa_ x in
  (minMantissa <=? abs_m) && (abs_m <=? maxMantissa) &&
  (minExponent <=? exponent_ x) && (exponent_ x <=? maxExponent).

Definition number_abs (x : Number) : Number :=
  if number_ltb x zero then number_neg x else x.

Definition squelch (x limit : Number) : Number :=
  if number_ltb (number_abs x) limit then zero else x.

Definition number_min_value : Number := mkNumber minMantissa minExponent.
Definition number_max_value : Number := mkNumber maxMantissa maxExponent.
Definition number_lowest : Number := number_neg (mkNumber maxMantissa maxExponent).

(** [std::min] and [std::max] at [Number]: the first argument on a tie. *)
Definition number_min (a b : Number) : Number := if number_ltb b a then b else a.
Definition number_max (a b : Number) : Number := if number_ltb a b then b else a.

(** ** The guard digits *)

Module Guard.

(** 16 decimal digits as 4-bit nibbles of a 64-bit word, a sticky bit for the
    digits shifted off its end, and a sign bit. *)
Record t : Set := mk { digits_ : Z; xbit_ : bool; sbit_ : bool }.

Definition init : t := mk 0 false false.

Definition set_positive (g : t) : t := mk (digits_ g) (xbit_ g) false.
Definition set_negative (g : t) : t := mk (digits_ g) (xbit_ g) true.
Definition is_negative (g : t) : bool := sbit_ g.

Definition push (g : t) (d : Z) : t :=
  mk (Z.lor (Z.shiftr (digits_ g) 4) (u64 (Z.shiftl (Z.land d 15) 60)))
     (xbit_ g || negb (Z.land (digits_ g) 15 =? 0))
     (sbit_ g).

Definition pop (g : t) : Z * t :=
  (Z.shiftr (Z.land (digits_ g) 17293822569102704640) 60,
   mk (u64 (Z.shiftl (digits_ g) 4)) (xbit_ g) (sbit_ g)).

(** 0x5000000000000000 *)
Definition half : Z := 5764607523034234880.

Definition round (md : rounding_mode) (g : t) : Z :=
  let nonzero := (0 <? digits_ g) || xbit_ g in
  match md with
  | towards_zero => -1
  | downward => if sbit_ g then (if nonzero then 1 else -1) else -1
  | upward => if sbit_ g then -1 else if nonzero then 1 else -1
  | to_nearest =>
      if half <? digits_ g then 1
      else if digits_ g <? half then -1
      else if xbit_ g then 1
      else 0
  end.

Definition bumps (md : rounding_mode) (g : t) (m : Z) : bool :=
  (round md g =? 1) || ((round md g =? 0) && (Z.land m 1 =? 1)).

Definition doRoundUp (md : rounding_mode) (g : t) (m e : Z) : result (Z * Z) :=
  let '(m, e) :=
    if bumps md g m then
      if maxMantissa <? m + 1 then (Z.quot (m + 1) 10, e + 1) else (m + 1, e)
    else (m, e) in
  let '(m, e) :=
    if e <? minExponent then (0, exponent_ zero) else (m, e) in
  if maxExponent <? e then Throw overflow_error else Ok (m, e).

Definition doRoundDown (md : rounding_mode) (g : t) (m e : Z) : Z * Z :=
  let '(m, e) :=
    if bumps md g m then
      if m - 1 <? minMantissa then ((m - 1) * 10, e - 1) else (m - 1, e)
    else (m, e) in
  if e <? minExponent then (0, exponent_ zero) else (m, e).

Definition doRound (md : rounding_mode) (g : t) (drops : Z) : Z :=
  let drops := if bumps md g drops then drops + 1 else drops in
  if is_negative g then - drops else drops.

(** Move [n] digits of [m] into the guard. *)
Fixpoint shift_right (n : nat) (m : Z) (g : t) : Z * t :=
  match n with
  | O => (m, g)
  | S n => shift_right n (Z.quot m 10) (push g (Z.rem m 10))
  end.

End Guard.

(** ** Normalization *)

(** [while (m < minMantissa && exponent_ > minExponent)]; at most 15 rounds
    for a non-zero [m]. *)
Fixpoint scale_up (fuel : nat) (m e : Z) : Z * Z :=
  match fuel with
  | O => (m, e)
  | S fuel =>
      if (m <? minMantissa) && (minExponent <? e)
      then scale_up fuel (u64 (m * 10)) (e - 1)
      else (m, e)
  end.

(** [while (m > maxMantissa)]; at most 4 rounds for a 64-bit [m]. *)
Fixpoint scale_down (fuel : nat) (m e : Z) (g : Guard.t) : result (Z * Z * Guard.t) :=
  match fuel with
  | O => Ok (m, e, g)
  | S fuel =>
      if maxMantissa <? m then
        if maxExponent <=? e then Throw overflow_error
        else scale_down fuel (m / 10) (e + 1) (Guard.push g (m mod 10))
      else Ok (m, e, g)
  end.

Definition normalize (md : rounding_mode) (x : Number) : result Number :=
  if mantissa_ x =? 0 then Ok zero
  else
    let negative := mantissa_ x <? 0 in
    let m := u64 (mantissa_ x) in
    let m := if negative then u64 (- m) else m in
    let '(m, e) := scale_up 16 m (exponent_ x) in
    let g := if negative then Guard.set_negative Guard.init else Guard.init in
    let* (m, e, g) := scale_down 5 m e g in
    let m := i64 m in
    if (e <? minExponent) || (m <? minMantissa) then Ok zero
    else
      let* (m, e) := Guard.doRoundUp md g m e in
      Ok (mkNumber (if negative then - m else m) e).

(** [Number{mantissa, exponent}] and [Number{mantissa}] *)
Definition make (md : rounding_mode) (m e : Z) : result Number :=
  normalize md (mkNumber m e).

Definition of_rep (md : rounding_mode) (m : Z) : result Number := make md m 0.

(** ** Arithmetic *)

(** [while (xm < minMantissa)] of the subtraction branch; at most 16 rounds
    for a positive [m]. *)
Fixpoint pop_loop (fuel : nat) (m e : Z) (g : Guard.t) : Z * Z * Guard.t :=
  match fuel with
  | O => (m, e, g)
  | S fuel =>
      if m <? minMantissa then
        let '(d, g) := Guard.pop g in
        pop_loop fuel (m * 10 - d) (e - 1) g
      else (m, e, g)
  end.

Definition number_add (md : rounding_mode) (x y : Number) : result Number :=
  if number_eqb y zero then Ok x
  else if number_eqb x zero then Ok y
  else if number_eqb x (number_neg y) then Ok zero
  else
    let '(xm, xn) :=
      if mantissa_ x <? 0 then (- mantissa_ x, -1) else (mantissa_ x, 1) in
    let xe := exponent_ x in
    let '(ym, yn) :=
      if mantissa_ y <? 0 then (- mantissa_ y, -1) else (mantissa_ y, 1) in
    let ye := exponent_ y in
    let '(xm, xe, ym, ye, g) :=
      if xe <? ye then
        let g := if xn =? -1 then Guard.set_negative Guard.init else Guard.init in
        let '(xm, g) := Guard.shift_right (Z.to_nat (ye - xe)) xm g in
        (xm, ye, ym, ye, g)
      else if ye <? xe then
        let g := if yn =? -1 then Guard.set_negative Guard.init else Guard.init in
        let '(ym, g) := Guard.shift_right (Z.to_nat (xe - ye)) ym g in
        (xm, xe, ym, xe, g)
      else (xm, xe, ym, ye, Guard.init) in
    if xn =? yn then
      let xm := xm + ym in
      let '(xm, xe, g) :=
        if maxMantissa <? xm
        then (Z.quot xm 10, xe + 1, Guard.push g (Z.rem xm 10))
        else (xm, xe, g) in
      let* (xm, xe) := Guard.doRoundUp md g xm xe in
      Ok (mkNumber (xm * xn) xe)
    else
      let '(xm, xe, xn) :=
        if ym <? xm then (xm - ym, xe, xn) else (ym - xm, ye, yn) in
      let '(xm, xe, g) := pop_loop 16 xm xe g in
      let '(xm, xe) := Guard.doRoundDown md g xm xe in
      Ok (mkNumber (xm * xn) xe).

Definition number_sub (md : rounding_mode) (x y : Number) : result Number :=
  number_add md x (number_neg y).

(** [divu10]: quotient and remainder of a 128-bit value by ten, by shifts and
    additions. *)
Definition divu10 (u : Z) : Z * Z :=
  let q := u128 (Z.shiftr u 1 + Z.shiftr u 2) in
  let q := u128 (q + Z.shiftr q 4) in
  let q := u128 (q + Z.shiftr q 8) in
  let q := u128 (q + Z.shiftr q 16) in
  let q := u128 (q + Z.shiftr q 32) in
  let q := u128 (q + Z.shiftr q 64) in
  let q := Z.shiftr q 3 in
  let r := u32 (u128 (u - u128 (u128 (Z.shiftl q 3) + u128 (Z.shiftl q 1)))) in
  let c := Z.shiftr (u32 (r + 6)) 4 in
  (u128 (q + c), u32 (r - u32 (c * 10))).

(** [while (zm > maxMantissa)] of the product; at most 23 rounds for the
    product of two 64-bit mantissas. *)
Fixpoint mul_loop (fuel : nat) (zm ze : Z) (g : Guard.t) : Z * Z * Guard.t :=
  match fuel with
  | O => (zm, ze, g)
  | S fuel =>
      if maxMantissa <? zm then
        let '(q, r) := divu10 zm in
        mul_loop fuel q (ze + 1) (Guard.push g r)
      else (zm, ze, g)
  end.

Definition number_mul (md : rounding_mode) (x y : Number) : result Number :=
  if number_eqb x zero then Ok x
  else if number_eqb y zero then Ok y
  else
    let '(xm, xn) :=
      if mantissa_ x <? 0 then (- mantissa_ x, -1) else (mantissa_ x, 1) in
    let '(ym, yn) :=
      if mantissa_ y <? 0 then (- mantissa_ y, -1) else (mantissa_ y, 1) in
    let zm := u128 (u128 xm * u128 ym) in
    let ze := exponent_ x + exponent_ y in
    let zn := xn * yn in
    let g := if zn =? -1 then Guard.set_negative Guard.init else Guard.init in
    let '(zm, ze, g) := mul_loop 23 zm ze g in
    let* (xm, xe) := Guard.doRoundUp md g (i64 zm) ze in
    Ok (mkNumber (xm * zn) xe).

Definition number_div (md : rounding_mode) (x y : Number) : result Number :=
  if number_eqb y zero then Throw overflow_error
  else if number_eqb x zero then Ok x
  else
    let '(nm, np) :=
      if mantissa_ x <? 0 then (- mantissa_ x, -1) else (mantissa_ x, 1) in
    let '(dm, dp) :=
      if mantissa_ y <? 0 then (- mantissa_ y, -1) else (mantissa_ y, 1) in
    let f := 100000000000000000 in
    let m := i64 (u128 (u128 nm * f) / u128 dm) in
    normalize md
      (mkNumber (m * (np * dp)) (exponent_ x - exponent_ y - 17)).

(** ** Conversion to an integer *)

Fixpoint rep_scale_up (n : nat) (drops : Z) : result Z :=
  match n with
  | O => Ok drops
  | S n =>
      if Z.quot int64_max 10 <? drops then Throw overflow_error
      else rep_scale_up n (drops * 10)
  end.

(** [operator rep()] *)
Definition to_rep (md : rounding_mode) (x : Number) : result Z :=
  let drops := mantissa_ x in
  let offset := exponent_ x in
  if drops =? 0 then Ok drops
  else
    let '(drops, g) :=
      if drops <? 0 then (- drops, Guard.set_negative Guard.init)
      else (drops, Guard.init) in
    let '(drops, g) := Guard.shift_right (Z.to_nat (- offset)) drops g in
    let* drops := rep_scale_up (Z.to_nat offset) drops in
    Ok (Guard.doRound md g drops).

Fixpoint truncate_loop (n : nat) (m e : Z) : Z * Z :=
  match n with
  | O => (m, e)
  | S n =>
      if (e <? 0) && negb (m =? 0) then truncate_loop n (Z.quot m 10) (e + 1)
      else (m, e)
  end.

Definition truncate (md : rounding_mode) (x : Number) : result Number :=
  if (0 <=? exponent_ x) || (mantissa_ x =? 0) then Ok x
  else
    let '(m, e) := truncate_loop (Z.to_nat (- exponent_ x)) (mantissa_ x) (exponent_ x) in
    normalize md (mkNumber m e).

(** ** Powers *)

(** [power(f, n)]: the recursion on [n / 2] follows the binary digits of [n]. *)
Fixpoint power_pos (md : rounding_mode) (f : Number) (n : positive) : result Number :=
  match n with
  | xH => Ok f
  | xO n =>
      let* r := power_pos md f n in
      number_mul md r r
  | xI n =>
      let* r := power_pos md f n in
      let* r := number_mul md r r in
      number_mul md r f
  end.

Definition power (md : rounding_mode) (f : Number) (n : Z) : result Number :=
  match n with
  | Zpos p => power_pos md f p
  | _ => Ok one
  end.

(** ** The thread-local rounding mode *)

Module RoundMode.

(** A computation on a thread reads and may change the thread's mode, and may
    throw. *)
Definition TL (A : Type) : Type := rounding_mode -> result A * rounding_mode.

Definition getround : TL rounding_mode := fun mode_ => (Ok mode_, mode_).

(** Sets the mode and returns the previous one ([std::exchange]). *)
Definition setround (mode : rounding_mode) : TL rounding_mode :=
  fun mode_ => (Ok mode_, mode).

Definition tl_bind {A B} (m : TL A) (k : A -> TL B) : TL B :=
  fun mode_ =>
    match m mode_ with
    | (Ok a, mode_) => k a mode_
    | (Throw e, mode_) => (Throw e, mode_)
    end.

(** The destructor of [saveNumberRoundMode] runs when its scope ends, also by
    an exception. *)
Definition saveNumberRoundMode {A} (saved : rounding_mode) (scope : TL A) : TL A :=
  fun mode_ =>
    let '(r, mode_) := scope mode_ in
    (r, snd (setround saved mode_)).

Definition NumberRoundModeGuard {A} (mode : rounding_mode) (scope : TL A) : TL A :=
  tl_bind (setround mode) (fun saved => saveNumberRoundMode saved scope).

(** A computation that only reads the mode. *)
Definition reads {A} (f : rounding_mode -> result A) : TL A :=
  tl_bind getround (fun md mode_ => (f md, mode_)).

End RoundMode.
