(* ===== verification/XrplNumberFacts.v ===== *)
(** * Rounding of [ripple::Number]: reference definitions and lemmas

    [round_quot] is the textbook rounding of a quotient of integers in each
    mode and [pack] the textbook construction of a 16-digit number from an
    exact integer; the lemmas relate the guard digits and the loops of the
    implementation to them. *)

From Stdlib Require Import ZArith Lia Bool.
From S2P Require Import Prelude.
From S2P Require Import XrplNumber.

Open Scope Z_scope.

(** ** Reference definitions *)

(** Magnitude of [n / d] rounded to an integer; [neg] is the sign of the value
    whose magnitude is rounded. *)
Definition round_quot (md : rounding_mode) (neg : bool) (n d : Z) : Z :=
  let q := n / d in
  let r := n mod d in
  match md with
  | towards_zero => q
  | downward => if neg && (0 <? r) then q + 1 else q
  | upward => if negb neg && (0 <? r) then q + 1 else q
  | to_nearest =>
      match 2 * r ?= d with
      | Lt => q
      | Gt => q + 1
      | Eq => if Z.even q then q else q + 1
      end
  end.

(** The number with sign [neg] and magnitude [n / 10^k * 10^e], the magnitude
    rounded as for a value of sign [s]. *)
Definition pack_with (md : rounding_mode) (s neg : bool) (n k e : Z) : result Number :=
  let q := round_quot md s n (10 ^ k) in
  let '(q, e) := if maxMantissa <? q then (q / 10, e + 1) else (q, e) in
  if e <? minExponent then Ok zero
  else if maxExponent <? e then Throw overflow_error
  else Ok (mkNumber (if neg then - q else q) e).

Definition pack (md : rounding_mode) (neg : bool) (n k e : Z) : result Number :=
  pack_with md neg neg n k e.

Definition neg_number (x : Number) : bool := mantissa_ x <? 0.
Definition abs_mantissa (x : Number) : Z := Z.abs (mantissa_ x).

Definition normal (x : Number) : Prop :=
  minMantissa <= abs_mantissa x <= maxMantissa /\
  minExponent <= exponent_ x <= maxExponent.

(** Every number the code builds is zero or normal. *)
Definition wf (x : Number) : Prop := x = zero \/ normal x.

(** [g] holds the fraction [r / 10^k]. *)
Record holds (g : Guard.t) (r k : Z) : Prop := {
  holds_k : 0 <= k;
  holds_r : 0 <= r < 10 ^ k;
  holds_digits : 0 <= Guard.digits_ g < 2 ^ 64;
  holds_zero : Guard.digits_ g = 0 /\ Guard.xbit_ g = false <-> r = 0;
  holds_half : Guard.digits_ g = Guard.half /\ Guard.xbit_ g = false <-> 2 * r = 10 ^ k;
  holds_above :
    Guard.half < Guard.digits_ g \/
    (Guard.digits_ g = Guard.half /\ Guard.xbit_ g = true) <-> 10 ^ k < 2 * r
}.

(** [m] with the guard [g] stands for [n / 10^k]. *)
Record shifted (n k m : Z) (g : Guard.t) : Prop := {
  shifted_n : 0 <= n;
  shifted_m : m = n / 10 ^ k;
  shifted_g : holds g (n mod 10 ^ k) k
}.

(** Closed comparisons of integers, by evaluation. *)
Ltac eval_cmp :=
  try unfold normal;
  repeat match goal with |- _ /\ _ => split end;
  solve [vm_compute; discriminate | vm_compute; reflexivity].

(** ** The guard *)

Lemma push_digits g d :
  0 <= Guard.digits_ g < 2 ^ 64 -> 0 <= d <= 9 ->
  Guard.digits_ (Guard.push g d) = Guard.digits_ g / 16 + d * 2 ^ 60.
Proof.
  intros HD Hd. unfold Guard.push; cbn [Guard.digits_].
  change 15 with (Z.ones 4). rewrite Z.land_ones by lia.
  rewrite (Z.mod_small d) by lia.
  rewrite u64_id by (rewrite Z.shiftl_mul_pow2; lia).
  rewrite Z.shiftr_div_pow2 by lia. change (2 ^ 4) with 16.
  set (a := Guard.digits_ g / 16).
  assert (Ha : 0 <= a < 2 ^ 60)
    by (unfold a; split; [apply Z.div_pos | apply Z.div_lt_upper_bound]; lia).
  assert (Hl : Z.land a (Z.shiftl d 60) = 0).
  { apply Z.bits_inj'; intros n Hn.
    rewrite Z.land_spec, Z.bits_0, Z.shiftl_spec by lia.
    destruct (Z.ltb_spec n 60).
    - rewrite (Z.testbit_neg_r d) by lia. apply andb_false_r.
    - rewrite <- (Z.mod_small a (2 ^ 60)) by lia.
      now rewrite Z.mod_pow2_bits_high by lia. }
  pose proof (Z.add_lor_land a (Z.shiftl d 60)) as Hp.
  rewrite Z.shiftl_mul_pow2 in * by lia. lia.
Qed.

Lemma push_xbit g d :
  Guard.xbit_ (Guard.push g d) = Guard.xbit_ g || negb (Guard.digits_ g mod 16 =? 0).
Proof.
  unfold Guard.push; cbn [Guard.xbit_]. change 15 with (Z.ones 4).
  now rewrite Z.land_ones by lia.
Qed.

Lemma push_sbit g d : Guard.sbit_ (Guard.push g d) = Guard.sbit_ g.
Proof. reflexivity. Qed.

Lemma holds_init s : holds (Guard.mk 0 false s) 0 0.
Proof. split; cbn; unfold Guard.half; intuition lia. Qed.

(** Comparison of [d * P + r] with half of [10 * P] is decided by [d] and
    whether [r] is zero. *)
Lemma digit_half d P r :
  0 < P -> 0 <= d <= 9 -> 0 <= r < P ->
  (d * P + r = 0 <-> d = 0 /\ r = 0) /\
  (2 * (d * P + r) = 10 * P <-> d = 5 /\ r = 0) /\
  (10 * P < 2 * (d * P + r) <-> 5 < d \/ (d = 5 /\ 0 < r)) /\
  0 <= d * P + r < 10 * P.
Proof.
  intros HP Hd Hr.
  assert (d <= 4 -> d * P <= 4 * P) by nia.
  assert (6 <= d -> 6 * P <= d * P) by nia.
  assert (1 <= d -> P <= d * P) by nia.
  assert (d * P <= 9 * P) by nia.
  assert (d = 5 -> d * P = 5 * P) by (intros ->; lia).
  assert (d = 0 -> d * P = 0) by (intros ->; lia).
  lia.
Qed.

Lemma holds_push g r k d :
  holds g r k -> 0 <= d <= 9 -> holds (Guard.push g d) (d * 10 ^ k + r) (k + 1).
Proof.
  intros [Hk Hr HD Hz Hh Ha] Hd.
  pose proof (push_digits g d HD Hd) as HP.
  pose proof (push_xbit g d) as HX.
  pose proof (digit_half d (10 ^ k) r (pow10_pos k Hk) Hd Hr) as (F0 & F5 & F6 & FB).
  assert (HQ : 0 <= Guard.digits_ g / 16 < 2 ^ 60)
    by (split; [apply Z.div_pos | apply Z.div_lt_upper_bound]; lia).
  pose proof (Z.div_mod (Guard.digits_ g) 16) as HM.
  pose proof (Z.mod_pos_bound (Guard.digits_ g) 16) as HB.
  assert (HN : (r = 0 /\ Guard.digits_ g / 16 = 0 /\ Guard.xbit_ (Guard.push g d) = false) \/
               (0 < r /\ (0 < Guard.digits_ g / 16 \/ Guard.xbit_ (Guard.push g d) = true))).
  { rewrite HX. destruct (Z.eqb_spec (Guard.digits_ g mod 16) 0), (Guard.xbit_ g);
      cbn [orb negb]; intuition lia. }
  split; rewrite ?pow10_succ, ?HP by lia; unfold Guard.half in *; try lia;
    destruct (Guard.xbit_ (Guard.push g d)); intuition lia.
Qed.

Lemma shifted_init n s : 0 <= n -> shifted n 0 n (Guard.mk 0 false s).
Proof.
  intros; split; [lia | now rewrite Z.div_1_r |].
  rewrite Z.mod_1_r. apply holds_init.
Qed.

Lemma shifted_push n k m g :
  shifted n k m g -> shifted n (k + 1) (m / 10) (Guard.push g (m mod 10)).
Proof.
  intros [Hn -> HG]. pose proof (holds_k _ _ _ HG) as Hk.
  pose proof (pow10_pos k Hk).
  assert (E : 10 ^ (k + 1) = 10 ^ k * 10) by (rewrite pow10_succ; lia).
  split; [lia | |].
  - rewrite E, Z.div_div by lia. reflexivity.
  - replace (n mod 10 ^ (k + 1)) with ((n / 10 ^ k) mod 10 * 10 ^ k + n mod 10 ^ k)
      by (rewrite E, Z.rem_mul_r by lia; lia).
    apply holds_push; [exact HG |].
    pose proof (Z.mod_pos_bound (n / 10 ^ k) 10); lia.
Qed.

Lemma shifted_m_nonneg n k m g : shifted n k m g -> 0 <= m.
Proof.
  intros [Hn -> HG]. apply Z.div_pos; [lia | apply pow10_pos, (holds_k _ _ _ HG)].
Qed.

(** Adding a whole number of units leaves the guard as it is. *)
Lemma shifted_add a n k m g :
  0 <= a -> shifted n k m g -> shifted (a * 10 ^ k + n) k (a + m) g.
Proof.
  intros Ha [Hn -> HG]. pose proof (pow10_pos k (holds_k _ _ _ HG)).
  split; [nia | |].
  - rewrite Z.div_add_l by lia. reflexivity.
  - rewrite Z.add_comm, Z.mod_add by lia. exact HG.
Qed.

Lemma shift_right_spec c n k m g :
  shifted n k m g ->
  let '(m', g') := Guard.shift_right c m g in
  shifted n (k + Z.of_nat c) m' g' /\ Guard.sbit_ g' = Guard.sbit_ g.
Proof.
  revert k m g; induction c as [| c IH]; intros k m g H; cbn [Guard.shift_right].
  - rewrite Z.add_0_r; auto.
  - pose proof (shifted_m_nonneg _ _ _ _ H).
    rewrite Z.quot_div_nonneg, Z.rem_mod_nonneg by lia.
    specialize (IH (k + 1) _ _ (shifted_push _ _ _ _ H)).
    destruct (Guard.shift_right c _ _) as [m' g'].
    rewrite push_sbit in IH.
    replace (k + Z.of_nat (S c)) with (k + 1 + Z.of_nat c) by lia. exact IH.
Qed.

Lemma land_1_odd m : (Z.land m 1 =? 1) = Z.odd m.
Proof.
  change 1 with (Z.ones 1) at 1. rewrite Z.land_ones by lia.
  change (2 ^ 1) with 2. rewrite Zmod_odd. destruct (Z.odd m); reflexivity.
Qed.

(** The rounding decision of the guard is the reference rounding. *)
Lemma bumps_spec md n k m g :
  shifted n k m g ->
  (if Guard.bumps md g m then m + 1 else m) = round_quot md (Guard.sbit_ g) n (10 ^ k).
Proof.
  intros [Hn -> [Hk Hr HD Hz Hh Ha]]. unfold Guard.bumps, Guard.round, round_quot.
  rewrite land_1_odd.
  assert (NZ : (0 <? Guard.digits_ g) || Guard.xbit_ g = (0 <? n mod 10 ^ k)).
  { destruct (Z.ltb_spec 0 (Guard.digits_ g)), (Guard.xbit_ g), (Z.ltb_spec 0 (n mod 10 ^ k));
      cbn [orb]; try reflexivity; intuition lia. }
  rewrite NZ. destruct md; cbn [Z.eqb orb andb].
  - destruct (Z.compare_spec (2 * (n mod 10 ^ k)) (10 ^ k)) as [E | E | E];
      destruct (Z.ltb_spec Guard.half (Guard.digits_ g)),
               (Z.ltb_spec (Guard.digits_ g) Guard.half), (Guard.xbit_ g);
      cbn [Z.eqb orb andb]; try reflexivity; try intuition lia.
    rewrite <- Z.negb_even. destruct (Z.even (n / 10 ^ k)); reflexivity.
  - reflexivity.
  - destruct (Guard.sbit_ g), (0 <? n mod 10 ^ k); reflexivity.
  - destruct (Guard.sbit_ g), (0 <? n mod 10 ^ k); reflexivity.
Qed.

(** ** Reference rounding *)

Lemma round_quot_bounds md neg n d :
  0 < d -> n / d <= round_quot md neg n d <= n / d + 1.
Proof.
  intros. unfold round_quot.
  destruct md; [destruct (_ ?= _); [destruct (Z.even _) | |] | | |];
    repeat case_match_bool; lia.
Qed.

Lemma round_quot_exact md neg q d : 0 < d -> round_quot md neg (q * d) d = q.
Proof.
  intros. unfold round_quot. rewrite Z.div_mul, Z.mod_mul by lia.
  destruct md; [| reflexivity | destruct neg; reflexivity ..].
  change (2 * 0) with 0. destruct (Z.compare_spec 0 d); [lia | reflexivity | lia].
Qed.

(** Nearest: the error is at most half a unit. *)
Lemma round_quot_nearest neg n d :
  0 < d -> 2 * Z.abs (round_quot to_nearest neg n d * d - n) <= d.
Proof.
  intros. unfold round_quot.
  pose proof (Z.div_mod n d). pose proof (Z.mod_pos_bound n d).
  destruct (Z.compare_spec (2 * (n mod d)) d); [destruct (Z.even _) | |]; nia.
Qed.

(** Directed modes, for the signed value. *)
Lemma round_quot_downward (neg : bool) n d :
  0 < d ->
  if neg then n <= round_quot downward neg n d * d < n + d
  else n - d < round_quot downward neg n d * d <= n.
Proof.
  intros. unfold round_quot.
  pose proof (Z.div_mod n d). pose proof (Z.mod_pos_bound n d).
  destruct neg; cbn [andb]; [destruct (Z.ltb_spec 0 (n mod d)) |]; nia.
Qed.

Lemma round_quot_upward (neg : bool) n d :
  0 < d ->
  if neg then n - d < round_quot upward neg n d * d <= n
  else n <= round_quot upward neg n d * d < n + d.
Proof.
  intros. unfold round_quot.
  pose proof (Z.div_mod n d). pose proof (Z.mod_pos_bound n d).
  destruct neg; cbn [andb negb]; [| destruct (Z.ltb_spec 0 (n mod d))]; nia.
Qed.

(** Sign as the code keeps it. *)
Definition sgn (neg : bool) : Z := if neg then -1 else 1.

Lemma sgn_eqb a b : (sgn a =? sgn b) = Bool.eqb a b.
Proof. destruct a, b; reflexivity. Qed.

Lemma sgn_neg b : (sgn b =? -1) = b.
Proof. destruct b; reflexivity. Qed.

Lemma doRoundUp_pack_with md neg n k m g e :
  shifted n k m g -> m <= maxMantissa ->
  (let* (m, e) := Guard.doRoundUp md g m e in Ok (mkNumber (m * sgn neg) e)) =
  pack_with md (Guard.sbit_ g) neg n k e.
Proof.
  intros HS Hm. pose proof (shifted_m_nonneg _ _ _ _ HS).
  unfold Guard.doRoundUp, pack_with. rewrite <- (bumps_spec md _ _ _ _ HS).
  assert (ES : forall z, z * sgn neg = if neg then - z else z)
    by (destruct neg; cbn; intros; lia).
  destruct (Guard.bumps md g m).
  - destruct (Z.ltb_spec maxMantissa (m + 1)).
    + rewrite Z.quot_div_nonneg by lia.
      destruct (Z.ltb_spec (e + 1) minExponent); [reflexivity |].
      destruct (Z.ltb_spec maxExponent (e + 1)); [reflexivity |]. cbn. now rewrite ES.
    + destruct (Z.ltb_spec e minExponent); [reflexivity |].
      destruct (Z.ltb_spec maxExponent e); [reflexivity |]. cbn. now rewrite ES.
  - destruct (Z.ltb_spec maxMantissa m); [lia |].
    destruct (Z.ltb_spec e minExponent); [reflexivity |].
    destruct (Z.ltb_spec maxExponent e); [reflexivity |]. cbn. now rewrite ES.
Qed.

Lemma doRoundUp_pack md neg n k m g e :
  shifted n k m g -> Guard.sbit_ g = neg -> m <= maxMantissa ->
  (let* (m, e) := Guard.doRoundUp md g m e in Ok (mkNumber (m * sgn neg) e)) =
  pack md neg n k e.
Proof. intros ? <- ?. now apply doRoundUp_pack_with. Qed.

(** [pack] returns zero or a normal number. *)
Lemma pack_wf md s neg n k e x :
  0 <= k -> minMantissa * 10 ^ k <= n < (maxMantissa + 1) * 10 ^ k ->
  pack_with md s neg n k e = Ok x -> wf x.
Proof.
  intros Hk Hn. unfold pack_with. pose proof (pow10_pos k Hk).
  pose proof (round_quot_bounds md s n (10 ^ k) ltac:(lia)) as HB.
  assert (minMantissa <= n / 10 ^ k) by (apply Z.div_le_lower_bound; lia).
  assert (n / 10 ^ k < maxMantissa + 1) by (apply Z.div_lt_upper_bound; lia).
  set (q := round_quot _ _ _ _) in *.
  destruct (Z.ltb_spec maxMantissa q) as [Hq | Hq].
  - replace q with (maxMantissa + 1) by lia.
    destruct (Z.ltb_spec (e + 1) minExponent); [intros [= <-]; now left |].
    destruct (Z.ltb_spec maxExponent (e + 1)); [discriminate |].
    intros [= <-]. right. unfold normal, abs_mantissa, minMantissa, maxMantissa.
    cbn [mantissa_ exponent_]. destruct neg; vm_compute Z.div; lia.
  - destruct (Z.ltb_spec e minExponent); [intros [= <-]; now left |].
    destruct (Z.ltb_spec maxExponent e); [discriminate |].
    intros [= <-]. right. unfold normal, abs_mantissa.
    cbn [mantissa_ exponent_]. destruct neg; unfold minMantissa, maxMantissa in *; lia.
Qed.

(** ** Normalization *)

Lemma scale_up_spec fuel m e :
  0 < m -> minMantissa <= m * 10 ^ Z.of_nat fuel ->
  exists j, 0 <= j /\ scale_up fuel m e = (m * 10 ^ j, e - j) /\
    (minMantissa <= m * 10 ^ j \/ e - j <= minExponent) /\
    (j = 0 \/ m * 10 ^ j <= maxMantissa /\ minExponent <= e - j).
Proof.
  revert m e; induction fuel as [| fuel IH]; intros m e Hm Hf; cbn [scale_up].
  - exists 0. rewrite Z.mul_1_r, Z.sub_0_r. cbn in Hf. repeat split; lia.
  - destruct (Z.ltb_spec m minMantissa); [destruct (Z.ltb_spec minExponent e) |];
      cbn [andb];
      [| exists 0; rewrite Z.mul_1_r, Z.sub_0_r; repeat split; lia ..].
    assert (u64 (m * 10) = m * 10) as -> by (apply u64_id; unfold minMantissa in *; lia).
    destruct (IH (m * 10) (e - 1)) as (j & Hj & E & X & Y); [lia | |].
    { rewrite Nat2Z.inj_succ, <- Z.add_1_r, pow10_succ in Hf by lia. nia. }
    exists (j + 1). rewrite pow10_succ by lia.
    replace (m * (10 * 10 ^ j)) with (m * 10 * 10 ^ j) by ring.
    replace (e - (j + 1)) with (e - 1 - j) by ring.
    repeat split; auto; [lia |]. right.
    destruct Y as [-> | Y]; [| exact Y].
    rewrite Z.mul_1_r. unfold minMantissa, maxMantissa in *; lia.
Qed.

Lemma scale_down_spec fuel n k m e g :
  shifted n k m g -> m < 10 ^ (16 + Z.of_nat fuel) ->
  exists c, 0 <= c /\ m / 10 ^ c <= maxMantissa /\
    (c = 0 \/ minMantissa <= m / 10 ^ c) /\
    (0 < c /\ maxExponent < e + c /\ scale_down fuel m e g = Throw overflow_error \/
     (c = 0 \/ e + c <= maxExponent) /\
     exists g', scale_down fuel m e g = Ok (m / 10 ^ c, e + c, g') /\
       shifted n (k + c) (m / 10 ^ c) g' /\ Guard.sbit_ g' = Guard.sbit_ g).
Proof.
  revert k m e g; induction fuel as [| fuel IH]; intros k m e g HS Hf; cbn [scale_down].
  - exists 0. rewrite Z.div_1_r, !Z.add_0_r. cbn in Hf. unfold maxMantissa.
    repeat split; try lia. right. split; [lia |]. eauto.
  - pose proof (shifted_m_nonneg _ _ _ _ HS).
    destruct (Z.ltb_spec maxMantissa m).
    2: { exists 0. rewrite Z.div_1_r, !Z.add_0_r. repeat split; try lia. right.
         split; [lia |]. eauto. }
    destruct (IH (k + 1) (m / 10) (e + 1) (Guard.push g (m mod 10)))
      as (c & Hc & Hm & Hl & HR).
    + now apply shifted_push.
    + apply Z.div_lt_upper_bound; [lia |].
      rewrite <- pow10_succ by lia. eapply Z.lt_le_trans; [exact Hf |].
      apply Z.pow_le_mono_r; lia.
    + exists (c + 1).
      assert (E : m / 10 ^ (c + 1) = m / 10 / 10 ^ c).
      { rewrite pow10_succ by lia. now rewrite Z.div_div by (try apply pow10_pos; lia). }
      rewrite E. replace (e + (c + 1)) with (e + 1 + c) by ring.
      replace (k + (c + 1)) with (k + 1 + c) by ring.
      assert (minMantissa <= m / 10 / 10 ^ c).
      { destruct Hl as [-> | Hl]; [| exact Hl]. rewrite Z.div_1_r.
        apply Z.div_le_lower_bound; unfold minMantissa, maxMantissa in *; lia. }
      repeat split; try lia.
      destruct (Z.leb_spec maxExponent e).
      { left. repeat split; lia. }
      destruct HR as [(? & ? & ?) | (? & g' & ? & ? & ?)].
      * left. repeat split; auto; lia.
      * right. split; [lia |]. exists g'. auto.
Qed.
