(* ===== verification/XrplNumberCorrect.v ===== *)
(** * Correctness of the [ripple::Number] operations

    Each operation is related to the reference rounding of
    [XrplNumberFacts]. *)

From Stdlib Require Import ZArith Lia Bool.
From S2P Require Import Prelude.
From S2P Require Import XrplNumber.
From S2P Require Import XrplNumberFacts.

Open Scope Z_scope.

(** ** Uniqueness of the decimal scale *)

Lemma pow10_ge k : 1 <= k -> 10 <= 10 ^ k.
Proof. intros; change 10 with (10 ^ 1) at 1; apply Z.pow_le_mono_r; lia. Qed.

Lemma scale_unique m k c :
  0 <= k -> 0 <= c ->
  minMantissa * 10 ^ k <= m < (maxMantissa + 1) * 10 ^ k ->
  minMantissa * 10 ^ c <= m < (maxMantissa + 1) * 10 ^ c -> k = c.
Proof.
  intros Hk Hc H1 H2. change (maxMantissa + 1) with (minMantissa * 10) in *.
  destruct (Z.lt_trichotomy k c) as [L | [E | L]]; [| exact E |].
  - replace c with (k + (c - k)) in H2 by ring.
    rewrite Z.pow_add_r in H2 by lia.
    pose proof (pow10_ge (c - k) ltac:(lia)). pose proof (pow10_pos k Hk).
    assert (minMantissa * (10 ^ k * 10) <= minMantissa * (10 ^ k * 10 ^ (c - k)))
      by (apply Z.mul_le_mono_nonneg_l; [unfold minMantissa; lia | nia]).
    lia.
  - replace k with (c + (k - c)) in H1 by ring.
    rewrite Z.pow_add_r in H1 by lia.
    pose proof (pow10_ge (k - c) ltac:(lia)). pose proof (pow10_pos c Hc).
    assert (minMantissa * (10 ^ c * 10) <= minMantissa * (10 ^ c * 10 ^ (k - c)))
      by (apply Z.mul_le_mono_nonneg_l; [unfold minMantissa; lia | nia]).
    lia.
Qed.

Lemma scale_of_quot m c :
  0 <= c -> m / 10 ^ c <= maxMantissa -> minMantissa <= m / 10 ^ c ->
  minMantissa * 10 ^ c <= m < (maxMantissa + 1) * 10 ^ c.
Proof.
  intros Hc H1 H2. pose proof (pow10_pos c Hc).
  pose proof (Z.div_mod m (10 ^ c)). pose proof (Z.mod_pos_bound m (10 ^ c)). nia.
Qed.

(** Every magnitude of at least 16 digits has a scale. *)
Lemma scale_exists n :
  minMantissa <= n ->
  exists k, 0 <= k /\ minMantissa * 10 ^ k <= n < (maxMantissa + 1) * 10 ^ k.
Proof.
  assert (forall b a, minMantissa <= a -> a < minMantissa * 10 ^ Z.of_nat b ->
    exists k, 0 <= k /\ minMantissa * 10 ^ k <= a < (maxMantissa + 1) * 10 ^ k) as X.
  { induction b as [| b IH]; intros a H0 H1.
    - change (10 ^ Z.of_nat 0) with 1 in H1. lia.
    - destruct (Z.lt_ge_cases a (minMantissa * 10 ^ Z.of_nat b)); [auto |].
      exists (Z.of_nat b). split; [lia |]. split; [lia |].
      rewrite Nat2Z.inj_succ, <- Z.add_1_r, pow10_succ in H1 by lia.
      change (maxMantissa + 1) with (minMantissa * 10). lia. }
  intros H. apply (X (Z.to_nat n) n H). rewrite Z2Nat.id by (unfold minMantissa in *; lia).
  pose proof (Z.pow_gt_lin_r 10 n). unfold minMantissa in *. lia.
Qed.

(** ** Normalization *)

Lemma u64_magnitude m :
  - 2 ^ 63 <= m < 2 ^ 63 ->
  (if m <? 0 then u64 (- u64 m) else u64 m) = Z.abs m.
Proof.
  intros. destruct (Z.ltb_spec m 0).
  - unfold u64. replace (m mod 2 ^ 64) with (m + 2 ^ 64)
      by (apply Z.mod_unique with (-1); lia).
    symmetry; apply Z.mod_unique with (-1); lia.
  - rewrite u64_id; lia.
Qed.

Lemma scale_up_id fuel m e : minMantissa <= m -> scale_up fuel m e = (m, e).
Proof.
  intros. destruct fuel; [reflexivity |]. cbn.
  now destruct (Z.ltb_spec m minMantissa); [lia |].
Qed.

Lemma guard_sign (b : bool) :
  (if b then Guard.set_negative Guard.init else Guard.init) = Guard.mk 0 false b.
Proof. destruct b; reflexivity. Qed.

Lemma sgn_mul (neg : bool) z : (if neg then - z else z) = z * sgn neg.
Proof. destruct neg; cbn; lia. Qed.

(** A mantissa of at least 16 digits: [k] digits are rounded away. *)
Lemma normalize_large md m e k :
  - 2 ^ 63 <= m < 2 ^ 63 -> 0 <= k ->
  minMantissa * 10 ^ k <= Z.abs m < (maxMantissa + 1) * 10 ^ k ->
  normalize md (mkNumber m e) =
    if e + k <? minExponent then Ok zero
    else pack md (m <? 0) (Z.abs m) k (e + k).
Proof.
  intros HI Hk HM. pose proof (pow10_pos k Hk).
  assert (minMantissa <= Z.abs m) by (unfold minMantissa in *; nia).
  unfold normalize; cbn [mantissa_ exponent_].
  destruct (Z.eqb_spec m 0); [unfold minMantissa in *; lia |].
  rewrite u64_magnitude, scale_up_id, guard_sign by lia.
  destruct (scale_down_spec 5 (Z.abs m) 0 (Z.abs m) e (Guard.mk 0 false (m <? 0)))
    as (c & Hc & Hm & Hl & HR); [apply shifted_init; lia | change (10 ^ (16 + Z.of_nat 5)) with 1000000000000000000000; lia |].
  assert (k = c) as ->.
  { apply (scale_unique (Z.abs m)); auto. apply scale_of_quot; auto.
    destruct Hl as [-> | Hl]; [rewrite Z.div_1_r |]; auto. }
  assert (minMantissa <= Z.abs m / 10 ^ c) by (apply Z.div_le_lower_bound; lia).
  destruct HR as [(? & ? & ->) | (? & g' & -> & HS & HG)]; cbn [bind].
  - destruct (Z.ltb_spec (e + c) minExponent); [unfold minExponent, maxExponent in *; lia |].
    unfold pack, pack_with. set (q := round_quot _ _ _ _).
    destruct (maxMantissa <? q);
      repeat (case_match_bool; zbool); try reflexivity;
      unfold minExponent, maxExponent in *; lia.
  - rewrite i64_id by (unfold minMantissa, maxMantissa in *; lia).
    destruct (Z.ltb_spec (Z.abs m / 10 ^ c) minMantissa); [lia |].
    rewrite orb_false_r. destruct (e + c <? minExponent); [reflexivity |].
    rewrite Z.add_0_l in HS.
    rewrite <- (doRoundUp_pack md (m <? 0) _ _ _ _ (e + c) HS HG Hm).
    destruct (Guard.doRoundUp _ _ _ _) as [[m' e'] |]; cbn [bind]; [| reflexivity].
    now rewrite sgn_mul.
Qed.

(** A shorter mantissa is scaled up exactly. *)
Lemma normalize_small md m e j :
  - 2 ^ 63 <= m < 2 ^ 63 -> m <> 0 -> 0 < j ->
  minMantissa <= Z.abs m * 10 ^ j <= maxMantissa ->
  normalize md (mkNumber m e) =
    if e - j <? minExponent then Ok zero
    else if maxExponent <? e - j then Throw overflow_error
    else Ok (mkNumber (m * 10 ^ j) (e - j)).
Proof.
  intros HI H0 Hj HM. pose proof (pow10_ge j ltac:(lia)).
  assert (Z.abs m < minMantissa) by (unfold minMantissa, maxMantissa in *; nia).
  unfold normalize; cbn [mantissa_ exponent_].
  destruct (Z.eqb_spec m 0); [lia |].
  rewrite u64_magnitude, guard_sign by lia.
  destruct (scale_up_spec 16 (Z.abs m) e) as (i & Hi & -> & HX & HY);
    [lia | change (10 ^ Z.of_nat 16) with 10000000000000000; unfold minMantissa; lia |].
  set (a := Z.abs m * 10 ^ i) in *.
  assert (a <= maxMantissa).
  { destruct HY as [-> | HY]; [unfold a; rewrite Z.mul_1_r |];
      unfold minMantissa, maxMantissa in *; lia. }
  assert (0 < a) by (pose proof (pow10_pos i Hi); unfold a; nia).
  destruct (scale_down_spec 5 a 0 a (e - i) (Guard.mk 0 false (m <? 0)))
    as (c & Hc & Hm & Hl & HR);
    [apply shifted_init; lia
    | change (10 ^ (16 + Z.of_nat 5)) with 1000000000000000000000; unfold maxMantissa in *; lia |].
  assert (c = 0) as ->.
  { destruct Hl as [-> | Hl]; [reflexivity |].
    destruct (Z.eq_dec c 0); [auto |]. exfalso.
    pose proof (scale_of_quot a c Hc Hm Hl). pose proof (pow10_ge c ltac:(lia)).
    unfold minMantissa, maxMantissa in *; nia. }
  destruct HR as [(? & ?) | (? & g' & -> & HS & HG)]; [lia |]; cbn [bind].
  rewrite Z.div_1_r, !Z.add_0_r in *.
  rewrite i64_id by (unfold maxMantissa in *; lia).
  destruct (Z.ltb_spec a minMantissa) as [La | La].
  - rewrite orb_true_r. destruct HX as [? | HX]; [lia |].
    assert (i < j).
    { destruct (Z.lt_ge_cases i j); [auto |]. exfalso.
      assert (10 ^ j <= 10 ^ i) by (apply Z.pow_le_mono_r; lia).
      unfold a in La. nia. }
    now destruct (Z.ltb_spec (e - j) minExponent); [| lia].
  - assert (i = j) as ->.
    { unfold a in *. change maxMantissa with (minMantissa * 10 - 1) in *.
      destruct (Z.lt_trichotomy i j) as [L | [E | L]]; [| exact E |]; exfalso.
      - assert (10 * 10 ^ i <= 10 ^ j)
          by (rewrite <- pow10_succ by lia; apply Z.pow_le_mono_r; lia).
        pose proof (Z.mul_le_mono_nonneg_l (10 * 10 ^ i) (10 ^ j) (Z.abs m)). lia.
      - assert (10 * 10 ^ j <= 10 ^ i)
          by (rewrite <- pow10_succ by lia; apply Z.pow_le_mono_r; lia).
        pose proof (Z.mul_le_mono_nonneg_l (10 * 10 ^ j) (10 ^ i) (Z.abs m)). lia. }
    rewrite orb_false_r. destruct (e - j <? minExponent) eqn:EU; [reflexivity |].
    pose proof (doRoundUp_pack md (m <? 0) _ _ _ _ (e - j) HS HG ltac:(lia)) as HP.
    transitivity (pack md (m <? 0) a 0 (e - j)).
    { rewrite <- HP. destruct (Guard.doRoundUp _ _ _ _) as [[m' e'] |]; cbn [bind];
        [| reflexivity]. now rewrite sgn_mul. }
    unfold pack, pack_with. rewrite <- (Z.mul_1_r a), round_quot_exact by lia.
    destruct (Z.ltb_spec maxMantissa a); [lia |]. rewrite EU.
    destruct (maxExponent <? e - j); [reflexivity |]. do 2 f_equal.
    unfold a. rewrite sgn_mul. destruct (Z.ltb_spec m 0); cbn [sgn]; lia.
Qed.

(** ** Multiplication *)

(** One refinement step of the quotient keeps it below the dividend. *)
Lemma divu10_approx u :
  0 <= u < 2 ^ 128 ->
  let q0 := u / 2 + u / 4 in
  let q1 := q0 + q0 / 16 in
  let q2 := q1 + q1 / 256 in
  let q3 := q2 + q2 / 65536 in
  let q4 := q3 + q3 / 4294967296 in
  let q5 := q4 + q4 / 18446744073709551616 in
  (0 <= q0 <= q1 /\ q1 <= q2 <= q3 /\ q3 <= q4 <= q5 /\ q5 <= u) /\
  0 <= u - q5 / 8 * 10 <= 19.
Proof.
  intros H q0 q1 q2 q3 q4 q5. subst q0 q1 q2 q3 q4 q5.
  Z.div_mod_to_equations. lia.
Qed.

Lemma divu10_spec u : 0 <= u < 2 ^ 128 -> divu10 u = (u / 10, u mod 10).
Proof.
  intros H. unfold divu10.
  rewrite !Z.shiftr_div_pow2, !Z.shiftl_mul_pow2 by lia.
  change (2 ^ 1) with 2. change (2 ^ 2) with 4. change (2 ^ 4) with 16.
  change (2 ^ 8) with 256. change (2 ^ 16) with 65536. change (2 ^ 32) with 4294967296.
  change (2 ^ 64) with 18446744073709551616. change (2 ^ 3) with 8.
  pose proof (divu10_approx u H) as HA. cbv zeta in HA.
  set (q0 := u / 2 + u / 4) in *. rewrite (u128_id q0) by lia.
  set (q1 := q0 + q0 / 16) in *. rewrite (u128_id q1) by lia.
  set (q2 := q1 + q1 / 256) in *. rewrite (u128_id q2) by lia.
  set (q3 := q2 + q2 / 65536) in *. rewrite (u128_id q3) by lia.
  set (q4 := q3 + q3 / 4294967296) in *. rewrite (u128_id q4) by lia.
  set (q5 := q4 + q4 / 18446744073709551616) in *. rewrite (u128_id q5) by lia.
  clearbody q0 q1 q2 q3 q4 q5. assert (0 <= q5 / 8) by (apply Z.div_pos; lia).
  set (q := q5 / 8) in *. clearbody q.
  rewrite (u128_id (q * 8)), (u128_id (q * 2)), (u128_id (q * 8 + q * 2)) by lia.
  replace (u - (q * 8 + q * 2)) with (u - q * 10) by ring.
  rewrite (u128_id (u - q * 10)), (u32_id (u - q * 10)) by lia.
  set (r := u - q * 10) in *. rewrite (u32_id (r + 6)) by lia.
  assert (u = q * 10 + r) by (unfold r; ring). clearbody r.
  assert (EC : (r + 6) / 16 = if 10 <=? r then 1 else 0)
    by (destruct (Z.leb_spec 10 r); symmetry;
        [apply Z.div_unique with (r - 10) | apply Z.div_unique with (r + 6)]; lia).
  rewrite EC. destruct (Z.leb_spec 10 r).
  - change (u32 (1 * 10)) with 10. rewrite u128_id, u32_id by lia. f_equal.
    + apply Z.div_unique with (r - 10); lia.
    + apply Z.mod_unique with (q + 1); lia.
  - change (u32 (0 * 10)) with 0. rewrite u128_id, u32_id by lia. f_equal.
    + apply Z.div_unique with r; lia.
    + apply Z.mod_unique with q; lia.
Qed.

Lemma mul_loop_spec fuel n k m e g :
  shifted n k m g -> m < 10 ^ (16 + Z.of_nat fuel) -> m < 2 ^ 128 ->
  exists c g', 0 <= c /\ m / 10 ^ c <= maxMantissa /\
    (c = 0 \/ minMantissa <= m / 10 ^ c) /\
    mul_loop fuel m e g = (m / 10 ^ c, e + c, g') /\
    shifted n (k + c) (m / 10 ^ c) g' /\ Guard.sbit_ g' = Guard.sbit_ g.
Proof.
  revert k m e g; induction fuel as [| fuel IH]; intros k m e g HS Hf HW; cbn [mul_loop].
  - exists 0, g. rewrite Z.div_1_r, !Z.add_0_r. cbn in Hf. unfold maxMantissa.
    splits; auto; lia.
  - pose proof (shifted_m_nonneg _ _ _ _ HS).
    destruct (Z.ltb_spec maxMantissa m).
    2: { exists 0, g. rewrite Z.div_1_r, !Z.add_0_r. splits; auto; lia. }
    rewrite divu10_spec by lia.
    destruct (IH (k + 1) (m / 10) (e + 1) (Guard.push g (m mod 10)))
      as (c & g' & Hc & Hm & Hl & -> & HS' & HG).
    + now apply shifted_push.
    + apply Z.div_lt_upper_bound; [lia |].
      rewrite <- pow10_succ by lia. eapply Z.lt_le_trans; [exact Hf |].
      apply Z.pow_le_mono_r; lia.
    + apply Z.div_lt_upper_bound; lia.
    + exists (c + 1), g'.
      assert (E : m / 10 ^ (c + 1) = m / 10 / 10 ^ c).
      { rewrite pow10_succ by lia. now rewrite Z.div_div by (try apply pow10_pos; lia). }
      rewrite E. replace (e + (c + 1)) with (e + 1 + c) by ring.
      replace (k + (c + 1)) with (k + 1 + c) by ring.
      splits; auto; try lia. right.
      destruct Hl as [-> | Hl]; [| exact Hl]. rewrite Z.div_1_r.
      apply Z.div_le_lower_bound; unfold minMantissa, maxMantissa in *; lia.
Qed.

Lemma normal_neq_zero x : normal x -> number_eqb x zero = false.
Proof.
  intros [H _]. unfold number_eqb, abs_mantissa, minMantissa in *.
  destruct (Z.eqb_spec (mantissa_ x) (mantissa_ zero)); [| reflexivity].
  cbn in *. lia.
Qed.

Lemma sign_split x :
  (if mantissa_ x <? 0 then (- mantissa_ x, -1) else (mantissa_ x, 1)) =
  (abs_mantissa x, sgn (neg_number x)).
Proof.
  unfold abs_mantissa, neg_number. destruct (Z.ltb_spec (mantissa_ x) 0);
    cbn [sgn]; f_equal; lia.
Qed.

Lemma number_mul_pack md x y k :
  normal x -> normal y -> 0 <= k ->
  let p := abs_mantissa x * abs_mantissa y in
  minMantissa * 10 ^ k <= p < (maxMantissa + 1) * 10 ^ k ->
  number_mul md x y =
    pack md (xorb (neg_number x) (neg_number y)) p k (exponent_ x + exponent_ y + k).
Proof.
  intros Hx Hy Hk p Hp. unfold number_mul.
  rewrite !normal_neq_zero, !sign_split by assumption.
  destruct Hx as [Hx _], Hy as [Hy _]. cbv beta iota.
  assert (0 <= p < 10 ^ 32) by (unfold p, minMantissa, maxMantissa in *; nia).
  rewrite (u128_id (abs_mantissa x)), (u128_id (abs_mantissa y)), u128_id
    by (unfold minMantissa, maxMantissa, p in *; lia).
  fold p. set (neg := xorb _ _).
  assert (sgn (neg_number x) * sgn (neg_number y) = sgn neg) as ->
    by (unfold neg; destruct (neg_number x), (neg_number y); reflexivity).
  rewrite sgn_neg, guard_sign.
  destruct (mul_loop_spec 23 p 0 p (exponent_ x + exponent_ y) (Guard.mk 0 false neg))
    as (c & g' & Hc & Hm & Hl & -> & HS & HG);
    [apply shifted_init; lia
    | change (10 ^ (16 + Z.of_nat 23)) with (10 ^ 39); lia | lia |].
  assert (minMantissa <= p) by (unfold minMantissa in *; pose proof (pow10_pos k Hk); nia).
  assert (k = c) as ->.
  { apply (scale_unique p); auto. apply scale_of_quot; auto.
    destruct Hl as [-> | Hl]; [rewrite Z.div_1_r |]; auto. }
  rewrite Z.add_0_l in HS.
  rewrite i64_id.
  - apply doRoundUp_pack; auto.
  - pose proof (shifted_m_nonneg _ _ _ _ HS). unfold maxMantissa in *; lia.
Qed.
