(* ===== verification/XrplNumberAdd.v ===== *)
(** * Correctness of [Number::operator+=]

    Operands of the same sign are added exactly and rounded as [pack] does.
    Operands of opposite signs are subtracted, digits are recovered from the
    guard on cancellation, and the result is rounded by [doRoundDown]. *)

From Stdlib Require Import ZArith Lia Bool.
From S2P Require Import Prelude.
From S2P Require Import XrplNumber.
From S2P Require Import XrplNumberFacts.
From S2P Require Import XrplNumberCorrect.

Open Scope Z_scope.

(** ** Reference definitions *)

(** The lower of the two exponents, at which both operands are integers. *)
Definition low_exponent (x y : Number) : Z := Z.min (exponent_ x) (exponent_ y).

(** Mantissa of [x] in units of [10^e], for [e] below its exponent. *)
Definition at_exponent (x : Number) (e : Z) : Z :=
  mantissa_ x * 10 ^ (exponent_ x - e).

(** The exact sum in units of [10 ^ low_exponent x y]. *)
Definition exact_sum (x y : Number) : Z :=
  at_exponent x (low_exponent x y) + at_exponent y (low_exponent x y).

(** Rounding of a difference: as [round_quot], except that [towards_zero]
    rounds the magnitude up. *)
Definition round_sub (md : rounding_mode) (neg : bool) (n d : Z) : Z :=
  match md with
  | towards_zero => - (- n / d)
  | _ => round_quot md neg n d
  end.

Definition pack_sub (md : rounding_mode) (neg : bool) (n k e : Z) : result Number :=
  let q := round_sub md neg n (10 ^ k) in
  let '(q, e) := if q <? minMantissa then (q * 10, e - 1) else (q, e) in
  if e <? minExponent then Ok zero
  else Ok (mkNumber (if neg then - q else q) e).

(** Direction of rounding does not depend on the sign of the guard. *)
Definition sign_free (md : rounding_mode) : bool :=
  match md with to_nearest | towards_zero => true | _ => false end.

(** The sign the guard has in [number_add x y], operands of one sign: it is
    set when a mantissa is shifted. *)
Definition guard_sbit (x y : Number) : bool :=
  if exponent_ x =? exponent_ y then false else neg_number x.

(** ** Operands of the same sign *)

Lemma round_quot_sign_free md a b n d :
  sign_free md = true -> round_quot md a n d = round_quot md b n d.
Proof. destruct md; try discriminate; reflexivity. Qed.

Lemma normal_abs_range x : normal x -> minMantissa <= abs_mantissa x <= maxMantissa.
Proof. now intros []. Qed.

Lemma not_opposite x y :
  normal x -> neg_number x = neg_number y -> number_eqb x (number_neg y) = false.
Proof.
  intros [H _] E. unfold number_eqb, number_neg, neg_number, abs_mantissa, minMantissa in *.
  destruct (Z.eqb_spec (mantissa_ x) (mantissa_ (mkNumber (- mantissa_ y) (exponent_ y)))) as [E' |];
    [| reflexivity]. cbn in E'.
  destruct (Z.ltb_spec (mantissa_ x) 0), (Z.ltb_spec (mantissa_ y) 0); try discriminate; lia.
Qed.

(** Sum of magnitudes, one operand with the higher exponent. *)
Lemma add_magnitudes md neg s big small hi lo k :
  minMantissa <= big <= maxMantissa -> minMantissa <= small <= maxMantissa ->
  lo <= hi -> 0 <= k ->
  let n := big * 10 ^ (hi - lo) + small in
  minMantissa * 10 ^ k <= n < (maxMantissa + 1) * 10 ^ k ->
  let '(m, g) := Guard.shift_right (Z.to_nat (hi - lo)) small (Guard.mk 0 false s) in
  (let '(m, e, g) :=
     if maxMantissa <? big + m
     then (Z.quot (big + m) 10, hi + 1, Guard.push g (Z.rem (big + m) 10))
     else (big + m, hi, g) in
   let* (m, e) := Guard.doRoundUp md g m e in
   Ok (mkNumber (m * sgn neg) e)) = pack_with md s neg n k (lo + k).
Proof.
  intros Hb Hs Hl Hk n Hn.
  pose proof (shift_right_spec (Z.to_nat (hi - lo)) small 0 small (Guard.mk 0 false s)
                (shifted_init small s ltac:(unfold minMantissa in *; lia))) as HS.
  destruct (Guard.shift_right _ _ _) as [m g]. destruct HS as [HS HG].
  rewrite Z.add_0_l, Z2Nat.id in HS by lia. cbn [Guard.sbit_] in HG.
  apply (shifted_add big) in HS; [| unfold minMantissa in *; lia]. fold n in HS.
  pose proof (shifted_m _ _ _ _ HS) as EM.
  pose proof (shifted_m_nonneg _ _ _ _ HS) as HM.
  assert (HL : minMantissa <= big + m).
  { rewrite EM. apply Z.div_le_lower_bound; [apply pow10_pos; lia |]. unfold n.
    pose proof (pow10_pos (hi - lo) ltac:(lia)). unfold minMantissa in *. nia. }
  destruct (Z.ltb_spec maxMantissa (big + m)) as [HO | HO].
  - rewrite Z.quot_div_nonneg, Z.rem_mod_nonneg by lia.
    apply shifted_push in HS.
    assert (m <= small).
    { assert (m = small / 10 ^ (hi - lo)) as ->.
      { unfold n in EM. rewrite Z.div_add_l in EM by (pose proof (pow10_pos (hi - lo)); lia). lia. }
      apply Z.div_le_upper_bound; [apply pow10_pos; lia |].
      pose proof (pow10_pos (hi - lo) ltac:(lia)). unfold minMantissa in *. nia. }
    assert ((big + m) / 10 <= maxMantissa)
      by (apply Z.div_le_upper_bound; unfold maxMantissa in *; lia).
    assert (minMantissa <= (big + m) / 10)
      by (apply Z.div_le_lower_bound; unfold maxMantissa, minMantissa in *; lia).
    assert (k = hi - lo + 1) as ->.
    { apply (scale_unique n); auto; [lia |]. apply scale_of_quot; [lia | |];
        rewrite <- (shifted_m _ _ _ _ HS); assumption. }
    replace (lo + (hi - lo + 1)) with (hi + 1) by ring.
    rewrite <- HG, <- (push_sbit g ((big + m) mod 10)).
    now apply doRoundUp_pack_with.
  - assert (k = hi - lo) as ->.
    { apply (scale_unique n); auto; [lia |]. apply scale_of_quot; [lia | |];
        rewrite <- EM; assumption. }
    replace (lo + (hi - lo)) with hi by ring.
    rewrite <- HG. now apply doRoundUp_pack_with.
Qed.

Lemma number_add_same_sign md x y k :
  normal x -> normal y -> neg_number x = neg_number y -> 0 <= k ->
  minMantissa * 10 ^ k <= Z.abs (exact_sum x y) < (maxMantissa + 1) * 10 ^ k ->
  number_add md x y =
    pack_with md (guard_sbit x y) (neg_number x) (Z.abs (exact_sum x y)) k
      (low_exponent x y + k).
Proof.
  intros Hx Hy HN Hk HR. unfold guard_sbit.
  assert (ES : Z.abs (exact_sum x y) =
    abs_mantissa x * 10 ^ (exponent_ x - low_exponent x y) +
    abs_mantissa y * 10 ^ (exponent_ y - low_exponent x y)).
  { unfold exact_sum, at_exponent, abs_mantissa, neg_number, low_exponent in *.
    pose proof (pow10_pos (exponent_ x - Z.min (exponent_ x) (exponent_ y)) ltac:(lia)).
    pose proof (pow10_pos (exponent_ y - Z.min (exponent_ x) (exponent_ y)) ltac:(lia)).
    destruct (Z.ltb_spec (mantissa_ x) 0), (Z.ltb_spec (mantissa_ y) 0);
      try discriminate; nia. }
  rewrite ES in *. unfold number_add.
  rewrite !normal_neq_zero, not_opposite, !sign_split by assumption. cbv beta iota.
  rewrite !sgn_neg, !guard_sign, sgn_eqb, HN, Bool.eqb_reflx.
  apply normal_abs_range in Hx, Hy. unfold low_exponent in *.
  destruct (Z.ltb_spec (exponent_ x) (exponent_ y)) as [L | L].
  - rewrite Z.min_l in * by lia.
    rewrite Z.sub_diag, Z.pow_0_r, Z.mul_1_r in *.
    rewrite (Z.add_comm (abs_mantissa x)) in *.
    pose proof (add_magnitudes md (neg_number y) (neg_number y) (abs_mantissa y)
                  (abs_mantissa x) (exponent_ y) (exponent_ x) k Hy Hx
                  ltac:(lia) Hk HR) as H.
    destruct (Z.eqb_spec (exponent_ x) (exponent_ y)); [lia |].
    destruct (Guard.shift_right _ _ _) as [m g].
    now rewrite (Z.add_comm m).
  - destruct (Z.ltb_spec (exponent_ y) (exponent_ x)) as [L' | L'].
    + rewrite Z.min_r in * by lia.
      rewrite Z.sub_diag, Z.pow_0_r, Z.mul_1_r in *.
      pose proof (add_magnitudes md (neg_number y) (neg_number y) (abs_mantissa x)
                    (abs_mantissa y) (exponent_ x) (exponent_ y) k Hx Hy
                    ltac:(lia) Hk HR) as H.
    destruct (Z.eqb_spec (exponent_ x) (exponent_ y)); [lia |].
      destruct (Guard.shift_right _ _ _) as [m g]. exact H.
    + assert (E : exponent_ x = exponent_ y) by lia. rewrite <- E, Z.min_id in *.
      rewrite Z.sub_diag, Z.pow_0_r, !Z.mul_1_r in *.
      pose proof (add_magnitudes md (neg_number y) false (abs_mantissa x) (abs_mantissa y)
                    (exponent_ x) (exponent_ x) k Hx Hy ltac:(lia) Hk) as H.
      rewrite Z.sub_diag, Z.pow_0_r, Z.mul_1_r in H. cbn [Z.to_nat Guard.shift_right] in H.
      rewrite Z.eqb_refl. now apply H.
Qed.

(** ** Operands of opposite signs *)

Lemma shift_right_last c m g :
  Guard.shift_right (S c) m g =
  let '(m, g) := Guard.shift_right c m g in (Z.quot m 10, Guard.push g (Z.rem m 10)).
Proof.
  revert m g; induction c as [| c IH]; intros m g; [reflexivity |].
  cbn [Guard.shift_right] in *. apply IH.
Qed.

(** Popping gives back the last digit pushed; the digits below the sixteenth
    stay in the sticky bit. *)
Lemma holds_pop g r k d :
  holds g r k -> 0 <= d <= 9 ->
  exists g', Guard.pop (Guard.push g d) = (d, g') /\ holds g' r k /\
    Guard.sbit_ g' = Guard.sbit_ g.
Proof.
  intros [Hk Hr HD Hz Hh Ha] Hd.
  pose proof (push_digits g d HD Hd) as HP. pose proof (push_xbit g d) as HX.
  pose proof (Z.div_mod (Guard.digits_ g) 16) as HM.
  pose proof (Z.mod_pos_bound (Guard.digits_ g) 16) as HB.
  unfold Guard.pop. rewrite HP, HX, push_sbit.
  set (D := Guard.digits_ g) in *. set (q := D / 16) in *. set (w := D mod 16) in *.
  assert (HQ : 0 <= q < 2 ^ 60) by lia.
  assert (Z.shiftr (Z.land (q + d * 2 ^ 60) 17293822569102704640) 60 = d) as ->.
  { rewrite Z.shiftr_land. change (Z.shiftr 17293822569102704640 60) with (Z.ones 4).
    rewrite Z.land_ones, Z.shiftr_div_pow2, Z.div_add, (Z.div_small q) by lia.
    apply Z.mod_small; lia. }
  assert (u64 (Z.shiftl (q + d * 2 ^ 60) 4) = 16 * q) as ->.
  { unfold u64. rewrite Z.shiftl_mul_pow2 by lia. symmetry.
    apply Z.mod_unique with d; lia. }
  eexists; split; [reflexivity |]. split; [| reflexivity].
  split; cbn [Guard.digits_ Guard.xbit_]; auto; try lia;
    unfold Guard.half in *; destruct (Z.eqb_spec w 0), (Guard.xbit_ g);
    cbn [orb negb]; intuition lia.
Qed.

Lemma holds_zero_guard g k : holds g 0 k -> g = Guard.mk 0 false (Guard.sbit_ g).
Proof.
  intros [_ _ _ [_ Hz] _ _]. destruct (Hz eq_refl) as [HD HX].
  destruct g; cbn in *; congruence.
Qed.

(** With an empty guard the loop scales up exactly. *)
Lemma pop_loop_zero fuel m e s :
  0 < m <= maxMantissa -> minMantissa <= m * 10 ^ Z.of_nat fuel ->
  exists j, 0 <= j /\ minMantissa <= m * 10 ^ j <= maxMantissa /\
    pop_loop fuel m e (Guard.mk 0 false s) = (m * 10 ^ j, e - j, Guard.mk 0 false s).
Proof.
  revert m e; induction fuel as [| fuel IH]; intros m e Hm Hf; cbn [pop_loop].
  - exists 0. rewrite Z.mul_1_r, Z.sub_0_r. cbn in Hf. splits; auto; lia.
  - destruct (Z.ltb_spec m minMantissa).
    + change (Guard.pop (Guard.mk 0 false s)) with (0, Guard.mk 0 false s). cbv beta iota.
      destruct (IH (m * 10 - 0) (e - 1)) as (j & Hj & HM & ->).
      * unfold minMantissa, maxMantissa in *; lia.
      * rewrite Nat2Z.inj_succ, <- Z.add_1_r, pow10_succ in Hf by lia. lia.
      * exists (j + 1). rewrite pow10_succ by lia. rewrite Z.sub_0_r in *.
        replace (m * (10 * 10 ^ j)) with (m * 10 * 10 ^ j) by ring.
        replace (e - (j + 1)) with (e - 1 - j) by ring. splits; auto; lia.
    + exists 0. rewrite Z.mul_1_r, Z.sub_0_r. splits; auto; lia.
Qed.

Lemma pop_loop_exit fuel m e g : minMantissa <= m -> pop_loop fuel m e g = (m, e, g).
Proof.
  intros. destruct fuel; [reflexivity |]. cbn.
  now destruct (Z.ltb_spec m minMantissa); [lia |].
Qed.

(** The rounding decision on a difference [m - r / 10^k]. *)
Lemma bumps_sub md neg m k r g :
  holds g r k -> r = 0 \/ Guard.sbit_ g = negb neg ->
  (if Guard.bumps md g m then m - 1 else m) = round_sub md neg (m * 10 ^ k - r) (10 ^ k).
Proof.
  intros [Hk Hr HD Hz Hh Ha] HG. pose proof (pow10_pos k Hk).
  assert (NZ : (0 <? Guard.digits_ g) || Guard.xbit_ g = (0 <? r)).
  { destruct (Z.ltb_spec 0 (Guard.digits_ g)), (Guard.xbit_ g), (Z.ltb_spec 0 r);
      cbn [orb]; try reflexivity; intuition lia. }
  unfold Guard.bumps, Guard.round, round_sub, round_quot. rewrite land_1_odd, NZ.
  destruct (Z.eq_dec r 0) as [-> | NR].
  - destruct Hz as [_ Hz]. destruct (Hz eq_refl) as [HD0 HX0]. rewrite HD0, HX0.
    rewrite Z.sub_0_r, Z.div_mul, Z.mod_mul by lia.
    destruct md; cbn -[Z.mul Z.div Z.compare].
    + change (2 * 0) with 0. destruct (Z.compare_spec 0 (10 ^ k)); [lia | reflexivity | lia].
    + replace (- (m * 10 ^ k)) with (- m * 10 ^ k) by ring. rewrite Z.div_mul; lia.
    + destruct (Guard.sbit_ g), neg; reflexivity.
    + destruct (Guard.sbit_ g), neg; reflexivity.
  - assert ((m * 10 ^ k - r) / 10 ^ k = m - 1) as ->
      by (symmetry; apply Z.div_unique with (10 ^ k - r); nia).
    assert ((m * 10 ^ k - r) mod 10 ^ k = 10 ^ k - r) as ->
      by (symmetry; apply Z.mod_unique with (m - 1); nia).
    assert (0 < r) by lia.
    destruct HG as [? | HG]; [lia |]. rewrite HG.
    destruct md; cbn [Z.eqb orb andb].
    + destruct (Z.compare_spec (2 * (10 ^ k - r)) (10 ^ k)) as [E | E | E];
        destruct (Z.ltb_spec Guard.half (Guard.digits_ g)),
                 (Z.ltb_spec (Guard.digits_ g) Guard.half), (Guard.xbit_ g);
        cbn [Z.eqb orb andb]; try lia; try (intuition lia).
      rewrite Z.even_sub, <- Z.negb_odd. destruct (Z.odd m); cbn; lia.
    + replace (- (m * 10 ^ k - r)) with (- m * 10 ^ k + r) by ring.
      rewrite Z.div_add_l, Z.div_small by lia. lia.
    + destruct neg, (Z.ltb_spec 0 r), (Z.ltb_spec 0 (10 ^ k - r)); cbn; lia.
    + destruct neg, (Z.ltb_spec 0 r), (Z.ltb_spec 0 (10 ^ k - r)); cbn; lia.
Qed.

Lemma doRoundDown_pack md neg m k r g e :
  holds g r k -> r = 0 \/ Guard.sbit_ g = negb neg -> minMantissa <= m ->
  (let '(m, e) := Guard.doRoundDown md g m e in Ok (mkNumber (m * sgn neg) e)) =
  pack_sub md neg (m * 10 ^ k - r) k e.
Proof.
  intros HH HG Hm. unfold Guard.doRoundDown, pack_sub.
  rewrite <- (bumps_sub md neg m k r g HH HG).
  assert (ES : forall z, z * sgn neg = if neg then - z else z)
    by (destruct neg; cbn; intros; lia).
  destruct (Guard.bumps md g m); [destruct (Z.ltb_spec (m - 1) minMantissa) |
    destruct (Z.ltb_spec m minMantissa); [lia |]];
    (case_match_bool; [reflexivity |]; now rewrite ES).
Qed.

Lemma deficit_range lo hi m P r :
  lo <= m <= hi -> 0 <= r < P -> (lo - 1) * P < m * P - r <= hi * P.
Proof. nia. Qed.

(** Subtraction of magnitudes, the larger operand with the higher exponent. *)
Lemma sub_magnitudes md neg big small hi lo :
  minMantissa <= big <= maxMantissa -> minMantissa <= small <= maxMantissa -> lo < hi ->
  let d := big * 10 ^ (hi - lo) - small in
  let '(m, g) := Guard.shift_right (Z.to_nat (hi - lo)) small (Guard.mk 0 false (negb neg)) in
  m < big /\
  exists j k, 0 <= j /\ 0 <= k /\ lo - j + k <= hi /\
    (minMantissa - 1) * 10 ^ k < d * 10 ^ j <= maxMantissa * 10 ^ k /\
    (let '(m, e, g) := pop_loop 16 (big - m) hi g in
     let '(m, e) := Guard.doRoundDown md g m e in
     Ok (mkNumber (m * sgn neg) e)) = pack_sub md neg (d * 10 ^ j) k (lo - j + k).
Proof.
  intros Hb Hs Hl d.
  destruct (Z.to_nat (hi - lo)) as [| c] eqn:EC; [lia |].
  rewrite shift_right_last.
  pose proof (shift_right_spec c small 0 small (Guard.mk 0 false (negb neg))
                (shifted_init small _ ltac:(unfold minMantissa in *; lia))) as HS.
  destruct (Guard.shift_right _ _ _) as [m0 g0]. destruct HS as [HS HG].
  rewrite Z.add_0_l in HS. cbn [Guard.sbit_] in HG.
  pose proof (shifted_m_nonneg _ _ _ _ HS).
  rewrite Z.quot_div_nonneg, Z.rem_mod_nonneg by lia.
  pose proof (Z.mod_pos_bound m0 10) as Hd.
  pose proof (Z.div_mod m0 10) as Em.
  set (kc := Z.of_nat c) in *. assert (Ehl : hi - lo = kc + 1) by lia.
  pose proof (pow10_pos kc ltac:(lia)) as HP.
  destruct HS as [_ Em0 HH0]. set (r0 := small mod 10 ^ kc) in *.
  pose proof (holds_push g0 r0 kc (m0 mod 10) HH0 ltac:(lia)) as HH1.
  destruct (holds_pop g0 r0 kc (m0 mod 10) HH0 ltac:(lia)) as (g1 & HPop & HHp & HGp).
  set (dg := m0 mod 10) in *. set (s := m0 / 10) in *.
  pose proof (Z.div_mod small (10 ^ kc)) as Esm. fold r0 in Esm. rewrite <- Em0 in Esm.
  pose proof (holds_r _ _ _ HH0) as Hr0.
  assert (m0 <= maxMantissa) by nia.
  assert (s < minMantissa)
    by (unfold s; apply Z.div_lt_upper_bound; unfold minMantissa, maxMantissa in *; lia).
  assert (HD1 : d = (big - s) * 10 ^ (kc + 1) - (dg * 10 ^ kc + r0))
    by (unfold d; rewrite Ehl, pow10_succ by lia; nia).
  assert (HD2 : d = ((big - s) * 10 - dg) * 10 ^ kc - r0)
    by (rewrite HD1, pow10_succ by lia; ring).
  split; [lia |].
  destruct (Z.lt_ge_cases (big - s) minMantissa) as [L | L].
  2: { exists 0, (kc + 1). rewrite Z.pow_0_r, Z.mul_1_r, pop_loop_exit by assumption.
       assert (0 <= s) by (apply Z.div_pos; lia).
       split; [lia |]. split; [lia |]. split; [lia |].
       split; [rewrite HD1; apply deficit_range; [lia | apply (holds_r _ _ _ HH1)] |].
       replace (lo - 0 + (kc + 1)) with hi by lia. rewrite HD1.
       apply doRoundDown_pack; [exact HH1 | right; now rewrite push_sbit, HG | exact L]. }
  change (pop_loop 16 (big - s) hi (Guard.push g0 dg)) with
    (if big - s <? minMantissa then
       let '(d, g) := Guard.pop (Guard.push g0 dg) in
       pop_loop 15 ((big - s) * 10 - d) (hi - 1) g
     else (big - s, hi, Guard.push g0 dg)).
  destruct (Z.ltb_spec (big - s) minMantissa); [| lia]. rewrite HPop.
  destruct (Z.eq_dec kc 0) as [K0 | K0].
  - rewrite K0 in *. change (10 ^ 0) with 1 in *.
    assert (r0 = 0) by lia. clearbody r0. subst r0.
    rewrite (holds_zero_guard _ _ HHp) in *.
    destruct (pop_loop_zero 15 ((big - s) * 10 - dg) (hi - 1) (Guard.sbit_ g1))
      as (j & Hj & HM & ->);
      [unfold minMantissa, maxMantissa in *; lia
      | change (10 ^ Z.of_nat 15) with 1000000000000000; unfold minMantissa; lia |].
    exists j, 0. rewrite Z.pow_0_r, !Z.mul_1_r in *. rewrite Z.sub_0_r in *.
    assert (d = (big - s) * 10 - dg) as -> by lia.
    split; [lia |]. split; [lia |]. split; [lia |]. split; [lia |].
    replace (lo - j + 0) with (hi - 1 - j) by lia.
    set (v := ((big - s) * 10 - dg) * 10 ^ j) in *.
    replace v with (v * 10 ^ 0 - 0) at 2 by lia.
    apply doRoundDown_pack; [apply holds_init | now left | lia].
  - assert (10 <= 10 ^ kc) by (apply pow10_ge; lia).
    assert (s * 100 <= maxMantissa).
    { assert (m0 * 10 <= maxMantissa) by nia. lia. }
    assert (minMantissa <= (big - s) * 10 - dg) by (unfold minMantissa, maxMantissa in *; lia).
    rewrite pop_loop_exit by assumption.
    exists 0, kc. rewrite Z.pow_0_r, Z.mul_1_r.
    assert (0 <= s) by (apply Z.div_pos; lia).
    split; [lia |]. split; [lia |]. split; [lia |].
    split; [rewrite HD2; apply deficit_range;
            [unfold minMantissa, maxMantissa in *; lia | exact Hr0] |].
    replace (lo - 0 + kc) with (hi - 1) by lia. rewrite HD2.
    apply doRoundDown_pack; [exact HHp | right; now rewrite HGp, HG | assumption].
Qed.

Lemma mantissa_sgn x : mantissa_ x = abs_mantissa x * sgn (neg_number x).
Proof.
  unfold abs_mantissa, neg_number. destruct (Z.ltb_spec (mantissa_ x) 0); cbn [sgn]; lia.
Qed.

Lemma sgn_negb b : sgn (negb b) = - sgn b.
Proof. destruct b; reflexivity. Qed.

(** Equal exponents: the difference is exact. *)
Lemma sub_equal_exponents md neg d e s :
  0 < d <= maxMantissa ->
  exists j k, 0 <= j /\ 0 <= k /\ e - j + k <= e /\
    (minMantissa - 1) * 10 ^ k < d * 10 ^ j <= maxMantissa * 10 ^ k /\
    (let '(m, e, g) := pop_loop 16 d e (Guard.mk 0 false s) in
     let '(m, e) := Guard.doRoundDown md g m e in
     Ok (mkNumber (m * sgn neg) e)) = pack_sub md neg (d * 10 ^ j) k (e - j + k).
Proof.
  intros Hd.
  destruct (pop_loop_zero 16 d e s) as (j & Hj & HM & ->); [lia | |].
  { change (10 ^ Z.of_nat 16) with 10000000000000000. unfold minMantissa; lia. }
  exists j, 0. rewrite Z.pow_0_r, !Z.mul_1_r, Z.add_0_r.
  split; [lia |]. split; [lia |]. split; [lia |]. split; [lia |].
  set (v := d * 10 ^ j) in *. replace v with (v * 10 ^ 0 - 0) at 2 by lia.
  apply doRoundDown_pack; [apply holds_init | now left | lia].
Qed.

Lemma signed_magnitude d s : 0 < d -> (d * sgn s <? 0) = s /\ Z.abs (d * sgn s) = d.
Proof.
  intros. destruct s; cbn [sgn]; lia.
Qed.

(** The operand of the higher exponent dominates. *)
Lemma dominates big small k :
  minMantissa <= big <= maxMantissa -> minMantissa <= small <= maxMantissa -> 1 <= k ->
  0 < big * 10 ^ k - small.
Proof. intros. pose proof (pow10_ge k). unfold minMantissa, maxMantissa in *. nia. Qed.

Lemma exact_sum_zero x y :
  exact_sum x y <> 0 -> number_eqb x (number_neg y) = false.
Proof.
  intros HS. unfold number_eqb, number_neg. cbn [mantissa_ exponent_].
  destruct (Z.eqb_spec (mantissa_ x) (- mantissa_ y)) as [E |]; [| reflexivity].
  destruct (Z.eqb_spec (exponent_ x) (exponent_ y)) as [E' |]; [| reflexivity].
  exfalso. apply HS. unfold exact_sum, at_exponent, low_exponent.
  rewrite E', Z.min_id, Z.sub_diag. lia.
Qed.

Lemma number_add_opposite md x y :
  normal x -> normal y -> neg_number x = negb (neg_number y) -> exact_sum x y <> 0 ->
  exists j k, 0 <= j /\ 0 <= k /\
    low_exponent x y - j + k <= Z.max (exponent_ x) (exponent_ y) /\
    (minMantissa - 1) * 10 ^ k < Z.abs (exact_sum x y) * 10 ^ j <= maxMantissa * 10 ^ k /\
    number_add md x y =
      pack_sub md (exact_sum x y <? 0) (Z.abs (exact_sum x y) * 10 ^ j) k
        (low_exponent x y - j + k).
Proof.
  intros Hx Hy HN HS. unfold number_add.
  rewrite !normal_neq_zero, exact_sum_zero, !sign_split by assumption. cbv beta iota.
  rewrite !sgn_neg, !guard_sign, sgn_eqb.
  set (s := neg_number y) in *.
  replace (Bool.eqb (neg_number x) s) with false by (rewrite HN; destruct s; reflexivity).
  apply normal_abs_range in Hx, Hy.
  unfold exact_sum, at_exponent, low_exponent in *. 
  rewrite (mantissa_sgn x), (mantissa_sgn y), HN in *. fold s in HS |- *.
  destruct (Z.ltb_spec (exponent_ x) (exponent_ y)) as [L | L];
    [| destruct (Z.ltb_spec (exponent_ y) (exponent_ x)) as [L' | L']].
  - rewrite Z.min_l, Z.max_r, Z.sub_diag, Z.pow_0_r, Z.mul_1_r in * by lia.
    pose proof (sub_magnitudes md s (abs_mantissa y) (abs_mantissa x)
                  (exponent_ y) (exponent_ x) Hy Hx L) as H.
    destruct (Guard.shift_right _ _ _) as [m g]. destruct H as (Hm & H).
    destruct (Z.ltb_spec (abs_mantissa y) m); [lia |].
    pose proof (dominates _ _ (exponent_ y - exponent_ x) Hy Hx ltac:(lia)) as Hd.
    set (d := _ - abs_mantissa x) in *. destruct (signed_magnitude d s Hd) as [E1 E2].
    replace (_ + _) with (d * sgn s) by (rewrite sgn_negb; unfold d; ring).
    now rewrite E1, E2.
  - rewrite Z.min_r, Z.max_l, Z.sub_diag, Z.pow_0_r, Z.mul_1_r in * by lia.
    pose proof (sub_magnitudes md (negb s) (abs_mantissa x) (abs_mantissa y)
                  (exponent_ x) (exponent_ y) Hx Hy L') as H.
    rewrite negb_involutive in H.
    destruct (Guard.shift_right _ _ _) as [m g]. destruct H as (Hm & H).
    destruct (Z.ltb_spec m (abs_mantissa x)); [| lia].
    pose proof (dominates _ _ (exponent_ x - exponent_ y) Hx Hy ltac:(lia)) as Hd.
    set (d := _ - abs_mantissa y) in *. destruct (signed_magnitude d (negb s) Hd) as [E1 E2].
    replace (_ + _) with (d * sgn (negb s)) by (rewrite sgn_negb; unfold d; ring).
    now rewrite E1, E2.
  - assert (E : exponent_ x = exponent_ y) by lia.
    rewrite <- E, Z.min_id, Z.max_id, Z.sub_diag, Z.pow_0_r, !Z.mul_1_r in *.
    destruct (Z.ltb_spec (abs_mantissa y) (abs_mantissa x)) as [M | M].
    + destruct (signed_magnitude (abs_mantissa x - abs_mantissa y) (negb s) ltac:(lia)) as [E1 E2].
      replace (_ + _) with ((abs_mantissa x - abs_mantissa y) * sgn (negb s))
        by (rewrite sgn_negb; ring).
      rewrite E1, E2. apply sub_equal_exponents. unfold minMantissa, maxMantissa in *; lia.
    + assert (Hd : 0 < abs_mantissa y - abs_mantissa x).
      { destruct (Z.eq_dec (abs_mantissa y) (abs_mantissa x)) as [E0 |]; [| lia].
        exfalso. apply HS. rewrite E0, sgn_negb. ring. }
      destruct (signed_magnitude _ s Hd) as [E1 E2].
      replace (_ + _) with ((abs_mantissa y - abs_mantissa x) * sgn s)
        by (rewrite sgn_negb; ring).
      rewrite E1, E2. apply sub_equal_exponents. unfold minMantissa, maxMantissa in *; lia.
Qed.
