(* ===== verification/XrplNumberGrid.v ===== *)
(** * Exact arithmetic on a decimal grid

    [on_grid s n x] says that [x] is exactly [n] units of [10^s].  Sums,
    differences and comparisons of numbers on one grid are those of the
    integers as long as the result fits a mantissa: this is what makes the
    amounts that are rounded to a common scale add up.

    ** Order of [ripple::Number]

    The comparison of representations is the comparison of values, so it is a
    total order on well-formed numbers; on a grid it is that of the integers. *)

From S2P Require Import Prelude.
From S2P Require Import XrplNumber.
From S2P Require Import XrplNumberFacts.
From S2P Require Import XrplNumberCorrect.
From S2P Require Import XrplNumberAdd.
From Stdlib Require Import ZArith Lia Bool.

Open Scope Z_scope.

Definition on_grid (s n : Z) (x : Number) : Prop :=
  (n = 0 /\ x = zero) \/
  (normal x /\ exponent_ x <= s /\ mantissa_ x = n * 10 ^ (s - exponent_ x)).

(** Scales at which a unit and everything above it is representable. *)
Definition grid_scale (s : Z) : Prop := minExponent + 15 <= s <= maxExponent.

(** ** Basic facts *)

Lemma on_grid_wf s n x : on_grid s n x -> wf x.
Proof. intros [[_ ->] | [H _]]; [now left | now right]. Qed.

Lemma on_grid_zero s : on_grid s 0 zero.
Proof. now left. Qed.

Lemma normal_neg x : normal x -> normal (number_neg x).
Proof. unfold normal, abs_mantissa, number_neg; cbn; lia. Qed.

Lemma on_grid_neg s n x : on_grid s n x -> n <> 0 -> on_grid s (- n) (number_neg x).
Proof.
  intros [[-> _] | (H & HE & HM)] Hn; [lia |]. right.
  split; [now apply normal_neg |]. cbn. split; [lia |]. rewrite HM. ring.
Qed.

Lemma on_grid_nonzero s n x : on_grid s n x -> n <> 0 -> normal x.
Proof. intros [[-> _] | [H _]]; [lia | auto]. Qed.

Lemma on_grid_zero_inv s x : on_grid s 0 x -> x = zero.
Proof.
  intros [[_ ->] | ([H _] & _ & HM)]; [reflexivity |].
  unfold abs_mantissa, minMantissa in H. lia.
Qed.

Lemma on_grid_sign s n x : on_grid s n x -> neg_number x = (n <? 0).
Proof.
  intros [[-> ->] | (_ & HE & HM)]; [reflexivity |]. unfold neg_number. rewrite HM.
  pose proof (pow10_pos (s - exponent_ x) ltac:(lia)).
  destruct (Z.ltb_spec n 0); [apply Z.ltb_lt | apply Z.ltb_ge]; nia.
Qed.

Lemma on_grid_bound s n x : on_grid s n x -> Z.abs n <= maxMantissa.
Proof.
  intros [[-> _] | ([H _] & HE & HM)]; [unfold maxMantissa; cbn; lia |].
  unfold abs_mantissa in H. rewrite HM, Z.abs_mul in H.
  pose proof (pow10_pos (s - exponent_ x) ltac:(lia)). nia.
Qed.

(** A number has one representation on a grid and each integer one number. *)
Lemma on_grid_unique s n x y : on_grid s n x -> on_grid s n y -> x = y.
Proof.
  intros Hx Hy. destruct (Z.eq_dec n 0) as [-> | Hn].
  { now rewrite (on_grid_zero_inv s x Hx), (on_grid_zero_inv s y Hy). }
  destruct Hx as [[? _] | ([Hx _] & Ex & Mx)]; [lia |].
  destruct Hy as [[? _] | ([Hy _] & Ey & My)]; [lia |].
  unfold abs_mantissa in *. rewrite Mx, Z.abs_mul in Hx. rewrite My, Z.abs_mul in Hy.
  rewrite (Z.abs_eq (10 ^ _)) in Hx by (apply Z.pow_nonneg; lia).
  rewrite (Z.abs_eq (10 ^ _)) in Hy by (apply Z.pow_nonneg; lia).
  assert (s - exponent_ x = s - exponent_ y) as E.
  { destruct (Z.lt_trichotomy (s - exponent_ x) (s - exponent_ y)) as [L | [E | L]];
      [| exact E |]; exfalso.
    - pose proof (Z.pow_le_mono_r 10 (s - exponent_ x + 1) (s - exponent_ y) ltac:(lia) ltac:(lia)) as P.
      rewrite pow10_succ in P by lia. unfold minMantissa, maxMantissa in *. nia.
    - pose proof (Z.pow_le_mono_r 10 (s - exponent_ y + 1) (s - exponent_ x) ltac:(lia) ltac:(lia)) as P.
      rewrite pow10_succ in P by lia. unfold minMantissa, maxMantissa in *. nia. }
  destruct x as [mx ex], y as [my ey]; cbn in *. f_equal; [| lia]. now rewrite Mx, My, E.
Qed.

Lemma on_grid_fun s a b x : on_grid s a x -> on_grid s b x -> a = b.
Proof.
  intros Ha Hb. destruct (Z.eq_dec a 0) as [-> | Ha0].
  - rewrite (on_grid_zero_inv s x Ha) in Hb. destruct Hb as [[-> _] | ([H _] & _)]; [reflexivity |].
    unfold abs_mantissa, zero, minMantissa in H; cbn in H; lia.
  - destruct Ha as [[? _] | (_ & HE & HM)]; [lia |].
    destruct Hb as [[-> ->] | (_ & _ & HM')].
    + cbn in *. pose proof (pow10_pos (s - int_lowest) ltac:(lia)). nia.
    + rewrite HM in HM'. pose proof (pow10_pos (s - exponent_ x) ltac:(lia)). nia.
Qed.

(** ** Sums *)

Lemma exact_sum_grid s a b x y :
  on_grid s a x -> on_grid s b y -> a <> 0 -> b <> 0 ->
  low_exponent x y <= s /\ exact_sum x y = (a + b) * 10 ^ (s - low_exponent x y).
Proof.
  intros [[? _] | (_ & Ex & Mx)] [[? _] | (_ & Ey & My)] Ha Hb; try lia.
  unfold exact_sum, at_exponent, low_exponent. split; [lia |]. rewrite Mx, My.
  rewrite <- !Z.mul_assoc, <- !Z.pow_add_r by lia.
  replace (s - exponent_ x + (exponent_ x - Z.min (exponent_ x) (exponent_ y)))
    with (s - Z.min (exponent_ x) (exponent_ y)) by ring.
  replace (s - exponent_ y + (exponent_ y - Z.min (exponent_ x) (exponent_ y)))
    with (s - Z.min (exponent_ x) (exponent_ y)) by ring. ring.
Qed.

(** A packed magnitude with no digits to round is on the grid. *)
Lemma grid_of_scaled s n q e (neg : bool) :
  grid_scale s -> e <= s -> 0 < n -> minMantissa <= q <= maxMantissa ->
  q = n * 10 ^ (s - e) ->
  minExponent <= e /\
  on_grid s (if neg then - n else n) (mkNumber (if neg then - q else q) e).
Proof.
  intros [Hs Hs'] He Hn Hq Eq.
  assert (minExponent <= e).
  { destruct (Z.le_gt_cases minExponent e); [auto |]. exfalso.
    pose proof (Z.pow_le_mono_r 10 16 (s - e) ltac:(lia) ltac:(lia)).
    unfold maxMantissa in *. nia. }
  split; [assumption |]. right. unfold normal, abs_mantissa. cbn [mantissa_ exponent_].
  splits; destruct neg; try lia; rewrite Eq; ring.
Qed.

Lemma scale_le s lo n k :
  0 <= k -> lo <= s -> minMantissa * 10 ^ k <= n * 10 ^ (s - lo) -> 0 < n <= maxMantissa ->
  k <= s - lo.
Proof.
  intros Hk Hl H Hn. destruct (Z.le_gt_cases k (s - lo)); [auto |]. exfalso.
  pose proof (Z.pow_le_mono_r 10 (s - lo + 1) k ltac:(lia) ltac:(lia)) as P.
  rewrite pow10_succ in P by lia. pose proof (pow10_pos (s - lo) ltac:(lia)).
  unfold minMantissa, maxMantissa in *. nia.
Qed.

Lemma pow10_split n t k : 0 <= k <= t -> n * 10 ^ t = n * 10 ^ (t - k) * 10 ^ k.
Proof.
  intros. rewrite <- Z.mul_assoc, <- Z.pow_add_r by lia. do 2 f_equal. lia.
Qed.

Section GridAdd.

Context (md : rounding_mode) (s a b : Z) (x y : Number).
Context (Hs : grid_scale s) (Hx : on_grid s a x) (Hy : on_grid s b y).
Context (Ha : a <> 0) (Hb : b <> 0) (Hab : Z.abs (a + b) <= maxMantissa).

Lemma abs_exact_sum :
  Z.abs (exact_sum x y) = Z.abs (a + b) * 10 ^ (s - low_exponent x y).
Proof.
  destruct (exact_sum_grid s a b x y Hx Hy Ha Hb) as [HL ->].
  rewrite Z.abs_mul. f_equal. apply Z.abs_eq, Z.pow_nonneg. lia.
Qed.

Lemma low_exponent_range : minExponent <= low_exponent x y <= s.
Proof.
  pose proof (on_grid_nonzero s a x Hx Ha) as [_ Nx].
  pose proof (on_grid_nonzero s b y Hy Hb) as [_ Ny].
  destruct (exact_sum_grid s a b x y Hx Hy Ha Hb) as [HL _].
  unfold low_exponent in *. lia.
Qed.

Lemma grid_add_same :
  (a <? 0) = (b <? 0) -> exists z, number_add md x y = Ok z /\ on_grid s (a + b) z.
Proof.
  intros Hsg. pose proof low_exponent_range as HL. pose proof abs_exact_sum as HE.
  pose proof (on_grid_nonzero s a x Hx Ha) as Nx.
  pose proof (on_grid_nonzero s b y Hy Hb) as Ny.
  pose proof (on_grid_sign s a x Hx) as Sx. pose proof (on_grid_sign s b y Hy) as Sy.
  assert (HM : minMantissa <= Z.abs (exact_sum x y)).
  { unfold exact_sum, at_exponent. destruct Nx as [Nx _].
    assert (E : 0 <= mantissa_ x /\ 0 <= mantissa_ y \/ mantissa_ x <= 0 /\ mantissa_ y <= 0)
      by (unfold neg_number in *; destruct (a <? 0), (b <? 0); try discriminate; lia).
    pose proof (pow10_pos (exponent_ x - low_exponent x y) ltac:(unfold low_exponent; lia)).
    pose proof (pow10_pos (exponent_ y - low_exponent x y) ltac:(unfold low_exponent; lia)).
    unfold abs_mantissa in Nx. nia. }
  destruct (scale_exists _ HM) as (k & Hk & HR).
  assert (Hn : 0 < Z.abs (a + b)) by (destruct (Z.ltb_spec a 0), (Z.ltb_spec b 0); lia).
  assert (HkL : k <= s - low_exponent x y).
  { apply (scale_le s _ (Z.abs (a + b))); try lia. }
  pose proof (pow10_pos k Hk) as HP.
  set (q := Z.abs (a + b) * 10 ^ (s - low_exponent x y - k)).
  assert (EQ : Z.abs (exact_sum x y) = q * 10 ^ k)
    by (rewrite HE; unfold q; apply pow10_split; lia).
  rewrite EQ in HR.
  rewrite (number_add_same_sign md x y k Nx Ny); [| congruence | assumption | now rewrite EQ].
  rewrite EQ, Sx. unfold pack_with. rewrite round_quot_exact by assumption.
  assert (minMantissa <= q <= maxMantissa) by nia.
  destruct (Z.ltb_spec maxMantissa q); [lia |].
  destruct (grid_of_scaled s (Z.abs (a + b)) q (low_exponent x y + k) (a <? 0) Hs)
    as [HE1 HG]; try lia.
  { unfold q. do 2 f_equal. ring. }
  destruct (Z.ltb_spec (low_exponent x y + k) minExponent); [lia |].
  destruct (Z.ltb_spec maxExponent (low_exponent x y + k)); [unfold grid_scale in Hs; lia |].
  eexists; split; [reflexivity |]. replace (a + b) with (if a <? 0 then - Z.abs (a + b) else Z.abs (a + b))
    at 1; [exact HG |]. destruct (Z.ltb_spec a 0), (Z.ltb_spec b 0); lia.
Qed.

Lemma grid_add_opposite :
  (a <? 0) = negb (b <? 0) -> a + b <> 0 ->
  exists z, number_add md x y = Ok z /\ on_grid s (a + b) z.
Proof.
  intros Hsg Hn0. pose proof low_exponent_range as HL. pose proof abs_exact_sum as HE.
  pose proof (on_grid_nonzero s a x Hx Ha) as Nx.
  pose proof (on_grid_nonzero s b y Hy Hb) as Ny.
  pose proof (on_grid_sign s a x Hx) as Sx. pose proof (on_grid_sign s b y Hy) as Sy.
  destruct (exact_sum_grid s a b x y Hx Hy Ha Hb) as [_ HES].
  pose proof (pow10_pos (s - low_exponent x y) ltac:(lia)) as HPL.
  destruct (number_add_opposite md x y Nx Ny) as (j & k & Hj & Hk & HX & HR & ->);
    [congruence | rewrite HES; nia |].
  assert (exponent_ x <= s /\ exponent_ y <= s) as [? ?].
  { destruct Hx as [[? _] | (_ & ? & _)], Hy as [[? _] | (_ & ? & _)]; lia. }
  assert (E0 : (exact_sum x y <? 0) = (a + b <? 0)).
  { rewrite HES. destruct (Z.ltb_spec (a + b) 0); [apply Z.ltb_lt | apply Z.ltb_ge]; nia. }
  rewrite E0, HE in *. set (t := s - low_exponent x y + j).
  assert (EQ : Z.abs (a + b) * 10 ^ (s - low_exponent x y) * 10 ^ j =
               Z.abs (a + b) * 10 ^ (t - k) * 10 ^ k).
  { rewrite <- Z.mul_assoc, <- Z.pow_add_r by lia. fold t. apply pow10_split. lia. }
  rewrite EQ in *. set (q := Z.abs (a + b) * 10 ^ (t - k)) in *.
  pose proof (pow10_pos k Hk) as HP.
  assert (minMantissa <= q <= maxMantissa) by nia.
  unfold pack_sub.
  assert (round_sub md (a + b <? 0) (q * 10 ^ k) (10 ^ k) = q) as ->.
  { unfold round_sub. destruct md; try now apply round_quot_exact.
    rewrite <- Z.mul_opp_l, Z.div_mul by lia. ring. }
  destruct (Z.ltb_spec q minMantissa); [lia |].
  destruct (grid_of_scaled s (Z.abs (a + b)) q (low_exponent x y - j + k) (a + b <? 0) Hs)
    as [HE1 HG]; try lia.
  { unfold q, t. do 2 f_equal. ring. }
  destruct (Z.ltb_spec (low_exponent x y - j + k) minExponent); [lia |].
  eexists; split; [reflexivity |].
  replace (a + b) with (if a + b <? 0 then - Z.abs (a + b) else Z.abs (a + b)) at 1;
    [exact HG |]. destruct (Z.ltb_spec (a + b) 0); lia.
Qed.

End GridAdd.

Lemma number_add_zero_r md x : number_add md x zero = Ok x.
Proof. reflexivity. Qed.

Lemma number_add_zero_l md x : wf x -> number_add md zero x = Ok x.
Proof.
  intros [-> | H]; [reflexivity |]. unfold number_add. now rewrite normal_neq_zero.
Qed.

(** Sums on a grid are exact, in every rounding mode. *)
Lemma grid_add md s a b x y :
  grid_scale s -> on_grid s a x -> on_grid s b y -> Z.abs (a + b) <= maxMantissa ->
  exists z, number_add md x y = Ok z /\ on_grid s (a + b) z.
Proof.
  intros Hs Hx Hy Hab.
  destruct (Z.eq_dec b 0) as [-> | Hb].
  { rewrite (on_grid_zero_inv s y Hy), Z.add_0_r. exists x. auto using number_add_zero_r. }
  destruct (Z.eq_dec a 0) as [-> | Ha].
  { rewrite (on_grid_zero_inv s x Hx). exists y.
    split; [| exact Hy]. eapply number_add_zero_l, on_grid_wf, Hy. }
  destruct (Bool.bool_dec (a <? 0) (b <? 0)) as [E | E].
  - now apply grid_add_same with (a := a) (b := b).
  - destruct (Z.eq_dec (a + b) 0) as [E0 | E0].
    + exists zero. rewrite E0. split; [| apply on_grid_zero].
      assert (x = number_neg y) as ->.
      { apply (on_grid_unique s a); [exact Hx |].
        replace a with (- b) by lia. now apply on_grid_neg. }
      assert (Ny : normal y) by (eapply on_grid_nonzero; eauto).
      unfold number_add. rewrite !normal_neq_zero by auto using normal_neg.
      unfold number_eqb. now rewrite !Z.eqb_refl.
    + apply grid_add_opposite with (a := a) (b := b); auto.
      destruct (a <? 0), (b <? 0); try reflexivity; now contradiction E.
Qed.

Lemma grid_sub md s a b x y :
  grid_scale s -> on_grid s a x -> on_grid s b y -> Z.abs (a - b) <= maxMantissa ->
  exists z, number_sub md x y = Ok z /\ on_grid s (a - b) z.
Proof.
  intros Hs Hx Hy Hab. unfold number_sub.
  destruct (Z.eq_dec b 0) as [-> | Hb].
  - rewrite (on_grid_zero_inv s y Hy), Z.sub_0_r. exists x. auto using number_add_zero_r.
  - apply on_grid_neg in Hy; [| assumption].
    replace (a - b) with (a + - b) in * by ring. now apply grid_add.
Qed.

(** ** Order of [ripple::Number] *)

Open Scope Z_scope.

(** [x < y] as values: both scaled to the lower exponent. *)
Definition value_lt (x y : Number) : Prop :=
  at_exponent x (low_exponent x y) < at_exponent y (low_exponent x y).

Definition value_eq (x y : Number) : Prop :=
  at_exponent x (low_exponent x y) = at_exponent y (low_exponent x y).

Lemma at_exponent_zero e : at_exponent zero e = 0.
Proof. reflexivity. Qed.

Lemma at_exponent_sign x e :
  e <= exponent_ x -> Z.sgn (at_exponent x e) = Z.sgn (mantissa_ x).
Proof.
  intros. unfold at_exponent. rewrite Z.sgn_mul.
  rewrite (Z.sgn_pos (10 ^ _)) by (apply pow10_pos; lia). ring.
Qed.

(** A higher exponent means a larger magnitude. *)
Lemma exponent_dominates x y :
  normal x -> normal y -> exponent_ x < exponent_ y ->
  Z.abs (at_exponent x (low_exponent x y)) < Z.abs (at_exponent y (low_exponent x y)).
Proof.
  intros [Hx _] [Hy _] L. unfold at_exponent, low_exponent, abs_mantissa in *.
  rewrite Z.min_l, Z.sub_diag, Z.pow_0_r, Z.mul_1_r, Z.abs_mul by lia.
  pose proof (pow10_ge (exponent_ y - exponent_ x) ltac:(lia)).
  rewrite (Z.abs_eq (10 ^ _)) by lia. unfold minMantissa, maxMantissa in *. nia.
Qed.

Lemma low_exponent_comm x y : low_exponent x y = low_exponent y x.
Proof. apply Z.min_comm. Qed.

Lemma number_ltb_value x y : wf x -> wf y -> number_ltb x y = true <-> value_lt x y.
Proof.
  intros Hx Hy. unfold value_lt.
  pose proof (at_exponent_sign x (low_exponent x y) ltac:(unfold low_exponent; lia)) as Sx.
  pose proof (at_exponent_sign y (low_exponent x y) ltac:(unfold low_exponent; lia)) as Sy.
  assert (D : exponent_ x < exponent_ y -> mantissa_ x <> 0 -> mantissa_ y <> 0 ->
    Z.abs (at_exponent x (low_exponent x y)) < Z.abs (at_exponent y (low_exponent x y))).
  { intros. apply exponent_dominates; auto;
      [destruct Hx as [-> | ?] | destruct Hy as [-> | ?]]; cbn in *; auto; lia. }
  assert (D' : exponent_ y < exponent_ x -> mantissa_ x <> 0 -> mantissa_ y <> 0 ->
    Z.abs (at_exponent y (low_exponent x y)) < Z.abs (at_exponent x (low_exponent x y))).
  { intros. rewrite low_exponent_comm. apply exponent_dominates; auto;
      [destruct Hy as [-> | ?] | destruct Hx as [-> | ?]]; cbn in *; auto; lia. }
  assert (DE : exponent_ x = exponent_ y ->
    at_exponent x (low_exponent x y) = mantissa_ x /\
    at_exponent y (low_exponent x y) = mantissa_ y).
  { intros E. unfold at_exponent, low_exponent. rewrite E, Z.min_id, Z.sub_diag. lia. }
  clear Hx Hy. unfold number_ltb.
  destruct (Z.ltb_spec (mantissa_ x) 0), (Z.ltb_spec (mantissa_ y) 0),
           (Z.eqb_spec (mantissa_ x) 0), (Z.eqb_spec (mantissa_ y) 0); cbn [xorb]; try lia;
    destruct (Z.ltb_spec (exponent_ y) (exponent_ x)), (Z.ltb_spec (exponent_ x) (exponent_ y));
    cbn [negb]; lia.
Qed.

Lemma on_grid_at s n x e :
  on_grid s n x -> e <= exponent_ x -> at_exponent x e = n * 10 ^ (s - e).
Proof.
  intros [[-> ->] | (_ & HE & HM)] He; [reflexivity |].
  unfold at_exponent. rewrite HM, <- Z.mul_assoc, <- Z.pow_add_r by lia. do 2 f_equal. ring.
Qed.

Lemma grid_ltb s a b x y :
  on_grid s a x -> on_grid s b y -> number_ltb x y = (a <? b).
Proof.
  intros Hx Hy. apply Bool.eq_iff_eq_true.
  rewrite (number_ltb_value x y) by (eapply on_grid_wf; eauto). rewrite Z.ltb_lt.
  unfold value_lt.
  rewrite (on_grid_at s a x), (on_grid_at s b y) by (auto; unfold low_exponent; lia).
  assert (0 < 10 ^ (s - low_exponent x y) \/ (a = 0 /\ b = 0)) as [HP | [-> ->]]; [| nia | nia].
  destruct Hx as [[-> ->] | (_ & HE & _)].
  - destruct Hy as [[-> ->] | (_ & HE & _)]; [now right | left].
    apply pow10_pos. unfold low_exponent. lia.
  - left. apply pow10_pos. unfold low_exponent. lia.
Qed.

Lemma grid_eqb s a b x y :
  on_grid s a x -> on_grid s b y -> number_eqb x y = (a =? b).
Proof.
  intros Hx Hy. destruct (Z.eqb_spec a b) as [-> | N].
  - rewrite (on_grid_unique s b x y Hx Hy). unfold number_eqb. now rewrite !Z.eqb_refl.
  - destruct (number_eqb x y) eqn:E; [| reflexivity]. exfalso. apply N.
    unfold number_eqb in E. zbool. destruct x, y; cbn in *; subst. now apply (on_grid_fun s _ _ _ Hx).
Qed.

Lemma grid_min s a b x y :
  on_grid s a x -> on_grid s b y -> on_grid s (Z.min a b) (number_min x y).
Proof.
  intros Hx Hy. unfold number_min. rewrite (grid_ltb s b a y x Hy Hx).
  destruct (Z.ltb_spec b a); [rewrite Z.min_r by lia | rewrite Z.min_l by lia]; assumption.
Qed.

Lemma grid_max s a b x y :
  on_grid s a x -> on_grid s b y -> on_grid s (Z.max a b) (number_max x y).
Proof.
  intros Hx Hy. unfold number_max. rewrite (grid_ltb s a b x y Hx Hy).
  destruct (Z.ltb_spec a b); [rewrite Z.max_r by lia | rewrite Z.max_l by lia]; assumption.
Qed.

(** ** Order laws on values *)

Lemma at_exponent_lower x e e' :
  e' <= e -> e <= exponent_ x -> at_exponent x e' = at_exponent x e * 10 ^ (e - e').
Proof.
  intros. unfold at_exponent. rewrite <- Z.mul_assoc, <- Z.pow_add_r by lia.
  do 2 f_equal. ring.
Qed.

Lemma value_lt_at x y e :
  e <= exponent_ x -> e <= exponent_ y -> value_lt x y <-> at_exponent x e < at_exponent y e.
Proof.
  intros. unfold value_lt. assert (e <= low_exponent x y) by (unfold low_exponent; lia).
  rewrite (at_exponent_lower x (low_exponent x y) e), (at_exponent_lower y (low_exponent x y) e)
    by (unfold low_exponent in *; lia).
  pose proof (pow10_pos (low_exponent x y - e) ltac:(lia)). nia.
Qed.

Lemma value_lt_trans x y z : value_lt x y -> value_lt y z -> value_lt x z.
Proof.
  intros H1 H2. set (e := Z.min (exponent_ x) (Z.min (exponent_ y) (exponent_ z))).
  rewrite (value_lt_at x y e) in H1 by (unfold e; lia).
  rewrite (value_lt_at y z e) in H2 by (unfold e; lia).
  rewrite (value_lt_at x z e) by (unfold e; lia). lia.
Qed.

Lemma value_eq_wf x y : wf x -> wf y -> value_eq x y -> x = y.
Proof.
  unfold value_eq. intros Hx Hy E.
  pose proof (at_exponent_sign x (low_exponent x y) ltac:(unfold low_exponent; lia)) as Sx.
  pose proof (at_exponent_sign y (low_exponent x y) ltac:(unfold low_exponent; lia)) as Sy.
  rewrite E in Sx.
  destruct Hx as [-> | Hx], Hy as [-> | Hy]; [reflexivity | | |].
  - destruct Hy as [Hy _]. unfold abs_mantissa, minMantissa in Hy. rewrite Sx in Sy. cbn in Sy. lia.
  - destruct Hx as [Hx _]. unfold abs_mantissa, minMantissa in Hx. rewrite Sy in Sx. cbn in Sx. lia.
  - destruct (Z.lt_trichotomy (exponent_ x) (exponent_ y)) as [L | [EE | L]].
    + pose proof (exponent_dominates x y Hx Hy L). lia.
    + unfold at_exponent, low_exponent in E. rewrite EE, Z.min_id, Z.sub_diag in E.
      destruct x, y; cbn in *; f_equal; lia.
    + pose proof (exponent_dominates y x Hy Hx L). rewrite low_exponent_comm in E. lia.
Qed.
