(* ===== verification/XrplNumberProps.v ===== *)
(** * Properties of [ripple::Number]

    Closure of the well-formed numbers under the operations, correct rounding
    of each operation, exactness on a grid, the order, the conversion to
    integers, and the two places where the rounding departs from the mode. *)

From Stdlib Require Import ZArith Lia Bool.
From S2P Require Import Prelude.
From S2P Require Import XrplNumber.
From S2P Require Import XrplNumberFacts.
From S2P Require Import XrplNumberCorrect.
From S2P Require Import XrplNumberAdd.
From S2P Require Import XrplNumberGrid.

Open Scope Z_scope.

(** ** Well-formedness of results *)

Lemma scale_exists_small a :
  0 < a < minMantissa -> exists j, 0 < j /\ minMantissa <= a * 10 ^ j <= maxMantissa.
Proof.
  intros Ha. destruct (pop_loop_zero 16 a 0 false) as (j & Hj & HM & _);
    [unfold minMantissa, maxMantissa in *; lia
    | change (10 ^ Z.of_nat 16) with 10000000000000000; unfold minMantissa; lia |].
  exists j. split; [| exact HM]. destruct (Z.eq_dec j 0) as [-> | ?]; lia.
Qed.

Lemma normalize_wf md m e x :
  - 2 ^ 63 <= m < 2 ^ 63 -> normalize md (mkNumber m e) = Ok x -> wf x.
Proof.
  intros HI. destruct (Z.eq_dec m 0) as [-> | H0].
  { intros [= <-]. now left. }
  destruct (Z.lt_ge_cases (Z.abs m) minMantissa) as [L | L].
  - destruct (scale_exists_small (Z.abs m)) as (j & Hj & HM); [lia |].
    rewrite (normalize_small md m e j) by (auto; lia).
    destruct (Z.ltb_spec (e - j) minExponent); [intros [= <-]; now left |].
    destruct (Z.ltb_spec maxExponent (e - j)); [discriminate |].
    intros [= <-]. right. unfold normal, abs_mantissa; cbn [mantissa_ exponent_].
    rewrite Z.abs_mul, (Z.abs_eq (10 ^ j)) by (apply Z.pow_nonneg; lia). lia.
  - destruct (scale_exists _ L) as (k & Hk & HM).
    rewrite (normalize_large md m e k) by auto.
    destruct (e + k <? minExponent); [intros [= <-]; now left |].
    now apply pack_wf.
Qed.

Lemma number_mul_wf md x y z : wf x -> wf y -> number_mul md x y = Ok z -> wf z.
Proof.
  intros [-> | Hx] Hy H.
  { cbn in H. injection H as <-. now left. }
  destruct Hy as [-> | Hy].
  { unfold number_mul in H. rewrite normal_neq_zero in H by assumption. cbn in H.
    injection H as <-. now left. }
  pose proof (normal_abs_range x Hx) as Rx. pose proof (normal_abs_range y Hy) as Ry.
  destruct (scale_exists (abs_mantissa x * abs_mantissa y)) as (k & Hk & HM);
    [unfold minMantissa in *; nia |].
  rewrite (number_mul_pack md x y k Hx Hy Hk HM) in H. eapply pack_wf; eauto.
Qed.

Lemma number_sub_pack_wf md neg n k e x :
  0 <= k -> e <= maxExponent -> (minMantissa - 1) * 10 ^ k < n <= maxMantissa * 10 ^ k ->
  pack_sub md neg n k e = Ok x -> wf x.
Proof.
  intros Hk He Hn. unfold pack_sub. pose proof (pow10_pos k Hk).
  assert (HB : minMantissa - 1 <= round_sub md neg n (10 ^ k) <= maxMantissa).
  { assert (H1 : minMantissa - 1 <= n / 10 ^ k) by (apply Z.div_le_lower_bound; lia).
    assert (H2 : n / 10 ^ k <= maxMantissa) by (apply Z.div_le_upper_bound; lia).
    destruct (Z.eq_dec (n / 10 ^ k) maxMantissa) as [E | E].
    - assert (n = maxMantissa * 10 ^ k) as ->
        by (pose proof (Z.mul_div_le n (10 ^ k)); lia).
      unfold round_sub. destruct md; rewrite ?round_quot_exact by assumption;
        unfold minMantissa, maxMantissa in *; try lia.
      rewrite <- Z.mul_opp_l, Z.div_mul by lia. lia.
    - pose proof (round_quot_bounds md neg n (10 ^ k) ltac:(lia)).
      unfold round_sub. destruct md; try lia.
      pose proof (Z.div_mod n (10 ^ k)). pose proof (Z.mod_pos_bound n (10 ^ k)).
      assert (- (n / 10 ^ k) - 1 <= - n / 10 ^ k) by (apply Z.div_le_lower_bound; nia).
      assert (- n / 10 ^ k <= - (n / 10 ^ k)) by (apply Z.div_le_upper_bound; nia). lia. }
  set (q := round_sub _ _ _ _) in *. unfold minMantissa, maxMantissa in *.
  destruct (Z.ltb_spec q 1000000000000000).
  - destruct (Z.ltb_spec (e - 1) minExponent); intros [= <-]; [now left | right].
    unfold normal, abs_mantissa, minMantissa, maxMantissa; cbn [mantissa_ exponent_].
    destruct neg; lia.
  - destruct (Z.ltb_spec e minExponent); intros [= <-]; [now left | right].
    unfold normal, abs_mantissa, minMantissa, maxMantissa; cbn [mantissa_ exponent_].
    destruct neg; lia.
Qed.

Lemma same_sign_sum_large x y :
  normal x -> normal y -> neg_number x = neg_number y -> minMantissa <= Z.abs (exact_sum x y).
Proof.
  intros [Nx _] Ny HN. unfold exact_sum, at_exponent, neg_number, abs_mantissa in *.
  pose proof (pow10_pos (exponent_ x - low_exponent x y) ltac:(unfold low_exponent; lia)).
  pose proof (pow10_pos (exponent_ y - low_exponent x y) ltac:(unfold low_exponent; lia)).
  destruct (Z.ltb_spec (mantissa_ x) 0), (Z.ltb_spec (mantissa_ y) 0); try discriminate; nia.
Qed.

Lemma number_add_wf md x y z : wf x -> wf y -> number_add md x y = Ok z -> wf z.
Proof.
  intros Hx Hy H. destruct Hy as [-> | Hy].
  { cbn in H. injection H as <-. exact Hx. }
  destruct Hx as [-> | Hx].
  { rewrite number_add_zero_l in H by now right. injection H as <-. now right. }
  destruct (Bool.bool_dec (neg_number x) (neg_number y)) as [E | E].
  - destruct (scale_exists _ (same_sign_sum_large x y Hx Hy E)) as (k & Hk & HM).
    rewrite (number_add_same_sign md x y k Hx Hy E Hk HM) in H. eapply pack_wf; eauto.
  - destruct (Z.eq_dec (exact_sum x y) 0) as [E0 | E0].
    + unfold number_add in H. rewrite !normal_neq_zero in H by assumption.
      assert (number_eqb x (number_neg y) = true) as EQ.
      { assert (x = number_neg y) as ->.
        { apply value_eq_wf; [now right | right; now apply normal_neg |].
          unfold value_eq, exact_sum, at_exponent, low_exponent, number_neg in *.
          cbn [mantissa_ exponent_]. rewrite Z.mul_opp_l. lia. }
        unfold number_eqb. now rewrite !Z.eqb_refl. }
      rewrite EQ in H. injection H as <-. now left.
    + destruct (number_add_opposite md x y Hx Hy) as (j & k & Hj & Hk & HX & HR & E');
        [destruct (neg_number x), (neg_number y); auto; now contradiction E | assumption |].
      rewrite E' in H. eapply number_sub_pack_wf; [exact Hk | | exact HR | exact H].
      destruct Hx as [_ ?], Hy as [_ ?]. lia.
Qed.

Lemma wf_neg x : wf x -> wf (number_neg x).
Proof. intros [-> | H]; [now left | right; now apply normal_neg]. Qed.

Lemma number_sub_wf md x y z : wf x -> wf y -> number_sub md x y = Ok z -> wf z.
Proof. intros Hx Hy. apply number_add_wf; auto using wf_neg. Qed.

(** The truncated quotient of two normal mantissas has 17 or 18 digits. *)
Lemma div_quot_range n d :
  minMantissa <= n <= maxMantissa -> minMantissa <= d <= maxMantissa ->
  10000000000000000 <= n * 100000000000000000 / d < 1000000000000000000.
Proof.
  intros Hn Hd. unfold minMantissa, maxMantissa in *.
  split; [apply Z.div_le_lower_bound | apply Z.div_lt_upper_bound]; lia.
Qed.

Lemma number_div_pack md x y :
  normal x -> normal y ->
  exists k, 1 <= k <= 2 /\
  let q := abs_mantissa x * 100000000000000000 / abs_mantissa y in
  let e := exponent_ x - exponent_ y - 17 + k in
  minMantissa * 10 ^ k <= q < (maxMantissa + 1) * 10 ^ k /\
  number_div md x y =
    if e <? minExponent then Ok zero
    else pack md (xorb (neg_number x) (neg_number y)) q k e.
Proof.
  intros Hx Hy. pose proof (normal_abs_range x Hx) as Rx. pose proof (normal_abs_range y Hy) as Ry.
  pose proof (div_quot_range _ _ Rx Ry) as HQ.
  destruct (scale_exists (abs_mantissa x * 100000000000000000 / abs_mantissa y))
    as (k & Hk & HM); [unfold minMantissa; lia |].
  set (q := _ / _) in *. exists k. split.
  { destruct (Z.eq_dec k 0) as [-> |]; [unfold maxMantissa in HM; lia |].
    destruct (Z.le_gt_cases k 2); [lia |].
    pose proof (Z.pow_le_mono_r 10 3 k ltac:(lia) ltac:(lia)). unfold minMantissa in HM. lia. }
  cbv zeta. split; [exact HM |]. unfold number_div.
  rewrite !normal_neq_zero, !sign_split by assumption. cbv beta iota.
  rewrite (u128_id (abs_mantissa x)), (u128_id (abs_mantissa y)), u128_id
    by (unfold minMantissa, maxMantissa in *; lia).
  fold q. rewrite i64_id by lia.
  set (neg := xorb _ _).
  replace (q * (sgn (neg_number x) * sgn (neg_number y))) with (q * sgn neg)
    by (unfold neg; destruct (neg_number x), (neg_number y); reflexivity).
  assert (Z.abs (q * sgn neg) = q) as EA by (destruct neg; cbn [sgn]; lia).
  rewrite (normalize_large md _ _ k); rewrite ?EA; [| destruct neg; cbn [sgn]; lia | lia | exact HM].
  replace (q * sgn neg <? 0) with neg by (destruct neg; cbn [sgn]; lia). reflexivity.
Qed.

Lemma number_div_wf md x y z : wf x -> wf y -> number_div md x y = Ok z -> wf z.
Proof.
  intros Hx Hy H. destruct Hy as [-> | Hy]; [discriminate |].
  destruct Hx as [-> | Hx].
  { unfold number_div in H. rewrite normal_neq_zero in H by assumption. injection H as <-. now left. }
  destruct (number_div_pack md x y Hx Hy) as (k & Hk & HM & E). rewrite E in H.
  destruct (_ <? minExponent); [injection H as <-; now left |].
  eapply pack_wf; [| exact HM | exact H]. lia.
Qed.

Lemma one_wf : wf one.
Proof. right. repeat split; vm_compute; discriminate. Qed.

Lemma power_wf md f n z : wf f -> power md f n = Ok z -> wf z.
Proof.
  intros Hf. destruct n as [| p | p]; cbn [power]; [intros [= <-]; apply one_wf | | intros [= <-]; apply one_wf].
  revert z; induction p as [p IH | p IH |]; intros z H; cbn [power_pos] in H.
  - bind_inv H. bind_inv H. eauto using number_mul_wf.
  - bind_inv H. eauto using number_mul_wf.
  - injection H as <-. exact Hf.
Qed.

(** ** Conversion to an integer *)

Lemma rep_scale_up_spec n d :
  0 < d -> d <= 9223372036854775800 ->
  rep_scale_up n d =
    if d * 10 ^ Z.of_nat n <=? 9223372036854775800
    then Ok (d * 10 ^ Z.of_nat n) else Throw overflow_error.
Proof.
  revert d; induction n as [| n IH]; intros d Hd HB; cbn [rep_scale_up].
  - rewrite Z.mul_1_r. now destruct (Z.leb_spec d 9223372036854775800); [| lia].
  - rewrite Nat2Z.inj_succ, <- Z.add_1_r, pow10_succ by lia.
    pose proof (pow10_pos (Z.of_nat n) ltac:(lia)).
    change (Z.quot int64_max 10) with 922337203685477580.
    destruct (Z.ltb_spec 922337203685477580 d).
    + destruct (Z.leb_spec (d * (10 * 10 ^ Z.of_nat n)) 9223372036854775800); [nia | reflexivity].
    + rewrite IH by lia. now rewrite <- Z.mul_assoc.
Qed.

Lemma to_rep_spec md x :
  normal x ->
  to_rep md x =
    if exponent_ x <? 0 then
      Ok (sgn (neg_number x) *
          round_quot md (neg_number x) (abs_mantissa x) (10 ^ (- exponent_ x)))
    else if abs_mantissa x * 10 ^ exponent_ x <=? 9223372036854775800
    then Ok (mantissa_ x * 10 ^ exponent_ x)
    else Throw overflow_error.
Proof.
  intros Hx. pose proof (normal_abs_range x Hx) as R.
  unfold to_rep. destruct (Z.eqb_spec (mantissa_ x) 0) as [E |].
  { unfold abs_mantissa, minMantissa in R. lia. }
  assert ((if mantissa_ x <? 0 then (- mantissa_ x, Guard.set_negative Guard.init)
           else (mantissa_ x, Guard.init)) =
          (abs_mantissa x, Guard.mk 0 false (neg_number x))) as ->.
  { unfold abs_mantissa, neg_number. destruct (Z.ltb_spec (mantissa_ x) 0); f_equal; lia. }
  cbv beta iota.
  pose proof (shift_right_spec (Z.to_nat (- exponent_ x)) (abs_mantissa x) 0 (abs_mantissa x)
                (Guard.mk 0 false (neg_number x))
                (shifted_init (abs_mantissa x) _ ltac:(unfold minMantissa in *; lia))) as HS.
  destruct (Guard.shift_right _ _ _) as [m g]. destruct HS as [HS HG]. cbn [Guard.sbit_] in HG.
  rewrite Z.add_0_l in HS.
  pose proof (bumps_spec md _ _ _ _ HS) as HB. rewrite HG in HB.
  destruct (Z.ltb_spec (exponent_ x) 0) as [L | L].
  - replace (Z.to_nat (exponent_ x)) with O by lia. cbn [rep_scale_up bind].
    rewrite Z2Nat.id in HB by lia. f_equal. unfold Guard.doRound, Guard.is_negative.
    rewrite HB, HG. destruct (neg_number x); cbn [sgn]; lia.
  - replace (Z.to_nat (- exponent_ x)) with O in * by lia.
    destruct HS as [_ EM HH]. cbn [Z.of_nat] in *.
    rewrite Z.pow_0_r, Z.div_1_r in EM. subst m.
    rewrite rep_scale_up_spec, Z2Nat.id by (unfold minMantissa, maxMantissa in *; lia).
    destruct (_ <=? _); [| reflexivity]. cbn [bind]. f_equal.
    assert (Guard.bumps md g (abs_mantissa x * 10 ^ exponent_ x) = false) as EB.
    { rewrite Z.mod_1_r in HH. rewrite (holds_zero_guard _ _ HH), HG. unfold Guard.bumps.
      destruct md, (neg_number x); reflexivity. }
    unfold Guard.doRound, Guard.is_negative. rewrite EB, HG, (mantissa_sgn x).
    destruct (neg_number x); cbn [sgn]; lia.
Qed.

(** ** Properties *)

(** C29. Multiplication of normal numbers is correctly rounded in every mode:
    the exact 30 to 32 digit product is rounded to 16 digits by the reference
    rounding, then checked for underflow (zero) and overflow (exception). *)
Theorem mul_correctly_rounded md x y :
  normal x -> normal y ->
  let p := abs_mantissa x * abs_mantissa y in
  exists k, 0 <= k /\ minMantissa * 10 ^ k <= p < (maxMantissa + 1) * 10 ^ k /\
    number_mul md x y =
      pack md (xorb (neg_number x) (neg_number y)) p k (exponent_ x + exponent_ y + k).
Proof.
  intros Hx Hy p.
  destruct (scale_exists p) as (k & Hk & HM).
  { pose proof (normal_abs_range x Hx). pose proof (normal_abs_range y Hy).
    unfold p, minMantissa in *. nia. }
  exists k. auto using number_mul_pack.
Qed.

Lemma mul_correctly_rounded_witness :
  let x := mkNumber 1000000000000007 3 in
  let y := mkNumber (-3333333333333333) (-16) in
  let p := abs_mantissa x * abs_mantissa y in
  exists k, 0 <= k /\ minMantissa * 10 ^ k <= p < (maxMantissa + 1) * 10 ^ k /\
    number_mul downward x y =
      pack downward (xorb (neg_number x) (neg_number y)) p k (exponent_ x + exponent_ y + k).
Proof. intros x y. apply (mul_correctly_rounded downward x y); eval_cmp. Defined.

(** The sum of normal numbers of one sign is correctly rounded in every
    mode, provided the operands are positive, their exponents differ, or the
    mode does not depend on the sign. *)
Theorem add_same_sign_correctly_rounded md x y :
  normal x -> normal y -> neg_number x = neg_number y ->
  sign_free md = true \/ neg_number x = false \/ exponent_ x <> exponent_ y ->
  exists k, 0 <= k /\
    minMantissa * 10 ^ k <= Z.abs (exact_sum x y) < (maxMantissa + 1) * 10 ^ k /\
    number_add md x y =
      pack md (neg_number x) (Z.abs (exact_sum x y)) k (low_exponent x y + k).
Proof.
  intros Hx Hy HN HD.
  destruct (scale_exists _ (same_sign_sum_large x y Hx Hy HN)) as (k & Hk & HM).
  exists k. split; [exact Hk |]. split; [exact HM |].
  rewrite (number_add_same_sign md x y k Hx Hy HN Hk HM). unfold guard_sbit.
  destruct (Z.eqb_spec (exponent_ x) (exponent_ y)); [| reflexivity].
  destruct HD as [HD | [-> | HD]]; [| reflexivity | contradiction].
  unfold pack, pack_with.
  now rewrite (round_quot_sign_free md false (neg_number x)).
Qed.

Lemma add_same_sign_correctly_rounded_witness :
  let x := mkNumber (-9999999999999999) 0 in
  let y := mkNumber (-1234567890123456) (-3) in
  exists k, 0 <= k /\
    minMantissa * 10 ^ k <= Z.abs (exact_sum x y) < (maxMantissa + 1) * 10 ^ k /\
    number_add upward x y =
      pack upward (neg_number x) (Z.abs (exact_sum x y)) k (low_exponent x y + k).
Proof.
  intros x y. apply (add_same_sign_correctly_rounded upward x y); try eval_cmp.
  right; right; discriminate.
Defined.

(** The sum of normal numbers of opposite signs: the exact difference is
    rounded to the unit of the result as [round_sub] does, that is, correctly
    in the modes other than [towards_zero]; a magnitude that drops below 16
    digits is padded with a zero digit. *)
Theorem add_opposite_signs_rounded md x y :
  normal x -> normal y -> neg_number x = negb (neg_number y) -> exact_sum x y <> 0 ->
  exists j k, 0 <= j /\ 0 <= k /\
    low_exponent x y - j + k <= Z.max (exponent_ x) (exponent_ y) /\
    (minMantissa - 1) * 10 ^ k < Z.abs (exact_sum x y) * 10 ^ j <= maxMantissa * 10 ^ k /\
    number_add md x y =
      pack_sub md (exact_sum x y <? 0) (Z.abs (exact_sum x y) * 10 ^ j) k
        (low_exponent x y - j + k).
Proof. apply number_add_opposite. Qed.

Lemma add_opposite_signs_rounded_witness :
  let x := mkNumber 1000000000000000 0 in
  let y := mkNumber (-9999999999999999) (-1) in
  exists j k, 0 <= j /\ 0 <= k /\
    low_exponent x y - j + k <= Z.max (exponent_ x) (exponent_ y) /\
    (minMantissa - 1) * 10 ^ k < Z.abs (exact_sum x y) * 10 ^ j <= maxMantissa * 10 ^ k /\
    number_add to_nearest x y =
      pack_sub to_nearest (exact_sum x y <? 0) (Z.abs (exact_sum x y) * 10 ^ j) k
        (low_exponent x y - j + k).
Proof. intros x y. apply (add_opposite_signs_rounded to_nearest x y); eval_cmp. Defined.

(** Numbers that are multiples of one power of ten add and subtract
    exactly, in every mode and without an exception, whenever the result has at
    most 16 digits in that unit. *)
Theorem grid_sums_exact md s a b x y :
  grid_scale s -> on_grid s a x -> on_grid s b y ->
  Z.abs (a + b) <= maxMantissa -> Z.abs (a - b) <= maxMantissa ->
  (exists z, number_add md x y = Ok z /\ on_grid s (a + b) z) /\
  (exists z, number_sub md x y = Ok z /\ on_grid s (a - b) z).
Proof. intros. split; [now apply grid_add | now apply grid_sub]. Qed.

Lemma grid_sums_exact_witness :
  (exists z, number_add downward one (mkNumber 2500000000000000 (-14)) = Ok z /\
     on_grid 0 (1 + 25) z) /\
  (exists z, number_sub downward one (mkNumber 2500000000000000 (-14)) = Ok z /\
     on_grid 0 (1 - 25) z).
Proof.
  apply (grid_sums_exact downward 0 1 25);
    [unfold grid_scale; eval_cmp | right; eval_cmp | right; eval_cmp | eval_cmp | eval_cmp].
Defined.

(** C32. Every operation returns zero or a normal number. *)
Theorem number_operations_wf md x y n m e z :
  wf x -> wf y -> - 2 ^ 63 <= m < 2 ^ 63 ->
  number_add md x y = Ok z \/ number_sub md x y = Ok z \/ number_mul md x y = Ok z \/
  number_div md x y = Ok z \/ power md x n = Ok z \/ make md m e = Ok z -> wf z.
Proof.
  intros Hx Hy Hm [H | [H | [H | [H | [H | H]]]]].
  - exact (number_add_wf md x y z Hx Hy H).
  - exact (number_sub_wf md x y z Hx Hy H).
  - exact (number_mul_wf md x y z Hx Hy H).
  - exact (number_div_wf md x y z Hx Hy H).
  - exact (power_wf md x n z Hx H).
  - exact (normalize_wf md m e z Hm H).
Qed.

Lemma number_operations_wf_witness : wf (mkNumber 3333333333333333 (-16)).
Proof.
  apply (number_operations_wf to_nearest one (mkNumber 3000000000000000 (-15)) 0 0 0);
    [right; eval_cmp | right; eval_cmp | eval_cmp |].
  do 3 right. left. vm_compute. reflexivity.
Defined.

(** The comparison operators compare values: [operator<] holds exactly when
    the exact values do, and two well-formed numbers are equal, less or greater. *)
Theorem number_order_total x y :
  wf x -> wf y ->
  (number_ltb x y = true <-> value_lt x y) /\
  (number_eqb x y = true <-> x = y) /\
  (number_ltb x y = true \/ number_eqb x y = true \/ number_ltb y x = true).
Proof.
  intros Hx Hy. split; [now apply number_ltb_value |].
  assert (E : number_eqb x y = true <-> x = y).
  { unfold number_eqb. rewrite andb_true_iff, !Z.eqb_eq. destruct x, y; cbn. intuition congruence. }
  split; [exact E |]. rewrite (number_ltb_value x y), (number_ltb_value y x), E by assumption.
  destruct (Z.lt_trichotomy (at_exponent x (low_exponent x y)) (at_exponent y (low_exponent x y)))
    as [L | [L | L]]; [now left | |].
  - right; left. now apply value_eq_wf.
  - right; right. unfold value_lt. now rewrite (low_exponent_comm y x).
Qed.

Lemma number_order_total_witness :
  (number_ltb zero one = true <-> value_lt zero one) /\
  (number_eqb zero one = true <-> zero = one) /\
  (number_ltb zero one = true \/ number_eqb zero one = true \/ number_ltb one zero = true).
Proof. apply (number_order_total zero one); [now left | right; eval_cmp]. Defined.

(** Conversion to a 64-bit integer: a fraction is rounded by the mode, a
    whole number is exact, and an exception is thrown exactly when the value
    exceeds the largest multiple of ten below [2^63]. *)
Theorem to_rep_correct md x :
  normal x ->
  to_rep md x =
    if exponent_ x <? 0 then
      Ok (sgn (neg_number x) *
          round_quot md (neg_number x) (abs_mantissa x) (10 ^ (- exponent_ x)))
    else if abs_mantissa x * 10 ^ exponent_ x <=? 9223372036854775800
    then Ok (mantissa_ x * 10 ^ exponent_ x)
    else Throw overflow_error.
Proof. apply to_rep_spec. Qed.

Lemma to_rep_correct_witness :
  to_rep to_nearest (mkNumber 1234500000000000 (-12)) =
    if -12 <? 0 then
      Ok (1 * round_quot to_nearest false 1234500000000000 (10 ^ (- -12)))
    else if 1234500000000000 * 10 ^ (-12) <=? 9223372036854775800
    then Ok (1234500000000000 * 10 ^ (-12))
    else Throw overflow_error.
Proof. apply (to_rep_correct to_nearest (mkNumber 1234500000000000 (-12))). eval_cmp. Defined.

(** Construction from a 64-bit mantissa and an exponent: a mantissa of at
    least 16 digits is correctly rounded, a shorter one is scaled exactly, and a
    result below the smallest exponent is zero. *)
Theorem make_correctly_rounded md m e :
  - 2 ^ 63 <= m < 2 ^ 63 -> m <> 0 ->
  (exists k, 0 <= k /\ minMantissa * 10 ^ k <= Z.abs m < (maxMantissa + 1) * 10 ^ k /\
     make md m e =
       if e + k <? minExponent then Ok zero
       else pack md (m <? 0) (Z.abs m) k (e + k)) \/
  (exists j, 0 < j /\ minMantissa <= Z.abs m * 10 ^ j <= maxMantissa /\
     make md m e =
       if e - j <? minExponent then Ok zero
       else if maxExponent <? e - j then Throw overflow_error
       else Ok (mkNumber (m * 10 ^ j) (e - j))).
Proof.
  intros HI H0. unfold make.
  destruct (Z.lt_ge_cases (Z.abs m) minMantissa) as [L | L].
  - right. destruct (scale_exists_small (Z.abs m)) as (j & Hj & HM); [lia |].
    exists j. auto using normalize_small.
  - left. destruct (scale_exists _ L) as (k & Hk & HM).
    exists k. auto using normalize_large.
Qed.

Lemma make_correctly_rounded_witness :
  (exists k, 0 <= k /\ minMantissa * 10 ^ k <= Z.abs (-5) < (maxMantissa + 1) * 10 ^ k /\
     make upward (-5) 0 =
       if 0 + k <? minExponent then Ok zero
       else pack upward (-5 <? 0) (Z.abs (-5)) k (0 + k)) \/
  (exists j, 0 < j /\ minMantissa <= Z.abs (-5) * 10 ^ j <= maxMantissa /\
     make upward (-5) 0 =
       if 0 - j <? minExponent then Ok zero
       else if maxExponent <? 0 - j then Throw overflow_error
       else Ok (mkNumber (-5 * 10 ^ j) (0 - j))).
Proof. apply (make_correctly_rounded upward (-5) 0); [eval_cmp | discriminate]. Defined.

(** Division of normal numbers in the mode [to_nearest]: the returned
    mantissa [q], unless the exponent is out of range, is within half a unit
    plus the truncation error of the 17 to 18 digit quotient. *)
Theorem div_error md x y :
  normal x -> normal y -> md = to_nearest ->
  exists k q, 1 <= k <= 2 /\
    2 * Z.abs (q * 10 ^ k * abs_mantissa y - abs_mantissa x * 100000000000000000)
      < (10 ^ k + 2) * abs_mantissa y /\
    number_div md x y =
      (let e := exponent_ x - exponent_ y - 17 + k in
       if e <? minExponent then Ok zero
       else
         let '(q, e) := if maxMantissa <? q then (q / 10, e + 1) else (q, e) in
         if e <? minExponent then Ok zero
         else if maxExponent <? e then Throw overflow_error
         else Ok (mkNumber (if xorb (neg_number x) (neg_number y) then - q else q) e)).
Proof.
  intros Hx Hy ->. destruct (number_div_pack to_nearest x y Hx Hy) as (k & Hk & HM & E).
  set (t := abs_mantissa x * 100000000000000000 / abs_mantissa y) in *.
  set (neg := xorb _ _) in *.
  exists k, (round_quot to_nearest neg t (10 ^ k)). split; [exact Hk |].
  split; [| exact E].
  pose proof (normal_abs_range y Hy) as Ry. unfold minMantissa in Ry.
  pose proof (round_quot_nearest neg t (10 ^ k) ltac:(apply pow10_pos; lia)) as HN.
  pose proof (Z.div_mod (abs_mantissa x * 100000000000000000) (abs_mantissa y)) as HD.
  pose proof (Z.mod_pos_bound (abs_mantissa x * 100000000000000000) (abs_mantissa y)) as HB.
  fold t in HD. set (r := _ mod _) in *. set (q := round_quot _ _ _ _) in *.
  rewrite HD by lia. assert (0 <= r < abs_mantissa y) by (apply HB; lia).
  replace (q * 10 ^ k * abs_mantissa y - (abs_mantissa y * t + r))
    with ((q * 10 ^ k - t) * abs_mantissa y - r) by ring.
  nia.
Qed.

Lemma div_error_witness :
  let x := one in
  let y := mkNumber 3000000000000000 (-15) in
  exists k q, 1 <= k <= 2 /\
    2 * Z.abs (q * 10 ^ k * abs_mantissa y - abs_mantissa x * 100000000000000000)
      < (10 ^ k + 2) * abs_mantissa y /\
    number_div to_nearest x y =
      (let e := exponent_ x - exponent_ y - 17 + k in
       if e <? minExponent then Ok zero
       else
         let '(q, e) := if maxMantissa <? q then (q / 10, e + 1) else (q, e) in
         if e <? minExponent then Ok zero
         else if maxExponent <? e then Throw overflow_error
         else Ok (mkNumber (if xorb (neg_number x) (neg_number y) then - q else q) e)).
Proof. intros x y. apply (div_error to_nearest x y); (reflexivity || eval_cmp). Defined.

(** [divu10], the multiplication-free division of a 128-bit word by ten,
    computes the quotient and the remainder. *)
Theorem divu10_correct u : 0 <= u < 2 ^ 128 -> divu10 u = (u / 10, u mod 10).
Proof. apply divu10_spec. Qed.

Lemma divu10_correct_witness :
  divu10 340282366920938463463374607431768211455 =
    (340282366920938463463374607431768211455 / 10,
     340282366920938463463374607431768211455 mod 10).
Proof. apply (divu10_correct 340282366920938463463374607431768211455). eval_cmp. Defined.

(** A scope guarded by [NumberRoundModeGuard] runs in the requested mode
    and leaves the thread's mode as it found it, also when the scope throws and
    whatever it did to the mode. *)
Theorem round_mode_guard_restores {A} mode (scope : RoundMode.TL A)
    (f : rounding_mode -> result A) m :
  snd (RoundMode.NumberRoundModeGuard mode scope m) = m /\
  RoundMode.NumberRoundModeGuard mode (RoundMode.reads f) m = (f mode, m) /\
  fst (RoundMode.NumberRoundModeGuard mode scope m) = fst (scope mode).
Proof.
  unfold RoundMode.NumberRoundModeGuard, RoundMode.saveNumberRoundMode, RoundMode.tl_bind,
    RoundMode.setround, RoundMode.reads, RoundMode.getround. cbn.
  destruct (scope mode). auto.
Qed.

(** The mode [towards_zero] is not honoured when operands of opposite
    signs are added: a positive difference just below one is returned as one. *)
Theorem add_towards_zero_rounds_up :
  number_add towards_zero one (mkNumber (-1000000000000000) (-32)) = Ok one /\
  value_lt (mkNumber 9999999999999999 (-16)) one /\
  exact_sum one (mkNumber (-1000000000000000) (-32)) =
    99999999999999999 * 10 ^ 15 /\
  number_add downward one (mkNumber (-1000000000000000) (-32)) =
    Ok (mkNumber 9999999999999990 (-16)).
Proof. repeat split; vm_compute; reflexivity. Qed.

(** In the directed modes a sum of negative operands with equal exponents
    that needs a seventeenth digit is rounded in the wrong direction: [downward]
    gives a value above the exact sum and [upward] one below it. *)
Theorem add_negative_wrong_direction :
  let x := mkNumber (-9999999999999999) 0 in
  let y := mkNumber (-9999999999999998) 0 in
  exact_sum x y = -19999999999999997 /\
  number_add downward x y = Ok (mkNumber (-1999999999999999) 1) /\
  number_add upward x y = Ok (mkNumber (-2000000000000000) 1).
Proof. repeat split; vm_compute; reflexivity. Qed.
