(* ===== verification/XrplNumberMultiple.v ===== *)
(** * Multiples of a unit

    A number is a multiple of [10^s] when it lies on the grid of [s] or has a
    larger exponent.  Sums of multiples are multiples in every rounding mode:
    rounding only ever happens above the unit.  A multiple bounded by a number
    of the grid lies on the grid. *)

From Stdlib Require Import ZArith Lia Bool.
From S2P Require Import Prelude.
From S2P Require Import XrplNumber.
From S2P Require Import XrplNumberFacts.
From S2P Require Import XrplNumberCorrect.
From S2P Require Import XrplNumberAdd.
From S2P Require Import XrplNumberGrid.
From S2P Require Import XrplNumberProps.

Open Scope Z_scope.

Definition multiple (s : Z) (x : Number) : Prop :=
  (exists n, on_grid s n x) \/ (normal x /\ s < exponent_ x).

Lemma multiple_wf s x : multiple s x -> wf x.
Proof. intros [[n H] | [H _]]; [eapply on_grid_wf; eauto | now right]. Qed.

Lemma multiple_grid s n x : on_grid s n x -> multiple s x.
Proof. intros. left. eauto. Qed.

Lemma multiple_zero s : multiple s zero.
Proof. apply (multiple_grid s 0), on_grid_zero. Qed.

Lemma multiple_neg s x : multiple s x -> multiple s (number_neg x).
Proof.
  intros [[n H] | [H He]]; [left | right].
  - destruct (Z.eq_dec n 0) as [-> | Hn].
    + rewrite (on_grid_zero_inv s x H). exists 0. apply on_grid_zero.
    + exists (- n). now apply on_grid_neg.
  - split; [now apply normal_neg | exact He].
Qed.

(** The value of a normal multiple as an integer at a lower exponent. *)
Lemma multiple_at s x e :
  multiple s x -> normal x -> e <= exponent_ x -> e <= s ->
  exists n, at_exponent x e = n * 10 ^ (s - e).
Proof.
  intros [[n H] | [_ H]] Hx He Hs.
  - exists n. now apply on_grid_at.
  - exists (mantissa_ x * 10 ^ (exponent_ x - s)). unfold at_exponent.
    rewrite <- Z.mul_assoc, <- Z.pow_add_r by lia. do 2 f_equal. ring.
Qed.

(** A normal number whose exponent is at least [s], or whose mantissa is a
    multiple, is a multiple. *)
Lemma multiple_intro s m e :
  normal (mkNumber m e) -> (e < s -> exists n, m = n * 10 ^ (s - e)) -> multiple s (mkNumber m e).
Proof.
  intros Hx H. destruct (Z.lt_ge_cases s e); [right; auto |]. left.
  destruct (Z.eq_dec e s) as [-> | NE].
  - exists m. right. cbn [exponent_ mantissa_]. rewrite Z.sub_diag. splits; auto; lia.
  - destruct H as [n ->]; [lia |]. exists n. right. cbn [exponent_ mantissa_]. splits; auto; lia.
Qed.

(** ** Sums *)

(** Rounding at position [e] of a multiple of the unit is exact below the unit. *)
Lemma pack_multiple md g neg n k e s N z :
  0 <= k -> minMantissa * 10 ^ k <= n < (maxMantissa + 1) * 10 ^ k ->
  (e < s -> n = N * 10 ^ (s - e) * 10 ^ k) ->
  pack_with md g neg n k e = Ok z -> multiple s z.
Proof.
  intros Hk HR HN H. pose proof (pow10_pos k Hk) as HP.
  destruct (pack_wf md g neg n k e z Hk HR H) as [-> | Hz]; [apply multiple_zero |].
  revert H. unfold pack_with. destruct (Z.ltb_spec maxMantissa (round_quot md g n (10 ^ k))) as [C | C].
  - assert (s <= e).
    { destruct (Z.le_gt_cases s e); [assumption | exfalso]. rewrite HN in HR, C by lia.
      rewrite round_quot_exact in C by exact HP. nia. }
    destruct (_ <? minExponent); [intros [= <-]; apply multiple_zero |].
    destruct (maxExponent <? _); [discriminate |]. intros [= <-]. right.
    split; [exact Hz | cbn [exponent_]; lia].
  - destruct (_ <? minExponent); [intros [= <-]; apply multiple_zero |].
    destruct (maxExponent <? _); [discriminate |]. intros [= <-].
    apply multiple_intro; [exact Hz |]. intros L. rewrite HN, round_quot_exact by (exact HP || lia).
    destruct neg; [exists (- N) | exists N]; ring.
Qed.

Lemma round_sub_exact md neg q d : 0 < d -> round_sub md neg (q * d) d = q.
Proof.
  intros. unfold round_sub. destruct md; rewrite ?round_quot_exact by assumption; auto.
  rewrite <- Z.mul_opp_l, Z.div_mul by lia. ring.
Qed.

Lemma pack_sub_multiple md neg n k e s N z :
  0 <= k -> e <= maxExponent -> (minMantissa - 1) * 10 ^ k < n <= maxMantissa * 10 ^ k ->
  (e < s -> n = N * 10 ^ (s - e) * 10 ^ k) ->
  pack_sub md neg n k e = Ok z -> multiple s z.
Proof.
  intros Hk He HR HN H. pose proof (pow10_pos k Hk) as HP.
  destruct (number_sub_pack_wf md neg n k e z Hk He HR H) as [-> | Hz]; [apply multiple_zero |].
  revert H. unfold pack_sub.
  destruct (Z.ltb_spec (round_sub md neg n (10 ^ k)) minMantissa);
    (destruct (_ <? minExponent); [intros [= <-]; apply multiple_zero |]); intros [= <-];
    (apply multiple_intro; [exact Hz |]); intros L.
  - destruct (Z.eq_dec e s) as [-> | NE].
    + replace (s - (s - 1)) with 1 by ring. rewrite Z.pow_1_r.
      destruct neg; [exists (- round_sub md true n (10 ^ k)) | exists (round_sub md false n (10 ^ k))]; ring.
    + rewrite HN, round_sub_exact by (exact HP || lia).
      replace (s - (e - 1)) with (s - e + 1) by ring. rewrite pow10_succ by lia.
      destruct neg; [exists (- N) | exists N]; ring.
  - rewrite HN, round_sub_exact by (exact HP || lia).
    destruct neg; [exists (- N) | exists N]; ring.
Qed.

(** The exact sum of two multiples. *)
Lemma exact_sum_multiple s x y :
  multiple s x -> multiple s y -> normal x -> normal y -> low_exponent x y <= s ->
  exists n, Z.abs (exact_sum x y) = n * 10 ^ (s - low_exponent x y).
Proof.
  intros Mx My Hx Hy HL.
  destruct (multiple_at s x (low_exponent x y) Mx Hx) as [a Ea]; [unfold low_exponent; lia | lia |].
  destruct (multiple_at s y (low_exponent x y) My Hy) as [b Eb]; [unfold low_exponent; lia | lia |].
  exists (Z.abs (a + b)). unfold exact_sum. rewrite Ea, Eb, <- Z.mul_add_distr_r, Z.abs_mul.
  f_equal. apply Z.abs_eq, Z.pow_nonneg. lia.
Qed.

Lemma scaled_multiple n s low j k :
  0 <= j -> 0 <= k -> low <= s -> low - j + k < s ->
  n * 10 ^ (s - low) * 10 ^ j = n * 10 ^ (s - (low - j + k)) * 10 ^ k.
Proof.
  intros. rewrite <- !Z.mul_assoc, <- !Z.pow_add_r by lia. do 2 f_equal. ring.
Qed.

Lemma add_multiple_low md s x y z :
  normal x -> normal y -> multiple s x -> multiple s y -> number_add md x y = Ok z -> multiple s z.
Proof.
  intros Hx Hy Mx My H.
  assert (HE : exists N, low_exponent x y <= s ->
            Z.abs (exact_sum x y) = N * 10 ^ (s - low_exponent x y)).
  { destruct (Z.le_gt_cases (low_exponent x y) s) as [L | L].
    - destruct (exact_sum_multiple s x y Mx My Hx Hy L) as [N E]. eauto.
    - exists 0. lia. }
  destruct HE as [N HE].
  destruct (Bool.bool_dec (neg_number x) (neg_number y)) as [E | E].
  - destruct (scale_exists _ (same_sign_sum_large x y Hx Hy E)) as (k & Hk & HM).
    rewrite (number_add_same_sign md x y k Hx Hy E Hk HM) in H.
    refine (pack_multiple _ _ _ _ k _ s N z Hk HM _ H). intros L. rewrite HE by lia.
    rewrite <- (Z.mul_1_r (N * _)). change 1 with (10 ^ 0).
    rewrite (scaled_multiple N s (low_exponent x y) 0 k) by lia. now rewrite Z.sub_0_r.
  - destruct (Z.eq_dec (exact_sum x y) 0) as [E0 | E0].
    + assert (z = zero) as ->; [| apply multiple_zero].
      unfold number_add in H. rewrite !normal_neq_zero in H by assumption.
      assert (number_eqb x (number_neg y) = true) as EQ.
      { assert (x = number_neg y) as ->.
        { apply value_eq_wf; [now right | right; now apply normal_neg |].
          unfold value_eq, exact_sum, at_exponent, low_exponent, number_neg in *.
          cbn [mantissa_ exponent_]. rewrite Z.mul_opp_l. lia. }
        unfold number_eqb. now rewrite !Z.eqb_refl. }
      rewrite EQ in H. now injection H as <-.
    + destruct (number_add_opposite md x y Hx Hy) as (j & k & Hj & Hk & HX & HR & E');
        [destruct (neg_number x), (neg_number y); auto; now contradiction E | assumption |].
      rewrite E' in H.
      assert (low_exponent x y - j + k <= maxExponent) by (destruct Hx as [_ ?], Hy as [_ ?]; lia).
      refine (pack_sub_multiple _ _ _ k _ s (if low_exponent x y <=? s then N else
                Z.abs (exact_sum x y) * 10 ^ (low_exponent x y - s)) z Hk _ HR _ H); [assumption |].
      intros L. destruct (Z.leb_spec (low_exponent x y) s) as [L' | L'].
      * rewrite HE by lia. apply scaled_multiple; lia.
      * rewrite <- !Z.mul_assoc, <- !Z.pow_add_r by lia. do 2 f_equal. ring.
Qed.

Lemma number_add_multiple md s x y z :
  multiple s x -> multiple s y -> number_add md x y = Ok z -> multiple s z.
Proof.
  intros Mx My H. destruct (multiple_wf s y My) as [-> | Hy].
  { cbn in H. now injection H as <-. }
  destruct (multiple_wf s x Mx) as [-> | Hx].
  { rewrite number_add_zero_l in H by now right. now injection H as <-. }
  exact (add_multiple_low md s x y z Hx Hy Mx My H).
Qed.

Lemma number_sub_multiple md s x y z :
  multiple s x -> multiple s y -> number_sub md x y = Ok z -> multiple s z.
Proof. intros Mx My. apply number_add_multiple; auto using multiple_neg. Qed.

(** ** Order *)

(** A number of larger exponent is larger than every number of the grid. *)
Lemma coarse_above s n x y :
  normal x -> s < exponent_ x -> on_grid s n y ->
  number_ltb x y = neg_number x /\ number_ltb y x = negb (neg_number x).
Proof.
  intros Hx He Hy. unfold number_ltb, neg_number.
  pose proof (normal_abs_range x Hx) as R. unfold abs_mantissa, minMantissa in R.
  destruct (Z.eqb_spec (mantissa_ x) 0); [lia |].
  destruct Hy as [[-> ->] | (Hy & HE & _)].
  - cbn [mantissa_ zero]. destruct (Z.ltb_spec (mantissa_ x) 0); cbn; split; auto; lia.
  - pose proof (normal_abs_range y Hy) as Ry. unfold abs_mantissa, minMantissa in Ry.
    destruct (Z.eqb_spec (mantissa_ y) 0); [lia |].
    destruct (Z.ltb_spec (exponent_ y) (exponent_ x)); [| lia].
    destruct (Z.ltb_spec (exponent_ x) (exponent_ y)); [lia |].
    destruct (mantissa_ x <? 0), (mantissa_ y <? 0); cbn; auto.
Qed.

(** A multiple between zero and a number of the grid lies on the grid. *)
Lemma multiple_between s x b y :
  multiple s x -> on_grid s b y -> number_ltb x zero = false -> number_ltb y x = false ->
  exists n, on_grid s n x /\ 0 <= n <= b.
Proof.
  intros [[n Hn] | [Hx He]] Hy H0 H1.
  - exists n. rewrite (grid_ltb s n 0 x zero Hn (on_grid_zero s)) in H0.
    rewrite (grid_ltb s b n y x Hy Hn) in H1. zbool. auto.
  - exfalso. destruct (coarse_above s b x y Hx He Hy) as [_ E].
    destruct (coarse_above s 0 x zero Hx He (on_grid_zero s)) as [E' _].
    rewrite E' in H0. rewrite E, H0 in H1. discriminate.
Qed.
