(* ===== verification/Amounts.v ===== *)
(** * Amounts: assets, [IOUAmount], [XRPAmount], [MPTAmount], [STAmount]

    Model of [include/xrpl/protocol/{Asset,Issue,IOUAmount,XRPAmount,MPTAmount,
    STAmount}.h], [src/libxrpl/protocol/{IOUAmount,STAmount}.cpp] and of the
    rate helpers of [include/xrpl/protocol/Protocol.h].  The thread-local state
    that the code reads (the rounding mode and the two amendment switchovers)
    is the argument [cfg] of the operations.  The field name an [STAmount]
    carries plays no part in its value and is left out. *)

From Stdlib Require Import ZArith Lia Bool List.
From S2P Require Import Prelude.
From S2P Require Import XrplNumber.

Open Scope Z_scope.

(** ** Thread-local settings *)

Record Settings : Set := mkSettings {
  round_mode : rounding_mode;             (* Number::getround() *)
  STNumberSwitchover : bool;              (* getSTNumberSwitchover() *)
  STAmountCanonicalizeSwitchover : bool   (* getSTAmountCanonicalizeSwitchover() *)
}.

(** The effect of a [NumberRoundModeGuard] on its scope. *)
Definition with_mode (cfg : Settings) (md : rounding_mode) : Settings :=
  mkSettings md (STNumberSwitchover cfg) (STAmountCanonicalizeSwitchover cfg).

(** ** Assets *)

(** Currency codes and account identifiers are 160-bit, MPT identifiers
    192-bit values. *)
Record Issue : Set := mkIssue { currency : Z; account : Z }.

Definition isXRP_currency (c : Z) : bool := c =? 0.

Definition issue_eqb (l r : Issue) : bool :=
  (currency l =? currency r) && (isXRP_currency (currency l) || (account l =? account r)).

Definition xrpIssue : Issue := mkIssue 0 0.
Definition noIssue : Issue := mkIssue 1 1.

Definition issue_native (i : Issue) : bool := issue_eqb i xrpIssue.

Inductive Asset : Set :=
| AIssue (i : Issue)
| AMPT (mptID : Z).

Definition holds_issue (a : Asset) : bool := match a with AIssue _ => true | AMPT _ => false end.
Definition holds_mpt (a : Asset) : bool := negb (holds_issue a).

Definition asset_native (a : Asset) : bool :=
  match a with AIssue i => issue_native i | AMPT _ => false end.

Definition asset_integral (a : Asset) : bool :=
  match a with AIssue i => issue_native i | AMPT _ => true end.

Definition asset_eqb (l r : Asset) : bool :=
  match l, r with
  | AIssue l, AIssue r => issue_eqb l r
  | AMPT l, AMPT r => l =? r
  | _, _ => false
  end.

Definition equalTokens (l r : Asset) : bool :=
  match l, r with
  | AIssue l, AIssue r => currency l =? currency r
  | AMPT l, AMPT r => l =? r
  | _, _ => false
  end.

(** ** [IOUAmount] *)

Record IOUAmount : Set := mkIOU { iou_mantissa : Z; iou_exponent : Z }.

Definition iou_zero : IOUAmount := mkIOU 0 (-100).
Definition iou_minExponent : Z := -96.
Definition iou_maxExponent : Z := 80.

(** [while (m < min && e > minExponent) { m *= 10; --e; }]: at most 15 rounds
    for a positive [m]. *)
Fixpoint legacy_up (fuel : nat) (m e : Z) : Z * Z :=
  match fuel with
  | O => (m, e)
  | S fuel =>
      if (m <? minMantissa) && (iou_minExponent <? e)
      then legacy_up fuel (m * 10) (e - 1)
      else (m, e)
  end.

(** [while (m > max) { if (e >= maxExponent) throw; m /= 10; ++e; }]: at most 4
    rounds for a 64-bit [m]. *)
Fixpoint legacy_down (ex : exn) (fuel : nat) (m e : Z) : result (Z * Z) :=
  match fuel with
  | O => Ok (m, e)
  | S fuel =>
      if maxMantissa <? m then
        if iou_maxExponent <=? e then Throw ex
        else legacy_down ex fuel (m / 10) (e + 1)
      else Ok (m, e)
  end.

(** [IOUAmount(mantissa, exponent)], that is [normalize] *)
Definition iou_normalize (cfg : Settings) (m e : Z) : result IOUAmount :=
  if m =? 0 then Ok iou_zero
  else if STNumberSwitchover cfg then
    let* v := make (round_mode cfg) m e in
    if iou_maxExponent <? exponent_ v then Throw overflow_error
    else if exponent_ v <? iou_minExponent then Ok iou_zero
    else Ok (mkIOU (mantissa_ v) (exponent_ v))
  else
    let negative := m <? 0 in
    let '(m, e) := legacy_up 16 (if negative then - m else m) e in
    let* (m, e) := legacy_down overflow_error 5 m e in
    if (e <? iou_minExponent) || (m <? minMantissa) then Ok iou_zero
    else if iou_maxExponent <? e then Throw overflow_error
    else Ok (mkIOU (if negative then - m else m) e).

(** [IOUAmount(Number)] *)
Definition iou_of_number (x : Number) : result IOUAmount :=
  if iou_maxExponent <? exponent_ x then Throw overflow_error
  else if exponent_ x <? iou_minExponent then Ok iou_zero
  else Ok (mkIOU (mantissa_ x) (exponent_ x)).

(** [operator Number()] *)
Definition number_of_iou (cfg : Settings) (a : IOUAmount) : result Number :=
  make (round_mode cfg) (iou_mantissa a) (iou_exponent a).

Definition iou_signum (a : IOUAmount) : Z :=
  if iou_mantissa a <? 0 then -1 else if iou_mantissa a =? 0 then 0 else 1.

Definition iou_eqb (a b : IOUAmount) : bool :=
  (iou_exponent a =? iou_exponent b) && (iou_mantissa a =? iou_mantissa b).

Definition iou_ltb (cfg : Settings) (a b : IOUAmount) : result bool :=
  let* x := number_of_iou cfg a in
  let* y := number_of_iou cfg b in
  Ok (number_ltb x y).

(** [while (e < e') { m /= 10; ++e; }], [n] rounds *)
Fixpoint drop_digits (n : nat) (m : Z) : Z :=
  match n with
  | O => m
  | S n => drop_digits n (Z.quot m 10)
  end.

(** [operator+=] *)
Definition iou_add (cfg : Settings) (a b : IOUAmount) : result IOUAmount :=
  if iou_signum b =? 0 then Ok a
  else if iou_signum a =? 0 then Ok b
  else if STNumberSwitchover cfg then
    let* x := number_of_iou cfg a in
    let* y := number_of_iou cfg b in
    let* z := number_add (round_mode cfg) x y in
    iou_of_number z
  else
    let m := drop_digits (Z.to_nat (iou_exponent b - iou_exponent a)) (iou_mantissa a) in
    let n := drop_digits (Z.to_nat (iou_exponent a - iou_exponent b)) (iou_mantissa b) in
    let e := Z.max (iou_exponent a) (iou_exponent b) in
    if (-10 <=? m + n) && (m + n <=? 10) then Ok iou_zero
    else iou_normalize cfg (m + n) e.

(** [operator-()] *)
Definition iou_neg (cfg : Settings) (a : IOUAmount) : result IOUAmount :=
  iou_normalize cfg (- iou_mantissa a) (iou_exponent a).

(** [operator-=] *)
Definition iou_sub (cfg : Settings) (a b : IOUAmount) : result IOUAmount :=
  let* b := iou_neg cfg b in
  iou_add cfg a b.

(** ** [XRPAmount] and [MPTAmount]: 64-bit integers *)

(** The constructors from [Number] *)
Definition xrp_of_number (cfg : Settings) (x : Number) : result Z := to_rep (round_mode cfg) x.
Definition mpt_of_number (cfg : Settings) (x : Number) : result Z := to_rep (round_mode cfg) x.

(** [mulRatio] at [XRPAmount] and [MPTAmount]; [convert_to] is the conversion of
    a Boost 128-bit integer to [int64_t]. *)
Definition mulRatio (convert_to : Z -> Z) (amt num den : Z) (roundUp : bool) : result Z :=
  if den =? 0 then Throw runtime_error
  else
    let neg := amt <? 0 in
    let m := amt * num in
    let r := Z.quot m den in
    let r :=
      if negb (Z.rem m den =? 0) then
        let r := if negb neg && roundUp then r + 1 else r in
        if neg && negb roundUp then r - 1 else r
      else r in
    if int64_max <? r then Throw overflow_error else Ok (convert_to r).

(** [mulDiv] *)
Definition mulDiv (value mul div : Z) : option Z :=
  let result := value * mul / div in
  if 2 ^ 64 - 1 <? result then None else Some result.

(** [mulRatio] at [IOUAmount].  [powerTable] holds the powers of ten up to
    [10^29]; [log10Ceil] is the position [std::lower_bound] finds in it. *)
Fixpoint lower_bound (n : nat) (i cur v : Z) : Z :=
  match n with
  | O => i
  | S n => if cur <? v then lower_bound n (i + 1) (cur * 10) v else i
  end.

Definition log10Ceil (v : Z) : Z := lower_bound 30 0 1 v.

Definition log10Floor (v : Z) : Z :=
  let index := log10Ceil v in
  if 10 ^ index =? v then index else index - 1.

Definition iou_mulRatio (cfg : Settings) (amt : IOUAmount) (num den : Z) (roundUp : bool)
  : result IOUAmount :=
  if den =? 0 then Throw runtime_error
  else
    let fl64 := log10Floor int64_max in
    let neg := iou_mantissa amt <? 0 in
    let mul := (if neg then - iou_mantissa amt else iou_mantissa amt) * num in
    let low := mul / den in
    let rem := mul - low * den in
    let exponent := iou_exponent amt in
    let '(low, rem, exponent) :=
      if negb (rem =? 0) then
        let roomToGrow := fl64 - log10Ceil low in
        let '(low, rem, exponent) :=
          if 0 <? roomToGrow
          then (low * 10 ^ roomToGrow, rem * 10 ^ roomToGrow, exponent - roomToGrow)
          else (low, rem, exponent) in
        let addRem := rem / den in
        (low + addRem, rem - addRem * den, exponent)
      else (low, rem, exponent) in
    let hasRem := negb (rem =? 0) in
    let mustShrink := log10Ceil low - fl64 in
    let '(low, hasRem, exponent) :=
      if 0 <? mustShrink then
        let low' := low / 10 ^ mustShrink in
        (low', hasRem || negb (low - low' * 10 ^ mustShrink =? 0), exponent + mustShrink)
      else (low, hasRem, exponent) in
    let mantissa := if neg then - low else low in
    let* result := iou_normalize cfg mantissa exponent in
    if hasRem && roundUp && negb neg then
      if iou_signum result =? 0 then iou_normalize cfg minMantissa iou_minExponent
      else iou_normalize cfg (iou_mantissa result + 1) (iou_exponent result)
    else if hasRem && negb roundUp && neg then
      if iou_signum result =? 0 then iou_normalize cfg (- minMantissa) iou_minExponent
      else iou_normalize cfg (iou_mantissa result - 1) (iou_exponent result)
    else Ok result.

(** ** [STAmount] *)

Record STAmount : Set := mkSTAmount {
  mAsset : Asset;
  mValue : Z;         (* uint64 *)
  mOffset : Z;
  mIsNegative : bool
}.

Definition cMinOffset : Z := -96.
Definition cMaxOffset : Z := 80.
Definition cMinValue : Z := 1000000000000000.
Definition cMaxValue : Z := 9999999999999999.
Definition cMaxNativeN : Z := 100000000000000000.
Definition maxMPTokenAmount : Z := 9223372036854775807.

Definition native (a : STAmount) : bool := asset_native (mAsset a).
Definition integral (a : STAmount) : bool := asset_integral (mAsset a).

Definition st_signum (a : STAmount) : Z :=
  if mValue a =? 0 then 0 else if mIsNegative a then -1 else 1.

Definition st_is_zero (a : STAmount) : bool := st_signum a =? 0.

(** *** Conversions *)

(** [static_cast<int64_t>(mValue)], negated for a negative amount *)
Definition signed_value (a : STAmount) : Z :=
  let v := i64 (mValue a) in if mIsNegative a then - v else v.

Definition getInt64Value (a : STAmount) (valid : bool) : result Z :=
  if valid then Ok (signed_value a) else Throw runtime_error.

Definition getSNValue (a : STAmount) : result Z := getInt64Value a (native a).
Definition getMPTValue (a : STAmount) : result Z := getInt64Value a (holds_mpt (mAsset a)).

Definition xrp (a : STAmount) : result Z :=
  if native a then Ok (signed_value a) else Throw logic_error.

Definition mpt (a : STAmount) : result Z :=
  if holds_mpt (mAsset a) then Ok (signed_value a) else Throw logic_error.

Definition iou (cfg : Settings) (a : STAmount) : result IOUAmount :=
  if integral a then Throw logic_error
  else iou_normalize cfg (signed_value a) (mOffset a).

(** [operator=(IOUAmount)] *)
Definition assign_iou (a : STAmount) (v : IOUAmount) : STAmount :=
  let negative := iou_signum v <? 0 in
  mkSTAmount (mAsset a) (u64 (if negative then - iou_mantissa v else iou_mantissa v))
    (iou_exponent v) negative.

(** *** Canonical form *)

(** [while (mOffset < 0) { mValue /= 10; ++mOffset; }] is [drop_digits]; the
    second loop multiplies, checking the range first after the switchover. *)
Fixpoint grow_digits (checked : bool) (limit : Z) (n : nat) (v : Z) : result Z :=
  match n with
  | O => Ok v
  | S n =>
      if checked && (limit <? v) then Throw runtime_error
      else grow_digits checked limit n (u64 (v * 10))
  end.

Definition canonicalize (cfg : Settings) (a : STAmount) : result STAmount :=
  let isNative := native a in
  let isMPT := holds_mpt (mAsset a) in
  if isNative || isMPT then
    if (mValue a =? 0) || (mOffset a <=? -20) then Ok (mkSTAmount (mAsset a) 0 0 false)
    else if STAmountCanonicalizeSwitchover cfg &&
            ((isNative && (17 <? mOffset a)) || (isMPT && (18 <? mOffset a)))
    then Throw runtime_error
    else
      let limit := if isNative then cMaxNativeN else maxMPTokenAmount in
      let* (v, negative) :=
        if STNumberSwitchover cfg && STAmountCanonicalizeSwitchover cfg then
          let num := mkNumber (i64 (if mIsNegative a then u64 (- mValue a) else mValue a))
                       (mOffset a) in
          let* val := if isNative then xrp_of_number cfg num else mpt_of_number cfg num in
          let negative := val <? 0 in
          Ok (u64 (if negative then - val else val), negative)
        else
          let v := drop_digits (Z.to_nat (- mOffset a)) (mValue a) in
          let* v := grow_digits (STAmountCanonicalizeSwitchover cfg) limit
                      (Z.to_nat (mOffset a)) v in
          Ok (v, mIsNegative a) in
      if limit <? v then Throw runtime_error
      else Ok (mkSTAmount (mAsset a) v 0 negative)
  else if STNumberSwitchover cfg then
    let* v := iou cfg a in
    Ok (assign_iou a v)
  else if mValue a =? 0 then Ok (mkSTAmount (mAsset a) 0 (-100) false)
  else
    let '(v, e) := legacy_up 16 (mValue a) (mOffset a) in
    let* (v, e) := legacy_down runtime_error 5 v e in
    if (e <? cMinOffset) || (v <? cMinValue) then Ok (mkSTAmount (mAsset a) 0 (-100) false)
    else if cMaxOffset <? e then Throw runtime_error
    else Ok (mkSTAmount (mAsset a) v e (mIsNegative a)).

(** *** Constructors *)

(** [STAmount(asset, mantissa, exponent, negative)] *)
Definition st_make (cfg : Settings) (asset : Asset) (m e : Z) (negative : bool)
  : result STAmount :=
  canonicalize cfg (mkSTAmount asset m e negative).

(** [set(int64)] *)
Definition st_set (asset : Asset) (e v : Z) : STAmount :=
  if v <? 0 then mkSTAmount asset (u64 (- v)) e true else mkSTAmount asset (u64 v) e false.

(** [STAmount(asset, int64 mantissa, exponent)] *)
Definition st_make_signed (cfg : Settings) (asset : Asset) (m e : Z) : result STAmount :=
  canonicalize cfg (st_set asset e m).

(** [STAmount(asset, Number)] *)
Definition st_of_number (cfg : Settings) (asset : Asset) (x : Number) : result STAmount :=
  st_make_signed cfg asset (mantissa_ x) (exponent_ x).

(** [STAmount(asset)] *)
Definition st_zeroed (cfg : Settings) (asset : Asset) : result STAmount :=
  st_make cfg asset 0 0 false.

(** [STAmount(name, int64)]: drops, not canonicalized *)
Definition st_drops (v : Z) : STAmount := st_set (AIssue xrpIssue) 0 v.

(** [STAmount(IOUAmount, Issue)] *)
Definition st_of_iou (cfg : Settings) (v : IOUAmount) (i : Issue) : result STAmount :=
  canonicalize cfg (assign_iou (mkSTAmount (AIssue i) 0 0 false) v).

(** [operator Number()] *)
Definition number_of_st (cfg : Settings) (a : STAmount) : result Number :=
  if native a then
    let* v := xrp a in of_rep (round_mode cfg) v
  else if holds_mpt (mAsset a) then
    let* v := mpt a in of_rep (round_mode cfg) v
  else
    let* v := iou cfg a in number_of_iou cfg v.

(** *** Comparison *)

Definition areComparable (v1 v2 : STAmount) : bool :=
  match mAsset v1, mAsset v2 with
  | AIssue i, AIssue j => eqb (native v1) (native v2) && (currency i =? currency j)
  | AMPT i, AMPT j => i =? j
  | _, _ => false
  end.

Definition st_eqb (l r : STAmount) : bool :=
  areComparable l r && eqb (mIsNegative l) (mIsNegative r) &&
  (mOffset l =? mOffset r) && (mValue l =? mValue r).

Definition st_ltb (l r : STAmount) : result bool :=
  if negb (areComparable l r) then Throw runtime_error
  else Ok (
    if xorb (mIsNegative l) (mIsNegative r) then mIsNegative l
    else if mValue l =? 0 then
      if mIsNegative r then false else negb (mValue r =? 0)
    else if mValue r =? 0 then false
    else if mOffset r <? mOffset l then mIsNegative l
    else if mOffset l <? mOffset r then negb (mIsNegative l)
    else if mValue r <? mValue l then mIsNegative l
    else if mValue l <? mValue r then negb (mIsNegative l)
    else false).

Definition st_leb (l r : STAmount) : result bool :=
  let* b := st_ltb r l in Ok (negb b).

(** *** Sum and difference *)

Definition st_neg (a : STAmount) : STAmount :=
  if mValue a =? 0 then a
  else mkSTAmount (mAsset a) (mValue a) (mOffset a) (negb (mIsNegative a)).

Definition st_add (cfg : Settings) (v1 v2 : STAmount) : result STAmount :=
  if negb (areComparable v1 v2) then Throw runtime_error
  else if st_is_zero v2 then Ok v1
  else if st_is_zero v1 then
    st_make cfg (mAsset v1) (mValue v2) (mOffset v2) (mIsNegative v2)
  else if native v1 then
    let* a := getSNValue v1 in
    let* b := getSNValue v2 in
    Ok (st_drops (i64 (a + b)))
  else if holds_mpt (mAsset v1) then
    let* a := mpt v1 in
    let* b := mpt v2 in
    st_make_signed cfg (mAsset v1) (i64 (a + b)) 0
  else if STNumberSwitchover cfg then
    let* a := iou cfg v1 in
    let* b := iou cfg v2 in
    let* c := iou_add cfg a b in
    Ok (assign_iou v1 c)
  else
    let vv1 := drop_digits (Z.to_nat (mOffset v2 - mOffset v1)) (signed_value v1) in
    let vv2 := drop_digits (Z.to_nat (mOffset v1 - mOffset v2)) (signed_value v2) in
    let ov := Z.max (mOffset v1) (mOffset v2) in
    let fv := vv1 + vv2 in
    if (-10 <=? fv) && (fv <=? 10) then st_zeroed cfg (mAsset v1)
    else if 0 <=? fv then st_make cfg (mAsset v1) fv ov false
    else st_make cfg (mAsset v1) (- fv) ov true.

Definition st_sub (cfg : Settings) (v1 v2 : STAmount) : result STAmount :=
  st_add cfg v1 (st_neg v2).

(** *** Product and quotient *)

Definition tenTo14 : Z := 100000000000000.
Definition tenTo14m1 : Z := tenTo14 - 1.
Definition tenTo17 : Z := tenTo14 * 1000.

Definition muldiv (multiplier multiplicand divisor : Z) : result Z :=
  let ret := multiplier * multiplicand / divisor in
  if 2 ^ 64 - 1 <? ret then Throw overflow_error else Ok ret.

Definition muldiv_round (multiplier multiplicand divisor rounding : Z) : result Z :=
  let ret := u128 (multiplier * multiplicand + rounding) / divisor in
  if 2 ^ 64 - 1 <? ret then Throw overflow_error else Ok ret.

(** [while (v < cMinValue) { v *= 10; --offset; }]: at most 15 rounds for a
    positive [v]. *)
Fixpoint into_range (fuel : nat) (v e : Z) : Z * Z :=
  match fuel with
  | O => (v, e)
  | S fuel => if v <? cMinValue then into_range fuel (u64 (v * 10)) (e - 1) else (v, e)
  end.

(** Mantissa and exponent of a factor, brought into the range of an IOU. *)
Definition operand (a : STAmount) : Z * Z :=
  if native a || holds_mpt (mAsset a) then into_range 16 (mValue a) (mOffset a)
  else (mValue a, mOffset a).

Definition divide (cfg : Settings) (num den : STAmount) (asset : Asset) : result STAmount :=
  if st_is_zero den then Throw runtime_error
  else if st_is_zero num then st_zeroed cfg asset
  else
    let '(numVal, numOffset) := operand num in
    let '(denVal, denOffset) := operand den in
    let* q := muldiv numVal tenTo17 denVal in
    st_make cfg asset (u64 (q + 5)) (numOffset - denOffset - 17)
      (xorb (mIsNegative num) (mIsNegative den)).

(** Product of two whole amounts, as 64-bit unsigned words: [limit] bounds the
    smaller factor and [high] the product above [2^32]. *)
Definition integral_product (limit high a b : Z) : result Z :=
  let minV := u64 (Z.min a b) in
  let maxV := u64 (Z.max a b) in
  if limit <? minV then Throw runtime_error
  else if high <? u64 (Z.shiftr maxV 32 * minV) then Throw runtime_error
  else Ok (u64 (minV * maxV)).

Definition multiply (cfg : Settings) (v1 v2 : STAmount) (asset : Asset) : result STAmount :=
  if st_is_zero v1 || st_is_zero v2 then st_zeroed cfg asset
  else if native v1 && native v2 && asset_native asset then
    let* a := getSNValue v1 in
    let* b := getSNValue v2 in
    let* p := integral_product 3000000000 2095475792 a b in
    Ok (mkSTAmount (AIssue xrpIssue) p 0 false)
  else if holds_mpt (mAsset v1) && holds_mpt (mAsset v2) && holds_mpt asset then
    let* a := getMPTValue v1 in
    let* b := getMPTValue v2 in
    let* p := integral_product 3037000499 2147483648 a b in
    st_make cfg asset p 0 false
  else if STNumberSwitchover cfg then
    let* x := number_of_st cfg v1 in
    let* y := number_of_st cfg v2 in
    let* r := number_mul (round_mode cfg) x y in
    st_make_signed cfg asset (mantissa_ r) (exponent_ r)
  else
    let '(value1, offset1) := operand v1 in
    let '(value2, offset2) := operand v2 in
    let* p := muldiv value1 value2 tenTo14 in
    st_make cfg asset (u64 (p + 7)) (offset1 + offset2 + 14)
      (xorb (mIsNegative v1) (mIsNegative v2)).

(** *** Products and quotients rounded in a direction *)

(** [while (value > 10 * cMaxValue) { value /= 10; ++offset; }]: at most 3
    rounds for a 64-bit value. *)
Fixpoint shrink (fuel : nat) (v e : Z) : Z * Z :=
  match fuel with
  | O => (v, e)
  | S fuel => if 10 * cMaxValue <? v then shrink fuel (v / 10) (e + 1) else (v, e)
  end.

Definition shrink_up (v e : Z) : Z * Z :=
  let '(v, e) := shrink 4 v e in
  (u64 (v + 9) / 10, e + 1).

Definition canonicalizeRound (isNative : bool) (value offset : Z) (roundUp : bool) : Z * Z :=
  if isNative then
    if offset <? 0 then
      let loops := Z.to_nat (- 1 - offset) in
      let value := drop_digits loops value in
      let value := u64 (value + (if (2 <=? loops)%nat then 9 else 10)) in
      (value / 10, 0)
    else (value, offset)
  else if cMaxValue <? value then shrink_up value offset
  else (value, offset).

(** The digits dropped and whether one of them was not zero. *)
Fixpoint drop_sticky (n : nat) (v : Z) (hadRemainder : bool) : Z * bool :=
  match n with
  | O => (v, hadRemainder)
  | S n =>
      let newValue := v / 10 in
      drop_sticky n newValue (hadRemainder || negb (v =? newValue * 10))
  end.

Definition canonicalizeRoundStrict (isNative : bool) (value offset : Z) (roundUp : bool)
  : Z * Z :=
  if isNative then
    if offset <? 0 then
      let '(value, hadRemainder) := drop_sticky (Z.to_nat (- 1 - offset)) value false in
      let value := u64 (value + (if hadRemainder && roundUp then 10 else 9)) in
      (value / 10, 0)
    else (value, offset)
  else if cMaxValue <? value then shrink_up value offset
  else (value, offset).

(** [MightSaveRound]: [NumberRoundModeGuard] or [DontAffectNumberRoundMode] *)
Definition might_save_round (saves : bool) (cfg : Settings) (md : rounding_mode) : Settings :=
  if saves then with_mode cfg md else cfg.

Definition mulRoundImpl (canonicalizeFunc : bool -> Z -> Z -> bool -> Z * Z) (saves : bool)
    (cfg : Settings) (v1 v2 : STAmount) (asset : Asset) (roundUp : bool) : result STAmount :=
  if st_is_zero v1 || st_is_zero v2 then st_zeroed cfg asset
  else if native v1 && native v2 && asset_native asset then
    let* a := getSNValue v1 in
    let* b := getSNValue v2 in
    let* p := integral_product 3000000000 2095475792 a b in
    Ok (mkSTAmount (AIssue xrpIssue) p 0 false)
  else if holds_mpt (mAsset v1) && holds_mpt (mAsset v2) && holds_mpt asset then
    let* a := getMPTValue v1 in
    let* b := getMPTValue v2 in
    let* p := integral_product 3037000499 2147483648 a b in
    st_make cfg asset p 0 false
  else
    let '(value1, offset1) := operand v1 in
    let '(value2, offset2) := operand v2 in
    let resultNegative := xorb (mIsNegative v1) (mIsNegative v2) in
    let away := xorb resultNegative roundUp in
    let* amount := muldiv_round value1 value2 tenTo14 (if away then tenTo14m1 else 0) in
    let offset := offset1 + offset2 + 14 in
    let '(amount, offset) :=
      if away then canonicalizeFunc (asset_native asset) amount offset roundUp
      else (amount, offset) in
    let* res := st_make (might_save_round saves cfg towards_zero) asset amount offset
                  resultNegative in
    if roundUp && negb resultNegative && st_is_zero res then
      if asset_native asset then st_make cfg asset 1 0 resultNegative
      else st_make cfg asset cMinValue cMinOffset resultNegative
    else Ok res.

Definition mulRound (cfg : Settings) := mulRoundImpl canonicalizeRound false cfg.
Definition mulRoundStrict (cfg : Settings) := mulRoundImpl canonicalizeRoundStrict true cfg.

Definition divRoundImpl (saves : bool)
    (cfg : Settings) (num den : STAmount) (asset : Asset) (roundUp : bool) : result STAmount :=
  if st_is_zero den then Throw runtime_error
  else if st_is_zero num then st_zeroed cfg asset
  else
    let '(numVal, numOffset) := operand num in
    let '(denVal, denOffset) := operand den in
    let resultNegative := xorb (mIsNegative num) (mIsNegative den) in
    let away := xorb resultNegative roundUp in
    let whole := asset_native asset || holds_mpt asset in
    let* amount := muldiv_round numVal tenTo17 denVal (if away then u64 (denVal - 1) else 0) in
    let offset := numOffset - denOffset - 17 in
    let '(amount, offset) :=
      if away then canonicalizeRound whole amount offset roundUp else (amount, offset) in
    let* res :=
      st_make (might_save_round saves cfg (if xorb roundUp resultNegative then upward else downward))
        asset amount offset resultNegative in
    if roundUp && negb resultNegative && st_is_zero res then
      if whole then st_make cfg asset 1 0 resultNegative
      else st_make cfg asset cMinValue cMinOffset resultNegative
    else Ok res.

Definition divRound (cfg : Settings) := divRoundImpl false cfg.
Definition divRoundStrict (cfg : Settings) := divRoundImpl true cfg.

(** *** Rounding to a scale *)

Definition roundToScale (cfg : Settings) (value : STAmount) (scale : Z) (rounding : rounding_mode)
  : result STAmount :=
  if integral value then Ok value
  else if scale <=? mOffset value then Ok value
  else
    let* referenceValue := st_make cfg (mAsset value) cMinValue scale (mIsNegative value) in
    let cfg := with_mode cfg rounding in
    let* value := st_add cfg value referenceValue in
    st_sub cfg value referenceValue.

Definition roundToAsset (cfg : Settings) (asset : Asset) (value : Number) (scale : Z)
    (rounding : rounding_mode) : result Number :=
  let cfg := with_mode cfg rounding in
  let* ret := st_of_number cfg asset value in
  if integral ret then number_of_st cfg ret
  else
    let* ret := roundToScale cfg ret scale (round_mode cfg) in
    number_of_st cfg ret.

(** *** Checks *)

Definition isLegalNet (a : STAmount) : bool := negb (native a) || (mValue a <=? cMaxNativeN).

(** [A + B] stays in the range of [int64_t]; the bounds are computed in
    [int64_t] arithmetic. *)
Definition sum_in_range (a b : Z) : bool :=
  negb (((0 <? b) && (int64_max - b <? a)) || ((b <? 0) && (a <? - int64_max - 1 - b))).

Definition canAdd (cfg : Settings) (a b : STAmount) : result bool :=
  if negb (areComparable a b) then Ok false
  else if st_is_zero a || st_is_zero b then Ok true
  else if native a && native b then
    let* x := xrp a in
    let* y := xrp b in
    Ok (sum_in_range x y)
  else if holds_issue (mAsset a) && holds_issue (mAsset b) then
    let* i1 := iou_normalize cfg 1 0 in
    let* i2 := iou_normalize cfg 1 (-4) in
    let* one := st_of_iou cfg i1 noIssue in
    let* maxLoss := st_of_iou cfg i2 noIssue in
    let ratio a b :=
      let* d := st_sub cfg a b in
      let* s := st_add cfg d b in
      let* q := divide cfg s a (AIssue noIssue) in
      st_sub cfg q one in
    let* lhs := ratio a b in
    let* rhs := ratio b a in
    let abs x := if mIsNegative x then st_neg x else x in
    let* total := st_add cfg (abs rhs) (abs lhs) in
    st_leb total maxLoss
  else
    let* x := mpt a in
    let* y := mpt b in
    Ok (sum_in_range x y).

(** [A - B] is not negative for a positive [B] and does not overflow for a
    negative one. *)
Definition difference_allowed (a b : Z) : bool :=
  negb ((0 <? b) && (a <? b)) && negb ((b <? 0) && (int64_max + b <? a)).

Definition canSubtract (a b : STAmount) : result bool :=
  if negb (areComparable a b) then Ok false
  else if st_is_zero b then Ok true
  else if native a && native b then
    let* x := xrp a in
    let* y := xrp b in
    Ok (difference_allowed x y)
  else if holds_issue (mAsset a) && holds_issue (mAsset b) then Ok true
  else
    let* x := mpt a in
    let* y := mpt b in
    Ok (difference_allowed x y).

(** [getRate]: an exception of the division gives rate zero. *)
Definition getRate (cfg : Settings) (offerOut offerIn : STAmount) : Z :=
  if st_is_zero offerOut then 0
  else
    match divide cfg offerIn offerOut (AIssue noIssue) with
    | Ok r =>
        if st_is_zero r then 0
        else Z.lor (u64 (Z.shiftl (u64 (mOffset r + 100)) 56)) (mValue r)
    | Throw _ => 0
    end.

(** ** Rates in tenths of a basis point *)

Definition tenthBipsPerUnity : Z := 100000.

Definition tenthBipsOfValue (cfg : Settings) (value : Number) (bips : Z) : result Number :=
  let* b := of_rep (round_mode cfg) bips in
  let* p := number_mul (round_mode cfg) value b in
  let* u := of_rep (round_mode cfg) tenthBipsPerUnity in
  number_div (round_mode cfg) p u.
