(* ===== verification/AmountsFacts.v ===== *)
(** * Amounts: canonical forms, conversions and exact values

    The invariant of an [STAmount] and of an [IOUAmount], the operations that
    preserve it, and what each conversion does to the value.  Most lemmas are
    about the current amendment settings. *)

From Stdlib Require Import ZArith Lia Bool.
From S2P Require Import Prelude.
From S2P Require Import XrplNumber.
From S2P Require Import XrplNumberFacts.
From S2P Require Import XrplNumberCorrect.
From S2P Require Import XrplNumberAdd.
From S2P Require Import XrplNumberGrid.
From S2P Require Import XrplNumberProps.
From S2P Require Import Amounts.

Open Scope Z_scope.

(** ** Definitions *)

(** Both switchovers on: the behaviour of every transaction since the
    amendments that introduced them. *)
Definition current (cfg : Settings) : Prop :=
  STNumberSwitchover cfg = true /\ STAmountCanonicalizeSwitchover cfg = true.

Definition integral_limit (a : Asset) : Z :=
  if asset_native a then cMaxNativeN else maxMPTokenAmount.

(** The invariant of an [STAmount]. *)
Definition canonical (a : STAmount) : Prop :=
  (mValue a = 0 -> mIsNegative a = false) /\
  if integral a then mOffset a = 0 /\ 0 <= mValue a <= integral_limit (mAsset a)
  else (mValue a = 0 /\ mOffset a = -100) \/
       (cMinValue <= mValue a <= cMaxValue /\ cMinOffset <= mOffset a <= cMaxOffset).

(** The IOU amount of a signed mantissa and an exponent. *)
Definition st_iou (asset : Asset) (m e : Z) : STAmount := mkSTAmount asset (Z.abs m) e (m <? 0).

Definition st_iou_zero (asset : Asset) : STAmount := mkSTAmount asset 0 (-100) false.

Definition iou_range (m e : Z) : Prop :=
  minMantissa <= Z.abs m <= maxMantissa /\ iou_minExponent <= e <= iou_maxExponent.

(** The IOU amount with the value of a number: overflow above the largest
    exponent, zero below the smallest. *)
Definition st_clamp (asset : Asset) (x : Number) : result STAmount :=
  if iou_maxExponent <? exponent_ x then Throw overflow_error
  else if exponent_ x <? iou_minExponent then Ok (st_iou_zero asset)
  else Ok (st_iou asset (mantissa_ x) (exponent_ x)).

(** ** Numbers already normal *)

Lemma normalize_normal md x : normal x -> normalize md x = Ok x.
Proof.
  intros [HM HE]. destruct x as [m e]. unfold abs_mantissa in HM; cbn [mantissa_ exponent_] in *.
  assert (0 < 10 ^ 0) by reflexivity.
  rewrite (normalize_large md m e 0); [| unfold minMantissa, maxMantissa in *; lia .. ].
  rewrite Z.add_0_r. destruct (Z.ltb_spec e minExponent); [lia |].
  unfold pack, pack_with. rewrite <- (Z.mul_1_r (Z.abs m)). change (10 ^ 0) with 1.
  rewrite round_quot_exact by lia.
  destruct (Z.ltb_spec maxMantissa (Z.abs m)); [lia |].
  destruct (Z.ltb_spec e minExponent); [lia |]. destruct (Z.ltb_spec maxExponent e); [lia |].
  do 2 f_equal. destruct (Z.ltb_spec m 0); lia.
Qed.

Lemma make_normal md m e : normal (mkNumber m e) -> make md m e = Ok (mkNumber m e).
Proof. apply normalize_normal. Qed.

Lemma iou_range_normal m e : iou_range m e -> normal (mkNumber m e).
Proof.
  unfold iou_range, normal, abs_mantissa, iou_minExponent, iou_maxExponent, minExponent,
    maxExponent; cbn [mantissa_ exponent_]. lia.
Qed.

Lemma iou_range_nonzero m e : iou_range m e -> m <> 0.
Proof. unfold iou_range, minMantissa. lia. Qed.

Lemma iou_range_neg m e : iou_range m e -> iou_range (- m) e.
Proof. unfold iou_range. rewrite Z.abs_opp. auto. Qed.

Lemma normal_iou_range x :
  normal x -> iou_minExponent <= exponent_ x <= iou_maxExponent ->
  iou_range (mantissa_ x) (exponent_ x).
Proof. intros [HM _] HE. split; assumption. Qed.

(** ** Conversions of an IOU amount *)

Section IOU.

Context (cfg : Settings) (asset : Asset).
Context (HC : current cfg) (HA : asset_integral asset = false).

Lemma asset_not_native : asset_native asset = false.
Proof. destruct asset; cbn in *; [assumption | discriminate]. Qed.

Lemma asset_not_mpt : holds_mpt asset = false.
Proof. destruct asset; cbn in *; [reflexivity | discriminate]. Qed.

Lemma iou_normalize_range m e : iou_range m e -> iou_normalize cfg m e = Ok (mkIOU m e).
Proof.
  intros H. unfold iou_normalize. pose proof (iou_range_nonzero _ _ H).
  destruct (Z.eqb_spec m 0); [contradiction |]. rewrite (proj1 HC).
  rewrite make_normal by now apply iou_range_normal. cbn [bind exponent_ mantissa_].
  destruct H as [_ [H1 H2]].
  destruct (Z.ltb_spec iou_maxExponent e); [lia |].
  now destruct (Z.ltb_spec e iou_minExponent); [lia |].
Qed.

Lemma signed_value_iou m e : Z.abs m < 2 ^ 63 -> signed_value (st_iou asset m e) = m.
Proof.
  intros. unfold signed_value, st_iou; cbn [mValue mIsNegative]. rewrite i64_id by lia.
  destruct (Z.ltb_spec m 0); lia.
Qed.

Lemma iou_range_small m e : iou_range m e -> Z.abs m < 2 ^ 63.
Proof. unfold iou_range, maxMantissa. lia. Qed.

Lemma iou_st_iou m e : iou_range m e -> iou cfg (st_iou asset m e) = Ok (mkIOU m e).
Proof.
  intros H. unfold iou, integral; cbn [mAsset st_iou]. rewrite HA.
  fold (st_iou asset m e). rewrite signed_value_iou by eauto using iou_range_small.
  now apply iou_normalize_range.
Qed.

Lemma iou_st_iou_zero : iou cfg (st_iou_zero asset) = Ok iou_zero.
Proof. unfold iou, integral; cbn [mAsset st_iou_zero]. now rewrite HA. Qed.

Lemma assign_iou_range a m e :
  mAsset a = asset -> iou_range m e -> assign_iou a (mkIOU m e) = st_iou asset m e.
Proof.
  intros HAs H. pose proof (iou_range_small _ _ H). pose proof (iou_range_nonzero _ _ H).
  unfold assign_iou, st_iou, iou_signum; cbn [iou_mantissa iou_exponent]. rewrite HAs.
  destruct (Z.ltb_spec m 0); [| destruct (Z.eqb_spec m 0); [contradiction |]]; cbn [Z.ltb Z.compare];
    rewrite u64_id by lia; f_equal; lia.
Qed.

Lemma assign_iou_zero a : mAsset a = asset -> assign_iou a iou_zero = st_iou_zero asset.
Proof. intros <-. reflexivity. Qed.

Lemma number_of_st_iou m e :
  iou_range m e -> number_of_st cfg (st_iou asset m e) = Ok (mkNumber m e).
Proof.
  intros H. unfold number_of_st, native; cbn [mAsset st_iou].
  rewrite asset_not_native, asset_not_mpt. fold (st_iou asset m e).
  rewrite iou_st_iou by assumption. unfold number_of_iou; cbn [bind iou_mantissa iou_exponent].
  now rewrite make_normal by now apply iou_range_normal.
Qed.

Lemma number_of_st_iou_zero : number_of_st cfg (st_iou_zero asset) = Ok zero.
Proof.
  unfold number_of_st, native; cbn [mAsset st_iou_zero].
  rewrite asset_not_native, asset_not_mpt. fold (st_iou_zero asset). now rewrite iou_st_iou_zero.
Qed.

(** *** Construction *)

Lemma canonicalize_iou a :
  mAsset a = asset ->
  canonicalize cfg a = let* v := iou cfg a in Ok (assign_iou a v).
Proof.
  intros E. unfold canonicalize, native. rewrite E, asset_not_native, asset_not_mpt. cbn [orb].
  now rewrite (proj1 HC).
Qed.

Lemma st_make_signed_eq m e :
  Z.abs m < 2 ^ 63 -> st_make_signed cfg asset m e = canonicalize cfg (st_iou asset m e).
Proof.
  intros. unfold st_make_signed, st_set, st_iou.
  destruct (Z.ltb_spec m 0); rewrite u64_id by lia; do 2 f_equal; lia.
Qed.

Lemma st_of_number_iou x : wf x -> st_of_number cfg asset x = st_clamp asset x.
Proof.
  intros [-> | Hx].
  { unfold st_of_number, st_make_signed. rewrite canonicalize_iou by reflexivity.
    unfold iou, integral. cbn. now rewrite HA. }
  pose proof (normal_abs_range x Hx) as R. unfold abs_mantissa, maxMantissa in R.
  unfold st_of_number. rewrite st_make_signed_eq, canonicalize_iou by (lia || reflexivity).
  unfold iou, integral; cbn [mAsset st_iou]. rewrite HA. fold (st_iou asset (mantissa_ x) (exponent_ x)).
  rewrite signed_value_iou by lia. unfold iou_normalize. cbn [mOffset st_iou].
  destruct (Z.eqb_spec (mantissa_ x) 0) as [E |]; [rewrite E in R; unfold minMantissa in R; cbn in R; lia |].
  rewrite (proj1 HC), make_normal by (now destruct x). cbn [bind mantissa_ exponent_]. unfold st_clamp.
  destruct (Z.ltb_spec iou_maxExponent (exponent_ x)); [reflexivity |].
  destruct (Z.ltb_spec (exponent_ x) iou_minExponent); cbn [bind]; f_equal.
  apply assign_iou_range; [reflexivity |]. apply normal_iou_range; [assumption | lia].
Qed.

Lemma st_make_range m e (neg : bool) :
  iou_range m e -> 0 < m -> st_make cfg asset m e neg = Ok (st_iou asset (if neg then - m else m) e).
Proof.
  intros H Hm. unfold st_make. pose proof (iou_range_small _ _ H).
  replace (mkSTAmount asset m e neg) with (st_iou asset (if neg then - m else m) e)
    by (unfold st_iou; f_equal; destruct neg; lia).
  rewrite canonicalize_iou, iou_st_iou by (reflexivity || (destruct neg; auto using iou_range_neg)).
  cbn [bind]. f_equal. apply assign_iou_range; [reflexivity |]. destruct neg; auto using iou_range_neg.
Qed.

(** *** Sums *)

Lemma comparable_same (a b : STAmount) :
  mAsset a = mAsset b -> areComparable a b = true.
Proof.
  intros E. unfold areComparable, native. rewrite E.
  destruct (mAsset b); [now rewrite eqb_reflx, Z.eqb_refl | apply Z.eqb_refl].
Qed.

Lemma st_iou_nonzero m e : iou_range m e -> st_is_zero (st_iou asset m e) = false.
Proof.
  intros H. pose proof (iou_range_nonzero _ _ H). unfold st_is_zero, st_signum; cbn [mValue st_iou mIsNegative].
  destruct (Z.eqb_spec (Z.abs m) 0); [lia |]. destruct (m <? 0); reflexivity.
Qed.

Lemma iou_signum_range m e : iou_range m e -> (iou_signum (mkIOU m e) =? 0) = false.
Proof.
  intros H. pose proof (iou_range_nonzero _ _ H). unfold iou_signum; cbn [iou_mantissa].
  destruct (m <? 0); [reflexivity |]. destruct (Z.eqb_spec m 0); [contradiction | reflexivity].
Qed.

(** A sum of IOU amounts is the rounded sum of the numbers, clamped. *)
Lemma st_add_iou m1 e1 m2 e2 :
  iou_range m1 e1 -> iou_range m2 e2 ->
  st_add cfg (st_iou asset m1 e1) (st_iou asset m2 e2) =
    let* z := number_add (round_mode cfg) (mkNumber m1 e1) (mkNumber m2 e2) in st_clamp asset z.
Proof.
  intros H1 H2. unfold st_add. rewrite comparable_same, !st_iou_nonzero by (assumption || reflexivity).
  unfold native; cbn [negb mAsset st_iou]. rewrite asset_not_native, asset_not_mpt, (proj1 HC).
  fold (st_iou asset m1 e1) (st_iou asset m2 e2). rewrite !iou_st_iou by assumption. cbn [bind].
  unfold iou_add. rewrite !iou_signum_range, (proj1 HC) by assumption.
  unfold number_of_iou; cbn [iou_mantissa iou_exponent].
  rewrite !make_normal by now apply iou_range_normal. cbn [bind].
  destruct (number_add _ _ _) as [z |] eqn:E; cbn [bind]; [| reflexivity].
  assert (wf z) as Hz
    by exact (number_add_wf _ _ _ z (or_intror (iou_range_normal _ _ H1))
                (or_intror (iou_range_normal _ _ H2)) E).
  unfold iou_of_number, st_clamp.
  destruct (Z.ltb_spec iou_maxExponent (exponent_ z)); [reflexivity |].
  destruct (Z.ltb_spec (exponent_ z) iou_minExponent); cbn [bind]; [reflexivity |].
  destruct Hz as [-> | Hz]; [unfold iou_minExponent, zero, int_lowest in *; cbn [exponent_] in *; lia |].
  f_equal. apply assign_iou_range; [reflexivity |]. apply normal_iou_range; [assumption | lia].
Qed.

Lemma st_neg_iou m e : iou_range m e -> st_neg (st_iou asset m e) = st_iou asset (- m) e.
Proof.
  intros H. pose proof (iou_range_nonzero _ _ H). unfold st_neg, st_iou; cbn [mValue mAsset mOffset mIsNegative].
  destruct (Z.eqb_spec (Z.abs m) 0); [lia |]. f_equal; [lia |].
  destruct (Z.ltb_spec m 0), (Z.ltb_spec (- m) 0); reflexivity || lia.
Qed.

End IOU.
