(* ===== verification/AmountsRound.v ===== *)
(** * Rounding an amount to a scale

    [roundToScale] adds and subtracts a reference amount whose exponent is the
    scale.  The lemmas show that this gives exactly the multiple of the scale
    that the mode asks for, and that integral assets are rounded to whole
    units. *)

From Stdlib Require Import ZArith Lia Bool.
From S2P Require Import Prelude.
From S2P Require Import XrplNumber.
From S2P Require Import XrplNumberFacts.
From S2P Require Import XrplNumberCorrect.
From S2P Require Import XrplNumberAdd.
From S2P Require Import XrplNumberGrid.
From S2P Require Import XrplNumberProps.
From S2P Require Import XrplNumberMultiple.
From S2P Require Import Amounts.
From S2P Require Import AmountsFacts.

Open Scope Z_scope.

(** Scales at which every multiple of the unit is an IOU amount. *)
Definition iou_scale (s : Z) : Prop := iou_minExponent + 15 <= s <= iou_maxExponent.

(** The units of [10^s] a number rounds to. *)
Definition round_units (md : rounding_mode) (x : Number) (s : Z) : Z :=
  sgn (neg_number x) *
  round_quot md (neg_number x) (abs_mantissa x) (10 ^ (s - exponent_ x)).

(** ** The reference amount *)

(** Adding an even multiple of the divisor does not change the rounding. *)
Lemma round_quot_shift md neg n c d :
  0 < d -> Z.even c = true -> round_quot md neg (n + c * d) d = round_quot md neg n d + c.
Proof.
  intros Hd Hc. unfold round_quot. rewrite Z.div_add, Z_mod_plus_full by lia.
  rewrite Z.even_add, Hc. destruct md; [destruct (_ ?= _); [destruct (Z.even _) | |] | | |];
    repeat case_match_bool; cbn in *; try discriminate; lia.
Qed.

Lemma round_quot_le md neg n d b : 0 < d -> n <= b * d -> round_quot md neg n d <= b.
Proof.
  intros Hd Hn. destruct (Z.eq_dec n (b * d)) as [-> |].
  { rewrite round_quot_exact; lia. }
  pose proof (round_quot_bounds md neg n d Hd).
  assert (n / d < b) by (apply Z.div_lt_upper_bound; lia). lia.
Qed.

Lemma round_quot_nonneg md neg n d : 0 < d -> 0 <= n -> 0 <= round_quot md neg n d.
Proof.
  intros Hd Hn. pose proof (round_quot_bounds md neg n d Hd).
  pose proof (Z.div_pos n d Hn Hd). lia.
Qed.

Definition signed (neg : bool) (v : Z) : Z := if neg then - v else v.

Lemma add_reference md x s :
  normal x -> exponent_ x < s -> minExponent <= s <= maxExponent ->
  let neg := neg_number x in
  number_add md x (mkNumber (signed neg minMantissa) s) =
    Ok (mkNumber
      (signed neg (minMantissa + round_quot md neg (abs_mantissa x) (10 ^ (s - exponent_ x)))) s).
Proof.
  intros Hx Hs Hr neg. set (k := s - exponent_ x). set (y := mkNumber (signed neg minMantissa) s).
  pose proof (normal_abs_range x Hx) as R.
  assert (Hk : 10 <= 10 ^ k)
    by (change 10 with (10 ^ 1) at 1; apply Z.pow_le_mono_r; unfold k; lia).
  assert (Hy : normal y).
  { unfold normal, abs_mantissa, y, signed, minMantissa, maxMantissa; cbn [mantissa_ exponent_].
    destruct neg; lia. }
  assert (HN : neg_number x = neg_number y).
  { unfold y, signed, neg_number at 2; cbn [mantissa_]. fold neg. destruct neg; reflexivity. }
  assert (HL : low_exponent x y = exponent_ x) by (unfold low_exponent; cbn [exponent_ y]; lia).
  assert (HE : Z.abs (exact_sum x y) = abs_mantissa x + minMantissa * 10 ^ k).
  { unfold exact_sum, at_exponent. rewrite HL. cbn [y mantissa_ exponent_]. fold k.
    rewrite Z.sub_diag, Z.pow_0_r, Z.mul_1_r. unfold abs_mantissa, neg_number, signed, minMantissa in *.
    subst neg. destruct (Z.ltb_spec (mantissa_ x) 0); lia. }
  rewrite (number_add_same_sign md x y k Hx Hy HN); [| unfold k; lia |];
    rewrite HE; [| unfold minMantissa, maxMantissa in *; lia].
  replace (guard_sbit x y) with neg
    by (unfold guard_sbit; cbn [y exponent_]; destruct (Z.eqb_spec (exponent_ x) s); [lia | reflexivity]).
  rewrite HL. unfold pack_with. replace (exponent_ x + k) with s by (unfold k; lia).
  rewrite round_quot_shift by (reflexivity || lia). fold neg.
  pose proof (round_quot_le md neg (abs_mantissa x) (10 ^ k) minMantissa ltac:(lia)
                ltac:(unfold minMantissa, maxMantissa in *; lia)).
  set (q := round_quot _ _ _ _) in *.
  destruct (Z.ltb_spec maxMantissa (q + minMantissa)); [unfold minMantissa, maxMantissa in *; lia |].
  destruct (Z.ltb_spec s minExponent); [lia |]. destruct (Z.ltb_spec maxExponent s); [lia |].
  do 2 f_equal. unfold signed. destruct neg; lia.
Qed.

Lemma signed_on_grid neg v s :
  grid_scale s -> minMantissa <= v <= maxMantissa -> on_grid s (signed neg v) (mkNumber (signed neg v) s).
Proof.
  intros [H1 H2] Hv. right. unfold normal, abs_mantissa; cbn [mantissa_ exponent_].
  rewrite Z.sub_diag, Z.pow_0_r. unfold signed, minMantissa, minExponent in *.
  destruct neg; splits; lia.
Qed.

Lemma on_grid_exponent s n x : on_grid s n x -> n <> 0 -> s - 15 <= exponent_ x <= s.
Proof.
  intros [[? _] | ([HM _] & HE & Hm)] Hn; [lia |]. split; [| exact HE].
  destruct (Z.le_gt_cases (s - 15) (exponent_ x)); [assumption | exfalso].
  unfold abs_mantissa in HM. rewrite Hm, Z.abs_mul in HM.
  pose proof (Z.pow_le_mono_r 10 16 (s - exponent_ x) ltac:(lia) ltac:(lia)) as P.
  change (10 ^ 16) with 10000000000000000 in P. unfold maxMantissa in HM. nia.
Qed.

(** ** IOU assets *)

Section IOU.

Context (cfg : Settings) (asset : Asset) (s : Z).
Context (HC : current cfg) (HA : asset_integral asset = false) (HS : iou_scale s).

Lemma current_with_mode md : current (with_mode cfg md).
Proof. exact HC. Qed.

Lemma iou_scale_grid : grid_scale s.
Proof.
  unfold iou_scale, grid_scale, iou_minExponent, iou_maxExponent, minExponent, maxExponent in *. lia.
Qed.

Lemma st_clamp_grid n z :
  on_grid s n z ->
  exists r, st_clamp asset z = Ok r /\ number_of_st cfg r = Ok z /\
    (r = st_iou_zero asset \/ r = st_iou asset (mantissa_ z) (exponent_ z)).
Proof.
  intros Hz. destruct (Z.eq_dec n 0) as [-> | Hn].
  { rewrite (on_grid_zero_inv s z Hz). exists (st_iou_zero asset).
    auto using number_of_st_iou_zero. }
  pose proof (on_grid_exponent s n z Hz Hn) as HE. pose proof (on_grid_nonzero s n z Hz Hn) as Nz.
  exists (st_iou asset (mantissa_ z) (exponent_ z)). unfold st_clamp, iou_scale in *.
  destruct (Z.ltb_spec iou_maxExponent (exponent_ z)); [lia |].
  destruct (Z.ltb_spec (exponent_ z) iou_minExponent); [unfold iou_minExponent in *; lia |].
  split; [reflexivity |]. split; [| now right].
  rewrite (number_of_st_iou cfg asset HC HA) by (apply normal_iou_range; [exact Nz | lia]).
  now destruct z.
Qed.

Lemma reference_range neg v :
  minMantissa <= v <= maxMantissa -> iou_range (signed neg v) s.
Proof.
  intros. unfold iou_range, signed, iou_scale, iou_minExponent, minMantissa in *. destruct neg; lia.
Qed.

(** A value with more precision than the scale is rounded to it. *)
Lemma roundToScale_finer m e md :
  iou_range m e -> e < s ->
  exists r z, roundToScale cfg (st_iou asset m e) s md = Ok r /\ number_of_st cfg r = Ok z /\
    on_grid s (round_units md (mkNumber m e) s) z.
Proof.
  intros Hr He. unfold roundToScale, integral; cbn [st_iou mAsset mOffset mIsNegative]. rewrite HA.
  destruct (Z.leb_spec s e); [lia |]. fold (st_iou asset m e).
  pose proof (iou_range_normal m e Hr) as Hx. pose proof iou_scale_grid as HG.
  set (neg := m <? 0). assert (EN : neg = neg_number (mkNumber m e)) by reflexivity.
  pose proof (reference_range false minMantissa ltac:(unfold minMantissa, maxMantissa; lia)) as HR0.
  change cMinValue with minMantissa. fold neg.
  rewrite (st_make_range cfg asset HC HA minMantissa s neg HR0) by reflexivity.
  fold (signed neg minMantissa). cbn [bind].
  pose proof (reference_range neg minMantissa ltac:(unfold minMantissa, maxMantissa; lia)) as HRf.
  rewrite (st_add_iou (with_mode cfg md) asset HC HA) by assumption.
  cbn [round_mode with_mode]. rewrite EN, (add_reference md _ s Hx He) by
    (unfold grid_scale, minExponent in *; lia).
  rewrite <- EN. cbn [bind exponent_ mantissa_]. change (abs_mantissa (mkNumber m e)) with (Z.abs m).
  set (q := round_quot md neg (Z.abs m) (10 ^ (s - e))).
  pose proof (pow10_pos (s - e) ltac:(lia)) as HP.
  assert (Hq : 0 <= q <= minMantissa).
  { split; [apply round_quot_nonneg; lia |]. apply round_quot_le; [exact HP |].
    pose proof (Z.pow_le_mono_r 10 1 (s - e) ltac:(lia) ltac:(lia)).
    destruct Hr as [Hr _]. unfold minMantissa, maxMantissa in *. lia. }
  assert (HM : minMantissa <= minMantissa + q <= maxMantissa)
    by (unfold minMantissa, maxMantissa in *; lia).
  unfold st_clamp. cbn [exponent_ mantissa_].
  destruct (Z.ltb_spec iou_maxExponent s); [unfold iou_scale in *; lia |].
  destruct (Z.ltb_spec s iou_minExponent); [unfold iou_scale, iou_minExponent in *; lia |]. cbn [bind].
  unfold st_sub. rewrite st_neg_iou by assumption.
  rewrite (st_add_iou (with_mode cfg md) asset HC HA) by auto using reference_range, iou_range_neg.
  replace (- signed neg minMantissa) with (signed (negb neg) minMantissa)
    by (unfold signed; destruct neg; cbn [negb]; lia).
  destruct (grid_add md s (signed neg (minMantissa + q)) (signed (negb neg) minMantissa)
              (mkNumber (signed neg (minMantissa + q)) s) (mkNumber (signed (negb neg) minMantissa) s))
    as (z & Ez & Hz); auto using signed_on_grid.
  { apply signed_on_grid; [exact HG | unfold minMantissa, maxMantissa; lia]. }
  { unfold signed, minMantissa, maxMantissa in *. destruct neg; cbn [negb]; lia. }
  cbn [round_mode with_mode]. rewrite Ez. cbn [bind].
  destruct (st_clamp_grid _ z Hz) as (r & -> & Hr' & _).
  exists r, z. splits; auto. unfold round_units.
  change (abs_mantissa (mkNumber m e)) with (Z.abs m). cbn [exponent_]. rewrite <- EN. fold q.
  replace (sgn neg * q) with (signed neg (minMantissa + q) + signed (negb neg) minMantissa)
    by (unfold signed, sgn; destruct neg; cbn [negb]; lia). exact Hz.
Qed.

(** Zero stays zero. *)
Lemma roundToScale_zero md :
  exists r, roundToScale cfg (st_iou_zero asset) s md = Ok r /\ number_of_st cfg r = Ok zero.
Proof.
  unfold roundToScale, integral; cbn [st_iou_zero mAsset mOffset mIsNegative]. rewrite HA.
  destruct (Z.leb_spec s (-100)); [exists (st_iou_zero asset); auto using number_of_st_iou_zero |].
  fold (st_iou_zero asset).
  pose proof (reference_range false minMantissa ltac:(unfold minMantissa, maxMantissa; lia)) as HR.
  cbn [signed] in HR.
  change cMinValue with minMantissa.
  rewrite (st_make_range cfg asset HC HA minMantissa s false HR) by reflexivity. cbn [bind].
  assert (st_add (with_mode cfg md) (st_iou_zero asset) (st_iou asset minMantissa s) =
          Ok (st_iou asset minMantissa s)) as ->.
  { unfold st_add. rewrite comparable_same by reflexivity. cbn [negb].
    rewrite (st_iou_nonzero asset _ _ HR). change (st_is_zero (st_iou_zero asset)) with true. cbv iota.
    cbn [st_iou st_iou_zero mAsset mValue mOffset mIsNegative].
    change (Z.abs minMantissa) with minMantissa. change (minMantissa <? 0) with false.
    now rewrite (st_make_range (with_mode cfg md) asset HC HA minMantissa s false HR) by reflexivity. }
  cbn [bind]. unfold st_sub. rewrite st_neg_iou by exact HR.
  rewrite (st_add_iou (with_mode cfg md) asset HC HA) by auto using iou_range_neg.
  exists (st_iou_zero asset). split; [| auto using number_of_st_iou_zero].
  unfold number_add, number_eqb, number_neg. cbn [mantissa_ exponent_].
  rewrite Z.opp_involutive, !Z.eqb_refl. cbn [andb]. reflexivity.
Qed.

End IOU.

(** [roundToAsset] at an IOU, by cases: the value is first limited to the range
    of an IOU amount, then rounded to the scale unless it is already coarser. *)
Lemma roundToAsset_iou cfg asset s x md :
  current cfg -> asset_integral asset = false -> iou_scale s -> wf x ->
  if iou_maxExponent <? exponent_ x
  then roundToAsset cfg asset x s md = Throw overflow_error
  else if exponent_ x <? iou_minExponent then roundToAsset cfg asset x s md = Ok zero
  else if s <=? exponent_ x then roundToAsset cfg asset x s md = Ok x
  else exists z, roundToAsset cfg asset x s md = Ok z /\ on_grid s (round_units md x s) z.
Proof.
  intros HC HA HS Hx. assert (HCm : current (with_mode cfg md)) by exact HC.
  unfold roundToAsset. rewrite (st_of_number_iou _ _ HCm HA) by assumption. unfold st_clamp.
  destruct (Z.ltb_spec iou_maxExponent (exponent_ x)); [reflexivity |].
  destruct (Z.ltb_spec (exponent_ x) iou_minExponent).
  { cbn [bind]. unfold integral; cbn [st_iou_zero mAsset]. rewrite HA. fold (st_iou_zero asset).
    destruct (roundToScale_zero (with_mode cfg md) asset s HCm HA HS md) as (r & Er & Nr).
    cbn [round_mode with_mode] in *. now rewrite Er. }
  destruct Hx as [-> | Hx]; [unfold iou_minExponent, zero, int_lowest in *; cbn [exponent_] in *; lia |].
  pose proof (normal_iou_range x Hx ltac:(lia)) as Hr.
  cbn [bind]. unfold integral; cbn [st_iou mAsset]. rewrite HA.
  fold (st_iou asset (mantissa_ x) (exponent_ x)). cbn [round_mode with_mode].
  destruct (Z.leb_spec s (exponent_ x)) as [L | L].
  - assert (roundToScale (with_mode cfg md) (st_iou asset (mantissa_ x) (exponent_ x)) s md =
            Ok (st_iou asset (mantissa_ x) (exponent_ x))) as ->.
    { unfold roundToScale, integral; cbn [st_iou mAsset mOffset]. rewrite HA.
      now destruct (Z.leb_spec s (exponent_ x)); [| lia]. }
    cbn [bind]. rewrite (number_of_st_iou _ _ HCm HA) by assumption. now destruct x.
  - destruct (roundToScale_finer (with_mode cfg md) asset s HCm HA HS _ _ md Hr L)
      as (r & z & -> & Nr & Hz).
    exists z. cbn [bind]. split; [exact Nr |]. now destruct x.
Qed.

(** ** Integral assets *)

(** A mantissa of at most 16 digits gives a number on the grid of its
    exponent. *)
Lemma make_grid md m e :
  Z.abs m <= maxMantissa -> grid_scale e -> exists z, make md m e = Ok z /\ on_grid e m z.
Proof.
  intros Hm [He1 He2]. destruct (Z.eq_dec m 0) as [-> | H0].
  { exists zero. split; [reflexivity | apply on_grid_zero]. }
  destruct (Z.lt_ge_cases (Z.abs m) minMantissa) as [L | L].
  - destruct (scale_exists_small (Z.abs m)) as (j & Hj & HM); [lia |].
    assert (j <= 15).
    { destruct (Z.le_gt_cases j 15); [assumption | exfalso].
      pose proof (Z.pow_le_mono_r 10 16 j ltac:(lia) ltac:(lia)) as P.
      change (10 ^ 16) with 10000000000000000 in P. unfold maxMantissa in *. nia. }
    exists (mkNumber (m * 10 ^ j) (e - j)). unfold make.
    rewrite (normalize_small md m e j) by (unfold maxMantissa in *; lia).
    destruct (Z.ltb_spec (e - j) minExponent); [lia |].
    destruct (Z.ltb_spec maxExponent (e - j)); [lia |]. split; [reflexivity |]. right.
    unfold normal, abs_mantissa; cbn [mantissa_ exponent_].
    rewrite Z.abs_mul, (Z.abs_eq (10 ^ j)) by (apply Z.pow_nonneg; lia).
    replace (e - (e - j)) with j by ring. splits; auto; lia.
  - assert (N : normal (mkNumber m e)).
    { unfold normal, abs_mantissa; cbn [mantissa_ exponent_]. lia. }
    exists (mkNumber m e). split; [now apply make_normal |]. right. split; [exact N |].
    cbn [mantissa_ exponent_]. rewrite Z.sub_diag. lia.
Qed.

(** The whole number an integral amount is rounded to, before the range check:
    values of exponent -20 and less are dropped. *)
Definition round_whole (md : rounding_mode) (x : Number) : result Z :=
  if (mantissa_ x =? 0) || (exponent_ x <=? -20) then Ok 0 else to_rep md x.

Definition integral_max_exponent (a : Asset) : Z := if asset_native a then 17 else 18.

Lemma to_rep_range md x v : normal x -> -20 < exponent_ x -> to_rep md x = Ok v -> Z.abs v < 2 ^ 63.
Proof.
  intros Hx He. rewrite (to_rep_spec md x Hx). pose proof (normal_abs_range x Hx) as R.
  destruct (Z.ltb_spec (exponent_ x) 0).
  - intros [= <-]. pose proof (pow10_pos (- exponent_ x) ltac:(lia)) as HP.
    pose proof (round_quot_bounds md (neg_number x) (abs_mantissa x) (10 ^ (- exponent_ x)) HP).
    assert (abs_mantissa x / 10 ^ (- exponent_ x) <= abs_mantissa x)
      by (apply Z.div_le_upper_bound; unfold minMantissa in *; nia).
    pose proof (round_quot_nonneg md (neg_number x) (abs_mantissa x) (10 ^ (- exponent_ x)) HP
                  ltac:(unfold minMantissa in *; lia)).
    unfold maxMantissa, sgn in *. destruct (neg_number x); lia.
  - destruct (Z.leb_spec (abs_mantissa x * 10 ^ exponent_ x) 9223372036854775800); [| discriminate].
    intros [= <-]. unfold abs_mantissa in *. rewrite Z.abs_mul, (Z.abs_eq (10 ^ _))
      by (apply Z.pow_nonneg; lia). lia.
Qed.

Section Integral.

Context (cfg : Settings) (asset : Asset).
Context (HC : current cfg) (HA : asset_integral asset = true).

Lemma integral_cases : asset_native asset || holds_mpt asset = true.
Proof. destruct asset; cbn in *; [now rewrite HA | reflexivity]. Qed.

Lemma native_not_mpt : asset_native asset = true -> holds_mpt asset = false.
Proof. destruct asset; cbn; [reflexivity | discriminate]. Qed.

Lemma limit_int64 : integral_limit asset <= int64_max.
Proof. unfold integral_limit, cMaxNativeN, maxMPTokenAmount, int64_max. destruct (asset_native _); lia. Qed.

(** An integral amount of value [v]. *)
Definition st_whole (v : Z) : STAmount := mkSTAmount asset (Z.abs v) 0 (v <? 0).

Lemma number_of_st_whole v :
  Z.abs v < 2 ^ 63 -> number_of_st cfg (st_whole v) = of_rep (round_mode cfg) v.
Proof.
  intros Hv. unfold number_of_st, xrp, mpt, native; cbn [st_whole mAsset].
  assert (signed_value (st_whole v) = v) as E.
  { unfold signed_value; cbn [st_whole mValue mIsNegative]. rewrite i64_id by lia.
    destruct (Z.ltb_spec v 0); lia. }
  pose proof integral_cases as HI. fold (st_whole v). rewrite E.
  destruct (asset_native asset); [reflexivity |]. cbn [orb] in HI. now rewrite HI.
Qed.

Lemma st_of_number_integral x :
  normal x ->
  st_of_number cfg asset x =
    if negb (exponent_ x <=? -20) && (integral_max_exponent asset <? exponent_ x)
    then Throw runtime_error
    else
      let* v := round_whole (round_mode cfg) x in
      if integral_limit asset <? Z.abs v then Throw runtime_error else Ok (st_whole v).
Proof.
  intros Hx. pose proof (normal_abs_range x Hx) as R. unfold abs_mantissa in R.
  unfold st_of_number. rewrite st_make_signed_eq by (unfold maxMantissa in *; lia).
  unfold canonicalize, native. cbn [st_iou mAsset mValue mOffset mIsNegative].
  rewrite integral_cases, (proj1 HC), (proj2 HC). unfold round_whole.
  destruct (Z.eqb_spec (Z.abs (mantissa_ x)) 0); [unfold minMantissa in *; lia |].
  destruct (Z.eqb_spec (mantissa_ x) 0); [lia |]. cbn [orb andb].
  destruct (Z.leb_spec (exponent_ x) (-20)) as [L | L]; cbn [negb andb bind].
  { unfold integral_limit, cMaxNativeN, maxMPTokenAmount. now destruct (asset_native asset). }
  assert ((asset_native asset && (17 <? exponent_ x)) || (holds_mpt asset && (18 <? exponent_ x)) =
          (integral_max_exponent asset <? exponent_ x)) as ->.
  { unfold integral_max_exponent. pose proof integral_cases as HI.
    destruct (asset_native asset) eqn:EN.
    - rewrite (native_not_mpt EN). cbn [andb]. now rewrite orb_false_r.
    - cbn [orb] in HI. now rewrite HI. }
  destruct (integral_max_exponent asset <? exponent_ x); [reflexivity |].
  replace (mkNumber _ _) with x.
  2: { destruct x as [m e]; cbn [mantissa_ exponent_] in *. f_equal.
       unfold maxMantissa in R. unfold i64, u64. destruct (Z.ltb_spec m 0).
       - rewrite Z.abs_neq, Z.opp_involutive by lia.
         rewrite Zplus_mod_idemp_l, Z.mod_small by lia. lia.
       - rewrite Z.mod_small; lia. }
  replace (if asset_native asset then xrp_of_number cfg x else mpt_of_number cfg x)
    with (to_rep (round_mode cfg) x) by now destruct (asset_native asset).
  destruct (to_rep (round_mode cfg) x) as [v |] eqn:ER; cbn [bind]; [| reflexivity].
  pose proof (to_rep_range _ _ _ Hx L ER). fold (integral_limit asset).
  replace (u64 (if v <? 0 then - v else v)) with (Z.abs v)
    by (destruct (Z.ltb_spec v 0); rewrite u64_id by lia; lia).
  reflexivity.
Qed.

End Integral.

(** [roundToAsset] at an integral asset: rounded to a whole number by the mode,
    then converted to a number in the same mode. *)
Lemma roundToAsset_integral cfg asset s x md :
  current cfg -> asset_integral asset = true -> wf x ->
  roundToAsset cfg asset x s md =
    if negb (exponent_ x <=? -20) && (integral_max_exponent asset <? exponent_ x)
    then Throw runtime_error
    else
      let* v := round_whole md x in
      if integral_limit asset <? Z.abs v then Throw runtime_error else of_rep md v.
Proof.
  intros HC HA Hx. assert (HCm : current (with_mode cfg md)) by exact HC.
  pose proof (limit_int64 asset) as HL. unfold roundToAsset, integral.
  destruct Hx as [-> | Hx].
  { assert (st_of_number (with_mode cfg md) asset zero = Ok (st_whole asset 0)) as ->.
    { unfold st_of_number, st_make_signed, canonicalize, native. cbn [st_set mAsset].
      cbn. now rewrite (integral_cases asset HA). }
    cbn [bind st_whole mAsset]. rewrite HA. fold (st_whole asset 0).
    rewrite number_of_st_whole by (assumption || reflexivity).
    assert ((integral_limit asset <? 0) = false) as E
      by (unfold integral_limit; now destruct (asset_native asset)).
    cbn. now rewrite E. }
  rewrite (st_of_number_integral _ _ HCm HA x Hx). cbn [round_mode with_mode].
  destruct (_ && _); [reflexivity |].
  destruct (round_whole md x) as [v |]; cbn [bind]; [| reflexivity].
  destruct (Z.ltb_spec (integral_limit asset) (Z.abs v)); [reflexivity |].
  cbn [bind st_whole mAsset]. rewrite HA. fold (st_whole asset v).
  rewrite number_of_st_whole by (assumption || (unfold int64_max in *; lia)). reflexivity.
Qed.

(** ** Any asset *)

(** The scales a loan or a vault in an asset has. *)
Definition asset_scale (a : Asset) (s : Z) : Prop :=
  if asset_integral a then s = 0 else iou_scale s.

Lemma asset_scale_grid a s : asset_scale a s -> grid_scale s.
Proof.
  unfold asset_scale. destruct (asset_integral a); [| apply iou_scale_grid].
  intros ->. unfold grid_scale, minExponent, maxExponent. lia.
Qed.

Lemma of_rep_multiple md v z : Z.abs v < 2 ^ 63 -> of_rep md v = Ok z -> multiple 0 z.
Proof.
  intros Hv. destruct (Z.le_gt_cases (Z.abs v) maxMantissa) as [L | L].
  - destruct (make_grid md v 0 L) as (z' & E & Hz);
      [unfold grid_scale, minExponent, maxExponent; lia |].
    unfold of_rep. rewrite E. intros [= <-]. now apply (multiple_grid 0 v).
  - destruct (scale_exists (Z.abs v)) as (k & Hk & HM); [unfold minMantissa, maxMantissa in *; lia |].
    unfold of_rep, make. rewrite (normalize_large md v 0 k) by (lia || assumption).
    destruct (_ <? minExponent); [intros [= <-]; apply multiple_zero |]. unfold pack.
    apply (pack_multiple md _ _ _ k (0 + k) 0 0 z Hk HM). lia.
Qed.

Lemma round_whole_range md x v : wf x -> round_whole md x = Ok v -> Z.abs v < 2 ^ 63.
Proof.
  intros [-> | Hx]; unfold round_whole; [intros [= <-]; reflexivity |].
  destruct (_ || _) eqn:E; [intros [= <-]; reflexivity |]. zbool. now apply to_rep_range.
Qed.

(** Results of [roundToAsset] are multiples of the unit of the scale. *)
Lemma roundToAsset_multiple cfg asset s x md z :
  current cfg -> asset_scale asset s -> wf x ->
  roundToAsset cfg asset x s md = Ok z -> multiple s z.
Proof.
  intros HC HS Hx. unfold asset_scale in HS. destruct (asset_integral asset) eqn:HA.
  - subst s. rewrite (roundToAsset_integral cfg asset 0 x md HC HA Hx).
    destruct (_ && _); [discriminate |]. intros H. bind_inv H.
    destruct (_ <? _); [discriminate |]. eauto using of_rep_multiple, round_whole_range.
  - pose proof (roundToAsset_iou cfg asset s x md HC HA HS Hx) as HR.
    destruct (_ <? _); [rewrite HR; discriminate |].
    destruct (Z.ltb_spec (exponent_ x) iou_minExponent); [rewrite HR; intros [= <-]; apply multiple_zero |].
    destruct (Z.leb_spec s (exponent_ x)) as [L | L].
    + rewrite HR; intros [= <-]. destruct Hx as [-> | Hx]; [apply multiple_zero |].
      destruct x as [m e]. apply multiple_intro; [exact Hx |]. cbn [exponent_] in L. lia.
    + destruct HR as (z' & -> & Hz). intros [= <-]. eauto using multiple_grid.
Qed.

(** ** Sign *)

Definition nonneg (x : Number) : Prop := number_ltb x zero = false.

Lemma nonneg_neg_number x : wf x -> nonneg x <-> neg_number x = false.
Proof.
  unfold nonneg, number_ltb, neg_number. intros [-> | Hx]; [cbn; tauto |].
  pose proof (normal_abs_range x Hx) as R. unfold abs_mantissa, minMantissa in R.
  cbn [mantissa_ zero]. destruct (Z.ltb_spec (mantissa_ x) 0); cbn; [intuition discriminate |].
  destruct (Z.eqb_spec (mantissa_ x) 0); [lia |]. tauto.
Qed.

Lemma nonneg_grid s n x : on_grid s n x -> nonneg x <-> 0 <= n.
Proof.
  intros H. unfold nonneg. rewrite (grid_ltb s n 0 x zero H (on_grid_zero s)). apply Z.ltb_ge.
Qed.

Lemma pack_sign md g n k e z : 0 <= k -> 0 <= n -> pack_with md g false n k e = Ok z -> neg_number z = false.
Proof.
  intros Hk Hn. unfold pack_with. pose proof (pow10_pos k Hk) as HP.
  pose proof (round_quot_nonneg md g n (10 ^ k) HP Hn).
  destruct (maxMantissa <? _);
    (destruct (_ <? minExponent); [intros [= <-]; reflexivity |]);
    (destruct (maxExponent <? _); [discriminate |]); intros [= <-];
    unfold neg_number; cbn [mantissa_]; apply Z.ltb_ge; [apply Z.div_pos; lia | assumption].
Qed.

Lemma of_rep_nonneg md v z : 0 <= v < 2 ^ 63 -> of_rep md v = Ok z -> nonneg z.
Proof.
  intros Hv. destruct (Z.le_gt_cases v maxMantissa) as [L | L].
  - destruct (make_grid md v 0) as (z' & E & Hz);
      [lia | unfold grid_scale, minExponent, maxExponent; lia |].
    unfold of_rep. rewrite E. intros [= <-]. now apply (nonneg_grid 0 v).
  - intros H. assert (wf z) as Hw by (eapply of_rep_multiple, multiple_wf in H; [exact H | lia]).
    apply (nonneg_neg_number z Hw). revert H.
    destruct (scale_exists (Z.abs v)) as (k & Hk & HM); [unfold minMantissa, maxMantissa in *; lia |].
    unfold of_rep, make. rewrite (normalize_large md v 0 k) by (lia || assumption).
    destruct (_ <? minExponent); [intros [= <-]; reflexivity |].
    destruct (Z.ltb_spec v 0); [lia |]. apply pack_sign; lia.
Qed.

Lemma to_rep_nonneg md x v : normal x -> neg_number x = false -> to_rep md x = Ok v -> 0 <= v.
Proof.
  intros Hx HN. rewrite (to_rep_spec md x Hx), HN. pose proof (normal_abs_range x Hx) as R.
  unfold minMantissa in R. destruct (Z.ltb_spec (exponent_ x) 0).
  - change (sgn false) with 1. rewrite Z.mul_1_l. intros [= <-]. apply round_quot_nonneg; [apply pow10_pos |]; lia.
  - destruct (_ <=? _); [| discriminate]. intros [= <-]. unfold neg_number in HN. zbool.
    apply Z.mul_nonneg_nonneg; [lia | apply Z.pow_nonneg; lia].
Qed.

(** Rounding a non-negative value gives a non-negative value. *)
Lemma roundToAsset_nonneg cfg asset s x md z :
  current cfg -> asset_scale asset s -> wf x -> nonneg x ->
  roundToAsset cfg asset x s md = Ok z -> nonneg z.
Proof.
  intros HC HS Hx H0. pose proof (proj1 (nonneg_neg_number x Hx) H0) as HN.
  unfold asset_scale in HS. destruct (asset_integral asset) eqn:HA.
  - rewrite (roundToAsset_integral cfg asset s x md HC HA Hx).
    destruct (_ && _); [discriminate |]. intros H. bind_inv H.
    destruct (_ <? _); [discriminate |]. pose proof (round_whole_range md x a Hx Hb) as R.
    apply (of_rep_nonneg md a z); [split; [| lia] | exact H].
    unfold round_whole in Hb. destruct Hx as [-> | Hx]; [now injection Hb as <- |].
    destruct (_ || _); [injection Hb as <-; lia |]. eauto using to_rep_nonneg.
  - pose proof (roundToAsset_iou cfg asset s x md HC HA HS Hx) as HR.
    destruct (_ <? _); [rewrite HR; discriminate |].
    destruct (Z.ltb_spec (exponent_ x) iou_minExponent); [rewrite HR; now intros [= <-] |].
    destruct (Z.leb_spec s (exponent_ x)) as [L | L]; [rewrite HR; now intros [= <-] |].
    destruct HR as (z' & -> & Hz). intros [= <-]. apply (nonneg_grid s _ z' Hz).
    unfold round_units. rewrite HN. change (sgn false) with 1. rewrite Z.mul_1_l.
    apply round_quot_nonneg; [apply pow10_pos; lia | unfold abs_mantissa; lia].
Qed.

(** ** Rounded values *)

Lemma round_units_grid md s n x :
  on_grid s n x -> n <> 0 -> round_units md x s = n.
Proof.
  intros Hx Hn. pose proof (on_grid_sign s n x Hx) as S. destruct Hx as [[? _] | (_ & He & Hm)]; [lia |].
  unfold round_units, abs_mantissa. pose proof (pow10_pos (s - exponent_ x) ltac:(lia)) as HP.
  rewrite Hm, Z.abs_mul, (Z.abs_eq (10 ^ _)), round_quot_exact, S by lia.
  unfold sgn. destruct (Z.ltb_spec n 0); lia.
Qed.

Lemma round_whole_grid md n x : on_grid 0 n x -> n <> 0 -> round_whole md x = Ok n.
Proof.
  intros Hx Hn. pose proof (on_grid_bound 0 n x Hx) as HB. pose proof (on_grid_nonzero 0 n x Hx Hn) as Nx.
  pose proof (on_grid_exponent 0 n x Hx Hn) as He.
  unfold round_whole. pose proof (normal_abs_range x Nx) as R. unfold abs_mantissa, minMantissa in R.
  destruct (Z.eqb_spec (mantissa_ x) 0); [lia |]. destruct (Z.leb_spec (exponent_ x) (-20)); [lia |].
  cbn [orb]. rewrite (to_rep_spec md x Nx). pose proof (round_units_grid md 0 n x Hx Hn) as RU.
  unfold round_units in RU. rewrite Z.sub_0_l in RU. destruct (Z.ltb_spec (exponent_ x) 0); [now rewrite RU |].
  assert (exponent_ x = 0) as E0 by lia. rewrite E0, Z.pow_0_r, !Z.mul_1_r in *.
  destruct Hx as [[? _] | (_ & _ & Hm)]; [lia |]. rewrite E0 in Hm. change (10 ^ (0 - 0)) with 1 in Hm.
  unfold abs_mantissa, maxMantissa in *. destruct (Z.leb_spec (Z.abs (mantissa_ x)) 9223372036854775800); [f_equal; lia | lia].
Qed.

(** A number of the grid is left alone, in every mode. *)
Lemma roundToAsset_grid_id cfg asset s n x md :
  current cfg -> asset_scale asset s -> on_grid s n x -> roundToAsset cfg asset x s md = Ok x.
Proof.
  intros HC HS Hx. pose proof (on_grid_wf s n x Hx) as Wx. pose proof (on_grid_bound s n x Hx) as HB.
  destruct (Z.eq_dec n 0) as [-> | Hn].
  { rewrite (on_grid_zero_inv s x Hx). unfold asset_scale in HS. destruct (asset_integral asset) eqn:HA.
    - rewrite (roundToAsset_integral cfg asset s zero md HC HA (or_introl eq_refl)). cbn.
      unfold integral_limit. now destruct (asset_native asset).
    - exact (roundToAsset_iou cfg asset s zero md HC HA HS (or_introl eq_refl)). }
  pose proof (on_grid_exponent s n x Hx Hn) as He. pose proof (on_grid_nonzero s n x Hx Hn) as Nx.
  unfold asset_scale in HS. destruct (asset_integral asset) eqn:HA.
  - subst s. rewrite (roundToAsset_integral cfg asset 0 x md HC HA Wx).
    destruct (Z.leb_spec (exponent_ x) (-20)); [lia |]. cbn [negb andb].
    destruct (Z.ltb_spec (integral_max_exponent asset) (exponent_ x));
      [unfold integral_max_exponent in *; destruct (asset_native asset); lia |].
    rewrite (round_whole_grid md n x Hx Hn).
    cbn [bind]. destruct (Z.ltb_spec (integral_limit asset) (Z.abs n));
      [unfold integral_limit, cMaxNativeN, maxMPTokenAmount, maxMantissa in *; destruct (asset_native asset); lia |].
    destruct (make_grid md n 0 HB) as (z & E & Hz); [unfold grid_scale, minExponent, maxExponent; lia |].
    unfold of_rep. rewrite E. f_equal. now apply (on_grid_unique 0 n).
  - pose proof (roundToAsset_iou cfg asset s x md HC HA HS Wx) as E. unfold iou_scale, iou_minExponent in HS.
    destruct (Z.ltb_spec iou_maxExponent (exponent_ x)); [lia |].
    destruct (Z.ltb_spec (exponent_ x) iou_minExponent); [unfold iou_minExponent in *; lia |].
    destruct (Z.leb_spec s (exponent_ x)); [exact E |]. destruct E as (z & E & Hz). rewrite E. f_equal.
    rewrite (round_units_grid md s n x Hx Hn) in Hz. now apply (on_grid_unique s n).
Qed.

(** ** Rounding returns *)

Lemma round_whole_units md x :
  normal x -> -20 < exponent_ x < 0 ->
  round_whole md x = Ok (round_units md x 0) /\ Z.abs (round_units md x 0) <= minMantissa.
Proof.
  intros Hx He. pose proof (normal_abs_range x Hx) as R. unfold round_whole, round_units.
  destruct (Z.eqb_spec (mantissa_ x) 0) as [E |];
    [unfold abs_mantissa, minMantissa in R; rewrite E in R; cbn in R; lia |].
  destruct (Z.leb_spec (exponent_ x) (-20)); [lia |]. cbn [orb]. rewrite (to_rep_spec md x Hx).
  destruct (Z.ltb_spec (exponent_ x) 0); [| lia]. change (0 - exponent_ x) with (- exponent_ x). split; [reflexivity |].
  pose proof (Z.pow_le_mono_r 10 1 (- exponent_ x) ltac:(lia) ltac:(lia)) as HP.
  pose proof (round_quot_nonneg md (neg_number x) (abs_mantissa x) (10 ^ (- exponent_ x))
                ltac:(lia) ltac:(unfold minMantissa in R; lia)).
  pose proof (round_quot_le md (neg_number x) (abs_mantissa x) (10 ^ (- exponent_ x)) minMantissa
                ltac:(lia) ltac:(unfold minMantissa, maxMantissa in *; lia)).
  unfold sgn. destruct (neg_number x); lia.
Qed.

(** A value no coarser than the scale, and of at most 16 digits of it, is
    rounded without error. *)
Lemma roundToAsset_returns cfg asset s x md :
  current cfg -> asset_scale asset s -> wf x -> exponent_ x <= s ->
  exists z, roundToAsset cfg asset x s md = Ok z.
Proof.
  intros HC HS Hx He. unfold asset_scale in HS. destruct (asset_integral asset) eqn:HA.
  - subst s. destruct Hx as [-> | Hx].
    { exists zero. apply (roundToAsset_grid_id cfg asset 0 0); [exact HC | | apply on_grid_zero].
      unfold asset_scale. now rewrite HA. }
    rewrite (roundToAsset_integral cfg asset 0 x md HC HA (or_intror Hx)).
    assert (maxMantissa <= integral_limit asset)
      by (unfold integral_limit; destruct (asset_native asset); eval_cmp).
    assert (exists v, round_whole md x = Ok v /\ Z.abs v <= maxMantissa) as (v & -> & Hv).
    { destruct (Z.le_gt_cases (exponent_ x) (-20)) as [L | L].
      { exists 0. unfold round_whole. destruct (Z.leb_spec (exponent_ x) (-20)); [| lia].
        rewrite orb_true_r. split; [reflexivity | eval_cmp]. }
      destruct (Z.eq_dec (exponent_ x) 0) as [E |].
      - exists (mantissa_ x). pose proof (normal_abs_range x Hx) as R. unfold abs_mantissa in R.
        destruct x as [m e]. cbn [mantissa_ exponent_] in *. subst e. unfold round_whole; cbn [mantissa_ exponent_].
        destruct (Z.eqb_spec m 0) as [-> |]; [unfold minMantissa in R; cbn in R; lia |].
        cbn [Z.leb Z.compare orb]. rewrite (to_rep_spec md _ Hx). cbn [mantissa_ exponent_ Z.ltb Z.compare].
        unfold abs_mantissa; cbn [mantissa_]. rewrite Z.pow_0_r, !Z.mul_1_r. unfold maxMantissa in R.
        destruct (Z.leb_spec (Z.abs m) 9223372036854775800); [| lia]. split; [reflexivity | apply R].
      - destruct (round_whole_units md x Hx ltac:(lia)) as [E B]. exists (round_units md x 0).
        unfold minMantissa, maxMantissa in *. split; [exact E | lia]. }
    destruct (Z.ltb_spec (integral_max_exponent asset) (exponent_ x));
      [unfold integral_max_exponent in *; destruct (asset_native asset); lia |]. rewrite andb_false_r. cbn [bind].
    destruct (Z.ltb_spec (integral_limit asset) (Z.abs v)); [lia |].
    destruct (make_grid md v 0 Hv) as (z & E & _); [unfold grid_scale; eval_cmp |]. eauto.
  - pose proof (roundToAsset_iou cfg asset s x md HC HA HS Hx) as HR. unfold iou_scale in HS.
    destruct (Z.ltb_spec iou_maxExponent (exponent_ x)); [lia |].
    destruct (_ <? _); [eauto |]. destruct (_ <=? _); [eauto |]. destruct HR as (z & E & _). eauto.
Qed.
