(* ===== verification/AmountsWhole.v ===== *)
(** * Whole amounts

    Amounts of XRP and of multi-purpose tokens as integers: the form [st_whole], its
    conversions, sums, differences and order. *)

From Stdlib Require Import ZArith Lia Bool.
From S2P Require Import Prelude.
From S2P Require Import XrplNumber.
From S2P Require Import XrplNumberFacts.
From S2P Require Import XrplNumberCorrect.
From S2P Require Import XrplNumberAdd.
From S2P Require Import XrplNumberGrid.
From S2P Require Import Amounts.
From S2P Require Import AmountsFacts.
From S2P Require Import AmountsRound.

Open Scope Z_scope.

Lemma to_rep_whole md m : to_rep md (mkNumber m 0) = Ok m.
Proof.
  unfold to_rep; cbn [mantissa_ exponent_]. destruct (Z.eqb_spec m 0); [reflexivity |].
  destruct (Z.ltb_spec m 0); destruct md; cbn; f_equal; lia.
Qed.

(** The signed integer of an integral amount. *)
Lemma signed_value_range a :
  canonical a -> integral a = true -> Z.abs (signed_value a) = mValue a /\ mValue a <= int64_max.
Proof.
  intros [_ HI] HA. rewrite HA in HI. destruct HI as [_ HI]. pose proof (limit_int64 (mAsset a)).
  unfold signed_value, int64_max in *. rewrite i64_id by lia. destruct (mIsNegative a); lia.
Qed.

Lemma signed_value_sign a :
  canonical a -> integral a = true -> mIsNegative a = (signed_value a <? 0).
Proof.
  intros HC HA. pose proof (signed_value_range a HC HA) as HR. destruct HC as [HZ HI]. rewrite HA in HI.
  unfold signed_value, int64_max in *. rewrite i64_id in * by lia.
  destruct (mIsNegative a); [| symmetry; apply Z.ltb_ge; lia].
  symmetry; apply Z.ltb_lt. destruct (Z.eq_dec (mValue a) 0); [intuition congruence | lia].
Qed.

Lemma whole_form a :
  canonical a -> integral a = true ->
  a = st_whole (mAsset a) (signed_value a) /\ Z.abs (signed_value a) <= integral_limit (mAsset a).
Proof.
  intros HC HA. destruct (signed_value_range a HC HA) as [E _].
  pose proof (signed_value_sign a HC HA) as S. destruct HC as [_ HI]. rewrite HA in HI.
  destruct HI as [HO HL]. split; [| lia]. unfold st_whole. rewrite E, <- S, <- HO. now destruct a.
Qed.

Lemma signed_value_whole asset v : Z.abs v < 2 ^ 63 -> signed_value (st_whole asset v) = v.
Proof.
  intros Hv. unfold signed_value, st_whole; cbn [mValue mIsNegative]. rewrite i64_id by lia.
  destruct (Z.ltb_spec v 0); lia.
Qed.

Lemma canonicalize_whole cfg asset v :
  current cfg -> asset_integral asset = true -> Z.abs v <= integral_limit asset ->
  canonicalize cfg (st_whole asset v) = Ok (st_whole asset v).
Proof.
  intros [C1 C2] HA HL. pose proof (limit_int64 asset) as H63. unfold int64_max in H63.
  unfold canonicalize, native; cbn [st_whole mAsset mValue mOffset mIsNegative].
  rewrite (integral_cases asset HA), C1, C2. destruct (Z.eqb_spec (Z.abs v) 0).
  { replace v with 0 by lia. reflexivity. }
  cbn [orb andb Z.leb Z.compare Z.ltb]. rewrite !andb_false_r. cbn [orb].
  replace (i64 _) with v by (destruct (Z.ltb_spec v 0);
    [unfold i64, u64; rewrite Zplus_mod_idemp_l, Z.mod_small | rewrite i64_id]; lia).
  unfold xrp_of_number, mpt_of_number. rewrite to_rep_whole.
  replace (if asset_native asset then Ok v else Ok v) with (Ok v) by now destruct (asset_native asset).
  cbn [bind]. fold (integral_limit asset).
  replace (u64 (if v <? 0 then - v else v)) with (Z.abs v) by (destruct (Z.ltb_spec v 0); rewrite u64_id; lia).
  destruct (Z.ltb_spec (integral_limit asset) (Z.abs v)); [lia | reflexivity].
Qed.

Lemma st_make_signed_whole cfg asset v :
  current cfg -> asset_integral asset = true -> Z.abs v <= integral_limit asset ->
  st_make_signed cfg asset v 0 = Ok (st_whole asset v).
Proof.
  intros HC HA HL. pose proof (limit_int64 asset) as H63. unfold int64_max in H63.
  rewrite st_make_signed_eq by lia. now apply canonicalize_whole.
Qed.

Lemma st_neg_whole asset v : st_neg (st_whole asset v) = st_whole asset (- v).
Proof.
  unfold st_neg, st_whole; cbn [mAsset mValue mOffset mIsNegative]. rewrite Z.abs_opp.
  destruct (Z.eqb_spec (Z.abs v) 0); [assert (v = 0) as -> by lia; reflexivity |]. f_equal.
  destruct (Z.ltb_spec v 0), (Z.ltb_spec (- v) 0); reflexivity || lia.
Qed.

Lemma whole_is_zero asset v : st_is_zero (st_whole asset v) = (v =? 0).
Proof.
  unfold st_is_zero, st_signum, st_whole; cbn [mValue mIsNegative].
  destruct (Z.eqb_spec (Z.abs v) 0), (Z.eqb_spec v 0); try lia.
  now destruct (v <? 0).
Qed.

Section Whole.

Context (cfg : Settings) (A B : Asset) (u v : Z).
Context (HC : current cfg) (HA : asset_integral A = true).
Context (HU : Z.abs u <= integral_limit A) (HV : Z.abs v <= integral_limit B).
Context (HE : areComparable (st_whole A u) (st_whole B v) = true).

Lemma whole_same_kind : asset_native A = asset_native B /\ holds_mpt A = holds_mpt B.
Proof.
  clear - HE. unfold areComparable, native in HE; cbn [st_whole mAsset] in HE.
  destruct A, B; try discriminate; [| auto]. apply andb_prop in HE as [E _]. now rewrite (eqb_prop _ _ E).
Qed.

Lemma whole_int64 : Z.abs u < 2 ^ 63 /\ Z.abs v < 2 ^ 63 /\ integral_limit A = integral_limit B.
Proof.
  pose proof (limit_int64 A). pose proof (limit_int64 B). unfold int64_max in *.
  splits; try lia. unfold integral_limit. now rewrite (proj1 whole_same_kind).
Qed.

Lemma st_add_whole :
  Z.abs (u + v) <= int64_max -> exists c, st_add cfg (st_whole A u) (st_whole B v) = Ok c /\ signed_value c = u + v.
Proof.
  intros HS. destruct whole_int64 as (Iu & Iv & EL), whole_same_kind as [EN EM]. unfold int64_max in HS.
  unfold st_add. rewrite HE, !whole_is_zero. cbn [negb].
  destruct (Z.eqb_spec v 0); [eexists; split; [reflexivity |]; rewrite signed_value_whole; lia |].
  destruct (Z.eqb_spec u 0).
  { unfold st_make. cbn [st_whole mAsset mValue mOffset mIsNegative]. fold (st_whole A v).
    rewrite canonicalize_whole by (assumption || lia). eexists; split; [reflexivity |].
    rewrite signed_value_whole; lia. }
  unfold native, getSNValue, getInt64Value, native, mpt. cbn [st_whole mAsset].
  fold (st_whole A u) (st_whole B v). rewrite !signed_value_whole, <- EN, <- EM by assumption.
  pose proof (integral_cases A HA) as HI. destruct (asset_native A) eqn:EA.
  - cbn [bind]. rewrite i64_id by lia. eexists; split; [reflexivity |].
    unfold st_drops, st_set, signed_value. destruct (Z.ltb_spec (u + v) 0); cbn [mValue mIsNegative];
      rewrite u64_id, i64_id; lia.
  - cbn [orb] in HI. rewrite HI. cbn [bind]. rewrite i64_id by lia.
    rewrite st_make_signed_whole
      by (try assumption; unfold integral_limit; rewrite EA; unfold maxMPTokenAmount; lia).
    eexists; split; [reflexivity |]. rewrite signed_value_whole; lia.
Qed.

End Whole.

(** *** The same asset on both sides *)

Lemma same_comparable asset u v : areComparable (st_whole asset u) (st_whole asset v) = true.
Proof.
  unfold areComparable; cbn [st_whole mAsset]. destruct asset; [|apply Z.eqb_refl].
  unfold native; cbn [mAsset st_whole]. now rewrite eqb_reflx, Z.eqb_refl.
Qed.

Lemma st_add_same cfg asset u v :
  current cfg -> asset_integral asset = true -> (forall i, asset = AIssue i -> i = xrpIssue) ->
  Z.abs u <= integral_limit asset -> Z.abs v <= integral_limit asset ->
  Z.abs (u + v) <= integral_limit asset ->
  st_add cfg (st_whole asset u) (st_whole asset v) = Ok (st_whole asset (u + v)).
Proof.
  intros HC HA HX HU HV HS. pose proof (limit_int64 asset) as H63. unfold int64_max in H63.
  unfold st_add. rewrite same_comparable, !whole_is_zero. cbn [negb].
  destruct (Z.eqb_spec v 0) as [->|]; [now rewrite Z.add_0_r|].
  destruct (Z.eqb_spec u 0) as [->|].
  { unfold st_make. cbn [st_whole mAsset mValue mOffset mIsNegative]. fold (st_whole asset v).
    now rewrite canonicalize_whole by (assumption || lia). }
  unfold native, getSNValue, getInt64Value, native, mpt. cbn [st_whole mAsset].
  fold (st_whole asset u) (st_whole asset v). rewrite !signed_value_whole by lia.
  pose proof (integral_cases asset HA) as HI. destruct (asset_native asset) eqn:EA.
  - cbn [bind]. rewrite i64_id by lia. unfold st_drops, st_set, st_whole.
    destruct asset as [i|]; [|discriminate]. rewrite (HX i eq_refl).
    destruct (Z.ltb_spec (u + v) 0); rewrite u64_id by lia; do 2 f_equal; lia.
  - cbn [orb] in HI. rewrite HI. cbn [bind]. rewrite i64_id by lia.
    now rewrite st_make_signed_whole by (assumption || lia).
Qed.

Lemma st_sub_same cfg asset u v :
  current cfg -> asset_integral asset = true -> (forall i, asset = AIssue i -> i = xrpIssue) ->
  Z.abs u <= integral_limit asset -> Z.abs v <= integral_limit asset ->
  Z.abs (u - v) <= integral_limit asset ->
  st_sub cfg (st_whole asset u) (st_whole asset v) = Ok (st_whole asset (u - v)).
Proof.
  intros HC HA HX HU HV HS. unfold st_sub. rewrite st_neg_whole. apply st_add_same; auto; lia.
Qed.

Lemma st_ltb_same asset u v : st_ltb (st_whole asset u) (st_whole asset v) = Ok (u <? v).
Proof.
  unfold st_ltb. rewrite same_comparable. cbn [negb st_whole mIsNegative mValue mOffset]. f_equal.
  rewrite Z.ltb_irrefl.
  destruct (Z.ltb_spec u 0), (Z.ltb_spec v 0); cbn [xorb negb]; try (symmetry; lia).
  all: destruct (Z.eqb_spec (Z.abs u) 0), (Z.eqb_spec (Z.abs v) 0); cbn [negb]; try (symmetry; lia).
  all: destruct (Z.ltb_spec (Z.abs v) (Z.abs u)), (Z.ltb_spec (Z.abs u) (Z.abs v)); symmetry; lia.
Qed.

Lemma st_zeroed_whole cfg asset :
  current cfg -> asset_integral asset = true -> st_zeroed cfg asset = Ok (st_whole asset 0).
Proof.
  intros HC HA. unfold st_zeroed, st_make. change (mkSTAmount asset 0 0 false) with (st_whole asset 0).
  apply canonicalize_whole; auto. unfold integral_limit, cMaxNativeN, maxMPTokenAmount.
  destruct (asset_native asset); lia.
Qed.

(** Drops: sums up to the 64-bit range. *)
Lemma st_add_drops cfg u v :
  current cfg -> Z.abs u <= int64_max -> Z.abs v <= cMaxNativeN -> Z.abs (u + v) <= int64_max ->
  st_add cfg (st_whole (AIssue xrpIssue) u) (st_whole (AIssue xrpIssue) v) =
  Ok (st_whole (AIssue xrpIssue) (u + v)).
Proof.
  unfold int64_max. intros HC HU HV HS.
  unfold st_add. rewrite same_comparable, !whole_is_zero. cbn [negb].
  destruct (Z.eqb_spec v 0) as [->|]; [now rewrite Z.add_0_r|].
  destruct (Z.eqb_spec u 0) as [->|].
  { unfold st_make. cbn [st_whole mAsset mValue mOffset mIsNegative]. fold (st_whole (AIssue xrpIssue) v).
    now rewrite canonicalize_whole. }
  unfold native, getSNValue, getInt64Value, native. cbn [st_whole mAsset].
  fold (st_whole (AIssue xrpIssue) u) (st_whole (AIssue xrpIssue) v).
  unfold cMaxNativeN in *. rewrite !signed_value_whole by lia.
  change (asset_native (AIssue xrpIssue)) with true. cbn [bind]. rewrite i64_id by lia.
  unfold st_drops, st_set, st_whole.
  destruct (Z.ltb_spec (u + v) 0); rewrite u64_id by lia; do 2 f_equal; lia.
Qed.

Lemma st_sub_drops cfg u v :
  current cfg -> Z.abs u <= int64_max -> Z.abs v <= cMaxNativeN -> Z.abs (u - v) <= int64_max ->
  st_sub cfg (st_whole (AIssue xrpIssue) u) (st_whole (AIssue xrpIssue) v) =
  Ok (st_whole (AIssue xrpIssue) (u - v)).
Proof. intros. unfold st_sub. rewrite st_neg_whole. apply st_add_drops; auto; lia. Qed.

(** The asset of an amount never changes. *)
Lemma canonicalize_asset cfg a b : canonicalize cfg a = Ok b -> mAsset b = mAsset a.
Proof.
  unfold canonicalize. destruct (native a || _).
  - destruct (_ || _); [now intros [= <-]|]. destruct (_ && _); [discriminate |].
    intros H; apply bind_ok in H as ([x n] & _ & Hb). destruct (_ <? x); [discriminate |]. now injection Hb as <-.
  - destruct (STNumberSwitchover cfg); [intros H; apply bind_ok in H as (x & _ & [= <-]); reflexivity |].
    destruct (mValue a =? 0); [now intros [= <-]|]. destruct (legacy_up _ _ _) as [x e].
    intros H; apply bind_ok in H as ([y f] & _ & Hb). destruct (_ || _); [now injection Hb as <-|].
    destruct (_ <? f); [discriminate |]. now injection Hb as <-.
Qed.

(** ** Rounding to a scale no coarser than the value *)

(** Scales with room for the digits of an amount below them. *)
Definition deep_scale (asset : Asset) (s : Z) : Prop :=
  if asset_integral asset then s = 0 else iou_scale s /\ iou_scale (s - 15).

Lemma deep_scale_asset asset s : deep_scale asset s -> asset_scale asset s.
Proof. unfold deep_scale, asset_scale. destruct (asset_integral asset); tauto. Qed.

(** An IOU no finer than the scale is left alone. *)
Lemma roundToAsset_coarse cfg asset t x md :
  current cfg -> asset_integral asset = false -> wf x ->
  (x = zero /\ t <= -100) \/ (iou_minExponent <= exponent_ x <= iou_maxExponent /\ t <= exponent_ x) ->
  roundToAsset cfg asset x t md = Ok x.
Proof.
  intros HC HA Hx Ht. assert (HCm : current (with_mode cfg md)) by exact HC.
  unfold roundToAsset. rewrite (st_of_number_iou _ _ HCm HA) by assumption. unfold st_clamp.
  destruct Ht as [[-> Ht] | [He Ht]].
  - change (iou_maxExponent <? exponent_ zero) with false. change (exponent_ zero <? iou_minExponent) with true.
    cbn [bind]. unfold integral, roundToScale, integral; cbn [st_iou_zero mAsset mOffset]. rewrite HA.
    destruct (Z.leb_spec t (-100)); [| lia]. cbn [bind]. now apply number_of_st_iou_zero.
  - destruct (Z.ltb_spec iou_maxExponent (exponent_ x)); [lia |].
    destruct (Z.ltb_spec (exponent_ x) iou_minExponent); [lia |].
    destruct Hx as [-> | Hx]; [unfold iou_minExponent, zero, int_lowest in *; cbn [exponent_] in *; lia |].
    cbn [bind]. unfold integral, roundToScale, integral; cbn [st_iou mAsset mOffset]. rewrite HA.
    destruct (Z.leb_spec t (exponent_ x)); [| lia]. cbn [bind].
    fold (st_iou asset (mantissa_ x) (exponent_ x)). rewrite (number_of_st_iou _ _ HCm HA) by now apply normal_iou_range.
    now destruct x.
Qed.

(** Rounding to the scale of a balance on the same grid changes nothing. *)
Lemma roundToAsset_finer cfg asset s n x m y md :
  current cfg -> deep_scale asset s -> on_grid s n x -> on_grid s m y ->
  roundToAsset cfg asset x (exponent_ y) md = Ok x.
Proof.
  intros HC HS Hx Hy. pose proof (on_grid_wf s n x Hx) as Wx. pose proof (deep_scale_asset _ _ HS) as HD.
  destruct (asset_integral asset) eqn:HA.
  { rewrite (roundToAsset_integral cfg asset _ x md HC HA Wx).
    rewrite <- (roundToAsset_integral cfg asset s x md HC HA Wx).
    now apply (roundToAsset_grid_id cfg asset s n). }
  unfold deep_scale in HS. rewrite HA in HS. destruct HS as [S1 S2]. unfold iou_scale, iou_minExponent in *.
  destruct (Z.eq_dec m 0) as [-> | Hm].
  { rewrite (on_grid_zero_inv s y Hy). apply roundToAsset_coarse; auto.
    destruct (Z.eq_dec n 0) as [-> | Hn].
    - left. split; [exact (on_grid_zero_inv s x Hx) | unfold zero, int_lowest; cbn; lia].
    - right. pose proof (on_grid_exponent s n x Hx Hn). unfold iou_minExponent, zero, int_lowest; cbn. lia. }
  pose proof (on_grid_exponent s m y Hy Hm) as Ey.
  assert (iou_scale (exponent_ y)) as Sy by (unfold iou_scale, iou_minExponent; lia).
  destruct (Z.eq_dec n 0) as [-> | Hn].
  { rewrite (on_grid_zero_inv s x Hx). exact (roundToAsset_iou cfg asset _ zero md HC HA Sy (or_introl eq_refl)). }
  pose proof (on_grid_exponent s n x Hx Hn) as Ex.
  destruct (Z.le_gt_cases (exponent_ y) (exponent_ x)).
  { apply roundToAsset_coarse; auto. right. unfold iou_minExponent. lia. }
  apply (roundToAsset_grid_id cfg asset _ (n * 10 ^ (s - exponent_ y))); [exact HC | unfold asset_scale; now rewrite HA |].
  destruct Hx as [[? _] | (Nx & _ & Mx)]; [lia |]. right. split; [exact Nx |]. split; [lia |].
  rewrite Mx, <- Z.mul_assoc, <- Z.pow_add_r by lia. do 2 f_equal. lia.
Qed.

(** A whole number as a whole amount. *)
Lemma st_of_number_whole cfg asset n x :
  current cfg -> asset_integral asset = true -> on_grid 0 n x ->
  st_of_number cfg asset x = Ok (st_whole asset n).
Proof.
  intros HC HA Hx. destruct (Z.eq_dec n 0) as [-> | Hn].
  { rewrite (on_grid_zero_inv 0 x Hx). unfold st_of_number, st_make_signed.
    change (st_set asset (exponent_ zero) (mantissa_ zero)) with (mkSTAmount asset 0 (exponent_ zero) false).
    unfold canonicalize, native. cbn [mAsset mValue]. now rewrite (integral_cases asset HA). }
  pose proof (on_grid_bound 0 n x Hx) as HB. pose proof (on_grid_exponent 0 n x Hx Hn) as He.
  rewrite (st_of_number_integral _ _ HC HA x (on_grid_nonzero 0 n x Hx Hn)).
  destruct (Z.leb_spec (exponent_ x) (-20)); [lia |]. cbn [negb andb].
  destruct (Z.ltb_spec (integral_max_exponent asset) (exponent_ x));
    [unfold integral_max_exponent in *; destruct (asset_native asset); lia |].
  rewrite (round_whole_grid _ n x Hx Hn). cbn [bind].
  destruct (Z.ltb_spec (integral_limit asset) (Z.abs n)); [| reflexivity].
  unfold integral_limit, cMaxNativeN, maxMPTokenAmount, maxMantissa in *. destruct (asset_native asset); lia.
Qed.
