(* ===== verification/AmountsProps.v ===== *)
(** * Properties of amounts

    Rounding to a scale, the canonical form, the order, sums and differences of
    integral amounts, ratios, and where directed rounding is not honoured. *)

From Stdlib Require Import ZArith Lia Bool.
From S2P Require Import Prelude.
From S2P Require Import XrplNumber.
From S2P Require Import XrplNumberFacts.
From S2P Require Import XrplNumberCorrect.
From S2P Require Import XrplNumberAdd.
From S2P Require Import XrplNumberGrid.
From S2P Require Import XrplNumberProps.
From S2P Require Import Amounts.
From S2P Require Import AmountsFacts.
From S2P Require Import AmountsRound.
From S2P Require Import AmountsWhole.

Open Scope Z_scope.

Definition default_settings : Settings := mkSettings to_nearest true true.
Definition usd : Asset := AIssue (mkIssue 5 7).
Definition xrp_asset : Asset := AIssue xrpIssue.

(** [v] units of size [d] are the value [m] rounded by the mode. *)
Definition rounds_to (md : rounding_mode) (m d v : Z) : Prop :=
  match md with
  | to_nearest => 2 * Z.abs (v * d - m) <= d
  | towards_zero => Z.abs (v * d) <= Z.abs m < Z.abs (v * d) + d
  | downward => m - d < v * d <= m
  | upward => m <= v * d < m + d
  end.

(** The value of an amount, in units of [10^-100]. *)
Definition st_value (a : STAmount) : Z :=
  (if mIsNegative a then - mValue a else mValue a) * 10 ^ (mOffset a + 100).

(** The quotient rounded up or down. *)
Definition ratio (n den : Z) (roundUp : bool) : Z := if roundUp then - (- n / den) else n / den.

Ltac case_bool :=
  match goal with
  | |- context [?a <? ?b] => destruct (Z.ltb_spec a b)
  | |- context [?a =? ?b] => destruct (Z.eqb_spec a b)
  end; cbn [xorb eqb negb andb].

(** ** Lemmas *)

Lemma iou_normalize_canonical cfg m e v :
  STNumberSwitchover cfg = true -> Z.abs m < 2 ^ 63 -> iou_normalize cfg m e = Ok v ->
  v = iou_zero \/ iou_range (iou_mantissa v) (iou_exponent v).
Proof.
  intros HC Hm. unfold iou_normalize. destruct (m =? 0); [intros [= <-]; auto |]. rewrite HC.
  intros H. bind_inv H. assert (wf a) as Wa by (refine (normalize_wf _ m e a _ Hb); lia).
  destruct (Z.ltb_spec iou_maxExponent (exponent_ a)); [discriminate |].
  destruct (Z.ltb_spec (exponent_ a) iou_minExponent); injection H as <-; [auto | right].
  destruct Wa as [-> | Na]; [unfold iou_minExponent, zero, int_lowest in *; cbn [exponent_] in *; lia |].
  apply normal_iou_range; [assumption | lia].
Qed.

Lemma rep_scale_up_range n d r :
  0 <= d <= 2 ^ 63 -> rep_scale_up n d = Ok r -> 0 <= r <= 2 ^ 63.
Proof.
  revert d; induction n as [| n IH]; intros d Hd H; cbn [rep_scale_up] in H; [now injection H as <- |].
  change (Z.quot int64_max 10) with 922337203685477580 in H.
  destruct (Z.ltb_spec 922337203685477580 d); [discriminate |].
  apply (IH (d * 10)); [lia | exact H].
Qed.

Lemma to_rep_magnitude md m e v :
  Z.abs m <= 2 ^ 63 -> to_rep md (mkNumber m e) = Ok v -> Z.abs v <= 2 ^ 63 + 1.
Proof.
  intros Hm H. unfold to_rep in H; cbn [mantissa_ exponent_] in H.
  destruct (Z.eqb_spec m 0); [injection H as <-; lia |].
  assert (exists s, (if m <? 0 then (- m, Guard.set_negative Guard.init) else (m, Guard.init)) =
            (Z.abs m, Guard.mk 0 false s)) as [s E].
  { destruct (Z.ltb_spec m 0); eexists; f_equal; try lia; reflexivity. }
  rewrite E in H. pose proof (shift_right_spec (Z.to_nat (- e)) (Z.abs m) 0 (Z.abs m) _
    (shifted_init (Z.abs m) s ltac:(lia))) as HS.
  destruct (Guard.shift_right _ _ _) as [d g]. destruct HS as [[_ Ed _] _].
  apply bind_ok in H as (r & Hr & H). injection H as <-.
  assert (0 <= d <= 2 ^ 63) as Hd.
  { subst d. pose proof (pow10_pos (0 + Z.of_nat (Z.to_nat (- e))) ltac:(lia)).
    split; [apply Z.div_pos; lia | apply Z.div_le_upper_bound; [lia | nia]]. }
  pose proof (rep_scale_up_range _ _ _ Hd Hr). unfold Guard.doRound.
  destruct (Guard.bumps _ _ _), (Guard.is_negative _); lia.
Qed.

Lemma i64_abs z : Z.abs (i64 z) <= 2 ^ 63.
Proof. unfold i64. pose proof (Z.mod_pos_bound (z + 2 ^ 63) (2 ^ 64) eq_refl). lia. Qed.

(** Canonicalization establishes the invariant. *)
Lemma canonicalize_canonical cfg a a' :
  current cfg -> 0 <= mValue a <= 2 ^ 63 -> (integral a = false -> mValue a <= int64_max) ->
  canonicalize cfg a = Ok a' ->
  canonical a' /\ mAsset a' = mAsset a.
Proof.
  intros [C1 C2] HV HI' H. unfold canonical. unfold integral in *. destruct (asset_integral (mAsset a)) eqn:HA.
  - pose proof (integral_cases _ HA) as HI. unfold canonicalize, native in H. rewrite HI, C1, C2 in H.
    destruct ((mValue a =? 0) || (mOffset a <=? -20)).
    { injection H as <-. cbn. rewrite HA. unfold integral_limit, cMaxNativeN, maxMPTokenAmount.
      destruct (asset_native _); splits; auto; lia. }
    destruct (_ && _); [discriminate |]. cbn [andb] in H.
    set (num := mkNumber _ _) in H.
    replace (if asset_native (mAsset a) then xrp_of_number cfg num else mpt_of_number cfg num)
      with (to_rep (round_mode cfg) num) in H by now destruct (asset_native (mAsset a)).
    apply bind_ok in H as ([v neg] & Hv & H). apply bind_ok in Hv as (val & Hval & Hv).
    assert (Z.abs val <= 2 ^ 63 + 1) as HB.
    { refine (to_rep_magnitude _ _ _ _ _ Hval). pose proof (i64_abs (if mIsNegative a
        then u64 (- mValue a) else mValue a)). lia. }
    injection Hv as <- <-. fold (integral_limit (mAsset a)) in H.
    destruct (Z.ltb_spec (integral_limit (mAsset a)) (u64 (if val <? 0 then - val else val))) as [L | L];
      [discriminate |].
    injection H as <-. cbn. rewrite HA.
    splits; auto; [| apply u64_range]. rewrite u64_id by (destruct (Z.ltb_spec val 0); lia).
    destruct (Z.ltb_spec val 0); [lia | reflexivity].
  - rewrite (canonicalize_iou cfg (mAsset a) (conj C1 C2) HA a eq_refl) in H.
    apply bind_ok in H as (v & Hv & H). injection H as <-. cbn. rewrite HA.
    unfold iou, integral in Hv. rewrite HA in Hv.
    assert (Z.abs (signed_value a) < 2 ^ 63) as HB.
    { specialize (HI' eq_refl). unfold signed_value, int64_max in *. rewrite i64_id by lia.
      destruct (mIsNegative a); lia. }
    destruct (iou_normalize_canonical cfg _ _ v C1 HB Hv) as [-> | HR].
    + splits; auto.
    + pose proof (iou_range_nonzero _ _ HR) as H0. unfold iou_signum.
      destruct HR as [HM HE]. unfold maxMantissa, minMantissa in HM.
      assert (forall z, z = Z.abs (iou_mantissa v) ->
        (u64 z = 0 -> false = true) /\ cMinValue <= u64 z <= cMaxValue) as P
        by (intros z ->; unfold cMinValue, cMaxValue; rewrite u64_id by lia; lia).
      destruct (Z.ltb_spec (iou_mantissa v) 0); cbn; [| destruct (Z.eqb_spec (iou_mantissa v) 0); cbn];
        try lia; match goal with |- context [u64 ?z] => specialize (P z ltac:(lia)) as [P1 P2] end;
        (split; [| reflexivity]; split; [intros E; discriminate (P1 E) || reflexivity | right; split; [exact P2 | exact HE]]).
Qed.

(** ** Rounding *)

Lemma round_units_rounds md x s :
  exponent_ x < s -> rounds_to md (mantissa_ x) (10 ^ (s - exponent_ x)) (round_units md x s).
Proof.
  intros Hs. pose proof (pow10_pos (s - exponent_ x) ltac:(lia)) as Hd. unfold round_units.
  set (d := 10 ^ (s - exponent_ x)) in *. unfold abs_mantissa, neg_number.
  pose proof (round_quot_nearest (mantissa_ x <? 0) (Z.abs (mantissa_ x)) d Hd) as R1.
  pose proof (round_quot_downward (mantissa_ x <? 0) (Z.abs (mantissa_ x)) d Hd) as R2.
  pose proof (round_quot_upward (mantissa_ x <? 0) (Z.abs (mantissa_ x)) d Hd) as R3.
  destruct md; cbn [rounds_to].
  - destruct (Z.ltb_spec (mantissa_ x) 0); cbn [sgn] in *; lia.
  - pose proof (Z.div_mod (Z.abs (mantissa_ x)) d ltac:(lia)).
    pose proof (Z.mod_pos_bound (Z.abs (mantissa_ x)) d Hd).
    pose proof (Z.div_pos (Z.abs (mantissa_ x)) d ltac:(lia) Hd). unfold round_quot.
    destruct (Z.ltb_spec (mantissa_ x) 0); cbn [sgn]; rewrite !Z.abs_mul, (Z.abs_eq d) by lia;
      rewrite ?Z.mul_1_l, ?Z.abs_opp, (Z.abs_eq (_ / d)) by lia; cbn [Z.abs]; nia.
  - destruct (Z.ltb_spec (mantissa_ x) 0); cbn [sgn] in *; lia.
  - destruct (Z.ltb_spec (mantissa_ x) 0); cbn [sgn] in *; lia.
Qed.

(** C28.  Rounding a number to the scale of an IOU: a value above the largest
    exponent is an error, one below the smallest is zero, a value no finer than
    the scale is unchanged, and any other becomes the multiple of [10^scale]
    that the rounding mode selects. *)
Theorem roundToAsset_iou_correct cfg asset s x md :
  current cfg -> asset_integral asset = false -> iou_scale s -> wf x ->
  if iou_maxExponent <? exponent_ x
  then roundToAsset cfg asset x s md = Throw overflow_error
  else if exponent_ x <? iou_minExponent then roundToAsset cfg asset x s md = Ok zero
  else if s <=? exponent_ x then roundToAsset cfg asset x s md = Ok x
  else exists z v, roundToAsset cfg asset x s md = Ok z /\ on_grid s v z /\
         rounds_to md (mantissa_ x) (10 ^ (s - exponent_ x)) v.
Proof.
  intros HC HA HS Hx. pose proof (roundToAsset_iou cfg asset s x md HC HA HS Hx) as H.
  destruct (_ <? _); [exact H |]. destruct (_ <? _); [exact H |].
  destruct (Z.leb_spec s (exponent_ x)); [exact H |]. destruct H as (z & E & G).
  exists z, (round_units md x s). splits; auto using round_units_rounds.
Qed.

Lemma roundToAsset_iou_correct_witness :
  exists z v, roundToAsset default_settings usd (mkNumber 1234567890123456 (-15)) (-2) upward = Ok z /\
    on_grid (-2) v z /\ rounds_to upward 1234567890123456 (10 ^ 13) v.
Proof.
  apply (roundToAsset_iou_correct default_settings usd (-2) (mkNumber 1234567890123456 (-15)) upward);
    [split; reflexivity | reflexivity | unfold iou_scale; eval_cmp | right; eval_cmp].
Defined.

(** A whole number with the digits of a normal number is that number. *)
Lemma of_rep_exact md x :
  normal x -> 0 <= exponent_ x -> Z.abs (mantissa_ x * 10 ^ exponent_ x) < 2 ^ 63 ->
  of_rep md (mantissa_ x * 10 ^ exponent_ x) = Ok x.
Proof.
  intros [HM HE] He HB. destruct x as [m e]. unfold abs_mantissa in HM. cbn [mantissa_ exponent_] in *.
  pose proof (pow10_pos e He) as HP. unfold of_rep, make.
  assert (Z.abs (m * 10 ^ e) = Z.abs m * 10 ^ e) as EA by (rewrite Z.abs_mul; lia).
  rewrite (normalize_large md _ 0 e) by (rewrite ?EA; nia).
  destruct (Z.ltb_spec (0 + e) minExponent); [lia |]. unfold pack, pack_with.
  rewrite EA, round_quot_exact by assumption.
  destruct (Z.ltb_spec maxMantissa (Z.abs m)); [lia |].
  destruct (Z.ltb_spec (0 + e) minExponent); [lia |].
  destruct (Z.ltb_spec maxExponent (0 + e)); [lia |]. rewrite Z.add_0_l. do 2 f_equal.
  destruct (Z.ltb_spec (m * 10 ^ e) 0); nia.
Qed.

(** Rounding a number to a whole amount of XRP or of an MPT: a fraction
    is rounded to a whole number by the mode, a whole value in range is
    unchanged, and one out of range is an error.  Exponents of -20 and less give
    zero in every mode. *)
Theorem roundToAsset_integral_correct cfg asset s x md :
  current cfg -> asset_integral asset = true -> normal x ->
  if exponent_ x <=? -20 then roundToAsset cfg asset x s md = Ok zero
  else if exponent_ x <? 0 then
    exists z v, roundToAsset cfg asset x s md = Ok z /\ on_grid 0 v z /\
      rounds_to md (mantissa_ x) (10 ^ (0 - exponent_ x)) v
  else if integral_limit asset <? abs_mantissa x * 10 ^ exponent_ x
  then exists ex, roundToAsset cfg asset x s md = Throw ex
  else roundToAsset cfg asset x s md = Ok x.
Proof.
  intros HC HA Hx. rewrite (roundToAsset_integral cfg asset s x md HC HA (or_intror Hx)).
  pose proof (normal_abs_range x Hx) as R. pose proof (limit_int64 asset) as HL.
  assert (minMantissa <= integral_limit asset)
    by (unfold integral_limit; destruct (asset_native asset); eval_cmp).
  destruct (Z.leb_spec (exponent_ x) (-20)) as [L | L].
  { unfold round_whole. destruct (Z.leb_spec (exponent_ x) (-20)); [| lia]. rewrite orb_true_r.
    cbn. destruct (Z.ltb_spec (integral_limit asset) 0); [unfold minMantissa in *; lia | reflexivity]. }
  cbn [negb andb]. destruct (Z.ltb_spec (exponent_ x) 0) as [F | F].
  - destruct (round_whole_units md x Hx (conj L F)) as [-> HB]. cbn [bind].
    destruct (Z.ltb_spec (integral_max_exponent asset) (exponent_ x));
      [unfold integral_max_exponent in *; destruct (asset_native asset); lia |].
    destruct (Z.ltb_spec (integral_limit asset) (Z.abs (round_units md x 0))); [lia |].
    destruct (make_grid md (round_units md x 0) 0) as (z & Ez & Gz);
      [unfold minMantissa, maxMantissa in *; lia | unfold grid_scale; eval_cmp |].
    exists z, (round_units md x 0). splits; auto using round_units_rounds.
  - pose proof (pow10_pos (exponent_ x) F) as HP. assert (mantissa_ x <> 0) as H0.
    { intros E. unfold abs_mantissa, minMantissa in R. rewrite E in R. cbn in R. lia. }
    assert (Z.abs (mantissa_ x * 10 ^ exponent_ x) = abs_mantissa x * 10 ^ exponent_ x) as EA
      by (unfold abs_mantissa; rewrite Z.abs_mul; lia).
    unfold round_whole. destruct (Z.eqb_spec (mantissa_ x) 0); [contradiction |].
    destruct (Z.leb_spec (exponent_ x) (-20)); [lia |]. cbn [orb]. rewrite (to_rep_spec md x Hx).
    destruct (Z.ltb_spec (exponent_ x) 0); [lia |].
    destruct (Z.ltb_spec (integral_limit asset) (abs_mantissa x * 10 ^ exponent_ x)).
    + destruct (_ <? exponent_ x); [eauto |]. destruct (_ <=? _); cbn [bind]; [| eauto].
      rewrite EA. destruct (Z.ltb_spec (integral_limit asset) (abs_mantissa x * 10 ^ exponent_ x)); [eauto | lia].
    + destruct (Z.ltb_spec (integral_max_exponent asset) (exponent_ x)) as [X | X].
      { pose proof (Z.pow_le_mono_r 10 18 (exponent_ x) ltac:(lia)) as P18.
        unfold integral_max_exponent, integral_limit, cMaxNativeN, maxMPTokenAmount, minMantissa in *.
        change (10 ^ 18) with 1000000000000000000 in P18. destruct (asset_native asset); nia. }
      assert (abs_mantissa x * 10 ^ exponent_ x <= 9223372036854775800) as HB.
      { destruct (Z.eq_dec (exponent_ x) 0) as [E | N0].
        - rewrite E. unfold maxMantissa in R. lia.
        - replace (exponent_ x) with (Z.succ (exponent_ x - 1)) in * by lia.
          rewrite Z.pow_succ_r in * by lia. unfold int64_max in HL. lia. }
      destruct (Z.leb_spec (abs_mantissa x * 10 ^ exponent_ x) 9223372036854775800); [| lia].
      cbn [bind]. rewrite EA.
      destruct (Z.ltb_spec (integral_limit asset) (abs_mantissa x * 10 ^ exponent_ x)); [lia |].
      apply of_rep_exact; [assumption .. | rewrite EA; lia].
Qed.

Lemma roundToAsset_integral_correct_witness :
  exists z v, roundToAsset default_settings xrp_asset (mkNumber 1234567890123456 (-13)) 0 downward = Ok z /\
    on_grid 0 v z /\ rounds_to downward 1234567890123456 (10 ^ 13) v.
Proof.
  apply (roundToAsset_integral_correct default_settings xrp_asset 0 (mkNumber 1234567890123456 (-13)) downward);
    [split; reflexivity | reflexivity | eval_cmp].
Defined.

(** Rounding is stable: a rounded value is left unchanged by rounding it
    again at the same scale, in any mode.  Whole amounts of 17 digits and more
    are excluded: the conversion to a number may have rounded them. *)
Theorem roundToAsset_stable cfg asset s x md z md' :
  current cfg -> asset_scale asset s -> wf x -> roundToAsset cfg asset x s md = Ok z ->
  (asset_integral asset = true -> exponent_ z <= s) ->
  roundToAsset cfg asset z s md' = Ok z.
Proof.
  intros HC HS Hx H HE. destruct (roundToAsset_multiple _ _ _ _ _ _ HC HS Hx H) as [[n G] | [Nz L]].
  { exact (roundToAsset_grid_id cfg asset s n z md' HC HS G). }
  unfold asset_scale in HS. destruct (asset_integral asset) eqn:HA; [specialize (HE eq_refl); lia |].
  pose proof (roundToAsset_iou cfg asset s x md HC HA HS Hx) as HR.
  assert (exponent_ z <= iou_maxExponent) as HM.
  { destruct (Z.ltb_spec iou_maxExponent (exponent_ x)); [congruence |].
    destruct (_ <? _); [rewrite HR in H; injection H as <-; eval_cmp |].
    destruct (_ <=? _); [rewrite HR in H; now injection H as <- |].
    destruct HR as (w & HR & G). rewrite HR in H. injection H as ->.
    destruct (Z.eq_dec (round_units md x s) 0) as [E | N0].
    - rewrite E in G. rewrite (on_grid_zero_inv s z G). eval_cmp.
    - pose proof (on_grid_exponent s _ z G N0). lia. }
  pose proof (roundToAsset_iou cfg asset s z md' HC HA HS (or_intror Nz)) as HZ.
  destruct (Z.ltb_spec iou_maxExponent (exponent_ z)); [lia |].
  destruct (Z.ltb_spec (exponent_ z) iou_minExponent); [unfold iou_scale, iou_minExponent in *; lia |].
  destruct (Z.leb_spec s (exponent_ z)); [exact HZ | lia].
Qed.

Lemma roundToAsset_stable_witness :
  roundToAsset default_settings usd (mkNumber 1230000000000000 (-15)) (-2) upward =
    Ok (mkNumber 1230000000000000 (-15)).
Proof.
  apply (roundToAsset_stable default_settings usd (-2) (mkNumber 1234567890123456 (-15)) downward);
    [split; reflexivity | change (iou_scale (-2)); unfold iou_scale; eval_cmp | right; eval_cmp
    | vm_compute; reflexivity | discriminate].
Defined.

(** A positive value below [10^-4] of a whole unit is rounded upward to
    zero, not to one: the exponent test in [canonicalize] comes before the
    rounding mode. *)
Theorem roundToAsset_upward_drops_tiny :
  number_ltb zero (mkNumber 9999999999999999 (-20)) = true /\
  roundToAsset default_settings xrp_asset (mkNumber 9999999999999999 (-20)) 0 upward = Ok zero /\
  roundToAsset default_settings xrp_asset (mkNumber 1000000000000000 (-19)) 0 upward = Ok one.
Proof. splits; vm_compute; reflexivity. Qed.

(** ** The canonical form *)

Lemma canonical_iou_form a :
  canonical a -> integral a = false ->
  a = st_iou_zero (mAsset a) \/ exists m e, a = st_iou (mAsset a) m e /\ iou_range m e.
Proof.
  intros [HZ HI] HA. rewrite HA in HI. destruct a as [t v o n]; cbn [mAsset mValue mOffset mIsNegative] in *.
  destruct HI as [[-> ->] | [HV HO]]; [left; unfold st_iou_zero; now rewrite (HZ eq_refl) | right].
  unfold cMinValue, cMaxValue in HV. exists (if n then - v else v), o. split.
  - unfold st_iou. f_equal; destruct n; try lia; symmetry; (apply Z.ltb_lt || apply Z.ltb_ge); lia.
  - unfold iou_range, minMantissa, maxMantissa. split; [destruct n; lia | exact HO].
Qed.

Lemma st_clamp_canonical asset x a :
  asset_integral asset = false -> wf x -> st_clamp asset x = Ok a -> canonical a.
Proof.
  intros HA Hx. unfold st_clamp. destruct (Z.ltb_spec iou_maxExponent (exponent_ x)); [discriminate |].
  destruct (Z.ltb_spec (exponent_ x) iou_minExponent); intros [= <-]; unfold canonical, integral; cbn; rewrite HA.
  { auto. }
  destruct Hx as [-> | [HM HE]]; [unfold iou_minExponent, zero, int_lowest in *; cbn [exponent_] in *; lia |].
  unfold abs_mantissa, minMantissa, maxMantissa in HM. unfold cMinValue, cMaxValue. split; [lia |].
  right. split; [exact HM |]. unfold cMinOffset, cMaxOffset, iou_minExponent, iou_maxExponent in *. lia.
Qed.

Lemma canonical_bound a : canonical a -> 0 <= mValue a <= int64_max.
Proof.
  intros [_ H]. pose proof (limit_int64 (mAsset a)). unfold cMinValue, cMaxValue, int64_max in *.
  destruct (integral a); lia.
Qed.

Lemma st_neg_canonical a : canonical a -> canonical (st_neg a).
Proof.
  unfold st_neg. destruct (Z.eqb_spec (mValue a) 0); [trivial |].
  unfold canonical, integral; cbn [mAsset mValue mOffset mIsNegative]. intuition.
Qed.

Lemma st_make_canonical cfg asset m e neg a :
  current cfg -> 0 <= m <= int64_max -> st_make cfg asset m e neg = Ok a ->
  canonical a /\ mAsset a = asset.
Proof.
  intros HC Hm H. refine (canonicalize_canonical cfg (mkSTAmount asset m e neg) a HC _ _ H);
    cbn [mValue]; unfold int64_max in *; lia.
Qed.

Lemma st_add_canonical cfg a b c :
  current cfg -> canonical a -> canonical b -> mAsset a = mAsset b -> native a = false ->
  st_add cfg a b = Ok c -> canonical c.
Proof.
  intros HC Ha Hb HA HN H. pose proof (canonical_bound b Hb) as Bb.
  destruct (integral a) eqn:HI.
  - unfold st_add in H. rewrite comparable_same, HN in H by assumption. cbn [negb] in H.
    destruct (st_is_zero b); [now injection H as <- |].
    destruct (st_is_zero a); [eapply (st_make_canonical cfg); eassumption |].
    assert (holds_mpt (mAsset a) = true) as HM
      by (unfold integral, native in *; now destruct (mAsset a); cbn in *; [congruence |]).
    unfold mpt in H. rewrite <- HA, HM in H. cbn [bind] in H. unfold st_make_signed in H.
    pose proof (i64_abs (signed_value a + signed_value b)) as R.
    set (v := i64 _) in *. refine (proj1 (canonicalize_canonical cfg _ c HC _ _ H)); unfold st_set, integral.
    + destruct (Z.ltb_spec v 0); cbn [mValue]; rewrite u64_id; lia.
    + unfold integral in HI. now destruct (v <? 0); cbn [mAsset]; rewrite HI.
  - assert (integral b = false) as HJ by (unfold integral in *; now rewrite <- HA).
    destruct (canonical_iou_form a Ha HI) as [Ea | (m1 & e1 & Ea & R1)],
             (canonical_iou_form b Hb HJ) as [Eb | (m2 & e2 & Eb & R2)].
    all: rewrite <- ?HA in Eb; unfold integral in HI.
    4: { rewrite Ea, Eb, (st_add_iou cfg (mAsset a) HC HI _ _ _ _ R1 R2) in H. bind_inv H.
         refine (st_clamp_canonical _ _ _ HI _ H).
         exact (number_add_wf _ _ _ _ (or_intror (iou_range_normal _ _ R1))
                  (or_intror (iou_range_normal _ _ R2)) Hb0). }
    all: unfold st_add in H; rewrite comparable_same in H by assumption; cbn [negb] in H.
    1, 3: rewrite Eb in H; cbn [st_is_zero st_signum st_iou_zero mValue Z.eqb] in H; now injection H as <-.
    assert (st_is_zero b = false) as Zb by (rewrite Eb; now apply st_iou_nonzero).
    assert (st_is_zero a = true) as Za by (rewrite Ea; reflexivity).
    rewrite Zb, Za in H. exact (proj1 (st_make_canonical _ _ _ _ _ _ HC Bb H)).
Qed.

(** Every constructor yields a canonical amount: whole and within the
    asset's limit for XRP and MPT, a 16-digit mantissa with an exponent from -96
    to 80 or the one zero for an IOU, and never a negative zero.  Negation keeps
    the form, and so does the sum of IOU and MPT amounts. *)
Theorem amounts_canonical cfg :
  current cfg ->
  (forall asset m e neg a, 0 <= m <= int64_max -> st_make cfg asset m e neg = Ok a -> canonical a) /\
  (forall asset x a, wf x -> st_of_number cfg asset x = Ok a -> canonical a) /\
  (forall a, canonical a -> canonical (st_neg a)) /\
  (forall a b c, canonical a -> canonical b -> mAsset a = mAsset b -> native a = false ->
     st_add cfg a b = Ok c -> canonical c).
Proof.
  intros HC. splits.
  - intros asset m e neg a Hm H. exact (proj1 (st_make_canonical _ _ _ _ _ _ HC Hm H)).
  - intros asset x a Hx H. unfold st_of_number in H.
    assert (Z.abs (mantissa_ x) <= maxMantissa) as HM
      by (destruct Hx as [-> | Hx]; [eval_cmp | exact (proj2 (normal_abs_range x Hx))]).
    unfold maxMantissa in HM. rewrite st_make_signed_eq in H by lia.
    refine (proj1 (canonicalize_canonical _ _ _ HC _ _ H)); cbn [st_iou mValue]; unfold int64_max; lia.
  - exact st_neg_canonical.
  - intros a b c. exact (st_add_canonical cfg a b c HC).
Qed.

Lemma amounts_canonical_witness : canonical (mkSTAmount usd 1230000000000000 (-13) true).
Proof.
  apply (proj1 (amounts_canonical default_settings (conj eq_refl eq_refl)) usd 123 0 true);
    [eval_cmp | vm_compute; reflexivity].
Defined.

(** ** The order *)

Lemma comparable_integral a b : areComparable a b = true -> integral a = integral b.
Proof.
  unfold areComparable, integral, native. destruct (mAsset a), (mAsset b); try discriminate; [| reflexivity].
  intros H. apply andb_prop in H as [H _]. now apply eqb_prop.
Qed.

(** The magnitudes of canonical non-zero amounts of the same kind: the exponent
    decides, then the mantissa. *)
Lemma magnitude_compare v1 o1 v2 o2 :
  cMinValue <= v1 <= cMaxValue -> cMinValue <= v2 <= cMaxValue -> -100 <= o1 < o2 ->
  v1 * 10 ^ (o1 + 100) < v2 * 10 ^ (o2 + 100).
Proof.
  intros H1 H2 Ho. pose proof (pow10_pos (o1 + 100) ltac:(lia)) as HP.
  pose proof (Z.pow_le_mono_r 10 (Z.succ (o1 + 100)) (o2 + 100) ltac:(lia) ltac:(lia)) as HM.
  rewrite Z.pow_succ_r in HM by lia. unfold cMinValue, cMaxValue in *. nia.
Qed.

Lemma magnitude_order a b :
  canonical a -> canonical b -> integral a = integral b -> mValue a <> 0 -> mValue b <> 0 ->
  (mValue a * 10 ^ (mOffset a + 100) ?= mValue b * 10 ^ (mOffset b + 100)) =
    match mOffset a ?= mOffset b with Eq => mValue a ?= mValue b | c => c end.
Proof.
  intros [_ Ha] [_ Hb] E Na Nb. rewrite <- E in Hb. destruct (integral a).
  - destruct Ha as [-> _], Hb as [-> _]. rewrite Z.compare_refl. symmetry; apply Zmult_compare_compat_r. reflexivity.
  - destruct Ha as [[? _] | [Va Oa]], Hb as [[? _] | [Vb Ob]]; try contradiction.
    unfold cMinOffset, cMaxOffset in *.
    destruct (Z.compare_spec (mOffset a) (mOffset b)) as [EO | L | L].
    + rewrite EO. symmetry; apply Zmult_compare_compat_r. apply Z.lt_gt, pow10_pos. lia.
    + apply Z.compare_lt_iff, magnitude_compare; auto; lia.
    + apply Z.compare_gt_iff, magnitude_compare; auto; lia.
Qed.

Lemma st_value_zero a : canonical a -> (st_value a =? 0) = (mValue a =? 0).
Proof.
  intros H. pose proof (canonical_bound a H). assert (-100 <= mOffset a) as Ho.
  { destruct H as [_ H]. unfold cMinOffset in *. destruct (integral a); lia. }
  pose proof (pow10_pos (mOffset a + 100) ltac:(lia)). unfold st_value.
  destruct (Z.eqb_spec (mValue a) 0) as [-> |]; [now destruct (mIsNegative a) |].
  apply Z.eqb_neq. destruct (mIsNegative a); nia.
Qed.

(** On canonical amounts of the same currency the comparisons decide the
    order of the exact values, and amounts of different currencies are not
    ordered. *)
Theorem amounts_order a b :
  canonical a -> canonical b ->
  st_ltb a b = (if areComparable a b then Ok (st_value a <? st_value b) else Throw runtime_error) /\
  st_eqb a b = areComparable a b && (st_value a =? st_value b).
Proof.
  intros Ha Hb. unfold st_ltb, st_eqb. destruct (areComparable a b) eqn:HC; cbn [negb andb]; [| auto].
  pose proof (comparable_integral a b HC) as HI. pose proof (magnitude_order a b Ha Hb HI) as HM.
  pose proof (canonical_bound a Ha) as Ba. pose proof (canonical_bound b Hb) as Bb.
  pose proof (st_value_zero a Ha) as Za. pose proof (st_value_zero b Hb) as Zb.
  assert (-100 <= mOffset a /\ -100 <= mOffset b) as [Oa Ob].
  { destruct Ha as [_ Ha], Hb as [_ Hb]. unfold cMinOffset in *. destruct (integral a), (integral b); lia. }
  assert (mValue a = 0 -> mValue b = 0 -> mOffset a = mOffset b) as OO.
  { destruct Ha as [_ Ha], Hb as [_ Hb]. rewrite <- HI in Hb. unfold cMinValue in *. destruct (integral a); lia. }
  pose proof (pow10_pos (mOffset a + 100) ltac:(lia)) as Pa.
  pose proof (pow10_pos (mOffset b + 100) ltac:(lia)) as Pb.
  destruct Ha as [Na _], Hb as [Nb _]. unfold st_value in *. clear Za Zb.
  set (x := mValue a * 10 ^ (mOffset a + 100)) in *. set (y := mValue b * 10 ^ (mOffset b + 100)) in *.
  assert (mValue a = 0 /\ x = 0 \/ 0 < mValue a /\ 0 < x) as Zx by (destruct (Z.eq_dec (mValue a) 0); nia).
  assert (mValue b = 0 /\ y = 0 \/ 0 < mValue b /\ 0 < y) as Zy by (destruct (Z.eq_dec (mValue b) 0); nia).
  assert (forall c : bool, (if c then - mValue a else mValue a) * 10 ^ (mOffset a + 100) = if c then - x else x) as ->
    by (destruct c; unfold x; lia).
  assert (forall c : bool, (if c then - mValue b else mValue b) * 10 ^ (mOffset b + 100) = if c then - y else y) as ->
    by (destruct c; unfold y; lia).
  clearbody x y. clear Pa Pb HC.
  destruct (Z.eqb_spec (mValue a) 0), (Z.eqb_spec (mValue b) 0); 
    [clear HM | clear HM | clear HM | specialize (HM ltac:(assumption) ltac:(assumption))];
    destruct (Z.compare_spec (mOffset a) (mOffset b)); destruct (Z.compare_spec (mValue a) (mValue b));
    try first [apply (proj1 (Z.compare_lt_iff _ _)) in HM | apply (proj1 (Z.compare_gt_iff _ _)) in HM
              | apply (proj1 (Z.compare_eq_iff _ _)) in HM];
    destruct (mIsNegative a), (mIsNegative b); try (discriminate (Na ltac:(lia))); try (discriminate (Nb ltac:(lia)));
    cbn [xorb eqb negb andb]; split; repeat case_bool; try reflexivity; exfalso; lia.
Qed.

Lemma amounts_order_witness :
  st_ltb (mkSTAmount usd 9999999999999999 (-15) false) (mkSTAmount usd 1000000000000000 (-14) false) = Ok true.
Proof.
  apply (proj1 (amounts_order (mkSTAmount usd 9999999999999999 (-15) false)
                  (mkSTAmount usd 1000000000000000 (-14) false) ltac:(split; [discriminate | right; eval_cmp])
                  ltac:(split; [discriminate | right; eval_cmp]))).
Defined.

(** ** Whole amounts *)

(** Sums and differences of whole amounts are exact.  [canAdd] holds
    exactly when the sum is a 64-bit integer; [canSubtract] holds exactly when
    subtracting a positive amount leaves no negative result and subtracting any
    other does not exceed the 64-bit range. *)
Theorem whole_sums_exact cfg a b :
  current cfg -> canonical a -> canonical b -> integral a = true -> areComparable a b = true ->
  let u := signed_value a in
  let v := signed_value b in
  canAdd cfg a b = Ok ((- 2 ^ 63 <=? u + v) && (u + v <=? int64_max)) /\
  canSubtract a b = Ok (if 0 <? v then v <=? u else u - v <=? int64_max) /\
  (Z.abs (u + v) <= int64_max -> exists c, st_add cfg a b = Ok c /\ signed_value c = u + v) /\
  (Z.abs (u - v) <= int64_max -> exists c, st_sub cfg a b = Ok c /\ signed_value c = u - v).
Proof.
  intros HC Ha Hb HI HE u v. pose proof (comparable_integral a b HE) as HJ. rewrite HI in HJ. symmetry in HJ.
  destruct (whole_form a Ha HI) as [Ea Lu], (whole_form b Hb HJ) as [Eb Lv]. fold u in Ea, Lu. fold v in Eb, Lv.
  unfold integral in HI. set (A := mAsset a) in *. set (B := mAsset b) in *. clearbody u v A B. subst a b.
  destruct (whole_int64 A B u v Lu Lv HE) as (Iu & Iv & _). destruct (whole_same_kind A B u v HE) as [EN EM].
  pose proof (integral_cases A HI) as HM. splits.
  - unfold canAdd, xrp, mpt, native. rewrite HE, !whole_is_zero, !signed_value_whole by assumption.
    cbn [negb st_whole mAsset]. rewrite <- EN, <- EM. unfold sum_in_range, int64_max.
    destruct A; cbn [asset_native holds_mpt holds_issue orb] in *; [rewrite orb_false_r in HM; rewrite HM | rewrite HM];
      cbn [andb bind]; destruct (Z.eqb_spec u 0), (Z.eqb_spec v 0); cbn [orb]; f_equal; lia.
  - unfold canSubtract, xrp, mpt, native. rewrite HE, !whole_is_zero, !signed_value_whole by assumption.
    cbn [negb st_whole mAsset]. rewrite <- EN, <- EM. unfold difference_allowed, int64_max.
    destruct A; cbn [asset_native holds_mpt holds_issue orb] in *; [rewrite orb_false_r in HM; rewrite HM | rewrite HM];
      cbn [andb bind]; destruct (Z.eqb_spec v 0), (Z.ltb_spec 0 v); f_equal; lia.
  - now apply st_add_whole.
  - unfold st_sub. rewrite st_neg_whole. intros HS. apply st_add_whole; rewrite ?Z.abs_opp; assumption.
Qed.

Lemma whole_sums_exact_witness :
  canSubtract (mkSTAmount xrp_asset 5 0 false) (mkSTAmount xrp_asset 6 0 false) = Ok false.
Proof.
  apply (proj1 (proj2 (whole_sums_exact default_settings (mkSTAmount xrp_asset 5 0 false)
    (mkSTAmount xrp_asset 6 0 false) (conj eq_refl eq_refl) ltac:(split; [discriminate | split; eval_cmp])
    ltac:(split; [discriminate | split; eval_cmp]) eq_refl eq_refl))).
Defined.

(** ** Ratios and products *)

(** [mulRatio] on XRP and MPT amounts is the exact product and quotient,
    rounded to the ceiling or to the floor whatever the sign; a zero
    denominator and a result above the 64-bit range are errors.  [convert_to]
    stands for the Boost conversion, which keeps 64-bit values. *)
Theorem mulRatio_correct convert_to amt num den roundUp :
  (forall v, - 2 ^ 63 <= v <= int64_max -> convert_to v = v) -> 0 <= num -> 0 <= den ->
  mulRatio convert_to amt num den roundUp =
    if den =? 0 then Throw runtime_error
    else
      let q := ratio (amt * num) den roundUp in
      if int64_max <? q then Throw overflow_error
      else if q <? - 2 ^ 63 then Ok (convert_to q) else Ok q.
Proof.
  intros HC Hn Hd. unfold mulRatio. destruct (Z.eqb_spec den 0); [reflexivity |]. cbv zeta.
  set (r := if negb _ then _ else _). assert (r = ratio (amt * num) den roundUp) as ->.
  { unfold r, ratio. pose proof (Z.quot_rem (amt * num) den ltac:(lia)) as HQ.
    assert (if amt <? 0 then - den < Z.rem (amt * num) den <= 0 else 0 <= Z.rem (amt * num) den < den) as HR.
    { destruct (Z.ltb_spec amt 0).
      - assert (amt * num <= 0) as HL by nia. 
        pose proof (Z.rem_nonpos (amt * num) den ltac:(lia) HL).
        pose proof (Z.rem_bound_abs (amt * num) den ltac:(lia)). lia.
      - apply Z.rem_bound_pos; nia. }
    set (q := Z.quot _ _) in *. set (m := Z.rem _ _) in *. clearbody q m. clear r. revert HQ.
    generalize (amt * num) as n0. intros n0 ->.
    assert (forall k, 0 <= m - k * den < den -> (den * q + m) / den = q + k) as DF.
    { intros k Hk. symmetry. apply (Z.div_unique _ den _ (m - k * den)); [left; lia | ring]. }
    assert (forall k, 0 <= k * den - m < den -> - (den * q + m) / den = - (q + k)) as DC.
    { intros k Hk. symmetry. apply (Z.div_unique _ den _ (k * den - m)); [left; lia | ring]. }
    destruct (Z.eqb_spec m 0), (Z.ltb_spec amt 0), roundUp; cbn [negb andb].
    all: first [rewrite (DF 0) by lia | rewrite (DC 0) by lia | rewrite (DF (-1)) by lia
               | rewrite (DC 1) by lia]; lia. }
  destruct (Z.ltb_spec int64_max (ratio (amt * num) den roundUp)); [reflexivity |].
  destruct (Z.ltb_spec (ratio (amt * num) den roundUp) (- 2 ^ 63)); [reflexivity |].
  rewrite HC by lia. reflexivity.
Qed.

Lemma mulRatio_correct_witness : mulRatio (fun v => v) (-7) 1 2 false = Ok (-4).
Proof. apply (mulRatio_correct (fun v => v) (-7) 1 2 false); [auto | eval_cmp | eval_cmp]. Defined.

(** [mulRoundStrict] rounding up can return less than the exact product:
    on the IOU path [canonicalizeRoundStrict] drops a digit without recording
    it. *)
Theorem mulRoundStrict_up_below_product :
  exists v1 v2 r, canonical v1 /\ canonical v2 /\
    mulRoundStrict default_settings v1 v2 usd true = Ok r /\ mIsNegative r = false /\
    mValue r * 10 ^ (mOffset r - mOffset v1 - mOffset v2) < mValue v1 * mValue v2.
Proof.
  exists (mkSTAmount usd 1250000000000001 (-15) false), (mkSTAmount usd 7999999999999994 (-15) false),
    (mkSTAmount usd 1000000000000000 (-14) false).
  splits; [split; [discriminate | right; eval_cmp] .. | | |]; eval_cmp.
Qed.

(** [mulRatio] on an IOU amount rounding up can return less than the exact
    ratio when the division is exact and the quotient has more than 16
    digits. *)
Theorem iou_mulRatio_up_below_ratio :
  exists amt r, iou_range (iou_mantissa amt) (iou_exponent amt) /\
    iou_mulRatio default_settings amt 101 1 true = Ok r /\
    iou_mantissa r * 10 ^ (iou_exponent r - iou_exponent amt) < iou_mantissa amt * 101.
Proof.
  exists (mkIOU 1000000000000001 0), (mkIOU 1010000000000001 2). unfold iou_range. eval_cmp.
Qed.
