(* ===== verification/Lending.v ===== *)
(** * Loan arithmetic: [LendingHelpers]

    Model of [src/xrpld/app/misc/LendingHelpers.h] and
    [src/xrpld/app/misc/detail/LendingHelpers.cpp]: the amortization formulas,
    the split of a payment into principal, interest and fee, the three kinds of
    payment (regular and late, full, overpayment) and the functions that apply
    them to a [Loan] ledger object.  The assertions of the source, which are
    compiled out of release builds, are not part of the definitions; the
    theorems establish what they say. *)

From Stdlib Require Import ZArith Lia Bool List.
From S2P Require Import Prelude.
From S2P Require Import Ter.
From S2P Require Import XrplNumber.
From S2P Require Import Amounts.

Open Scope Z_scope.

(** ** Data *)

Record LoanPaymentParts : Set := mkParts {
  principalPaid : Number;
  interestPaid : Number;
  valueChange : Number;
  feePaid : Number
}.

Record LoanProperties : Set := mkProperties {
  lp_periodicPayment : Number;
  lp_totalValueOutstanding : Number;
  lp_managementFeeOwedToBroker : Number;
  lp_loanScale : Z;
  lp_firstPaymentPrincipal : Number
}.

Record LoanState : Set := mkLoanState {
  ls_valueOutstanding : Number;
  ls_principalOutstanding : Number;
  ls_interestOutstanding : Number;
  ls_interestDue : Number;
  ls_managementFeeDue : Number
}.

Inductive PaymentSpecialCase : Set := none | final | extra.

Definition special_eqb (a b : PaymentSpecialCase) : bool :=
  match a, b with
  | none, none | final, final | extra, extra => true
  | _, _ => false
  end.

Record PaymentComponents : Set := mkComponents {
  rawInterest : Number;
  rawPrincipal : Number;
  rawManagementFee : Number;
  trackedValueDelta : Number;
  trackedPrincipalDelta : Number;
  trackedManagementFeeDelta : Number;
  specialCase : PaymentSpecialCase
}.

Record PaymentComponentsPlus : Set := mkPlus {
  components : PaymentComponents;
  untrackedManagementFee : Number;
  untrackedInterest : Number;
  totalDue : Number
}.

(** The fields of a [Loan] ledger object that the payment functions read or
    write. *)
Record Loan : Set := mkLoan {
  lsfLoanOverpayment : bool;
  sfInterestRate : Z;
  sfLateInterestRate : Z;
  sfCloseInterestRate : Z;
  sfOverpaymentInterestRate : Z;
  sfOverpaymentFee : Z;
  sfLoanServiceFee : Number;
  sfLatePaymentFee : Number;
  sfClosePaymentFee : Number;
  sfStartDate : Z;
  sfPaymentInterval : Z;
  sfLoanScale : Z;
  sfPreviousPaymentDate : Z;
  sfNextPaymentDueDate : option Z;
  sfPaymentRemaining : Z;
  sfTotalValueOutstanding : Number;
  sfPrincipalOutstanding : Number;
  sfManagementFeeOutstanding : Number;
  sfPeriodicPayment : Number
}.

(** Writes through the field proxies. *)
Definition set_schedule (l : Loan) (prev : Z) (next : option Z) (remaining : Z) : Loan :=
  mkLoan (lsfLoanOverpayment l) (sfInterestRate l) (sfLateInterestRate l)
    (sfCloseInterestRate l) (sfOverpaymentInterestRate l) (sfOverpaymentFee l)
    (sfLoanServiceFee l) (sfLatePaymentFee l) (sfClosePaymentFee l) (sfStartDate l)
    (sfPaymentInterval l) (sfLoanScale l) prev next remaining
    (sfTotalValueOutstanding l) (sfPrincipalOutstanding l) (sfManagementFeeOutstanding l)
    (sfPeriodicPayment l).

Definition set_outstanding (l : Loan) (total principal fee : Number) : Loan :=
  mkLoan (lsfLoanOverpayment l) (sfInterestRate l) (sfLateInterestRate l)
    (sfCloseInterestRate l) (sfOverpaymentInterestRate l) (sfOverpaymentFee l)
    (sfLoanServiceFee l) (sfLatePaymentFee l) (sfClosePaymentFee l) (sfStartDate l)
    (sfPaymentInterval l) (sfLoanScale l) (sfPreviousPaymentDate l) (sfNextPaymentDueDate l)
    (sfPaymentRemaining l) total principal fee (sfPeriodicPayment l).

Definition set_periodicPayment (l : Loan) (payment : Number) : Loan :=
  mkLoan (lsfLoanOverpayment l) (sfInterestRate l) (sfLateInterestRate l)
    (sfCloseInterestRate l) (sfOverpaymentInterestRate l) (sfOverpaymentFee l)
    (sfLoanServiceFee l) (sfLatePaymentFee l) (sfClosePaymentFee l) (sfStartDate l)
    (sfPaymentInterval l) (sfLoanScale l) (sfPreviousPaymentDate l) (sfNextPaymentDueDate l)
    (sfPaymentRemaining l) (sfTotalValueOutstanding l) (sfPrincipalOutstanding l)
    (sfManagementFeeOutstanding l) payment.

(** The values [tryOverpayment] works on, by reference. *)
Record Sandbox : Set := mkSandbox {
  sb_totalValueOutstanding : Number;
  sb_principalOutstanding : Number;
  sb_managementFeeOutstanding : Number;
  sb_periodicPayment : Number
}.

Definition loanMaximumPaymentsPerTransaction : nat := 100.

Section Lending.

(** The thread-local settings of the transaction. *)
Context (cfg : Settings).

Local Notation "x [+] y" := (number_add (round_mode cfg) x y) (at level 50).
Local Notation "x [-] y" := (number_sub (round_mode cfg) x y) (at level 50).
Local Notation "x [*] y" := (number_mul (round_mode cfg) x y) (at level 40).
Local Notation "x [/] y" := (number_div (round_mode cfg) x y) (at level 40).
Local Abbreviation num := (of_rep (round_mode cfg)).
Local Abbreviation round_to := (roundToAsset cfg).
(** The default rounding of [roundToAsset] is the current mode. *)
Local Abbreviation current_mode := (round_mode cfg).

Definition add_parts (a b : LoanPaymentParts) : result LoanPaymentParts :=
  let* p := principalPaid a [+] principalPaid b in
  let* i := interestPaid a [+] interestPaid b in
  let* v := valueChange a [+] valueChange b in
  let* f := feePaid a [+] feePaid b in
  Ok (mkParts p i v f).

(** ** Rates and amortization formulas *)

Definition loanPeriodicRate (interestRate paymentInterval : Z) : result Number :=
  let* interval := num paymentInterval in
  let* v := tenthBipsOfValue cfg interval interestRate in
  let* year := num (365 * 24 * 60 * 60) in
  v [/] year.

Definition isRounded (asset : Asset) (value : Number) (scale : Z) : result bool :=
  let* d := round_to asset value scale downward in
  let* u := round_to asset value scale upward in
  Ok (number_eqb d u).

Definition roundPeriodicPayment (asset : Asset) (periodicPayment : Number) (scale : Z)
  : result Number :=
  round_to asset periodicPayment scale upward.

Definition computeRaisedRate (periodicRate : Number) (paymentsRemaining : Z) : result Number :=
  let* one := num 1 in
  let* base := one [+] periodicRate in
  power (round_mode cfg) base paymentsRemaining.

Definition computePaymentFactor (periodicRate : Number) (paymentsRemaining : Z) : result Number :=
  let* raisedRate := computeRaisedRate periodicRate paymentsRemaining in
  let* n := periodicRate [*] raisedRate in
  let* one := num 1 in
  let* d := raisedRate [-] one in
  n [/] d.

Definition loanPeriodicPayment (principalOutstanding periodicRate : Number)
    (paymentsRemaining : Z) : result Number :=
  if number_eqb principalOutstanding zero || (paymentsRemaining =? 0) then Ok zero
  else if signum periodicRate =? 0 then
    let* n := num paymentsRemaining in
    principalOutstanding [/] n
  else
    let* factor := computePaymentFactor periodicRate paymentsRemaining in
    principalOutstanding [*] factor.

Definition loanPeriodicPayment_terms (principalOutstanding : Number)
    (interestRate paymentInterval paymentsRemaining : Z) : result Number :=
  if number_eqb principalOutstanding zero || (paymentsRemaining =? 0) then Ok zero
  else
    let* periodicRate := loanPeriodicRate interestRate paymentInterval in
    loanPeriodicPayment principalOutstanding periodicRate paymentsRemaining.

Definition loanPrincipalFromPeriodicPayment (periodicPayment periodicRate : Number)
    (paymentsRemaining : Z) : result Number :=
  if number_eqb periodicRate zero then
    let* n := num paymentsRemaining in
    periodicPayment [*] n
  else
    let* factor := computePaymentFactor periodicRate paymentsRemaining in
    periodicPayment [/] factor.

Definition computeInterestAndFeeParts (interest : Number) (managementFeeRate : Z)
  : result (Number * Number) :=
  let* fee := tenthBipsOfValue cfg interest managementFeeRate in
  let* rest := interest [-] fee in
  Ok (rest, fee).

(** Times are 32-bit seconds: the differences wrap. *)
Definition loanLatePaymentInterest (principalOutstanding : Number) (lateInterestRate : Z)
    (parentCloseTime nextPaymentDueDate : Z) : result Number :=
  let secondsOverdue := u32 (parentCloseTime - nextPaymentDueDate) in
  let* rate := loanPeriodicRate lateInterestRate secondsOverdue in
  principalOutstanding [*] rate.

Definition loanAccruedInterest (principalOutstanding periodicRate : Number)
    (parentCloseTime startDate prevPaymentDate paymentInterval : Z) : result Number :=
  let lastPaymentDate := Z.max prevPaymentDate startDate in
  let secondsSinceLastPayment := u32 (parentCloseTime - lastPaymentDate) in
  let* a := principalOutstanding [*] periodicRate in
  let* seconds := num secondsSinceLastPayment in
  let* b := a [*] seconds in
  let* interval := num paymentInterval in
  b [/] interval.

Definition computeFee (asset : Asset) (value : Number) (managementFeeRate scale : Z)
  : result Number :=
  let* v := tenthBipsOfValue cfg value managementFeeRate in
  round_to asset v scale downward.

Definition valueMinusFee (asset : Asset) (value : Number) (managementFeeRate scale : Z)
  : result Number :=
  let* fee := computeFee asset value managementFeeRate scale in
  value [-] fee.

Definition computeInterestAndFeeParts_rounded (asset : Asset) (interest : Number)
    (managementFeeRate loanScale : Z) : result (Number * Number) :=
  let* fee := computeFee asset interest managementFeeRate loanScale in
  let* rest := interest [-] fee in
  Ok (rest, fee).

(** ** Loan states *)

Definition calculateRawLoanState (periodicPayment periodicRate : Number)
    (paymentRemaining managementFeeRate : Z) : result LoanState :=
  if paymentRemaining =? 0 then Ok (mkLoanState zero zero zero zero zero)
  else
    let* n := num paymentRemaining in
    let* rawValueOutstanding := periodicPayment [*] n in
    let* rawPrincipalOutstanding :=
      loanPrincipalFromPeriodicPayment periodicPayment periodicRate paymentRemaining in
    let* rawInterestOutstanding := rawValueOutstanding [-] rawPrincipalOutstanding in
    let* rawManagementFeeOutstanding :=
      tenthBipsOfValue cfg rawInterestOutstanding managementFeeRate in
    let* due := rawInterestOutstanding [-] rawManagementFeeOutstanding in
    Ok (mkLoanState rawValueOutstanding rawPrincipalOutstanding rawInterestOutstanding due
          rawManagementFeeOutstanding).

Definition calculateRawLoanState_terms (periodicPayment : Number)
    (interestRate paymentInterval paymentRemaining managementFeeRate : Z) : result LoanState :=
  let* periodicRate := loanPeriodicRate interestRate paymentInterval in
  calculateRawLoanState periodicPayment periodicRate paymentRemaining managementFeeRate.

Definition calculateRoundedLoanState (totalValue principal managementFee : Number)
  : result LoanState :=
  let* interest := totalValue [-] principal in
  let* due := interest [-] managementFee in
  Ok (mkLoanState totalValue principal interest due managementFee).

Definition calculateRoundedLoanState_loan (loan : Loan) : result LoanState :=
  calculateRoundedLoanState (sfTotalValueOutstanding loan) (sfPrincipalOutstanding loan)
    (sfManagementFeeOutstanding loan).

Definition calculateFullPaymentInterest (rawPrincipalOutstanding periodicRate : Number)
    (parentCloseTime paymentInterval prevPaymentDate startDate closeInterestRate : Z)
  : result Number :=
  let* accruedInterest :=
    loanAccruedInterest rawPrincipalOutstanding periodicRate parentCloseTime startDate
      prevPaymentDate paymentInterval in
  let* prepaymentPenalty := tenthBipsOfValue cfg rawPrincipalOutstanding closeInterestRate in
  accruedInterest [+] prepaymentPenalty.

Definition calculateFullPaymentInterest_terms (periodicPayment periodicRate : Number)
    (paymentRemaining parentCloseTime paymentInterval prevPaymentDate startDate
     closeInterestRate : Z) : result Number :=
  let* rawPrincipalOutstanding :=
    loanPrincipalFromPeriodicPayment periodicPayment periodicRate paymentRemaining in
  calculateFullPaymentInterest rawPrincipalOutstanding periodicRate parentCloseTime
    paymentInterval prevPaymentDate startDate closeInterestRate.

(** ** Components of a payment *)

Definition diff_mode (asset : Asset) : rounding_mode :=
  if asset_integral asset then downward else towards_zero.

Definition computeRoundedPrincipalComponent (asset : Asset)
    (principalOutstanding rawPrincipalOutstanding rawPrincipal roundedPeriodicPayment : Number)
    (scale : Z) : result Number :=
  let* d := principalOutstanding [-] rawPrincipalOutstanding in
  let* diff := round_to asset d scale (diff_mode asset) in
  let* q := rawPrincipal [+] diff in
  let* p := round_to asset q scale downward in
  if number_gtb p roundedPeriodicPayment || number_gtb p principalOutstanding
  then Ok (number_min roundedPeriodicPayment principalOutstanding)
  else if number_ltb p zero then Ok zero
  else Ok p.

Definition computeRoundedInterestComponent (asset : Asset)
    (interestOutstanding roundedPrincipal rawInterestOutstanding roundedPeriodicPayment : Number)
    (scale : Z) : result Number :=
  let* roundedInterest := roundedPeriodicPayment [-] roundedPrincipal in
  let* d := interestOutstanding [-] rawInterestOutstanding in
  let* diff := round_to asset d scale (diff_mode asset) in
  let* roundedInterest := roundedInterest [+] diff in
  Ok (number_max zero roundedInterest).

(** The part of a negative [excess] that [part] can absorb. *)
Definition apply_excess (part excess : Number) : result (Number * Number) :=
  if signum excess <? 0 then
    let taken := number_min part (number_neg excess) in
    let* part := part [-] taken in
    let* excess := excess [+] taken in
    Ok (part, excess)
  else Ok (part, excess).

Definition computeRoundedInterestAndFeeComponents (asset : Asset)
    (interestOutstanding managementFeeOutstanding roundedPrincipal rawInterestOutstanding
     rawManagementFeeOutstanding roundedPeriodicPayment periodicRate : Number)
    (managementFeeRate scale : Z) : result (Number * Number) :=
  if number_eqb periodicRate zero then Ok (zero, zero)
  else
    let* roundedInterest :=
      computeRoundedInterestComponent asset interestOutstanding roundedPrincipal
        rawInterestOutstanding roundedPeriodicPayment scale in
    let* roundedFee := computeFee asset roundedInterest managementFeeRate scale in
    let* d := managementFeeOutstanding [-] rawManagementFeeOutstanding in
    let* diff := round_to asset d scale (diff_mode asset) in
    let* roundedFee := roundedFee [+] diff in
    let roundedFee := number_max zero roundedFee in
    let roundedFee := number_min roundedFee managementFeeOutstanding in
    let* rest := roundedInterest [-] roundedFee in
    let roundedInterest := number_max zero rest in
    let roundedInterest := number_min interestOutstanding roundedInterest in
    let* t := roundedPrincipal [+] roundedInterest in
    let* initialTotal := t [+] roundedFee in
    let* excess := roundedPeriodicPayment [-] initialTotal in
    let* (roundedInterest, excess) := apply_excess roundedInterest excess in
    let* (roundedFee, _) := apply_excess roundedFee excess in
    Ok (number_max zero roundedInterest, number_max zero roundedFee).

Definition trackedInterestPart (c : PaymentComponents) : result Number :=
  let* s := trackedPrincipalDelta c [+] trackedManagementFeeDelta c in
  trackedValueDelta c [-] s.

(** The constructor of [PaymentComponentsPlus]. *)
Definition make_plus (p : PaymentComponents) (f v : Number) : result PaymentComponentsPlus :=
  let* a := trackedValueDelta p [+] v in
  let* total := a [+] f in
  Ok (mkPlus p f v total).

Definition computePaymentComponents (asset : Asset) (scale : Z)
    (totalValueOutstanding principalOutstanding managementFeeOutstanding
     periodicPayment periodicRate : Number) (paymentRemaining managementFeeRate : Z)
  : result PaymentComponents :=
  let* roundedPeriodicPayment := roundPeriodicPayment asset periodicPayment scale in
  let* raw := calculateRawLoanState periodicPayment periodicRate paymentRemaining
                managementFeeRate in
  if (paymentRemaining =? 1) || number_leb totalValueOutstanding roundedPeriodicPayment then
    let* a := totalValueOutstanding [-] principalOutstanding in
    let* b := a [-] managementFeeOutstanding in
    let interest := number_max zero b in
    let* c := interest [+] principalOutstanding in
    let* value := c [+] managementFeeOutstanding in
    Ok (mkComponents (ls_interestOutstanding raw) (ls_principalOutstanding raw)
          (ls_managementFeeDue raw) value principalOutstanding managementFeeOutstanding final)
  else
    let* rawInterest := ls_principalOutstanding raw [*] periodicRate in
    let* rawPrincipal := periodicPayment [-] rawInterest in
    let* rawFee := tenthBipsOfValue cfg rawInterest managementFeeRate in
    let* roundedPrincipal :=
      computeRoundedPrincipalComponent asset principalOutstanding
        (ls_principalOutstanding raw) rawPrincipal roundedPeriodicPayment scale in
    let* interest := totalValueOutstanding [-] principalOutstanding in
    let* (roundedInterest, roundedFee) :=
      computeRoundedInterestAndFeeComponents asset interest managementFeeOutstanding
        roundedPrincipal (ls_interestOutstanding raw) (ls_managementFeeDue raw)
        roundedPeriodicPayment periodicRate managementFeeRate scale in
    let* rawRest := rawInterest [-] rawFee in
    let* a := roundedInterest [+] roundedPrincipal in
    let* value := a [+] roundedFee in
    Ok (mkComponents rawRest rawPrincipal rawFee value roundedPrincipal roundedFee none).

Definition computeOverpaymentComponents (asset : Asset) (loanScale : Z) (overpayment : Number)
    (overpaymentInterestRate overpaymentFeeRate managementFeeRate : Z)
  : result PaymentComponentsPlus :=
  let* f := tenthBipsOfValue cfg overpayment overpaymentFeeRate in
  let* fee := round_to asset f loanScale current_mode in
  let* payment := overpayment [-] fee in
  let* i := tenthBipsOfValue cfg payment overpaymentInterestRate in
  let* (rawOverpaymentInterest, _) := computeInterestAndFeeParts i managementFeeRate in
  let* interest := round_to asset rawOverpaymentInterest loanScale current_mode in
  let* (roundedOverpaymentInterest, roundedOverpaymentManagementFee) :=
    computeInterestAndFeeParts_rounded asset interest managementFeeRate loanScale in
  let* rawPrincipal := payment [-] rawOverpaymentInterest in
  let* a := payment [-] roundedOverpaymentInterest in
  let* principal := a [-] roundedOverpaymentManagementFee in
  make_plus
    (mkComponents rawOverpaymentInterest rawPrincipal zero payment principal
       roundedOverpaymentManagementFee extra)
    fee roundedOverpaymentInterest.

(** [hasExpired(view, nextDueDate)] *)
Definition hasExpired (parentCloseTime : Z) (exp : option Z) : bool :=
  match exp with
  | Some exp => exp <=? parentCloseTime
  | None => false
  end.

(** [nextDueDate] passes through an [int32_t] parameter. *)
Definition computeLatePayment (asset : Asset) (parentCloseTime : Z)
    (principalOutstanding : Number) (nextDueDate : Z) (periodic : PaymentComponentsPlus)
    (lateInterestRate loanScale : Z) (latePaymentFee : Number) (amount : STAmount)
    (managementFeeRate : Z) : result (Expected PaymentComponentsPlus) :=
  let nextDueDate := i32 nextDueDate in
  if negb (hasExpired parentCloseTime (Some (u32 nextDueDate))) then Ok (Unexpected tesSUCCESS)
  else
    let* latePaymentInterest :=
      loanLatePaymentInterest principalOutstanding lateInterestRate parentCloseTime
        (u32 nextDueDate) in
    let* (rawLateInterest, _) :=
      computeInterestAndFeeParts latePaymentInterest managementFeeRate in
    let* interest := round_to asset latePaymentInterest loanScale current_mode in
    let* (roundedLateInterest, roundedLateManagementFee) :=
      computeInterestAndFeeParts_rounded asset interest managementFeeRate loanScale in
    let c := components periodic in
    let* raw := rawInterest c [+] rawLateInterest in
    let inner :=
      mkComponents raw (rawPrincipal c) (rawManagementFee c) (trackedValueDelta c)
        (trackedPrincipalDelta c) (trackedManagementFeeDelta c) (specialCase c) in
    let* a := untrackedManagementFee periodic [+] latePaymentFee in
    let* fee := a [+] roundedLateManagementFee in
    let* i := untrackedInterest periodic [+] roundedLateInterest in
    let* late := make_plus inner fee i in
    let* amt := number_of_st cfg amount in
    if number_ltb amt (totalDue late) then Ok (Unexpected tecINSUFFICIENT_PAYMENT)
    else Ok (Value late).

Definition computeFullPayment (asset : Asset) (parentCloseTime : Z)
    (principalOutstanding managementFeeOutstanding periodicPayment : Number)
    (paymentRemaining prevPaymentDate startDate paymentInterval closeInterestRate loanScale : Z)
    (totalInterestOutstanding periodicRate closePaymentFee : Number) (amount : STAmount)
    (managementFeeRate : Z) : result (Expected PaymentComponentsPlus) :=
  if paymentRemaining <=? 1 then Ok (Unexpected tecKILLED)
  else
    let* rawPrincipalOutstanding :=
      loanPrincipalFromPeriodicPayment periodicPayment periodicRate paymentRemaining in
    let* fullPaymentInterest :=
      calculateFullPaymentInterest rawPrincipalOutstanding periodicRate parentCloseTime
        paymentInterval prevPaymentDate startDate closeInterestRate in
    let* (rawFullInterest, rawFullManagementFee) :=
      computeInterestAndFeeParts fullPaymentInterest managementFeeRate in
    let* interest := round_to asset fullPaymentInterest loanScale current_mode in
    let* (roundedFullInterest, roundedFullManagementFee) :=
      computeInterestAndFeeParts_rounded asset interest managementFeeRate loanScale in
    let* a := principalOutstanding [+] totalInterestOutstanding in
    let* value := a [+] managementFeeOutstanding in
    let* b := closePaymentFee [+] roundedFullManagementFee in
    let* fee := b [-] managementFeeOutstanding in
    let* untracked := roundedFullInterest [-] totalInterestOutstanding in
    let* full :=
      make_plus
        (mkComponents rawFullInterest rawPrincipalOutstanding rawFullManagementFee value
           principalOutstanding managementFeeOutstanding final)
        fee untracked in
    let* amt := number_of_st cfg amount in
    if number_ltb amt (totalDue full) then Ok (Unexpected tecINSUFFICIENT_PAYMENT)
    else Ok (Value full).

(** ** Applying a payment to the loan *)

(** Reading an absent optional field throws. *)
Definition read_optional (f : option Z) : result Z :=
  match f with Some v => Ok v | None => Throw runtime_error end.

Definition doPayment (payment : PaymentComponentsPlus) (loan : Loan) (paymentInterval : Z)
  : result (LoanPaymentParts * Loan) :=
  let c := components payment in
  let* loan :=
    if special_eqb (specialCase c) final then
      let* next := read_optional (sfNextPaymentDueDate loan) in
      Ok (set_outstanding (set_schedule loan next None 0) zero zero zero)
    else
      let* loan :=
        if negb (special_eqb (specialCase c) extra) then
          let* next := read_optional (sfNextPaymentDueDate loan) in
          Ok (set_schedule loan next (Some (u32 (next + paymentInterval)))
                (u32 (sfPaymentRemaining loan - 1)))
        else Ok loan in
      let* principal := sfPrincipalOutstanding loan [-] trackedPrincipalDelta c in
      let* total := sfTotalValueOutstanding loan [-] trackedValueDelta c in
      let* fee := sfManagementFeeOutstanding loan [-] trackedManagementFeeDelta c in
      Ok (set_outstanding loan total principal fee) in
  let* i := trackedInterestPart c in
  let* interest := i [+] untrackedInterest payment in
  let* fee := trackedManagementFeeDelta c [+] untrackedManagementFee payment in
  Ok (mkParts (trackedPrincipalDelta c) interest (untrackedInterest payment) fee, loan).

(** ** Terms of a loan *)

Definition computeLoanProperties (asset : Asset) (principalOutstanding : Number)
    (interestRate paymentInterval paymentsRemaining managementFeeRate : Z)
  : result LoanProperties :=
  let* periodicRate := loanPeriodicRate interestRate paymentInterval in
  let* periodicPayment :=
    loanPeriodicPayment principalOutstanding periodicRate paymentsRemaining in
  let* totalAmount :=
    (let near := with_mode cfg to_nearest in
     let* n := of_rep to_nearest paymentsRemaining in
     let* total := number_mul to_nearest periodicPayment n in
     st_of_number near asset total) in
  let loanScale := mOffset totalAmount in
  let* principal := round_to asset principalOutstanding loanScale to_nearest in
  let* total := number_of_st cfg totalAmount in
  let* interest := total [-] principal in
  let* feeOwedToBroker := computeFee asset interest managementFeeRate loanScale in
  let* paymentComponents :=
    computePaymentComponents asset loanScale total principal feeOwedToBroker periodicPayment
      periodicRate paymentsRemaining managementFeeRate in
  Ok (mkProperties periodicPayment total feeOwedToBroker loanScale
        (rawPrincipal paymentComponents)).

(** ** Overpayments *)

Definition tryOverpayment (asset : Asset) (loanScale : Z)
    (overpaymentComponents : PaymentComponentsPlus) (sb : Sandbox)
    (interestRate paymentInterval : Z) (periodicRate : Number)
    (paymentRemaining managementFeeRate : Z)
  : result (Expected LoanPaymentParts * Sandbox) :=
  let* raw := calculateRawLoanState (sb_periodicPayment sb) periodicRate paymentRemaining
                managementFeeRate in
  let* rounded := calculateRoundedLoanState (sb_totalValueOutstanding sb)
                    (sb_principalOutstanding sb) (sb_managementFeeOutstanding sb) in
  let* totalValueError := sb_totalValueOutstanding sb [-] ls_valueOutstanding raw in
  let* principalError := sb_principalOutstanding sb [-] ls_principalOutstanding raw in
  let* feeError := sb_managementFeeOutstanding sb [-] ls_managementFeeDue raw in
  let* p := ls_principalOutstanding raw [-] trackedPrincipalDelta (components overpaymentComponents) in
  let newRawPrincipal := number_max p zero in
  let* newLoanProperties :=
    computeLoanProperties asset newRawPrincipal interestRate paymentInterval paymentRemaining
      managementFeeRate in
  let* newRaw :=
    calculateRawLoanState (lp_periodicPayment newLoanProperties) periodicRate paymentRemaining
      managementFeeRate in
  let* v := ls_valueOutstanding newRaw [+] totalValueError in
  let* totalValue := round_to asset v loanScale current_mode in
  let* v := ls_principalOutstanding newRaw [+] principalError in
  let* principal := round_to asset v loanScale downward in
  let* v := ls_managementFeeDue newRaw [+] feeError in
  let* managementFee := round_to asset v loanScale current_mode in
  let sb := mkSandbox totalValue principal managementFee (lp_periodicPayment newLoanProperties) in
  if number_leb (lp_firstPaymentPrincipal newLoanProperties) zero && number_gtb principal zero
  then Ok (Unexpected tesSUCCESS, sb)
  else if number_leb (lp_periodicPayment newLoanProperties) zero ||
          number_leb (lp_totalValueOutstanding newLoanProperties) zero ||
          number_ltb (lp_managementFeeOwedToBroker newLoanProperties) zero
  then Ok (Unexpected tesSUCCESS, sb)
  else
    let* newRounded := calculateRoundedLoanState totalValue principal managementFee in
    let* change := ls_interestOutstanding newRounded [-] ls_interestOutstanding rounded in
    let* paid := ls_principalOutstanding rounded [-] ls_principalOutstanding newRounded in
    let* interest := ls_interestDue rounded [-] ls_interestDue newRounded in
    let* valueChange := change [+] untrackedInterest overpaymentComponents in
    let* f := ls_managementFeeDue rounded [-] ls_managementFeeDue newRounded in
    let* fee := f [+] untrackedManagementFee overpaymentComponents in
    Ok (Value (mkParts paid interest valueChange fee), sb).

Definition doOverpayment (asset : Asset) (loanScale : Z)
    (overpaymentComponents : PaymentComponentsPlus) (loan : Loan)
    (interestRate paymentInterval : Z) (periodicRate : Number)
    (paymentRemaining managementFeeRate : Z)
  : result (Expected LoanPaymentParts * Loan) :=
  let sb := mkSandbox (sfTotalValueOutstanding loan) (sfPrincipalOutstanding loan)
              (sfManagementFeeOutstanding loan) (sfPeriodicPayment loan) in
  let* (ret, sb) :=
    tryOverpayment asset loanScale overpaymentComponents sb interestRate paymentInterval
      periodicRate paymentRemaining managementFeeRate in
  match ret with
  | Unexpected t => Ok (Unexpected t, loan)
  | Value parts =>
      if number_leb (sfPrincipalOutstanding loan) (sb_principalOutstanding sb)
      then Ok (Unexpected tesSUCCESS, loan)
      else
        let loan :=
          set_periodicPayment
            (set_outstanding loan (sb_totalValueOutstanding sb) (sb_principalOutstanding sb)
               (sb_managementFeeOutstanding sb))
            (sb_periodicPayment sb) in
        Ok (Value parts, loan)
  end.

(** ** The payment functions of the transactor *)

(** A call of [doPayment] whose result is returned. *)
Definition pay (payment : PaymentComponentsPlus) (loan : Loan) (paymentInterval : Z)
  : result (Expected LoanPaymentParts * Loan) :=
  let* (parts, loan) := doPayment payment loan paymentInterval in
  Ok (Value parts, loan).

Definition loanMakeFullPayment (asset : Asset) (parentCloseTime : Z) (loan : Loan)
    (managementFeeRate : Z) (amount : STAmount)
  : result (Expected LoanPaymentParts * Loan) :=
  if (sfPaymentRemaining loan =? 0) || number_eqb (sfPrincipalOutstanding loan) zero
  then Ok (Unexpected tecKILLED, loan)
  else match sfNextPaymentDueDate loan with
  | None => Ok (Unexpected tecINTERNAL, loan)
  | Some _ =>
      let loanScale := sfLoanScale loan in
      let* closePaymentFee := round_to asset (sfClosePaymentFee loan) loanScale current_mode in
      let* periodicRate := loanPeriodicRate (sfInterestRate loan) (sfPaymentInterval loan) in
      let* roundedLoanState := calculateRoundedLoanState_loan loan in
      let* fullPaymentComponents :=
        computeFullPayment asset parentCloseTime (sfPrincipalOutstanding loan)
          (sfManagementFeeOutstanding loan) (sfPeriodicPayment loan) (sfPaymentRemaining loan)
          (sfPreviousPaymentDate loan) (sfStartDate loan) (sfPaymentInterval loan)
          (sfCloseInterestRate loan) loanScale (ls_interestDue roundedLoanState) periodicRate
          closePaymentFee amount managementFeeRate in
      match fullPaymentComponents with
      | Value full => pay full loan (sfPaymentInterval loan)
      | Unexpected t =>
          if negb (isTesSuccess t) then Ok (Unexpected t, loan)
          else Ok (Unexpected tecINTERNAL, loan)
      end
  end.

(** The components of the next regular payment. *)
Definition nextComponents (asset : Asset) (loan : Loan) (periodicPayment periodicRate : Number)
    (managementFeeRate : Z) : result PaymentComponentsPlus :=
  let* c :=
    computePaymentComponents asset (sfLoanScale loan) (sfTotalValueOutstanding loan)
      (sfPrincipalOutstanding loan) (sfManagementFeeOutstanding loan) periodicPayment periodicRate
      (sfPaymentRemaining loan) managementFeeRate in
  make_plus c (sfLoanServiceFee loan) zero.

(** The loop of [loanMakePayment]; [allowed] is the number of payments still
    allowed, [loanMaximumPaymentsPerTransaction - numPayments]. *)
Fixpoint payment_loop (allowed : nat) (asset : Asset) (periodicPayment periodicRate : Number)
    (managementFeeRate : Z) (amount totalPaid : Number) (totalParts : LoanPaymentParts)
    (loan : Loan) : result (nat * Number * LoanPaymentParts * Loan) :=
  match allowed with
  | O => Ok (allowed, totalPaid, totalParts, loan)
  | S fewer =>
      if number_ltb totalPaid amount && (0 <? sfPaymentRemaining loan) then
        let* nextPayment :=
          nextComponents asset loan periodicPayment periodicRate managementFeeRate in
        let* t := totalPaid [+] totalDue nextPayment in
        if number_ltb amount t then Ok (allowed, totalPaid, totalParts, loan)
        else
          let* (parts, loan) := doPayment nextPayment loan (sfPaymentInterval loan) in
          let* totalParts := add_parts totalParts parts in
          payment_loop fewer asset periodicPayment periodicRate managementFeeRate amount t
            totalParts loan
      else Ok (allowed, totalPaid, totalParts, loan)
  end.

Definition makeOverpayment (asset : Asset) (loan : Loan) (periodicRate : Number)
    (managementFeeRate : Z) (amount totalPaid : Number) (totalParts : LoanPaymentParts)
  : result (Expected LoanPaymentParts * Loan) :=
  let* rest := amount [-] totalPaid in
  let overpayment := number_min rest (sfTotalValueOutstanding loan) in
  let* overpaymentComponents :=
    computeOverpaymentComponents asset (sfLoanScale loan) overpayment
      (sfOverpaymentInterestRate loan) (sfOverpaymentFee loan) managementFeeRate in
  let c := components overpaymentComponents in
  if number_gtb (rawPrincipal c) zero && number_gtb (trackedPrincipalDelta c) zero then
    let* (overResult, loan) :=
      doOverpayment asset (sfLoanScale loan) overpaymentComponents loan (sfInterestRate loan)
        (sfPaymentInterval loan) periodicRate (sfPaymentRemaining loan) managementFeeRate in
    match overResult with
    | Value parts =>
        let* totalParts := add_parts totalParts parts in
        Ok (Value totalParts, loan)
    | Unexpected t =>
        if negb (isTesSuccess t) then Ok (Unexpected t, loan) else Ok (Value totalParts, loan)
    end
  else Ok (Value totalParts, loan).

Definition loanMakePayment (asset : Asset) (parentCloseTime : Z) (loan : Loan)
    (managementFeeRate : Z) (amount : STAmount) (overpaymentAllowed : bool)
  : result (Expected LoanPaymentParts * Loan) :=
  if (sfPaymentRemaining loan =? 0) || number_eqb (sfPrincipalOutstanding loan) zero
  then Ok (Unexpected tecKILLED, loan)
  else match sfNextPaymentDueDate loan with
  | None => Ok (Unexpected tecINTERNAL, loan)
  | Some nextDueDate =>
      let periodicPayment := sfPeriodicPayment loan in
      let* periodicRate := loanPeriodicRate (sfInterestRate loan) (sfPaymentInterval loan) in
      let* periodic := nextComponents asset loan periodicPayment periodicRate managementFeeRate in
      let* latePaymentComponents :=
        computeLatePayment asset parentCloseTime (sfPrincipalOutstanding loan) nextDueDate periodic
          (sfLateInterestRate loan) (sfLoanScale loan) (sfLatePaymentFee loan) amount
          managementFeeRate in
      match latePaymentComponents with
      | Value late => pay late loan (sfPaymentInterval loan)
      | Unexpected t =>
          if negb (isTesSuccess t) then Ok (Unexpected t, loan)
          else
            let* amt := number_of_st cfg amount in
            if number_ltb amt (totalDue periodic)
            then Ok (Unexpected tecINSUFFICIENT_PAYMENT, loan)
            else
              let* (totalParts, loan) := doPayment periodic loan (sfPaymentInterval loan) in
              let* (allowed, totalPaid, totalParts, loan) :=
                payment_loop (loanMaximumPaymentsPerTransaction - 1) asset periodicPayment
                  periodicRate managementFeeRate amt (totalDue periodic) totalParts loan in
              if overpaymentAllowed && lsfLoanOverpayment loan && (0 <? sfPaymentRemaining loan) &&
                 (match sfNextPaymentDueDate loan with Some _ => true | None => false end) &&
                 number_ltb totalPaid amt && negb (allowed =? 0)%nat
              then makeOverpayment asset loan periodicRate managementFeeRate amt totalPaid totalParts
              else Ok (Value totalParts, loan)
      end
  end.

End Lending.
