(* ===== verification/LendingFacts.v ===== *)
(** * Loan arithmetic: components of a payment

    Well-formedness of the unrounded quantities, and what the clamps of the
    component functions guarantee, on the grid of the loan's scale.

    ** Fees and shares of a value

    [tenthBipsOfValue] at a rate of at most 100% never exceeds the value, and a
    fee computed by [computeFee] lies between zero and the value it is taken
    from, on the grid of the scale. *)

From S2P Require Import Prelude.
From S2P Require Import Ter.
From S2P Require Import XrplNumber.
From S2P Require Import XrplNumberFacts.
From S2P Require Import XrplNumberCorrect.
From S2P Require Import XrplNumberAdd.
From S2P Require Import XrplNumberGrid.
From S2P Require Import XrplNumberProps.
From S2P Require Import XrplNumberMultiple.
From S2P Require Import Amounts.
From S2P Require Import AmountsFacts.
From S2P Require Import AmountsRound.
From S2P Require Import Lending.
From Stdlib Require Import ZArith Lia Bool.

Open Scope Z_scope.

(** Widths of the rates and counters of a loan. *)
Definition word (z : Z) : Prop := 0 <= z < 2 ^ 32.

Lemma of_rep_wf md n z : Z.abs n < 2 ^ 63 -> of_rep md n = Ok z -> wf z.
Proof. intros Hn. apply normalize_wf. lia. Qed.

Lemma word_abs n : word n -> Z.abs n < 2 ^ 63.
Proof. unfold word. lia. Qed.

(** Peel the steps of a computation that returned, collecting the
    well-formedness of each number. *)
Ltac wf_num :=
  match goal with
  | H : of_rep _ ?n = Ok ?z |- _ =>
      lazymatch goal with
      | _ : wf z |- _ => fail
      | _ => assert (wf z) by (refine (of_rep_wf _ n z _ H); first [apply word_abs; assumption | reflexivity])
      end
  | H : number_add _ ?x ?y = Ok ?z, Hx : wf ?x, Hy : wf ?y |- _ =>
      lazymatch goal with
      | _ : wf z |- _ => fail
      | _ => pose proof (number_add_wf _ x y z Hx Hy H)
      end
  | H : number_sub _ ?x ?y = Ok ?z, Hx : wf ?x, Hy : wf ?y |- _ =>
      lazymatch goal with
      | _ : wf z |- _ => fail
      | _ => pose proof (number_sub_wf _ x y z Hx Hy H)
      end
  | H : number_mul _ ?x ?y = Ok ?z, Hx : wf ?x, Hy : wf ?y |- _ =>
      lazymatch goal with
      | _ : wf z |- _ => fail
      | _ => pose proof (number_mul_wf _ x y z Hx Hy H)
      end
  | H : number_div _ ?x ?y = Ok ?z, Hx : wf ?x, Hy : wf ?y |- _ =>
      lazymatch goal with
      | _ : wf z |- _ => fail
      | _ => pose proof (number_div_wf _ x y z Hx Hy H)
      end
  | H : power _ ?x ?n = Ok ?z, Hx : wf ?x |- _ =>
      lazymatch goal with
      | _ : wf z |- _ => fail
      | _ => pose proof (power_wf _ x n z Hx H)
      end
  end.

Ltac peel H := repeat bind_inv H.

(** The number a helper returned is well-formed, by the lemma about it. *)
Ltac wf_by L :=
  match goal with
  | |- wf ?z => match goal with H : _ = Ok z |- _ => eapply L; [.. | exact H]; assumption end
  end.

(** Exact sums that returned. *)
Lemma grid_add_ok md s a b x y z :
  grid_scale s -> on_grid s a x -> on_grid s b y -> Z.abs (a + b) <= maxMantissa ->
  number_add md x y = Ok z -> on_grid s (a + b) z.
Proof.
  intros HS Hx Hy HB H. destruct (grid_add md s a b x y HS Hx Hy HB) as (z' & E & Hz). congruence.
Qed.

Lemma grid_sub_ok md s a b x y z :
  grid_scale s -> on_grid s a x -> on_grid s b y -> Z.abs (a - b) <= maxMantissa ->
  number_sub md x y = Ok z -> on_grid s (a - b) z.
Proof.
  intros HS Hx Hy HB H. destruct (grid_sub md s a b x y HS Hx Hy HB) as (z' & E & Hz). congruence.
Qed.

(** Sign and minimum of multiples. *)
Lemma number_max_zero s x :
  multiple s x -> multiple s (number_max zero x) /\ nonneg (number_max zero x).
Proof.
  intros Hx. unfold number_max. destruct (number_ltb zero x) eqn:E.
  - split; [exact Hx |]. unfold nonneg. destruct (number_ltb x zero) eqn:E'; [| reflexivity].
    pose proof (multiple_wf s x Hx) as Hw.
    apply number_ltb_value in E, E'; auto; try now left.
    unfold value_lt in *. rewrite low_exponent_comm in E'. lia.
  - split; [apply multiple_zero | reflexivity].
Qed.

Lemma number_max_zero_grid s n x :
  on_grid s n x -> on_grid s (Z.max 0 n) (number_max zero x).
Proof. intros. apply grid_max; [apply on_grid_zero | assumption]. Qed.

(** The smaller of a non-negative multiple and a number of the grid. *)
Lemma number_min_grid_r s x b y :
  multiple s x -> nonneg x -> on_grid s b y ->
  exists n, on_grid s n (number_min x y) /\ n <= b /\ (0 <= n \/ n = b).
Proof.
  intros Hx H0 Hy. unfold number_min. destruct (number_ltb y x) eqn:E.
  - exists b. auto with zarith.
  - destruct (multiple_between s x b y Hx Hy H0 E) as (n & Hn & ?). exists n. auto with zarith.
Qed.

Lemma number_min_grid_l s x b y :
  multiple s x -> nonneg x -> on_grid s b y ->
  exists n, on_grid s n (number_min y x) /\ n <= b /\ (0 <= n \/ n = b).
Proof.
  intros Hx H0 Hy. unfold number_min. destruct (number_ltb x y) eqn:E.
  - destruct (multiple_between s x b y Hx Hy H0) as (n & Hn & ?).
    + destruct (number_ltb y x) eqn:E'; [| reflexivity].
      pose proof (multiple_wf s x Hx). pose proof (on_grid_wf s b y Hy).
      apply number_ltb_value in E, E'; auto. unfold value_lt in *. rewrite low_exponent_comm in E'. lia.
    + exists n. auto with zarith.
  - exists b. auto with zarith.
Qed.

Section Facts.

Context (cfg : Settings) (HC : current cfg).

(** ** Unrounded quantities *)

Lemma tenthBipsOfValue_wf v bips z :
  wf v -> word bips -> tenthBipsOfValue cfg v bips = Ok z -> wf z.
Proof. intros Hv Hb H. unfold tenthBipsOfValue in H. peel H. repeat wf_num. assumption. Qed.

Lemma loanPeriodicRate_wf rate interval z :
  word rate -> word interval -> loanPeriodicRate cfg rate interval = Ok z -> wf z.
Proof.
  intros Hr Hi H. unfold loanPeriodicRate in H. peel H.
  assert (wf a) by (eapply of_rep_wf; [apply word_abs, Hi | eassumption]).
  assert (wf a0) by wf_by tenthBipsOfValue_wf. repeat wf_num. assumption.
Qed.

Lemma computePaymentFactor_wf rate n z :
  wf rate -> computePaymentFactor cfg rate n = Ok z -> wf z.
Proof.
  intros Hr H. unfold computePaymentFactor, computeRaisedRate in H. peel H. peel Hb.
  repeat wf_num. assumption.
Qed.

Lemma loanPrincipalFromPeriodicPayment_wf payment rate n z :
  wf payment -> wf rate -> word n ->
  loanPrincipalFromPeriodicPayment cfg payment rate n = Ok z -> wf z.
Proof.
  intros Hp Hr Hn H. unfold loanPrincipalFromPeriodicPayment in H.
  destruct (number_eqb _ _); peel H.
  - repeat wf_num. assumption.
  - assert (wf a) by wf_by computePaymentFactor_wf. repeat wf_num. assumption.
Qed.

Lemma calculateRawLoanState_wf payment rate n fee st :
  wf payment -> wf rate -> word n -> word fee ->
  calculateRawLoanState cfg payment rate n fee = Ok st ->
  wf (ls_valueOutstanding st) /\ wf (ls_principalOutstanding st) /\
  wf (ls_interestOutstanding st) /\ wf (ls_interestDue st) /\ wf (ls_managementFeeDue st).
Proof.
  intros Hp Hr Hn Hf H. unfold calculateRawLoanState in H.
  destruct (_ =? _); [injection H as <-; cbn; splits; now left |]. peel H. injection H as <-. cbn.
  assert (wf a1) by wf_by loanPrincipalFromPeriodicPayment_wf. repeat wf_num.
  assert (wf a3) by wf_by tenthBipsOfValue_wf. repeat wf_num. splits; assumption.
Qed.

(** ** Rounded components *)

Context (asset : Asset) (s : Z) (HS : asset_scale asset s).

Lemma computeRoundedPrincipalComponent_spec P rawP rawPart R z p r :
  on_grid s p P -> on_grid s r R -> 0 <= p -> 0 <= r -> wf rawP -> wf rawPart ->
  computeRoundedPrincipalComponent cfg asset P rawP rawPart R s = Ok z ->
  exists v, on_grid s v z /\ 0 <= v <= Z.min p r.
Proof.
  intros HP HR Hp Hr W1 W2 H. unfold computeRoundedPrincipalComponent in H.
  pose proof (on_grid_wf s p P HP). bind_inv H. wf_num. bind_inv H.
  assert (wf a0) by (eapply multiple_wf, roundToAsset_multiple; [exact HC | exact HS | | exact Hb0]; assumption).
  bind_inv H. wf_num. bind_inv H.
  assert (multiple s a2) as M2 by (eapply roundToAsset_multiple; [exact HC | exact HS | | exact Hb2]; assumption).
  unfold number_gtb in H. destruct (number_ltb R a2 || number_ltb P a2) eqn:E.
  - injection H as <-. exists (Z.min r p). split; [now apply grid_min | lia].
  - apply orb_false_iff in E as [E1 E2]. destruct (number_ltb a2 zero) eqn:E0; injection H as <-.
    + exists 0. split; [apply on_grid_zero | lia].
    + destruct (multiple_between s a2 p P M2 HP E0 E2) as (n & Hn & ?).
      exists n. split; [exact Hn |]. rewrite (grid_ltb s r n R a2 HR Hn) in E1. zbool. lia.
Qed.

Lemma computeRoundedInterestComponent_spec I vpN rawI R z r vp :
  wf I -> wf rawI -> on_grid s r R -> on_grid s vp vpN ->
  computeRoundedInterestComponent cfg asset I vpN rawI R s = Ok z -> multiple s z /\ nonneg z.
Proof.
  intros W1 W2 HR HV H. unfold computeRoundedInterestComponent in H.
  bind_inv H. assert (multiple s a) as M by (eapply number_sub_multiple; [| | exact Hb]; eapply multiple_grid; eassumption).
  bind_inv H. wf_num. bind_inv H.
  assert (multiple s a1) by (eapply roundToAsset_multiple; [exact HC | exact HS | | exact Hb1]; assumption).
  bind_inv H. injection H as <-. apply number_max_zero.
  eapply number_add_multiple; [exact M | | exact Hb2]; assumption.
Qed.

Lemma computeFee_multiple v rate z :
  wf v -> word rate -> computeFee cfg asset v rate s = Ok z -> multiple s z.
Proof.
  intros W Hr H. unfold computeFee in H. bind_inv H.
  assert (wf a) by wf_by tenthBipsOfValue_wf.
  eapply roundToAsset_multiple; [exact HC | exact HS | | exact H]; assumption.
Qed.

(** What [apply_excess] does, in units. *)
Definition excess_taken (a e : Z) : Z := if e <? 0 then Z.min a (- e) else 0.

Lemma apply_excess_spec part excess a e part' excess' :
  on_grid s a part -> on_grid s e excess ->
  Z.abs (a - excess_taken a e) <= maxMantissa -> Z.abs (e + excess_taken a e) <= maxMantissa ->
  apply_excess cfg part excess = Ok (part', excess') ->
  on_grid s (a - excess_taken a e) part' /\ on_grid s (e + excess_taken a e) excess'.
Proof.
  intros Ha He B1 B2 H. pose proof (asset_scale_grid asset s HS) as HG.
  unfold apply_excess in H.
  assert ((signum excess <? 0) = (e <? 0)) as ES.
  { rewrite <- (on_grid_sign s e excess He). unfold signum, neg_number.
    destruct (mantissa_ excess <? 0); [reflexivity |]. now destruct (mantissa_ excess =? 0). }
  rewrite ES in H. unfold excess_taken in *. destruct (Z.ltb_spec e 0).
  - assert (on_grid s (Z.min a (- e)) (number_min part (number_neg excess))) as HM
      by (apply grid_min; [exact Ha | apply on_grid_neg; [exact He | lia]]).
    peel H. injection H as <- <-. split.
    + eapply grid_sub_ok; [exact HG | exact Ha | exact HM | exact B1 | exact Hb].
    + eapply grid_add_ok; [exact HG | exact He | exact HM | exact B2 | exact Hb0].
  - injection H as <- <-. rewrite Z.sub_0_r, Z.add_0_r. auto.
Qed.

(** The arithmetic of the two excess adjustments, in units: interest [i] and
    fee [g] next to a principal part [v] of a payment [r]. *)
Lemma excess_arith v i g r io :
  0 <= v <= r -> 0 <= g -> (0 <= i \/ i = io) -> i <= io ->
  let e := r - (v + i + g) in
  let i' := i - excess_taken i e in
  let e' := e + excess_taken i e in
  let g' := g - excess_taken g e' in
  0 <= g' <= g /\ Z.max 0 i' <= Z.max 0 io /\
  (0 <= io -> v + Z.max 0 i' + Z.max 0 g' <= r).
Proof.
  intros Hv Hg Hi Hio e i' e' g'. subst e i' e' g'. unfold excess_taken.
  repeat match goal with |- context [?a <? ?b] => destruct (Z.ltb_spec a b) end; lia.
Qed.

Lemma computeRoundedInterestAndFeeComponents_spec I F V rawI rawF R rate feeRate z io f v r :
  on_grid s io I -> on_grid s f F -> on_grid s v V -> on_grid s r R ->
  0 <= f -> 0 <= v <= r -> wf rawI -> wf rawF -> word feeRate ->
  Z.max v (v + io) + f <= maxMantissa -> r - io <= maxMantissa ->
  computeRoundedInterestAndFeeComponents cfg asset I F V rawI rawF R rate feeRate s = Ok z ->
  exists vi vf, on_grid s vi (fst z) /\ on_grid s vf (snd z) /\
    0 <= vi /\ 0 <= vf <= f /\ vi <= Z.max 0 io /\ (0 <= io -> v + vi + vf <= r).
Proof.
  intros HI HF HV HR Hf Hv W1 W2 Hw B1 B2 H. pose proof (asset_scale_grid asset s HS) as HG.
  pose proof (on_grid_wf s io I HI) as WI. pose proof (on_grid_wf s f F HF) as WF.
  pose proof (on_grid_bound s io I HI) as BI. pose proof (on_grid_bound s r R HR) as BR.
  unfold computeRoundedInterestAndFeeComponents in H. destruct (number_eqb rate zero).
  { injection H as <-. exists 0, 0. cbn [fst snd]. splits; auto using on_grid_zero; lia. }
  bind_inv H. destruct (computeRoundedInterestComponent_spec _ _ _ _ _ _ _ WI W1 HR HV Hb) as [M0 N0].
  bind_inv H. pose proof (computeFee_multiple a feeRate a0 (multiple_wf s a M0) Hw Hb0) as M1.
  bind_inv H. wf_num. bind_inv H.
  assert (multiple s a2) as M2
    by (eapply roundToAsset_multiple; [exact HC | exact HS | | exact Hb2]; assumption).
  bind_inv H. pose proof (number_add_multiple _ s _ _ _ M1 M2 Hb3) as M3.
  destruct (number_max_zero s a3 M3) as [M4 N4].
  destruct (number_min_grid_r s (number_max zero a3) f F M4 N4 HF) as (g & Hg & Hgf & Hg0).
  set (fee := number_min (number_max zero a3) F) in *.
  bind_inv H. pose proof (number_sub_multiple _ s _ _ _ M0 (multiple_grid s g _ Hg) Hb4) as M5.
  destruct (number_max_zero s a4 M5) as [M6 N6].
  destruct (number_min_grid_l s (number_max zero a4) io I M6 N6 HI) as (i & Hi & Hiio & Hi0).
  set (int := number_min I (number_max zero a4)) in *.
  bind_inv H. pose proof (grid_add_ok _ s v i V int a5 HG HV Hi ltac:(lia) Hb5) as G5.
  bind_inv H. pose proof (grid_add_ok _ s (v + i) g a5 fee a6 HG G5 Hg ltac:(lia) Hb6) as G6.
  bind_inv H. pose proof (grid_sub_ok _ s r (v + i + g) R a6 a7 HG HR G6 ltac:(lia) Hb7) as G7.
  set (e := r - (v + i + g)) in *.
  destruct (excess_arith v i g r io Hv ltac:(lia) Hi0 Hiio) as (E1 & E2 & E3). fold e in E1, E2, E3.
  apply bind_ok in H as ([i1 e1] & Hx1 & H). apply bind_ok in H as ([g1 e2] & Hx2 & H).
  injection H as <-.
  destruct (apply_excess_spec int a7 i e i1 e1 Hi G7) as [X1 X2];
    [unfold excess_taken; destruct (Z.ltb_spec e 0); lia
    | unfold excess_taken; destruct (Z.ltb_spec e 0); lia | exact Hx1 |].
  destruct (apply_excess_spec fee e1 g _ g1 e2 Hg X2) as [X3 _];
    [lia | unfold excess_taken; destruct (Z.ltb_spec e 0);
           [destruct (Z.ltb_spec (e + Z.min i (- e)) 0) | destruct (Z.ltb_spec (e + 0) 0)]; lia
    | exact Hx2 |].
  exists (Z.max 0 (i - excess_taken i e)), (Z.max 0 (g - excess_taken g (e + excess_taken i e))).
  cbn [fst snd]. splits; [now apply number_max_zero_grid .. | | | | |]; lia.
Qed.

End Facts.

(** ** Fees and shares of a value *)

Open Scope Z_scope.

(** ** Rounding is monotone at a representable bound *)

Lemma ltb_exponent M E q e :
  0 < M -> 0 < q -> e < E -> number_ltb (mkNumber M E) (mkNumber q e) = false.
Proof.
  intros HM Hq He. unfold number_ltb; cbn [mantissa_ exponent_].
  destruct (Z.ltb_spec M 0); [lia |]. destruct (Z.ltb_spec q 0); [lia |]. cbn [xorb].
  destruct (Z.eqb_spec M 0); [lia |]. destruct (Z.eqb_spec q 0); [lia |].
  now destruct (Z.ltb_spec e E); [| lia].
Qed.

Lemma ltb_mantissa M q e :
  0 < M -> 0 < q <= M -> number_ltb (mkNumber M e) (mkNumber q e) = false.
Proof.
  intros HM Hq. unfold number_ltb; cbn [mantissa_ exponent_]. rewrite Z.ltb_irrefl.
  destruct (Z.ltb_spec M 0); [lia |]. destruct (Z.ltb_spec q 0); [lia |]. cbn [xorb].
  destruct (Z.eqb_spec M 0); [lia |]. destruct (Z.eqb_spec q 0); [lia |]. apply Z.ltb_ge. lia.
Qed.

(** [n / 10^k * 10^e] is at most [M * 10^E]; stated at the exponent [e - k]. *)
Lemma pack_le md g n k e M E z :
  0 <= k -> minMantissa * 10 ^ k <= n < (maxMantissa + 1) * 10 ^ k ->
  minMantissa <= M <= maxMantissa -> e - k <= E -> n <= M * 10 ^ (E - (e - k)) ->
  pack_with md g false n k e = Ok z -> number_ltb (mkNumber M E) z = false.
Proof.
  intros Hk HR HM HL HB. pose proof (pow10_pos k Hk) as HP.
  assert (HEe : e <= E).
  { destruct (Z.le_gt_cases e E); [assumption | exfalso].
    pose proof (Z.pow_le_mono_r 10 (E - (e - k) + 1) k ltac:(lia) ltac:(lia)) as HM2.
    rewrite pow10_succ in HM2 by lia. pose proof (pow10_pos (E - (e - k)) ltac:(lia)).
    unfold minMantissa, maxMantissa in *. nia. }
  unfold pack_with. pose proof (round_quot_bounds md g n (10 ^ k) HP) as HQ.
  assert (minMantissa <= n / 10 ^ k) by (apply Z.div_le_lower_bound; lia).
  assert (n / 10 ^ k < maxMantissa + 1) by (apply Z.div_lt_upper_bound; lia).
  set (q := round_quot _ _ _ _) in *.
  assert (HZ : number_ltb (mkNumber M E) zero = false).
  { unfold number_ltb, minMantissa in *; cbn. destruct (Z.ltb_spec M 0); [lia |]. cbn.
    now destruct (Z.eqb_spec M 0); [lia |]. }
  assert (HE0 : e = E -> q <= M).
  { intros ->. apply round_quot_le; [exact HP |]. now replace (E - (E - k)) with k in HB by ring. }
  unfold minMantissa in *.
  destruct (Z.ltb_spec maxMantissa q) as [C | C];
    (destruct (_ <? minExponent); [intros [= <-]; exact HZ |]);
    (destruct (maxExponent <? _); [discriminate |]); intros [= <-].
  - assert (q = 10000000000000000) as -> by (unfold maxMantissa in *; lia).
    change (10000000000000000 / 10) with 1000000000000000.
    destruct (Z.eq_dec e E); [unfold maxMantissa in *; lia |].
    destruct (Z.eq_dec (e + 1) E) as [<- |]; [apply ltb_mantissa | apply ltb_exponent]; auto; lia.
  - destruct (Z.eq_dec e E) as [<- |]; [apply ltb_mantissa | apply ltb_exponent]; auto; lia.
Qed.

(** ** Shares in tenths of a basis point *)

Lemma of_rep_unity md : of_rep md tenthBipsPerUnity = Ok (mkNumber 1000000000000000 (-10)).
Proof. destruct md; vm_compute; reflexivity. Qed.

(** Division by one hundred thousand moves the exponent. *)
Lemma div_unity md p :
  normal p ->
  number_div md p (mkNumber 1000000000000000 (-10)) =
    if exponent_ p - 5 <? minExponent then Ok zero
    else Ok (mkNumber (mantissa_ p) (exponent_ p - 5)).
Proof.
  intros Hp. pose proof (normal_abs_range p Hp) as R.
  destruct (number_div_pack md p (mkNumber 1000000000000000 (-10)) Hp ltac:(eval_cmp))
    as (k & Hk & HM & ->).
  change (abs_mantissa (mkNumber 1000000000000000 (-10))) with 1000000000000000 in *.
  change (neg_number (mkNumber 1000000000000000 (-10))) with false. rewrite xorb_false_r.
  cbn [exponent_] in *.
  assert (abs_mantissa p * 100000000000000000 / 1000000000000000 = abs_mantissa p * 100) as E.
  { replace (abs_mantissa p * 100000000000000000) with (abs_mantissa p * 100 * 1000000000000000) by ring.
    apply Z.div_mul. lia. }
  rewrite E in *. unfold minMantissa, maxMantissa in *.
  assert (k = 2) as ->.
  { destruct (Z.eq_dec k 1) as [-> |]; [change (10 ^ 1) with 10 in HM; lia | lia]. }
  change (10 ^ 2) with 100 in *.
  replace (exponent_ p - -10 - 17 + 2) with (exponent_ p - 5) by ring.
  destruct (Z.ltb_spec (exponent_ p - 5) minExponent); [reflexivity |].
  unfold pack, pack_with. change (10 ^ 2) with 100. rewrite round_quot_exact by lia.
  destruct (Z.ltb_spec maxMantissa (abs_mantissa p)); [unfold maxMantissa in *; lia |].
  destruct (Z.ltb_spec (exponent_ p - 5) minExponent); [lia |].
  destruct Hp as [_ Hp]. destruct (Z.ltb_spec maxExponent (exponent_ p - 5)); [lia |].
  do 2 f_equal. unfold abs_mantissa, neg_number. destruct (Z.ltb_spec (mantissa_ p) 0); lia.
Qed.

Lemma of_rep_bips md b :
  0 < b <= tenthBipsPerUnity ->
  exists y, of_rep md b = Ok y /\ normal y /\ neg_number y = false /\ exponent_ y <= 0 /\
    mantissa_ y = b * 10 ^ (- exponent_ y).
Proof.
  unfold tenthBipsPerUnity. intros Hb.
  destruct (make_grid md b 0) as (y & E & Hy);
    [unfold maxMantissa; lia | unfold grid_scale, minExponent, maxExponent; lia |].
  exists y. split; [exact E |]. pose proof (on_grid_sign 0 b y Hy) as S.
  destruct Hy as [[? _] | (N & He & Hm)]; [lia |]. rewrite Z.sub_0_l in Hm.
  splits; auto. rewrite S. lia.
Qed.

(** A share of at most 100% of a non-negative value is between zero and it. *)
Lemma tenthBipsOfValue_le cfg v b z :
  wf v -> nonneg v -> 0 <= b <= tenthBipsPerUnity ->
  tenthBipsOfValue cfg v b = Ok z -> nonneg z /\ number_ltb v z = false.
Proof.
  intros Hv HN Hb H. unfold tenthBipsOfValue in H. rewrite of_rep_unity in H. cbn [bind] in H.
  apply bind_ok in H as (y & Hy & H). apply bind_ok in H as (p & Hp & H).
  assert (HZ : p = zero -> nonneg z /\ number_ltb v z = false).
  { intros ->. cbn in H. injection H as <-. split; [reflexivity | exact HN]. }
  destruct Hv as [-> | Hv]; [cbn in Hp; injection Hp as <-; auto |].
  destruct (Z.eq_dec b 0) as [-> | Hb0].
  { injection Hy as <-. unfold number_mul in Hp. rewrite normal_neq_zero in Hp by assumption.
    injection Hp as <-. auto. }
  destruct (of_rep_bips (round_mode cfg) b ltac:(lia)) as (y' & E & Ny & Sy & Ey & My).
  rewrite E in Hy. injection Hy as ->.
  pose proof (normal_abs_range v Hv) as Rv. pose proof (normal_abs_range y Ny) as Ry.
  apply (nonneg_neg_number v (or_intror Hv)) in HN as SN.
  set (n := abs_mantissa v * abs_mantissa y) in *.
  destruct (scale_exists n) as (k & Hk & HM); [unfold n, minMantissa in *; nia |].
  rewrite (number_mul_pack _ v y k Hv Ny Hk HM), SN, Sy in Hp. cbn [xorb] in Hp. fold n in Hp.
  assert (Hvm : mantissa_ v = abs_mantissa v).
  { unfold abs_mantissa, neg_number in *. apply Z.ltb_ge in SN. lia. }
  assert (HL : number_ltb (mkNumber (mantissa_ v) (exponent_ v + 5)) p = false).
  { unfold pack in Hp. rewrite Hvm. refine (pack_le _ _ n k _ _ _ p Hk HM Rv _ _ Hp); [lia |].
    unfold n. assert (abs_mantissa y = b * 10 ^ (- exponent_ y)) as ->.
    { unfold abs_mantissa, neg_number in *. apply Z.ltb_ge in Sy. lia. }
    replace (exponent_ v + 5 - (exponent_ v + exponent_ y + k - k)) with (- exponent_ y + 5) by ring.
    rewrite Z.pow_add_r by lia. change (10 ^ 5) with 100000. unfold tenthBipsPerUnity in Hb.
    pose proof (pow10_pos (- exponent_ y) ltac:(lia)). unfold minMantissa in *. nia. }
  destruct (pack_wf _ _ _ _ _ _ _ Hk HM Hp) as [-> | Np]; [auto |].
  assert (0 <= n) as Hn0 by (pose proof (pow10_pos k Hk); unfold minMantissa in *; lia).
  pose proof (pack_sign _ _ _ _ _ _ Hk Hn0 Hp) as Sp.
  rewrite div_unity in H by assumption.
  destruct (_ <? minExponent); injection H as <-; [split; [reflexivity | exact HN] |].
  assert (nonneg (mkNumber (mantissa_ p) (exponent_ p - 5))) as NZ.
  { unfold nonneg, number_ltb; cbn. unfold neg_number in Sp. rewrite Sp. cbn. now destruct (mantissa_ p =? 0), (0 <? mantissa_ p). }
  split; [exact NZ |]. revert HL. unfold number_ltb; cbn [mantissa_ exponent_].
  destruct (xorb _ _); [auto |]. destruct (mantissa_ v =? 0); [auto |]. destruct (mantissa_ p =? 0); [auto |].
  replace (exponent_ p - 5 <? exponent_ v) with (exponent_ p <? exponent_ v + 5) by lia.
  replace (exponent_ v <? exponent_ p - 5) with (exponent_ v + 5 <? exponent_ p) by lia. auto.
Qed.

(** ** Fees on the grid *)

(** A non-negative number not above a number of the grid, in units. *)
Lemma le_grid_units s x v z :
  normal z -> on_grid s x v -> number_ltb v z = false -> exponent_ z <= s ->
  mantissa_ z <= x * 10 ^ (s - exponent_ z).
Proof.
  intros Hz Hv HL He. set (e := Z.min (exponent_ z) (exponent_ v)).
  assert (~ value_lt v z) as NL
    by (rewrite <- number_ltb_value by (eauto using on_grid_wf || now right); congruence).
  rewrite (value_lt_at v z e) in NL by (unfold e; lia).
  rewrite (on_grid_at s x v e Hv) in NL by (unfold e; lia). unfold at_exponent in NL.
  pose proof (pow10_pos (exponent_ z - e) ltac:(unfold e; lia)).
  replace (s - e) with (s - exponent_ z + (exponent_ z - e)) in NL by ring.
  rewrite Z.pow_add_r, Z.mul_assoc in NL by (unfold e; lia). nia.
Qed.

(** Whole parts of such numbers. *)
Lemma round_whole_le md x v z w :
  wf z -> nonneg z -> on_grid 0 x v -> 0 <= x -> number_ltb v z = false -> round_whole md z = Ok w -> 0 <= w <= x.
Proof.
  intros Wz HN Hv Hx HL Hw. destruct Wz as [-> | Hz]; [injection Hw as <-; lia |].
  apply (nonneg_neg_number z (or_intror Hz)) in HN as SN.
  assert (Am : abs_mantissa z = mantissa_ z) by (unfold abs_mantissa, neg_number in *; apply Z.ltb_ge in SN; lia).
  unfold round_whole in Hw. destruct (_ || _); [injection Hw as <-; lia |].
  rewrite (to_rep_spec _ _ Hz), SN in Hw. change (sgn false) with 1 in Hw.
  destruct (Z.ltb_spec (exponent_ z) 0).
  - rewrite Z.mul_1_l, Am in Hw. injection Hw as <-.
    pose proof (le_grid_units 0 x v z Hz Hv HL ltac:(lia)) as LE. rewrite Z.sub_0_l in LE.
    pose proof (pow10_pos (- exponent_ z) ltac:(lia)). unfold abs_mantissa in Am.
    split; [apply round_quot_nonneg | apply round_quot_le]; lia.
  - destruct (_ <=? _); [| discriminate]. injection Hw as <-.
    assert (Z0 : exponent_ z = 0).
    { destruct (Z.eq_dec (exponent_ z) 0); [assumption | exfalso].
      destruct (coarse_above 0 x z v Hz ltac:(lia) Hv) as [_ E]. rewrite SN in E. cbn in E. congruence. }
    rewrite Z0, Z.pow_0_r, Z.mul_1_r.
    pose proof (le_grid_units 0 x v z Hz Hv HL ltac:(lia)) as LE. rewrite Z0 in LE.
    change (10 ^ (0 - 0)) with 1 in LE. unfold abs_mantissa in Am. lia.
Qed.

(** Rounding a non-negative number not above a number of the grid stays not above
    it, in every mode. *)
Lemma roundToAsset_le cfg asset s x v z md r :
  current cfg -> asset_scale asset s -> wf z -> nonneg z -> on_grid s x v -> 0 <= x ->
  number_ltb v z = false -> roundToAsset cfg asset z s md = Ok r ->
  exists g, on_grid s g r /\ 0 <= g <= x.
Proof.
  intros HC HS Hz HN Hv Hx HL H. pose proof (roundToAsset_multiple _ _ _ _ _ _ HC HS Hz H) as M.
  pose proof (roundToAsset_nonneg _ _ _ _ _ _ HC HS Hz HN H) as NR.
  assert (ZR : r = zero -> exists g, on_grid s g r /\ 0 <= g <= x).
  { intros ->. exists 0. split; [apply on_grid_zero | lia]. }
  destruct Hz as [-> | Hz].
  { apply ZR. unfold asset_scale in HS. destruct (asset_integral asset) eqn:HA.
    - rewrite (roundToAsset_integral cfg asset s zero md HC HA (or_introl eq_refl)) in H.
      cbn in H. destruct (_ <? _); [discriminate |]. now injection H as <-.
    - pose proof (roundToAsset_iou cfg asset s zero md HC HA HS (or_introl eq_refl)) as E.
      change (iou_maxExponent <? exponent_ zero) with false in E.
      change (exponent_ zero <? iou_minExponent) with true in E. cbv iota in E. congruence. }
  apply (nonneg_neg_number z (or_intror Hz)) in HN as SN.
  assert (Am : abs_mantissa z = mantissa_ z).
  { unfold abs_mantissa, neg_number in *. apply Z.ltb_ge in SN. lia. }
  assert (FL : forall k, 0 <= k -> mantissa_ z <= x * 10 ^ k ->
                 0 <= round_quot md false (abs_mantissa z) (10 ^ k) <= x).
  { intros k Hk Hm. pose proof (pow10_pos k Hk). unfold abs_mantissa in *.
    split; [apply round_quot_nonneg | apply round_quot_le]; lia. }
  unfold asset_scale in HS. destruct (asset_integral asset) eqn:HA.
  - subst s. rewrite (roundToAsset_integral cfg asset 0 z md HC HA (or_intror Hz)) in H.
    destruct (_ && _); [discriminate |]. apply bind_ok in H as (w & Hw & H).
    destruct (_ <? _); [discriminate |]. pose proof (round_whole_le md x v z w (or_intror Hz) HN Hv Hx HL Hw).
    pose proof (on_grid_bound 0 x v Hv).
    destruct (make_grid md w 0) as (r' & E & G); [lia | unfold grid_scale, minExponent, maxExponent; lia |].
    unfold of_rep in H. rewrite E in H. injection H as <-. eauto.
  - pose proof (roundToAsset_iou cfg asset s z md HC HA HS (or_intror Hz)) as E.
    destruct (_ <? _); [congruence |]. destruct (Z.ltb_spec (exponent_ z) iou_minExponent); [apply ZR; congruence |].
    destruct (Z.leb_spec s (exponent_ z)) as [L | L].
    + rewrite E in H. injection H as <-. exact (multiple_between s z x v M Hv HN HL).
    + destruct E as (r' & E & G). rewrite E in H. injection H as <-.
      exists (round_units md z s). split; [exact G |]. unfold round_units.
      rewrite SN. change (sgn false) with 1. rewrite Z.mul_1_l.
      apply FL; [lia | apply (le_grid_units s x v z Hz Hv HL); lia].
Qed.

(** The fee taken from a value of the grid. *)
Lemma computeFee_grid cfg asset s x v rate z :
  current cfg -> asset_scale asset s -> on_grid s x v -> 0 <= x -> 0 <= rate <= tenthBipsPerUnity ->
  computeFee cfg asset v rate s = Ok z -> exists g, on_grid s g z /\ 0 <= g <= x.
Proof.
  intros HC HS Hv Hx Hr H. unfold computeFee in H. apply bind_ok in H as (t & Ht & H).
  pose proof (on_grid_wf s x v Hv) as Wv.
  assert (NV : nonneg v) by now apply (nonneg_grid s x v Hv).
  destruct (tenthBipsOfValue_le cfg v rate t Wv NV Hr Ht) as [NT LT].
  assert (wf t) as Wt.
  { eapply tenthBipsOfValue_wf; [exact Wv | | exact Ht]. unfold word, tenthBipsPerUnity in *. lia. }
  exact (roundToAsset_le cfg asset s x v t downward z HC HS Wt NT Hv Hx LT H).
Qed.

(** ** The fee is computed without error *)

Lemma pack_returns md g neg n k e :
  e < maxExponent -> exists z, pack_with md g neg n k e = Ok z.
Proof.
  intros He. unfold pack_with. destruct (maxMantissa <? _);
    (destruct (_ <? minExponent); [eauto |]);
    match goal with |- context [maxExponent <? ?x] => destruct (Z.ltb_spec maxExponent x); [lia | eauto] end.
Qed.

Lemma tenthBipsOfValue_returns cfg v b :
  wf v -> exponent_ v < maxExponent - 17 -> 0 <= b <= tenthBipsPerUnity ->
  exists z, tenthBipsOfValue cfg v b = Ok z.
Proof.
  intros Hv He Hb. unfold tenthBipsOfValue. rewrite of_rep_unity.
  assert (exists p, (let* y := of_rep (round_mode cfg) b in number_mul (round_mode cfg) v y) = Ok p /\ wf p)
    as (p & E & Wp).
  { destruct (Z.eq_dec b 0) as [-> | Hb0].
    { exists zero. split; [| now left]. cbn. unfold number_mul. destruct Hv as [-> | Hv]; [reflexivity |].
      now rewrite normal_neq_zero by assumption. }
    destruct (of_rep_bips (round_mode cfg) b ltac:(lia)) as (y & -> & Ny & Sy & Ey & _). cbn [bind].
    destruct Hv as [-> | Hv]; [exists zero; split; [reflexivity | now left] |].
    pose proof (normal_abs_range v Hv) as Rv. pose proof (normal_abs_range y Ny) as Ry.
    destruct (scale_exists (abs_mantissa v * abs_mantissa y)) as (k & Hk & HM);
      [unfold minMantissa in *; nia |].
    rewrite (number_mul_pack _ v y k Hv Ny Hk HM).
    assert (k <= 17).
    { destruct (Z.le_gt_cases k 17); [assumption | exfalso].
      pose proof (Z.pow_le_mono_r 10 17 k ltac:(lia) ltac:(lia)) as HP.
      change (10 ^ 17) with 100000000000000000 in HP. unfold minMantissa, maxMantissa in *. nia. }
    destruct (pack_returns (round_mode cfg) (xorb (neg_number v) (neg_number y))
      (xorb (neg_number v) (neg_number y)) (abs_mantissa v * abs_mantissa y) k
      (exponent_ v + exponent_ y + k) ltac:(lia)) as (p & E).
    exists p. split; [exact E |]. exact (pack_wf _ _ _ _ _ _ _ Hk HM E). }
  destruct (of_rep (round_mode cfg) b) as [y |]; [| discriminate]. cbn [bind] in *. rewrite E. cbn [bind].
  destruct Wp as [-> | Np]; [eexists; reflexivity |]. rewrite div_unity by assumption.
  destruct (_ <? _); eauto.
Qed.

Lemma below_grid_exponent s x v z :
  grid_scale s -> wf z -> nonneg z -> on_grid s x v -> number_ltb v z = false -> exponent_ z <= s.
Proof.
  intros [HS _] [-> | Hz] HN Hv HL; [unfold zero, int_lowest, minExponent in *; cbn; lia |].
  destruct (Z.le_gt_cases (exponent_ z) s); [assumption | exfalso].
  destruct (coarse_above s x z v Hz ltac:(lia) Hv) as [_ E].
  rewrite (proj1 (nonneg_neg_number z (or_intror Hz)) HN) in E. cbn in E. congruence.
Qed.

(** A share of a number is computed and not above it. *)
Lemma tenthBips_below cfg v rate :
  wf v -> nonneg v -> exponent_ v <= 80 -> 0 <= rate <= tenthBipsPerUnity ->
  exists t, tenthBipsOfValue cfg v rate = Ok t /\ wf t /\ nonneg t /\ number_ltb v t = false.
Proof.
  intros Wv NV Ev Hr.
  destruct (tenthBipsOfValue_returns cfg v rate Wv ltac:(unfold maxExponent; lia) Hr) as (t & Ht).
  destruct (tenthBipsOfValue_le cfg v rate t Wv NV Hr Ht) as [NT LT]. exists t. splits; auto.
  eapply tenthBipsOfValue_wf; [exact Wv | | exact Ht]. unfold word, tenthBipsPerUnity in *. lia.
Qed.

Lemma computeFee_returns cfg asset s x v rate :
  current cfg -> asset_scale asset s -> on_grid s x v -> 0 <= x -> 0 <= rate <= tenthBipsPerUnity ->
  exists z g, computeFee cfg asset v rate s = Ok z /\ on_grid s g z /\ 0 <= g <= x.
Proof.
  intros HC HS Hv Hx Hr. pose proof (asset_scale_grid _ _ HS) as HG. pose proof (on_grid_wf s x v Hv) as Wv.
  assert (NV : nonneg v) by now apply (nonneg_grid s x v Hv).
  assert (NL : number_ltb v v = false) by (rewrite (grid_ltb s x x v v Hv Hv); apply Z.ltb_irrefl).
  pose proof (below_grid_exponent s x v v HG Wv NV Hv NL) as Ev.
  assert (s <= 80) as H80.
  { unfold asset_scale, iou_scale, iou_maxExponent in HS. destruct (asset_integral asset); lia. }
  destruct (tenthBips_below cfg v rate Wv NV ltac:(lia) Hr) as (t & Ht & Wt & NT & LT).
  pose proof (below_grid_exponent s x v t HG Wt NT Hv LT) as Et.
  destruct (roundToAsset_returns cfg asset s t downward HC HS Wt Et) as (z & Hz).
  assert (HF : computeFee cfg asset v rate s = Ok z) by (unfold computeFee; now rewrite Ht).
  destruct (computeFee_grid cfg asset s x v rate z HC HS Hv Hx Hr HF) as (g & Hg). exists z, g. tauto.
Qed.

(** ** Order *)

Lemma ltb_false_trans x y z :
  wf x -> wf y -> wf z -> number_ltb x y = false -> number_ltb y z = false -> number_ltb x z = false.
Proof.
  intros Wx Wy Wz H1 H2. destruct (number_ltb x z) eqn:E; [exfalso | reflexivity].
  apply number_ltb_value in E; auto.
  assert (~ value_lt x y) as N1 by (rewrite <- number_ltb_value by auto; congruence).
  assert (~ value_lt y z) as N2 by (rewrite <- number_ltb_value by auto; congruence).
  set (e := Z.min (exponent_ x) (Z.min (exponent_ y) (exponent_ z))).
  rewrite (value_lt_at x z e) in E by (unfold e; lia). rewrite (value_lt_at x y e) in N1 by (unfold e; lia).
  rewrite (value_lt_at y z e) in N2 by (unfold e; lia). lia.
Qed.

Lemma ltb_zero_nonneg x : number_ltb zero x = true -> nonneg x.
Proof.
  unfold nonneg, number_ltb. destruct x as [m e]. cbn [mantissa_ exponent_ zero].
  destruct (Z.ltb_spec m 0); [discriminate |]. cbn. destruct (Z.eqb_spec m 0) as [-> |]; reflexivity.
Qed.

(** ** Differences *)

Lemma round_sub_le md neg n d b : 0 < d -> n <= b * d -> round_sub md neg n d <= b.
Proof.
  intros Hd Hn. unfold round_sub. destruct md; try now apply round_quot_le.
  assert (- b <= - n / d); [apply Z.div_le_lower_bound |]; lia.
Qed.

Lemma sub_normal_le md x y z :
  normal x -> normal y -> 0 < mantissa_ x -> 0 < mantissa_ y -> ~ value_lt x y ->
  number_add md x (number_neg y) = Ok z -> wf z -> ~ value_lt x z.
Proof.
  intros Hx Hy Px Py NL HZ Wz. pose proof (normal_neg y Hy) as Hn.
  assert (NX : ~ value_lt x zero).
  { unfold value_lt. rewrite at_exponent_zero. unfold at_exponent.
    pose proof (pow10_pos (exponent_ x - low_exponent x zero) ltac:(unfold low_exponent; lia)). nia. }
  assert (low_exponent x (number_neg y) = low_exponent x y) as EL by reflexivity.
  assert (exact_sum x (number_neg y) = at_exponent x (low_exponent x y) - at_exponent y (low_exponent x y)) as ES
    by (unfold exact_sum; rewrite EL; unfold at_exponent; cbn [mantissa_ exponent_ number_neg]; ring).
  unfold value_lt in NL.
  destruct (Z.eq_dec (exact_sum x (number_neg y)) 0) as [E0 | NZ].
  { assert (x = y) as -> by (apply value_eq_wf; [now right | now right | unfold value_eq; lia]).
    unfold number_add in HZ. rewrite (normal_neq_zero _ Hn), (normal_neq_zero _ Hy) in HZ.
    replace (number_eqb y (number_neg (number_neg y))) with true in HZ; [congruence |].
    unfold number_eqb, number_neg; cbn [mantissa_ exponent_]. rewrite Z.opp_involutive, !Z.eqb_refl. reflexivity. }
  destruct (number_add_opposite md x (number_neg y) Hx Hn) as (j & k & Hj & Hk & He & HR & E); auto.
  { unfold neg_number; cbn [mantissa_ number_neg].
    destruct (Z.ltb_spec (mantissa_ x) 0), (Z.ltb_spec (- mantissa_ y) 0); reflexivity || lia. }
  rewrite E in HZ. clear E. rewrite EL in *. rewrite (Z.abs_eq (exact_sum _ _)) in HR, HZ by lia.
  rewrite (proj2 (Z.ltb_ge _ 0)) in HZ by lia. set (d := exact_sum _ _) in *.
  assert (exponent_ y <= exponent_ x) as Hxy.
  { destruct (Z.le_gt_cases (exponent_ y) (exponent_ x)); [assumption | exfalso].
    pose proof (exponent_dominates x y Hx Hy ltac:(lia)).
    assert (0 <= at_exponent y (low_exponent x y)); [| lia].
    apply Z.mul_nonneg_nonneg; [lia | apply Z.pow_nonneg; lia]. }
  cbn [exponent_ number_neg] in He. set (e := low_exponent x y - j + k) in *.
  pose proof (pow10_pos k Hk) as HP.
  assert (d * 10 ^ j <= mantissa_ x * 10 ^ (exponent_ x - e) * 10 ^ k) as HB.
  { assert (low_exponent x y <= exponent_ x) by (unfold low_exponent; lia).
    rewrite <- Z.mul_assoc, <- Z.pow_add_r by lia.
    replace (exponent_ x - e + k) with (exponent_ x - low_exponent x y + j) by (unfold e; ring).
    rewrite Z.pow_add_r, Z.mul_assoc by lia. apply Z.mul_le_mono_nonneg_r; [apply Z.pow_nonneg; lia |].
    assert (0 <= at_exponent y (low_exponent x y)); [| unfold d, at_exponent in *; lia].
    apply Z.mul_nonneg_nonneg; [lia | apply Z.pow_nonneg; lia]. }
  pose proof (round_sub_le md false _ _ _ HP HB) as HQ. unfold pack_sub in HZ.
  set (q := round_sub _ _ _ _) in *.
  assert (at_exponent x (e - 1) = mantissa_ x * 10 ^ (exponent_ x - e) * 10) as Ex.
  { unfold at_exponent. replace (exponent_ x - (e - 1)) with (exponent_ x - e + 1) by ring.
    rewrite pow10_succ by lia. ring. }
  destruct (q <? minMantissa); destruct (_ <? minExponent); injection HZ as <-; auto;
    rewrite (value_lt_at _ _ (e - 1)), Ex by (cbn [exponent_]; lia); unfold at_exponent; cbn [mantissa_ exponent_].
  - rewrite Z.sub_diag, Z.pow_0_r. lia.
  - replace (e - (e - 1)) with 1 by ring. rewrite Z.pow_1_r. lia.
Qed.

(** A difference of non-negative numbers is not above the first. *)
Lemma number_sub_le md x y z :
  wf x -> nonneg x -> wf y -> nonneg y -> number_ltb x y = false ->
  number_sub md x y = Ok z -> number_ltb x z = false.
Proof.
  intros Wx Nx Wy Ny HL HZ. pose proof (number_sub_wf md x y z Wx Wy HZ) as Wz.
  destruct (number_ltb x z) eqn:E; [exfalso | reflexivity]. apply number_ltb_value in E; auto.
  assert (NL : ~ value_lt x y) by (rewrite <- number_ltb_value by auto; congruence).
  destruct Wy as [-> | Hy].
  { assert (z = x) as -> by (unfold number_sub, number_add in HZ; cbn in HZ; congruence). unfold value_lt in E. lia. }
  apply (nonneg_neg_number y (or_intror Hy)) in Ny.
  assert (0 < mantissa_ y) as Py.
  { apply normal_abs_range in Hy. unfold neg_number, abs_mantissa, minMantissa in *. zbool. lia. }
  destruct Wx as [-> | Hx].
  { apply NL. unfold value_lt. rewrite at_exponent_zero. unfold at_exponent.
    pose proof (pow10_pos (exponent_ y - low_exponent zero y) ltac:(unfold low_exponent; lia)). nia. }
  apply (nonneg_neg_number x (or_intror Hx)) in Nx.
  revert E. apply (sub_normal_le md x y z); auto.
  apply normal_abs_range in Hx. unfold neg_number, abs_mantissa, minMantissa in *. zbool. lia.
Qed.

Lemma round_sub_nonneg md neg n d : 0 < d -> 0 <= n -> 0 <= round_sub md neg n d.
Proof.
  intros Hd Hn. unfold round_sub. destruct md; try now apply round_quot_nonneg.
  assert (- n / d <= 0); [apply Z.div_le_upper_bound |]; lia.
Qed.

Lemma ltb_zero_nonpos z : mantissa_ z <= 0 -> number_ltb zero z = false.
Proof.
  unfold number_ltb; cbn [mantissa_ zero]. rewrite Z.ltb_irrefl, Z.eqb_refl. intros.
  destruct (Z.ltb_spec (mantissa_ z) 0); cbn; [reflexivity |]. lia.
Qed.

(** The difference with a larger number is not positive. *)
Lemma number_sub_nonpos md x y z :
  wf x -> nonneg x -> wf y -> number_ltb x y = true -> number_sub md x y = Ok z -> number_ltb zero z = false.
Proof.
  intros Wx Nx Wy HL HZ. apply ltb_zero_nonpos.
  apply (number_ltb_value x y Wx Wy) in HL. apply (nonneg_neg_number x Wx) in Nx.
  unfold neg_number in Nx. zbool.
  assert (0 <= at_exponent x (low_exponent x y)) as Px
    by (apply Z.mul_nonneg_nonneg; [lia | apply Z.pow_nonneg; lia]).
  unfold value_lt in HL.
  destruct Wy as [-> | Hy]; [rewrite at_exponent_zero in HL; lia |].
  pose proof (normal_neg y Hy) as Hn.
  assert (0 < mantissa_ y) as Py.
  { pose proof (at_exponent_sign y (low_exponent x y) ltac:(unfold low_exponent; lia)). lia. }
  destruct Wx as [-> | Hx].
  { unfold number_sub, number_add in HZ. rewrite (normal_neq_zero _ Hn) in HZ. cbn in HZ.
    injection HZ as <-. cbn. lia. }
  assert (exact_sum x (number_neg y) = at_exponent x (low_exponent x y) - at_exponent y (low_exponent x y)) as ES.
  { unfold exact_sum. change (low_exponent x (number_neg y)) with (low_exponent x y).
    unfold at_exponent; cbn [mantissa_ exponent_ number_neg]; ring. }
  destruct (number_add_opposite md x (number_neg y) Hx Hn) as (j & k & Hj & Hk & _ & HR & E); [| lia |].
  { unfold neg_number; cbn [mantissa_ number_neg].
    destruct (Z.ltb_spec (mantissa_ x) 0), (Z.ltb_spec (- mantissa_ y) 0); reflexivity || lia. }
  unfold number_sub in HZ. rewrite E in HZ. rewrite (proj2 (Z.ltb_lt _ 0)) in HZ by lia.
  pose proof (pow10_pos k Hk) as HP. unfold pack_sub in HZ.
  pose proof (round_sub_nonneg md true (Z.abs (exact_sum x (number_neg y)) * 10 ^ j) (10 ^ k) HP) as HQ.
  destruct (_ <? minMantissa); destruct (_ <? minExponent); injection HZ as <-; cbn; try lia;
    assert (0 <= Z.abs (exact_sum x (number_neg y)) * 10 ^ j) by (apply Z.mul_nonneg_nonneg; [lia | apply Z.pow_nonneg; lia]);
    specialize (HQ H); lia.
Qed.
