(* ===== verification/NumberRatios.v ===== *)
(** * Ratios of numbers

    A part is no more than the whole, also after rounding: [x / y] for [x <= y] is at
    most one, and a product with it is at most the other factor. *)

From Stdlib Require Import ZArith Lia Bool.
From S2P Require Import Prelude.
From S2P Require Import XrplNumber.
From S2P Require Import XrplNumberFacts.
From S2P Require Import XrplNumberCorrect.
From S2P Require Import XrplNumberAdd.
From S2P Require Import XrplNumberGrid.
From S2P Require Import XrplNumberProps.
From S2P Require Import XrplNumberMultiple.
From S2P Require Import Amounts.
From S2P Require Import AmountsRound.
From S2P Require Import Lending.
From S2P Require Import LendingFacts.

Open Scope Z_scope.

Lemma nonneg_pos x : normal x -> nonneg x -> 0 < mantissa_ x /\ abs_mantissa x = mantissa_ x /\ neg_number x = false.
Proof.
  intros Hx Nx. apply (nonneg_neg_number x (or_intror Hx)) in Nx. pose proof (normal_abs_range x Hx) as R.
  unfold neg_number, abs_mantissa, minMantissa in *. splits; [| | exact Nx]; apply Z.ltb_ge in Nx; lia.
Qed.

Lemma normal_one : normal one.
Proof. now destruct one_wf as [E | H]; [vm_compute in E |]. Qed.

(** The order in mantissas. *)
Lemma ltb_false_mantissas x y :
  normal x -> normal y -> nonneg x -> nonneg y -> number_ltb y x = false ->
  exponent_ x <= exponent_ y /\ mantissa_ x <= mantissa_ y * 10 ^ (exponent_ y - exponent_ x).
Proof.
  intros Hx Hy Nx Ny HL. destruct (nonneg_pos x Hx Nx) as (Px & _). destruct (nonneg_pos y Hy Ny) as (Py & _).
  assert (~ value_lt y x) as NL by (rewrite <- number_ltb_value by (now right); congruence).
  assert (exponent_ x <= exponent_ y) as He.
  { destruct (Z.le_gt_cases (exponent_ x) (exponent_ y)); [assumption | exfalso]. apply NL.
    pose proof (exponent_dominates y x Hy Hx ltac:(lia)) as D. unfold value_lt, at_exponent in *.
    rewrite !Z.abs_mul, (Z.abs_eq (mantissa_ x)), (Z.abs_eq (mantissa_ y)), !Z.abs_pow in D by lia. exact D. }
  split; [exact He |]. rewrite (value_lt_at y x (exponent_ x)) in NL by lia. unfold at_exponent in NL.
  rewrite Z.sub_diag, Z.pow_0_r in NL. lia.
Qed.

Lemma number_div_le_one md x y z :
  normal x -> normal y -> nonneg x -> nonneg y -> number_ltb y x = false ->
  number_div md x y = Ok z -> wf z /\ nonneg z /\ number_ltb one z = false.
Proof.
  intros Hx Hy Nx Ny HL HZ. destruct (ltb_false_mantissas x y Hx Hy Nx Ny HL) as [He Hm].
  destruct (nonneg_pos x Hx Nx) as (Px & Ax & Sx). destruct (nonneg_pos y Hy Ny) as (Py & Ay & Sy).
  assert (wf z) as Wz by (eapply number_div_wf; [right; exact Hx | right; exact Hy | exact HZ]).
  split; [exact Wz |]. destruct (number_div_pack md x y Hx Hy) as (k & Hk & HR & E).
  rewrite E, Sx, Sy in HZ. cbn [xorb] in HZ. rewrite Ax, Ay in *.
  destruct (_ <? minExponent); [injection HZ as <-; split; reflexivity |].
  assert (0 <= mantissa_ x * 100000000000000000 / mantissa_ y) as Hq by (apply Z.div_pos; lia).
  split; [apply (nonneg_neg_number z Wz); eapply pack_sign; [| exact Hq | exact HZ]; lia |].
  eapply (pack_le md false _ k _ 1000000000000000 (-15)); [lia | exact HR | | | | exact HZ].
  - unfold minMantissa, maxMantissa. lia.
  - lia.
  - replace (-15 - (exponent_ x - exponent_ y - 17 + k - k)) with (exponent_ y - exponent_ x + 2) by ring.
    rewrite Z.pow_add_r by lia. change (10 ^ 2) with 100.
    apply Z.div_le_upper_bound; [lia |]. nia.
Qed.

Lemma number_mul_le md x y z :
  wf x -> nonneg x -> wf y -> nonneg y -> number_ltb one y = false ->
  number_mul md x y = Ok z -> wf z /\ nonneg z /\ number_ltb x z = false.
Proof.
  intros Wx Nx Wy Ny HL HZ. pose proof (number_mul_wf md x y z Wx Wy HZ) as Wz. split; [exact Wz |].
  assert (number_ltb x zero = false) as HX by exact Nx.
  destruct Wx as [-> | Hx]; [injection HZ as <-; split; reflexivity |].
  destruct Wy as [-> | Hy].
  { unfold number_mul in HZ. rewrite (normal_neq_zero x Hx) in HZ. injection HZ as <-. split; [reflexivity | exact HX]. }
  pose proof normal_one as H1.
  destruct (ltb_false_mantissas y one Hy H1 Ny eq_refl HL) as [He Hm].
  change (exponent_ one) with (-15) in *. change (mantissa_ one) with 1000000000000000 in *.
  destruct (nonneg_pos x Hx Nx) as (Px & Ax & Sx). destruct (nonneg_pos y Hy Ny) as (Py & Ay & Sy).
  pose proof (normal_abs_range x Hx) as Rx. pose proof (normal_abs_range y Hy) as Ry.
  destruct (scale_exists (abs_mantissa x * abs_mantissa y)) as (k & Hk & HM);
    [unfold minMantissa, maxMantissa in *; nia |].
  rewrite (number_mul_pack md x y k Hx Hy Hk HM), Sx, Sy in HZ. cbn [xorb] in HZ. rewrite Ax, Ay in *.
  split; [apply (nonneg_neg_number z Wz);
    apply (pack_sign md false _ k _ z Hk (Z.mul_nonneg_nonneg _ _ (Z.lt_le_incl _ _ Px) (Z.lt_le_incl _ _ Py)) HZ) |].
  replace x with (mkNumber (mantissa_ x) (exponent_ x)) by now destruct x.
  apply (pack_le md false (mantissa_ x * mantissa_ y) k (exponent_ x + exponent_ y + k)); [exact Hk | exact HM | exact Rx | lia | | exact HZ].
  replace (exponent_ x - (exponent_ x + exponent_ y + k - k)) with (-15 - exponent_ y + 15) by ring.
  rewrite Z.pow_add_r by lia. change (10 ^ 15) with 1000000000000000. nia.
Qed.

Lemma number_div_self md x : normal x -> nonneg x -> number_div md x x = Ok one.
Proof.
  intros Hx Nx. destruct (nonneg_pos x Hx Nx) as (Px & Ax & Sx).
  destruct (number_div_pack md x x Hx Hx) as (k & Hk & HR & ->). rewrite Sx, Ax in *. cbn [xorb].
  rewrite (Z.mul_comm (mantissa_ x)), Z.div_mul in * by lia.
  assert (k = 2) as ->.
  { destruct (Z.eq_dec k 1) as [-> |]; [| lia]. change (10 ^ 1) with 10 in HR. unfold maxMantissa in HR. lia. }
  replace (exponent_ x - exponent_ x - 17 + 2) with (-15) by ring.
  destruct md; vm_compute; reflexivity.
Qed.

(** A product with one or minus one is exact. *)
Lemma number_mul_unit md x (neg : bool) :
  wf x -> number_mul md x (if neg then number_neg one else one) = Ok (if neg then number_neg x else x).
Proof.
  intros [-> | Hx]; [now destruct neg |]. pose proof normal_one as H1.
  set (u := if neg then number_neg one else one).
  assert (normal u) as Hu by (unfold u; destruct neg; [apply normal_neg |]; exact H1).
  assert (abs_mantissa u = 1000000000000000 /\ exponent_ u = -15 /\ neg_number u = neg) as (Au & Eu & Nu)
    by (unfold u; destruct neg; repeat split; reflexivity).
  pose proof (normal_abs_range x Hx) as Rx. unfold minMantissa, maxMantissa in *.
  rewrite (number_mul_pack md x u 15 Hx Hu); [| lia |].
  2: { rewrite Au. change (10 ^ 15) with 1000000000000000. unfold minMantissa, maxMantissa. lia. }
  rewrite Au, Eu, Nu. unfold pack, pack_with. change (10 ^ 15) with 1000000000000000.
  rewrite round_quot_exact by lia. destruct Hx as [_ Hx].
  replace (exponent_ x + -15 + 15) with (exponent_ x) by ring. unfold maxMantissa.
  destruct (Z.ltb_spec 9999999999999999 (abs_mantissa x)); [lia |].
  destruct (Z.ltb_spec (exponent_ x) minExponent); [lia |]. destruct (Z.ltb_spec maxExponent (exponent_ x)); [lia |].
  unfold neg_number, abs_mantissa, number_neg in *. destruct x as [m e]. cbn [mantissa_ exponent_] in *.
  destruct (Z.ltb_spec m 0), neg; cbn [xorb]; do 2 f_equal; lia.
Qed.

Lemma number_mul_one md x : wf x -> number_mul md x one = Ok x.
Proof. apply (number_mul_unit md x false). Qed.

Lemma of_rep_unit md (neg : bool) : of_rep md (if neg then -1 else 1) = Ok (if neg then number_neg one else one).
Proof. destruct md, neg; vm_compute; reflexivity. Qed.

(** ** Sign *)

Lemma number_div_nonneg md x y z :
  wf x -> nonneg x -> wf y -> nonneg y -> number_div md x y = Ok z -> wf z /\ nonneg z.
Proof.
  intros Wx Nx Wy Ny HZ. pose proof (number_div_wf md x y z Wx Wy HZ) as Wz. split; [exact Wz |].
  destruct Wy as [-> | Hy]; [discriminate |].
  destruct Wx as [-> | Hx].
  { unfold number_div in HZ. rewrite (normal_neq_zero y Hy) in HZ. injection HZ as <-. reflexivity. }
  destruct (nonneg_pos x Hx Nx) as (Px & Ax & Sx). destruct (nonneg_pos y Hy Ny) as (Py & Ay & Sy).
  destruct (number_div_pack md x y Hx Hy) as (k & Hk & HR & E).
  rewrite E, Sx, Sy, Ax, Ay in HZ. cbn [xorb] in HZ.
  destruct (_ <? minExponent); [injection HZ as <-; reflexivity |].
  apply (nonneg_neg_number z Wz). eapply pack_sign; [| | exact HZ]; [lia |]. apply Z.div_pos; lia.
Qed.

Lemma number_mul_nonneg md x y z :
  wf x -> nonneg x -> wf y -> nonneg y -> number_mul md x y = Ok z -> wf z /\ nonneg z.
Proof.
  intros Wx Nx Wy Ny HZ. pose proof (number_mul_wf md x y z Wx Wy HZ) as Wz. split; [exact Wz |].
  destruct Wx as [-> | Hx]; [injection HZ as <-; reflexivity |].
  destruct Wy as [-> | Hy].
  { unfold number_mul in HZ. rewrite (normal_neq_zero x Hx) in HZ. injection HZ as <-. reflexivity. }
  destruct (nonneg_pos x Hx Nx) as (Px & Ax & Sx). destruct (nonneg_pos y Hy Ny) as (Py & Ay & Sy).
  pose proof (normal_abs_range x Hx) as Rx. pose proof (normal_abs_range y Hy) as Ry.
  destruct (scale_exists (abs_mantissa x * abs_mantissa y)) as (k & Hk & HM);
    [unfold minMantissa, maxMantissa in *; nia |].
  rewrite (number_mul_pack md x y k Hx Hy Hk HM), Sx, Sy, Ax, Ay in HZ. cbn [xorb] in HZ.
  apply (nonneg_neg_number z Wz). refine (pack_sign md false (mantissa_ x * mantissa_ y) k _ z Hk _ HZ). nia.
Qed.

(** ** Truncation *)

Lemma truncate_loop_quot n m :
  0 <= m ->
  exists e, truncate_loop n m (- Z.of_nat n) = (m / 10 ^ Z.of_nat n, e) /\ e <= 0 /\ (m / 10 ^ Z.of_nat n <> 0 -> e = 0).
Proof.
  revert m. induction n as [| n IH]; intros m Hm.
  { exists 0. cbn. rewrite Z.div_1_r. repeat split; lia. }
  rewrite Nat2Z.inj_succ. cbn [truncate_loop].
  destruct (Z.ltb_spec (- Z.succ (Z.of_nat n)) 0); [| lia]. destruct (Z.eqb_spec m 0) as [-> |]; cbn [negb andb].
  - exists (- Z.succ (Z.of_nat n)). rewrite Z.div_0_l by (apply Z.pow_nonzero; lia). repeat split; lia.
  - replace (- Z.succ (Z.of_nat n) + 1) with (- Z.of_nat n) by lia.
    rewrite Z.quot_div_nonneg, Z.pow_succ_r, <- Z.div_div by (lia || apply pow10_pos; lia).
    apply IH, Z.div_pos; lia.
Qed.

(** Truncation of a number that is not whole gives the whole number below it. *)
Lemma truncate_below md x :
  wf x -> nonneg x ->
  exists z, truncate md x = Ok z /\ wf z /\ nonneg z /\
    (exponent_ x < 0 -> on_grid 0 (mantissa_ x / 10 ^ (- exponent_ x)) z).
Proof.
  intros Wx Nx. unfold truncate. destruct (Z.leb_spec 0 (exponent_ x)).
  { exists x. repeat split; auto. lia. }
  destruct (Z.eqb_spec (mantissa_ x) 0) as [E |]; cbn [orb].
  { exists x. repeat split; auto. intros _. rewrite E, Z.div_0_l by (apply Z.pow_nonzero; lia).
    destruct Wx as [-> | Hx]; [apply on_grid_zero |].
    pose proof (normal_abs_range x Hx) as R. unfold abs_mantissa, minMantissa in R. lia. }
  assert (normal x) as Hx by (destruct Wx as [-> |]; [now cbn in * | assumption]).
  destruct (nonneg_pos x Hx Nx) as (Px & Ax & _). pose proof (normal_abs_range x Hx) as R. rewrite Ax in R.
  destruct (truncate_loop_quot (Z.to_nat (- exponent_ x)) (mantissa_ x)) as (e & E & He & Hq); [lia |].
  rewrite Z2Nat.id in * by lia. rewrite Z.opp_involutive in E. rewrite E.
  set (q := mantissa_ x / 10 ^ (- exponent_ x)) in *.
  assert (0 <= q <= maxMantissa) as Rq.
  { split; [apply Z.div_pos; [lia | apply pow10_pos; lia] |].
    apply Z.div_le_upper_bound; [apply pow10_pos; lia |]. pose proof (pow10_pos (- exponent_ x) ltac:(lia)). nia. }
  destruct (Z.eq_dec q 0) as [-> | Q0].
  { exists zero. repeat split; auto using on_grid_zero. now left. }
  rewrite (Hq Q0). destruct (make_grid md q 0) as (z & Ez & Gz);
    [lia | unfold grid_scale, minExponent, maxExponent; lia |].
  exists z. repeat split; [exact Ez | eapply on_grid_wf; exact Gz | apply (nonneg_grid 0 q); [exact Gz | lia] | auto].
Qed.

Lemma of_rep_exponent md w z : maxMantissa < w < 2 ^ 63 -> of_rep md w = Ok z -> normal z /\ 0 < exponent_ z.
Proof.
  intros Hw Hz. assert (0 < w) as W0 by (unfold maxMantissa in *; lia).
  assert (wf z) as Wz by (eapply multiple_wf, of_rep_multiple; [| exact Hz]; unfold maxMantissa in *; lia).
  destruct (scale_exists (Z.abs w)) as (k & Hk & HM); [unfold minMantissa, maxMantissa in *; lia |].
  assert (0 < k) as K0.
  { destruct (Z.eq_dec k 0) as [-> |]; [| lia]. rewrite Z.pow_0_r in HM. lia. }
  unfold of_rep, make in Hz. rewrite (normalize_large md w 0 k) in Hz by (unfold maxMantissa in *; lia || assumption).
  destruct (Z.ltb_spec (0 + k) minExponent); [unfold minExponent in *; lia |].
  destruct (Z.ltb_spec w 0); [lia |]. unfold pack, pack_with in Hz.
  pose proof (round_quot_nonneg md false (Z.abs w) (10 ^ k) (pow10_pos k Hk) ltac:(lia)).
  assert (0 < exponent_ z) as Ez.
  { destruct (maxMantissa <? _).
    - destruct (Z.ltb_spec (0 + k + 1) minExponent); [unfold minExponent in *; lia |].
      destruct (maxExponent <? _); [discriminate | injection Hz as <-; cbn [exponent_]; lia].
    - destruct (Z.ltb_spec (0 + k) minExponent); [unfold minExponent in *; lia |].
      destruct (maxExponent <? _); [discriminate | injection Hz as <-; cbn [exponent_]; lia]. }
  split; [| exact Ez]. destruct Wz as [-> |]; [vm_compute in Ez; discriminate | assumption].
Qed.

(** A whole number that is no more than a number of the grid after conversion is no more
    than it before. *)
Lemma of_rep_le_grid md w z n a :
  0 <= w < 2 ^ 63 -> 0 <= n -> of_rep md w = Ok z -> on_grid 0 n a -> number_ltb a z = false -> w <= n.
Proof.
  intros Hw Hn Hz Ha HL. destruct (Z.le_gt_cases w maxMantissa) as [L | L].
  { destruct (make_grid md w 0) as (z' & E & Gz); [lia | unfold grid_scale, minExponent, maxExponent; lia |].
    unfold of_rep in Hz. rewrite E in Hz. injection Hz as <-.
    rewrite (grid_ltb 0 n w a z' Ha Gz) in HL. now apply Z.ltb_ge in HL. }
  exfalso. destruct (of_rep_exponent md w z (conj L (proj2 Hw)) Hz) as [Hzn Ez].
  pose proof (of_rep_nonneg md w z Hw Hz) as Nz.
  destruct (on_grid_wf 0 n a Ha) as [-> | Hna].
  - destruct (nonneg_pos z Hzn Nz) as (Pz & _). unfold number_ltb in HL. cbn [zero mantissa_] in HL.
    destruct (Z.ltb_spec (mantissa_ z) 0); [lia |]. cbn in HL. apply Z.ltb_ge in HL. lia.
  - assert (nonneg a) as Na by (apply (nonneg_grid 0 n); [exact Ha | lia]).
    destruct (ltb_false_mantissas z a Hzn Hna Nz Na HL) as [He _].
    destruct Ha as [[_ ->] | (_ & He' & _)]; [vm_compute in Hna; intuition congruence | lia].
Qed.

Lemma of_rep_pos md w : 0 < w < 2 ^ 63 -> exists z, of_rep md w = Ok z /\ normal z /\ nonneg z.
Proof.
  intros Hw. enough (exists z, of_rep md w = Ok z /\ normal z) as (z & E & N)
    by (exists z; repeat split; [exact E | apply N | apply N | apply N | apply N | eapply of_rep_nonneg; [| exact E]; lia]).
  destruct (Z.le_gt_cases w maxMantissa) as [L | L].
  - destruct (make_grid md w 0) as (z & E & Gz); [lia | unfold grid_scale, minExponent, maxExponent; lia |].
    exists z. split; [exact E |]. destruct Gz as [[-> _] | [N _]]; [lia | exact N].
  - destruct (scale_exists (Z.abs w)) as (k & Hk & HM); [unfold minMantissa, maxMantissa in *; lia |].
    assert (exists z, of_rep md w = Ok z) as [z E];
      [| exists z; split; [exact E | now apply (of_rep_exponent md w z (conj L (proj2 Hw)))]].
    unfold of_rep, make. rewrite (normalize_large md w 0 k) by (lia || assumption).
    destruct (_ <? minExponent); [eauto |]. apply pack_returns.
    destruct (Z.lt_ge_cases (0 + k) maxExponent); [assumption | exfalso].
    assert (10 ^ 19 <= 10 ^ k) by (apply Z.pow_le_mono_r; unfold maxExponent in *; lia).
    change (10 ^ 19) with 10000000000000000000 in *. unfold minMantissa in HM. lia.
Qed.
