(* ===== verification/LendingSpec.v ===== *)
(** * Abstract specification of loan payments

    A loan as integers: what is outstanding, in units of the loan's scale, and
    the number of payments left.  A payment is a split into principal, interest
    and fee.  The step relation says what every regular payment may do; the
    theorems about sequences of steps are by rule induction, and the loan
    functions are shown to implement the relation in [LendingRefine]. *)

From Stdlib Require Import ZArith Lia Bool.
From S2P Require Import Prelude.
From S2P Require Import XrplNumber.

Open Scope Z_scope.

Record Units : Set := mkUnits {
  u_total : Z;
  u_principal : Z;
  u_fee : Z;
  u_remaining : Z
}.

Record Split : Set := mkSplit {
  sp_principal : Z;
  sp_interest : Z;
  sp_fee : Z
}.

Definition split_zero : Split := mkSplit 0 0 0.

Definition split_add (a b : Split) : Split :=
  mkSplit (sp_principal a + sp_principal b) (sp_interest a + sp_interest b) (sp_fee a + sp_fee b).

Definition split_sum (a : Split) : Z := sp_principal a + sp_interest a + sp_fee a.

Definition split_nonneg (a : Split) : Prop :=
  0 <= sp_principal a /\ 0 <= sp_interest a /\ 0 <= sp_fee a.

(** What a borrower can still be asked to pay. *)
Definition exposure (u : Units) : Z := Z.max (u_total u) (u_principal u) + u_fee u.

(** The invariant of a loan. *)
Record units_ok (u : Units) : Prop := {
  ok_principal : 0 <= u_principal u;
  ok_fee : 0 <= u_fee u;
  ok_exposure : exposure u <= maxMantissa;
  ok_deficit : - maxMantissa <= u_total u - u_principal u - u_fee u
}.

(** One regular payment.  A payment that is not the last takes no more
    principal and fee than is outstanding, no more interest than is owed, and
    does not pay the loan off; the last one pays everything. *)
Inductive pay_step : Units -> Split -> Units -> Prop :=
| pay_regular t p f n vp vi vf :
    1 < n -> 0 <= vp <= p -> 0 <= vi <= Z.max 0 (t - p) -> 0 <= vf <= f ->
    (p <= t -> vp + vi + vf < t) ->
    pay_step (mkUnits t p f n) (mkSplit vp vi vf)
      (mkUnits (t - (vp + vi + vf)) (p - vp) (f - vf) (n - 1))
| pay_final t p f n :
    1 <= n -> 0 <= p -> 0 <= f ->
    pay_step (mkUnits t p f n) (mkSplit p (Z.max 0 (t - p - f)) f) (mkUnits 0 0 0 0).

(** [k] payments and their total. *)
Inductive pay_steps : nat -> Units -> Split -> Units -> Prop :=
| pay_none u : pay_steps 0 u split_zero u
| pay_more k u a v b w :
    pay_step u a v -> pay_steps k v b w -> pay_steps (S k) u (split_add a b) w.

(** ** One step *)

Lemma pay_step_nonneg u a v : pay_step u a v -> split_nonneg a.
Proof. intros H. inv H; unfold split_nonneg; cbn; lia. Qed.

Lemma pay_step_ok u a v : pay_step u a v -> units_ok u -> units_ok v.
Proof.
  intros H [O1 O2 O3 O4]. inv H; cbn in *; constructor; unfold exposure, maxMantissa in *; cbn in *; lia.
Qed.

Lemma pay_step_exposure u a v : pay_step u a v -> split_sum a + exposure v <= exposure u.
Proof. intros H. inv H; unfold exposure, split_sum; cbn; lia. Qed.

Lemma pay_step_remaining u a v : pay_step u a v -> 0 <= u_remaining v < u_remaining u.
Proof. intros H. inv H; cbn; lia. Qed.

(** ** Sequences *)

Lemma split_add_0_l a : split_add split_zero a = a.
Proof. now destruct a. Qed.

Lemma split_add_comm a b : split_add a b = split_add b a.
Proof. unfold split_add; f_equal; ring. Qed.

Lemma split_add_assoc a b c : split_add (split_add a b) c = split_add a (split_add b c).
Proof. unfold split_add; cbn; f_equal; ring. Qed.

Lemma split_sum_add a b : split_sum (split_add a b) = split_sum a + split_sum b.
Proof. unfold split_sum, split_add; cbn; ring. Qed.

Lemma pay_steps_ok k u a v : pay_steps k u a v -> units_ok u -> units_ok v.
Proof. induction 1; eauto using pay_step_ok. Qed.

(** Principal and fee are conserved, interest is never refunded, and the total
    paid is covered by the exposure. *)
Lemma pay_steps_conserve k u a v :
  pay_steps k u a v ->
  split_nonneg a /\
  sp_principal a = u_principal u - u_principal v /\
  sp_fee a = u_fee u - u_fee v /\
  split_sum a + exposure v <= exposure u.
Proof.
  induction 1 as [u | k u a v b w H _ (N & E1 & E2 & E3)].
  - unfold split_nonneg, split_sum, split_zero; cbn. lia.
  - pose proof (pay_step_nonneg _ _ _ H) as N'. pose proof (pay_step_exposure _ _ _ H).
    rewrite split_sum_add. inv H; unfold split_nonneg in *; cbn in *; lia.
Qed.

(** Each payment uses up at least one of the remaining ones. *)
Lemma pay_steps_count k u a v :
  pay_steps k u a v -> 0 <= u_remaining u ->
  0 <= u_remaining v /\ u_remaining v + Z.of_nat k <= u_remaining u.
Proof.
  induction 1 as [u | k u a v b w H _ IH]; intros Hu; [lia |].
  pose proof (pay_step_remaining _ _ _ H). lia.
Qed.

(** While the loan is not paid off, its total value falls by exactly what is
    paid. *)
Lemma pay_steps_total k u a v :
  pay_steps k u a v -> 0 < u_remaining v -> u_total u - u_total v = split_sum a.
Proof.
  induction 1 as [u | k u a v b w H Hs IH]; intros Hw; [unfold split_sum; cbn; lia |].
  rewrite split_sum_add, <- IH by assumption.
  inv H; unfold split_sum; cbn; [lia |].
  inv Hs; [cbn in Hw; lia |]. match goal with H : pay_step (mkUnits 0 0 0 0) _ _ |- _ => inv H end; lia.
Qed.
