(* ===== verification/LendingRefine.v ===== *)
(** * The loan functions implement the abstract payments

    A [Loan] object represents a [Units] state when its outstanding values lie
    on the grid of its scale.  Computing and applying a regular payment is a
    [pay_step], the payment loop a sequence of them, and the parts returned are
    exactly the split of the step plus the service fees.

    ** Transactions of regular payments

    What [loanMakePayment] does when the payment is in time and no overpayment is
    allowed: a sequence of steps of the abstract loan. *)

From S2P Require Import Prelude.
From S2P Require Import Ter.
From S2P Require Import XrplNumber.
From S2P Require Import XrplNumberFacts.
From S2P Require Import XrplNumberCorrect.
From S2P Require Import XrplNumberAdd.
From S2P Require Import XrplNumberGrid.
From S2P Require Import XrplNumberProps.
From S2P Require Import XrplNumberMultiple.
From S2P Require Import Amounts.
From S2P Require Import AmountsFacts.
From S2P Require Import AmountsRound.
From S2P Require Import Lending.
From S2P Require Import LendingFacts.
From S2P Require Import LendingSpec.
From Stdlib Require Import ZArith Lia Bool.

Open Scope Z_scope.

(** The terms of a loan that payments do not change, and what the code relies
    on about them: widths, a scale of the asset, a service fee [sf] rounded to
    it, a non-negative periodic payment. *)
Record loan_terms (asset : Asset) (l : Loan) (sf : Z) : Prop := {
  terms_scale : asset_scale asset (sfLoanScale l);
  terms_rate : word (sfInterestRate l);
  terms_interval : word (sfPaymentInterval l);
  terms_service : on_grid (sfLoanScale l) sf (sfLoanServiceFee l);
  terms_service_nonneg : 0 <= sf
}.

Record represents (l : Loan) (u : Units) : Prop := {
  rep_total : on_grid (sfLoanScale l) (u_total u) (sfTotalValueOutstanding l);
  rep_principal : on_grid (sfLoanScale l) (u_principal u) (sfPrincipalOutstanding l);
  rep_fee : on_grid (sfLoanScale l) (u_fee u) (sfManagementFeeOutstanding l);
  rep_remaining : sfPaymentRemaining l = u_remaining u;
  rep_word : word (u_remaining u)
}.

(** The parts of a payment, as units. *)
Record parts_are (s : Z) (parts : LoanPaymentParts) (a : Split) (fees : Z) : Prop := {
  parts_principal : on_grid s (sp_principal a) (principalPaid parts);
  parts_interest : on_grid s (sp_interest a) (interestPaid parts);
  parts_value : valueChange parts = zero;
  parts_fee : on_grid s (sp_fee a + fees) (feePaid parts)
}.

(** The fields a payment leaves alone. *)
Definition same_terms (l l' : Loan) : Prop :=
  sfLoanScale l' = sfLoanScale l /\ sfLoanServiceFee l' = sfLoanServiceFee l /\
  sfInterestRate l' = sfInterestRate l /\ sfPaymentInterval l' = sfPaymentInterval l.

Lemma same_terms_refl l : same_terms l l.
Proof. repeat split. Qed.

Lemma same_terms_trans l1 l2 l3 : same_terms l1 l2 -> same_terms l2 l3 -> same_terms l1 l3.
Proof. unfold same_terms. intuition congruence. Qed.

Lemma loan_terms_same asset l l' sf : same_terms l l' -> loan_terms asset l sf -> loan_terms asset l' sf.
Proof. intros (E1 & E2 & E3 & E4) []. constructor; rewrite ?E1, ?E2, ?E3, ?E4; assumption. Qed.

(** Reduce the projections of the abstract records. *)
Ltac units_cbn :=
  cbn [u_total u_principal u_fee u_remaining sp_principal sp_interest sp_fee] in *.

Section Refine.

Context (cfg : Settings) (HC : current cfg) (asset : Asset).

(** ** Components of a regular payment *)

(** The split a set of components stands for. *)
Record components_are (s : Z) (c : PaymentComponents) (a : Split) : Prop := {
  comp_principal : on_grid s (sp_principal a) (trackedPrincipalDelta c);
  comp_fee : on_grid s (sp_fee a) (trackedManagementFeeDelta c);
  comp_value : on_grid s (split_sum a) (trackedValueDelta c)
}.

Section Components.

Context (s t p f : Z) (T P F payment rate : Number) (n feeRate : Z) (c : PaymentComponents).
Context (HS : asset_scale asset s).
Context (HT : on_grid s t T) (HP : on_grid s p P) (HF : on_grid s f F).
Context (HO : units_ok (mkUnits t p f n)).
Context (WP : wf payment) (NP : nonneg payment) (WR : wf rate) (Wn : word n) (Wf : word feeRate).
Context (H : computePaymentComponents cfg asset s T P F payment rate n feeRate = Ok c).

Lemma computePaymentComponents_cases :
  (specialCase c = final /\ components_are s c (mkSplit p (Z.max 0 (t - p - f)) f)) \/
  (exists r R a, roundPeriodicPayment cfg asset payment s = Ok R /\ on_grid s r R /\ 0 <= r < t /\
     n <> 1 /\ specialCase c = none /\ components_are s c a /\ split_nonneg a /\
     sp_principal a <= p /\ sp_interest a <= Z.max 0 (t - p) /\ sp_fee a <= f /\
     (p <= t -> split_sum a <= r)).
Proof.
  pose proof (asset_scale_grid asset s HS) as HG. destruct HO as [O1 O2 O3 O4].
  unfold exposure in *; cbn [u_total u_principal u_fee] in *.
  pose proof H as H'. unfold computePaymentComponents in H'.
  apply bind_ok in H' as (R & HR & H'). apply bind_ok in H' as (raw & Hraw & H').
  destruct (calculateRawLoanState_wf cfg payment rate n feeRate raw WP WR Wn Wf Hraw)
    as (W1 & W2 & W3 & W4 & W5).
  destruct ((n =? 1) || number_leb T R) eqn:EF.
  - left. bind_inv H'. pose proof (grid_sub_ok _ s t p T P a HG HT HP ltac:(lia) Hb) as G1.
    bind_inv H'. pose proof (grid_sub_ok _ s (t - p) f a F a0 HG G1 HF ltac:(lia) Hb0) as G2.
    pose proof (number_max_zero_grid s _ _ G2) as G3.
    bind_inv H'. pose proof (grid_add_ok _ s _ p _ P a1 HG G3 HP ltac:(lia) Hb1) as G4.
    bind_inv H'. pose proof (grid_add_ok _ s _ f a1 F a2 HG G4 HF ltac:(lia) Hb2) as G5.
    injection H' as <-. split; [reflexivity |]. constructor; cbn; [assumption .. |].
    unfold split_sum; cbn. now rewrite (Z.add_comm p).
  - right. apply orb_false_iff in EF as [EN EL]. apply Z.eqb_neq in EN.
    unfold number_leb in EL. apply negb_false_iff in EL.
    assert (exists r, on_grid s r R /\ 0 <= r < t) as (r & GR & Hr).
    { assert (multiple s R) as M by exact (roundToAsset_multiple _ _ _ _ _ _ HC HS WP HR).
      assert (nonneg R) as N by exact (roundToAsset_nonneg _ _ _ _ _ _ HC HS WP NP HR).
      destruct M as [[r GR] | [NR ER]].
      - exists r. split; [exact GR |]. rewrite (grid_ltb s r t R T GR HT) in EL.
        apply (nonneg_grid s r R GR) in N. zbool. lia.
      - exfalso. destruct (coarse_above s t R T NR ER HT) as [E _].
        apply (nonneg_neg_number R ltac:(now right)) in N. congruence. }
    bind_inv H'. pose proof (number_mul_wf _ _ _ _ W2 WR Hb) as Wa.
    bind_inv H'. pose proof (number_sub_wf _ _ _ _ WP Wa Hb0) as Wa0.
    bind_inv H'. apply bind_ok in H' as (pr & Hpr & H').
    destruct (computeRoundedPrincipalComponent_spec cfg HC asset s HS P _ _ R pr p r HP GR O1
                ltac:(lia) W2 Wa0 Hpr) as (vp & Gp & Hvp).
    bind_inv H'. pose proof (grid_sub_ok _ s t p T P a2 HG HT HP ltac:(lia) Hb2) as GI.
    apply bind_ok in H' as ([ip fp] & Hif & H').
    destruct (computeRoundedInterestAndFeeComponents_spec cfg HC asset s HS _ _ _ _ _ _ _ _ _
                (t - p) f vp r GI HF Gp GR O2 ltac:(lia) W3 W5 Wf ltac:(lia) ltac:(lia) Hif)
      as (vi & vf & Gi & Gf & Hvi & Hvf & Hio & Hsum). cbn [fst snd] in *.
    bind_inv H'. bind_inv H'.
    pose proof (grid_add_ok _ s vi vp ip pr a4 HG Gi Gp ltac:(lia) Hb4) as G4.
    bind_inv H'. pose proof (grid_add_ok _ s (vi + vp) vf a4 fp a5 HG G4 Gf ltac:(lia) Hb5) as G5.
    injection H' as <-. exists r, R, (mkSplit vp vi vf).
    unfold split_nonneg, split_sum; cbn.
    assert (components_are s (mkComponents a3 a0 a1 a5 pr fp none) (mkSplit vp vi vf)).
    { constructor; cbn; [assumption .. |]. unfold split_sum; cbn. now rewrite (Z.add_comm vp). }
    splits; auto; lia.
Qed.

End Components.

(** ** Parts of a payment *)

Lemma payment_parts s c a sf fee :
  grid_scale s -> components_are s c a -> split_nonneg a -> split_sum a + sf <= maxMantissa ->
  0 <= sf -> on_grid s sf fee ->
  exists parts_i parts_f,
    trackedInterestPart cfg c = Ok parts_i /\
    number_add (round_mode cfg) (trackedManagementFeeDelta c) fee = Ok parts_f /\
    on_grid s (sp_interest a) parts_i /\ on_grid s (sp_fee a + sf) parts_f.
Proof.
  intros HG [C1 C2 C3] (N1 & N2 & N3) HB Hsf Hfee. unfold split_sum in *. unfold trackedInterestPart.
  destruct (grid_add (round_mode cfg) s _ _ _ _ HG C1 C2 ltac:(lia)) as (x & -> & G1).
  destruct (grid_sub (round_mode cfg) s _ _ _ _ HG C3 G1 ltac:(lia)) as (y & E & G2).
  destruct (grid_add (round_mode cfg) s _ _ _ _ HG C2 Hfee ltac:(lia)) as (z & -> & G3).
  exists y, z. cbn [bind]. splits; auto.
  now replace (sp_interest a) with
    (sp_principal a + sp_interest a + sp_fee a - (sp_principal a + sp_fee a)) by ring.
Qed.

(** The total due of a regular payment. *)
Lemma make_plus_due s c a sf fee pc :
  grid_scale s -> components_are s c a -> split_nonneg a -> split_sum a + sf <= maxMantissa ->
  0 <= sf -> on_grid s sf fee -> make_plus cfg c fee zero = Ok pc ->
  components pc = c /\ untrackedManagementFee pc = fee /\ untrackedInterest pc = zero /\
  on_grid s (split_sum a + sf) (totalDue pc).
Proof.
  intros HG [_ _ C3] (N1 & N2 & N3) HB Hsf Hfee H. unfold make_plus in H.
  rewrite number_add_zero_r in H. cbn [bind] in H. bind_inv H. injection H as <-. cbn.
  splits; auto. unfold split_sum in *. exact (grid_add_ok _ s _ _ _ _ _ HG C3 Hfee ltac:(lia) Hb).
Qed.

(** ** One regular payment *)

Section Step.

Context (l : Loan) (u : Units) (sf : Z) (payment rate : Number) (feeRate : Z).
Context (HL : loan_terms asset l sf) (HR : represents l u) (HO : units_ok u).
Context (HB : exposure u + sf <= maxMantissa) (Hn : 1 <= u_remaining u).
Context (WP : wf payment) (NP : nonneg payment) (WR : wf rate) (Wf : word feeRate).

Let s := sfLoanScale l.

(** The components of the next payment are those of a step. *)
Lemma nextComponents_step pc :
  nextComponents cfg asset l payment rate feeRate = Ok pc ->
  exists a u',
    pay_step u a u' /\ components_are s (components pc) a /\
    untrackedManagementFee pc = sfLoanServiceFee l /\ untrackedInterest pc = zero /\
    on_grid s (split_sum a + sf) (totalDue pc) /\
    ((specialCase (components pc) = final /\ u' = mkUnits 0 0 0 0) \/
     (specialCase (components pc) = none /\
      u' = mkUnits (u_total u - split_sum a) (u_principal u - sp_principal a)
             (u_fee u - sp_fee a) (u_remaining u - 1))).
Proof.
  intros H. destruct HL as [L1 L2 L3 L4 L5]. destruct HR as [R1 R2 R3 R4 R5].
  pose proof (asset_scale_grid _ _ L1) as HG. unfold nextComponents in H.
  apply bind_ok in H as (c & Hc & H). rewrite R4 in Hc. destruct u as [t p f n]. units_cbn.
  destruct (computePaymentComponents_cases s t p f _ _ _ payment rate n feeRate c L1 R1 R2 R3 HO WP NP
              WR R5 Wf Hc) as [[EF C] | (r & R & a & _ & _ & Hr & N1 & EN & C & NN & A1 & A2 & A3 & A4)].
  - set (a := mkSplit p (Z.max 0 (t - p - f)) f) in *.
    destruct HO as [O1 O2 O3 O4]. unfold exposure in *; units_cbn.
    assert (split_nonneg a) as NN by (unfold split_nonneg, a; cbn; lia).
    destruct (make_plus_due s c a sf (sfLoanServiceFee l) pc HG C NN) as (-> & E2 & E3 & E4); auto;
      [unfold split_sum, a; cbn; lia |].
    exists a, (mkUnits 0 0 0 0). splits; auto. constructor; lia.
  - destruct a as [vp vi vf]. destruct HO as [O1 O2 O3 O4]. unfold exposure, split_nonneg, split_sum in *; units_cbn.
    destruct (make_plus_due s c (mkSplit vp vi vf) sf (sfLoanServiceFee l) pc HG C) as (-> & E2 & E3 & E4); auto;
      [unfold split_sum; cbn; lia |].
    exists (mkSplit vp vi vf), (mkUnits (t - (vp + vi + vf)) (p - vp) (f - vf) (n - 1)).
    splits; auto. constructor; lia.
Qed.

(** Applying the payment returns, with the schedule moved on by one interval or
    closed. *)
Lemma doPayment_runs pc d interval :
  nextComponents cfg asset l payment rate feeRate = Ok pc -> sfNextPaymentDueDate l = Some d ->
  exists parts l' a u',
    doPayment cfg pc l interval = Ok (parts, l') /\
    pay_step u a u' /\ represents l' u' /\ same_terms l l' /\ parts_are s parts a sf /\
    on_grid s (split_sum a + sf) (totalDue pc) /\
    sfPreviousPaymentDate l' = d /\
    sfNextPaymentDueDate l' =
      if special_eqb (specialCase (components pc)) final then None else Some (u32 (d + interval)).
Proof.
  intros H HD. destruct (nextComponents_step pc H) as (a & u' & ST & C & E2 & E3 & E4 & EC).
  pose proof (pay_step_nonneg _ _ _ ST) as NN. pose proof (pay_step_exposure _ _ _ ST) as HE.
  pose proof (pay_step_ok _ _ _ ST HO) as [O1' O2' _ _]. pose proof (pay_step_remaining _ _ _ ST) as HN.
  destruct HL as [L1 L2 L3 L4 L5]. destruct HR as [R1 R2 R3 R4 R5].
  pose proof (asset_scale_grid _ _ L1) as HG. fold s in HG, L1, L4, R1, R2, R3.
  assert (0 <= exposure u') by (unfold exposure; lia).
  assert (HB' : split_sum a + sf <= maxMantissa) by lia.
  destruct (payment_parts s _ a sf _ HG C NN HB' L5 L4) as (ti & fp & Hti & Hfp & G1 & G2).
  unfold doPayment. rewrite Hti. cbn [bind]. rewrite E3, number_add_zero_r, E2. cbn [bind].
  rewrite Hfp, HD. cbn [read_optional bind].
  set (parts := mkParts _ ti zero fp).
  assert (PA : parts_are s parts a sf) by (constructor; cbn; auto; apply C). clearbody parts.
  destruct EC as [[-> ->] | [-> ->]]; cbn [special_eqb negb bind].
  - exists parts. eexists. exists a, (mkUnits 0 0 0 0).
    split; [reflexivity |]. splits; auto; [| repeat split].
    constructor; cbn; auto using on_grid_zero. split; [lia | reflexivity].
  - destruct C as [C1 C2 C3]. destruct NN as (N1 & N2 & N3). destruct HO as [O1 O2 O3 O4].
    unfold split_sum, exposure in *; units_cbn. cbn [set_schedule sfPrincipalOutstanding
      sfTotalValueOutstanding sfManagementFeeOutstanding].
    destruct (grid_sub (round_mode cfg) s _ _ _ _ HG R2 C1 ltac:(lia)) as (np & -> & P1).
    destruct (grid_sub (round_mode cfg) s _ _ _ _ HG R1 C3 ltac:(lia)) as (nt & -> & P2).
    destruct (grid_sub (round_mode cfg) s _ _ _ _ HG R3 C2 ltac:(lia)) as (nf & -> & P3).
    cbn [bind]. exists parts. eexists. exists a. eexists.
    split; [reflexivity |]. split; [exact ST |]. splits; auto; [| repeat split]. unfold word in *.
    constructor; cbn; auto; [rewrite u32_id; lia | unfold word; lia].
Qed.

Lemma doPayment_step pc parts l' interval :
  nextComponents cfg asset l payment rate feeRate = Ok pc ->
  doPayment cfg pc l interval = Ok (parts, l') ->
  exists a u',
    pay_step u a u' /\ represents l' u' /\ same_terms l l' /\ parts_are s parts a sf /\
    on_grid s (split_sum a + sf) (totalDue pc).
Proof.
  intros H HD. destruct (sfNextPaymentDueDate l) as [d |] eqn:EN.
  - destruct (doPayment_runs pc d interval H EN) as (q & l2 & a & u' & E & ST & R & SM & PA & TD & _).
    rewrite E in HD. injection HD as <- <-. exists a, u'. auto.
  - destruct (nextComponents_step pc H) as (a & u' & _ & _ & _ & _ & _ & EC).
    unfold doPayment in HD. rewrite EN in HD.
    destruct EC as [[EF _] | [EF _]]; rewrite EF in HD; cbn [special_eqb negb read_optional bind] in HD;
      discriminate.
Qed.

End Step.

(** ** The payment loop *)

Lemma add_parts_are s x y a b fa fb z :
  grid_scale s -> parts_are s x a fa -> parts_are s y b fb ->
  split_nonneg a -> split_nonneg b -> 0 <= fa -> 0 <= fb ->
  split_sum a + fa + (split_sum b + fb) <= maxMantissa ->
  add_parts cfg x y = Ok z -> parts_are s z (split_add a b) (fa + fb).
Proof.
  intros HG [A1 A2 A3 A4] [B1 B2 B3 B4] (NA1 & NA2 & NA3) (NB1 & NB2 & NB3) Hfa Hfb HB H.
  unfold split_sum in HB. unfold add_parts in H. rewrite A3, B3, number_add_zero_r in H.
  apply bind_ok in H as (zp & Hp & H). apply bind_ok in H as (zi & Hi & H). cbn [bind] in H.
  apply bind_ok in H as (zf & Hf & H). injection H as <-.
  constructor; cbn; auto.
  - exact (grid_add_ok _ s _ _ _ _ _ HG A1 B1 ltac:(lia) Hp).
  - exact (grid_add_ok _ s _ _ _ _ _ HG A2 B2 ltac:(lia) Hi).
  - replace (sp_fee a + sp_fee b + (fa + fb)) with (sp_fee a + fa + (sp_fee b + fb)) by ring.
    exact (grid_add_ok _ s _ _ _ _ _ HG A4 B4 ltac:(lia) Hf).
Qed.

Section Loop.

Context (s sf : Z) (payment rate amt : Number) (feeRate : Z).
Context (WP : wf payment) (NP : nonneg payment) (WR : wf rate) (Wf : word feeRate).

(** The state of the loop: [k] payments left, the loan, the running totals. *)
Record loop_inv (k : nat) (l : Loan) (u : Units) (totalPaid : Number) (parts : LoanPaymentParts)
    (acc : Split) (fees : Z) : Prop := {
  inv_scale : sfLoanScale l = s;
  inv_terms : loan_terms asset l sf;
  inv_rep : represents l u;
  inv_ok : units_ok u;
  inv_paid : on_grid s (split_sum acc + fees) totalPaid;
  inv_parts : parts_are s parts acc fees;
  inv_acc : split_nonneg acc;
  inv_fees : 0 <= fees;
  inv_room : split_sum acc + fees + exposure u + Z.of_nat k * sf <= maxMantissa;
  inv_amount : number_ltb amt totalPaid = false
}.

Lemma loop_step k l u totalPaid parts acc fees pc t parts' l' totalParts :
  loop_inv (S k) l u totalPaid parts acc fees -> 1 <= u_remaining u ->
  nextComponents cfg asset l payment rate feeRate = Ok pc ->
  number_add (round_mode cfg) totalPaid (totalDue pc) = Ok t ->
  number_ltb amt t = false ->
  doPayment cfg pc l (sfPaymentInterval l) = Ok (parts', l') ->
  add_parts cfg parts parts' = Ok totalParts ->
  exists a u', pay_step u a u' /\ same_terms l l' /\
    loop_inv k l' u' t totalParts (split_add acc a) (fees + sf).
Proof.
  intros [I1 I2 I3 I4 I5 I6 I7 I8 I9 I10] Hn Hc Ht Ha Hd Hp.
  assert (Hsf : 0 <= sf) by apply I2. assert (He : 0 <= exposure u) by (destruct I4; unfold exposure; lia).
  destruct I7 as (A1 & A2 & A3). pose proof I4 as I4'. rewrite Nat2Z.inj_succ in I9.
  assert (HB : exposure u + sf <= maxMantissa) by (unfold split_sum in *; nia).
  destruct (doPayment_step l u sf payment rate feeRate I2 I3 I4 HB Hn WP NP WR Wf pc parts' l' _ Hc Hd)
    as (a & u' & ST & R' & SM & PA & TD). rewrite I1 in *.
  pose proof (pay_step_nonneg _ _ _ ST) as NN. pose proof (pay_step_exposure _ _ _ ST) as HE.
  pose proof (pay_step_ok _ _ _ ST I4) as O'.
  assert (He' : 0 <= exposure u') by (destruct O'; unfold exposure; lia).
  assert (HG : grid_scale s) by (rewrite <- I1; eapply asset_scale_grid, I2).
  assert (HNk : 0 <= Z.of_nat k * sf) by nia. destruct NN as (B1 & B2 & B3).
  exists a, u'. split; [exact ST |]. split; [exact SM |]. constructor; auto.
  - destruct SM as [-> _]. exact I1.
  - eapply loan_terms_same; eassumption.
  - rewrite split_sum_add. unfold split_sum in *.
    replace (sp_principal acc + sp_interest acc + sp_fee acc + (sp_principal a + sp_interest a + sp_fee a)
             + (fees + sf))
      with (sp_principal acc + sp_interest acc + sp_fee acc + fees
            + (sp_principal a + sp_interest a + sp_fee a + sf)) by ring.
    exact (grid_add_ok _ s _ _ _ _ _ HG I5 TD ltac:(lia) Ht).
  - eapply add_parts_are; [exact HG | exact I6 | exact PA | | | | | | exact Hp];
      unfold split_nonneg, split_sum in *; auto; lia.
  - unfold split_nonneg, split_add; cbn; lia.
  - lia.
  - rewrite split_sum_add. lia.
Qed.

Lemma payment_loop_refines k l u totalPaid parts acc fees k' paid' parts' l' :
  loop_inv k l u totalPaid parts acc fees ->
  payment_loop cfg k asset payment rate feeRate amt totalPaid parts l = Ok (k', paid', parts', l') ->
  exists j a u', pay_steps j u a u' /\ same_terms l l' /\ (k' + j)%nat = k /\
    loop_inv k' l' u' paid' parts' (split_add acc a) (fees + Z.of_nat j * sf).
Proof.
  revert l u totalPaid parts acc fees.
  induction k as [| k IH]; intros l u totalPaid parts acc fees HI H; cbn [payment_loop] in H.
  - injection H as <- <- <- <-. exists 0%nat, split_zero, u.
    splits; [constructor | apply same_terms_refl | reflexivity |].
    now rewrite Z.add_0_r, (split_add_comm acc), split_add_0_l.
  - assert (STOP : exists j a u', pay_steps j u a u' /\ same_terms l l /\ (S k + j)%nat = S k /\
              loop_inv (S k) l u' totalPaid parts (split_add acc a) (fees + Z.of_nat j * sf)).
    { exists 0%nat, split_zero, u. splits; [constructor | apply same_terms_refl | lia |].
      now rewrite Z.add_0_r, (split_add_comm acc), split_add_0_l. }
    destruct (number_ltb totalPaid amt && (0 <? sfPaymentRemaining l)) eqn:EC;
      [| injection H as <- <- <- <-; exact STOP].
    apply andb_true_iff in EC as [_ EC]. rewrite (rep_remaining _ _ (inv_rep _ _ _ _ _ _ _ HI)) in EC.
    zbool. apply bind_ok in H as (pc & Hc & H). apply bind_ok in H as (t & Ht & H).
    destruct (number_ltb amt t) eqn:EA; [injection H as <- <- <- <-; exact STOP |].
    apply bind_ok in H as ([parts1 l1] & Hd & H). apply bind_ok in H as (tot & Hp & H).
    destruct (loop_step k l u totalPaid parts acc fees pc t parts1 l1 tot HI ltac:(lia) Hc Ht EA Hd Hp)
      as (a & u1 & ST & SM & HI1).
    destruct (IH l1 u1 t tot _ _ HI1 H) as (j & b & u' & SS & SM' & EJ & HI').
    exists (S j), (split_add a b), u'. splits.
    + econstructor; eassumption.
    + eapply same_terms_trans; eassumption.
    + lia.
    + rewrite <- split_add_assoc. replace (fees + Z.of_nat (S j) * sf) with (fees + sf + Z.of_nat j * sf) by lia.
      exact HI'.
Qed.

End Loop.

End Refine.

(** ** Transactions of regular payments *)

Open Scope Z_scope.

(** The hypotheses under which a loan is paid: the current amendments, a loan
    in a valid state with room for the service fees of a transaction. *)
Record payable (cfg : Settings) (asset : Asset) (l : Loan) (u : Units) (sf feeRate : Z) : Prop := {
  pay_current : current cfg;
  pay_terms : loan_terms asset l sf;
  pay_rep : represents l u;
  pay_ok : units_ok u;
  pay_room : exposure u + 100 * sf <= maxMantissa;
  pay_payment : wf (sfPeriodicPayment l);
  pay_payment_nonneg : nonneg (sfPeriodicPayment l);
  pay_fee_rate : word feeRate
}.

(** The first payment and the loop after it. *)
Lemma regular_payments cfg asset l u sf feeRate rate amt pc parts l1 k paid parts' l' :
  payable cfg asset l u sf feeRate -> wf rate -> 1 <= u_remaining u ->
  nextComponents cfg asset l (sfPeriodicPayment l) rate feeRate = Ok pc ->
  number_ltb amt (totalDue pc) = false ->
  doPayment cfg pc l (sfPaymentInterval l) = Ok (parts, l1) ->
  payment_loop cfg 99 asset (sfPeriodicPayment l) rate feeRate amt (totalDue pc) parts l1 =
    Ok (k, paid, parts', l') ->
  exists j a u',
    (1 <= j <= 100)%nat /\ pay_steps j u a u' /\ represents l' u' /\ same_terms l l' /\
    parts_are (sfLoanScale l) parts' a (Z.of_nat j * sf) /\
    on_grid (sfLoanScale l) (split_sum a + Z.of_nat j * sf) paid /\
    number_ltb amt paid = false.
Proof.
  intros [P1 P2 P3 P4 P5 P6 P7 P8] WR Hn Hc Ha Hd HL. assert (Hsf : 0 <= sf) by apply P2.
  assert (exposure u + sf <= maxMantissa) by lia.
  destruct (doPayment_step cfg P1 asset l u sf _ rate feeRate P2 P3 P4 ltac:(assumption) Hn P6 P7 WR P8
              pc parts l1 _ Hc Hd) as (a & u1 & ST & R1 & SM & PA & TD).
  pose proof (pay_step_nonneg _ _ _ ST) as NN. pose proof (pay_step_exposure _ _ _ ST) as HE.
  destruct (payment_loop_refines cfg P1 asset (sfLoanScale l) sf (sfPeriodicPayment l) rate amt feeRate
              P6 P7 WR P8 99 l1 u1 (totalDue pc) parts a sf k paid parts' l')
    as (j & b & u' & SS & SM' & EJ & [I1 I2 I3 I4 I5 I6 I7 I8 I9 I10]); [| exact HL |].
  { constructor; auto.
    - apply SM.
    - eapply loan_terms_same; eassumption.
    - eapply pay_step_ok; eassumption.
    - change (Z.of_nat 99) with 99. lia. }
  exists (S j), (split_add a b), u'.
  replace (Z.of_nat (S j) * sf) with (sf + Z.of_nat j * sf) by lia.
  splits; auto; try lia; [econstructor; eassumption | eapply same_terms_trans; eassumption].
Qed.

Lemma u32_i32 d : word d -> u32 (i32 d) = d.
Proof.
  intros Hd. unfold word, u32, i32 in *.
  rewrite Zminus_mod_idemp_l. replace (d + 2 ^ 31 - 2 ^ 31) with d by ring. now apply Z.mod_small.
Qed.

(** The late branch is skipped before the due date. *)
Lemma computeLatePayment_not_due cfg asset now P d pc rate s fee amount feeRate :
  word d -> hasExpired now (Some d) = false ->
  computeLatePayment cfg asset now P d pc rate s fee amount feeRate = Ok (Unexpected tesSUCCESS).
Proof. intros Hd H. unfold computeLatePayment. now rewrite u32_i32, H. Qed.

(** A transaction of regular payments. *)
Lemma loanMakePayment_regular cfg asset l u sf feeRate now d amount amt parts l' :
  payable cfg asset l u sf feeRate ->
  sfNextPaymentDueDate l = Some d -> word d -> hasExpired now (Some d) = false ->
  number_of_st cfg amount = Ok amt ->
  loanMakePayment cfg asset now l feeRate amount false = Ok (Value parts, l') ->
  exists j a u',
    (1 <= j <= 100)%nat /\ pay_steps j u a u' /\ represents l' u' /\ same_terms l l' /\
    parts_are (sfLoanScale l) parts a (Z.of_nat j * sf) /\
    (forall A, on_grid (sfLoanScale l) A amt -> split_sum a + Z.of_nat j * sf <= A).
Proof.
  intros HP HD Wd HX HA H. pose proof HP as [P1 P2 P3 P4 P5 P6 P7 P8].
  unfold loanMakePayment in H. rewrite HD in H.
  destruct (_ || _) eqn:E0; [discriminate |]. apply orb_false_iff in E0 as [E0 _]. apply Z.eqb_neq in E0.
  rewrite (rep_remaining _ _ P3) in E0. pose proof (rep_word _ _ P3) as Wn. unfold word in Wn.
  apply bind_ok in H as (rate & Hr & H). apply bind_ok in H as (pc & Hc & H).
  assert (wf rate) as WR 
    by exact (loanPeriodicRate_wf cfg _ _ _ (terms_rate _ _ _ P2) (terms_interval _ _ _ P2) Hr).
  rewrite computeLatePayment_not_due in H by assumption. cbn [bind isTesSuccess negb] in H.
  rewrite HA in H. cbn [bind] in H. destruct (number_ltb amt (totalDue pc)) eqn:EA; [discriminate |].
  apply bind_ok in H as ([parts1 l1] & Hd & H).
  apply bind_ok in H as ([[[k paid] parts2] l2] & Hl & H). cbn [andb] in H. injection H as <- <-.
  destruct (regular_payments cfg asset l u sf feeRate rate amt pc parts1 l1 k paid parts2 l2 HP WR
              ltac:(lia) Hc EA Hd Hl) as (j & a & u' & HJ & SS & R' & SM & PA & PG & PL).
  exists j, a, u'. splits; auto; try lia.
  intros A HAm. rewrite (grid_ltb _ _ _ _ _ HAm PG) in PL. zbool. lia.
Qed.

Lemma pay_value cfg pc l interval t l' : pay cfg pc l interval <> Ok (Unexpected t, l').
Proof. unfold pay. destruct (doPayment _ _ _ _) as [[] |]; cbn; discriminate. Qed.

(** A refused payment is never reported as a success. *)
Lemma loanMakePayment_refused cfg asset now l feeRate amount t l' :
  loanMakePayment cfg asset now l feeRate amount false = Ok (Unexpected t, l') -> isTesSuccess t = false.
Proof.
  unfold loanMakePayment. destruct (_ || _); [now intros [= <- _] |].
  destruct (sfNextPaymentDueDate l); [| now intros [= <- _]].
  intros H. apply bind_ok in H as (rate & _ & H). apply bind_ok in H as (pc & _ & H).
  apply bind_ok in H as ([late | c] & _ & H); [now apply pay_value in H |].
  destruct (isTesSuccess c) eqn:E; cbn [negb] in H; [| now injection H as <- _].
  apply bind_ok in H as (amt & _ & H). destruct (number_ltb _ _); [now injection H as <- _ |].
  apply bind_ok in H as ([parts l1] & _ & H). apply bind_ok in H as ([[[k paid] parts2] l2] & _ & H).
  cbn [andb] in H. discriminate.
Qed.
