(* ===== verification/LendingProps.v ===== *)
(** * Properties of the loan functions

    Refinement of the regular payments, conservation, the error branches, full
    payments and overpayments, and the wrap-around of the accrued interest. *)

From Stdlib Require Import ZArith Lia Bool.
From S2P Require Import Prelude.
From S2P Require Import Ter.
From S2P Require Import XrplNumber.
From S2P Require Import XrplNumberFacts.
From S2P Require Import XrplNumberCorrect.
From S2P Require Import XrplNumberAdd.
From S2P Require Import XrplNumberGrid.
From S2P Require Import XrplNumberProps.
From S2P Require Import XrplNumberMultiple.
From S2P Require Import Amounts.
From S2P Require Import AmountsFacts.
From S2P Require Import AmountsRound.
From S2P Require Import Lending.
From S2P Require Import LendingFacts.
From S2P Require Import LendingSpec.
From S2P Require Import LendingRefine.

Open Scope Z_scope.

(** ** A concrete loan for the witnesses

    One million drops over twelve months at 12% with a 1% management fee, as
    [computeLoanProperties] sets it up. *)

Definition sample_cfg : Settings := mkSettings to_nearest true true.
Definition sample_asset : Asset := AIssue xrpIssue.
Definition sample_payment : Number := mkNumber 8877190691477299 (-11).
Definition sample_loan : Loan :=
  mkLoan true 12000 0 0 0 0 (mkNumber 5000000000000000 (-15)) zero zero 100 2592000 0 0
    (Some 2592100) 12 (mkNumber 1065263000000000 (-9)) (mkNumber 1000000000000000 (-9))
    (mkNumber 6520000000000000 (-13)) sample_payment.
Definition sample_units : Units := mkUnits 1065263 1000000 652 12.
Definition sample_rate : Number := mkNumber 9863013698630137 (-18).

Definition ok_or {A} (d : A) (r : result A) : A :=
  match r with Ok a => a | Throw _ => d end.

Definition value_or {A B} (d : A * B) (r : Expected A * B) : A * B :=
  match r with (Value a, b) => (a, b) | (Unexpected _, _) => d end.

(** The components of its first payment, and what the payment does. *)
Definition sample_pc : PaymentComponentsPlus :=
  Eval vm_compute in
    ok_or (mkPlus (mkComponents zero zero zero zero zero zero none) zero zero zero)
      (nextComponents sample_cfg sample_asset sample_loan sample_payment sample_rate 1000).

Definition no_parts : LoanPaymentParts * Loan := (mkParts zero zero zero zero, sample_loan).

Definition sample_paid : LoanPaymentParts * Loan :=
  Eval vm_compute in ok_or no_parts (doPayment sample_cfg sample_pc sample_loan 2592000).

(** An amount for two payments and a half. *)
Definition sample_amount : STAmount := mkSTAmount sample_asset 220000 0 false.

Definition sample_paid_two : LoanPaymentParts * Loan :=
  Eval vm_compute in
    value_or no_parts
      (ok_or (Unexpected tecINTERNAL, sample_loan)
         (loanMakePayment sample_cfg sample_asset 1000 sample_loan 1000 sample_amount false)).

Lemma sample_current : current sample_cfg.
Proof. split; reflexivity. Qed.

Lemma grid_intro s n m e :
  normal (mkNumber m e) -> e <= s -> m = n * 10 ^ (s - e) -> on_grid s n (mkNumber m e).
Proof. intros. right. auto. Qed.

Lemma sample_terms : loan_terms sample_asset sample_loan 5.
Proof.
  constructor; [reflexivity | split; eval_cmp | split; eval_cmp | | lia].
  apply grid_intro; eval_cmp.
Qed.

Lemma sample_represents : represents sample_loan sample_units.
Proof.
  constructor; [apply grid_intro; eval_cmp .. | reflexivity | split; eval_cmp].
Qed.

Lemma sample_ok : units_ok sample_units.
Proof. constructor; eval_cmp. Qed.

Lemma sample_payment_wf : wf sample_payment.
Proof. right. eval_cmp. Qed.

Lemma sample_rate_wf : wf sample_rate.
Proof. right. eval_cmp. Qed.

(** ** Whole payments *)

Lemma sample_payable : payable sample_cfg sample_asset sample_loan sample_units 5 1000.
Proof.
  constructor; auto using sample_current, sample_terms, sample_represents, sample_ok,
    sample_payment_wf; [eval_cmp | eval_cmp | split; eval_cmp].
Qed.

(** The overpayment functions report failure only as "nothing done". *)
Lemma tryOverpayment_error cfg asset s pc sb ir pi rate n feeRate t sb' :
  tryOverpayment cfg asset s pc sb ir pi rate n feeRate = Ok (Unexpected t, sb') -> t = tesSUCCESS.
Proof.
  intros H. unfold tryOverpayment in H. cbv zeta in H. peel H.
  destruct (_ && _); [now injection H as <- <- |].
  destruct (_ || _); [now injection H as <- <- |]. peel H. discriminate.
Qed.

Lemma doOverpayment_cases cfg asset s pc l ir pi rate n feeRate r l' :
  doOverpayment cfg asset s pc l ir pi rate n feeRate = Ok (r, l') ->
  (r = Unexpected tesSUCCESS /\ l' = l) \/
  (exists parts, r = Value parts /\
     number_ltb (sfPrincipalOutstanding l') (sfPrincipalOutstanding l) = true /\
     sfPaymentRemaining l' = sfPaymentRemaining l /\
     sfNextPaymentDueDate l' = sfNextPaymentDueDate l).
Proof.
  intros H. unfold doOverpayment in H. apply bind_ok in H as ([ret sb] & Ht & H).
  destruct ret as [parts | t].
  - destruct (number_leb _ _) eqn:E; injection H as <- <-; [now left | right].
    exists parts. cbn. unfold number_leb in E. apply negb_false_iff in E. auto.
  - injection H as <- <-. apply tryOverpayment_error in Ht as ->. now left.
Qed.

Lemma makeOverpayment_value cfg asset l rate feeRate amt paid parts r l' :
  makeOverpayment cfg asset l rate feeRate amt paid parts = Ok (r, l') -> exists p, r = Value p.
Proof.
  intros H. unfold makeOverpayment in H. bind_inv H. bind_inv H.
  destruct (_ && _); [| injection H as <- <-; eauto].
  apply bind_ok in H as ([ret l1] & Ho & H). apply doOverpayment_cases in Ho as [[-> ->] | (q & -> & _)].
  - cbn in H. injection H as <- <-. eauto.
  - bind_inv H. injection H as <- <-. eauto.
Qed.

(** ** Properties *)

(** C11. A regular payment implements the abstract one: once the components of
    the next payment are computed, applying them to the loan returns, and is a
    [pay_step] on the outstanding values, in units of the loan's scale; the
    parts returned are exactly the split of that step, the fee plus the service
    fee; the total due is their sum; and the due date moves on by one interval,
    or is removed by the last payment. *)
Theorem regular_payment_refines cfg asset l u sf feeRate rate pc d :
  payable cfg asset l u sf feeRate -> wf rate -> 1 <= u_remaining u ->
  sfNextPaymentDueDate l = Some d ->
  nextComponents cfg asset l (sfPeriodicPayment l) rate feeRate = Ok pc ->
  exists parts l' a u',
    doPayment cfg pc l (sfPaymentInterval l) = Ok (parts, l') /\
    pay_step u a u' /\ represents l' u' /\ units_ok u' /\ same_terms l l' /\
    parts_are (sfLoanScale l) parts a sf /\
    on_grid (sfLoanScale l) (split_sum a + sf) (totalDue pc) /\
    sfPreviousPaymentDate l' = d /\
    sfNextPaymentDueDate l' =
      if special_eqb (specialCase (components pc)) final then None
      else Some (u32 (d + sfPaymentInterval l)).
Proof.
  intros [P1 P2 P3 P4 P5 P6 P7 P8] WR Hn HD Hc. assert (0 <= sf) by apply P2.
  destruct (doPayment_runs cfg P1 asset l u sf _ rate feeRate P2 P3 P4 ltac:(lia) Hn P6 P7 WR P8
              pc d (sfPaymentInterval l) Hc HD)
    as (parts & l' & a & u' & E & ST & R & SM & PA & TD & D1 & D2).
  exists parts, l', a, u'. splits; auto. eapply pay_step_ok; eassumption.
Qed.

Lemma regular_payment_refines_witness :
  exists parts l' a u',
    doPayment sample_cfg sample_pc sample_loan 2592000 = Ok (parts, l') /\
    pay_step sample_units a u' /\ represents l' u' /\ units_ok u' /\ same_terms sample_loan l' /\
    parts_are 0 parts a 5 /\ on_grid 0 (split_sum a + 5) (totalDue sample_pc) /\
    sfPreviousPaymentDate l' = 2592100 /\ sfNextPaymentDueDate l' = Some 5184100.
Proof.
  apply (regular_payment_refines sample_cfg sample_asset sample_loan sample_units 5 1000 sample_rate
           sample_pc 2592100);
    [apply sample_payable | apply sample_rate_wf | vm_compute; discriminate | reflexivity
    | vm_compute; reflexivity].
Defined.

(** C18. A borrower who offers exactly what is due, in time, is always served:
    once the components of the next payment are computed the transaction
    returns the parts of one regular payment and the loan after it, with or
    without the overpayment flag. *)
Theorem due_payment_accepted cfg asset l u sf feeRate now d amount rate pc over :
  payable cfg asset l u sf feeRate -> 1 <= u_remaining u -> u_principal u <> 0 ->
  sfNextPaymentDueDate l = Some d -> word d -> hasExpired now (Some d) = false ->
  loanPeriodicRate cfg (sfInterestRate l) (sfPaymentInterval l) = Ok rate ->
  nextComponents cfg asset l (sfPeriodicPayment l) rate feeRate = Ok pc ->
  number_of_st cfg amount = Ok (totalDue pc) ->
  exists parts l' a u',
    loanMakePayment cfg asset now l feeRate amount over = Ok (Value parts, l') /\
    pay_step u a u' /\ represents l' u' /\ parts_are (sfLoanScale l) parts a sf.
Proof.
  intros [P1 P2 P3 P4 P5 P6 P7 P8] Hn Hp HD Wd HX Hr Hc HA. assert (0 <= sf) by apply P2.
  assert (wf rate) as WR
    by exact (loanPeriodicRate_wf cfg _ _ _ (terms_rate _ _ _ P2) (terms_interval _ _ _ P2) Hr).
  destruct (doPayment_runs cfg P1 asset l u sf _ rate feeRate P2 P3 P4 ltac:(lia) Hn P6 P7 WR P8
              pc d (sfPaymentInterval l) Hc HD)
    as (parts & l' & a & u' & E & ST & R & SM & PA & TD & _).
  exists parts, l', a, u'. splits; auto. unfold loanMakePayment. rewrite HD.
  rewrite (rep_remaining _ _ P3). destruct (Z.eqb_spec (u_remaining u) 0); [lia |].
  rewrite (normal_neq_zero (sfPrincipalOutstanding l))
    by exact (on_grid_nonzero _ _ _ (rep_principal _ _ P3) Hp).
  cbn [orb]. rewrite Hr. cbn [bind]. rewrite Hc. cbn [bind].
  rewrite computeLatePayment_not_due by assumption. cbn [bind isTesSuccess negb].
  rewrite HA. cbn [bind]. rewrite (grid_ltb _ _ _ _ _ TD TD), Z.ltb_irrefl, E. cbn [bind].
  cbn [payment_loop loanMaximumPaymentsPerTransaction Nat.sub].
  rewrite (grid_ltb _ _ _ _ _ TD TD), Z.ltb_irrefl. cbn [andb bind].
  rewrite (grid_ltb _ _ _ _ _ TD TD), Z.ltb_irrefl, andb_false_r. reflexivity.
Qed.

Lemma due_payment_accepted_witness :
  exists parts l' a u',
    loanMakePayment sample_cfg sample_asset 2000 sample_loan 1000 (mkSTAmount sample_asset 88777 0 false) true =
      Ok (Value parts, l') /\
    pay_step sample_units a u' /\ represents l' u' /\ parts_are 0 parts a 5.
Proof.
  apply (due_payment_accepted sample_cfg sample_asset sample_loan sample_units 5 1000 2000 2592100
           (mkSTAmount sample_asset 88777 0 false) sample_rate sample_pc true);
    [apply sample_payable | eval_cmp | eval_cmp | reflexivity | split; eval_cmp | reflexivity
    | vm_compute; reflexivity ..].
Defined.



(** ** Full payments *)

(** The components of a full payment of [x] units of interest and a closing fee
    of [c] units. *)
Lemma computeFullPayment_exact cfg asset now l u feeRate n prev start interval closeRate
    due rate closeFee amount full x c interest :
  current cfg -> asset_scale asset (sfLoanScale l) -> represents l u -> units_ok u ->
  0 <= u_total u - u_principal u - u_fee u ->
  0 <= feeRate <= tenthBipsPerUnity -> 0 <= x -> 0 <= c -> exposure u + x + c <= maxMantissa ->
  on_grid (sfLoanScale l) (u_total u - u_principal u - u_fee u) due ->
  on_grid (sfLoanScale l) c closeFee ->
  calculateFullPaymentInterest_terms cfg (sfPeriodicPayment l) rate n now interval prev start closeRate
    = Ok interest ->
  (forall z, roundToAsset cfg asset interest (sfLoanScale l) (round_mode cfg) = Ok z ->
     on_grid (sfLoanScale l) x z) ->
  computeFullPayment cfg asset now (sfPrincipalOutstanding l) (sfManagementFeeOutstanding l)
    (sfPeriodicPayment l) n prev start interval closeRate (sfLoanScale l) due rate closeFee amount
    feeRate = Ok (Value full) ->
  exists g amt, 0 <= g <= x /\ 1 < n /\
    specialCase (components full) = final /\
    trackedPrincipalDelta (components full) = sfPrincipalOutstanding l /\
    trackedManagementFeeDelta (components full) = sfManagementFeeOutstanding l /\
    on_grid (sfLoanScale l) (u_total u) (trackedValueDelta (components full)) /\
    on_grid (sfLoanScale l) (c + g - u_fee u) (untrackedManagementFee full) /\
    on_grid (sfLoanScale l) (x - g - (u_total u - u_principal u - u_fee u)) (untrackedInterest full) /\
    on_grid (sfLoanScale l) (u_principal u + x + c) (totalDue full) /\
    number_of_st cfg amount = Ok amt /\ number_ltb amt (totalDue full) = false.
Proof.
  intros HC HS [R1 R2 R3 R4 R5] [O1 O2 O3 O4] Hdue HF Hx Hc HB HD HCF HI HX H.
  pose proof (asset_scale_grid _ _ HS) as HG. set (s := sfLoanScale l) in *. unfold exposure in *.
  set (t := u_total u) in *. set (p := u_principal u) in *. set (f := u_fee u) in *.
  unfold calculateFullPaymentInterest_terms in HI. unfold computeFullPayment in H.
  destruct (Z.leb_spec n 1); [discriminate |].
  apply bind_ok in HI as (rp & Hrp & HI). rewrite Hrp in H. cbn [bind] in H. rewrite HI in H. cbn [bind] in H.
  apply bind_ok in H as ([ri rf] & _ & H). apply bind_ok in H as (z & Hz & H). specialize (HX z Hz).
  apply bind_ok in H as ([fi ff] & Hp & H). unfold computeInterestAndFeeParts_rounded in Hp.
  apply bind_ok in Hp as (g0 & Hg & Hp). destruct (computeFee_grid cfg asset s x z feeRate g0 HC HS HX Hx HF Hg) as (g & Gg & Hgx).
  apply bind_ok in Hp as (rest & Hr & Hp). injection Hp as <- <-.
  pose proof (grid_sub_ok _ s x g _ _ _ HG HX Gg ltac:(lia) Hr) as G1.
  apply bind_ok in H as (a & Ha & H). pose proof (grid_add_ok _ s p (t - p - f) _ _ _ HG R2 HD ltac:(lia) Ha) as G2.
  apply bind_ok in H as (v & Hv & H). pose proof (grid_add_ok _ s _ f _ _ _ HG G2 R3 ltac:(lia) Hv) as G3.
  apply bind_ok in H as (b & Hb & H). pose proof (grid_add_ok _ s c g _ _ _ HG HCF Gg ltac:(lia) Hb) as G4.
  apply bind_ok in H as (fe & Hfe & H). pose proof (grid_sub_ok _ s _ f _ _ _ HG G4 R3 ltac:(lia) Hfe) as G5.
  apply bind_ok in H as (un & Hun & H). pose proof (grid_sub_ok _ s _ _ _ _ _ HG G1 HD ltac:(lia) Hun) as G6.
  apply bind_ok in H as (fl & Hfl & H). unfold make_plus in Hfl. cbn [trackedValueDelta] in Hfl.
  apply bind_ok in Hfl as (d & Hd & Hfl). pose proof (grid_add_ok _ s _ _ _ _ _ HG G3 G6 ltac:(lia) Hd) as G7.
  apply bind_ok in Hfl as (td & Htd & Hfl). pose proof (grid_add_ok _ s _ _ _ _ _ HG G7 G5 ltac:(lia) Htd) as G8.
  injection Hfl as <-. apply bind_ok in H as (amt & Hamt & H).
  destruct (number_ltb amt _) eqn:EA; [discriminate |]. injection H as <-. cbn in EA |- *.
  exists g, amt. splits; auto; try lia.
  - now replace t with (p + (t - p - f) + f) by ring.
  - now replace (p + x + c) with
      (p + (t - p - f) + f + (x - g - (t - p - f)) + (c + g - f)) by ring.
Qed.

Lemma roundedLoanState_due cfg l u st :
  grid_scale (sfLoanScale l) -> represents l u -> units_ok u ->
  calculateRoundedLoanState_loan cfg l = Ok st ->
  on_grid (sfLoanScale l) (u_total u - u_principal u - u_fee u) (ls_interestDue st).
Proof.
  intros HG [R1 R2 R3 _ _] [O1 O2 O3 O4] H. unfold exposure in *.
  unfold calculateRoundedLoanState_loan, calculateRoundedLoanState in H.
  apply bind_ok in H as (i & Hi & H). apply bind_ok in H as (d & Hd & H). injection H as <-. cbn.
  pose proof (grid_sub_ok _ _ _ _ _ _ _ HG R1 R2 ltac:(lia) Hi) as G1.
  exact (grid_sub_ok _ _ _ _ _ _ _ HG G1 R3 ltac:(lia) Hd).
Qed.

(** A full payment closes the loan and takes exactly the outstanding
    principal, the rounded interest [x] and the closing fee [c]: the broker's
    share [g] of the interest is at most [x] and goes to the fee, the vault gets
    the rest, the outstanding values become zero, the due date is removed, and
    the sum does not exceed the amount. *)
Theorem full_payment_exact cfg asset now l u feeRate amount amt rate interest z x c parts l' :
  current cfg -> asset_scale asset (sfLoanScale l) -> represents l u -> units_ok u ->
  0 <= u_total u - u_principal u - u_fee u -> 0 <= feeRate <= tenthBipsPerUnity ->
  0 <= x -> 0 <= c -> exposure u + x + c <= maxMantissa ->
  on_grid (sfLoanScale l) c (sfClosePaymentFee l) ->
  loanPeriodicRate cfg (sfInterestRate l) (sfPaymentInterval l) = Ok rate ->
  calculateFullPaymentInterest_terms cfg (sfPeriodicPayment l) rate (sfPaymentRemaining l) now
    (sfPaymentInterval l) (sfPreviousPaymentDate l) (sfStartDate l) (sfCloseInterestRate l)
    = Ok interest ->
  roundToAsset cfg asset interest (sfLoanScale l) (round_mode cfg) = Ok z ->
  on_grid (sfLoanScale l) x z -> number_of_st cfg amount = Ok amt ->
  loanMakeFullPayment cfg asset now l feeRate amount = Ok (Value parts, l') ->
  exists g, 0 <= g <= x /\
    principalPaid parts = sfPrincipalOutstanding l /\
    on_grid (sfLoanScale l) (x - g) (interestPaid parts) /\
    on_grid (sfLoanScale l) (c + g) (feePaid parts) /\
    represents l' (mkUnits 0 0 0 0) /\ sfNextPaymentDueDate l' = None /\
    (forall A, on_grid (sfLoanScale l) A amt -> u_principal u + x + c <= A).
Proof.
  intros HC HS HR HO Hdue HF Hx Hc HB HCF Hrate HI Hz HX Hamt H.
  pose proof (asset_scale_grid _ _ HS) as HG. unfold loanMakeFullPayment in H.
  destruct (_ || _); [discriminate |]. destruct (sfNextPaymentDueDate l) as [d |] eqn:HD; [| discriminate].
  rewrite (roundToAsset_grid_id cfg asset _ c _ _ HC HS HCF) in H. cbn [bind] in H.
  rewrite Hrate in H. cbn [bind] in H. apply bind_ok in H as (st & Hst & H).
  pose proof (roundedLoanState_due cfg l u st HG HR HO Hst) as GD.
  apply bind_ok in H as ([full | t] & Hf & H); [| now destruct (negb _)].
  destruct (computeFullPayment_exact cfg asset now l u feeRate _ _ _ _ _ _ _ _ _ full x c interest HC HS HR
              HO Hdue HF Hx Hc HB GD HCF HI ltac:(intros; congruence) Hf)
    as (g & amt' & Hg & Hn & E1 & E2 & E3 & G1 & G2 & G3 & G4 & Ea & Eb).
  unfold pay in H. apply bind_ok in H as ([pa l1] & Hd & H). injection H as <- <-.
  unfold doPayment in Hd. rewrite E1 in Hd. cbn [special_eqb] in Hd. rewrite HD in Hd. cbn [bind read_optional] in Hd.
  apply bind_ok in Hd as (ti & Hti & Hd). unfold trackedInterestPart in Hti. rewrite E2, E3 in *.
  destruct HR as [R1 R2 R3 R4 R5]. destruct HO as [O1 O2 O3 O4]. unfold exposure in *.
  apply bind_ok in Hti as (s1 & Hs1 & Hti).
  pose proof (grid_add_ok _ _ _ _ _ _ _ HG R2 R3 ltac:(lia) Hs1) as G5.
  pose proof (grid_sub_ok _ _ _ _ _ _ _ HG G1 G5 ltac:(lia) Hti) as G6.
  apply bind_ok in Hd as (ip & Hip & Hd). pose proof (grid_add_ok _ _ _ _ _ _ _ HG G6 G3 ltac:(lia) Hip) as G7.
  apply bind_ok in Hd as (fp & Hfp & Hd). pose proof (grid_add_ok _ _ _ _ _ _ _ HG R3 G2 ltac:(lia) Hfp) as G8.
  injection Hd as <- <-. exists g. cbn. splits; auto; try lia.
  - now replace (x - g) with (u_total u - (u_principal u + u_fee u)
      + (x - g - (u_total u - u_principal u - u_fee u))) by ring.
  - now replace (c + g) with (u_fee u + (c + g - u_fee u)) by ring.
  - constructor; cbn; auto using on_grid_zero. split; [lia | reflexivity].
  - intros A HA. replace amt' with amt in Eb by congruence. rewrite (grid_ltb _ _ _ _ _ HA G4) in Eb.
    zbool. lia.
Qed.

(** The same loan, closed after one month. *)
Definition sample_interest : Number :=
  Eval vm_compute in
    ok_or zero (calculateFullPaymentInterest_terms sample_cfg sample_payment sample_rate 12 2592100
                  2592000 0 100 0).

Definition sample_interest_rounded : Number :=
  Eval vm_compute in ok_or zero (roundToAsset sample_cfg sample_asset sample_interest 0 to_nearest).

Definition sample_full_amount : STAmount := mkSTAmount sample_asset 1100000 0 false.

Definition sample_closed : LoanPaymentParts * Loan :=
  Eval vm_compute in
    value_or no_parts
      (ok_or (Unexpected tecINTERNAL, sample_loan)
         (loanMakeFullPayment sample_cfg sample_asset 2592100 sample_loan 1000 sample_full_amount)).

Lemma full_payment_exact_witness :
  exists g, 0 <= g <= 9863 /\
    principalPaid (fst sample_closed) = sfPrincipalOutstanding sample_loan /\
    on_grid 0 (9863 - g) (interestPaid (fst sample_closed)) /\
    on_grid 0 (0 + g) (feePaid (fst sample_closed)) /\
    represents (snd sample_closed) (mkUnits 0 0 0 0) /\
    sfNextPaymentDueDate (snd sample_closed) = None /\
    (forall A, on_grid 0 A (mkNumber 1100000000000000 (-9)) -> 1000000 + 9863 + 0 <= A).
Proof.
  apply (full_payment_exact sample_cfg sample_asset 2592100 sample_loan sample_units 1000
           sample_full_amount (mkNumber 1100000000000000 (-9)) sample_rate sample_interest
           sample_interest_rounded 9863 0 (fst sample_closed) (snd sample_closed));
    [apply sample_current | reflexivity | apply sample_represents | apply sample_ok | eval_cmp ..
    | apply on_grid_zero | vm_compute; reflexivity | vm_compute; reflexivity | vm_compute; reflexivity
    | apply grid_intro; eval_cmp | vm_compute; reflexivity | vm_compute; reflexivity].
Defined.

(** ** Errors *)

(** Skip the steps of a computation, down to its last branch. *)
Ltac skip_binds H :=
  repeat (apply bind_ok in H as (? & _ & H);
          repeat match type of H with context [let '(_, _) := ?p in _] => destruct p end).

Lemma computeFullPayment_error cfg asset now P F pp n prev start interval cr s due rate cf amount fr t :
  computeFullPayment cfg asset now P F pp n prev start interval cr s due rate cf amount fr =
    Ok (Unexpected t) -> t = tecKILLED \/ t = tecINSUFFICIENT_PAYMENT.
Proof.
  unfold computeFullPayment. destruct (_ <=? _); intros H; [injection H as <-; auto |].
  skip_binds H. destruct (number_ltb _ _); [injection H as <-; auto | discriminate].
Qed.

Lemma computeLatePayment_error cfg asset now P d pc rate s fee amount fr t :
  computeLatePayment cfg asset now P d pc rate s fee amount fr = Ok (Unexpected t) ->
  t = tesSUCCESS \/ t = tecINSUFFICIENT_PAYMENT.
Proof.
  unfold computeLatePayment. destruct (negb _); intros H; [injection H as <-; auto |].
  skip_binds H. destruct (number_ltb _ _); [injection H as <-; auto | discriminate].
Qed.

(** A payment that is refused leaves the loan as it was, and the code
    returned is never success; in particular a full payment is never reported
    as "nothing done", the branch the source marks as unreachable. *)
Theorem refused_payment_changes_nothing cfg asset now l feeRate amount over t l' :
  loanMakePayment cfg asset now l feeRate amount over = Ok (Unexpected t, l') \/
  loanMakeFullPayment cfg asset now l feeRate amount = Ok (Unexpected t, l') ->
  l' = l /\
  (t = tecKILLED \/ t = tecINSUFFICIENT_PAYMENT \/
   (t = tecINTERNAL /\ sfNextPaymentDueDate l = None)).
Proof.
  intros [H | H].
  - unfold loanMakePayment in H. destruct (_ || _); [injection H as <- <-; auto |].
    destruct (sfNextPaymentDueDate l) as [d |]; [| injection H as <- <-; auto].
    apply bind_ok in H as (rate & _ & H). apply bind_ok in H as (pc & _ & H).
    apply bind_ok in H as ([late | c] & HL & H); [now apply pay_value in H |].
    destruct (computeLatePayment_error _ _ _ _ _ _ _ _ _ _ _ _ HL) as [-> | ->];
      cbn [isTesSuccess negb] in H; [| injection H as <- <-; auto].
    apply bind_ok in H as (amt & _ & H). destruct (number_ltb _ _); [injection H as <- <-; auto |].
    apply bind_ok in H as ([p1 l1] & _ & H). apply bind_ok in H as ([[[k pd] p2] l2] & _ & H).
    destruct (_ && _); [| discriminate]. apply makeOverpayment_value in H as [q E]. discriminate.
  - unfold loanMakeFullPayment in H. destruct (_ || _); [injection H as <- <-; auto |].
    destruct (sfNextPaymentDueDate l) as [d |]; [| injection H as <- <-; auto].
    apply bind_ok in H as (cf & _ & H). apply bind_ok in H as (rate & _ & H).
    apply bind_ok in H as (st & _ & H). apply bind_ok in H as ([full | c] & HF & H);
      [now apply pay_value in H |].
    destruct (computeFullPayment_error _ _ _ _ _ _ _ _ _ _ _ _ _ _ _ _ _ _ HF) as [-> | ->];
      cbn [isTesSuccess negb] in H; injection H as <- <-; auto.
Qed.

Lemma refused_payment_changes_nothing_witness :
  sample_loan = sample_loan /\
  (tecINSUFFICIENT_PAYMENT = tecKILLED \/ tecINSUFFICIENT_PAYMENT = tecINSUFFICIENT_PAYMENT \/
   (tecINSUFFICIENT_PAYMENT = tecINTERNAL /\ sfNextPaymentDueDate sample_loan = None)).
Proof.
  apply (refused_payment_changes_nothing sample_cfg sample_asset 2592100 sample_loan 1000
           (mkSTAmount sample_asset 5 0 false) true tecINSUFFICIENT_PAYMENT sample_loan).
  right. vm_compute. reflexivity.
Defined.

(** ** Overpayments *)

(** What a successful overpayment computed. *)
Lemma doOverpayment_value cfg asset s pc l ir pi rate n feeRate parts l' :
  doOverpayment cfg asset s pc l ir pi rate n feeRate = Ok (Value parts, l') ->
  exists st st' f, calculateRoundedLoanState_loan cfg l = Ok st /\
    calculateRoundedLoanState_loan cfg l' = Ok st' /\ sfLoanScale l' = sfLoanScale l /\
    number_sub (round_mode cfg) (sfPrincipalOutstanding l) (sfPrincipalOutstanding l') =
      Ok (principalPaid parts) /\
    number_sub (round_mode cfg) (ls_interestDue st) (ls_interestDue st') = Ok (interestPaid parts) /\
    number_sub (round_mode cfg) (sfManagementFeeOutstanding l) (sfManagementFeeOutstanding l') = Ok f /\
    number_add (round_mode cfg) f (untrackedManagementFee pc) = Ok (feePaid parts).
Proof.
  intros H. unfold doOverpayment in H. apply bind_ok in H as ([[p | t] sb] & Ht & H); [| discriminate].
  destruct (number_leb _ _); [discriminate |]. injection H as <- <-.
  unfold tryOverpayment in Ht. cbv zeta in Ht. apply bind_ok in Ht as (raw & _ & Ht).
  apply bind_ok in Ht as (st & Hst & Ht). do 12 (apply bind_ok in Ht as (? & _ & Ht)).
  destruct (_ && _); [discriminate |]. destruct (_ || _); [discriminate |].
  apply bind_ok in Ht as (st' & Hst' & Ht). apply bind_ok in Ht as (ch & Hch & Ht).
  apply bind_ok in Ht as (pd & Hpd & Ht). apply bind_ok in Ht as (ip & Hip & Ht).
  apply bind_ok in Ht as (vc & Hvc & Ht). apply bind_ok in Ht as (f & Hf & Ht).
  apply bind_ok in Ht as (fp & Hfp & Ht). injection Ht as <- <-.
  assert (forall a b c z, calculateRoundedLoanState cfg a b c = Ok z ->
            ls_principalOutstanding z = b /\ ls_managementFeeDue z = c) as HP.
  { intros a b c z Hz. unfold calculateRoundedLoanState in Hz. peel Hz. now injection Hz as <-. }
  destruct (HP _ _ _ _ Hst) as [E1 E2]. destruct (HP _ _ _ _ Hst') as [E3 E4].
  rewrite E1, E3 in Hpd. rewrite E2, E4 in Hf.
  exists st, st', f. cbn. splits; auto.
Qed.

(** C31. An overpayment either changes nothing, and reports success so that the
    regular payments stand, or strictly reduces the principal, keeps the
    schedule, and its parts are exactly the decreases of the outstanding
    principal, interest and fee, the last plus the overpayment fee [uf]. *)
Theorem overpayment_all_or_nothing cfg asset s pc l ir pi rate n feeRate r l' :
  doOverpayment cfg asset s pc l ir pi rate n feeRate = Ok (r, l') ->
  (r = Unexpected tesSUCCESS /\ l' = l) \/
  (exists parts, r = Value parts /\
     number_ltb (sfPrincipalOutstanding l') (sfPrincipalOutstanding l) = true /\
     sfPaymentRemaining l' = sfPaymentRemaining l /\
     sfNextPaymentDueDate l' = sfNextPaymentDueDate l /\
     forall u u' uf,
       grid_scale (sfLoanScale l) -> represents l u -> represents l' u' -> units_ok u -> units_ok u' ->
       0 <= u_total u - u_principal u - u_fee u -> 0 <= u_total u' - u_principal u' - u_fee u' ->
       0 <= uf -> u_fee u + uf <= maxMantissa ->
       on_grid (sfLoanScale l) uf (untrackedManagementFee pc) ->
       u_principal u' < u_principal u /\
       on_grid (sfLoanScale l) (u_principal u - u_principal u') (principalPaid parts) /\
       on_grid (sfLoanScale l)
         (u_total u - u_principal u - u_fee u - (u_total u' - u_principal u' - u_fee u'))
         (interestPaid parts) /\
       on_grid (sfLoanScale l) (u_fee u - u_fee u' + uf) (feePaid parts)).
Proof.
  intros H. destruct (doOverpayment_cases _ _ _ _ _ _ _ _ _ _ _ _ H) as [? | (parts & -> & HL & E1 & E2)];
    [now left | right].
  destruct (doOverpayment_value _ _ _ _ _ _ _ _ _ _ _ _ H)
    as (st & st' & f & Hst & Hst' & ES & Hp & Hi & Hf & Hff).
  exists parts. splits; auto. intros u u' uf HG HR HR' HO HO' D D' Huf HB GU.
  assert (HG' : grid_scale (sfLoanScale l')) by now rewrite ES.
  pose proof (roundedLoanState_due cfg l u st HG HR HO Hst) as G1.
  pose proof (roundedLoanState_due cfg l' u' st' HG' HR' HO' Hst') as G2.
  destruct HR as [R1 R2 R3 _ _]. destruct HR' as [R1' R2' R3' _ _].
  destruct HO as [O1 O2 O3 O4]. destruct HO' as [O1' O2' O3' O4']. unfold exposure in *. rewrite ES in *.
  pose proof (grid_sub_ok _ _ _ _ _ _ _ HG R3 R3' ltac:(lia) Hf) as G3.
  splits.
  - rewrite (grid_ltb _ _ _ _ _ R2' R2) in HL. zbool. lia.
  - exact (grid_sub_ok _ _ _ _ _ _ _ HG R2 R2' ltac:(lia) Hp).
  - exact (grid_sub_ok _ _ _ _ _ _ _ HG G1 G2 ltac:(lia) Hi).
  - exact (grid_add_ok _ _ _ _ _ _ _ HG G3 GU ltac:(lia) Hff).
Qed.

Definition sample_over : PaymentComponentsPlus :=
  Eval vm_compute in
    ok_or sample_pc
      (computeOverpaymentComponents sample_cfg sample_asset 0 (mkNumber 1000000000000000 (-10)) 0 500 1000).

Definition sample_overpaid : LoanPaymentParts * Loan :=
  Eval vm_compute in
    value_or no_parts
      (ok_or (Unexpected tecINTERNAL, sample_loan)
         (doOverpayment sample_cfg sample_asset 0 sample_over sample_loan 12000 2592000 sample_rate 12 1000)).

Lemma overpayment_all_or_nothing_witness :
  number_ltb (sfPrincipalOutstanding (snd sample_overpaid)) (sfPrincipalOutstanding sample_loan) = true /\
  sfPaymentRemaining (snd sample_overpaid) = 12.
Proof.
  destruct (overpayment_all_or_nothing sample_cfg sample_asset 0 sample_over sample_loan 12000 2592000
              sample_rate 12 1000 (Value (fst sample_overpaid)) (snd sample_overpaid))
    as [[E _] | (parts & _ & HL & HN & _)]; [vm_compute; reflexivity | discriminate E |].
  split; [exact HL | exact HN].
Defined.

(** ** Components *)

(** C30. The components of a payment that is not the last, for a loan whose
    principal does not exceed its value: each part is non-negative, principal
    and fee are at most what is outstanding, interest at most the interest
    outstanding, and together they fit within the rounded periodic payment,
    which is less than the value of the loan. *)
Theorem payment_components_bounded cfg asset s t p f T P F payment rate n feeRate c :
  current cfg -> asset_scale asset s -> on_grid s t T -> on_grid s p P -> on_grid s f F ->
  units_ok (mkUnits t p f n) -> p <= t -> wf payment -> nonneg payment -> wf rate -> word n ->
  word feeRate ->
  computePaymentComponents cfg asset s T P F payment rate n feeRate = Ok c -> specialCase c = none ->
  exists r R vp vi vf,
    roundPeriodicPayment cfg asset payment s = Ok R /\ on_grid s r R /\
    on_grid s vp (trackedPrincipalDelta c) /\ on_grid s vf (trackedManagementFeeDelta c) /\
    on_grid s (vp + vi + vf) (trackedValueDelta c) /\
    0 <= vp <= p /\ 0 <= vi <= t - p /\ 0 <= vf <= f /\ vp + vi + vf <= r < t.
Proof.
  intros HC HS HT HP HF HO Hpt WP NP WR Wn Wf H HN.
  destruct (computePaymentComponents_cases cfg HC asset s t p f T P F payment rate n feeRate c HS HT HP HF
              HO WP NP WR Wn Wf H)
    as [[E _] | (r & R & [vp vi vf] & ER & GR & Hr & _ & _ & [C1 C2 C3] & (N1 & N2 & N3) & A1 & A2 & A3 & A4)];
    [congruence |].
  exists r, R, vp, vi, vf. unfold split_sum in *; units_cbn. splits; auto; lia.
Qed.

Lemma payment_components_bounded_witness :
  exists r R vp vi vf,
    roundPeriodicPayment sample_cfg sample_asset sample_payment 0 = Ok R /\ on_grid 0 r R /\
    on_grid 0 vp (trackedPrincipalDelta (components sample_pc)) /\
    on_grid 0 vf (trackedManagementFeeDelta (components sample_pc)) /\
    on_grid 0 (vp + vi + vf) (trackedValueDelta (components sample_pc)) /\
    0 <= vp <= 1000000 /\ 0 <= vi <= 1065263 - 1000000 /\ 0 <= vf <= 652 /\
    vp + vi + vf <= r < 1065263.
Proof.
  apply (payment_components_bounded sample_cfg sample_asset 0 1065263 1000000 652
           (sfTotalValueOutstanding sample_loan) (sfPrincipalOutstanding sample_loan)
           (sfManagementFeeOutstanding sample_loan) sample_payment sample_rate 12 1000
           (components sample_pc));
    [apply sample_current | reflexivity | apply sample_represents .. | apply sample_ok | eval_cmp
    | apply sample_payment_wf | reflexivity | apply sample_rate_wf | split; eval_cmp | split; eval_cmp
    | vm_compute; reflexivity | reflexivity].
Defined.

(** The management fee of a value of the scale is always computed, at every
    rate of at most 100%, and lies between zero and the value, on the grid of
    the scale. *)
Theorem computeFee_bounded cfg asset s x v rate :
  current cfg -> asset_scale asset s -> on_grid s x v -> 0 <= x -> 0 <= rate <= tenthBipsPerUnity ->
  exists z g, computeFee cfg asset v rate s = Ok z /\ on_grid s g z /\ 0 <= g <= x.
Proof. apply computeFee_returns. Qed.

Lemma computeFee_bounded_witness :
  exists z g, computeFee sample_cfg sample_asset (mkNumber 6526300000000000 (-11)) 1000 0 = Ok z /\
    on_grid 0 g z /\ 0 <= g <= 65263.
Proof.
  apply (computeFee_bounded sample_cfg sample_asset 0 65263 (mkNumber 6526300000000000 (-11)) 1000);
    [apply sample_current | reflexivity | apply grid_intro; eval_cmp | eval_cmp | eval_cmp].
Defined.

(** The seconds since the last payment are computed in 32 bits.  When the
    last payment date lies in the future, as it does after every payment made
    before its due date, the accrued interest is that of [2^32] seconds later:
    a borrower who has paid the first instalment early cannot close the loan
    with nine times its value. *)
Theorem accrued_interest_wraps :
  (forall cfg P rate now start prev interval,
     word now -> word start -> word prev -> now < Z.max prev start ->
     loanAccruedInterest cfg P rate now start prev interval =
     loanAccruedInterest cfg P rate (now + 2 ^ 32) start prev interval /\
     2 ^ 32 - Z.max prev start <= u32 (now - Z.max prev start)) /\
  sfPreviousPaymentDate (snd sample_paid) = 2592100 /\
  loanMakeFullPayment sample_cfg sample_asset 2000 (snd sample_paid) 1000
    (mkSTAmount sample_asset 9000000 0 false) = Ok (Unexpected tecINSUFFICIENT_PAYMENT, snd sample_paid).
Proof.
  splits; [| reflexivity | vm_compute; reflexivity].
  intros cfg P rate now start prev interval Hn Hs Hp HL. unfold word in *.
  assert (E : u32 (now + 2 ^ 32 - Z.max prev start) = u32 (now - Z.max prev start)).
  { unfold u32. replace (now + 2 ^ 32 - Z.max prev start) with (now - Z.max prev start + 1 * 2 ^ 32) by ring.
    apply Z_mod_plus_full. }
  split; [unfold loanAccruedInterest; now rewrite E |].
  rewrite <- E, u32_id by lia. lia.
Qed.
