(* ===== verification/LedgerViews.v ===== *)
(** * Ledger state and the interfaces of its views

    The state of a ledger is a map from 256-bit keys to ledger entries.  The
    server reads it through the interface [ReadView] and changes it through
    [RawView]; the closed ledger implements both over its state map, and the
    tables of [RawStateTable] and [ApplyStateTable] implement both on top of
    another view.  This file holds the entries, the shared store of entries
    that several tables point into, the two interfaces with the laws their
    documentation states, and the closed ledger as their first instance
    ([include/xrpl/ledger/{ReadView,RawView}.h], [src/libxrpl/protocol/Keylet.cpp],
    [src/xrpld/app/ledger/Ledger.cpp]).

    The state map of a closed ledger is the contract of [SHAMap]: a finite map
    with iteration in key order.  Entries are kept decoded. *)

From S2P Require Import Prelude.
From stdpp Require Import sorting functions gmap list.

Local Open Scope Z_scope.

(** ** Entries and keylets

    The ledger entry types with a reading of their own in [Keylet::check]. *)

Definition ltANY : Z := 0.
Definition ltCHILD : Z := 0x1CD2.
Definition ltDIR_NODE : Z := 0x0064.

(** An entry: its type and key, fixed for its lifetime, and its fields. *)
Record SLE (F : Type) := mkSLE { getType : Z; key : Z; fields : F }.

Arguments mkSLE {F}.
Arguments getType {F}.
Arguments key {F}.
Arguments fields {F}.

Record Keylet := mkKeylet { kl_type : Z; kl_key : Z }.

(** [Keylet::check]. *)
Definition check {F} (k : Keylet) (sle : SLE F) : bool :=
  if kl_type k =? ltANY then true
  else if kl_type k =? ltCHILD then negb (getType sle =? ltDIR_NODE)
  else (getType sle =? kl_type k) && (key sle =? kl_key k).

(** [keylet::unchecked]. *)
Definition unchecked (k : Z) : Keylet := mkKeylet ltANY k.

(** ** The shared store

    Tables hold [std::shared_ptr<SLE>].  A pointer is a position of a store
    all tables share, so a write through a pointer is seen by every table that
    holds it. *)

Record Heap (F : Type) := mkHeap { obj : positive -> SLE F; next : positive }.

Arguments mkHeap {F}.
Arguments obj {F}.
Arguments next {F}.

Definition alloc {F} (h : Heap F) (s : SLE F) : positive * Heap F :=
  (next h, mkHeap (<[next h := s]> (obj h)) (Pos.succ (next h))).

(** A write of fields through a non-const pointer. *)
Definition assign {F} (h : Heap F) (p : positive) (f : F) : Heap F :=
  let s := obj h p in
  mkHeap (<[p := mkSLE (getType s) (key s) f]> (obj h)) (next h).

(** ** Iteration in key order

    [std::map] and [SHAMap] iterate in the order of their keys. *)

Definition key_le {A} : relation (Z * A) := fun x y => x.1 <= y.1.

#[export] Instance key_le_dec {A} : RelDecision (@key_le A).
Proof. intros x y; unfold key_le; apply _. Defined.

Definition in_order {A} (m : gmap Z A) : list (Z * A) :=
  merge_sort key_le (map_to_list m).

(** [upper_bound]: the elements with a greater key. *)
Definition upper_bound {A} (k : Z) (l : list (Z * A)) : list (Z * A) :=
  filter (fun x => k < x.1) l.

(** Where a range starts: [begin] or [upper_bound(key)]. *)
Definition from {A} (start : option Z) (l : list (Z * A)) : list (Z * A) :=
  match start with None => l | Some k => upper_bound k l end.

(** The test [last && next >= last] on optional keys. *)
Definition past (last : option Z) (k : Z) : bool :=
  match last with None => false | Some l => l <=? k end.

(** ** The interfaces

    [ReadView]: the answers of a view in its present state.  [rv_sles] is the
    range [sles] from a start to its end, [None] when walking it dereferences
    a null pointer. *)

Record ReadView (F : Type) := mkView {
  rv_exists : Keylet -> bool;
  rv_succ : Z -> option Z -> option Z;
  rv_read : Keylet -> option (SLE F);
  rv_sles : option Z -> option (list (SLE F)) }.

Arguments mkView {F}.
Arguments rv_exists {F}.
Arguments rv_succ {F}.
Arguments rv_read {F}.
Arguments rv_sles {F}.

(** [RawView]. *)
Class RawView (F V : Type) := {
  rawErase : Heap F -> V -> positive -> result V;
  rawInsert : Heap F -> V -> positive -> result V;
  rawReplace : Heap F -> V -> positive -> result V;
  rawDestroyXRP : V -> Z -> V }.

(** [TxsRawView]; [T] is the serialized transaction with its metadata. *)
Class TxsRawView (T V : Type) := {
  rawTxInsert : V -> Z -> T -> result V }.

(** ** The closed ledger

    [stateMap_], [txMap_] and [info_.drops] of [Ledger]. *)

Record Ledger (F T : Type) := mkLedger {
  stateMap : gmap Z (SLE F);
  txMap : gmap Z T;
  drops : Z }.

Arguments mkLedger {F T}.
Arguments stateMap {F T}.
Arguments txMap {F T}.
Arguments drops {F T}.

Section Closed.
Context {F T : Type}.

Definition ledger_exists (l : Ledger F T) (k : Keylet) : bool :=
  bool_decide (is_Some (stateMap l !! kl_key k)).

Definition ledger_succ (l : Ledger F T) (k : Z) (last : option Z) : option Z :=
  match upper_bound k (in_order (stateMap l)) with
  | [] => None
  | (n, _) :: _ => if past last n then None else Some n
  end.

Definition ledger_read (l : Ledger F T) (k : Keylet) : option (SLE F) :=
  if kl_key k =? 0 then None
  else
    match stateMap l !! kl_key k with
    | None => None
    | Some sle => if check k sle then Some sle else None
    end.

Definition ledger_sles (l : Ledger F T) (start : option Z) : option (list (SLE F)) :=
  Some (from start (in_order (stateMap l))).*2.

Definition ledger_view (l : Ledger F T) : ReadView F :=
  mkView (ledger_exists l) (ledger_succ l) (ledger_read l) (ledger_sles l).

Definition ledger_rawErase (h : Heap F) (l : Ledger F T) (p : positive)
    : result (Ledger F T) :=
  let k := key (obj h p) in
  match stateMap l !! k with
  | None => Throw logic_error
  | Some _ => Ok (mkLedger (delete k (stateMap l)) (txMap l) (drops l))
  end.

Definition ledger_rawInsert (h : Heap F) (l : Ledger F T) (p : positive)
    : result (Ledger F T) :=
  let k := key (obj h p) in
  match stateMap l !! k with
  | Some _ => Throw logic_error
  | None => Ok (mkLedger (<[k := obj h p]> (stateMap l)) (txMap l) (drops l))
  end.

Definition ledger_rawReplace (h : Heap F) (l : Ledger F T) (p : positive)
    : result (Ledger F T) :=
  let k := key (obj h p) in
  match stateMap l !! k with
  | None => Throw logic_error
  | Some _ => Ok (mkLedger (<[k := obj h p]> (stateMap l)) (txMap l) (drops l))
  end.

Definition ledger_rawDestroyXRP (l : Ledger F T) (fee : Z) : Ledger F T :=
  mkLedger (stateMap l) (txMap l) (i64 (drops l - fee)).

#[export] Instance ledger_raw : RawView F (Ledger F T) := {
  rawErase := ledger_rawErase;
  rawInsert := ledger_rawInsert;
  rawReplace := ledger_rawReplace;
  rawDestroyXRP := ledger_rawDestroyXRP }.

Definition ledger_rawTxInsert (l : Ledger F T) (k : Z) (t : T) : result (Ledger F T) :=
  match txMap l !! k with
  | Some _ => Throw logic_error
  | None => Ok (mkLedger (stateMap l) (<[k := t]> (txMap l)) (drops l))
  end.

#[export] Instance ledger_txs_raw : TxsRawView T (Ledger F T) := {
  rawTxInsert := ledger_rawTxInsert }.

End Closed.

(** ** What the interfaces promise

    [is_succ m k last r]: [r] is the least key of [m] in the open interval
    [(k, last)], or nothing when the interval holds none. *)

Definition below (last : option Z) (k : Z) : Prop :=
  match last with None => True | Some l => k < l end.

Definition is_succ {A} (m : gmap Z A) (k : Z) (last r : option Z) : Prop :=
  match r with
  | Some n =>
      k < n /\ below last n /\ is_Some (m !! n) /\
      (forall n', k < n' -> is_Some (m !! n') -> n <= n')
  | None => forall n', k < n' -> below last n' -> m !! n' = None
  end.

(** The entry a keylet selects. *)
Definition select {F} (m : gmap Z (SLE F)) (k : Keylet) : option (SLE F) :=
  match m !! kl_key k with
  | Some s => if check k s then Some s else None
  | None => None
  end.

(** Every entry sits at its own key, and no entry has the key zero. *)
Definition keyed {F} (m : gmap Z (SLE F)) : Prop :=
  forall k s, m !! k = Some s -> key s = k /\ k <> 0.

(** [v] answers as the map [m].  Whether [exists] looks at the type of an entry
    is left open: the closed ledger does not, the tables do. *)
Record Represents {F} (v : ReadView F) (m : gmap Z (SLE F)) : Prop := {
  rep_keyed : keyed m;
  rep_read : forall k, rv_read v k = select m k;
  rep_exists : forall k, is_Some (select m k) -> rv_exists v k = true;
  rep_absent : forall k, m !! kl_key k = None -> rv_exists v k = false;
  rep_succ : forall k last, is_succ m k last (rv_succ v k last) }.

(** The range [sles] of [v] is the entries of [m] in key order. *)
Definition Iterates {F} (v : ReadView F) (m : gmap Z (SLE F)) : Prop :=
  forall start, rv_sles v start = Some (from start (in_order m)).*2.

(** A raw view whose requirements ("the key must exist", "the key must not
    already exist") are met performs the change on the state it holds.
    [holds h v m r]: in the store [h] the view [v] holds the state [m] and,
    besides it, [r]; destroying XRP changes only [r]. *)
Class RawViewLaws (F V : Type) `{RawView F V} := {
  Rest : Type;
  spend : Z -> Rest -> Rest;
  holds : Heap F -> V -> gmap Z (SLE F) -> Rest -> Prop;
  holds_keyed : forall h v m r, holds h v m r -> keyed m;
  erase_law : forall h v m r p, holds h v m r ->
    is_Some (m !! key (obj h p)) ->
    exists v', rawErase h v p = Ok v' /\ holds h v' (delete (key (obj h p)) m) r;
  insert_law : forall h v m r p, holds h v m r ->
    m !! key (obj h p) = None -> key (obj h p) <> 0 ->
    exists v', rawInsert h v p = Ok v' /\
      holds h v' (<[key (obj h p) := obj h p]> m) r;
  replace_law : forall h v m r p, holds h v m r ->
    is_Some (m !! key (obj h p)) ->
    exists v', rawReplace h v p = Ok v' /\
      holds h v' (<[key (obj h p) := obj h p]> m) r;
  destroy_law : forall h v m r fee, holds h v m r ->
    holds h (rawDestroyXRP v fee) m (spend fee r) }.

(** A raw view that also takes transactions keeps them by key and refuses a
    second transaction with the same key. *)
Class TxsRawViewLaws (F T V : Type) `{L : RawViewLaws F V, !TxsRawView T V} := {
  rest_txs : Rest -> gmap Z T;
  put_tx : Z -> T -> Rest -> Rest;
  rest_spend : forall fee r, rest_txs (spend fee r) = rest_txs r;
  rest_put : forall k t r, rest_txs (put_tx k t r) = <[k := t]> (rest_txs r);
  tx_law : forall h v m r k t, holds h v m r -> rest_txs r !! k = None ->
    exists v', rawTxInsert v k t = Ok v' /\ holds h v' m (put_tx k t r);
  tx_duplicate : forall h v m r k t, holds h v m r -> is_Some (rest_txs r !! k) ->
    rawTxInsert v k t = Throw logic_error }.

(** ** Lemmas on iteration in key order *)

Definition key_lt {A} : relation (Z * A) := fun x y => x.1 < y.1.

#[export] Instance key_le_trans {A} : Transitive (@key_le A).
Proof. intros x y z; unfold key_le; lia. Qed.

#[export] Instance key_le_total {A} : Total (@key_le A).
Proof. intros x y; unfold key_le; lia. Qed.

Section Order.
Context {A : Type}.
Implicit Types (m : gmap Z A) (l : list (Z * A)).

Lemma elem_of_in_order m k x : (k, x) ∈ in_order m <-> m !! k = Some x.
Proof.
  unfold in_order. rewrite merge_sort_Permutation. apply elem_of_map_to_list.
Qed.

Lemma sorted_strict l :
  NoDup l.*1 -> StronglySorted key_le l -> StronglySorted key_lt l.
Proof.
  induction l as [|x l IH]; simpl; intros Hd Hs; [constructor|].
  apply NoDup_cons in Hd as [Hx Hd]. apply StronglySorted_cons in Hs as [Hle Hs].
  constructor; [auto|].
  apply Forall_forall; intros y Hy.
  pose proof (proj1 (Forall_forall _ _) Hle y Hy) as Hxy. unfold key_le, key_lt in *.
  assert (x.1 <> y.1) by (intros E; apply Hx; rewrite E; by apply list_elem_of_fmap_2).
  lia.
Qed.

Lemma in_order_sorted m : StronglySorted key_lt (in_order m).
Proof.
  apply sorted_strict; [|apply StronglySorted_merge_sort; apply _].
  unfold in_order. rewrite merge_sort_Permutation. apply NoDup_fst_map_to_list.
Qed.

Lemma sorted_ext l1 l2 :
  StronglySorted key_lt l1 -> StronglySorted key_lt l2 ->
  (forall x, x ∈ l1 <-> x ∈ l2) -> l1 = l2.
Proof.
  revert l2. induction l1 as [|x l1 IH]; intros [|y l2] H1 H2 H.
  - done.
  - by destruct (not_elem_of_nil y (proj2 (H y) (list_elem_of_here _ _))).
  - by destruct (not_elem_of_nil x (proj1 (H x) (list_elem_of_here _ _))).
  - apply StronglySorted_cons in H1 as [F1 H1], H2 as [F2 H2].
    assert (x = y) as ->.
    { pose proof (proj1 (H x) (list_elem_of_here _ _)) as Hx.
      pose proof (proj2 (H y) (list_elem_of_here _ _)) as Hy.
      rewrite elem_of_cons in Hx, Hy. destruct Hx as [->|Hx]; [done|].
      destruct Hy as [->|Hy]; [done|].
      pose proof (proj1 (Forall_forall _ _) F1 _ Hy).
      pose proof (proj1 (Forall_forall _ _) F2 _ Hx). unfold key_lt in *. lia. }
    f_equal. apply IH; auto. intros z. specialize (H z).
    rewrite !elem_of_cons in H.
    assert (forall l, Forall (key_lt y) l -> z ∈ l -> z <> y) as Hne.
    { intros l Hl Hz ->. pose proof (proj1 (Forall_forall _ _) Hl _ Hz).
      unfold key_lt in *. lia. }
    split; intros Hz.
    + pose proof (Hne _ F1 Hz). tauto.
    + pose proof (Hne _ F2 Hz). tauto.
Qed.

Lemma sorted_filter (P : Z * A -> Prop) `{!forall x, Decision (P x)} l :
  StronglySorted key_lt l -> StronglySorted key_lt (filter P l).
Proof.
  induction 1 as [|x l Hs IH Hf]; [constructor|].
  rewrite filter_cons. case_decide; [|done].
  constructor; [done|]. apply Forall_forall; intros y Hy.
  apply list_elem_of_filter in Hy as [_ Hy].
  exact (proj1 (Forall_forall _ _) Hf _ Hy).
Qed.

Lemma upper_bound_sorted k l :
  StronglySorted key_lt l -> StronglySorted key_lt (upper_bound k l).
Proof. apply sorted_filter. Qed.

Lemma elem_of_upper_bound k l x : x ∈ upper_bound k l <-> k < x.1 /\ x ∈ l.
Proof. unfold upper_bound. by rewrite list_elem_of_filter. Qed.

Lemma from_sorted start l :
  StronglySorted key_lt l -> StronglySorted key_lt (from start l).
Proof. destruct start; simpl; auto using upper_bound_sorted. Qed.

Lemma elem_of_from start l x :
  x ∈ from start l <-> (forall k, start = Some k -> k < x.1) /\ x ∈ l.
Proof.
  destruct start; simpl.
  - rewrite elem_of_upper_bound. split; intros [H Hx]; split; try done; [|by apply H].
    by intros k [= ->].
  - split; [|tauto]. by intros Hx.
Qed.

(** The head of a sorted list is its least element. *)
Lemma sorted_head x l y : StronglySorted key_lt (x :: l) -> y ∈ x :: l -> x.1 <= y.1.
Proof.
  intros Hs. rewrite elem_of_cons. intros [->|Hy]; [lia|].
  apply StronglySorted_cons in Hs as [Hf _].
  pose proof (proj1 (Forall_forall _ _) Hf _ Hy). unfold key_lt in *. lia.
Qed.

Lemma is_succ_upper_bound m k :
  is_succ m k None (fst <$> head (upper_bound k (in_order m))).
Proof.
  pose proof (upper_bound_sorted k _ (in_order_sorted m)) as Hs.
  assert (forall n x, (n, x) ∈ upper_bound k (in_order m) <-> k < n /\ m !! n = Some x)
    as Hin by (intros; rewrite elem_of_upper_bound, elem_of_in_order; done).
  destruct (upper_bound k (in_order m)) as [|[n x] l]; simpl.
  - intros n' Hn _. apply eq_None_not_Some. intros [y Hy].
    by destruct (not_elem_of_nil _ (proj2 (Hin n' y) (conj Hn Hy))).
  - destruct (proj1 (Hin n x) (list_elem_of_here _ _)) as [Hk Hx].
    splits; [done|done|by eexists|]. intros n' Hn [y Hy].
    exact (sorted_head _ _ (n', y) Hs (proj2 (Hin n' y) (conj Hn Hy))).
Qed.

(** Cutting an unbounded successor at [last]. *)
Lemma is_succ_cut m k last r :
  is_succ m k None r ->
  is_succ m k last
    (match r with Some n => if past last n then None else Some n | None => None end).
Proof.
  destruct r as [n|]; simpl.
  - intros (Hk & _ & Hn & Hmin). unfold past, below. destruct last as [l|]; [|naive_solver].
    destruct (l <=? n) eqn:E; zbool; simpl; [|naive_solver].
    intros n' Hk' Hl. apply eq_None_not_Some. intros Hs. specialize (Hmin n' Hk' Hs). lia.
  - auto.
Qed.

End Order.

(** ** The closed ledger meets the interfaces *)

Section ClosedLaws.
Context {F T : Type}.
Implicit Types (l : Ledger F T) (h : Heap F).

Lemma ledger_represents l : keyed (stateMap l) -> Represents (ledger_view l) (stateMap l).
Proof.
  intros Hk. split; simpl.
  - done.
  - intros k. unfold ledger_read, select.
    destruct (kl_key k =? 0) eqn:E; zbool; [|done].
    destruct (stateMap l !! kl_key k) eqn:Hl; [|done].
    by destruct (Hk _ _ Hl).
  - intros k. unfold select, ledger_exists. intros [s Hs].
    destruct (stateMap l !! kl_key k); [done|discriminate].
  - intros k Hn. unfold ledger_exists. by rewrite Hn.
  - intros k last. unfold ledger_succ.
    pose proof (is_succ_cut _ _ last _ (is_succ_upper_bound (stateMap l) k)) as H.
    by destruct (upper_bound k _) as [|[n x] r].
Qed.

Lemma ledger_iterates l : Iterates (ledger_view l) (stateMap l).
Proof. intros start; reflexivity. Qed.

Lemma keyed_delete (m : gmap Z (SLE F)) k : keyed m -> keyed (delete k m).
Proof. intros Hm k' s Hs. apply lookup_delete_Some in Hs as [_ Hs]. eauto. Qed.

Lemma keyed_insert (m : gmap Z (SLE F)) s :
  keyed m -> key s <> 0 -> keyed (<[key s := s]> m).
Proof.
  intros Hm Hs k' s'. rewrite lookup_insert_Some. intros [[<- <-]|[_ Hl]]; eauto.
Qed.

Lemma keyed_nonzero (m : gmap Z (SLE F)) k : keyed m -> is_Some (m !! k) -> k <> 0.
Proof. intros Hm [s Hs]. by destruct (Hm _ _ Hs). Qed.

#[export] Instance ledger_laws : RawViewLaws F (Ledger F T).
Proof.
  refine {| Rest := gmap Z T * Z;
            spend := fun fee r => (r.1, i64 (r.2 - fee));
            holds := fun h l m r => keyed m /\ stateMap l = m /\ (txMap l, drops l) = r |};
    [by intros h v m r []|..]; intros h [sm ts ds] m r p (Hk & Hm & Hd); simpl in *; subst.
  - intros [s Hs]. unfold ledger_rawErase; simpl. rewrite Hs.
    eexists; split; [done|]. splits; auto using keyed_delete.
  - intros Hn H0. unfold ledger_rawInsert; simpl. rewrite Hn.
    eexists; split; [done|]. splits; auto using keyed_insert.
  - intros Hs. pose proof (keyed_nonzero _ _ Hk Hs) as H0. destruct Hs as [s Hs].
    unfold ledger_rawReplace; simpl. rewrite Hs.
    eexists; split; [done|]. splits; auto using keyed_insert.
  - done.
Defined.

#[export] Instance ledger_txs_laws : TxsRawViewLaws F T (Ledger F T).
Proof.
  refine {| rest_txs := fun r : Rest => r.1;
            put_tx := fun k t (r : Rest) => (<[k := t]> r.1, r.2) : Rest |};
    [done|done|..]; intros h [sm ts ds] m r k t (Hk & Hm & Hd) Ht; simpl in *; subst;
    unfold ledger_rawTxInsert; simpl in *.
  - rewrite Ht. eexists; split; [done|]. done.
  - by destruct Ht as [t' ->].
Defined.

End ClosedLaws.
