(* ===== verification/LedgerTables.v ===== *)
(** * Tables of pending changes over a parent view

    [RawStateTable] and [ApplyStateTable] both keep a [std::map] from keys to an
    action and an entry, and answer by looking there first and in the parent
    otherwise.  This file holds what they share: the state seen through a table
    ([overlay]), and the search for the next key, which both files of the source
    spell out in the same words ([src/libxrpl/ledger/RawStateTable.cpp],
    [src/libxrpl/ledger/ApplyStateTable.cpp]). *)

From S2P Require Import Prelude.
From S2P Require Import LedgerViews.
From stdpp Require Import sorting functions gmap list.

Local Open Scope Z_scope.

(** ** The next key

    [parent_succ] is the loop that asks the parent for its next key until it is
    one the table has not erased; its answer is [None] when [fuel] rounds do not
    end it.  [first_kept] is the loop over the table's own later keys. *)

Section NextKey.
Context {I : Type}.
Variable is_erase : I -> bool.
Variable items : gmap Z I.
Variable base_succ : Z -> option Z -> option Z.

Fixpoint parent_succ (fuel : nat) (next : Z) (last : option Z) : option (option Z) :=
  match fuel with
  | O => None
  | S fuel =>
      match base_succ next last with
      | None => Some None
      | Some n =>
          match items !! n with
          | Some item =>
              if is_erase item then parent_succ fuel n last else Some (Some n)
          | None => Some (Some n)
          end
      end
  end.

Fixpoint first_kept (l : list (Z * I)) : option Z :=
  match l with
  | [] => None
  | (k, item) :: l => if is_erase item then first_kept l else Some k
  end.

Definition table_succ (k : Z) (last : option Z) : option Z :=
  match parent_succ (S (size items)) k last with
  | None => None
  | Some next =>
      let next :=
        match first_kept (upper_bound k (in_order items)) with
        | Some own =>
            match next with
            | Some n => if own <? n then Some own else Some n
            | None => Some own
            end
        | None => next
        end in
      match next with
      | Some n => if past last n then None else Some n
      | None => None
      end
  end.

End NextKey.

(** ** The state seen through a table

    A pending change at a key is an entry that is now there, or its absence. *)

Definition overlay {A} (c : gmap Z (option A)) (m : gmap Z A) : gmap Z A :=
  merge (fun new old => match new with Some s => s | None => old end) c m.

(** ** Lemmas *)

Section NextKeyCorrect.
Context {I A : Type}.
Variable is_erase : I -> bool.
Variable items : gmap Z I.
Variable base_succ : Z -> option Z -> option Z.
Variable mb : gmap Z A.
Hypothesis Hbase : forall k last, is_succ mb k last (base_succ k last).

(** The keys of the parent that the table has not erased. *)
Definition survives (n : Z) : Prop :=
  is_Some (mb !! n) /\ forall it, items !! n = Some it -> is_erase it = false.

Lemma parent_succ_spec fuel k last r :
  parent_succ is_erase items base_succ fuel k last = Some r ->
  match r with
  | Some n => k < n /\ below last n /\ survives n /\
      (forall n', k < n' -> survives n' -> n <= n')
  | None => forall n', k < n' -> below last n' -> ~ survives n'
  end.
Proof.
  revert k. induction fuel as [|fuel IH]; intros k; simpl; [discriminate|].
  pose proof (Hbase k last) as Hs. destruct (base_succ k last) as [n|]; simpl in Hs.
  - destruct Hs as (Hk & Hl & Hn & Hmin).
    destruct (items !! n) as [it|] eqn:Hit; [destruct (is_erase it) eqn:He|].
    + intros H. specialize (IH n H).
      assert (forall n', k < n' -> survives n' -> n < n') as Hlt.
      { intros n' Hk' Hs'. pose proof (Hmin n' Hk' (proj1 Hs')).
        enough (n <> n') by lia. intros <-. by rewrite (proj2 Hs' _ Hit) in He. }
      destruct r as [n0|].
      * destruct IH as (H1 & H2 & H3 & H4). splits; [lia|done|done|]. eauto.
      * intros n' Hk' Hl' Hs'. exact (IH n' (Hlt n' Hk' Hs') Hl' Hs').
    + intros [= <-]. splits; auto; [|by intros n' Hk' []; auto].
      split; [done|]. intros it'. by rewrite Hit; intros [= <-].
    + intros [= <-]. splits; auto; [|by intros n' Hk' []; auto].
      split; [done|]. intros it'. by rewrite Hit.
  - intros [= <-] n' Hk' Hl' [[x Hx] _]. by rewrite (Hs n' Hk' Hl') in Hx.
Qed.

(** The table's keys after [k]. *)
Definition later (k : Z) : gmap Z I := filter (fun x : Z * I => k < x.1) items.

(** The loop ends: each round that goes on leaves behind a key of the table. *)
Lemma parent_succ_ends fuel k last :
  (size (later k) < fuel)%nat ->
  exists r, parent_succ is_erase items base_succ fuel k last = Some r.
Proof.
  revert k. induction fuel as [|fuel IH]; intros k Hsz; simpl; [lia|].
  pose proof (Hbase k last) as Hs. destruct (base_succ k last) as [n|]; [|eauto].
  destruct Hs as (Hk & _). destruct (items !! n) as [it|] eqn:Hit; [|eauto].
  destruct (is_erase it); [|eauto]. apply IH.
  enough (size (later n) < size (later k))%nat by lia.
  apply map_subset_size. split.
  - apply map_filter_subseteq_ext. intros i x _; simpl; lia.
  - intros Hsub. apply map_subseteq_spec with (i := n) (x := it) in Hsub.
    + apply map_lookup_filter_Some in Hsub as [_ Hlt]. simpl in Hlt. lia.
    + by apply map_lookup_filter_Some.
Qed.

Lemma first_kept_spec (l : list (Z * I)) :
  StronglySorted key_lt l ->
  match first_kept is_erase l with
  | Some n => (exists it, (n, it) ∈ l /\ is_erase it = false) /\
      forall n' it, (n', it) ∈ l -> is_erase it = false -> n <= n'
  | None => forall n' it, (n', it) ∈ l -> is_erase it = true
  end.
Proof.
  induction l as [|[k it] l IH]; intros Hs; simpl.
  { intros n' it' H. by apply not_elem_of_nil in H. }
  destruct (is_erase it) eqn:He.
  - apply StronglySorted_cons in Hs as [_ Hs]. specialize (IH Hs).
    destruct (first_kept is_erase l) as [n|].
    + destruct IH as [(it' & Hin & He') Hmin]. split.
      * exists it'. split; [by apply elem_of_cons; right|done].
      * intros n' it0 [Heq|Hin0]%elem_of_cons He0; [congruence|eauto].
    + intros n' it0 [Heq|Hin0]%elem_of_cons; [congruence|eauto].
  - split; [exists it; split; [apply list_elem_of_here|done]|].
    intros n' it' Hin _. exact (sorted_head _ _ (n', it') Hs Hin).
Qed.

(** Over a parent that answers as [mb], the search answers as any state that
    has the parent's surviving keys and the table's kept ones. *)
Lemma table_succ_spec (m : gmap Z A) k last :
  (forall n, is_Some (m !! n) <->
     match items !! n with Some it => is_erase it = false | None => is_Some (mb !! n) end) ->
  is_succ m k last (table_succ is_erase items base_succ k last).
Proof.
  intros Hm. unfold table_succ.
  destruct (parent_succ_ends (S (size items)) k last) as [r Hr].
  { apply Nat.lt_succ_r, map_subseteq_size, map_filter_subseteq. }
  rewrite Hr. apply parent_succ_spec in Hr.
  pose proof (first_kept_spec _ (upper_bound_sorted k _ (in_order_sorted items))) as Ho.
  assert (forall n it, (n, it) ∈ upper_bound k (in_order items) <-> k < n /\ items !! n = Some it)
    as Hin by (intros; by rewrite elem_of_upper_bound, elem_of_in_order).
  assert (forall n, is_Some (m !! n) -> survives n \/
            exists it, items !! n = Some it /\ is_erase it = false) as Hcase.
  { intros n Hn. apply Hm in Hn. destruct (items !! n) as [it|] eqn:E; [eauto|].
    left. split; [done|]. congruence. }
  assert (forall n, survives n -> is_Some (m !! n)) as Hsv.
  { intros n [Hb Hk]. apply Hm. destruct (items !! n); eauto. }
  destruct (first_kept is_erase _) as [own|].
  - destruct Ho as [(it & Hit & He) Hmin]. apply Hin in Hit as [Hk Hit].
    assert (is_Some (m !! own)) as Hown by (apply Hm; by rewrite Hit).
    assert (forall n, k < n -> is_Some (m !! n) -> survives n \/ own <= n) as Hge.
    { intros n Hn Hs. destruct (Hcase n Hs) as [|(it' & Hit' & He')]; [by left|right].
      apply (Hmin n it'); [by apply Hin|done]. }
    destruct r as [n|].
    + destruct Hr as (Hkn & Hln & Hsn & Hmn).
      apply (is_succ_cut m k last (if own <? n then Some own else Some n)).
      destruct (own <? n) eqn:E; zbool; simpl; splits; auto.
      * intros n' Hk' Hs. destruct (Hge n' Hk' Hs) as [Hv|]; [|lia].
        specialize (Hmn n' Hk' Hv). lia.
      * intros n' Hk' Hs. destruct (Hge n' Hk' Hs) as [Hv|]; [auto|lia].
    + unfold past. destruct last as [l|]; simpl in *.
      * destruct (l <=? own) eqn:E; zbool; simpl.
        -- intros n' Hk' Hl'. apply eq_None_not_Some. intros Hs.
           destruct (Hge n' Hk' Hs); [by apply (Hr n')|lia].
        -- splits; auto. intros n' Hk' Hs. destruct (decide (n' < l)); [|lia].
           destruct (Hge n' Hk' Hs); [by destruct (Hr n')|lia].
      * splits; auto. intros n' Hk' Hs.
        destruct (Hge n' Hk' Hs); [by destruct (Hr n')|lia].
  - assert (forall n, k < n -> is_Some (m !! n) -> survives n) as Hall.
    { intros n Hn Hs. destruct (Hcase n Hs) as [|(it & Hit & He)]; [done|].
      by rewrite (Ho n it) in He by (by apply Hin). }
    destruct r as [n|]; simpl.
    + destruct Hr as (Hkn & Hln & Hsn & Hmn).
      apply (is_succ_cut m k last (Some n)). simpl. splits; auto.
    + intros n' Hk' Hl'. apply eq_None_not_Some. intros Hs. by apply (Hr n'); auto.
Qed.

End NextKeyCorrect.

Section Overlay.
Context {A : Type}.
Implicit Types (c : gmap Z (option A)) (m : gmap Z A).

Lemma lookup_overlay c m k :
  overlay c m !! k = match c !! k with Some s => s | None => m !! k end.
Proof.
  unfold overlay. rewrite lookup_merge. by destruct (c !! k), (m !! k).
Qed.

Lemma overlay_empty m : overlay ∅ m = m.
Proof. apply map_eq; intros k. by rewrite lookup_overlay, lookup_empty. Qed.

Lemma overlay_insert c m k s : overlay (<[k := Some s]> c) m = <[k := s]> (overlay c m).
Proof.
  apply map_eq; intros k'. rewrite lookup_overlay.
  destruct (decide (k = k')) as [->|]; simplify_map_eq; [done|].
  by rewrite lookup_overlay.
Qed.

Lemma overlay_erase c m k : overlay (<[k := None]> c) m = delete k (overlay c m).
Proof.
  apply map_eq; intros k'. rewrite lookup_overlay.
  destruct (decide (k = k')) as [->|]; simplify_map_eq; [done|].
  by rewrite lookup_overlay.
Qed.

(** Forgetting a change at a key the parent does not have erases it. *)
Lemma overlay_forget c m k : m !! k = None -> overlay (delete k c) m = delete k (overlay c m).
Proof.
  intros Hk. apply map_eq; intros k'. rewrite lookup_overlay.
  destruct (decide (k = k')) as [->|]; simplify_map_eq; [done|].
  by rewrite lookup_overlay.
Qed.

End Overlay.

(** ** Performing the changes of a table on a raw view *)

Inductive RawOp := op_none | op_erase | op_insert | op_replace.

Section Perform.
Context {F V : Type} `{RV : RawView F V} {L : RawViewLaws F V}.
Implicit Types (h : Heap F) (v : V) (m : gmap Z (SLE F)).

Definition raw_op h (o : RawOp) (p : positive) v : result V :=
  match o with
  | op_none => Ok v
  | op_erase => rawErase h v p
  | op_insert => rawInsert h v p
  | op_replace => rawReplace h v p
  end.

Fixpoint run_ops h (l : list (Z * (RawOp * positive))) v : result V :=
  match l with
  | [] => Ok v
  | (_, (o, p)) :: l => let* v := raw_op h o p v in run_ops h l v
  end.

(** The entry at the key after an operation. *)
Definition effect h (o : RawOp) (p : positive) (old : option (SLE F)) : option (SLE F) :=
  match o with
  | op_none => old
  | op_erase => None
  | op_insert | op_replace => Some (obj h p)
  end.

(** The requirements of the operation are met. *)
Definition enabled h m (k : Z) (o : RawOp) (p : positive) : Prop :=
  o <> op_none ->
  key (obj h p) = k /\ k <> 0 /\ (m !! k = None <-> o = op_insert).

Lemma raw_op_ok h v m r k o p :
  holds h v m r -> enabled h m k o p ->
  exists v' m', raw_op h o p v = Ok v' /\ holds h v' m' r /\
    m' !! k = effect h o p (m !! k) /\ (forall k', k' <> k -> m' !! k' = m !! k').
Proof.
  intros Hv He. destruct o; simpl.
  { exists v, m. splits; auto. }
  all: destruct He as (<- & H0 & Hi); [done|].
  - destruct (erase_law h v m r p Hv) as (v' & Hr & Hv').
    { apply not_eq_None_Some. intros Hn; by apply Hi in Hn. }
    eexists v', _. splits; eauto; [by simplify_map_eq|].
    intros k' Hk. by rewrite lookup_delete_ne.
  - destruct (insert_law h v m r p Hv) as (v' & Hr & Hv'); [by apply Hi|done|].
    eexists v', _. splits; eauto; [by simplify_map_eq|].
    intros k' Hk. by rewrite lookup_insert_ne.
  - destruct (replace_law h v m r p Hv) as (v' & Hr & Hv').
    { apply not_eq_None_Some. intros Hn; by apply Hi in Hn. }
    eexists v', _. splits; eauto; [by simplify_map_eq|].
    intros k' Hk. by rewrite lookup_insert_ne.
Qed.

Lemma run_ops_ok h l v m r :
  holds h v m r -> StronglySorted key_lt l ->
  (forall k o p, (k, (o, p)) ∈ l -> enabled h m k o p) ->
  exists v' m', run_ops h l v = Ok v' /\ holds h v' m' r /\
    (forall k o p, (k, (o, p)) ∈ l -> m' !! k = effect h o p (m !! k)) /\
    (forall k, k ∉ l.*1 -> m' !! k = m !! k).
Proof.
  revert v m. induction l as [|[k [o p]] l IH]; intros v m Hv Hs He; simpl.
  { exists v, m. splits; auto. intros k o p Hin. by apply not_elem_of_nil in Hin. }
  apply StronglySorted_cons in Hs as [Hf Hs].
  assert (forall k' x, (k', x) ∈ l -> k < k') as Hlt.
  { intros k' x Hin. exact (proj1 (Forall_forall _ _) Hf _ Hin). }
  destruct (raw_op_ok h v m r k o p Hv) as (v1 & m1 & -> & Hv1 & Hk1 & Hne1).
  { apply He, list_elem_of_here. }
  assert (k ∉ l.*1) as Hkl.
  { intros ([k' x] & -> & Hin)%list_elem_of_fmap. specialize (Hlt _ _ Hin). simpl in *; lia. }
  destruct (IH v1 m1 Hv1 Hs) as (v2 & m2 & Hr & Hv2 & Hin2 & Hout2).
  { intros k' o' p' Hin. pose proof (Hlt _ _ Hin).
    pose proof (He k' o' p' (list_elem_of_further _ _ _ Hin)) as He'.
    unfold enabled in *. rewrite Hne1 by lia. done. }
  exists v2, m2. splits; auto.
  - intros k' o' p' [[= -> -> ->]|Hin]%elem_of_cons; [by rewrite Hout2|].
    pose proof (Hlt _ _ Hin). by rewrite (Hin2 _ _ _ Hin), Hne1 by lia.
  - intros k' Hn. apply not_elem_of_cons in Hn as [Hk Hn]. by rewrite Hout2, Hne1.
Qed.

End Perform.
