(* ===== verification/RawStateTable.v ===== *)
(** * The table of raw changes and the open view

    [RawStateTable] buffers the raw changes made to a view ([erase], [insert],
    [replace]) and answers reads over a base view; its iterator merges the
    entries of the base with its own.  [OpenView] is a base view with such a
    table and the transactions applied so far
    ([include/xrpl/ledger/detail/RawStateTable.h],
    [src/libxrpl/ledger/RawStateTable.cpp], [src/libxrpl/ledger/OpenView.cpp]). *)

From S2P Require Import Prelude.
From S2P Require Import LedgerViews.
From S2P Require Import LedgerTables.
From stdpp Require Import sorting functions gmap list.

Local Open Scope Z_scope.

Inductive Action := erase_ | insert_ | replace_.

#[export] Instance Action_eq_dec : EqDecision Action.
Proof. solve_decision. Defined.

(** [sleAction]: an action and a pointer to an entry. *)
Record sleAction := mkItem { action : Action; sle : positive }.

(** [items_] and [dropsDestroyed_]. *)
Record RawStateTable := mkRaw {
  items : gmap Z sleAction;
  dropsDestroyed : Z }.

Definition is_erase (i : sleAction) : bool :=
  match action i with erase_ => true | _ => false end.

Definition set_items (t : RawStateTable) (m : gmap Z sleAction) : RawStateTable :=
  mkRaw m (dropsDestroyed t).

Section Operations.
Context {F : Type}.
Implicit Types (h : Heap F) (t : RawStateTable) (base : ReadView F) (p : positive).

Definition erase h t p : result RawStateTable :=
  let k := key (obj h p) in
  match items t !! k with
  | None => Ok (set_items t (<[k := mkItem erase_ p]> (items t)))
  | Some item =>
      match action item with
      | erase_ => Throw logic_error
      | insert_ => Ok (set_items t (delete k (items t)))
      | replace_ => Ok (set_items t (<[k := mkItem erase_ p]> (items t)))
      end
  end.

Definition insert h t p : result RawStateTable :=
  let k := key (obj h p) in
  match items t !! k with
  | None => Ok (set_items t (<[k := mkItem insert_ p]> (items t)))
  | Some item =>
      match action item with
      | erase_ => Ok (set_items t (<[k := mkItem replace_ p]> (items t)))
      | insert_ => Throw logic_error
      | replace_ => Throw logic_error
      end
  end.

Definition replace h t p : result RawStateTable :=
  let k := key (obj h p) in
  match items t !! k with
  | None => Ok (set_items t (<[k := mkItem replace_ p]> (items t)))
  | Some item =>
      match action item with
      | erase_ => Throw logic_error
      | insert_ | replace_ =>
          Ok (set_items t (<[k := mkItem (action item) p]> (items t)))
      end
  end.

Definition destroyXRP t (fee : Z) : RawStateTable :=
  mkRaw (items t) (i64 (dropsDestroyed t + fee)).

Definition exists_ h t base (k : Keylet) : bool :=
  match items t !! kl_key k with
  | None => rv_exists base k
  | Some item =>
      match action item with
      | erase_ => false
      | _ => check k (obj h (sle item))
      end
  end.

Definition succ t base (k : Z) (last : option Z) : option Z :=
  table_succ is_erase (items t) (rv_succ base) k last.

Definition read h t base (k : Keylet) : option (SLE F) :=
  match items t !! kl_key k with
  | None => rv_read base k
  | Some item =>
      match action item with
      | erase_ => None
      | _ => if check k (obj h (sle item)) then Some (obj h (sle item)) else None
      end
  end.

(** [apply]: the changes in key order, performed on another view. *)
Fixpoint apply_items `{RawView F V} h (l : list (Z * sleAction)) (to : V) : result V :=
  match l with
  | [] => Ok to
  | (_, item) :: l =>
      let* to :=
        match action item with
        | erase_ => rawErase h to (sle item)
        | insert_ => rawInsert h to (sle item)
        | replace_ => rawReplace h to (sle item)
        end in
      apply_items h l to
  end.

Definition apply `{RawView F V} h t (to : V) : result V :=
  apply_items h (in_order (items t)) (rawDestroyXRP to (dropsDestroyed t)).

(** ** The merging iterator

    [sles_iter_impl]: an iterator is the list still ahead of it, the end is
    the empty list; [sle0_] and [sle1_] are null or the entries at the heads. *)

Record sles_iter := mkIter {
  sle0 : option (SLE F);
  iter0 : list (SLE F);
  sle1 : option (SLE F);
  iter1 : list (Z * sleAction) }.

Definition item_sle h (x : Z * sleAction) : SLE F := obj h (sle x.2).

Definition inc0 (it : sles_iter) : sles_iter :=
  let l := tail (iter0 it) in mkIter (head l) l (sle1 it) (iter1 it).

Definition inc1 h (it : sles_iter) : sles_iter :=
  let l := tail (iter1 it) in
  mkIter (sle0 it) (iter0 it) (item_sle h <$> head l) l.

(** [skip]; [None] when it dereferences a null pointer.  Each round advances
    [iter1_], so its length bounds the rounds and the last case is not met. *)
Fixpoint skip_loop h (fuel : nat) (it : sles_iter) : option sles_iter :=
  match fuel with
  | O => None
  | S fuel =>
      match head (iter1 it) with
      | None => Some it
      | Some x =>
          if is_erase x.2 then
            match sle0 it, sle1 it with
            | Some s0, Some s1 =>
                if key s0 =? key s1 then
                  let it := inc0 (inc1 h it) in
                  match sle0 it with
                  | None => Some it
                  | Some _ => skip_loop h fuel it
                  end
                else Some it
            | _, _ => None
            end
          else Some it
      end
  end.

Definition skip h (it : sles_iter) : option sles_iter :=
  skip_loop h (S (length (iter1 it))) it.

(** The constructor. *)
Definition make_iter h (l1 : list (Z * sleAction)) (l0 : list (SLE F)) : option sles_iter :=
  let it := mkIter (head l0) l0 None l1 in
  match head l1 with
  | None => Some it
  | Some x => skip h (mkIter (head l0) l0 (Some (item_sle h x)) l1)
  end.

Definition increment h (it : sles_iter) : option sles_iter :=
  match sle0 it, sle1 it with
  | None, Some _ => Some (inc1 h it)
  | Some _, None => Some (inc0 it)
  | Some s0, Some s1 =>
      skip h
        (if key s1 =? key s0 then inc0 (inc1 h it)
         else if key s1 <? key s0 then inc1 h it
         else inc0 it)
  | None, None => None
  end.

Definition dereference (it : sles_iter) : option (SLE F) :=
  match sle1 it, sle0 it with
  | None, s0 => s0
  | s1, None => s1
  | Some s1, Some s0 => if key s1 <=? key s0 then Some s1 else Some s0
  end.

(** The iterator equals the end iterator. *)
Definition at_end (it : sles_iter) : bool :=
  match iter1 it, iter0 it with [], [] => true | _, _ => false end.

(** A range-for over [sles]: the entries dereferenced up to the end. *)
Fixpoint walk h (fuel : nat) (it : sles_iter) : option (list (SLE F)) :=
  if at_end it then Some []
  else
    match fuel with
    | O => None
    | S fuel =>
        match dereference it, increment h it with
        | Some s, Some it => (fun l => s :: l) <$> walk h fuel it
        | _, _ => None
        end
    end.

Definition sles h t base (start : option Z) : option (list (SLE F)) :=
  match rv_sles base start with
  | None => None
  | Some l0 =>
      let l1 := from start (in_order (items t)) in
      match make_iter h l1 l0 with
      | None => None
      | Some it => walk h (length l0 + length l1) it
      end
  end.

End Operations.

(** ** The table as changes to the state of its base *)

Section Contents.
Context {F : Type}.
Implicit Types (h : Heap F) (t : RawStateTable) (mb : gmap Z (SLE F)).

Definition changes h t : gmap Z (option (SLE F)) :=
  (fun i => if is_erase i then None else Some (obj h (sle i))) <$> items t.

(** The state of the base with the changes of the table. *)
Definition seen h t mb : gmap Z (SLE F) := overlay (changes h t) mb.

(** Items sit at the key of their entry, and an item is an insertion exactly
    when the base has no entry there. *)
Definition table_ok h t mb : Prop :=
  forall k i, items t !! k = Some i ->
    key (obj h (sle i)) = k /\ k <> 0 /\ (mb !! k = None <-> action i = insert_).

Definition table_view h t (base : ReadView F) : ReadView F :=
  mkView (exists_ h t base) (succ t base) (read h t base) (sles h t base).

End Contents.

Lemma is_erase_spec i : is_erase i = true <-> action i = erase_.
Proof. unfold is_erase. by destruct (action i). Qed.

Section ContentsFacts.
Context {F : Type}.
Implicit Types (h : Heap F) (t : RawStateTable) (mb : gmap Z (SLE F)).

Lemma raw_lookup_seen h t mb k :
  seen h t mb !! k =
    match items t !! k with
    | None => mb !! k
    | Some i => if is_erase i then None else Some (obj h (sle i))
    end.
Proof.
  unfold seen, changes. rewrite lookup_overlay, lookup_fmap. by destruct (items t !! k).
Qed.

Lemma raw_seen_keyed h t mb : keyed mb -> table_ok h t mb -> keyed (seen h t mb).
Proof.
  intros Hb Hok k s. rewrite raw_lookup_seen. destruct (items t !! k) as [i|] eqn:Hi; [|eauto].
  destruct (is_erase i); [done|]. intros [= <-]. by destruct (Hok _ _ Hi) as (? & ? & _).
Qed.

Lemma changes_insert h t k a p :
  changes h (set_items t (<[k := mkItem a p]> (items t)))
  = <[k := if is_erase (mkItem a p) then None else Some (obj h p)]> (changes h t).
Proof. unfold changes; simpl. by rewrite fmap_insert. Qed.

Lemma table_ok_insert h t mb a p :
  table_ok h t mb -> key (obj h p) <> 0 ->
  (mb !! key (obj h p) = None <-> a = insert_) ->
  table_ok h (set_items t (<[key (obj h p) := mkItem a p]> (items t))) mb.
Proof.
  intros Hok H0 Ha k i; simpl. rewrite lookup_insert_Some.
  intros [[<- <-]|[_ Hi]]; [done|eauto].
Qed.

Lemma raw_table_ok_delete h t mb k :
  table_ok h t mb -> table_ok h (set_items t (delete k (items t))) mb.
Proof. intros Hok k' i; simpl. rewrite lookup_delete_Some. intros [_ Hi]; eauto. Qed.

(** The change a raw operation makes to a table that is well formed over [mb],
    with the requirement of the operation met by the state seen. *)
Definition performs h mb (t : RawStateTable) (r : result RawStateTable)
    (m' : gmap Z (SLE F)) : Prop :=
  exists t', r = Ok t' /\ table_ok h t' mb /\ seen h t' mb = m' /\
    dropsDestroyed t' = dropsDestroyed t.

Lemma raw_performs_put h mb t a p :
  table_ok h t mb -> key (obj h p) <> 0 ->
  (mb !! key (obj h p) = None <-> a = insert_) ->
  performs h mb t (Ok (set_items t (<[key (obj h p) := mkItem a p]> (items t))))
    (if is_erase (mkItem a p) then delete (key (obj h p)) (seen h t mb)
     else <[key (obj h p) := obj h p]> (seen h t mb)).
Proof.
  intros Hok H0 Ha. eexists; splits; [done|by apply table_ok_insert| |done].
  unfold seen. rewrite changes_insert.
  by destruct a; simpl; rewrite ?overlay_insert, ?overlay_erase.
Qed.

Lemma raw_erase_performs h mb t p :
  keyed mb -> table_ok h t mb -> is_Some (seen h t mb !! key (obj h p)) ->
  performs h mb t (erase h t p) (delete (key (obj h p)) (seen h t mb)).
Proof.
  intros Hb Hok Hs. pose proof (keyed_nonzero _ _ (raw_seen_keyed _ _ _ Hb Hok) Hs) as H0.
  rewrite raw_lookup_seen in Hs. unfold erase.
  destruct (items t !! key (obj h p)) as [[a q]|] eqn:Hi.
  - destruct (Hok _ _ Hi) as (_ & _ & Ha). destruct a; simpl in *.
    + by destruct Hs.
    + eexists; splits; [done|by apply raw_table_ok_delete| |done].
      unfold seen, changes; simpl. rewrite fmap_delete.
      by rewrite overlay_forget by tauto.
    + apply (raw_performs_put h mb t erase_ p); auto. split; [by intros Hn%Ha|done].
  - apply (raw_performs_put h mb t erase_ p); auto. split; [|done].
    intros Hn; rewrite Hn in Hs; by destruct Hs.
Qed.

Lemma raw_insert_performs h mb t p :
  table_ok h t mb -> seen h t mb !! key (obj h p) = None -> key (obj h p) <> 0 ->
  performs h mb t (insert h t p) (<[key (obj h p) := obj h p]> (seen h t mb)).
Proof.
  intros Hok Hs H0. rewrite raw_lookup_seen in Hs. unfold insert.
  destruct (items t !! key (obj h p)) as [[a q]|] eqn:Hi.
  - destruct (Hok _ _ Hi) as (_ & _ & Ha). destruct a; simpl in *; [|done|done].
    apply (raw_performs_put h mb t replace_ p); auto. split; [by intros Hn%Ha|done].
  - by apply (raw_performs_put h mb t insert_ p).
Qed.

Lemma raw_replace_performs h mb t p :
  keyed mb -> table_ok h t mb -> is_Some (seen h t mb !! key (obj h p)) ->
  performs h mb t (replace h t p) (<[key (obj h p) := obj h p]> (seen h t mb)).
Proof.
  intros Hb Hok Hs. pose proof (keyed_nonzero _ _ (raw_seen_keyed _ _ _ Hb Hok) Hs) as H0.
  rewrite raw_lookup_seen in Hs. unfold replace.
  destruct (items t !! key (obj h p)) as [[a q]|] eqn:Hi.
  - destruct (Hok _ _ Hi) as (_ & _ & Ha). destruct a; simpl in *.
    + by destruct Hs.
    + by apply (raw_performs_put h mb t insert_ p).
    + by apply (raw_performs_put h mb t replace_ p).
  - apply (raw_performs_put h mb t replace_ p); auto. split; [|done].
    intros Hn; rewrite Hn in Hs; by destruct Hs.
Qed.

(** The reads of a well-formed table over a base that answers as [mb] answer as
    the state seen. *)
Lemma raw_table_represents h t (base : ReadView F) mb :
  Represents base mb -> table_ok h t mb ->
  Represents (table_view h t base) (seen h t mb).
Proof.
  intros Hb Hok.
  split; simpl.
  - exact (raw_seen_keyed _ _ _ (rep_keyed _ _ Hb) Hok).
  - intros k. unfold read, select. rewrite raw_lookup_seen.
    destruct (items t !! kl_key k) as [[a q]|]; [by destruct a|apply (rep_read _ _ Hb)].
  - intros k. unfold exists_, select. rewrite raw_lookup_seen.
    destruct (items t !! kl_key k) as [[a q]|]; simpl.
    + destruct a; simpl; destruct (check k (obj h q)); try done; by intros [].
    + apply (rep_exists _ _ Hb).
  - intros k. unfold exists_. rewrite raw_lookup_seen.
    destruct (items t !! kl_key k) as [[a q]|]; [by destruct a|apply (rep_absent _ _ Hb)].
  - intros k last. apply (table_succ_spec _ _ _ mb (rep_succ _ _ Hb)).
    intros n. rewrite raw_lookup_seen. destruct (items t !! n) as [i|]; [|done].
    by destruct (is_erase i).
Qed.

End ContentsFacts.

(** ** The iterator enumerates the state seen

    [l0] is what is left of the base, [l1] what is left of the table. *)

Section Iteration.
Context {F : Type}.
Variable h : Heap F.

(** What is still to come. *)
Definition ahead (l0 : list (Z * SLE F)) (l1 : list (Z * sleAction)) (x : Z * SLE F) : Prop :=
  match x with
  | (k, s) =>
      ((k, s) ∈ l0 /\ k ∉ l1.*1) \/
      (exists i, (k, i) ∈ l1 /\ is_erase i = false /\ s = obj h (sle i))
  end.

(** Both lists are in key order, entries sit at their keys, and what the table
    erases is still ahead in the base. *)
Record mergeable (l0 : list (Z * SLE F)) (l1 : list (Z * sleAction)) : Prop := {
  mg_sorted0 : StronglySorted key_lt l0;
  mg_sorted1 : StronglySorted key_lt l1;
  mg_key0 : forall k s, (k, s) ∈ l0 -> key s = k;
  mg_key1 : forall k i, (k, i) ∈ l1 -> key (obj h (sle i)) = k;
  mg_erase : forall k i, (k, i) ∈ l1 -> is_erase i = true -> k ∈ l0.*1 }.

(** The heads are not an entry and its erasure. *)
Definition skipped (l0 : list (Z * SLE F)) (l1 : list (Z * sleAction)) : Prop :=
  match l0, l1 with
  | (k0, _) :: _, (k1, i) :: _ => is_erase i = true -> k0 <> k1
  | _, _ => True
  end.

Definition position (l0 : list (Z * SLE F)) (l1 : list (Z * sleAction)) : sles_iter :=
  mkIter (head l0.*2) l0.*2 (item_sle h <$> head l1) l1.

Lemma sorted_not_in {A} (k : Z) (x : A) l :
  StronglySorted key_lt ((k, x) :: l) -> forall k' y, (k', y) ∈ l -> k < k'.
Proof.
  intros [Hf _]%StronglySorted_cons k' y Hin.
  exact (proj1 (Forall_forall _ _) Hf _ Hin).
Qed.

Lemma sorted_key_unique {A} (k : Z) (x y : A) l :
  StronglySorted key_lt ((k, x) :: l) -> (k, y) ∈ (k, x) :: l -> x = y.
Proof.
  intros Hs [[= <-]|Hin]%elem_of_cons; [done|].
  pose proof (sorted_not_in _ _ _ Hs _ _ Hin). lia.
Qed.

Lemma inc0_position x0 l0 l1 : inc0 (position (x0 :: l0) l1) = position l0 l1.
Proof. done. Qed.

Lemma inc1_position l0 x1 l1 : inc1 h (position l0 (x1 :: l1)) = position l0 l1.
Proof. done. Qed.

(** Leaving behind the head of the base, of the table, or of both. *)
Lemma mergeable_tail0 k0 s0 l0 l1 :
  mergeable ((k0, s0) :: l0) l1 -> (forall i, (k0, i) ∈ l1 -> is_erase i = false) ->
  mergeable l0 l1.
Proof.
  intros [S0 S1 K0 K1 E] Hk. split.
  - by apply StronglySorted_cons in S0 as [].
  - done.
  - intros k s Hin. apply K0. by apply elem_of_cons; right.
  - done.
  - intros k i Hin He. destruct (elem_of_cons l0.*1 k k0) as [Hc _].
    destruct (Hc (E k i Hin He)) as [->|]; [|done]. by rewrite (Hk i Hin) in He.
Qed.

Lemma mergeable_tail1 l0 x1 l1 : mergeable l0 (x1 :: l1) -> mergeable l0 l1.
Proof.
  intros [S0 S1 K0 K1 E]. split; auto.
  - by apply StronglySorted_cons in S1 as [].
  - intros k i Hin. apply K1. by apply elem_of_cons; right.
  - intros k i Hin. apply E. by apply elem_of_cons; right.
Qed.

Lemma mergeable_tails k s0 l0 i l1 :
  mergeable ((k, s0) :: l0) ((k, i) :: l1) -> mergeable l0 l1.
Proof.
  intros Hm. apply (mergeable_tail0 k s0); [by apply mergeable_tail1 in Hm|].
  intros i' Hin. pose proof (sorted_not_in _ _ _ (mg_sorted1 _ _ Hm) _ _ Hin). lia.
Qed.

Lemma ahead_erased k s0 l0 i l1 x :
  mergeable ((k, s0) :: l0) ((k, i) :: l1) -> is_erase i = true ->
  ahead ((k, s0) :: l0) ((k, i) :: l1) x <-> ahead l0 l1 x.
Proof.
  intros Hm He. destruct x as [k' s']; simpl. rewrite !elem_of_cons.
  pose proof (sorted_not_in _ _ _ (mg_sorted0 _ _ Hm)) as H0.
  pose proof (sorted_not_in _ _ _ (mg_sorted1 _ _ Hm)) as H1.
  split.
  - intros [[[[= -> ->]|Hin] Hn]|(i' & [[= -> ->]|Hin]%elem_of_cons & He' & ->)].
    + destruct Hn. by left.
    + left. split; [done|]. intros Hc; apply Hn. by right.
    + congruence.
    + right; eauto.
  - intros [[Hin Hn]|(i' & Hin & He' & ->)].
    + left. split; [by right|]. pose proof (H0 _ _ Hin).
      intros [->|]; [lia|done].
    + right. exists i'. split; [|done]. apply elem_of_cons. by right.
Qed.

Lemma skip_loop_spec fuel l0 l1 :
  mergeable l0 l1 -> (length l1 < fuel)%nat ->
  exists l0' l1', skip_loop h fuel (position l0 l1) = Some (position l0' l1') /\
    mergeable l0' l1' /\ skipped l0' l1' /\
    (length l0' <= length l0)%nat /\ (length l1' <= length l1)%nat /\
    (forall x, ahead l0' l1' x <-> ahead l0 l1 x).
Proof.
  revert l0 l1. induction fuel as [|fuel IH]; intros l0 l1 Hm Hlen; [lia|].
  destruct l1 as [|[k1 i] l1]; simpl.
  { exists l0, []. splits; auto. by destruct l0 as [|[]]. }
  destruct (is_erase i) eqn:He.
  - destruct l0 as [|[k0 s0] l0]; simpl.
    { by destruct (not_elem_of_nil k1 (mg_erase _ _ Hm k1 i (list_elem_of_here _ _) He)). }
    rewrite (mg_key0 _ _ Hm k0 s0 (list_elem_of_here _ _)).
    unfold item_sle at 1; simpl.
    rewrite (mg_key1 _ _ Hm k1 i (list_elem_of_here _ _)).
    destruct (k0 =? k1) eqn:E; zbool.
    + subst k1. pose proof (mergeable_tails _ _ _ _ _ Hm) as Hm'.
      change (inc0 (inc1 h (mkIter (Some s0) (s0 :: l0.*2) (Some (item_sle h (k0, i)))
                ((k0, i) :: l1)))) with (position l0 l1).
      destruct l0 as [|[k s] l0].
      * exists [], l1. simpl. splits; auto.
        intros x. symmetry. by apply ahead_erased.
      * destruct (IH ((k, s) :: l0) l1 Hm') as (l0' & l1' & Hr & Hm2 & Hsk & Hl0 & Hl1 & Ha);
          [simpl in *; lia|].
        exists l0', l1'. splits; auto; try (simpl in *; lia).
        intros x. rewrite Ha. symmetry. by apply ahead_erased.
    + exists ((k0, s0) :: l0), ((k1, i) :: l1). splits; auto. by intros _.
  - exists l0, ((k1, i) :: l1). splits; auto.
    destruct l0 as [|[k0 s0] l0]; [done|]. intros Ht; by rewrite He in Ht.
Qed.

Lemma skip_spec l0 l1 :
  mergeable l0 l1 ->
  exists l0' l1', skip h (position l0 l1) = Some (position l0' l1') /\
    mergeable l0' l1' /\ skipped l0' l1' /\
    (length l0' <= length l0)%nat /\ (length l1' <= length l1)%nat /\
    (forall x, ahead l0' l1' x <-> ahead l0 l1 x).
Proof. intros Hm. apply skip_loop_spec; [done|simpl; lia]. Qed.

(** Later than [k]. *)
Definition after {A} (k : Z) (l : list (Z * A)) : Prop := forall k' x, (k', x) ∈ l -> k < k'.

Lemma ahead_after k l0 l1 k' s' :
  after k l0 -> after k l1 -> ahead l0 l1 (k', s') -> k < k'.
Proof. intros H0 H1 [[Hin _]|(i & Hin & _)]; eauto. Qed.

Lemma after_cons {A} k k' (x : A) l :
  k < k' -> StronglySorted key_lt ((k', x) :: l) -> after k ((k', x) :: l).
Proof.
  intros Hlt Hs k2 y [[= -> ->]|Hin]%elem_of_cons; [done|].
  pose proof (sorted_not_in _ _ _ Hs _ _ Hin). lia.
Qed.

Lemma ahead_take0 k0 s0 l0 l1 x :
  after k0 l1 -> ahead ((k0, s0) :: l0) l1 x <-> x = (k0, s0) \/ ahead l0 l1 x.
Proof.
  intros H1. destruct x as [k s]; simpl. rewrite elem_of_cons. split; [tauto|].
  intros [[= -> ->]|]; [|tauto]. left. split; [by left|].
  intros ([k' i] & Hk & Hin)%list_elem_of_fmap. simpl in Hk; subst k'.
  pose proof (H1 _ _ Hin). lia.
Qed.

Lemma ahead_take1 l0 k1 i l1 x :
  after k1 l0 -> is_erase i = false ->
  ahead l0 ((k1, i) :: l1) x <-> x = (k1, obj h (sle i)) \/ ahead l0 l1 x.
Proof.
  intros H0 He. destruct x as [k s]; simpl. rewrite elem_of_cons. split.
  - intros [[Hin Hn]|(i' & [[= -> ->]|Hin]%elem_of_cons & He' & ->)]; [|by left|by eauto 6].
    right; left. split; [done|]. intros Hc; apply Hn. by right.
  - intros [[= -> ->]|[[Hin Hn]|(i' & Hin & He' & ->)]].
    + right. exists i. split; [apply list_elem_of_here|done].
    + left. split; [done|]. pose proof (H0 _ _ Hin). intros [->|]; [lia|done].
    + right. exists i'. split; [by apply elem_of_cons; right|done].
Qed.

Lemma ahead_both k s0 l0 i l1 x :
  after k l1 -> is_erase i = false ->
  ahead ((k, s0) :: l0) ((k, i) :: l1) x <-> ahead l0 ((k, i) :: l1) x.
Proof.
  intros H1 He. destruct x as [k' s']; simpl. rewrite !elem_of_cons. split.
  - intros [[[[= -> ->]|Hin] Hn]|Hi]; [|by left|by right]. destruct Hn. by left.
  - intros [[Hin Hn]|Hi]; [left; split; [by right|done]|by right].
Qed.

(** One step: what the iterator shows is the next of what is ahead. *)
Definition steps l0 l1 : Prop :=
  exists k s l0' l1',
    dereference (position l0 l1) = Some s /\
    increment h (position l0 l1) = Some (position l0' l1') /\
    mergeable l0' l1' /\ skipped l0' l1' /\
    (length l0' + length l1' < length l0 + length l1)%nat /\
    (forall x, ahead l0 l1 x <-> x = (k, s) \/ ahead l0' l1' x) /\
    (forall k' s', ahead l0' l1' (k', s') -> k < k').

(** With one side exhausted the iterator runs down the other. *)
Lemma increment_base k0 s0 l0 : mergeable ((k0, s0) :: l0) [] -> steps ((k0, s0) :: l0) [].
Proof.
  intros Hm. exists k0, s0, l0, [].
  splits; auto; [|by destruct l0 as [|[]]| |].
  - apply (mergeable_tail0 k0 s0); [done|]. intros i Hin. by apply not_elem_of_nil in Hin.
  - intros x. apply ahead_take0. intros k' y Hin. by apply not_elem_of_nil in Hin.
  - intros k' s'. apply ahead_after.
    + exact (sorted_not_in _ _ _ (mg_sorted0 _ _ Hm)).
    + intros k2 y Hin. by apply not_elem_of_nil in Hin.
Qed.

Lemma increment_own k1 i l1 : mergeable [] ((k1, i) :: l1) -> steps [] ((k1, i) :: l1).
Proof.
  intros Hm.
  assert (is_erase i = false) as He.
  { destruct (is_erase i) eqn:He; [|done].
    pose proof (mg_erase _ _ Hm k1 i (list_elem_of_here _ _) He) as Hin.
    by apply not_elem_of_nil in Hin. }
  exists k1, (obj h (sle i)), [], l1.
  splits; auto; [by apply mergeable_tail1 in Hm|done| |].
  - intros x. apply ahead_take1; [|done]. intros k' y Hin. by apply not_elem_of_nil in Hin.
  - intros k' s'. apply ahead_after.
    + intros k2 y Hin. by apply not_elem_of_nil in Hin.
    + exact (sorted_not_in _ _ _ (mg_sorted1 _ _ Hm)).
Qed.

(** With both sides present, the lower key is shown and passed, then erased
    entries are skipped. *)
Lemma increment_skip k s l0 l1 m0 m1 :
  dereference (position l0 l1) = Some s ->
  increment h (position l0 l1) = skip h (position m0 m1) ->
  mergeable m0 m1 -> (length m0 + length m1 < length l0 + length l1)%nat ->
  (forall x, ahead l0 l1 x <-> x = (k, s) \/ ahead m0 m1 x) ->
  after k m0 -> after k m1 -> steps l0 l1.
Proof.
  intros Hd Hi Hm Hlen Ha H0 H1.
  destruct (skip_spec _ _ Hm) as (l0' & l1' & Hs & Hm' & Hsk & Hl0 & Hl1 & Ha').
  exists k, s, l0', l1'. splits; auto; [congruence|lia| |].
  - intros x. by rewrite Ha, Ha'.
  - intros k' s' Hin. apply Ha' in Hin. by apply (ahead_after k m0 m1 k' s').
Qed.

Lemma increment_spec l0 l1 :
  mergeable l0 l1 -> skipped l0 l1 -> (0 < length l0 + length l1)%nat -> steps l0 l1.
Proof.
  intros Hm Hsk Hlen. destruct l0 as [|[k0 s0] l0], l1 as [|[k1 i] l1].
  { simpl in Hlen; lia. }
  { by apply increment_own. }
  { by apply increment_base. }
  pose proof (mg_key0 _ _ Hm k0 s0 (list_elem_of_here _ _)) as K0.
  pose proof (mg_key1 _ _ Hm k1 i (list_elem_of_here _ _)) as K1.
  pose proof (mg_sorted0 _ _ Hm) as S0. pose proof (mg_sorted1 _ _ Hm) as S1.
  assert (k1 < k0 -> is_erase i = false) as Hlow.
  { intros Hlt. destruct (is_erase i) eqn:He; [|done].
    pose proof (mg_erase _ _ Hm k1 i (list_elem_of_here _ _) He) as Hin.
    apply list_elem_of_fmap in Hin as ([k s] & -> & Hin); simpl in *.
    pose proof (sorted_head _ _ _ S0 Hin); simpl in *; lia. }
  destruct (Z.lt_trichotomy k1 k0) as [Hlt|[->|Hgt]].
  - apply (increment_skip k1 (obj h (sle i)) _ _ ((k0, s0) :: l0) l1);
      unfold dereference, increment, item_sle; simpl; unfold item_sle; simpl;
      rewrite ?K0, ?K1.
    + by rewrite (proj2 (Z.leb_le k1 k0)) by lia.
    + rewrite (proj2 (Z.eqb_neq k1 k0)), (proj2 (Z.ltb_lt k1 k0)) by lia. done.
    + by apply mergeable_tail1 in Hm.
    + lia.
    + intros x. apply ahead_take1; [by apply after_cons|auto].
    + by apply after_cons.
    + exact (sorted_not_in _ _ _ S1).
  - assert (is_erase i = false) as He.
    { destruct (is_erase i) eqn:He; [|done]. by destruct (Hsk He). }
    apply (increment_skip k0 (obj h (sle i)) _ _ l0 l1);
      unfold dereference, increment; simpl; unfold item_sle; simpl;
      rewrite ?K0, ?K1.
    + by rewrite (proj2 (Z.leb_le k0 k0)) by lia.
    + by rewrite Z.eqb_refl.
    + by apply mergeable_tails in Hm.
    + lia.
    + intros x. rewrite ahead_both; [|exact (sorted_not_in _ _ _ S1)|done].
      apply ahead_take1; [|done]. exact (sorted_not_in _ _ _ S0).
    + exact (sorted_not_in _ _ _ S0).
    + exact (sorted_not_in _ _ _ S1).
  - apply (increment_skip k0 s0 _ _ l0 ((k1, i) :: l1));
      unfold dereference, increment; simpl; unfold item_sle; simpl;
      rewrite ?K0, ?K1.
    + by rewrite (proj2 (Z.leb_gt k1 k0)) by lia.
    + rewrite (proj2 (Z.eqb_neq k1 k0)), (proj2 (Z.ltb_ge k1 k0)) by lia. done.
    + apply (mergeable_tail0 k0 s0); [done|]. intros i' Hin.
      pose proof (sorted_head _ _ _ S1 Hin); simpl in *; lia.
    + lia.
    + intros x. apply ahead_take0. by apply after_cons.
    + exact (sorted_not_in _ _ _ S0).
    + by apply after_cons.
Qed.

Lemma walk_spec fuel l0 l1 :
  mergeable l0 l1 -> skipped l0 l1 -> (length l0 + length l1 <= fuel)%nat ->
  exists out, walk h fuel (position l0 l1) = Some out.*2 /\
    StronglySorted key_lt out /\ (forall x, x ∈ out <-> ahead l0 l1 x).
Proof.
  revert l0 l1. induction fuel as [|fuel IH]; intros l0 l1 Hm Hsk Hlen.
  - destruct l0, l1; simpl in Hlen; try lia.
    exists []. splits; [done|constructor|]. intros [k s]; simpl. split; [by intros ?%not_elem_of_nil|].
    intros [[Hin _]|(i & Hin & _)]; by apply not_elem_of_nil in Hin.
  - destruct (decide (0 < length l0 + length l1)%nat) as [Hpos|Hz].
    + destruct (increment_spec _ _ Hm Hsk Hpos)
        as (k & s & l0' & l1' & Hd & Hi & Hm' & Hsk' & Hlen' & Ha & Hk).
      destruct (IH l0' l1' Hm' Hsk') as (out & Hw & Hs & Hin); [lia|].
      exists ((k, s) :: out). cbn [walk].
      replace (at_end (position l0 l1)) with false
        by (destruct l0 as [|[]], l1; simpl in *; [lia|done..]).
      rewrite Hd, Hi, Hw. splits; [done| |].
      * constructor; [done|]. apply Forall_forall. intros [k' s'] Hx. apply Hin in Hx.
        exact (Hk _ _ Hx).
      * intros x. rewrite elem_of_cons, Ha, Hin. done.
    + destruct l0, l1; simpl in Hz; try lia.
      exists []. splits; [done|constructor|]. intros [k s]; simpl. split; [by intros ?%not_elem_of_nil|].
      intros [[Hin _]|(i & Hin & _)]; by apply not_elem_of_nil in Hin.
Qed.

Lemma make_iter_spec l0 l1 :
  mergeable l0 l1 ->
  exists l0' l1', make_iter h l1 l0.*2 = Some (position l0' l1') /\
    mergeable l0' l1' /\ skipped l0' l1' /\
    (length l0' <= length l0)%nat /\ (length l1' <= length l1)%nat /\
    (forall x, ahead l0' l1' x <-> ahead l0 l1 x).
Proof.
  intros Hm. destruct l1 as [|x1 l1].
  - exists l0, []. splits; auto. by destruct l0 as [|[]].
  - exact (skip_spec _ _ Hm).
Qed.

End Iteration.

Section IterationCorrect.
Context {F : Type}.
Implicit Types (h : Heap F) (t : RawStateTable) (mb : gmap Z (SLE F)).

Lemma elem_of_range {A} (m : gmap Z A) start k x :
  (k, x) ∈ from start (in_order m) <->
  (forall k0, start = Some k0 -> k0 < k) /\ m !! k = Some x.
Proof. by rewrite elem_of_from, elem_of_in_order. Qed.

Lemma ranges_mergeable h t mb start :
  keyed mb -> table_ok h t mb ->
  mergeable h (from start (in_order mb)) (from start (in_order (items t))).
Proof.
  intros Hb Hok. split.
  - apply from_sorted, in_order_sorted.
  - apply from_sorted, in_order_sorted.
  - intros k s [_ Hs]%elem_of_range. by destruct (Hb _ _ Hs).
  - intros k i [_ Hi]%elem_of_range. by destruct (Hok _ _ Hi).
  - intros k i [Hst Hi]%elem_of_range He. destruct (Hok _ _ Hi) as (_ & _ & Ha).
    apply is_erase_spec in He. destruct (mb !! k) as [s|] eqn:Hs.
    + apply list_elem_of_fmap. exists (k, s). split; [done|]. by apply elem_of_range.
    + destruct Ha as [Ha _]. rewrite Ha in He; done.
Qed.

Lemma ahead_ranges h t mb start k s :
  ahead h (from start (in_order mb)) (from start (in_order (items t))) (k, s) <->
  (forall k0, start = Some k0 -> k0 < k) /\ seen h t mb !! k = Some s.
Proof.
  rewrite raw_lookup_seen. unfold ahead. rewrite elem_of_range. split.
  - intros [[[Hst Hs] Hn]|(i & [Hst Hi]%elem_of_range & He & ->)].
    + split; [done|]. destruct (items t !! k) as [i|] eqn:Hi; [|done].
      destruct Hn. apply list_elem_of_fmap. exists (k, i). split; [done|]. by apply elem_of_range.
    + split; [done|]. by rewrite Hi, He.
  - intros [Hst Hs]. destruct (items t !! k) as [i|] eqn:Hi.
    + destruct (is_erase i) eqn:He; [done|]. injection Hs as <-.
      right. exists i. splits; [by apply elem_of_range|done|done].
    + left. splits; auto. intros ([k' i] & Hk & Hin)%list_elem_of_fmap. simpl in Hk; subst k'.
      apply elem_of_range in Hin as [_ Hin]. congruence.
Qed.

Lemma table_iterates h t (base : ReadView F) mb :
  Iterates base mb -> keyed mb -> table_ok h t mb ->
  Iterates (table_view h t base) (seen h t mb).
Proof.
  intros Hit Hb Hok start. simpl. unfold sles. rewrite Hit.
  pose proof (ranges_mergeable h t mb start Hb Hok) as Hm.
  destruct (make_iter_spec h _ _ Hm) as (l0 & l1 & -> & Hm' & Hsk & Hl0 & Hl1 & Ha).
  rewrite length_fmap.
  edestruct (walk_spec h) as (out & -> & Hs & Hin); [exact Hm'|exact Hsk| |].
  { apply Nat.add_le_mono; eassumption. }
  f_equal. f_equal. apply sorted_ext; [done|apply from_sorted, in_order_sorted|].
  intros [k s]. by rewrite Hin, Ha, ahead_ranges, elem_of_range.
Qed.

End IterationCorrect.

(** ** Applying a table to a raw view *)

Section Applying.
Context {F V : Type} `{RV : RawView F V} {L : RawViewLaws F V}.
Implicit Types (h : Heap F) (t : RawStateTable) (v : V).

Definition op_of (i : sleAction) : RawOp * positive :=
  (match action i with
   | erase_ => op_erase | insert_ => op_insert | replace_ => op_replace
   end, sle i).

Lemma raw_apply_items_ops h l v : apply_items h l v = run_ops h (prod_map id op_of <$> l) v.
Proof.
  revert v. induction l as [|[k i] l IH]; intros v; simpl; [done|].
  destruct (action i); simpl;
    match goal with |- bind ?r _ = _ => destruct r; simpl; [apply IH|done] end.
Qed.

(** The requirements of every change are met, the view it is applied to ends
    in the state seen through the table, and the destroyed drops reach it. *)
Lemma raw_apply_ok h t v m r :
  holds h v m r -> table_ok h t m ->
  exists v', apply h t v = Ok v' /\
    holds h v' (seen h t m) (spend (dropsDestroyed t) r).
Proof.
  intros Hv Hok. unfold apply. rewrite raw_apply_items_ops.
  assert (forall k o p, (k, (o, p)) ∈ prod_map id op_of <$> in_order (items t) <->
            exists i, items t !! k = Some i /\ op_of i = (o, p)) as Hin.
  { intros k o p. rewrite list_elem_of_fmap. split.
    - intros ([k' i] & [= -> -> ->] & Hi%elem_of_in_order). eauto.
    - intros (i & Hi & Hop). exists (k, i). split; [unfold prod_map; simpl; by rewrite Hop|].
      by apply elem_of_in_order. }
  destruct (run_ops_ok h (prod_map id op_of <$> in_order (items t)) _ m _
              (destroy_law h v m r (dropsDestroyed t) Hv)) as (v' & m' & Hr & Hv' & H1 & H2).
  - apply (StronglySorted_fmap _ key_lt); [by intros [] []|]. apply in_order_sorted.
  - intros k o p (i & Hi & [= <- <-])%Hin _. destruct (Hok _ _ Hi) as (Hk & H0 & Ha).
    splits; auto. rewrite Ha. by destruct (action i).
  - exists v'. split; [done|]. replace (seen h t m) with m'; [done|].
    apply map_eq. intros k. rewrite raw_lookup_seen.
    destruct (items t !! k) as [i|] eqn:Hi.
    + rewrite (H1 k _ _ (proj2 (Hin _ _ _) (ex_intro _ i (conj Hi eq_refl)))).
      unfold is_erase. by destruct (action i).
    + apply H2. intros ([k' [o p]] & -> & Hx)%list_elem_of_fmap.
      apply Hin in Hx as (i & Hi' & _). simpl in Hi. congruence.
Qed.

End Applying.
