(* ===== verification/OpenView.v ===== *)
(** * The open view

    [OpenView]: the view of a ledger being built, a base view with a
    [RawStateTable] and the transactions inserted so far
    ([include/xrpl/ledger/OpenView.h], [src/libxrpl/ledger/OpenView.cpp]). *)

From S2P Require Import Prelude.
From S2P Require Import LedgerViews.
From S2P Require Import LedgerTables.
From S2P Require Import RawStateTable.
From stdpp Require Import sorting functions gmap list.

Local Open Scope Z_scope.

(** The fields of [LedgerInfo] that the constructors set. *)
Record LedgerInfo := mkInfo {
  li_seq : Z;
  li_hash : Z;
  li_parentHash : Z;
  li_closeTime : Z;
  li_parentCloseTime : Z;
  li_validated : bool;
  li_accepted : bool }.

(** What a view asks of its base besides the entries: header, openness and
    transactions.  [T] is a serialized transaction with its metadata. *)
Record Base (F T : Type) := mkBase {
  b_view : ReadView F;
  b_info : LedgerInfo;
  b_open : bool;
  b_txRead : Z -> option T }.

Arguments mkBase {F T}.
Arguments b_view {F T}.
Arguments b_info {F T}.
Arguments b_open {F T}.
Arguments b_txRead {F T}.

Record OpenView (F T : Type) := mkOpen {
  base_ : Base F T;
  table : RawStateTable;
  txs : gmap Z T;
  info_ : LedgerInfo;
  baseTxCount : Z;
  open_ : bool }.

Arguments mkOpen {F T}.
Arguments base_ {F T}.
Arguments table {F T}.
Arguments txs {F T}.
Arguments info_ {F T}.
Arguments baseTxCount {F T}.
Arguments open_ {F T}.

Section OpenViews.
Context {F T : Type}.
Implicit Types (h : Heap F) (b : Base F T) (v : OpenView F T) (p : positive).

Definition empty_table : RawStateTable := mkRaw ∅ 0.

(** The constructor with [open_ledger]: a new open ledger on a closed one. *)
Definition open_ledger b : OpenView F T :=
  mkOpen b empty_table ∅
    (mkInfo (u32 (li_seq (b_info b) + 1)) (li_hash (b_info b)) (li_hash (b_info b))
       (li_closeTime (b_info b)) (li_closeTime (b_info b)) false false)
    0 true.

(** The constructor from a base alone. *)
Definition on_base b : OpenView F T :=
  mkOpen b empty_table ∅ (b_info b) 0 (b_open b).

Definition txCount v : Z := baseTxCount v + Z.of_nat (size (txs v)).

(** The view as the base of another one. *)
Definition txRead v (k : Z) : option T :=
  match txs v !! k with
  | None => b_txRead (base_ v) k
  | Some t => Some t
  end.

Definition txExists v (k : Z) : bool := bool_decide (is_Some (txs v !! k)).

Definition open_view h v : ReadView F := table_view h (table v) (b_view (base_ v)).

Definition as_base h v : Base F T := mkBase (open_view h v) (info_ v) (open_ v) (txRead v).

(** The constructor with [batch_view]. *)
Definition batch_view h v : OpenView F T :=
  let o := on_base (as_base h v) in
  mkOpen (base_ o) (table o) (txs o) (info_ o) (txCount v) (open_ o).

(** The copy constructor. *)
Definition copy v : OpenView F T :=
  mkOpen (base_ v) (table v) (txs v) (info_ v) 0 (open_ v).

Definition set_table v (t : RawStateTable) : OpenView F T :=
  mkOpen (base_ v) t (txs v) (info_ v) (baseTxCount v) (open_ v).

Definition open_rawErase h v p : result (OpenView F T) :=
  let* t := erase h (table v) p in Ok (set_table v t).

Definition open_rawInsert h v p : result (OpenView F T) :=
  let* t := RawStateTable.insert h (table v) p in Ok (set_table v t).

Definition open_rawReplace h v p : result (OpenView F T) :=
  let* t := replace h (table v) p in Ok (set_table v t).

Definition open_rawDestroyXRP v (fee : Z) : OpenView F T :=
  set_table v (destroyXRP (table v) fee).

#[export] Instance open_raw : RawView F (OpenView F T) := {
  rawErase := open_rawErase;
  rawInsert := open_rawInsert;
  rawReplace := open_rawReplace;
  rawDestroyXRP := open_rawDestroyXRP }.

Definition open_rawTxInsert v (k : Z) (t : T) : result (OpenView F T) :=
  match txs v !! k with
  | Some _ => Throw logic_error
  | None =>
      Ok (mkOpen (base_ v) (table v) (<[k := t]> (txs v)) (info_ v)
            (baseTxCount v) (open_ v))
  end.

#[export] Instance open_txs_raw : TxsRawView T (OpenView F T) := {
  rawTxInsert := open_rawTxInsert }.

(** [OpenView::apply]: the changes, then the transactions in key order. *)
Fixpoint insert_txs `{TxsRawView T V} (l : list (Z * T)) (to : V) : result V :=
  match l with
  | [] => Ok to
  | (k, t) :: l => let* to := rawTxInsert to k t in insert_txs l to
  end.

Definition open_apply `{RawView F V, !TxsRawView T V} h v (to : V) : result V :=
  let* to := RawStateTable.apply h (table v) to in
  insert_txs (in_order (txs v)) to.

End OpenViews.

(** ** The open view meets the interfaces *)

Section OpenLaws.
Context {F T : Type}.
Implicit Types (h : Heap F) (v : OpenView F T).

(** In the store [h] the view shows the state [m]. *)
Definition open_holds h v (m : gmap Z (SLE F)) : Prop :=
  exists mb, Represents (b_view (base_ v)) mb /\ table_ok h (table v) mb /\
    m = seen h (table v) mb.

Lemma open_represents h v m : open_holds h v m -> Represents (open_view h v) m.
Proof. intros (mb & Hb & Hok & ->). by apply raw_table_represents. Qed.

(** A raw operation that the table performs, the view performs. *)
Lemma performs_open h v m' p (f : Heap F -> RawStateTable -> positive -> result RawStateTable) mb :
  Represents (b_view (base_ v)) mb ->
  performs h mb (table v) (f h (table v) p) m' ->
  exists v', (let* t := f h (table v) p in Ok (set_table v t)) = Ok v' /\
    (open_holds h v' m' /\ (txs v', dropsDestroyed (table v')) = (txs v, dropsDestroyed (table v))).
Proof.
  intros Hb (t' & -> & Hok & <- & Hd). simpl. eexists; split; [done|]. simpl.
  rewrite Hd. split; [|done]. by exists mb.
Qed.

#[export] Instance open_laws : RawViewLaws F (OpenView F T).
Proof.
  refine {| Rest := gmap Z T * Z;
            spend := fun fee r => (r.1, i64 (r.2 + fee));
            holds := fun h v m r =>
              open_holds h v m /\ (txs v, dropsDestroyed (table v)) = r |}.
  - intros h v m r [Hv _]. exact (rep_keyed _ _ (open_represents _ _ _ Hv)).
  - intros h v m r p [(mb & Hb & Hok & ->) <-] Hs.
    apply (performs_open h v _ p erase mb Hb).
    apply raw_erase_performs; auto. apply (rep_keyed _ _ Hb).
  - intros h v m r p [(mb & Hb & Hok & ->) <-] Hs H0.
    apply (performs_open h v _ p RawStateTable.insert mb Hb). by apply raw_insert_performs.
  - intros h v m r p [(mb & Hb & Hok & ->) <-] Hs.
    apply (performs_open h v _ p replace mb Hb).
    apply raw_replace_performs; auto. apply (rep_keyed _ _ Hb).
  - intros h v m r fee [(mb & Hb & Hok & ->) <-]. split; [|done]. by exists mb.
Defined.

#[export] Instance open_txs_laws : TxsRawViewLaws F T (OpenView F T).
Proof.
  refine {| rest_txs := fun r : Rest => r.1;
            put_tx := fun k t (r : Rest) => (<[k := t]> r.1, r.2) : Rest |};
    [done|done|..]; intros h v m r k t [Hv <-] Ht; simpl in *; unfold open_rawTxInsert.
  - rewrite Ht. eexists; split; [done|]. split; [exact Hv|done].
  - by destruct Ht as [t' ->].
Defined.

(** What a view holds besides its state after inserting transactions. *)
Definition put_txs `{TL : TxsRawViewLaws F T V} (l : list (Z * T)) (r : Rest) : Rest :=
  foldl (fun r x => put_tx x.1 x.2 r) r l.

(** Inserting transactions with keys the target does not have. *)
Lemma insert_txs_ok `{TL : TxsRawViewLaws F T V} h (l : list (Z * T)) (to : V) m r :
  holds h to m r -> NoDup l.*1 -> (forall k t, (k, t) ∈ l -> rest_txs r !! k = None) ->
  exists to', insert_txs l to = Ok to' /\ holds h to' m (put_txs l r) /\
    rest_txs (put_txs l r) = list_to_map l ∪ rest_txs r.
Proof.
  revert to r. induction l as [|[k t] l IH]; intros to r Hto Hd Hk; simpl.
  { exists to. splits; auto. by rewrite map_empty_union. }
  simpl in Hd. apply NoDup_cons in Hd as [Hn Hd].
  destruct (tx_law h to m r k t Hto (Hk _ _ (list_elem_of_here _ _))) as (to1 & -> & H1).
  destruct (IH to1 (put_tx k t r) H1 Hd) as (to2 & Hr & H2 & Ht).
  { intros k' t' Hin. rewrite rest_put. apply lookup_insert_None.
    split; [apply (Hk k' t'); by apply list_elem_of_further|].
    intros <-. apply Hn. apply list_elem_of_fmap. by exists (k, t'). }
  exists to2. splits; auto. rewrite Ht, rest_put.
  rewrite <- insert_union_l. symmetry. apply insert_union_r.
  apply not_elem_of_list_to_map_1. done.
Qed.

Lemma open_apply_ok `{TL : TxsRawViewLaws F T V} h v (to : V) m r :
  holds h to m r -> table_ok h (table v) m -> txs v ##ₘ rest_txs r ->
  let r' := put_txs (in_order (txs v)) (spend (dropsDestroyed (table v)) r) in
  exists to', open_apply h v to = Ok to' /\
    holds h to' (seen h (table v) m) r' /\ rest_txs r' = txs v ∪ rest_txs r.
Proof.
  intros Hto Hok Hd r'. unfold open_apply.
  destruct (raw_apply_ok h (table v) to m r Hto Hok) as (to1 & -> & H1). simpl.
  destruct (insert_txs_ok h (in_order (txs v)) to1 _ _ H1) as (to2 & Hr & H2 & Ht).
  - unfold in_order. rewrite merge_sort_Permutation. apply NoDup_fst_map_to_list.
  - intros k t Hin%elem_of_in_order. rewrite rest_spend. by apply (map_disjoint_Some_l _ _ _ t Hd).
  - exists to2. splits; auto. unfold r'. rewrite Ht, rest_spend. f_equal.
    rewrite (list_to_map_proper _ (map_to_list (txs v))); [apply list_to_map_to_list| |].
    + unfold in_order. rewrite merge_sort_Permutation. apply NoDup_fst_map_to_list.
    + apply merge_sort_Permutation.
Qed.

End OpenLaws.
