(* ===== verification/ApplyStateTable.v ===== *)
(** * The table of a transaction and the views built on it

    [ApplyStateTable] buffers the changes a transaction makes.  Unlike the raw
    table it hands out pointers: [peek] copies an entry of the base into the
    table and returns a pointer the caller writes through, [update] and [erase]
    take that same pointer back.  [ApplyViewBase] is a base view with such a
    table; [Sandbox] and [ApplyViewImpl] are [ApplyViewBase] with an [apply]
    ([include/xrpl/ledger/detail/ApplyStateTable.h],
    [src/libxrpl/ledger/ApplyStateTable.cpp],
    [src/libxrpl/ledger/ApplyViewBase.cpp], [include/xrpl/ledger/Sandbox.h]). *)

From S2P Require Import Prelude.
From S2P Require Import LedgerViews.
From S2P Require Import LedgerTables.
From stdpp Require Import sorting functions gmap list.

Local Open Scope Z_scope.

Inductive Action := cache_ | erase_ | insert_ | modify_.

#[export] Instance Action_eq_dec : EqDecision Action.
Proof. solve_decision. Defined.

(** [items_] and [dropsDestroyed_]. *)
Record ApplyStateTable := mkTable {
  items : gmap Z (Action * positive);
  dropsDestroyed : Z }.

Definition is_erase (i : Action * positive) : bool :=
  match i.1 with erase_ => true | _ => false end.

Definition set_items (t : ApplyStateTable) (m : gmap Z (Action * positive))
    : ApplyStateTable :=
  mkTable m (dropsDestroyed t).

Definition put (t : ApplyStateTable) (k : Z) (a : Action) (p : positive) : ApplyStateTable :=
  set_items t (<[k := (a, p)]> (items t)).

Section Operations.
Context {F : Type}.
Implicit Types (h : Heap F) (t : ApplyStateTable) (base : ReadView F) (p : positive).

Fixpoint apply_items `{RawView F V} h (l : list (Z * (Action * positive))) (to : V)
    : result V :=
  match l with
  | [] => Ok to
  | (_, (a, p)) :: l =>
      let* to :=
        match a with
        | cache_ => Ok to
        | erase_ => rawErase h to p
        | insert_ => rawInsert h to p
        | modify_ => rawReplace h to p
        end in
      apply_items h l to
  end.

Definition apply `{RawView F V} h t (to : V) : result V :=
  apply_items h (in_order (items t)) (rawDestroyXRP to (dropsDestroyed t)).

Definition size_ t : nat :=
  length (filter (fun x : Z * (Action * positive) => x.2.1 <> cache_) (in_order (items t))).

(** [visit]: the arguments of the calls of [func], in order. *)
Definition visit h t (to : ReadView F) : list (Z * bool * option (SLE F) * SLE F) :=
  omap
    (fun x : Z * (Action * positive) =>
       match x with
       | (k, (a, p)) =>
           match a with
           | cache_ => None
           | erase_ => Some (k, true, rv_read to (unchecked k), obj h p)
           | insert_ => Some (k, false, None, obj h p)
           | modify_ => Some (k, false, rv_read to (unchecked k), obj h p)
           end
       end)
    (in_order (items t)).

Definition exists_ h t base (k : Keylet) : bool :=
  match items t !! kl_key k with
  | None => rv_exists base k
  | Some (a, p) =>
      match a with
      | erase_ => false
      | cache_ | insert_ | modify_ => check k (obj h p)
      end
  end.

Definition succ t base (k : Z) (last : option Z) : option Z :=
  table_succ is_erase (items t) (rv_succ base) k last.

Definition read h t base (k : Keylet) : option (SLE F) :=
  match items t !! kl_key k with
  | None => rv_read base k
  | Some (a, p) =>
      match a with
      | erase_ => None
      | cache_ | insert_ | modify_ =>
          if check k (obj h p) then Some (obj h p) else None
      end
  end.

Definition peek h t base (k : Keylet) : option positive * Heap F * ApplyStateTable :=
  match items t !! kl_key k with
  | None =>
      match rv_read base k with
      | None => (None, h, t)
      | Some s =>
          let '(p, h) := alloc h s in
          (Some p, h, put t (key s) cache_ p)
      end
  | Some (a, p) =>
      match a with
      | erase_ => (None, h, t)
      | cache_ | insert_ | modify_ =>
          (if check k (obj h p) then Some p else None, h, t)
      end
  end.

Definition erase h t p : result ApplyStateTable :=
  let k := key (obj h p) in
  match items t !! k with
  | None => Throw logic_error
  | Some (a, q) =>
      if negb (q =? p)%positive then Throw logic_error
      else
        match a with
        | erase_ => Throw logic_error
        | insert_ => Ok (set_items t (delete k (items t)))
        | cache_ | modify_ => Ok (put t k erase_ q)
        end
  end.

Definition rawErase_ h t p : result ApplyStateTable :=
  let k := key (obj h p) in
  match items t !! k with
  | None => Ok (put t k erase_ p)
  | Some (a, q) =>
      match a with
      | erase_ => Throw logic_error
      | insert_ => Ok (set_items t (delete k (items t)))
      | cache_ | modify_ => Ok (put t k erase_ p)
      end
  end.

Definition insert h t p : result ApplyStateTable :=
  let k := key (obj h p) in
  match items t !! k with
  | None => Ok (put t k insert_ p)
  | Some (a, q) =>
      match a with
      | cache_ | insert_ | modify_ => Throw logic_error
      | erase_ => Ok (put t k modify_ p)
      end
  end.

Definition replace h t p : result ApplyStateTable :=
  let k := key (obj h p) in
  match items t !! k with
  | None => Ok (put t k modify_ p)
  | Some (a, q) =>
      match a with
      | erase_ => Throw logic_error
      | cache_ => Ok (put t k modify_ p)
      | insert_ | modify_ => Ok (put t k a p)
      end
  end.

Definition update h t p : result ApplyStateTable :=
  let k := key (obj h p) in
  match items t !! k with
  | None => Throw logic_error
  | Some (a, q) =>
      if negb (q =? p)%positive then Throw logic_error
      else
        match a with
        | erase_ => Throw logic_error
        | cache_ => Ok (put t k modify_ q)
        | insert_ | modify_ => Ok t
        end
  end.

Definition destroyXRP t (fee : Z) : ApplyStateTable :=
  mkTable (items t) (i64 (dropsDestroyed t + fee)).

End Operations.

(** ** [ApplyViewBase] *)

Record ApplyViewBase (F : Type) := mkApply {
  base_ : ReadView F;
  items_ : ApplyStateTable }.

Arguments mkApply {F}.
Arguments base_ {F}.
Arguments items_ {F}.

Section Views.
Context {F : Type}.
Implicit Types (h : Heap F) (v : ApplyViewBase F) (p : positive).

(** The reads; the range [sles] is that of the base. *)
Definition apply_view h v : ReadView F :=
  mkView (exists_ h (items_ v) (base_ v)) (succ (items_ v) (base_ v))
    (read h (items_ v) (base_ v)) (rv_sles (base_ v)).

Definition with_items v (r : result ApplyStateTable) : result (ApplyViewBase F) :=
  let* t := r in Ok (mkApply (base_ v) t).

Definition view_rawErase h v p := with_items v (rawErase_ h (items_ v) p).
Definition view_rawInsert h v p := with_items v (insert h (items_ v) p).
Definition view_rawReplace h v p := with_items v (replace h (items_ v) p).
Definition view_rawDestroyXRP v fee := mkApply (base_ v) (destroyXRP (items_ v) fee).

#[export] Instance apply_raw : RawView F (ApplyViewBase F) := {
  rawErase := view_rawErase;
  rawInsert := view_rawInsert;
  rawReplace := view_rawReplace;
  rawDestroyXRP := view_rawDestroyXRP }.

(** A new view on a base. *)
Definition sandbox (base : ReadView F) : ApplyViewBase F := mkApply base (mkTable ∅ 0).

(** [Sandbox::apply]. *)
Definition sandbox_apply `{RawView F V} h v (to : V) : result V := apply h (items_ v) to.

End Views.

(** ** The table as changes to the state of its base *)

Section Contents.
Context {F : Type}.
Implicit Types (h : Heap F) (t : ApplyStateTable) (mb : gmap Z (SLE F)).

Definition changes h t : gmap Z (option (SLE F)) :=
  (fun i => if is_erase i then None else Some (obj h i.2)) <$> items t.

(** The state of the base with the changes of the table. *)
Definition seen h t mb : gmap Z (SLE F) := overlay (changes h t) mb.

(** Items sit at the key of their entry, and an item is an insertion exactly
    when the base has no entry there. *)
Definition table_ok h t mb : Prop :=
  forall k a p, items t !! k = Some (a, p) ->
    key (obj h p) = k /\ k <> 0 /\ (mb !! k = None <-> a = insert_).

(** What is cached and not marked as modified is as the base has it. *)
Definition clean h t mb : Prop :=
  forall k p, items t !! k = Some (cache_, p) -> mb !! k = Some (obj h p).

(** The pointers of the table have been allocated. *)
Definition allocated h t : Prop :=
  forall k a p, items t !! k = Some (a, p) -> (p < next h)%positive.

End Contents.

Section ContentsFacts.
Context {F : Type}.
Implicit Types (h : Heap F) (t : ApplyStateTable) (mb : gmap Z (SLE F)).

Lemma lookup_seen h t mb k :
  seen h t mb !! k =
    match items t !! k with
    | None => mb !! k
    | Some (a, p) => if is_erase (a, p) then None else Some (obj h p)
    end.
Proof.
  unfold seen, changes. rewrite lookup_overlay, lookup_fmap.
  by destruct (items t !! k) as [[]|].
Qed.

Lemma seen_keyed h t mb : keyed mb -> table_ok h t mb -> keyed (seen h t mb).
Proof.
  intros Hb Hok k s. rewrite lookup_seen.
  destruct (items t !! k) as [[a p]|] eqn:Hi; [|eauto].
  destruct (is_erase _); [done|]. intros [= <-]. by destruct (Hok _ _ _ Hi) as (? & ? & _).
Qed.

Lemma table_ok_put h t mb a p :
  table_ok h t mb -> key (obj h p) <> 0 -> (mb !! key (obj h p) = None <-> a = insert_) ->
  table_ok h (put t (key (obj h p)) a p) mb.
Proof.
  intros Hok H0 Ha k a' p'; simpl. rewrite lookup_insert_Some.
  intros [[<- [= <- <-]]|[_ Hi]]; [done|eauto].
Qed.

Lemma seen_put h t mb k a p :
  seen h (put t k a p) mb =
    if is_erase (a, p) then delete k (seen h t mb) else <[k := obj h p]> (seen h t mb).
Proof.
  unfold seen, changes; simpl. rewrite fmap_insert.
  by destruct a; simpl; rewrite ?overlay_insert, ?overlay_erase.
Qed.

Lemma table_ok_delete h t mb k :
  table_ok h t mb -> table_ok h (set_items t (delete k (items t))) mb.
Proof. intros Hok k' a p; simpl. rewrite lookup_delete_Some. intros [_ Hi]; eauto. Qed.

Lemma seen_forget h t mb k :
  mb !! k = None -> seen h (set_items t (delete k (items t))) mb = delete k (seen h t mb).
Proof.
  intros Hn. unfold seen, changes; simpl. rewrite fmap_delete. by apply overlay_forget.
Qed.

(** An operation that returns a table well formed over [mb] through which the
    state [m'] is seen, with the same drops. *)
Definition performs h mb t (r : result ApplyStateTable) (m' : gmap Z (SLE F)) : Prop :=
  exists t', r = Ok t' /\ table_ok h t' mb /\ seen h t' mb = m' /\
    dropsDestroyed t' = dropsDestroyed t.

Lemma performs_put h mb t a p :
  table_ok h t mb -> key (obj h p) <> 0 -> (mb !! key (obj h p) = None <-> a = insert_) ->
  performs h mb t (Ok (put t (key (obj h p)) a p))
    (if is_erase (a, p) then delete (key (obj h p)) (seen h t mb)
     else <[key (obj h p) := obj h p]> (seen h t mb)).
Proof.
  intros Hok H0 Ha. eexists; splits; [done|by apply table_ok_put| |done]. apply seen_put.
Qed.

Lemma performs_forget h mb t k :
  table_ok h t mb -> mb !! k = None ->
  performs h mb t (Ok (set_items t (delete k (items t)))) (delete k (seen h t mb)).
Proof.
  intros Hok Hn. eexists; splits; [done|by apply table_ok_delete|by apply seen_forget|done].
Qed.

Lemma rawErase_performs h mb t p :
  keyed mb -> table_ok h t mb -> is_Some (seen h t mb !! key (obj h p)) ->
  performs h mb t (rawErase_ h t p) (delete (key (obj h p)) (seen h t mb)).
Proof.
  intros Hb Hok Hs. pose proof (keyed_nonzero _ _ (seen_keyed _ _ _ Hb Hok) Hs) as H0.
  rewrite lookup_seen in Hs. unfold rawErase_.
  destruct (items t !! key (obj h p)) as [[a q]|] eqn:Hi.
  - destruct (Hok _ _ _ Hi) as (_ & _ & Ha). destruct a; simpl in *.
    + apply (performs_put h mb t erase_ p); auto. split; [by intros Hn%Ha|done].
    + by destruct Hs.
    + apply performs_forget; [done|by apply Ha].
    + apply (performs_put h mb t erase_ p); auto. split; [by intros Hn%Ha|done].
  - apply (performs_put h mb t erase_ p); auto. split; [|done].
    intros Hn; rewrite Hn in Hs; by destruct Hs.
Qed.

Lemma insert_performs h mb t p :
  table_ok h t mb -> seen h t mb !! key (obj h p) = None -> key (obj h p) <> 0 ->
  performs h mb t (insert h t p) (<[key (obj h p) := obj h p]> (seen h t mb)).
Proof.
  intros Hok Hs H0. rewrite lookup_seen in Hs. unfold insert.
  destruct (items t !! key (obj h p)) as [[a q]|] eqn:Hi.
  - destruct (Hok _ _ _ Hi) as (_ & _ & Ha). destruct a; simpl in *; try done.
    apply (performs_put h mb t modify_ p); auto. split; [by intros Hn%Ha|done].
  - by apply (performs_put h mb t insert_ p).
Qed.

Lemma replace_performs h mb t p :
  keyed mb -> table_ok h t mb -> is_Some (seen h t mb !! key (obj h p)) ->
  performs h mb t (replace h t p) (<[key (obj h p) := obj h p]> (seen h t mb)).
Proof.
  intros Hb Hok Hs. pose proof (keyed_nonzero _ _ (seen_keyed _ _ _ Hb Hok) Hs) as H0.
  rewrite lookup_seen in Hs. unfold replace.
  destruct (items t !! key (obj h p)) as [[a q]|] eqn:Hi.
  - destruct (Hok _ _ _ Hi) as (_ & _ & Ha). destruct a; simpl in *.
    + apply (performs_put h mb t modify_ p); auto. split; [by intros Hn%Ha|done].
    + by destruct Hs.
    + by apply (performs_put h mb t insert_ p).
    + by apply (performs_put h mb t modify_ p).
  - apply (performs_put h mb t modify_ p); auto. split; [|done].
    intros Hn; rewrite Hn in Hs; by destruct Hs.
Qed.

(** [erase] and [update] with a pointer the table handed out. *)
Lemma erase_performs h mb t k a p :
  table_ok h t mb -> items t !! k = Some (a, p) -> a <> erase_ ->
  performs h mb t (erase h t p) (delete k (seen h t mb)).
Proof.
  intros Hok Hi Ha. destruct (Hok _ _ _ Hi) as (Hk & H0 & Hb). subst k.
  unfold erase. rewrite Hi, Pos.eqb_refl; simpl.
  destruct a; [|done| |].
  - apply (performs_put h mb t erase_ p); auto. split; [by intros Hn%Hb|done].
  - apply performs_forget; [done|by apply Hb].
  - apply (performs_put h mb t erase_ p); auto. split; [by intros Hn%Hb|done].
Qed.

Lemma update_performs h mb t k a p :
  table_ok h t mb -> items t !! k = Some (a, p) -> a <> erase_ ->
  performs h mb t (update h t p) (seen h t mb).
Proof.
  intros Hok Hi Ha. destruct (Hok _ _ _ Hi) as (Hk & H0 & Hb). subst k.
  unfold update. rewrite Hi, Pos.eqb_refl; simpl.
  destruct a; [|done|by exists t|by exists t].
  replace (seen h t mb) with (<[key (obj h p) := obj h p]> (seen h t mb)).
  - apply (performs_put h mb t modify_ p); auto. split; [by intros Hn%Hb|done].
  - apply insert_id. by rewrite lookup_seen, Hi.
Qed.

(** The reads answer as the state seen. *)
Lemma table_represents h v mb :
  Represents (base_ v) mb -> table_ok h (items_ v) mb ->
  Represents (apply_view h v) (seen h (items_ v) mb).
Proof.
  intros Hb Hok. split; simpl.
  - exact (seen_keyed _ _ _ (rep_keyed _ _ Hb) Hok).
  - intros k. unfold read, select. rewrite lookup_seen.
    destruct (items (items_ v) !! kl_key k) as [[[] q]|]; try done. apply (rep_read _ _ Hb).
  - intros k. unfold exists_, select. rewrite lookup_seen.
    destruct (items (items_ v) !! kl_key k) as [[[] q]|]; simpl;
      [..|apply (rep_exists _ _ Hb)]; intros [s Hs]; try done;
      by destruct (check k (obj h q)).
  - intros k. unfold exists_. rewrite lookup_seen.
    destruct (items (items_ v) !! kl_key k) as [[[] q]|]; try done. apply (rep_absent _ _ Hb).
  - intros k last. apply (table_succ_spec _ _ _ mb (rep_succ _ _ Hb)).
    intros n. rewrite lookup_seen. destruct (items (items_ v) !! n) as [[a q]|]; [|done].
    by destruct (is_erase (a, q)).
Qed.

End ContentsFacts.

(** ** The view meets the raw interface *)

Section ApplyLaws.
Context {F : Type}.
Implicit Types (h : Heap F) (v : ApplyViewBase F).

Definition view_holds h v (m : gmap Z (SLE F)) : Prop :=
  exists mb, Represents (base_ v) mb /\ table_ok h (items_ v) mb /\
    m = seen h (items_ v) mb.

Lemma performs_view h v m' mb r :
  Represents (base_ v) mb -> performs h mb (items_ v) r m' ->
  exists v', with_items v r = Ok v' /\
    (view_holds h v' m' /\ dropsDestroyed (items_ v') = dropsDestroyed (items_ v)).
Proof.
  intros Hb (t' & -> & Hok & <- & Hd). eexists; split; [done|]. split; [|done]. by exists mb.
Qed.

#[export] Instance apply_laws : RawViewLaws F (ApplyViewBase F).
Proof.
  refine {| Rest := Z;
            spend := fun fee r => i64 (r + fee);
            holds := fun h v m r => view_holds h v m /\ dropsDestroyed (items_ v) = r |}.
  - intros h v m r [(mb & Hb & Hok & ->) _]. exact (seen_keyed _ _ _ (rep_keyed _ _ Hb) Hok).
  - intros h v m r p [(mb & Hb & Hok & ->) <-] Hs. apply (performs_view _ _ _ mb _ Hb).
    apply rawErase_performs; auto. apply (rep_keyed _ _ Hb).
  - intros h v m r p [(mb & Hb & Hok & ->) <-] Hs H0. apply (performs_view _ _ _ mb _ Hb).
    by apply insert_performs.
  - intros h v m r p [(mb & Hb & Hok & ->) <-] Hs. apply (performs_view _ _ _ mb _ Hb).
    apply replace_performs; auto. apply (rep_keyed _ _ Hb).
  - intros h v m r fee [(mb & Hb & Hok & ->) <-]. split; [|done]. by exists mb.
Defined.

End ApplyLaws.

(** ** Applying the table *)

Section Applying.
Context {F V : Type} `{RV : RawView F V} {L : RawViewLaws F V}.
Implicit Types (h : Heap F) (t : ApplyStateTable) (v : V).

Definition op_of (i : Action * positive) : RawOp * positive :=
  (match i.1 with
   | cache_ => op_none | erase_ => op_erase | insert_ => op_insert | modify_ => op_replace
   end, i.2).

Lemma apply_items_ops h l v : apply_items h l v = run_ops h (prod_map id op_of <$> l) v.
Proof.
  revert v. induction l as [|[k [a p]] l IH]; intros v; simpl; [done|].
  destruct a; simpl; [apply IH|..];
    match goal with |- bind ?r _ = _ => destruct r; simpl; [apply IH|done] end.
Qed.

(** When nothing cached was written without [update], applying the table to a
    view in the base's state leaves that view in the state seen. *)
Lemma apply_ok h t v m r :
  holds h v m r -> table_ok h t m -> clean h t m ->
  exists v', apply h t v = Ok v' /\ holds h v' (seen h t m) (spend (dropsDestroyed t) r).
Proof.
  intros Hv Hok Hcl. unfold apply. rewrite apply_items_ops.
  assert (forall k o p, (k, (o, p)) ∈ prod_map id op_of <$> in_order (items t) <->
            exists i, items t !! k = Some i /\ op_of i = (o, p)) as Hin.
  { intros k o p. rewrite list_elem_of_fmap. split.
    - intros ([k' i] & [= -> -> ->] & Hi%elem_of_in_order). eauto.
    - intros (i & Hi & Hop). exists (k, i). split; [unfold prod_map; simpl; by rewrite Hop|].
      by apply elem_of_in_order. }
  destruct (run_ops_ok h (prod_map id op_of <$> in_order (items t)) _ m _
              (destroy_law h v m r (dropsDestroyed t) Hv)) as (v' & m' & Hr & Hv' & H1 & H2).
  - apply (StronglySorted_fmap _ key_lt); [by intros [] []|]. apply in_order_sorted.
  - intros k o p ([a q] & Hi & [= <- <-])%Hin Hn. destruct (Hok _ _ _ Hi) as (Hk & H0 & Ha).
    splits; auto. rewrite Ha. by destruct a.
  - exists v'. split; [done|]. replace (seen h t m) with m'; [done|].
    apply map_eq. intros k. rewrite lookup_seen.
    destruct (items t !! k) as [[a q]|] eqn:Hi.
    + rewrite (H1 k _ _ (proj2 (Hin _ _ _) (ex_intro _ (a, q) (conj Hi eq_refl)))).
      destruct a; simpl; try done. by rewrite (Hcl _ _ Hi).
    + apply H2. intros ([k' [o p]] & -> & Hx)%list_elem_of_fmap.
      apply Hin in Hx as (i & Hi' & _). simpl in Hi. congruence.
Qed.

End Applying.

(** ** Working on entries through pointers *)

Section Pointers.
Context {F : Type}.
Implicit Types (h : Heap F) (t : ApplyStateTable) (base : ReadView F)
  (mb : gmap Z (SLE F)).

(** The three conditions a transaction keeps. *)
Record tidy h t mb : Prop := {
  tidy_ok : table_ok h t mb;
  tidy_clean : clean h t mb;
  tidy_alloc : allocated h t }.

Lemma obj_alloc h s p : (p < next h)%positive -> obj (alloc h s).2 p = obj h p.
Proof. intros Hp. simpl. apply fn_lookup_insert_ne. intros E. lia. Qed.

Lemma obj_alloc_new h s : obj (alloc h s).2 (alloc h s).1 = s.
Proof. apply fn_lookup_insert. Qed.

(** A new entry in the store changes nothing seen through the table. *)
Lemma seen_alloc h t mb s : allocated h t -> seen (alloc h s).2 t mb = seen h t mb.
Proof.
  intros Ha. apply map_eq. intros k. rewrite !lookup_seen.
  destruct (items t !! k) as [[a p]|] eqn:Hi; [|done].
  by rewrite obj_alloc by exact (Ha _ _ _ Hi).
Qed.

Lemma tidy_alloc_new h t mb s : tidy h t mb -> tidy (alloc h s).2 t mb.
Proof.
  intros [Hok Hcl Ha]. split.
  - intros k a p Hi. rewrite obj_alloc by exact (Ha _ _ _ Hi). eauto.
  - intros k p Hi. rewrite obj_alloc by exact (Ha _ _ _ Hi). eauto.
  - intros k a p Hi. specialize (Ha _ _ _ Hi). simpl. lia.
Qed.

(** [peek] gives a pointer to what the keylet selects, and changes nothing
    seen; without such an entry it gives none and changes nothing. *)
Lemma peek_ok h t base mb k :
  Represents base mb -> tidy h t mb ->
  match select (seen h t mb) k with
  | Some s =>
      exists p a h' t', peek h t base k = (Some p, h', t') /\ tidy h' t' mb /\
        seen h' t' mb = seen h t mb /\ dropsDestroyed t' = dropsDestroyed t /\
        items t' !! kl_key k = Some (a, p) /\ a <> erase_ /\ obj h' p = s
  | None => peek h t base k = (None, h, t)
  end.
Proof.
  intros Hb Ht. pose proof Ht as [Hok Hcl Ha]. unfold peek, select. rewrite lookup_seen.
  destruct (items t !! kl_key k) as [[a p]|] eqn:Hi.
  - destruct a; simpl; try done; destruct (check k (obj h p)); try done;
      eexists p, _, h, t; splits; eauto; done.
  - rewrite (rep_read _ _ Hb). unfold select.
    destruct (mb !! kl_key k) as [s|] eqn:Hs; [|done].
    destruct (check k s); [|done].
    destruct (rep_keyed _ _ Hb _ _ Hs) as [Hk H0].
    pose proof (tidy_alloc_new h t mb s Ht) as [Hok' Hcl' Ha'].
    pose proof (obj_alloc_new h s) as Hnew. pose proof (seen_alloc h t mb s Ha) as Hseen.
    assert (next h < next (alloc h s).2)%positive as Hnx by (simpl; lia).
    change (alloc h s).1 with (next h) in Hnew.
    exists (next h), cache_, (alloc h s).2, (put t (key s) cache_ (next h)).
    split; [done|]. set (h' := (alloc h s).2) in *. clearbody h'.
    splits; [| |done| |done|done].
    + split.
      * rewrite <- Hnew. apply table_ok_put; rewrite ?Hnew, ?Hk; auto.
        split; [by rewrite Hs|done].
      * intros k' p'; simpl. rewrite lookup_insert_Some.
        intros [[<- [= <-]]|[_ Hi']]; [by rewrite Hnew, Hk|by apply Hcl'].
      * intros k' a' p'; simpl. rewrite lookup_insert_Some.
        intros [[<- [= <- <-]]|[_ Hi']]; [done|exact (Ha' _ _ _ Hi')].
    + rewrite seen_put, Hseen. simpl. rewrite Hnew, Hk.
      apply insert_id. by rewrite lookup_seen, Hi.
    + simpl. rewrite Hk. by simplify_map_eq.
Qed.

(** A write through a pointer of the table changes the entry at its key only. *)
Lemma seen_assign h t mb k a p f :
  table_ok h t mb -> items t !! k = Some (a, p) -> a <> erase_ ->
  table_ok (assign h p f) t mb /\
  seen (assign h p f) t mb
  = <[k := mkSLE (getType (obj h p)) (key (obj h p)) f]> (seen h t mb).
Proof.
  intros Hok Hi Ha. destruct (Hok _ _ _ Hi) as (Hk & H0 & _).
  assert (forall k' a' p', items t !! k' = Some (a', p') -> k' <> k -> p' <> p) as Hne.
  { intros k' a' p' Hi' Hkk ->. destruct (Hok _ _ _ Hi') as (Hk' & _). congruence. }
  split.
  - intros k' a' p' Hi'. destruct (Hok _ _ _ Hi') as (Hk' & H0' & Hb').
    splits; try done; simpl. unfold base.insert, fn_insert. by case_decide; subst.
  - apply map_eq. intros k'. rewrite lookup_seen.
    destruct (decide (k = k')) as [<-|Hkk].
    + rewrite Hi, lookup_insert_eq. simpl. rewrite fn_lookup_insert. by destruct a.
    + rewrite lookup_insert_ne, lookup_seen by done.
      destruct (items t !! k') as [[a' p']|] eqn:Hi'; [|done]. simpl.
      rewrite fn_lookup_insert_ne; [done|]. intros ->. exact (Hne _ _ _ Hi' (not_eq_sym Hkk) eq_refl).
Qed.

End Pointers.
