(* ===== verification/ViewCalls.v ===== *)
(** * Transactions as sequences of calls on a view

    How the transactors use an [ApplyView]: they [peek] an entry, write its
    fields through the pointer and [update] it, [insert] entries they have made,
    [peek] an entry and [erase] it.  A sequence of such calls is run on the
    tables of [ApplyStateTable] and, as its specification, on a finite map. *)

From S2P Require Import Prelude.
From S2P Require Import LedgerViews.
From S2P Require Import LedgerTables.
From S2P Require Import ApplyStateTable.
From stdpp Require Import sorting functions gmap list.

Local Open Scope Z_scope.

Inductive Call (F : Type) :=
| Modify (k : Keylet) (f : F -> F)
| Create (s : SLE F)
| Remove (k : Keylet)
| Burn (fee : Z).

Arguments Modify {F}.
Arguments Create {F}.
Arguments Remove {F}.
Arguments Burn {F}.

Section Calls.
Context {F : Type}.
Implicit Types (h : Heap F) (t : ApplyStateTable) (base : ReadView F).

(** The calls of the view; a client that finds no entry gives up on it. *)
Definition call base (c : Call F) h t : result (Heap F * ApplyStateTable) :=
  match c with
  | Modify k f =>
      match peek h t base k with
      | (Some p, h, t) =>
          let h := assign h p (f (fields (obj h p))) in
          let* t := update h t p in
          Ok (h, t)
      | (None, h, t) => Ok (h, t)
      end
  | Create s =>
      let '(p, h) := alloc h s in
      let* t := ApplyStateTable.insert h t p in
      Ok (h, t)
  | Remove k =>
      match peek h t base k with
      | (Some p, h, t) => let* t := erase h t p in Ok (h, t)
      | (None, h, t) => Ok (h, t)
      end
  | Burn fee => Ok (h, destroyXRP t fee)
  end.

Fixpoint run base (l : list (Call F)) h t : result (Heap F * ApplyStateTable) :=
  match l with
  | [] => Ok (h, t)
  | c :: l => let* ht := call base c h t in run base l ht.1 ht.2
  end.

(** The same on a map; [None] for an entry created where there is one. *)
Definition spec_call (c : Call F) (m : gmap Z (SLE F)) : option (gmap Z (SLE F)) :=
  match c with
  | Modify k f =>
      Some (match select m k with
            | Some s => <[kl_key k := mkSLE (getType s) (key s) (f (fields s))]> m
            | None => m
            end)
  | Create s =>
      match m !! key s with
      | Some _ => None
      | None => if key s =? 0 then None else Some (<[key s := s]> m)
      end
  | Remove k => Some (match select m k with Some _ => delete (kl_key k) m | None => m end)
  | Burn _ => Some m
  end.

Fixpoint spec_run (l : list (Call F)) (m : gmap Z (SLE F)) : option (gmap Z (SLE F)) :=
  match l with
  | [] => Some m
  | c :: l => match spec_call c m with Some m => spec_run l m | None => None end
  end.

(** The drops a sequence of calls burns. *)
Fixpoint burned (l : list (Call F)) (d : Z) : Z :=
  match l with
  | [] => d
  | Burn fee :: l => burned l (i64 (d + fee))
  | _ :: l => burned l d
  end.

End Calls.

Section CallsFacts.
Context {F : Type}.
Implicit Types (h : Heap F) (t : ApplyStateTable) (base : ReadView F)
  (mb : gmap Z (SLE F)).

(** The table after [performs] is tidy when the new items are. *)
Lemma tidy_put h t mb a p :
  tidy h t mb -> key (obj h p) <> 0 -> (mb !! key (obj h p) = None <-> a = insert_) ->
  a <> cache_ -> (p < next h)%positive -> tidy h (put t (key (obj h p)) a p) mb.
Proof.
  intros [Hok Hcl Ha] H0 Hb Hc Hp. split.
  - by apply table_ok_put.
  - intros k q; simpl. rewrite lookup_insert_Some. intros [[_ [= -> _]]|[_ Hi]]; [done|eauto].
  - intros k a' q; simpl. rewrite lookup_insert_Some.
    intros [[_ [= _ <-]]|[_ Hi]]; [done|eauto].
Qed.

Lemma tidy_delete h t mb k : tidy h t mb -> tidy h (set_items t (delete k (items t))) mb.
Proof.
  intros [Hok Hcl Ha]. split; [by apply table_ok_delete|..].
  - intros k' q; simpl. rewrite lookup_delete_Some. intros [_ Hi]; eauto.
  - intros k' a q; simpl. rewrite lookup_delete_Some. intros [_ Hi]; eauto.
Qed.

(** Writing through a pointer and updating. *)
Lemma write_ok h t mb k a p f :
  tidy h t mb -> items t !! k = Some (a, p) -> a <> erase_ ->
  exists t', update (assign h p f) t p = Ok t' /\ tidy (assign h p f) t' mb /\
    seen (assign h p f) t' mb
    = <[k := mkSLE (getType (obj h p)) (key (obj h p)) f]> (seen h t mb) /\
    dropsDestroyed t' = dropsDestroyed t.
Proof.
  intros [Hok Hcl Hal] Hi Ha. destruct (seen_assign h t mb k a p f Hok Hi Ha) as [Hok' Hs].
  destruct (update_performs _ mb t k a p Hok' Hi Ha) as (t' & Hu & Hok2 & Hs2 & Hd).
  exists t'. splits; [done| |congruence|done]. split; [done|..].
  - assert (forall k' q, items t' !! k' = Some (cache_, q) ->
              items t !! k' = Some (cache_, q) /\ q <> p) as Hold.
    { unfold update in Hu. destruct (Hok' _ _ _ Hi) as (Hk & _). rewrite Hk, Hi, Pos.eqb_refl in Hu.
      intros k' q Hc.
      assert (k' <> k -> q <> p) as Hqp.
      { intros Hkk ->. destruct (Hok2 _ _ _ Hc) as (Hk2 & _). congruence. }
      destruct a; simpl in Hu; try done; injection Hu as <-; simpl in Hc.
      + apply lookup_insert_Some in Hc as [[_ [=]]|[Hkk Hc]]. auto.
      + destruct (decide (k' = k)) as [->|]; [congruence|auto].
      + destruct (decide (k' = k)) as [->|]; [congruence|auto]. }
    intros k' q Hc. destruct (Hold _ _ Hc) as [Hc' Hq]. simpl.
    rewrite fn_lookup_insert_ne by done. by apply Hcl.
  - unfold update in Hu. destruct (Hok' _ _ _ Hi) as (Hk & _). rewrite Hk, Hi, Pos.eqb_refl in Hu.
    intros k' a' q Hc. simpl.
    destruct a; simpl in Hu; try done; injection Hu as <-; simpl in Hc; eauto.
    apply lookup_insert_Some in Hc as [[_ [= _ <-]]|[_ Hc]]; eauto.
Qed.

Lemma remove_ok h t mb k a p :
  tidy h t mb -> items t !! k = Some (a, p) -> a <> erase_ ->
  exists t', erase h t p = Ok t' /\ tidy h t' mb /\ seen h t' mb = delete k (seen h t mb) /\
    dropsDestroyed t' = dropsDestroyed t.
Proof.
  intros Ht Hi Ha. pose proof Ht as [Hok Hcl Hal].
  destruct (erase_performs h mb t k a p Hok Hi Ha) as (t' & He & Hok' & Hs & Hd).
  exists t'. splits; auto. destruct (Hok _ _ _ Hi) as (Hk & H0 & Hb). subst k.
  unfold erase in He. rewrite Hi, Pos.eqb_refl in He.
  assert (a <> insert_ -> tidy h (put t (key (obj h p)) erase_ p) mb) as Hput.
  { intros Hn. apply tidy_put; eauto. split; [by intros Hx%Hb|done]. }
  destruct a; simpl in He; try done; injection He as <-; auto using tidy_delete.
Qed.

Lemma create_ok h t mb s :
  tidy h t mb -> seen h t mb !! key s = None -> key s <> 0 ->
  exists t', ApplyStateTable.insert (alloc h s).2 t (alloc h s).1 = Ok t' /\
    tidy (alloc h s).2 t' mb /\
    seen (alloc h s).2 t' mb = <[key s := s]> (seen h t mb) /\
    dropsDestroyed t' = dropsDestroyed t.
Proof.
  intros Ht Hs H0.
  pose proof (tidy_alloc_new h t mb s Ht) as Ht'. pose proof (obj_alloc_new h s) as Hnew.
  pose proof (seen_alloc h t mb s (tidy_alloc _ _ _ Ht)) as Hseen.
  assert ((alloc h s).1 < next (alloc h s).2)%positive as Hp by (simpl; lia).
  revert Ht' Hnew Hseen Hp. generalize (alloc h s).2 as h', (alloc h s).1 as p.
  intros h' p Ht' Hnew Hseen Hp.
  destruct (insert_performs h' mb t p (tidy_ok _ _ _ Ht')) as (t' & Hi & Hok' & Hs' & Hd);
    rewrite ?Hnew, ?Hseen; auto.
  exists t'. splits; auto; [|by rewrite Hs', Hnew, Hseen].
  unfold ApplyStateTable.insert in Hi. rewrite lookup_seen in Hs.
  rewrite <- Hnew in Hs, H0.
  destruct (items t !! key (obj h' p)) as [[a q]|] eqn:Hit.
  - destruct (tidy_ok _ _ _ Ht' _ _ _ Hit) as (_ & _ & Hb).
    destruct a; simpl in Hi, Hs; try done. injection Hi as <-.
    apply tidy_put; auto. split; [by intros Hx%Hb|done].
  - injection Hi as <-. by apply tidy_put.
Qed.

Lemma call_ok base mb c h t m' :
  Represents base mb -> tidy h t mb -> spec_call c (seen h t mb) = Some m' ->
  exists h' t', call base c h t = Ok (h', t') /\ tidy h' t' mb /\ seen h' t' mb = m' /\
    dropsDestroyed t' = burned [c] (dropsDestroyed t).
Proof.
  intros Hb Ht Hc. destruct c as [k f|s|k|fee]; simpl in *.
  - injection Hc as <-. pose proof (peek_ok h t base mb k Hb Ht) as Hp.
    destruct (select (seen h t mb) k) as [s|]; [|rewrite Hp; eauto 6].
    destruct Hp as (p & a & h1 & t1 & -> & Ht1 & Hs1 & Hd1 & Hi & Ha & <-).
    destruct (write_ok h1 t1 mb _ a p (f (fields (obj h1 p))) Ht1 Hi Ha)
      as (t2 & -> & Ht2 & Hs2 & Hd2).
    simpl. eexists _, t2. splits; [done|done|by rewrite Hs2, Hs1|congruence].
  - destruct (seen h t mb !! key s) eqn:Hs; [done|].
    destruct (key s =? 0) eqn:H0; zbool; [done|]. injection Hc as <-.
    destruct (create_ok h t mb s Ht Hs H0) as (t' & Hi & Ht' & Hs' & Hd).
    simpl in Hi. rewrite Hi. simpl. eexists _, t'. splits; [done|exact Ht'|exact Hs'|done].
  - injection Hc as <-. pose proof (peek_ok h t base mb k Hb Ht) as Hp.
    destruct (select (seen h t mb) k) as [s|]; [|rewrite Hp; eauto 6].
    destruct Hp as (p & a & h1 & t1 & -> & Ht1 & Hs1 & Hd1 & Hi & Ha & <-).
    destruct (remove_ok h1 t1 mb _ a p Ht1 Hi Ha) as (t2 & -> & Ht2 & Hs2 & Hd2).
    simpl. eexists _, t2. splits; [done|done|by rewrite Hs2, Hs1|congruence].
  - injection Hc as <-. eexists h, _. splits; [done| |done|done].
    destruct Ht as [Hok Hcl Hal]. by split.
Qed.

Lemma run_ok base mb l h t m' :
  Represents base mb -> tidy h t mb -> spec_run l (seen h t mb) = Some m' ->
  exists h' t', run base l h t = Ok (h', t') /\ tidy h' t' mb /\ seen h' t' mb = m' /\
    dropsDestroyed t' = burned l (dropsDestroyed t).
Proof.
  intros Hb. revert h t. induction l as [|c l IH]; intros h t Ht Hl; cbn [spec_run run] in *.
  { injection Hl as <-. eauto 6. }
  destruct (spec_call c (seen h t mb)) as [m1|] eqn:Hc; [|done].
  destruct (call_ok base mb c h t m1 Hb Ht Hc) as (h1 & t1 & -> & Ht1 & <- & Hd1). simpl.
  destruct (IH h1 t1 Ht1 Hl) as (h2 & t2 & -> & Ht2 & Hs2 & Hd2).
  exists h2, t2. splits; auto. rewrite Hd2, Hd1. by destruct c.
Qed.

Lemma tidy_empty h d mb : tidy h (mkTable ∅ d) mb.
Proof. split; intros k; intros; simplify_map_eq. Qed.

Lemma seen_empty h d mb : seen h (mkTable ∅ d) mb = mb.
Proof. apply map_eq. intros k. rewrite lookup_seen; simpl. by rewrite lookup_empty. Qed.

End CallsFacts.
