(* ===== verification/ViewsProps.v ===== *)
(** * Properties of the ledger views

    The claims about the views: a transaction's calls act as on a finite map and
    applying them commits exactly that map; closing an open view gives a ledger
    that answers as the view did; the search for the next key ends with the least
    one; misuse is refused.  Each claim with hypotheses has a witness on a small
    ledger. *)

From S2P Require Import Prelude.
From S2P Require Import LedgerViews.
From S2P Require Import LedgerTables.
From S2P Require RawStateTable.
From S2P Require Import OpenView.
From S2P Require ApplyStateTable.
From S2P Require Import ViewCalls.
From stdpp Require Import sorting functions gmap list.

Local Open Scope Z_scope.

(** ** A small ledger for the witnesses *)

Definition ex_entry (k f : Z) : SLE Z := mkSLE 0x61 k f.
Definition ex_state : gmap Z (SLE Z) :=
  <[10 := ex_entry 10 1]> (<[20 := ex_entry 20 2]> (<[30 := ex_entry 30 3]> ∅)).
Definition ex_ledger : Ledger Z Z := mkLedger ex_state ∅ 1000.
Definition ex_heap : Heap Z := mkHeap (fun _ => ex_entry 1 0) 1%positive.
Definition ex_calls : list (Call Z) :=
  [Modify (mkKeylet 0x61 20) (Z.add 40); Create (ex_entry 25 7);
   Remove (mkKeylet 0x61 10); Burn 12; Create (ex_entry 10 9)].

Lemma ex_keyed : keyed ex_state.
Proof.
  intros k s. unfold ex_state. rewrite !lookup_insert_Some, lookup_empty.
  intros [[<- <-]|[_ [[<- <-]|[_ [[<- <-]|[_ [=]]]]]]]; done.
Qed.

Lemma ex_represents : Represents (ledger_view ex_ledger) ex_state.
Proof. exact (ledger_represents ex_ledger ex_keyed). Qed.

(** ** Successors are unique *)

Lemma is_succ_unique {A} (m : gmap Z A) k last r1 r2 :
  is_succ m k last r1 -> is_succ m k last r2 -> r1 = r2.
Proof.
  destruct r1 as [n1|], r2 as [n2|]; simpl; [|..|done].
  - intros (H1 & _ & S1 & M1) (H2 & _ & S2 & M2). f_equal.
    specialize (M1 _ H2 S2). specialize (M2 _ H1 S1). lia.
  - intros (H1 & L1 & [x S1] & _) H2. by rewrite (H2 _ H1 L1) in S1.
  - intros H1 (H2 & L2 & [x S2] & _). by rewrite (H1 _ H2 L2) in S2.
Qed.

Lemma put_txs_drops {F T : Type} (l : list (Z * T)) (r : gmap Z T * Z) :
  (put_txs (F := F) (V := Ledger F T) l r).2 = r.2.
Proof.
  revert r. induction l as [|x l IH]; intros r; [done|].
  exact (IH (<[x.1 := x.2]> r.1, r.2)).
Qed.

(** ** Transactions *)



(** ** Closing a ledger *)

(** Applying an open view to the ledger it stands on succeeds when its
    transactions are new to the ledger, and gives a ledger that answers every
    read, every [succ] and every walk over the entries as the view did, holds the
    transactions of both, and has the destroyed drops taken from its total. *)
Theorem open_view_closes {F T : Type} (h : Heap F) (v : OpenView F T) (l : Ledger F T) :
  keyed (stateMap l) -> b_view (base_ v) = ledger_view l ->
  RawStateTable.table_ok h (table v) (stateMap l) -> txs v ##ₘ txMap l ->
  exists l',
    open_apply h v l = Ok l' /\
    (forall k, rv_read (ledger_view l') k = rv_read (open_view h v) k) /\
    (forall k last, rv_succ (ledger_view l') k last = rv_succ (open_view h v) k last) /\
    (forall start, rv_sles (ledger_view l') start = rv_sles (open_view h v) start) /\
    txMap l' = txs v ∪ txMap l /\
    drops l' = i64 (drops l - RawStateTable.dropsDestroyed (table v)).
Proof.
  intros Hk Hb Hok Hd.
  pose proof (ledger_represents l Hk) as Hrep. rewrite <- Hb in Hrep.
  pose proof (ledger_iterates l) as Hit. rewrite <- Hb in Hit.
  destruct (open_apply_ok (TL := ledger_txs_laws) h v l (stateMap l) (txMap l, drops l))
    as (l' & Ha & (Hk' & Hs' & Hr') & Ht'); [done|done|done|].
  assert (Represents (open_view h v) (stateMap l')) as Hv.
  { rewrite Hs'. by apply RawStateTable.raw_table_represents. }
  rewrite <- Hs' in Hk'. pose proof (ledger_represents l' Hk') as Hl.
  exists l'. splits; [done|..].
  - intros k. by rewrite (rep_read _ _ Hl), (rep_read _ _ Hv).
  - intros k last. exact (is_succ_unique _ _ _ _ _ (rep_succ _ _ Hl k last) (rep_succ _ _ Hv k last)).
  - intros start. rewrite (ledger_iterates l' start), Hs'. symmetry.
    by apply RawStateTable.table_iterates.
  - rewrite <- Hr' in Ht'. exact Ht'.
  - apply (f_equal snd) in Hr'. cbn [snd] in Hr'. rewrite Hr'. apply put_txs_drops.
Qed.

Definition ex_store : Heap Z :=
  mkHeap (fun p => match p with
                   | 1%positive => ex_entry 20 2
                   | 2%positive => ex_entry 25 7
                   | _ => ex_entry 30 8
                   end) 4%positive.

Definition ex_info : LedgerInfo := mkInfo 5 77 76 100 90 true true.

Definition ex_open : OpenView Z Z :=
  mkOpen (mkBase (ledger_view ex_ledger) ex_info false (fun _ => None))
    (RawStateTable.mkRaw
       (<[20 := RawStateTable.mkItem RawStateTable.erase_ 1]>
          (<[25 := RawStateTable.mkItem RawStateTable.insert_ 2]>
             (<[30 := RawStateTable.mkItem RawStateTable.replace_ 3]> ∅))) 12)
    (<[500 := 1]> ∅) ex_info 0 true.

Lemma ex_table_ok : RawStateTable.table_ok ex_store (table ex_open) ex_state.
Proof.
  intros k i. simpl. rewrite !lookup_insert_Some, lookup_empty.
  intros [[<- <-]|[_ [[<- <-]|[_ [[<- <-]|[_ [=]]]]]]]; by vm_compute.
Qed.

Lemma open_view_closes_witness :
  exists l',
    open_apply ex_store ex_open ex_ledger = Ok l' /\
    (forall k, rv_read (ledger_view l') k = rv_read (open_view ex_store ex_open) k) /\
    (forall k last, rv_succ (ledger_view l') k last = rv_succ (open_view ex_store ex_open) k last) /\
    (forall start, rv_sles (ledger_view l') start = rv_sles (open_view ex_store ex_open) start) /\
    txMap l' = txs ex_open ∪ txMap ex_ledger /\ drops l' = 988.
Proof.
  apply (open_view_closes ex_store ex_open ex_ledger ex_keyed eq_refl ex_table_ok).
  apply map_disjoint_empty_r.
Defined.

(** ** The next key *)

(** C35. Over a base that answers as a finite state, the loop of [succ] that asks
    the base for keys until it finds one the table has not erased ends within one
    round more than the table has items, and [succ] returns the least key of the
    state seen through the table in the open interval, or nothing when there is
    none. *)
Theorem next_key_found {F : Type} (h : Heap F) (t : RawStateTable.RawStateTable)
    (base : ReadView F) (mb : gmap Z (SLE F)) (k : Z) (last : option Z) :
  Represents base mb -> RawStateTable.table_ok h t mb ->
  (exists r, parent_succ RawStateTable.is_erase (RawStateTable.items t) (rv_succ base)
               (S (size (RawStateTable.items t))) k last = Some r) /\
  is_succ (RawStateTable.seen h t mb) k last (RawStateTable.succ t base k last).
Proof.
  intros Hb Hok. split.
  - apply (parent_succ_ends _ _ _ mb (rep_succ _ _ Hb)).
    apply Nat.lt_succ_r, map_subseteq_size, map_filter_subseteq.
  - exact (rep_succ _ _ (RawStateTable.raw_table_represents h t base mb Hb Hok) k last).
Qed.

Lemma next_key_found_witness :
  RawStateTable.succ (table ex_open) (ledger_view ex_ledger) 10 (Some 40) = Some 25 /\
  is_succ (RawStateTable.seen ex_store (table ex_open) ex_state) 10 (Some 40) (Some 25).
Proof.
  pose proof (proj2 (next_key_found ex_store (table ex_open) (ledger_view ex_ledger) ex_state
                       10 (Some 40) ex_represents ex_table_ok)) as H.
  assert (RawStateTable.succ (table ex_open) (ledger_view ex_ledger) 10 (Some 40) = Some 25)
    as E by (vm_compute; reflexivity).
  rewrite E in H. exact (conj E H).
Defined.

(** ** Refusals *)

Section Refusals.
Context {F T : Type}.
Implicit Types (h : Heap F) (t : ApplyStateTable.ApplyStateTable) (l : Ledger F T).

(** The pointer [p] is the one the table holds for the key of its entry, and the
    entry has not been erased. *)
Definition live h t (p : positive) : Prop :=
  exists a, ApplyStateTable.items t !! key (obj h p) = Some (a, p) /\ a <> ApplyStateTable.erase_.

Lemma ledger_op_throws h (o : RawOp) p l e : raw_op h o p l = Throw e -> e = logic_error.
Proof.
  destruct o; simpl; unfold ledger_rawErase, ledger_rawInsert, ledger_rawReplace;
    try destruct (stateMap l !! key (obj h p)); congruence.
Qed.

Lemma ledger_op_other h (o : RawOp) p l l' k :
  raw_op h o p l = Ok l' -> key (obj h p) <> k -> stateMap l' !! k = stateMap l !! k.
Proof.
  intros H Hk. destruct o; simpl in H; [congruence|..];
    unfold ledger_rawErase, ledger_rawInsert, ledger_rawReplace in H;
    destruct (stateMap l !! key (obj h p)); simplify_eq; simpl;
    by simplify_map_eq.
Qed.

(** An insertion where the ledger has an entry is found out when it is applied. *)
Lemma run_ops_insert_refused h (ops : list (Z * (RawOp * positive))) l k p :
  StronglySorted key_lt ops -> (forall k' o q, (k', (o, q)) ∈ ops -> key (obj h q) = k') ->
  (k, (op_insert, p)) ∈ ops -> is_Some (stateMap l !! k) ->
  run_ops h ops l = Throw logic_error.
Proof.
  revert l. induction ops as [|[k' [o q]] ops IH]; intros l Hs Hk Hin Hl.
  { by apply not_elem_of_nil in Hin. }
  apply StronglySorted_cons in Hs as [Hf Hs]. simpl.
  pose proof (Hk k' o q (list_elem_of_here _ _)) as Hq.
  apply elem_of_cons in Hin as [[= <- <- <-]|Hin].
  - simpl. unfold ledger_rawInsert. rewrite Hq. by destruct Hl as [s ->].
  - destruct (raw_op h o q l) as [l1|e] eqn:Ho; simpl; [|by rewrite (ledger_op_throws _ _ _ _ _ Ho)].
    apply IH; auto.
    { intros k2 o2 q2 Hin2. by apply (Hk k2 o2 q2), list_elem_of_further. }
    rewrite (ledger_op_other _ _ _ _ _ k Ho); [done|].
    pose proof (proj1 (Forall_forall _ _) Hf _ Hin) as Hlt. unfold key_lt in Hlt. simpl in Hlt. lia.
Qed.

End Refusals.

(** Case analysis on the item of a pointer: a live one is accepted, any other is
    not live. *)
Ltac refusal :=
  unfold live, ApplyStateTable.update, ApplyStateTable.erase;
  let a := fresh "a" in let q := fresh "q" in
  match goal with |- context [ApplyStateTable.items ?t !! ?k] =>
    destruct (ApplyStateTable.items t !! k) as [[a q]|];
      [|by split; [intros _ (? & ? & _)|]]
  end;
  match goal with |- context [(q =? ?p)%positive] =>
    destruct (Pos.eqb_spec q p) as [->|?];
      [|by split; [intros _ (? & [=] & _)|]]
  end;
  destruct a; (split; [first [discriminate|intros _ (? & [=] & ?); by subst]
                      |first [done|intros []; by eexists]]).

(** [update] and [erase] are refused with a [LogicError] exactly when the
    pointer is not the table's own for a present entry, so also with a pointer
    that another sandbox has replaced since; [insert] is refused exactly when the
    table holds the entry and has not erased it.  An insertion over an entry of
    the ledger the table has not read is accepted and then refused when the table
    is applied to the ledger. *)
Theorem misuse_refused {F T : Type} (h : Heap F) (t : ApplyStateTable.ApplyStateTable)
    (p : positive) :
  (ApplyStateTable.update h t p = Throw logic_error <-> ~ live h t p) /\
  (ApplyStateTable.erase h t p = Throw logic_error <-> ~ live h t p) /\
  (ApplyStateTable.insert h t p = Throw logic_error <->
     exists a q, ApplyStateTable.items t !! key (obj h p) = Some (a, q) /\
       a <> ApplyStateTable.erase_) /\
  (forall l : Ledger F T, is_Some (stateMap l !! key (obj h p)) ->
     ApplyStateTable.items t !! key (obj h p) = None ->
     (forall k a q, ApplyStateTable.items t !! k = Some (a, q) -> key (obj h q) = k) ->
     exists t', ApplyStateTable.insert h t p = Ok t' /\
       ApplyStateTable.apply h t' l = Throw logic_error).
Proof.
  splits; [refusal|refusal| |].
  { unfold ApplyStateTable.insert.
    destruct (ApplyStateTable.items t !! key (obj h p)) as [[[] q]|];
      (split; [try done; by intros _; eexists _, _|intros (a & q' & Ha & Hn); congruence]). }
  unfold ApplyStateTable.insert.
  - intros l Hl Hi Hkeys. rewrite Hi. eexists; split; [done|].
    unfold ApplyStateTable.apply. rewrite ApplyStateTable.apply_items_ops.
    apply (run_ops_insert_refused h _ _ (key (obj h p)) p); [| | |exact Hl].
    + apply (StronglySorted_fmap _ key_lt); [by intros [] []|]. apply in_order_sorted.
    + intros k o q ([k' [a q']] & [= -> -> ->] & Hin%elem_of_in_order)%list_elem_of_fmap.
      simpl in Hin. apply lookup_insert_Some in Hin as [[<- [= _ <-]]|[_ Hin]]; eauto.
    + apply list_elem_of_fmap. exists (key (obj h p), (ApplyStateTable.insert_, p)).
      split; [done|]. apply elem_of_in_order. simpl. by simplify_map_eq.
Qed.

Definition ex_clash : Heap Z := mkHeap (fun _ => ex_entry 20 9) 2%positive.

Lemma misuse_refused_witness :
  ~ live ex_clash (ApplyStateTable.mkTable ∅ 0) 1%positive /\
  exists t', ApplyStateTable.insert ex_clash (ApplyStateTable.mkTable ∅ 0) 1%positive = Ok t' /\
    ApplyStateTable.apply ex_clash t' ex_ledger = Throw logic_error.
Proof.
  split.
  - apply (misuse_refused (T := Z) ex_clash (ApplyStateTable.mkTable ∅ 0) 1%positive). done.
  - apply (misuse_refused (T := Z) ex_clash (ApplyStateTable.mkTable ∅ 0) 1%positive);
      [by eexists|done|]. intros k a q. simpl. by rewrite lookup_empty.
Defined.

(** ** Where the views differ from their documentation *)

(** [exists] of a keylet whose type is not that of the entry at its key: the
    ledger says yes and so does a view over it, until the view has read the entry
    through another keylet; then it says no. *)
Example exists_depends_on_cache :
  let wrong := mkKeylet 0x72 20 in
  let v := ApplyStateTable.sandbox (ledger_view ex_ledger) in
  let '(p, h, t) := ApplyStateTable.peek ex_heap (ApplyStateTable.items_ v)
                      (ledger_view ex_ledger) (mkKeylet 0x61 20) in
  rv_exists (ApplyStateTable.apply_view ex_heap v) wrong = true /\
  rv_exists (ApplyStateTable.apply_view h (ApplyStateTable.mkApply (ledger_view ex_ledger) t)) wrong
  = false /\
  rv_read (ledger_view ex_ledger) wrong = None.
Proof. vm_compute. done. Qed.

(** A transaction of the base is read through the view and yet does not exist in
    it. *)
Example txExists_ignores_base :
  let b := mkBase (ledger_view ex_ledger) ex_info true (fun k => if k =? 3 then Some 1 else None) in
  txRead (on_base b : OpenView Z Z) 3 = Some 1 /\ txExists (on_base b : OpenView Z Z) 3 = false.
Proof. vm_compute. done. Qed.

(** A copy of a batch view does not count the transactions before it. *)
Lemma copy_drops_count {F T : Type} (v : OpenView F T) :
  txCount (copy v) = txCount v - baseTxCount v.
Proof. unfold txCount; simpl. lia. Qed.

(** The range [sles] of a sandbox shows the entries of its base, not its own. *)
Example sandbox_sles_are_base :
  let v := ApplyStateTable.sandbox (ledger_view ex_ledger) in
  match run (ledger_view ex_ledger) [Remove (mkKeylet 0x61 10)] ex_heap (ApplyStateTable.items_ v) with
  | Ok (h, t) =>
      let v := ApplyStateTable.mkApply (ledger_view ex_ledger) t in
      rv_read (ApplyStateTable.apply_view h v) (mkKeylet 0x61 10) = None /\
      rv_sles (ApplyStateTable.apply_view h v) None
      = Some [ex_entry 10 1; ex_entry 20 2; ex_entry 30 3]
  | Throw _ => False
  end.
Proof. vm_compute. done. Qed.
