(* ===== verification/Directories.v ===== *)
(** * Directories

    A directory lists the keys of ledger entries on pages of at most 32, which
    form a ring of double links through the root page 0.  This file models the
    directory functions of [ApplyView] ([src/libxrpl/ledger/ApplyView.cpp]) on
    the pages of one directory, by page number: [keylet::page(directory, n)] is
    the key [n] of the map, [peek] its lookup, [update] and [insert] its
    insertion, [erase] its deletion.  The callback that describes a new page and
    the field [sfRootIndex], which every page carries, are left out. *)

From S2P Require Import Prelude.
From stdpp Require Import sorting functions gmap list.

Local Open Scope Z_scope.

Definition dirNodeMaxEntries : nat := 32.
Definition dirNodeMaxPages : Z := 262144.

(** [sfIndexes], [sfIndexNext] and [sfIndexPrevious]; the links are optional. *)
Record Page := mkPage {
  sfIndexes : list Z;
  sfIndexNext : option Z;
  sfIndexPrevious : option Z }.

(** [getFieldU64] of an absent field is 0. *)
Definition nextOf (p : Page) : Z := default 0 (sfIndexNext p).
Definition prevOf (p : Page) : Z := default 0 (sfIndexPrevious p).

Definition setIndexes (p : Page) (l : list Z) : Page :=
  mkPage l (sfIndexNext p) (sfIndexPrevious p).
Definition setNext (p : Page) (n : Z) : Page :=
  mkPage (sfIndexes p) (Some n) (sfIndexPrevious p).
Definition setPrev (p : Page) (n : Z) : Page :=
  mkPage (sfIndexes p) (sfIndexNext p) (Some n).

Section Operations.
Implicit Types d : gmap Z Page.

Definition createRoot d (k : Z) : Z * gmap Z Page :=
  (0, <[0 := mkPage [k] None None]> d).

(** The last page: the root's previous, or the root itself. *)
Definition findPreviousPage d (root : Page) : result (Z * Page) :=
  let page := prevOf root in
  if page =? 0 then Ok (page, root)
  else
    match d !! page with
    | None => Throw logic_error
    | Some node => Ok (page, node)
    end.

(** [std::lower_bound] and insertion before it; [None] on a key already there. *)
Fixpoint insert_at_lower_bound (k : Z) (l : list Z) : option (list Z) :=
  match l with
  | [] => Some [k]
  | x :: l =>
      if x <? k then (fun l => x :: l) <$> insert_at_lower_bound k l
      else if k =? x then None
      else Some (k :: x :: l)
  end.

Definition insertKey d (page : Z) (node : Page) (preserveOrder : bool) (k : Z)
    : result (Z * gmap Z Page) :=
  let indexes :=
    if preserveOrder then
      if bool_decide (k ∈ sfIndexes node) then None else Some (sfIndexes node ++ [k])
    else insert_at_lower_bound k (merge_sort Z.le (sfIndexes node)) in
  match indexes with
  | None => Throw logic_error
  | Some l => Ok (page, <[page := setIndexes node l]> d)
  end.

(** [insertPage]; [next] is the page number of the page [next] points to. *)
Definition insertPage d (page nextPage next k : Z) : result (option Z * gmap Z Page) :=
  let last := page in
  let page := page + 1 in
  if dirNodeMaxPages <=? page then Ok (None, d)
  else
    match d !! last with
    | None => Throw logic_error
    | Some node =>
        let d := <[last := setNext node page]> d in
        match d !! next with
        | None => Throw logic_error
        | Some nx =>
            let d := <[next := setPrev nx page]> d in
            let node :=
              mkPage [k]
                (if nextPage =? 0 then None else Some nextPage)
                (if page =? 1 then None else Some (page - 1)) in
            match d !! page with
            | Some _ => Throw logic_error
            | None => Ok (Some page, <[page := node]> d)
            end
        end
    end.

Definition dirAdd d (preserveOrder : bool) (k : Z) : result (option Z * gmap Z Page) :=
  match d !! 0 with
  | None => let '(page, d) := createRoot d k in Ok (Some page, d)
  | Some root =>
      let* (page, node) := findPreviousPage d root in
      if (length (sfIndexes node) <? dirNodeMaxEntries)%nat then
        let* (page, d) := insertKey d page node preserveOrder k in
        Ok (Some page, d)
      else insertPage d page 0 0 k
  end.

(** The check of the root's links that [dirRemove] and [emptyDirDelete] share. *)
Definition root_links (root : Page) : result unit :=
  if (nextOf root =? 0) && negb (prevOf root =? 0) then Throw logic_error
  else if (prevOf root =? 0) && negb (nextOf root =? 0) then Throw logic_error
  else Ok tt.

Definition emptyDirDelete d : result (bool * gmap Z Page) :=
  match d !! 0 with
  | None => Ok (false, d)
  | Some node =>
      match sfIndexes node with
      | _ :: _ => Ok (false, d)
      | [] =>
          let* _ := root_links node in
          let next := nextOf node in
          let prev := prevOf node in
          if (next =? prev) && negb (next =? 0) then
            match d !! next with
            | None => Throw logic_error
            | Some last =>
                match sfIndexes last with
                | _ :: _ => Ok (false, d)
                | [] =>
                    let d := <[0 := setPrev (setNext node 0) 0]> d in
                    let d := delete next d in
                    Ok (true, delete 0 d)
                end
            end
          else if (next =? 0) && (prev =? 0) then Ok (true, delete 0 d)
          else Ok (true, d)
      end
  end.

(** [std::find] and [erase]: the list without the first occurrence. *)
Fixpoint remove_first (k : Z) (l : list Z) : option (list Z) :=
  match l with
  | [] => None
  | x :: l => if x =? k then Some l else (fun l => x :: l) <$> remove_first k l
  end.

(** The end of [dirRemove] when the emptied page is the root. *)
Definition root_emptied d (node : Page) (keepRoot : bool) : result (bool * gmap Z Page) :=
  let* _ := root_links node in
  let next := nextOf node in
  let prev := prevOf node in
  if (next =? prev) && negb (next =? 0) then
    match d !! next with
    | None => Throw logic_error
    | Some last =>
        match sfIndexes last with
        | [] =>
            let d := <[0 := setPrev (setNext node 0) 0]> d in
            let d := delete next d in
            if keepRoot then Ok (true, d) else Ok (true, delete 0 d)
        | _ :: _ => Ok (true, d)
        end
    end
  else if keepRoot then Ok (true, d)
  else if (next =? 0) && (prev =? 0) then Ok (true, delete 0 d)
  else Ok (true, d).

(** The end of [dirRemove] when the emptied page is not the root: it is
    unlinked, then an empty last page, then an empty root are removed. *)
Definition page_emptied d (page : Z) (node : Page) (keepRoot : bool)
    : result (bool * gmap Z Page) :=
  let prevPage := prevOf node in
  let nextPage := nextOf node in
  if nextPage =? page then Throw logic_error
  else if prevPage =? page then Throw logic_error
  else
    match d !! prevPage with
    | None => Throw logic_error
    | Some prev =>
        let d := <[prevPage := setNext prev nextPage]> d in
        match d !! nextPage with
        | None => Throw logic_error
        | Some next =>
            let next := setPrev next prevPage in
            let d := <[nextPage := next]> d in
            let d := delete page d in
            let* (nextPage, d) :=
              match negb (nextPage =? 0) && (nextOf next =? 0), sfIndexes next with
              | true, [] =>
                  let d := delete nextPage d in
                  match d !! prevPage with
                  | None => Throw logic_error
                  | Some prev =>
                      let d := <[prevPage := setNext prev 0]> d in
                      match d !! 0 with
                      | None => Throw logic_error
                      | Some root => Ok (0, <[0 := setPrev root prevPage]> d)
                      end
                  end
              | _, _ => Ok (nextPage, d)
              end in
            if negb keepRoot && (nextPage =? 0) && (prevPage =? 0) then
              match d !! prevPage with
              | None => Throw logic_error
              | Some prev =>
                  match sfIndexes prev with
                  | [] => Ok (true, delete prevPage d)
                  | _ :: _ => Ok (true, d)
                  end
              end
            else Ok (true, d)
        end
    end.

Definition dirRemove d (page k : Z) (keepRoot : bool) : result (bool * gmap Z Page) :=
  match d !! page with
  | None => Ok (false, d)
  | Some node =>
      match remove_first k (sfIndexes node) with
      | None => Ok (false, d)
      | Some entries =>
          let node := setIndexes node entries in
          let d := <[page := node]> d in
          match entries with
          | _ :: _ => Ok (true, d)
          | [] =>
              if page =? 0 then root_emptied d node keepRoot
              else page_emptied d page node keepRoot
          end
      end
  end.

(** [dirDelete]: the keys the callback is called with, in order; [None] when
    [fuel] pages do not end it. *)
Fixpoint delete_pages (fuel : nat) (pi : Z) d : option (bool * list Z * gmap Z Page) :=
  match fuel with
  | O => None
  | S fuel =>
      match d !! pi with
      | None => Some (false, [], d)
      | Some page =>
          let d := delete pi d in
          match sfIndexNext page with
          | None => Some (true, sfIndexes page, d)
          | Some pi =>
              match delete_pages fuel pi d with
              | Some (ok, l, d) => Some (ok, sfIndexes page ++ l, d)
              | None => None
              end
          end
      end
  end.

Definition dirDelete d : option (bool * list Z * gmap Z Page) :=
  delete_pages (S (size d)) 0 d.

End Operations.

(** ** The ring of pages *)

(** [y] follows [x] in [l]. *)
Definition adj (l : list Z) (x y : Z) : Prop := exists a b, l = a ++ x :: y :: b.

Definition nxt (d : gmap Z Page) (p : Z) : option Z := nextOf <$> d !! p.
Definition prv (d : gmap Z Page) (p : Z) : option Z := prevOf <$> d !! p.
Definition entries (d : gmap Z Page) (p : Z) : list Z :=
  match d !! p with Some pg => sfIndexes pg | None => [] end.

(** The pages are the root and [ps], in ascending order; the links run through
    them and back to the root; no page but the root is empty, none has more than
    32 entries. *)
Record ring (d : gmap Z Page) (ps : list Z) : Prop := {
  ring_dom : forall p, is_Some (d !! p) <-> p ∈ 0 :: ps;
  ring_sorted : StronglySorted Z.lt (0 :: ps);
  ring_links : forall x y, adj (0 :: ps ++ [0]) x y -> nxt d x = Some y /\ prv d y = Some x;
  ring_filled : forall p, p ∈ ps -> entries d p <> [];
  ring_small : forall p, (length (entries d p) <= dirNodeMaxEntries)%nat;
  ring_bound : forall p, p ∈ ps -> p < dirNodeMaxPages }.

Definition contents (d : gmap Z Page) (ps : list Z) : list Z := (0 :: ps) ≫= entries d.

(** The directory [d] lists the keys [l], each as often as it occurs. *)
Definition lists (d : gmap Z Page) (l : list Z) : Prop :=
  (d = ∅ /\ l = []) \/ (exists ps, ring d ps /\ l ≡ₚ contents d ps).
