(* ===== verification/DirectoriesFacts.v ===== *)
(** * Theory of directories

    Adjacency in lists, the links of a page map after an update, and the ring of
    pages under the operations of [Directories]: adding a key, growing by a page,
    emptying and unlinking a page, removing the whole directory.

    ** Directories as lists of keys

    Adding and removing a key on a directory that [lists] some keys.  Entries of the
    ledger remember the page they are listed on: adding and removing other keys does not
    move them. *)

From S2P Require Import Prelude.
From S2P Require Import Directories.
From stdpp Require Import sorting functions gmap list.

Local Open Scope Z_scope.

(** ** Lemmas on adjacency *)

Lemma adj_app l1 l2 x y :
  adj (l1 ++ l2) x y <->
  adj l1 x y \/ adj l2 x y \/ (last l1 = Some x /\ head l2 = Some y).
Proof.
  split.
  - intros (a & b & E). revert l1 E. induction a as [|c a IH]; intros l1 E.
    + destruct l1 as [|x1 l1]; [right; left; by exists [], b|].
      injection E as -> E. destruct l1 as [|y1 l1]; simpl in E.
      * subst l2. right; right. done.
      * injection E as -> E. left. by exists [], l1.
    + destruct l1 as [|x1 l1]; [right; left; by exists (c :: a), b|].
      injection E as -> E. destruct (IH l1 E) as [(a' & b' & ->)|[H|[Hl Hh]]].
      * left. by exists (c :: a'), b'.
      * tauto.
      * right; right. split; [|done]. rewrite last_cons, Hl. done.
  - intros [(a & b & ->)|[(a & b & ->)|[Hl Hh]]].
    + exists a, (b ++ l2). by rewrite <- app_assoc.
    + exists (l1 ++ a), b. by rewrite <- app_assoc.
    + apply last_Some in Hl as [l1' ->]. destruct l2 as [|y' l2]; [done|].
      injection Hh as ->. exists l1', l2. by rewrite <- app_assoc.
Qed.

Lemma adj_nil x y : ~ adj [] x y.
Proof. intros (a & b & E). by destruct a. Qed.

Lemma adj_single z x y : ~ adj [z] x y.
Proof. intros (a & b & E). destruct a as [|? [|]]; discriminate. Qed.

Lemma adj_cons z l x y : adj (z :: l) x y <-> (x = z /\ head l = Some y) \/ adj l x y.
Proof.
  change (z :: l) with ([z] ++ l). rewrite adj_app. simpl. split.
  - intros [H|[H|[[= ->] H]]]; [by apply adj_single in H|tauto|tauto].
  - intros [[-> H]|H]; tauto.
Qed.

(** In a list without repetition the first of a pair is not the last element, the
    second not the first. *)
Lemma adj_not_last l x y z : NoDup l -> adj l x y -> last l = Some z -> x <> z.
Proof.
  intros Hd (a & b & ->) Hl ->.
  change (a ++ z :: y :: b) with (a ++ [z] ++ (y :: b)) in *.
  rewrite app_assoc, last_app_cons in Hl.
  apply NoDup_app in Hd as (_ & _ & Hd). apply NoDup_cons in Hd as [Hn _].
  apply Hn. by apply last_Some_elem_of in Hl.
Qed.

Lemma adj_elem l x y : adj l x y -> x ∈ l /\ y ∈ tail l.
Proof.
  intros (a & b & ->). split; [apply elem_of_app; right; apply list_elem_of_here|].
  destruct a as [|c a]; simpl; [apply list_elem_of_here|].
  apply elem_of_app; right. apply list_elem_of_further, list_elem_of_here.
Qed.

(** ** Links after an update *)

Lemma nxt_insert d p pg x :
  nxt (<[p := pg]> d) x = if decide (p = x) then Some (nextOf pg) else nxt d x.
Proof. unfold nxt. rewrite lookup_insert. by case_decide. Qed.

Lemma prv_insert d p pg x :
  prv (<[p := pg]> d) x = if decide (p = x) then Some (prevOf pg) else prv d x.
Proof. unfold prv. rewrite lookup_insert. by case_decide. Qed.

Lemma entries_insert d p pg x :
  entries (<[p := pg]> d) x = if decide (p = x) then sfIndexes pg else entries d x.
Proof. unfold entries. rewrite lookup_insert. by case_decide. Qed.

Lemma nxt_delete d p x : p <> x -> nxt (delete p d) x = nxt d x.
Proof. intros. unfold nxt. by rewrite lookup_delete_ne. Qed.

Lemma prv_delete d p x : p <> x -> prv (delete p d) x = prv d x.
Proof. intros. unfold prv. by rewrite lookup_delete_ne. Qed.

Lemma entries_delete d p x : p <> x -> entries (delete p d) x = entries d x.
Proof. intros. unfold entries. by rewrite lookup_delete_ne. Qed.

Lemma nxt_lookup d p pg : d !! p = Some pg -> nxt d p = Some (nextOf pg).
Proof. unfold nxt. by intros ->. Qed.

Lemma prv_lookup d p pg : d !! p = Some pg -> prv d p = Some (prevOf pg).
Proof. unfold prv. by intros ->. Qed.

Lemma entries_lookup d p pg : d !! p = Some pg -> entries d p = sfIndexes pg.
Proof. unfold entries. by intros ->. Qed.

(** ** Facts on the ring *)

Lemma sorted_lt_NoDup (l : list Z) : StronglySorted Z.lt l -> NoDup l.
Proof.
  induction 1 as [|x l Hs IH Hf]; constructor; [|done].
  intros Hx. pose proof (proj1 (Forall_forall _ _) Hf x Hx). lia.
Qed.

Section Ring.
Context {d : gmap Z Page} {ps : list Z} (R : ring d ps).

Lemma ring_NoDup : NoDup (0 :: ps).
Proof. exact (sorted_lt_NoDup _ (ring_sorted _ _ R)). Qed.

Lemma ring_pos p : p ∈ ps -> 0 < p.
Proof.
  intros Hp. pose proof (ring_sorted _ _ R) as Hs. apply StronglySorted_cons in Hs as [Hf _].
  exact (proj1 (Forall_forall _ _) Hf p Hp).
Qed.

Lemma ring_root : exists root, d !! 0 = Some root.
Proof. apply (ring_dom _ _ R). apply list_elem_of_here. Qed.

Lemma ring_last z : last (0 :: ps) = Some z -> prv d 0 = Some z /\ nxt d z = Some 0.
Proof.
  intros Hz. destruct (ring_links _ _ R z 0) as [Hn Hp]; [|done].
  change (0 :: ps ++ [0]) with ((0 :: ps) ++ [0]). apply adj_app. right; right. done.
Qed.

Lemma ring_first y : head (ps ++ [0]) = Some y -> nxt d 0 = Some y.
Proof.
  intros Hy. apply (ring_links _ _ R 0 y). apply adj_cons. by left.
Qed.

(** The neighbours of a page. *)
Lemma ring_around l1 p l2 a b :
  ps = l1 ++ p :: l2 -> last (0 :: l1) = Some a -> head (l2 ++ [0]) = Some b ->
  nxt d a = Some p /\ prv d p = Some a /\ nxt d p = Some b /\ prv d b = Some p.
Proof.
  intros -> Ha Hb.
  assert (0 :: (l1 ++ p :: l2) ++ [0] = (0 :: l1) ++ [p] ++ (l2 ++ [0])) as E
    by (simpl; by rewrite <- app_assoc).
  destruct (ring_links _ _ R a p) as [H1 H2].
  { rewrite E. apply adj_app. right; right. done. }
  destruct (ring_links _ _ R p b) as [H3 H4].
  { rewrite E. apply adj_app. right; left. apply adj_app. right; right. done. }
  done.
Qed.

End Ring.

(** Changing what one page lists moves only those entries. *)
Lemma bind_change (f g : Z -> list Z) qs p :
  NoDup qs -> p ∈ qs -> (forall q, q <> p -> g q = f q) ->
  f p ++ (qs ≫= g) ≡ₚ g p ++ (qs ≫= f).
Proof.
  intros Hd Hp Hne. apply list_elem_of_split in Hp as (a & b & ->).
  apply NoDup_app in Hd as (_ & Ha & Hd). apply NoDup_cons in Hd as [Hb _].
  assert (forall l, p ∉ l -> l ≫= g = l ≫= f) as Hsame.
  { induction l as [|x l IH]; csimpl; intros Hl; [done|].
    apply not_elem_of_cons in Hl as [Hx Hl]. by rewrite IH, Hne by congruence. }
  rewrite !bind_app. csimpl. rewrite (Hsame a), (Hsame b) by (done || (intros Hx; by apply (Ha p Hx), list_elem_of_here)).
  rewrite (Permutation_app_swap_app (a ≫= f) (g p)), (Permutation_app_swap_app (a ≫= f) (f p)).
  apply Permutation_app_swap_app.
Qed.

Lemma ring_set_indexes d ps p pg l :
  ring d ps -> d !! p = Some pg -> (p <> 0 -> l <> []) ->
  (length l <= dirNodeMaxEntries)%nat ->
  ring (<[p := setIndexes pg l]> d) ps.
Proof.
  intros R Hp Hl Hlen.
  assert (forall x, nxt (<[p := setIndexes pg l]> d) x = nxt d x) as Hn.
  { intros x. rewrite nxt_insert. case_decide; [subst|done]. by rewrite (nxt_lookup _ _ _ Hp). }
  assert (forall x, prv (<[p := setIndexes pg l]> d) x = prv d x) as Hv.
  { intros x. rewrite prv_insert. case_decide; [subst|done]. by rewrite (prv_lookup _ _ _ Hp). }
  split.
  - intros q. rewrite <- (ring_dom _ _ R q). destruct (decide (p = q)) as [<-|].
    + rewrite lookup_insert_eq, Hp. done.
    + by rewrite lookup_insert_ne.
  - exact (ring_sorted _ _ R).
  - intros x y Hxy. rewrite Hn, Hv. exact (ring_links _ _ R x y Hxy).
  - intros q Hq. rewrite entries_insert. case_decide as E; [|exact (ring_filled _ _ R q Hq)].
    apply Hl. pose proof (ring_pos R q Hq). simpl. lia.
  - intros q. rewrite entries_insert. case_decide; [done|]. apply (ring_small _ _ R).
  - exact (ring_bound _ _ R).
Qed.

Lemma contents_set d ps p pg l :
  ring d ps -> d !! p = Some pg ->
  sfIndexes pg ++ contents (<[p := setIndexes pg l]> d) ps ≡ₚ l ++ contents d ps.
Proof.
  intros R Hp.
  pose proof (bind_change (entries d) (entries (<[p := setIndexes pg l]> d)) (0 :: ps) p
                (ring_NoDup R)) as H.
  rewrite (entries_lookup d p pg Hp), entries_insert, decide_True in H by done.
  apply H.
  - apply (ring_dom _ _ R). by rewrite Hp.
  - intros q Hq. by rewrite entries_insert, decide_False.
Qed.

(** ** Adding a key *)

Lemma insert_at_lower_bound_spec k l :
  k ∉ l -> exists l', insert_at_lower_bound k l = Some l' /\ l' ≡ₚ k :: l.
Proof.
  induction l as [|x l IH]; simpl; intros Hk; [by eexists|].
  apply not_elem_of_cons in Hk as [Hx Hk].
  destruct (x <? k) eqn:E; zbool.
  - destruct (IH Hk) as (l' & -> & Hp). eexists; split; [done|].
    rewrite Hp. constructor.
  - rewrite (proj2 (Z.eqb_neq k x)) by done. by eexists.
Qed.

Lemma insertKey_spec d page node order k :
  k ∉ sfIndexes node ->
  exists l, insertKey d page node order k = Ok (page, <[page := setIndexes node l]> d) /\
    l ≡ₚ k :: sfIndexes node.
Proof.
  intros Hk. unfold insertKey. destruct order.
  - rewrite bool_decide_eq_false_2 by done. eexists; split; [done|].
    by rewrite Permutation_app_comm.
  - destruct (insert_at_lower_bound_spec k (merge_sort Z.le (sfIndexes node))) as (l & -> & Hp).
    { by rewrite merge_sort_Permutation. }
    eexists; split; [done|]. by rewrite Hp, merge_sort_Permutation.
Qed.

Lemma ring_last_exists ps : exists z, last (0 :: ps) = Some z.
Proof. destruct (last (0 :: ps)) eqn:E; [by eexists|]. by apply last_None in E. Qed.

Lemma findPreviousPage_spec d ps root z :
  ring d ps -> d !! 0 = Some root -> last (0 :: ps) = Some z ->
  exists node, findPreviousPage d root = Ok (z, node) /\ d !! z = Some node.
Proof.
  intros R Hr Hz. destruct (ring_last R z Hz) as [Hp _].
  rewrite (prv_lookup _ _ _ Hr) in Hp. injection Hp as Hp.
  unfold findPreviousPage. rewrite Hp. destruct (z =? 0) eqn:E; zbool; [exists root; by rewrite E|].
  assert (is_Some (d !! z)) as [node Hn].
  { apply (ring_dom _ _ R). apply last_Some_elem_of. done. }
  rewrite Hn. eauto.
Qed.

(** A new page at the end of the ring. *)
Definition grown (d : gmap Z Page) (z : Z) (node root : Page) (k : Z) : gmap Z Page :=
  let q := z + 1 in
  let d := <[z := setNext node q]> d in
  <[q := mkPage [k] None (if q =? 1 then None else Some (q - 1))]>
    (<[0 := setPrev (if z =? 0 then setNext node q else root) q]> d).

Lemma insertPage_spec d ps root z node k :
  ring d ps -> d !! 0 = Some root -> last (0 :: ps) = Some z -> d !! z = Some node ->
  insertPage d z 0 0 k =
    if dirNodeMaxPages <=? z + 1 then Ok (None, d)
    else Ok (Some (z + 1), grown d z node root k).
Proof.
  intros R Hr Hz Hn. unfold insertPage. case_match_bool; [done|]. rewrite Hn.
  assert (z + 1 ∉ 0 :: ps) as Hq.
  { intros Hin. pose proof (ring_sorted _ _ R) as Hs.
    apply last_Some in Hz as [l Hl]. rewrite Hl in Hs, Hin.
    apply StronglySorted_app in Hs as (Hs & _ & _).
    apply elem_of_app in Hin as [Hin|Hin%list_elem_of_singleton]; [|lia].
    pose proof (Hs _ _ Hin (list_elem_of_here _ _)). lia. }
  assert (d !! (z + 1) = None) as Hfree.
  { apply eq_None_not_Some. by rewrite (ring_dom _ _ R). }
  assert (z + 1 <> 0) as H0 by (intros E0; rewrite E0 in Hq; apply Hq, list_elem_of_here).
  unfold grown. destruct (z =? 0) eqn:Ez; zbool.
  - subst z. rewrite Hr in Hn; injection Hn as <-. rewrite lookup_insert_eq.
    simpl. rewrite !lookup_insert_ne by lia. rewrite Hfree. done.
  - rewrite lookup_insert_ne, Hr by lia. simpl.
    rewrite !lookup_insert_ne by lia. rewrite Hfree. done.
Qed.

Lemma sorted_snoc_lt (l : list Z) q :
  StronglySorted Z.lt l -> (forall x, x ∈ l -> x < q) -> StronglySorted Z.lt (l ++ [q]).
Proof.
  intros Hs Hq. apply StronglySorted_app_2; [|done|repeat constructor].
  intros x y Hx Hy%list_elem_of_singleton. subst y. by apply Hq.
Qed.

Lemma ring_below_last d ps z x : ring d ps -> last (0 :: ps) = Some z -> x ∈ 0 :: ps -> x <= z.
Proof.
  intros R Hz Hx. pose proof (ring_sorted _ _ R) as Hs.
  apply last_Some in Hz as [l Hl]. rewrite Hl in Hs, Hx.
  apply StronglySorted_app in Hs as (Hs & _ & _).
  apply elem_of_app in Hx as [Hx|Hx%list_elem_of_singleton]; [|lia].
  pose proof (Hs _ _ Hx (list_elem_of_here _ _)). lia.
Qed.

Section Grown.
Context {d : gmap Z Page} {ps : list Z} {root node : Page} {z k : Z}.
Context (R : ring d ps) (Hr : d !! 0 = Some root) (Hz : last (0 :: ps) = Some z)
  (Hn : d !! z = Some node).

Lemma last_nonneg : 0 <= z.
Proof. exact (ring_below_last _ _ _ 0 R Hz (list_elem_of_here _ _)). Qed.

Lemma grown_nxt x :
  nxt (grown d z node root k) x =
    if decide (x = z + 1) then Some 0 else if decide (x = z) then Some (z + 1) else nxt d x.
Proof.
  pose proof last_nonneg. unfold grown. rewrite !nxt_insert.
  destruct (decide (z + 1 = x)) as [<-|]; [by rewrite decide_True|].
  rewrite (decide_False (P := x = z + 1)) by lia.
  destruct (decide (0 = x)) as [<-|].
  - destruct (z =? 0) eqn:E; zbool; simpl.
    + by rewrite decide_True by lia.
    + rewrite decide_False by lia. by rewrite (nxt_lookup _ _ _ Hr).
  - destruct (decide (z = x)) as [<-|]; [by rewrite decide_True|by rewrite decide_False by lia].
Qed.

Lemma grown_prv x :
  prv (grown d z node root k) x =
    if decide (x = z + 1) then Some z else if decide (x = 0) then Some (z + 1) else prv d x.
Proof.
  pose proof last_nonneg. unfold grown. rewrite !prv_insert.
  destruct (decide (z + 1 = x)) as [<-|].
  { rewrite decide_True by done. unfold prevOf; simpl.
    destruct (z + 1 =? 1) eqn:E; zbool; simpl; f_equal; lia. }
  rewrite (decide_False (P := x = z + 1)) by lia.
  destruct (decide (0 = x)) as [<-|]; [by rewrite decide_True|].
  rewrite (decide_False (P := x = 0)) by lia.
  destruct (decide (z = x)) as [<-|]; [|done]. by rewrite (prv_lookup _ _ _ Hn).
Qed.

Lemma grown_entries x :
  entries (grown d z node root k) x = if decide (x = z + 1) then [k] else entries d x.
Proof.
  pose proof last_nonneg. unfold grown. rewrite !entries_insert.
  destruct (decide (z + 1 = x)) as [<-|]; [by rewrite decide_True|].
  rewrite (decide_False (P := x = z + 1)) by lia.
  destruct (decide (0 = x)) as [<-|].
  - rewrite (entries_lookup _ _ _ Hr). destruct (z =? 0) eqn:E; zbool; [|done].
    assert (d !! 0 = Some node) as Hn' by (by rewrite <- E at 1).
    rewrite Hr in Hn'. by injection Hn' as ->.
  - destruct (decide (z = x)) as [<-|]; [|done]. by rewrite (entries_lookup _ _ _ Hn).
Qed.

Lemma grown_ring : z + 1 < dirNodeMaxPages -> ring (grown d z node root k) (ps ++ [z + 1]).
Proof.
  intros Hmax. pose proof last_nonneg.
  assert (forall x, x ∈ 0 :: ps -> x < z + 1) as Hlt.
  { intros x Hx. pose proof (ring_below_last _ _ _ x R Hz Hx). lia. }
  assert (forall x, x ∈ ps -> x < z + 1) as Hlt' by (intros; by apply Hlt, list_elem_of_further).
  split.
  - intros p. unfold grown. rewrite !lookup_insert_is_Some, (ring_dom _ _ R p).
    change (0 :: ps ++ [z + 1]) with ((0 :: ps) ++ [z + 1]).
    rewrite elem_of_app, list_elem_of_singleton. split.
    + intros [<-|[_ [<-|[_ [<-|[_ Hp]]]]]]; [by right|left; apply list_elem_of_here|left|by left].
      by apply last_Some_elem_of.
    + intros [Hp| ->]; [|by left]. specialize (Hlt p Hp).
      right; split; [lia|]. destruct (decide (0 = p)); [by left|right; split; [done|]].
      destruct (decide (z = p)); [by left|right; done].
  - change (0 :: ps ++ [z + 1]) with ((0 :: ps) ++ [z + 1]).
    apply sorted_snoc_lt; [exact (ring_sorted _ _ R)|done].
  - intros x y.
    replace (0 :: (ps ++ [z + 1]) ++ [0]) with ((0 :: ps) ++ [z + 1] ++ [0])
      by (simpl; by rewrite <- app_assoc).
    rewrite adj_app. rewrite grown_nxt, grown_prv.
    intros [Hxy|[Hxy|[Hx Hy]]].
    + pose proof (adj_not_last _ _ _ _ (ring_NoDup R) Hxy Hz) as Hxz.
      destruct (adj_elem _ _ _ Hxy) as [Hxin Hyin]. simpl in Hyin.
      pose proof (Hlt x Hxin). pose proof (Hlt' y Hyin). pose proof (ring_pos R y Hyin).
      rewrite !decide_False by lia. apply (ring_links _ _ R).
      change (0 :: ps ++ [0]) with ((0 :: ps) ++ [0]). apply adj_app. by left.
    + apply adj_cons in Hxy as [[-> [= <-]]|Hxy]; [|by apply adj_single in Hxy].
      rewrite !decide_True by done. rewrite decide_False by lia. done.
    + rewrite Hz in Hx. injection Hx as <-. injection Hy as <-.
      rewrite decide_False, !decide_True by lia. done.
  - intros p Hp. rewrite grown_entries.
    apply elem_of_app in Hp as [Hp| ->%list_elem_of_singleton]; [|by rewrite decide_True].
    rewrite decide_False by (specialize (Hlt' p Hp); lia). exact (ring_filled _ _ R p Hp).
  - intros p. rewrite grown_entries. case_decide; [simpl; unfold dirNodeMaxEntries; lia|].
    apply (ring_small _ _ R).
  - intros p [Hp| ->%list_elem_of_singleton]%elem_of_app; [exact (ring_bound _ _ R p Hp)|done].
Qed.

Lemma grown_contents : contents (grown d z node root k) (ps ++ [z + 1]) ≡ₚ k :: contents d ps.
Proof.
  unfold contents. change (0 :: ps ++ [z + 1]) with ((0 :: ps) ++ [z + 1]).
  rewrite bind_app, bind_singleton, grown_entries, decide_True by done.
  rewrite Permutation_app_comm. apply Permutation_skip.
  assert (forall l, (forall x, x ∈ l -> x <> z + 1) ->
            l ≫= entries (grown d z node root k) = l ≫= entries d) as Hsame.
  { induction l as [|x l IH]; csimpl; intros Hl; [done|].
    rewrite IH by (intros; apply Hl; by apply list_elem_of_further).
    by rewrite grown_entries, decide_False by (apply Hl, list_elem_of_here). }
  rewrite Hsame; [done|]. intros x Hx. pose proof (ring_below_last _ _ _ x R Hz Hx). lia.
Qed.

End Grown.

(** The page a new key would go to has room, or there may be one more page. *)
Definition has_room (d : gmap Z Page) : Prop :=
  match d !! 0 with
  | None => True
  | Some root =>
      (length (entries d (prevOf root)) < dirNodeMaxEntries)%nat \/
      prevOf root + 1 < dirNodeMaxPages
  end.

Lemma ring_new_root k : ring {[0 := mkPage [k] None None]} [].
Proof.
  split.
  - intros p. rewrite lookup_singleton, list_elem_of_singleton. case_decide; subst; [done|].
    split; [by intros []|congruence].
  - repeat constructor.
  - intros x y Hxy. apply adj_cons in Hxy as [[-> [= <-]]|Hxy]; [done|by apply adj_single in Hxy].
  - intros p Hp. by apply not_elem_of_nil in Hp.
  - intros p. unfold entries. rewrite lookup_singleton.
    case_decide; simpl; unfold dirNodeMaxEntries; lia.
  - intros p Hp. by apply not_elem_of_nil in Hp.
Qed.

Lemma dirAdd_ring d ps order k :
  ring d ps -> k ∉ contents d ps -> has_room d ->
  exists page d' ps', dirAdd d order k = Ok (Some page, d') /\ ring d' ps' /\
    contents d' ps' ≡ₚ k :: contents d ps /\ k ∈ entries d' page.
Proof.
  intros R Hk Hroom. destruct (ring_root R) as [root Hr].
  destruct (ring_last_exists ps) as [z Hz].
  destruct (findPreviousPage_spec d ps root z R Hr Hz) as (node & Hf & Hn).
  assert (prevOf root = z) as Hpz.
  { destruct (ring_last R z Hz) as [Hp _]. rewrite (prv_lookup _ _ _ Hr) in Hp. congruence. }
  unfold has_room in Hroom. rewrite Hr, Hpz, (entries_lookup _ _ _ Hn) in Hroom.
  unfold dirAdd. rewrite Hr, Hf. simpl.
  destruct (length (sfIndexes node) <? dirNodeMaxEntries)%nat eqn:Hlen.
  - apply Nat.ltb_lt in Hlen.
    assert (k ∉ sfIndexes node) as Hk'.
    { intros Hin. apply Hk. apply list_elem_of_bind. exists z.
      rewrite (entries_lookup _ _ _ Hn). split; [done|]. by apply last_Some_elem_of. }
    destruct (insertKey_spec d z node order k Hk') as (l & -> & Hl). simpl.
    assert (length l = S (length (sfIndexes node))) as Hll by (by rewrite Hl).
    exists z, (<[z := setIndexes node l]> d), ps. splits; [done| | |].
    + apply ring_set_indexes; auto; [|lia]. intros _ ->. by apply Permutation_nil_cons in Hl.
    + apply Permutation_app_inv_l with (sfIndexes node).
      etransitivity; [exact (contents_set d ps z node l R Hn)|]. rewrite Hl.
      apply Permutation_middle.
    + rewrite entries_insert, decide_True by done. simpl. rewrite Hl. apply list_elem_of_here.
  - apply Nat.ltb_ge in Hlen. destruct Hroom as [|Hmax]; [lia|].
    rewrite (insertPage_spec d ps root z node k R Hr Hz Hn).
    rewrite (proj2 (Z.leb_gt _ _)) by done.
    exists (z + 1), (grown d z node root k), (ps ++ [z + 1]). splits; [done| | |].
    + by apply grown_ring.
    + by apply grown_contents.
    + rewrite (grown_entries R Hr Hz Hn), decide_True by done. apply list_elem_of_here.
Qed.

Lemma dirAdd_full d ps order k :
  ring d ps -> ~ has_room d -> dirAdd d order k = Ok (None, d).
Proof.
  intros R Hroom. destruct (ring_root R) as [root Hr].
  destruct (ring_last_exists ps) as [z Hz].
  destruct (findPreviousPage_spec d ps root z R Hr Hz) as (node & Hf & Hn).
  assert (prevOf root = z) as Hpz.
  { destruct (ring_last R z Hz) as [Hp _]. rewrite (prv_lookup _ _ _ Hr) in Hp. congruence. }
  unfold has_room in Hroom. rewrite Hr, Hpz, (entries_lookup _ _ _ Hn) in Hroom.
  unfold dirAdd. rewrite Hr, Hf. simpl.
  rewrite (proj2 (Nat.ltb_ge _ _)) by lia.
  rewrite (insertPage_spec d ps root z node k R Hr Hz Hn).
  by rewrite (proj2 (Z.leb_le _ _)) by lia.
Qed.

(** ** Removing a key *)

Lemma remove_first_spec k l :
  match remove_first k l with
  | Some l' => l ≡ₚ k :: l'
  | None => k ∉ l
  end.
Proof.
  induction l as [|x l IH]; simpl; [apply not_elem_of_nil|].
  destruct (x =? k) eqn:E; zbool; [by subst|].
  destruct (remove_first k l) as [l'|]; simpl.
  - rewrite IH. apply Permutation_swap.
  - apply not_elem_of_cons. split; [congruence|done].
Qed.

(** The ring without the page [p], whose entries are gone. *)
Definition unlinked (d : gmap Z Page) (p a b : Z) (pa pb : Page) : gmap Z Page :=
  delete p (<[b := setPrev (if a =? b then setNext pa b else pb) a]> (<[a := setNext pa b]> d)).

Section Unlink.
Context {d : gmap Z Page} {l1 l2 : list Z} {p a b : Z} {pa pb : Page}.
Context (R : ring d (l1 ++ p :: l2)).
Context (Ha : last (0 :: l1) = Some a) (Hb : head (l2 ++ [0]) = Some b).
Context (Hpa : d !! a = Some pa) (Hpb : d !! b = Some pb).

Lemma neighbours_ne : a <> p /\ b <> p.
Proof.
  clear - R Ha Hb.
  pose proof (ring_NoDup R) as Hd.
  change (0 :: l1 ++ p :: l2) with ((0 :: l1) ++ p :: l2) in Hd.
  apply NoDup_app in Hd as (_ & Hx & Hd). apply NoDup_cons in Hd as [Hp _].
  assert (p <> 0) as H0.
  { enough (0 < p) by lia. apply (ring_pos R). apply elem_of_app; right. apply list_elem_of_here. }
  split; intros ->.
  - apply last_Some_elem_of in Ha. exact (Hx p Ha (list_elem_of_here _ _)).
  - destruct l2 as [|y l]; simpl in Hb; injection Hb as <-; [done|]. apply Hp, list_elem_of_here.
Qed.

Lemma unlinked_nxt x : x <> p ->
  nxt (unlinked d p a b pa pb) x = if decide (x = a) then Some b else nxt d x.
Proof.
  clear - Hpb. intros Hx. unfold unlinked. rewrite nxt_delete, !nxt_insert by done.
  destruct (decide (b = x)) as [<-|].
  - destruct (a =? b) eqn:E; zbool; simpl.
    + by rewrite decide_True.
    + rewrite decide_False by done. by rewrite (nxt_lookup _ _ _ Hpb).
  - destruct (decide (a = x)) as [<-|]; [by rewrite decide_True|by rewrite decide_False].
Qed.

Lemma unlinked_prv x : x <> p ->
  prv (unlinked d p a b pa pb) x = if decide (x = b) then Some a else prv d x.
Proof.
  clear - Hpa. intros Hx. unfold unlinked. rewrite prv_delete, !prv_insert by done.
  destruct (decide (b = x)) as [<-|]; [by rewrite decide_True|].
  rewrite (decide_False (P := x = b)) by done.
  destruct (decide (a = x)) as [<-|]; [|done]. by rewrite (prv_lookup _ _ _ Hpa).
Qed.

Lemma unlinked_entries x : x <> p -> entries (unlinked d p a b pa pb) x = entries d x.
Proof.
  clear - Hpa Hpb. intros Hx. unfold unlinked. rewrite entries_delete, !entries_insert by done.
  destruct (decide (b = x)) as [<-|].
  - rewrite (entries_lookup _ _ _ Hpb). destruct (a =? b) eqn:E; zbool; [|done].
    assert (d !! b = Some pa) as H by (by rewrite <- E). rewrite Hpb in H. by injection H as ->.
  - destruct (decide (a = x)) as [<-|]; [|done]. by rewrite (entries_lookup _ _ _ Hpa).
Qed.

Lemma unlinked_dom x : is_Some (unlinked d p a b pa pb !! x) <-> x ∈ 0 :: l1 ++ l2.
Proof.
  assert (x ∈ 0 :: l1 ++ l2 <-> x <> p /\ x ∈ 0 :: l1 ++ p :: l2) as ->.
  { pose proof (ring_NoDup R) as Hd.
    change (0 :: l1 ++ p :: l2) with ((0 :: l1) ++ p :: l2) in *.
    change (0 :: l1 ++ l2) with ((0 :: l1) ++ l2).
    apply NoDup_app in Hd as (_ & Hx & Hd). apply NoDup_cons in Hd as [Hp _].
    rewrite !elem_of_app, (elem_of_cons l2). split; [|tauto].
    intros Hin. split; [|tauto]. intros ->. destruct Hin as [Hin|Hin]; [|done].
    exact (Hx p Hin (list_elem_of_here _ _)). }
  rewrite <- (ring_dom _ _ R x). unfold unlinked.
  rewrite lookup_delete_is_Some, !lookup_insert_is_Some. split.
  - intros [Hx H]. split; [congruence|]. destruct H as [<-|[_ [<-|[_ H]]]]; [by rewrite Hpb|by rewrite Hpa|done].
  - intros [Hx H]. split; [congruence|]. destruct (decide (b = x)); [by left|right; split; [done|]].
    destruct (decide (a = x)); [by left|by right].
Qed.

(** The pairs of the smaller ring: those of the larger one, and the neighbours. *)
Lemma unlinked_adj x y :
  adj (0 :: (l1 ++ l2) ++ [0]) x y ->
  x <> p /\ y <> p /\
  ((x = a /\ y = b) \/ (x <> a /\ y <> b /\ adj (0 :: (l1 ++ p :: l2) ++ [0]) x y)).
Proof.
  pose proof (ring_NoDup R) as Hd. pose proof neighbours_ne as [Hap Hbp].
  replace (0 :: (l1 ++ l2) ++ [0]) with ((0 :: l1) ++ (l2 ++ [0])) by (simpl; by rewrite <- app_assoc).
  replace (0 :: (l1 ++ p :: l2) ++ [0]) with ((0 :: l1) ++ [p] ++ (l2 ++ [0]))
    by (simpl; by rewrite <- app_assoc).
  change (0 :: l1 ++ p :: l2) with ((0 :: l1) ++ p :: l2) in Hd.
  pose proof Hd as (Hd1 & Hx & Hd2)%NoDup_app. apply NoDup_cons in Hd2 as [Hp Hd2].
  assert (p <> 0) as H0 by (intros E; rewrite E in Hx; exact (Hx 0 (list_elem_of_here _ _) (list_elem_of_here _ _))).
  assert (NoDup (l2 ++ [0])) as Hd3.
  { apply NoDup_app. splits; [done| |repeat constructor; apply not_elem_of_nil].
    intros q Hq ->%list_elem_of_singleton.
    exact (Hx 0 (list_elem_of_here _ _) (list_elem_of_further _ _ _ Hq)). }
  rewrite adj_app. intros [H|[H|[H1 H2]]].
  - destruct (adj_elem _ _ _ H) as [Hxi Hyi]. simpl in Hyi.
    splits; [intros ->; exact (Hx p Hxi (list_elem_of_here _ _))
            |intros ->; exact (Hx p (list_elem_of_further _ _ _ Hyi) (list_elem_of_here _ _))|].
    right. splits.
    + exact (adj_not_last _ _ _ _ Hd1 H Ha).
    + intros ->. destruct l2 as [|b' l]; simpl in Hb; injection Hb as <-.
      * apply NoDup_cons in Hd1 as [Hn _]. done.
      * exact (Hx b' (list_elem_of_further _ _ _ Hyi)
                 (list_elem_of_further _ _ _ (list_elem_of_here _ _))).
    + apply adj_app. by left.
  - destruct (adj_elem _ _ _ H) as [Hxi Hyi].
    assert (x ∈ l2) as Hxl.
    { apply elem_of_app in Hxi as [|Hxi%list_elem_of_singleton]; [done|].
      assert (last (l2 ++ [0]) = Some 0) as Hl by apply last_snoc.
      by destruct (adj_not_last _ _ _ _ Hd3 H Hl). }
    splits.
    + intros ->. done.
    + intros ->. destruct l2 as [|b' l]; simpl in Hyi; [by apply not_elem_of_nil in Hyi|].
      apply elem_of_app in Hyi as [Hyi|Hyi%list_elem_of_singleton]; [|done].
      apply Hp. by apply list_elem_of_further.
    + right. splits.
      * intros ->. apply last_Some_elem_of in Ha.
        exact (Hx a Ha (list_elem_of_further _ _ _ Hxl)).
      * intros ->. destruct (l2 ++ [0]) as [|b' l] eqn:El; simpl in *; [done|].
        injection Hb as ->. by apply NoDup_cons in Hd3 as [Hn _].
      * apply adj_app. right; left. apply adj_app. by right; left.
  - rewrite Ha in H1. rewrite Hb in H2. injection H1 as <-. injection H2 as <-.
    splits; [done|done|]. by left.
Qed.

Lemma unlinked_ring : ring (unlinked d p a b pa pb) (l1 ++ l2).
Proof.
  assert (forall q, q ∈ l1 ++ l2 -> q ∈ l1 ++ p :: l2) as Hsub.
  { intros q. rewrite !elem_of_app, elem_of_cons. tauto. }
  assert (p ∉ 0 :: l1 ++ l2) as Hpn.
  { intros H. apply unlinked_dom in H. unfold unlinked in H. rewrite lookup_delete_eq in H.
    by destruct H. }
  split.
  - exact unlinked_dom.
  - pose proof (ring_sorted _ _ R) as Hs.
    change (0 :: l1 ++ p :: l2) with ((0 :: l1) ++ [p] ++ l2) in Hs.
    change (0 :: l1 ++ l2) with ((0 :: l1) ++ l2).
    apply StronglySorted_app in Hs as (H1 & H2 & H3).
    apply StronglySorted_app in H3 as (_ & _ & H3).
    apply StronglySorted_app_2; [|done|done].
    intros x y Hx Hy. apply H1; [done|]. by apply elem_of_app; right.
  - intros x y Hxy. destruct (unlinked_adj x y Hxy) as (Hx & Hy & [[-> ->]|(Hxa & Hyb & Hold)]).
    + by rewrite unlinked_nxt, unlinked_prv, !decide_True.
    + rewrite unlinked_nxt, unlinked_prv, !decide_False by done. by apply (ring_links _ _ R).
  - intros q Hq. rewrite unlinked_entries; [by apply (ring_filled _ _ R), Hsub|].
    intros ->. apply Hpn. by apply list_elem_of_further.
  - intros q. destruct (decide (q = p)) as [->|]; [|rewrite unlinked_entries by done; apply (ring_small _ _ R)].
    unfold entries, unlinked. rewrite lookup_delete_eq. simpl. unfold dirNodeMaxEntries. lia.
  - intros q Hq. apply (ring_bound _ _ R), Hsub, Hq.
Qed.

Lemma unlinked_contents :
  contents d (l1 ++ p :: l2) ≡ₚ entries d p ++ contents (unlinked d p a b pa pb) (l1 ++ l2).
Proof.
  unfold contents.
  assert (forall l, p ∉ l -> l ≫= entries (unlinked d p a b pa pb) = l ≫= entries d) as Hsame.
  { induction l as [|x l IH]; [done|]. intros Hl. apply not_elem_of_cons in Hl as [Hx Hl].
    rewrite !bind_cons, IH by done. by rewrite unlinked_entries. }
  rewrite Hsame.
  - change (0 :: l1 ++ p :: l2) with ((0 :: l1) ++ p :: l2).
    change (0 :: l1 ++ l2) with ((0 :: l1) ++ l2).
    rewrite !bind_app, bind_cons. apply Permutation_app_swap_app.
  - intros H. apply unlinked_dom in H. unfold unlinked in H. rewrite lookup_delete_eq in H.
    by destruct H.
Qed.

End Unlink.

Lemma unlinked_overwrite d p a b pa pb pg :
  a <> p -> b <> p -> unlinked (<[p := pg]> d) p a b pa pb = unlinked d p a b pa pb.
Proof.
  intros Ha Hb. unfold unlinked. apply map_eq. intros x.
  destruct (decide (p = x)) as [<-|]; [by rewrite !lookup_delete_eq|].
  rewrite !lookup_delete_ne by done. rewrite !lookup_insert. repeat case_decide; congruence.
Qed.

(** Emptying a page that is not the root unlinks it; an empty root that is then
    the only page goes with it unless it is to be kept. *)
Lemma page_emptied_spec d l1 l2 p node keepRoot :
  ring d (l1 ++ p :: l2) -> d !! p = Some node ->
  exists d', page_emptied (<[p := setIndexes node []]> d) p (setIndexes node []) keepRoot
    = Ok (true, d') /\
    lists d' (contents (delete p d) (l1 ++ l2)).
Proof.
  intros R Hn.
  destruct (ring_last_exists l1) as [a Ha].
  destruct (head (l2 ++ [0])) as [b|] eqn:Hb; [|by destruct l2].
  destruct (ring_around R l1 p l2 a b eq_refl Ha Hb) as (H1 & H2 & H3 & H4).
  rewrite (prv_lookup _ _ _ Hn) in H2. injection H2 as H2.
  rewrite (nxt_lookup _ _ _ Hn) in H3. injection H3 as H3.
  destruct (neighbours_ne R Ha Hb) as [Hap Hbp].
  assert (is_Some (d !! a)) as [pa Hpa] by (unfold nxt in H1; by destruct (d !! a)).
  assert (is_Some (d !! b)) as [pb Hpb] by (unfold prv in H4; by destruct (d !! b)).
  pose proof (unlinked_ring R Ha Hb Hpa Hpb) as R'.
  assert (contents (delete p d) (l1 ++ l2) = contents (unlinked d p a b pa pb) (l1 ++ l2)) as Hc.
  { unfold contents. apply list_bind_ext; [|done]. intros x.
    destruct (decide (x = p)) as [->|Hx].
    - unfold entries, unlinked. by rewrite !lookup_delete_eq.
    - by rewrite (unlinked_entries Hpa Hpb), entries_delete. }
  unfold page_emptied. change (prevOf (setIndexes node [])) with (prevOf node).
  change (nextOf (setIndexes node [])) with (nextOf node). rewrite H2, H3.
  rewrite (proj2 (Z.eqb_neq b p)), (proj2 (Z.eqb_neq a p)) by done.
  rewrite lookup_insert_ne, Hpa by done.
  assert (<[a := setNext pa b]> (<[p := setIndexes node []]> d) !! b
          = Some (if a =? b then setNext pa b else pb)) as ->.
  { destruct (a =? b) eqn:E; zbool; [by rewrite E, lookup_insert_eq|].
    by rewrite !lookup_insert_ne by done. }
  set (d3 := delete p _). replace d3 with (unlinked d p a b pa pb)
    by (symmetry; apply (unlinked_overwrite d p a b pa pb (setIndexes node []) Hap Hbp)).
  clear d3. cbv zeta.
  match goal with |- context [bind ?m _] => assert (m = Ok (b, unlinked d p a b pa pb)) as -> end.
  { destruct (b =? 0) eqn:E; zbool; [done|]. simpl.
    destruct (nextOf (setPrev (if a =? b then setNext pa b else pb) a) =? 0); [|done].
    assert (b ∈ l1 ++ l2) as Hin.
    { apply elem_of_app. right. destruct l2 as [|b' l]; simpl in Hb; injection Hb as Hb; [congruence|].
      rewrite Hb. apply list_elem_of_here. }
    pose proof (ring_filled _ _ R' b Hin) as Hne.
    rewrite (unlinked_entries Hpa Hpb), (entries_lookup _ _ _ Hpb) in Hne by done.
    assert (sfIndexes (if a =? b then setNext pa b else pb) = sfIndexes pb) as ->.
    { destruct (a =? b) eqn:E2; zbool; [|done]. rewrite E2, Hpb in Hpa. by injection Hpa as ->. }
    by destruct (sfIndexes pb). }
  simpl. rewrite Hc.
  destruct (negb keepRoot && (b =? 0) && (a =? 0)) eqn:E.
  - apply andb_true_iff in E as [[_ Eb]%andb_true_iff Ea]. apply Z.eqb_eq in Ea, Eb.
    clear H1 H2 H3 H4. subst a b.
    assert (l1 ++ l2 = []) as El.
    { pose proof (ring_pos R) as Hpos.
      assert (l2 = []) as ->.
      { destruct l2 as [|b l]; [done|]. injection Hb as ->.
        assert (0 < 0); [|lia]. apply Hpos, elem_of_app; right. apply list_elem_of_further, list_elem_of_here. }
      destruct l1 as [|x l1]; [done|]. rewrite last_cons_cons in Ha. apply last_Some_elem_of in Ha.
      assert (0 < 0); [|lia]. apply Hpos, elem_of_app; by left. }
    rewrite El in *. destruct (ring_root R') as [root Hr]. rewrite Hr.
    unfold contents. rewrite bind_singleton, (entries_lookup _ _ _ Hr).
    destruct (sfIndexes root) as [|k l] eqn:Hk.
    + eexists; split; [done|]. left. split; [|done]. apply map_eq. intros x. rewrite lookup_empty.
      destruct (decide (0 = x)) as [<-|]; [by rewrite lookup_delete_eq|].
      rewrite lookup_delete_ne by done. apply eq_None_not_Some. rewrite (ring_dom _ _ R').
      rewrite list_elem_of_singleton. congruence.
    + eexists; split; [done|]. right. exists []. split; [done|].
      unfold contents. by rewrite bind_singleton, (entries_lookup _ _ _ Hr), Hk.
  - eexists; split; [done|]. right. by exists (l1 ++ l2).
Qed.

(** The links of the root tell whether it is the only page. *)
Lemma root_alone d ps root :
  ring d ps -> d !! 0 = Some root ->
  (nextOf root = 0 <-> ps = []) /\ (prevOf root = 0 <-> ps = []) /\
  (forall q, nextOf root = q -> q <> 0 -> q ∈ ps).
Proof.
  intros R Hr. destruct (ring_last_exists ps) as [z Hz].
  destruct (ring_last R z Hz) as [Hp _]. rewrite (prv_lookup _ _ _ Hr) in Hp. injection Hp as Hp.
  destruct (head (ps ++ [0])) as [y|] eqn:Hy; [|by destruct ps].
  pose proof (ring_first R y Hy) as Hn. rewrite (nxt_lookup _ _ _ Hr) in Hn. injection Hn as Hn.
  rewrite Hn, Hp. pose proof (ring_pos R) as Hpos. destruct ps as [|x ps]; simpl in *.
  - injection Hy as <-. injection Hz as <-. splits; [done|done|]. by intros q <-.
  - injection Hy as <-. apply last_Some_elem_of in Hz as Hzin.
    splits.
    + split; [|done]. intros ->. pose proof (Hpos 0 (list_elem_of_here _ _)). lia.
    + split; [|done]. intros ->. destruct ps as [|x' ps]; simpl in *.
      * injection Hz as ->. pose proof (Hpos 0 (list_elem_of_here _ _)). lia.
      * apply last_Some_elem_of in Hz. pose proof (Hpos 0 (list_elem_of_further _ _ _ Hz)). lia.
    + intros q <- _. apply list_elem_of_here.
Qed.

Lemma root_emptied_spec d ps root keepRoot :
  ring d ps -> d !! 0 = Some root -> sfIndexes root = [] ->
  exists d', root_emptied d root keepRoot = Ok (true, d') /\ lists d' (contents d ps).
Proof.
  intros R Hr Hempty. destruct (root_alone d ps root R Hr) as (Hn & Hp & Hin).
  assert (lists d (contents d ps)) as Hd by (right; by exists ps).
  unfold root_emptied, root_links.
  destruct (nextOf root =? 0) eqn:En; zbool.
  - assert (ps = []) as -> by (by apply Hn). assert (prevOf root = 0) as Ep by (by apply Hp).
    rewrite Ep, En. simpl. destruct keepRoot; [by eexists|].
    eexists; split; [done|]. left. split.
    + apply map_eq. intros x. rewrite lookup_empty.
      destruct (decide (0 = x)) as [<-|]; [by rewrite lookup_delete_eq|].
      rewrite lookup_delete_ne by done. apply eq_None_not_Some. rewrite (ring_dom _ _ R).
      rewrite list_elem_of_singleton. congruence.
    + unfold contents. by rewrite bind_singleton, (entries_lookup _ _ _ Hr).
  - assert (prevOf root <> 0) as Ep by (intros E; apply En, Hn, Hp, E).
    rewrite (proj2 (Z.eqb_neq (prevOf root) 0)) by done. simpl.
    rewrite andb_true_r. destruct (nextOf root =? prevOf root) eqn:E.
    + specialize (Hin _ eq_refl En).
      assert (is_Some (d !! nextOf root)) as [last Hl].
      { apply (ring_dom _ _ R). by apply list_elem_of_further. }
      rewrite Hl. pose proof (ring_filled _ _ R _ Hin) as Hne.
      rewrite (entries_lookup _ _ _ Hl) in Hne. destruct (sfIndexes last); [done|by eexists].
    + destruct keepRoot; by eexists.
Qed.

Lemma dirRemove_ring d ps page k keepRoot :
  ring d ps -> k ∈ entries d page ->
  exists d' l, dirRemove d page k keepRoot = Ok (true, d') /\ lists d' l /\
    contents d ps ≡ₚ k :: l.
Proof.
  intros R Hk. unfold dirRemove. unfold entries in Hk.
  destruct (d !! page) as [node|] eqn:Hn; [|by apply not_elem_of_nil in Hk].
  pose proof (remove_first_spec k (sfIndexes node)) as Hr.
  destruct (remove_first k (sfIndexes node)) as [es|]; [|done].
  assert (length (sfIndexes node) = S (length es)) as Hlen by (by rewrite Hr).
  pose proof (ring_small _ _ R page) as Hsm. rewrite (entries_lookup _ _ _ Hn), Hlen in Hsm.
  assert (forall qs, (qs = ps -> ring (<[page := setIndexes node es]> d) qs) ->
            contents d ps ≡ₚ k :: contents (<[page := setIndexes node es]> d) ps) as Hc.
  { intros _ _. apply Permutation_app_inv_l with es.
    etransitivity; [symmetry; exact (contents_set d ps page node es R Hn)|].
    rewrite Hr at 1. simpl. apply Permutation_middle. }
  destruct es as [|e es].
  - destruct (page =? 0) eqn:E; zbool.
    + subst page.
      assert (ring (<[0 := setIndexes node []]> d) ps) as R'.
      { apply ring_set_indexes; auto. simpl; lia. }
      destruct (root_emptied_spec _ ps (setIndexes node []) keepRoot R') as (d' & Hd & Hl).
      { apply lookup_insert_eq. }
      { done. }
      exists d', (contents (<[0 := setIndexes node []]> d) ps). splits; auto. by apply (Hc ps).
    + assert (page ∈ ps) as Hin.
      { assert (page ∈ 0 :: ps) as [->|]%elem_of_cons by (apply (ring_dom _ _ R); by rewrite Hn); done. }
      apply list_elem_of_split in Hin as (l1 & l2 & ->).
      destruct (page_emptied_spec d l1 l2 page node keepRoot R Hn) as (d' & Hd & Hl).
      exists d', (contents (delete page d) (l1 ++ l2)). splits; auto.
      assert (NoDup (0 :: l1 ++ page :: l2)) as Hnd by exact (ring_NoDup R).
      assert (page ∉ 0 :: l1 ++ l2) as Hnot.
      { change (0 :: l1 ++ page :: l2) with ((0 :: l1) ++ page :: l2) in Hnd.
        change (0 :: l1 ++ l2) with ((0 :: l1) ++ l2).
        apply NoDup_app in Hnd as (_ & Hx & Hnd). apply NoDup_cons in Hnd as [Hp _].
        rewrite elem_of_app. intros [Hi|Hi]; [|done]. exact (Hx _ Hi (list_elem_of_here _ _)). }
      assert (forall l, page ∉ l -> l ≫= entries (delete page d) = l ≫= entries d) as Hsame.
      { induction l as [|x l IH]; [done|]. intros Hx. apply not_elem_of_cons in Hx as [Hx Hl'].
        rewrite !bind_cons, IH by done. by rewrite entries_delete. }
      unfold contents. rewrite Hsame by done.
      change (0 :: l1 ++ page :: l2) with ((0 :: l1) ++ page :: l2).
      change (0 :: l1 ++ l2) with ((0 :: l1) ++ l2).
      rewrite !bind_app, (bind_cons (entries d) page), (entries_lookup _ _ _ Hn), Hr.
      simpl. symmetry. apply Permutation_middle.
  - assert (ring (<[page := setIndexes node (e :: es)]> d) ps) as R'
      by (apply ring_set_indexes; auto; simpl in *; lia).
    exists (<[page := setIndexes node (e :: es)]> d),
      (contents (<[page := setIndexes node (e :: es)]> d) ps).
    splits; [done| |by apply (Hc ps)]. right. by exists ps.
Qed.

(** ** Deleting a directory *)

(** Each round takes a page away, so the rounds are at most one more than the
    pages. *)
Lemma delete_pages_ends fuel pi d :
  (size d < fuel)%nat -> exists r, delete_pages fuel pi d = Some r.
Proof.
  revert pi d. induction fuel as [|fuel IH]; intros pi d Hsz; [lia|]. simpl.
  destruct (d !! pi) as [pg|] eqn:Hp; [|by eexists].
  destruct (sfIndexNext pg) as [n|]; [|by eexists].
  destruct (IH n (delete pi d)) as [[[ok l] d'] ->]; [|by eexists].
  enough (size (delete pi d) < size d)%nat by lia.
  apply map_subset_size, delete_subset. by eexists.
Qed.

(** The page [z] has no field [sfIndexNext]. *)
Definition open_ended (d : gmap Z Page) (z : Z) : bool :=
  match d !! z with Some pg => bool_decide (sfIndexNext pg = None) | None => false end.

(** On a well-formed directory every page is visited once, in order, and deleted;
    success is reported when the last page has no field [sfIndexNext]. *)
Lemma delete_pages_ring d0 ps z :
  ring d0 ps -> last (0 :: ps) = Some z ->
  forall l x l1 fuel d, 0 :: ps = l1 ++ x :: l ->
  (forall p, d !! p = if decide (p ∈ x :: l) then d0 !! p else None) ->
  (S (length l) < fuel)%nat ->
  delete_pages fuel x d = Some (open_ended d0 z, (x :: l) ≫= entries d0, ∅).
Proof.
  intros R Hz. induction l as [|y l IH]; intros x l1 fuel d Hsplit Hd Hf.
  - destruct fuel as [|[|fuel]]; [simpl in Hf; lia..|]. cbn [delete_pages].
    rewrite Hsplit, last_snoc in Hz. injection Hz as <-.
    assert (is_Some (d0 !! x)) as [pg Hx].
    { apply (ring_dom _ _ R). rewrite Hsplit. apply elem_of_app; right. apply list_elem_of_here. }
    rewrite Hd, decide_True by apply list_elem_of_here. rewrite Hx.
    assert (delete x d = ∅) as ->.
    { apply map_eq. intros p. rewrite lookup_empty. destruct (decide (x = p)) as [<-|].
      - apply lookup_delete_eq.
      - rewrite lookup_delete_ne, Hd, decide_False by (rewrite ?list_elem_of_singleton; congruence). done. }
    rewrite bind_singleton, (entries_lookup _ _ _ Hx). unfold open_ended. rewrite Hx.
    destruct (sfIndexNext pg) as [n|]; simpl.
    + rewrite lookup_empty, app_nil_r. done.
    + done.
  - destruct fuel as [|fuel]; [lia|]. cbn [delete_pages].
    assert (is_Some (d0 !! x)) as [pg Hx].
    { apply (ring_dom _ _ R). rewrite Hsplit. apply elem_of_app; right. apply list_elem_of_here. }
    rewrite Hd, decide_True by apply list_elem_of_here. rewrite Hx.
    assert (nextOf pg = y) as Hy.
    { destruct (ring_links _ _ R x y) as [Hn _].
      - change (0 :: ps ++ [0]) with ((0 :: ps) ++ [0]). rewrite Hsplit. apply adj_app. left.
        by exists l1, l.
      - rewrite (nxt_lookup _ _ _ Hx) in Hn. congruence. }
    assert (y ∈ ps) as Hyin.
    { destruct l1 as [|c l1]; simpl in Hsplit; injection Hsplit as _ Hps; rewrite Hps;
        [apply list_elem_of_here|]. apply elem_of_app; right. apply list_elem_of_further, list_elem_of_here. }
    pose proof (ring_pos R y Hyin) as Hpos. unfold nextOf in Hy.
    destruct (sfIndexNext pg) as [n|]; simpl in Hy; [|lia]. subst n.
    rewrite (IH y (l1 ++ [x]) fuel (delete x d)).
    + by rewrite (bind_cons _ x), (entries_lookup _ _ _ Hx).
    + by rewrite <- app_assoc.
    + pose proof (ring_NoDup R) as Hnd. rewrite Hsplit in Hnd.
      apply NoDup_app in Hnd as (_ & _ & Hnd). apply NoDup_cons in Hnd as [Hnx _].
      intros p. destruct (decide (x = p)) as [<-|Hxp].
      * by rewrite lookup_delete_eq, decide_False.
      * rewrite lookup_delete_ne, Hd by done.
        destruct (decide (p ∈ y :: l)) as [Hin|Hin].
        -- by rewrite decide_True by (by apply list_elem_of_further).
        -- rewrite decide_False; [done|]. intros [->|]%elem_of_cons; done.
    + simpl in *. lia.
Qed.

(** ** Directories as lists of keys *)

Local Open Scope Z_scope.

(** Pages may be relinked, and empty ones removed. *)
Definition same_entries (d d' : gmap Z Page) : Prop := forall p, entries d' p = entries d p.

Section Pages.
Implicit Types (d : gmap Z Page).

Lemma same_entries_relink d d0 p pg pg' :
  d !! p = Some pg -> sfIndexes pg' = sfIndexes pg -> same_entries d0 d ->
  same_entries d0 (<[p := pg']> d).
Proof.
  intros Hp Hs Hd q. rewrite <- Hd, entries_insert. case_decide; [|done]. subst q.
  by rewrite (entries_lookup _ _ _ Hp).
Qed.

Lemma same_entries_delete d d0 p :
  entries d p = [] -> same_entries d0 d -> same_entries d0 (delete p d).
Proof.
  intros Hp Hd q. rewrite <- Hd. destruct (decide (p = q)) as [<-|]; [|by apply entries_delete].
  rewrite Hp. unfold entries. by rewrite lookup_delete_eq.
Qed.

Lemma same_entries_refl d : same_entries d d.
Proof. by intros p. Qed.

Hint Resolve same_entries_refl : core.

Lemma root_emptied_entries d node keepRoot b d' :
  d !! 0 = Some node -> sfIndexes node = [] ->
  root_emptied d node keepRoot = Ok (b, d') -> same_entries d d'.
Proof.
  intros H0 Hn. unfold root_emptied. intros Hr. apply bind_ok in Hr as ([] & _ & Hr).
  assert (entries d 0 = []) as He by (by rewrite (entries_lookup _ _ _ H0)).
  destruct ((nextOf node =? prevOf node) && negb (nextOf node =? 0)) eqn:E.
  - destruct (d !! nextOf node) as [last|] eqn:Hl; [|done]. destruct (sfIndexes last) eqn:Hs.
    + assert (same_entries d (delete (nextOf node) (<[0 := setPrev (setNext node 0) 0]> d))) as Hd.
      { apply same_entries_delete; [|by apply (same_entries_relink _ _ _ node)].
        rewrite entries_insert. case_decide; [done|]. by rewrite (entries_lookup _ _ _ Hl). }
      destruct keepRoot; injection Hr as <- <-; [done|].
      apply same_entries_delete; [by rewrite Hd|done].
    + by injection Hr as <- <-.
  - destruct keepRoot; [by injection Hr as <- <-|].
    destruct ((nextOf node =? 0) && (prevOf node =? 0)); injection Hr as <- <-; [|done].
    by apply same_entries_delete.
Qed.

Lemma page_emptied_entries d page node keepRoot b d' :
  d !! page = Some node -> sfIndexes node = [] ->
  page_emptied d page node keepRoot = Ok (b, d') -> same_entries d d'.
Proof.
  intros Hp Hn. unfold page_emptied.
  destruct (nextOf node =? page); [done|]. destruct (prevOf node =? page); [done|].
  destruct (d !! prevOf node) as [prev|] eqn:Hprev; [|done].
  set (d1 := <[prevOf node := setNext prev (nextOf node)]> d).
  assert (same_entries d d1) as H1 by (by apply (same_entries_relink _ _ _ prev)).
  destruct (d1 !! nextOf node) as [next|] eqn:Hnext; [|done]. cbv zeta.
  set (next' := setPrev next (prevOf node)). set (d2 := <[nextOf node := next']> d1).
  assert (same_entries d d2) as H2 by (by apply (same_entries_relink _ _ _ next)).
  set (d3 := delete page d2).
  assert (same_entries d d3) as H3.
  { apply same_entries_delete; [|done]. by rewrite H2, (entries_lookup _ _ _ Hp). }
  intros Hr. apply bind_ok in Hr as ([nextPage d4] & H4 & Hr).
  assert (same_entries d d4) as H5.
  { destruct (negb (nextOf node =? 0) && (nextOf next' =? 0)); [|by injection H4 as <- <-].
    destruct (sfIndexes next') eqn:Hs; [|by injection H4 as <- <-].
    assert (same_entries d (delete (nextOf node) d3)) as H6.
    { apply same_entries_delete; [|done]. rewrite H3, <- H2.
      unfold d2. rewrite entries_insert. by rewrite decide_True. }
    destruct (delete (nextOf node) d3 !! prevOf node) as [prev'|] eqn:E1; [|done].
    destruct (<[prevOf node := setNext prev' 0]> (delete (nextOf node) d3) !! 0) as [root|] eqn:E2; [|done].
    injection H4 as <- <-. apply (same_entries_relink _ _ _ root); [done..|].
    by apply (same_entries_relink _ _ _ prev'). }
  destruct (negb keepRoot && (nextPage =? 0) && (prevOf node =? 0)); [|by injection Hr as <- <-].
  destruct (d4 !! prevOf node) as [prev'|] eqn:E; [|done].
  destruct (sfIndexes prev') eqn:Es; injection Hr as <- <-; [|done].
  apply same_entries_delete; [|done]. by rewrite (entries_lookup _ _ _ E).
Qed.

Lemma dirRemove_keeps d page k keepRoot b d' p x :
  dirRemove d page k keepRoot = Ok (b, d') -> x <> k -> x ∈ entries d p -> x ∈ entries d' p.
Proof.
  intros Hr Hx Hp. unfold dirRemove in Hr.
  destruct (d !! page) as [node|] eqn:Hn; [|by injection Hr as <- <-].
  pose proof (remove_first_spec k (sfIndexes node)) as Hs.
  destruct (remove_first k (sfIndexes node)) as [es|]; [|by injection Hr as <- <-].
  assert (x ∈ entries (<[page := setIndexes node es]> d) p) as Hp'.
  { rewrite entries_insert. case_decide; [|done]. subst p.
    rewrite (entries_lookup _ _ _ Hn), Hs, elem_of_cons in Hp. by destruct Hp. }
  destruct es as [|e es]; [|by injection Hr as <- <-].
  destruct (page =? 0) eqn:E; zbool.
  - subst page. apply root_emptied_entries in Hr; [by rewrite Hr|apply lookup_insert_eq|done].
  - apply page_emptied_entries in Hr; [by rewrite Hr|apply lookup_insert_eq|done].
Qed.

Lemma insert_at_lower_bound_keeps k l l' x :
  insert_at_lower_bound k l = Some l' -> x ∈ l -> x ∈ l'.
Proof.
  revert l'. induction l as [|y l IH]; intros l' Hl Hx; [by apply not_elem_of_nil in Hx|].
  simpl in Hl. destruct (y <? k).
  - destruct (insert_at_lower_bound k l) as [l1|]; [|done]. injection Hl as <-.
    apply elem_of_cons in Hx as [->|Hx]; [apply list_elem_of_here|].
    apply list_elem_of_further. by apply IH.
  - destruct (k =? y); [done|]. injection Hl as <-. by apply list_elem_of_further.
Qed.

Lemma insertKey_keeps d page node order k r d' p x :
  d !! page = Some node -> insertKey d page node order k = Ok (r, d') ->
  x ∈ entries d p -> x ∈ entries d' p.
Proof.
  intros Hn Hk Hx. unfold insertKey in Hk.
  set (o := if order then _ else _) in Hk. destruct o as [l|] eqn:El; [|done].
  injection Hk as <- <-. rewrite entries_insert. case_decide; [|done]. subst p. simpl.
  rewrite (entries_lookup _ _ _ Hn) in Hx. unfold o in El. destruct order.
  - case_bool_decide; [done|]. injection El as <-. apply elem_of_app. by left.
  - apply (insert_at_lower_bound_keeps _ _ _ x El). by rewrite merge_sort_Permutation.
Qed.

Lemma insertPage_keeps d page nextPage next k r d' p x :
  insertPage d page nextPage next k = Ok (r, d') -> x ∈ entries d p -> x ∈ entries d' p.
Proof.
  unfold insertPage. destruct (dirNodeMaxPages <=? page + 1); [by intros [= <- <-]|].
  destruct (d !! page) as [node|] eqn:Hn; [|done].
  set (d1 := <[page := setNext node (page + 1)]> d).
  assert (same_entries d d1) as H1 by (by apply (same_entries_relink _ _ _ node)).
  destruct (d1 !! next) as [nx|] eqn:Hx; [|done]. cbv zeta.
  set (d2 := <[next := setPrev nx (page + 1)]> d1).
  assert (same_entries d d2) as H2 by (by apply (same_entries_relink _ _ _ nx)).
  destruct (d2 !! (page + 1)) eqn:E; [done|]. intros [= <- <-]. rewrite <- H2, entries_insert.
  case_decide; [|done]. subst p. unfold entries. rewrite E. by intros ?%not_elem_of_nil.
Qed.

Lemma dirAdd_keeps d order k r d' p x :
  dirAdd d order k = Ok (r, d') -> x ∈ entries d p -> x ∈ entries d' p.
Proof.
  unfold dirAdd. destruct (d !! 0) as [root|] eqn:H0.
  2:{ simpl. intros [= <- <-] Hx. rewrite entries_insert. case_decide; [|done]. subst p.
      unfold entries in Hx. rewrite H0 in Hx. by apply not_elem_of_nil in Hx. }
  intros Hr Hx. apply bind_ok in Hr as ([page node] & Hprev & Hr).
  assert (d !! page = Some node) as Hpage.
  { unfold findPreviousPage in Hprev. destruct (prevOf root =? 0) eqn:E; zbool.
    - injection Hprev as <- <-. by rewrite E.
    - destruct (d !! prevOf root) eqn:E'; [|done]. by injection Hprev as <- <-. }
  destruct (length (sfIndexes node) <? dirNodeMaxEntries)%nat.
  - apply bind_ok in Hr as ([page' d1] & Hk & [= <- <-]).
    by apply (insertKey_keeps _ _ _ _ _ _ _ _ _ Hpage Hk).
  - by apply (insertPage_keeps _ _ _ _ _ _ _ _ _ Hr).
Qed.

(** ** The keys listed *)

Lemma lists_add d l order k :
  lists d l -> k ∉ l -> has_room d ->
  exists page d', dirAdd d order k = Ok (Some page, d') /\ lists d' (k :: l) /\ k ∈ entries d' page.
Proof.
  intros Hl Hk Hroom. destruct Hl as [[-> ->]|(ps & R & Hp)].
  - exists 0, {[0 := mkPage [k] None None]}. splits; [done| |apply list_elem_of_here].
    right. exists []. split; [apply ring_new_root|done].
  - rewrite Hp in Hk. destruct (dirAdd_ring d ps order k R Hk Hroom)
      as (page & d' & ps' & Ha & R' & Hc & Hin).
    exists page, d'. splits; auto. right. exists ps'. split; [done|]. by rewrite Hc, Hp.
Qed.

Lemma lists_full d l order k : lists d l -> ~ has_room d -> dirAdd d order k = Ok (None, d).
Proof.
  intros [[-> ->]|(ps & R & _)] Hroom; [by destruct Hroom|]. by apply (dirAdd_full d ps).
Qed.

Lemma lists_remove d l page k keepRoot :
  lists d l -> k ∈ entries d page ->
  exists d' l', dirRemove d page k keepRoot = Ok (true, d') /\ lists d' l' /\ l ≡ₚ k :: l'.
Proof.
  intros Hl Hk. destruct Hl as [[-> ->]|(ps & R & Hp)]; [by apply not_elem_of_nil in Hk|].
  destruct (dirRemove_ring d ps page k keepRoot R Hk) as (d' & l' & Hr & Hl' & Hc).
  exists d', l'. splits; auto. by rewrite Hp.
Qed.

Lemma has_room_dec d : has_room d \/ ~ has_room d.
Proof.
  unfold has_room. destruct (d !! 0) as [root|]; [|by left].
  destruct (decide ((length (entries d (prevOf root)) < dirNodeMaxEntries)%nat \/
                    prevOf root + 1 < dirNodeMaxPages)); auto.
Qed.

Lemma lists_added d l order k page d' :
  lists d l -> k ∉ l -> dirAdd d order k = Ok (Some page, d') ->
  lists d' (k :: l) /\ k ∈ entries d' page.
Proof.
  intros Hl Hk Ha. destruct (has_room_dec d) as [Hroom|Hroom].
  - destruct (lists_add d l order k Hl Hk Hroom) as (page' & d1 & Ha' & H1 & H2).
    rewrite Ha in Ha'. by injection Ha' as -> ->.
  - rewrite (lists_full d l order k Hl Hroom) in Ha. done.
Qed.

End Pages.
