(* ===== verification/DirectoriesProps.v ===== *)
(** * Properties of directories

    The operations keep the ring of pages and list exactly the keys they should;
    deleting a directory ends. *)

From S2P Require Import Prelude.
From S2P Require Import Directories.
From S2P Require Import DirectoriesFacts.
From stdpp Require Import sorting functions gmap list.

Local Open Scope Z_scope.

(** C34. A directory that lists the keys [l] on well-linked pages stays one under
    its operations, and none of them raises a [LogicError]: a new key is stored on
    the page [dirAdd] returns, unless the page counter is exhausted, and then
    nothing changes; a key present on the given page is taken out by [dirRemove],
    which also removes the pages it leaves empty; a key that is not there is
    reported and nothing changes. *)
Theorem directory_operations (d : gmap Z Page) (l : list Z) :
  lists d l ->
  (forall order k, k ∉ l -> has_room d ->
     exists page d', dirAdd d order k = Ok (Some page, d') /\ lists d' (k :: l) /\
       k ∈ entries d' page) /\
  (forall order k, ~ has_room d -> dirAdd d order k = Ok (None, d)) /\
  (forall page k keepRoot, k ∈ entries d page ->
     exists d' l', dirRemove d page k keepRoot = Ok (true, d') /\ lists d' l' /\
       l ≡ₚ k :: l') /\
  (forall page k keepRoot, k ∉ entries d page ->
     dirRemove d page k keepRoot = Ok (false, d)).
Proof.
  intros Hl. splits.
  - intros order k Hk Hroom. by apply lists_add.
  - intros order k Hroom. by apply (lists_full d l).
  - intros page k keepRoot Hk. by apply lists_remove.
  - intros page k keepRoot Hk. unfold dirRemove. unfold entries in Hk.
    destruct (d !! page) as [node|]; [|done].
    pose proof (remove_first_spec k (sfIndexes node)) as Hr.
    destruct (remove_first k (sfIndexes node)) as [es|]; [|done].
    destruct Hk. rewrite Hr. apply list_elem_of_here.
Qed.

(** Two pages, the first one full. *)
Definition ex_dir : gmap Z Page :=
  {[0 := mkPage (seqZ 100 32) (Some 1) (Some 1); 1 := mkPage [7; 9] None None]}.

Lemma ex_dir_ring : ring ex_dir [1].
Proof.
  split.
  - intros p. unfold ex_dir. rewrite lookup_insert_is_Some, lookup_singleton_is_Some.
    rewrite elem_of_cons, list_elem_of_singleton. lia.
  - repeat constructor.
  - intros x y H. change (0 :: [1] ++ [0]) with [0; 1; 0] in H.
    rewrite !adj_cons in H. simpl in H.
    destruct H as [[-> [= <-]]|[[-> [= <-]]|[[_ [=]]|H]]]; [done|done|by apply adj_nil in H].
  - intros p ->%list_elem_of_singleton. done.
  - intros p. unfold entries, ex_dir. rewrite lookup_insert, lookup_singleton.
    repeat case_decide; vm_compute; lia.
  - intros p ->%list_elem_of_singleton. done.
Qed.

Lemma directory_operations_witness :
  exists d', dirRemove ex_dir 1 9 false = Ok (true, d') /\ lists d' (7 :: seqZ 100 32).
Proof.
  assert (lists ex_dir (7 :: 9 :: seqZ 100 32)) as Hl.
  { right. exists [1]. split; [exact ex_dir_ring|].
    change (contents ex_dir [1]) with (seqZ 100 32 ++ [7; 9]).
    by rewrite (Permutation_app_comm (seqZ 100 32)). }
  destruct (directory_operations ex_dir _ Hl) as (_ & _ & Hrem & _).
  destruct (Hrem 1 9 false) as (d' & l' & Hr & Hl' & Hp).
  { apply list_elem_of_further, list_elem_of_here. }
  exists d'. split; [done|].
  assert (l' ≡ₚ 7 :: seqZ 100 32) as E.
  { apply (Permutation_cons_inv (a := 9)). rewrite <- Hp. apply Permutation_swap. }
  destruct Hl' as [[-> ->]|(ps & R & Hc)]; [by apply Permutation_nil_cons in E|].
  right. exists ps. split; [done|]. by rewrite <- E.
Defined.

(** Deleting a directory ends whatever its links are, because each round
    takes a page away; a well-linked one is deleted whole, with the callback called
    on its keys page by page. *)
Theorem directory_delete_ends (d : gmap Z Page) :
  (exists r, dirDelete d = Some r) /\
  (forall ps, ring d ps -> exists ok, dirDelete d = Some (ok, contents d ps, ∅)).
Proof.
  split.
  - apply delete_pages_ends. lia.
  - intros ps R. destruct (ring_last_exists ps) as [z Hz]. exists (open_ended d z).
    apply (delete_pages_ring d ps z R Hz ps 0 []); [done| |].
    + intros p. destruct (decide (p ∈ 0 :: ps)) as [|Hn]; [done|].
      apply eq_None_not_Some. by rewrite (ring_dom _ _ R).
    + assert (size d = length (0 :: ps)) as Hs.
      { rewrite <- (size_dom (D := gset Z)). rewrite <- (size_list_to_set (C := gset Z) (0 :: ps)) by exact (ring_NoDup R).
        f_equal. apply set_eq. intros p. rewrite elem_of_dom, elem_of_list_to_set.
        apply (ring_dom _ _ R). }
      rewrite Hs. simpl. lia.
Qed.

Lemma directory_delete_ends_witness :
  exists ok, dirDelete ex_dir = Some (ok, seqZ 100 32 ++ [7; 9], ∅).
Proof. exact (proj2 (directory_delete_ends ex_dir) [1] ex_dir_ring). Defined.

(** When the last page was unlinked before, the page that is now the last says so
    with an explicit 0, and deleting the directory reports a failure although
    everything was deleted. *)
Example delete_after_unlink_fails :
  match dirRemove {[0 := mkPage [5] (Some 1) (Some 1); 1 := mkPage [7] None None]} 1 7 false with
  | Ok (true, d) => dirDelete d = Some (false, [5], ∅)
  | _ => False
  end.
Proof. vm_compute. done. Qed.
