(* ===== verification/LedgerState.v ===== *)
(** * Ledger entries and the state of a transaction

    The entries that the transfer and lending code reads and writes
    ([include/xrpl/protocol/detail/ledger_entries.macro]), as records with the
    fields that code uses, and the state of the view a transaction works on: one
    finite map per entry type.  Theorem [ViewsProps.transaction_refines_map] is the
    licence for finite maps: a view answers as the map of its entries. *)

From S2P Require Import Prelude.
From S2P Require Import XrplNumber.
From S2P Require Import Amounts.
From S2P Require Import Lending.
From S2P Require Import Ter.
From S2P Require Import Directories.
From stdpp Require Import gmap list.

Local Open Scope Z_scope.

(** ** Flags ([LedgerFormats.h]) *)

Definition lsfRequireDestTag : Z := 0x00020000.
Definition lsfRequireAuth : Z := 0x00040000.
Definition lsfDisableMaster : Z := 0x00100000.
Definition lsfNoFreeze : Z := 0x00200000.
Definition lsfGlobalFreeze : Z := 0x00400000.
Definition lsfDefaultRipple : Z := 0x00800000.
Definition lsfDepositAuth : Z := 0x01000000.
Definition lsfAllowTrustLineClawback : Z := 0x80000000.

Definition lsfLowReserve : Z := 0x00010000.
Definition lsfHighReserve : Z := 0x00020000.
Definition lsfLowAuth : Z := 0x00040000.
Definition lsfHighAuth : Z := 0x00080000.
Definition lsfLowNoRipple : Z := 0x00100000.
Definition lsfHighNoRipple : Z := 0x00200000.
Definition lsfLowFreeze : Z := 0x00400000.
Definition lsfHighFreeze : Z := 0x00800000.
Definition lsfLowDeepFreeze : Z := 0x02000000.
Definition lsfHighDeepFreeze : Z := 0x04000000.

Definition lsfMPTLocked : Z := 0x00000001.
Definition lsfMPTCanLock : Z := 0x00000002.
Definition lsfMPTRequireAuth : Z := 0x00000004.
Definition lsfMPTCanEscrow : Z := 0x00000008.
Definition lsfMPTCanTrade : Z := 0x00000010.
Definition lsfMPTCanTransfer : Z := 0x00000020.
Definition lsfMPTCanClawback : Z := 0x00000040.
Definition lsfMPTAuthorized : Z := 0x00000002.

Definition lsfAccepted : Z := 0x00010000.

Definition lsfVaultPrivate : Z := 0x00010000.

(** [STObject::isFlag]: every bit of [f] is set. *)
Definition isFlag (flags f : Z) : bool := Z.land flags f =? f.

(** [flags & f] as a truth value. *)
Definition hasFlag (flags f : Z) : bool := negb (Z.land flags f =? 0).

Definition setFlag (flags f : Z) : Z := Z.lor flags f.

(** [flags & ~f] on 32 bits. *)
Definition clearFlag (flags f : Z) : Z := Z.ldiff flags f.

(** ** Entries *)

Record AccountRoot : Set := mkAccount {
  acct_Balance : STAmount;
  acct_OwnerCount : Z;
  acct_Flags : Z;
  acct_TransferRate : option Z;
  acct_AMMID : option Z;
  acct_VaultID : option Z;
  acct_LoanBrokerID : option Z;
  acct_Sequence : Z }.

Record RippleState : Set := mkLine {
  line_Balance : STAmount;
  line_LowLimit : STAmount;
  line_HighLimit : STAmount;
  line_Flags : Z;
  line_LowNode : Z;
  line_HighNode : Z;
  line_LowQualityIn : Z;
  line_LowQualityOut : Z;
  line_HighQualityIn : Z;
  line_HighQualityOut : Z }.

Record MPTokenIssuance : Set := mkIssuance {
  iss_Issuer : Z;
  iss_Flags : Z;
  iss_OutstandingAmount : Z;
  iss_MaximumAmount : option Z;
  iss_TransferFee : option Z;
  iss_DomainID : option Z;
  iss_OwnerNode : Z;
  iss_Sequence : Z;
  iss_AssetScale : Z;
  iss_Metadata : option (list Z);
  iss_MutableFlags : Z }.

Record MPToken : Set := mkToken {
  tok_Flags : Z;
  tok_MPTAmount : Z;
  tok_OwnerNode : Z }.

Record Credential : Set := mkCredential {
  cred_Flags : Z;
  cred_Expiration : option Z;
  cred_IssuerNode : Z;
  cred_SubjectNode : Z }.

Record Vault : Set := mkVault {
  vault_Owner : Z;
  vault_Account : Z;
  vault_Asset : Asset;
  vault_AssetsTotal : Number;
  vault_AssetsAvailable : Number;
  vault_LossUnrealized : Number;
  vault_ShareMPTID : Z;
  vault_Flags : Z;
  vault_AssetsMaximum : Number;
  vault_Scale : Z;
  vault_WithdrawalPolicy : Z;
  vault_Sequence : Z;
  vault_OwnerNode : Z;
  vault_Data : option (list Z) }.

Record LoanBroker : Set := mkBroker {
  broker_Owner : Z;
  broker_Account : Z;
  broker_VaultID : Z;
  broker_ManagementFeeRate : Z;
  broker_OwnerCount : Z;
  broker_DebtTotal : Number;
  broker_DebtMaximum : Number;
  broker_CoverAvailable : Number;
  broker_CoverRateMinimum : Z;
  broker_CoverRateLiquidation : Z;
  broker_LoanSequence : Z;
  broker_Sequence : Z;
  broker_OwnerNode : Z;
  broker_VaultNode : Z;
  broker_Data : list Z }.

(** The fields the payment functions use are the record [Lending.Loan]. *)
Record LoanEntry : Set := mkLoanEntry {
  loan_fields : Loan;
  loan_Borrower : Z;
  loan_LoanBrokerID : Z;
  loan_GracePeriod : Z;
  loan_Default : bool;      (* lsfLoanDefault *)
  loan_Impaired : bool;     (* lsfLoanImpaired *)
  loan_OriginationFee : Number;
  loan_LoanSequence : Z;
  loan_OwnerNode : Z;
  loan_LoanBrokerNode : Z }.

(** ** The view of a transaction *)

(** The amendments the code asks for. *)
Record Rules : Set := mkRules {
  featureSingleAssetVault : bool;
  featureLendingProtocol : bool;
  featureDeletableAccounts : bool;
  fixAMMv1_1 : bool;
  fixFrozenLPTokenTransfer : bool;
  featureMPTokensV1 : bool;
  featurePermissionedDomains : bool;
  featureBatch : bool;
  featureTicketBatch : bool;
  featurePermissionDelegation : bool;
  featureExpandedSignerList : bool;
  fixMasterKeyAsRegularKey : bool;
  featureDeepFreeze : bool;
  featureRequireFullyCanonicalSig : bool }.

Record Fees : Set := mkFees { fee_base : Z; fee_reserve : Z; fee_increment : Z }.

Definition accountReserve (f : Fees) (ownerCount : Z) : Z :=
  fee_reserve f + ownerCount * fee_increment f.

(** Rules, fees, times, and the entries of the other parts of the ledger.  Of these a
    transaction writes only the credentials, when it deletes those that have expired. *)
Record Env := mkEnv {
  rules : Rules;
  fees : Fees;
  is_open : bool;
  parentCloseTime : Z;
  closeTime : Z;
  parentHash : Z;
  ledgerSeq : Z;
  amms : gmap Z (Issue * Issue);              (* AMMID -> sfAsset, sfAsset2 *)
  domains : gmap Z (list (Z * Z));            (* DomainID -> accepted issuer, type *)
  credentials : gmap (Z * Z * Z) Credential;  (* subject, issuer, type *)
  preauths : gset (Z * Z) }.                  (* owner, authorized *)

(** Accounts by identifier, trust lines by low account, high account and currency,
    tokens by issuance and holder, owner directories by owner. *)
Record View := mkLedger {
  env : Env;
  accounts : gmap Z AccountRoot;
  lines : gmap (Z * Z * Z) RippleState;
  issuances : gmap Z MPTokenIssuance;
  tokens : gmap (Z * Z) MPToken;
  ownerDirs : gmap Z (gmap Z Page);
  vaults : gmap Z Vault;
  brokers : gmap Z LoanBroker;
  loans : gmap Z LoanEntry;
  peeked : gset Z }.                          (* issuances the view holds a copy of *)

Section Setters.
Implicit Types (v : View).

Definition set_accounts v a : View :=
  mkLedger (env v) a (lines v) (issuances v) (tokens v) (ownerDirs v) (vaults v) (brokers v)
    (loans v) (peeked v).
Definition set_lines v l : View :=
  mkLedger (env v) (accounts v) l (issuances v) (tokens v) (ownerDirs v) (vaults v) (brokers v)
    (loans v) (peeked v).
Definition set_issuances v i : View :=
  mkLedger (env v) (accounts v) (lines v) i (tokens v) (ownerDirs v) (vaults v) (brokers v)
    (loans v) (peeked v).
Definition set_tokens v t : View :=
  mkLedger (env v) (accounts v) (lines v) (issuances v) t (ownerDirs v) (vaults v) (brokers v)
    (loans v) (peeked v).
Definition set_ownerDirs v d : View :=
  mkLedger (env v) (accounts v) (lines v) (issuances v) (tokens v) d (vaults v) (brokers v)
    (loans v) (peeked v).
Definition set_vaults v x : View :=
  mkLedger (env v) (accounts v) (lines v) (issuances v) (tokens v) (ownerDirs v) x (brokers v)
    (loans v) (peeked v).
Definition set_brokers v x : View :=
  mkLedger (env v) (accounts v) (lines v) (issuances v) (tokens v) (ownerDirs v) (vaults v) x
    (loans v) (peeked v).
Definition set_loans v x : View :=
  mkLedger (env v) (accounts v) (lines v) (issuances v) (tokens v) (ownerDirs v) (vaults v)
    (brokers v) x (peeked v).
Definition set_peeked v x : View :=
  mkLedger (env v) (accounts v) (lines v) (issuances v) (tokens v) (ownerDirs v) (vaults v)
    (brokers v) (loans v) x.

Definition update_account v (id : Z) (a : AccountRoot) : View :=
  set_accounts v (<[id := a]> (accounts v)).
Definition update_line v (k : Z * Z * Z) (l : RippleState) : View :=
  set_lines v (<[k := l]> (lines v)).
Definition update_issuance v (id : Z) (i : MPTokenIssuance) : View :=
  set_issuances v (<[id := i]> (issuances v)).
Definition update_token v (k : Z * Z) (t : MPToken) : View :=
  set_tokens v (<[k := t]> (tokens v)).
Definition update_vault v (id : Z) (x : Vault) : View :=
  set_vaults v (<[id := x]> (vaults v)).
Definition update_broker v (id : Z) (x : LoanBroker) : View :=
  set_brokers v (<[id := x]> (brokers v)).
Definition update_loan v (id : Z) (x : LoanEntry) : View :=
  set_loans v (<[id := x]> (loans v)).

End Setters.

Definition set_acct_Balance (a : AccountRoot) (b : STAmount) : AccountRoot :=
  mkAccount b (acct_OwnerCount a) (acct_Flags a) (acct_TransferRate a) (acct_AMMID a)
    (acct_VaultID a) (acct_LoanBrokerID a) (acct_Sequence a).
Definition set_acct_OwnerCount (a : AccountRoot) (n : Z) : AccountRoot :=
  mkAccount (acct_Balance a) n (acct_Flags a) (acct_TransferRate a) (acct_AMMID a)
    (acct_VaultID a) (acct_LoanBrokerID a) (acct_Sequence a).
Definition set_line_Balance (l : RippleState) (b : STAmount) : RippleState :=
  mkLine b (line_LowLimit l) (line_HighLimit l) (line_Flags l) (line_LowNode l) (line_HighNode l)
    (line_LowQualityIn l) (line_LowQualityOut l) (line_HighQualityIn l) (line_HighQualityOut l).
Definition set_line_Flags (l : RippleState) (f : Z) : RippleState :=
  mkLine (line_Balance l) (line_LowLimit l) (line_HighLimit l) f (line_LowNode l)
    (line_HighNode l) (line_LowQualityIn l) (line_LowQualityOut l) (line_HighQualityIn l)
    (line_HighQualityOut l).
Definition set_iss_Outstanding (i : MPTokenIssuance) (n : Z) : MPTokenIssuance :=
  mkIssuance (iss_Issuer i) (iss_Flags i) n (iss_MaximumAmount i) (iss_TransferFee i)
    (iss_DomainID i) (iss_OwnerNode i) (iss_Sequence i) (iss_AssetScale i) (iss_Metadata i)
    (iss_MutableFlags i).
Definition set_tok_MPTAmount (t : MPToken) (n : Z) : MPToken :=
  mkToken (tok_Flags t) n (tok_OwnerNode t).

(** ** Identifiers *)

Definition noAccount : Z := 1.

(** [MPTIssue::getIssuer]: an identifier is a sequence number and an account. *)
Definition mptIssuer (id : Z) : Z := id mod 2 ^ 160.

Definition getIssuer (a : Asset) : Z :=
  match a with AIssue i => account i | AMPT id => mptIssuer id end.

(** [keylet::line]: the same entry from both sides. *)
Definition line_keylet (a b c : Z) : Z * Z * Z := if a <? b then (a, b, c) else (b, a, c).

(** The 256-bit keys under which entries are listed in directories are hashes; the
    code relies on different entries having different keys.  The key of a vault, a
    broker or a loan is also its identifier.  The address of a pseudo-account is a hash
    as well. *)
Class Keylets := {
  line_key : Z * Z * Z -> Z;
  mptoken_key : Z * Z -> Z;
  issuance_key : Z -> Z;
  credential_key : Z * Z * Z -> Z;
  vault_keylet : Z -> Z -> Z;                 (* owner, sequence *)
  loanbroker_keylet : Z -> Z -> Z;            (* owner, sequence *)
  loan_keylet : Z -> Z -> Z;                  (* broker, loan sequence *)
  pseudo_hash : Z -> Z -> Z -> Z }.           (* attempt, parent hash, owner key *)

(** Codes and results: [let?] returns at once on a code other than success. *)
Definition and_then (m : result (TER * View)) (k : View -> result (TER * View))
  : result (TER * View) :=
  let* (ter, v) := m in
  if isTesSuccess ter then k v else Ok (ter, v).

Notation "'let?' v ':=' m 'in' k" := (and_then m (fun v => k))
  (at level 10, v name, m at level 100, k at level 200) : xrpl_scope.
