(* ===== verification/Holdings.v ===== *)
(** * Observers of holdings

    Freezes, authorization and spendable balances of an account
    ([include/xrpl/ledger/View.h], [src/libxrpl/ledger/View.cpp],
    [src/libxrpl/ledger/CredentialHelpers.cpp]).  All of them only read. *)

From S2P Require Import Prelude.
From S2P Require Import Ter.
From S2P Require Import XrplNumber.
From S2P Require Import Amounts.
From S2P Require Import Lending.
From S2P Require Import LedgerState.
From stdpp Require Import gmap list.

Local Open Scope Z_scope.

Inductive FreezeHandling : Set := fhIGNORE_FREEZE | fhZERO_IF_FROZEN.
Inductive AuthHandling : Set := ahIGNORE_AUTH | ahZERO_IF_UNAUTHORIZED.
Inductive AuthType : Set := StrongAuth | WeakAuth | Legacy.

Definition is_zero_if_frozen (f : FreezeHandling) : bool :=
  match f with fhZERO_IF_FROZEN => true | fhIGNORE_FREEZE => false end.
Definition is_zero_if_unauthorized (a : AuthHandling) : bool :=
  match a with ahZERO_IF_UNAUTHORIZED => true | ahIGNORE_AUTH => false end.
Definition is_strong (a : AuthType) : bool :=
  match a with StrongAuth => true | _ => false end.
Definition is_weak (a : AuthType) : bool :=
  match a with WeakAuth => true | _ => false end.

Definition maxAssetCheckDepth : nat := 5.

Section Observers.
Implicit Types (v : View) (id issuer currency : Z).

(** ** Freezes *)

Definition line_has v (acct issuer currency f : Z) : bool :=
  match lines v !! line_keylet acct issuer currency with
  | Some l => isFlag (line_Flags l) f
  | None => false
  end.

Definition isGlobalFrozen_issuer v (issuer : Z) : bool :=
  if issuer =? 0 then false
  else match accounts v !! issuer with
  | Some a => isFlag (acct_Flags a) lsfGlobalFreeze
  | None => false
  end.

Definition isGlobalFrozen_mpt v (id : Z) : bool :=
  match issuances v !! id with
  | Some i => isFlag (iss_Flags i) lsfMPTLocked
  | None => false
  end.

Definition isGlobalFrozen v (asset : Asset) : bool :=
  match asset with
  | AIssue i => isGlobalFrozen_issuer v (account i)
  | AMPT id => isGlobalFrozen_mpt v id
  end.

Definition isIndividualFrozen_iou v (acct currency issuer : Z) : bool :=
  if isXRP_currency currency then false
  else if negb (issuer =? acct) then
    line_has v acct issuer currency (if acct <? issuer then lsfHighFreeze else lsfLowFreeze)
  else false.

Definition isIndividualFrozen_mpt v (acct id : Z) : bool :=
  match tokens v !! (id, acct) with
  | Some t => isFlag (tok_Flags t) lsfMPTLocked
  | None => false
  end.

Definition isFrozen_iou v (acct currency issuer : Z) : bool :=
  if isXRP_currency currency then false
  else
    match accounts v !! issuer with
    | Some a => isFlag (acct_Flags a) lsfGlobalFreeze
    | None => false
    end ||
    (negb (issuer =? acct) &&
     line_has v acct issuer currency (if acct <? issuer then lsfHighFreeze else lsfLowFreeze)).

(** [depth] counts up to [maxAssetCheckDepth] in the source, [fuel] down from it. *)
Fixpoint isVaultPseudoAccountFrozen v (fuel : nat) (acct id : Z) : bool :=
  if negb (featureSingleAssetVault (rules (env v))) then false
  else match fuel with
  | O => true
  | S fuel =>
      match issuances v !! id with
      | None => false
      | Some i =>
          let issuer := iss_Issuer i in
          match accounts v !! issuer with
          | None => false
          | Some a =>
              match acct_VaultID a with
              | None => false
              | Some vaultID =>
                  match vaults v !! vaultID with
                  | None => false
                  | Some vault =>
                      (* isAnyFrozen(view, {issuer, account}, vault->at(sfAsset), depth + 1) *)
                      match vault_Asset vault with
                      | AIssue i =>
                          isFrozen_iou v issuer (currency i) (account i) ||
                          isFrozen_iou v acct (currency i) (account i)
                      | AMPT id' =>
                          isGlobalFrozen_mpt v id' ||
                          isIndividualFrozen_mpt v issuer id' ||
                          isIndividualFrozen_mpt v acct id' ||
                          isVaultPseudoAccountFrozen v fuel issuer id' ||
                          isVaultPseudoAccountFrozen v fuel acct id'
                      end
                  end
              end
          end
      end
  end.

Definition isFrozen_mpt v (acct id : Z) : bool :=
  isGlobalFrozen_mpt v id || isIndividualFrozen_mpt v acct id ||
  isVaultPseudoAccountFrozen v maxAssetCheckDepth acct id.

Definition isFrozen v (acct : Z) (asset : Asset) : bool :=
  match asset with
  | AIssue i => isFrozen_iou v acct (currency i) (account i)
  | AMPT id => isFrozen_mpt v acct id
  end.

Definition checkFrozen v (acct : Z) (asset : Asset) : TER :=
  if isFrozen v acct asset then
    match asset with AIssue _ => tecFROZEN | AMPT _ => tecLOCKED end
  else tesSUCCESS.

Definition isDeepFrozen_iou v (acct currency issuer : Z) : bool :=
  if isXRP_currency currency then false
  else if issuer =? acct then false
  else line_has v acct issuer currency lsfHighDeepFreeze ||
       line_has v acct issuer currency lsfLowDeepFreeze.

Definition isDeepFrozen v (acct : Z) (asset : Asset) : bool :=
  match asset with
  | AIssue i => isDeepFrozen_iou v acct (currency i) (account i)
  | AMPT id => isFrozen_mpt v acct id
  end.

Definition checkDeepFrozen v (acct : Z) (asset : Asset) : TER :=
  if isDeepFrozen v acct asset then
    match asset with AIssue _ => tecFROZEN | AMPT _ => tecLOCKED end
  else tesSUCCESS.

Definition isLPTokenFrozen v (acct : Z) (asset asset2 : Issue) : bool :=
  isFrozen_iou v acct (currency asset) (account asset) ||
  isFrozen_iou v acct (currency asset2) (account asset2).

(** ** Authorization *)

Definition checkExpired (c : Credential) (closed : Z) : bool :=
  default 4294967295 (cred_Expiration c) <? closed.

Fixpoint accepted_by v (subject : Z) (l : list (Z * Z)) (foundExpired : bool) : TER :=
  match l with
  | [] => if foundExpired then tecEXPIRED else tecNO_AUTH
  | (issuer, type) :: l =>
      match credentials (env v) !! (subject, issuer, type) with
      | None => accepted_by v subject l foundExpired
      | Some c =>
          if checkExpired c (parentCloseTime (env v)) then accepted_by v subject l true
          else if hasFlag (cred_Flags c) lsfAccepted then tesSUCCESS
          else accepted_by v subject l foundExpired
      end
  end.

Definition validDomain v (domainID subject : Z) : TER :=
  match domains (env v) !! domainID with
  | None => tecOBJECT_NOT_FOUND
  | Some l => accepted_by v subject l false
  end.

Definition requireAuth_iou v (issue : Issue) (acct : Z) (authType : AuthType) : TER :=
  if issue_native issue || (account issue =? acct) then tesSUCCESS
  else
    let trustLine := lines v !! line_keylet acct (account issue) (currency issue) in
    if negb (bool_decide (is_Some trustLine)) && is_strong authType then tecNO_LINE
    else
      let required := match accounts v !! account issue with
                      | Some a => hasFlag (acct_Flags a) lsfRequireAuth
                      | None => false
                      end in
      if required then
        match trustLine with
        | Some l =>
            if hasFlag (line_Flags l) (if account issue <? acct then lsfLowAuth else lsfHighAuth)
            then tesSUCCESS else tecNO_AUTH
        | None => tecNO_LINE
        end
      else tesSUCCESS.

Definition token_authorized (t : option MPToken) : bool :=
  match t with Some t => isFlag (tok_Flags t) lsfMPTAuthorized | None => false end.

Fixpoint requireAuth_mpt v (fuel : nat) (id acct : Z) (authType : AuthType) : TER :=
  match issuances v !! id with
  | None => tecOBJECT_NOT_FOUND
  | Some i =>
      if iss_Issuer i =? acct then tesSUCCESS
      else
        let err :=
          if featureSingleAssetVault (rules (env v)) then
            match fuel with
            | O => tecINTERNAL
            | S fuel =>
                match accounts v !! iss_Issuer i with
                | None => tefINTERNAL
                | Some a =>
                    match acct_VaultID a with
                    | None => tesSUCCESS
                    | Some vaultID =>
                        match vaults v !! vaultID with
                        | None => tefINTERNAL
                        | Some vault =>
                            match vault_Asset vault with
                            | AIssue issue => requireAuth_iou v issue acct authType
                            | AMPT id' => requireAuth_mpt v fuel id' acct authType
                            end
                        end
                    end
                end
            end
          else tesSUCCESS in
        if negb (isTesSuccess err) then err
        else
          let token := tokens v !! (id, acct) in
          if negb (bool_decide (is_Some token)) && negb (is_weak authType) then tecNO_AUTH
          else
            let undecided :=
              if isFlag (iss_Flags i) lsfMPTRequireAuth && negb (token_authorized token)
              then tecNO_AUTH else tesSUCCESS in
            match iss_DomainID i with
            | Some domainID =>
                let ter := validDomain v domainID acct in
                if isTesSuccess ter then ter
                else if negb (bool_decide (is_Some token)) then ter
                else undecided
            | None => undecided
            end
  end.

Definition requireAuth v (asset : Asset) (acct : Z) (authType : AuthType) : TER :=
  match asset with
  | AIssue i => requireAuth_iou v i acct authType
  | AMPT id => requireAuth_mpt v maxAssetCheckDepth id acct authType
  end.

Definition canTransfer v (id from to : Z) : TER :=
  match issuances v !! id with
  | None => tecOBJECT_NOT_FOUND
  | Some i =>
      if negb (hasFlag (iss_Flags i) lsfMPTCanTransfer) &&
         (negb (from =? iss_Issuer i) && negb (to =? iss_Issuer i))
      then tecNO_AUTH else tesSUCCESS
  end.

(** ** Holdings that can be added, deposits *)

Definition canAddHolding v (asset : Asset) : TER :=
  match asset with
  | AIssue i =>
      if issue_native i then tesSUCCESS
      else match accounts v !! account i with
      | None => terNO_ACCOUNT
      | Some a => if negb (isFlag (acct_Flags a) lsfDefaultRipple) then terNO_RIPPLE else tesSUCCESS
      end
  | AMPT id =>
      match issuances v !! id with
      | None => tecOBJECT_NOT_FOUND
      | Some i => if negb (isFlag (iss_Flags i) lsfMPTCanTransfer) then tecNO_AUTH else tesSUCCESS
      end
  end.

Definition checkDestinationAndTag (to : option AccountRoot) (hasDestinationTag : bool) : TER :=
  match to with
  | None => tecNO_DST
  | Some a =>
      if isFlag (acct_Flags a) lsfRequireDestTag && negb hasDestinationTag
      then tecDST_TAG_NEEDED else tesSUCCESS
  end.

Definition canWithdraw v (from to : Z) (hasDestinationTag : bool) : TER :=
  let ret := checkDestinationAndTag (accounts v !! to) hasDestinationTag in
  if negb (isTesSuccess ret) then ret
  else if from =? to then tesSUCCESS
  else match accounts v !! to with
  | None => tesSUCCESS
  | Some a =>
      if isFlag (acct_Flags a) lsfDepositAuth && negb (bool_decide ((to, from) ∈ preauths (env v)))
      then tecNO_PERMISSION else tesSUCCESS
  end.

(** ** Balances *)

(** The amount taken in 32-bit arithmetic, limited at both ends. *)
Definition confineOwnerCount (current adjustment : Z) : Z :=
  let adjusted := u32 (current + adjustment) in
  if 0 <? adjustment then if adjusted <? current then 4294967295 else adjusted
  else if current <? adjusted then 0 else adjusted.

Definition isPseudoAccount (a : AccountRoot) : bool :=
  bool_decide (is_Some (acct_AMMID a)) || bool_decide (is_Some (acct_VaultID a)) ||
  bool_decide (is_Some (acct_LoanBrokerID a)).

(** [STAmount(XRPAmount)] *)
Definition st_of_xrp (cfg : Settings) (drops : Z) : result STAmount :=
  st_make cfg (AIssue xrpIssue) (u64 (if drops <? 0 then - drops else drops)) 0 (drops <? 0).

(** [clear(asset)] *)
Definition st_clear (asset : Asset) : STAmount :=
  mkSTAmount asset 0 (if asset_native asset then 0 else -100) false.

(** [setIssuer]; [get<Issue>] throws on an MPT. *)
Definition st_setIssuer (a : STAmount) (issuer : Z) : result STAmount :=
  match mAsset a with
  | AIssue i => Ok (mkSTAmount (AIssue (mkIssue (currency i) issuer)) (mValue a) (mOffset a)
                      (mIsNegative a))
  | AMPT _ => Throw logic_error
  end.

Definition xrpLiquid (cfg : Settings) v (id ownerCountAdj : Z) : result Z :=
  match accounts v !! id with
  | None => Ok 0
  | Some a =>
      let ownerCount := confineOwnerCount (acct_OwnerCount a) ownerCountAdj in
      let reserve := if isPseudoAccount a then 0 else accountReserve (fees (env v)) ownerCount in
      let balance := acct_Balance a in
      let* reserve := st_of_xrp cfg reserve in
      let* short := st_ltb balance reserve in
      let* amount := if short then Ok (st_drops 0) else st_sub cfg balance reserve in
      xrp amount
  end.

Definition getLineIfUsable v (acct currency issuer : Z) (zeroIfFrozen : FreezeHandling)
  : option RippleState :=
  match lines v !! line_keylet acct issuer currency with
  | None => None
  | Some l =>
      if is_zero_if_frozen zeroIfFrozen then
        if isFrozen_iou v acct currency issuer || isDeepFrozen_iou v acct currency issuer
        then None
        else if fixFrozenLPTokenTransfer (rules (env v)) then
          match accounts v !! issuer with
          | None => None
          | Some a =>
              match acct_AMMID a with
              | None => Some l
              | Some ammID =>
                  match amms (env v) !! ammID with
                  | None => None
                  | Some (asset, asset2) =>
                      if isLPTokenFrozen v acct asset asset2 then None else Some l
                  end
              end
          end
        else Some l
      else Some l
  end.

Definition getTrustLineBalance (cfg : Settings) (line : option RippleState)
    (acct currency issuer : Z) (includeOppositeLimit : bool) : result STAmount :=
  match line with
  | Some l =>
      let accountHigh := issuer <? acct in
      let amount := if accountHigh then st_neg (line_Balance l) else line_Balance l in
      let* amount :=
        if includeOppositeLimit
        then st_add cfg amount (if accountHigh then line_LowLimit l else line_HighLimit l)
        else Ok amount in
      st_setIssuer amount issuer
  | None => Ok (st_clear (AIssue (mkIssue currency issuer)))
  end.

Definition accountHolds_iou (cfg : Settings) v (acct currency issuer : Z)
    (zeroIfFrozen : FreezeHandling) : result STAmount :=
  if isXRP_currency currency then let* x := xrpLiquid cfg v acct 0 in st_of_xrp cfg x
  else getTrustLineBalance cfg (getLineIfUsable v acct currency issuer zeroIfFrozen)
         acct currency issuer false.

Definition accountHolds_mpt (cfg : Settings) v (acct id : Z) (zeroIfFrozen : FreezeHandling)
    (zeroIfUnauthorized : AuthHandling) : result STAmount :=
  match tokens v !! (id, acct) with
  | None => Ok (st_clear (AMPT id))
  | Some t =>
      if is_zero_if_frozen zeroIfFrozen && isFrozen_mpt v acct id then Ok (st_clear (AMPT id))
      else
        let* amount := st_make cfg (AMPT id) (tok_MPTAmount t) 0 false in
        let unauthorized :=
          if is_zero_if_unauthorized zeroIfUnauthorized then
            if featureSingleAssetVault (rules (env v)) then
              negb (isTesSuccess (requireAuth_mpt v maxAssetCheckDepth id acct StrongAuth))
            else match issuances v !! id with
            | Some i => isFlag (iss_Flags i) lsfMPTRequireAuth &&
                        negb (isFlag (tok_Flags t) lsfMPTAuthorized)
            | None => false
            end
          else false in
        Ok (if unauthorized then st_clear (AMPT id) else amount)
  end.

Definition accountHolds (cfg : Settings) v (acct : Z) (asset : Asset)
    (zeroIfFrozen : FreezeHandling) (zeroIfUnauthorized : AuthHandling) : result STAmount :=
  match asset with
  | AIssue i => accountHolds_iou cfg v acct (currency i) (account i) zeroIfFrozen
  | AMPT id => accountHolds_mpt cfg v acct id zeroIfFrozen zeroIfUnauthorized
  end.

Definition accountCanSend_iou (cfg : Settings) v (acct currency issuer : Z)
    (zeroIfFrozen : FreezeHandling) : result STAmount :=
  if isXRP_currency currency then accountHolds_iou cfg v acct currency issuer zeroIfFrozen
  else if acct =? issuer then
    st_make cfg (AIssue (mkIssue currency issuer)) cMaxValue cMaxOffset false
  else getTrustLineBalance cfg (getLineIfUsable v acct currency issuer zeroIfFrozen)
         acct currency issuer true.

Definition accountCanSend_mpt (cfg : Settings) v (acct id : Z) (zeroIfFrozen : FreezeHandling)
    (zeroIfUnauthorized : AuthHandling) : result STAmount :=
  if acct =? mptIssuer id then
    match issuances v !! id with
    | None => st_zeroed cfg (AMPT id)
    | Some i =>
        st_make cfg (AMPT id)
          (u64 (default maxMPTokenAmount (iss_MaximumAmount i) - iss_OutstandingAmount i)) 0 false
    end
  else accountHolds_mpt cfg v acct id zeroIfFrozen zeroIfUnauthorized.

Definition accountCanSend (cfg : Settings) v (acct : Z) (asset : Asset)
    (zeroIfFrozen : FreezeHandling) (zeroIfUnauthorized : AuthHandling) : result STAmount :=
  match asset with
  | AIssue i => accountCanSend_iou cfg v acct (currency i) (account i) zeroIfFrozen
  | AMPT id => accountCanSend_mpt cfg v acct id zeroIfFrozen zeroIfUnauthorized
  end.

(** ** Transfer rates, in billionths *)

Definition parityRate : Z := 1000000000.

Definition transferRate_issuer v (issuer : Z) : Z :=
  match accounts v !! issuer with
  | Some a => default parityRate (acct_TransferRate a)
  | None => parityRate
  end.

Definition transferRate_mpt v (id : Z) : Z :=
  match issuances v !! id with
  | Some i => match iss_TransferFee i with
              | Some fee => u32 (1000000000 + 10000 * fee)
              | None => parityRate
              end
  | None => parityRate
  end.

Definition transferRate v (a : STAmount) : Z :=
  match mAsset a with
  | AIssue i => transferRate_issuer v (account i)
  | AMPT id => transferRate_mpt v id
  end.

End Observers.
