(* ===== verification/Transfers.v ===== *)
(** * Transfers

    Owner counts, trust lines, tokens and the movement of XRP, issued currencies and
    multi-purpose tokens ([src/libxrpl/ledger/View.cpp], [src/libxrpl/protocol/Rate2.cpp]).
    A function returns its code and the view it leaves behind; the hooks that only the
    payment sandbox overrides do nothing here. *)

From S2P Require Import Prelude.
From S2P Require Import Ter.
From S2P Require Import XrplNumber.
From S2P Require Import Amounts.
From S2P Require Import Lending.
From S2P Require Import Directories.
From S2P Require Import LedgerState.
From S2P Require Import Holdings.
From stdpp Require Import gmap list.

Local Open Scope Z_scope.

Inductive WaiveTransferFee : Set := NoWaive | Waive.

Section Transfers.
Context `{Keylets} (cfg : Settings).
Implicit Types (v : View) (amount : STAmount).

(** ** Owner counts and directories *)

Definition adjustOwnerCount v (id adj : Z) : View :=
  match accounts v !! id with
  | None => v
  | Some a => update_account v id (set_acct_OwnerCount a (confineOwnerCount (acct_OwnerCount a) adj))
  end.

Definition ownerDir v (owner : Z) : gmap Z Page := default ∅ (ownerDirs v !! owner).

Definition dirInsert v (owner key : Z) : result (option Z * View) :=
  let* (page, d) := dirAdd (ownerDir v owner) false key in
  Ok (page, set_ownerDirs v (<[owner := d]> (ownerDirs v))).

Definition ownerDirRemove v (owner page key : Z) : result (bool * View) :=
  let* (found, d) := dirRemove (ownerDir v owner) page key false in
  Ok (found, set_ownerDirs v (<[owner := d]> (ownerDirs v))).

(** ** Trust lines *)

Definition default_line : RippleState :=
  mkLine (st_drops 0) (st_drops 0) (st_drops 0) 0 0 0 0 0 0 0.

Definition when (b : bool) (f : Z) : Z := if b then f else 0.

Definition st_currency amount : result Z :=
  match mAsset amount with AIssue i => Ok (currency i) | AMPT _ => Throw logic_error end.

(** [sleAccount] is the account whose side of the line is set. *)
Definition trustCreate v (bSrcHigh : bool) (src dst : Z) (k : Z * Z * Z) (sleAccount : Z)
    (bAuth bNoRipple bFreeze bDeepFreeze : bool) (saBalance saLimit : STAmount)
    (uQualityIn uQualityOut : Z) : result (TER * View) :=
  let low := if bSrcHigh then dst else src in
  let high := if bSrcHigh then src else dst in
  if (low =? high) && featureLendingProtocol (rules (env v)) then Ok (tecINTERNAL, v)
  else if bool_decide (is_Some (lines v !! k)) then Throw logic_error
  else
    let v := update_line v k default_line in
    let* (lowNode, v) := dirInsert v low (line_key k) in
    match lowNode with
    | None => Ok (tecDIR_FULL, v)
    | Some lowNode =>
        let* (highNode, v) := dirInsert v high (line_key k) in
        match highNode with
        | None => Ok (tecDIR_FULL, v)
        | Some highNode =>
            let bSetDst := getIssuer (mAsset saLimit) =? dst in
            let bSetHigh := xorb bSrcHigh bSetDst in
            match accounts v !! sleAccount, accounts v !! (if bSetHigh then low else high) with
            | None, _ => Ok (tefINTERNAL, v)
            | Some _, None => Ok (tecNO_TARGET, v)
            | Some _, Some peer =>
                let* cur := st_currency saBalance in
                let* otherLimit := st_zeroed cfg (AIssue (mkIssue cur (if bSetDst then src else dst))) in
                let side (h l : Z) := if bSetHigh then h else l in
                let uFlags :=
                  Z.lor (Z.lor (Z.lor (Z.lor (Z.lor (side lsfHighReserve lsfLowReserve)
                    (when bAuth (side lsfHighAuth lsfLowAuth)))
                    (when bNoRipple (side lsfHighNoRipple lsfLowNoRipple)))
                    (when bFreeze (side lsfHighFreeze lsfLowFreeze)))
                    (when bDeepFreeze (side lsfHighDeepFreeze lsfLowDeepFreeze)))
                    (when (Z.land (acct_Flags peer) lsfDefaultRipple =? 0)
                       (side lsfLowNoRipple lsfHighNoRipple)) in
                let v := adjustOwnerCount v sleAccount 1 in
                Ok (tesSUCCESS,
                    update_line v k
                      (mkLine (if bSetHigh then st_neg saBalance else saBalance)
                         (if bSetHigh then otherLimit else saLimit)
                         (if bSetHigh then saLimit else otherLimit)
                         uFlags lowNode highNode
                         (when (negb bSetHigh) uQualityIn) (when (negb bSetHigh) uQualityOut)
                         (when bSetHigh uQualityIn) (when bSetHigh uQualityOut)))
            end
        end
    end.

Definition trustDelete v (k : Z * Z * Z) (l : RippleState) (low high : Z) : result (TER * View) :=
  let* (found, v) := ownerDirRemove v low (line_LowNode l) (line_key k) in
  if negb found then Ok (tefBAD_LEDGER, v)
  else
    let* (found, v) := ownerDirRemove v high (line_HighNode l) (line_key k) in
    if negb found then Ok (tefBAD_LEDGER, v)
    else Ok (tesSUCCESS, set_lines v (delete k (lines v))).

(** The sender's side of a line: reserve, rippling, freeze, limit and qualities. *)
Definition side_reserve (high : bool) : Z := if high then lsfHighReserve else lsfLowReserve.
Definition side_limit (high : bool) (l : RippleState) : STAmount :=
  if high then line_HighLimit l else line_LowLimit l.
Definition side_is_default (high : bool) (l : RippleState) (sender : AccountRoot) : bool :=
  xorb (hasFlag (line_Flags l) (if high then lsfHighNoRipple else lsfLowNoRipple))
       (hasFlag (acct_Flags sender) lsfDefaultRipple) &&
  negb (hasFlag (line_Flags l) (if high then lsfHighFreeze else lsfLowFreeze)) &&
  st_is_zero (side_limit high l) &&
  ((if high then line_HighQualityIn l else line_LowQualityIn l) =? 0) &&
  ((if high then line_HighQualityOut l else line_LowQualityOut l) =? 0).

(** The sender's account is dereferenced untested; a missing one is a [Throw]. *)
Definition sender_side_cleared v (sender : Z) (high : bool) (l : RippleState)
    (before after : STAmount) : result bool :=
  if (0 <? st_signum before) && (st_signum after <=? 0) &&
     hasFlag (line_Flags l) (side_reserve high)
  then match accounts v !! sender with
  | None => Throw logic_error
  | Some a => Ok (side_is_default high l a)
  end
  else Ok false.

Definition rippleCreditIOU v (sender receiver : Z) (amount : STAmount) : result (TER * View) :=
  let* cur := st_currency amount in
  let bSenderHigh := receiver <? sender in
  let k := line_keylet sender receiver cur in
  match lines v !! k with
  | Some l =>
      let saBefore := if bSenderHigh then st_neg (line_Balance l) else line_Balance l in
      let* saBalance := st_sub cfg saBefore amount in
      let* cleared := sender_side_cleared v sender bSenderHigh l saBefore saBalance in
      let bDelete := cleared && st_is_zero saBalance &&
                     negb (hasFlag (line_Flags l) (side_reserve (negb bSenderHigh))) in
      let v := if cleared then adjustOwnerCount v sender (-1) else v in
      let l := if cleared then set_line_Flags l (clearFlag (line_Flags l) (side_reserve bSenderHigh))
               else l in
      let l := set_line_Balance l (if bSenderHigh then st_neg saBalance else saBalance) in
      let v := update_line v k l in
      if bDelete
      then trustDelete v k l (if bSenderHigh then receiver else sender)
             (if bSenderHigh then sender else receiver)
      else Ok (tesSUCCESS, v)
  | None =>
      let* saReceiverLimit := st_zeroed cfg (AIssue (mkIssue cur receiver)) in
      let* saBalance := st_setIssuer amount noAccount in
      match accounts v !! receiver with
      | None => Ok (tefINTERNAL, v)
      | Some a =>
          trustCreate v bSenderHigh sender receiver k receiver false
            (Z.land (acct_Flags a) lsfDefaultRipple =? 0) false false
            saBalance saReceiverLimit 0 0
      end
  end.

(** ** Issued currencies *)

Definition multiply_rate amount (rate : Z) : result STAmount :=
  if rate =? parityRate then Ok amount
  else
    let* r := st_make cfg (AIssue noIssue) rate (-9) false in
    multiply cfg amount r (mAsset amount).

Definition with_fee amount (rate : Z) (waiveFee : WaiveTransferFee) : result STAmount :=
  match waiveFee with Waive => Ok amount | NoWaive => multiply_rate amount rate end.

(** The out parameter [saActual] is discarded by the only caller and left out. *)
Definition rippleSendIOU v (sender receiver : Z) amount (waiveFee : WaiveTransferFee)
  : result (TER * View) :=
  let issuer := getIssuer (mAsset amount) in
  if (sender =? issuer) || (receiver =? issuer) || (issuer =? noAccount) then
    let* (ter, v) := rippleCreditIOU v sender receiver amount in
    if featureDeletableAccounts (rules (env v)) && negb (isTesSuccess ter) then Ok (ter, v)
    else Ok (tesSUCCESS, v)
  else
    let* saActual := with_fee amount (transferRate_issuer v issuer) waiveFee in
    let? v := rippleCreditIOU v issuer receiver amount in
    rippleCreditIOU v sender issuer saActual.

Fixpoint send_each_iou v (senderID : Z) (asset : Asset) (receivers : list (Z * Number))
    (waiveFee : WaiveTransferFee) (takeFromSender actual : STAmount)
  : result (TER * View * STAmount) :=
  match receivers with
  | [] => Ok (tesSUCCESS, v, takeFromSender)
  | (receiverID, x) :: receivers =>
      let issuer := getIssuer asset in
      let* amount := st_of_number cfg asset x in
      if st_is_zero amount || (senderID =? receiverID)
      then send_each_iou v senderID asset receivers waiveFee takeFromSender actual
      else if (senderID =? issuer) || (receiverID =? issuer) || (issuer =? noAccount) then
        let* (ter, v) := rippleCreditIOU v senderID receiverID amount in
        if negb (isTesSuccess ter) then Ok (ter, v, takeFromSender)
        else
          let* actual := st_add cfg actual amount in
          send_each_iou v senderID asset receivers waiveFee takeFromSender actual
      else
        let* actualSend := with_fee amount (transferRate_issuer v issuer) waiveFee in
        let* actual := st_add cfg actual actualSend in
        let* takeFromSender := st_add cfg takeFromSender actualSend in
        let* (ter, v) := rippleCreditIOU v issuer receiverID amount in
        if negb (isTesSuccess ter) then Ok (ter, v, takeFromSender)
        else send_each_iou v senderID asset receivers waiveFee takeFromSender actual
  end.

Definition rippleSendMultiIOU v (senderID : Z) (asset : Asset) (receivers : list (Z * Number))
    (waiveFee : WaiveTransferFee) : result (TER * View) :=
  let* zero := st_zeroed cfg asset in
  let* (ter, v, takeFromSender) := send_each_iou v senderID asset receivers waiveFee zero zero in
  if negb (isTesSuccess ter) then Ok (ter, v)
  else if negb (senderID =? getIssuer asset) && negb (st_is_zero takeFromSender)
  then rippleCreditIOU v senderID (getIssuer asset) takeFromSender
  else Ok (tesSUCCESS, v).

(** ** XRP *)

(** The account of a non-zero identifier, if it exists. *)
Definition peek_account v (id : Z) : option AccountRoot :=
  if id =? 0 then None else accounts v !! id.

Definition accountSendIOU v (sender receiver : Z) amount (waiveFee : WaiveTransferFee)
  : result (TER * View) :=
  if fixAMMv1_1 (rules (env v)) && ((st_signum amount <? 0) || holds_mpt (mAsset amount))
  then Ok (tecINTERNAL, v)
  else if st_is_zero amount || (sender =? receiver) then Ok (tesSUCCESS, v)
  else if negb (native amount) then rippleSendIOU v sender receiver amount waiveFee
  else
    let? v :=
      match peek_account v sender with
      | None => Ok (tesSUCCESS, v)
      | Some a =>
          let* short := st_ltb (acct_Balance a) amount in
          if short
          then Ok (if is_open (env v) then telFAILED_PROCESSING else tecFAILED_PROCESSING, v)
          else
            let* balance := st_sub cfg (acct_Balance a) amount in
            Ok (tesSUCCESS, update_account v sender (set_acct_Balance a balance))
      end in
    match peek_account v receiver with
    | None => Ok (tesSUCCESS, v)
    | Some a =>
        let* balance := st_add cfg (acct_Balance a) amount in
        Ok (tesSUCCESS, update_account v receiver (set_acct_Balance a balance))
    end.

Fixpoint send_each_xrp v (senderID : Z) (asset : Asset) (receivers : list (Z * Number))
    (takeFromSender : STAmount) : result (TER * View * STAmount) :=
  match receivers with
  | [] => Ok (tesSUCCESS, v, takeFromSender)
  | (receiverID, x) :: receivers =>
      let* amount := st_of_number cfg asset x in
      let* takeFromSender := st_add cfg takeFromSender amount in
      if fixAMMv1_1 (rules (env v)) && (st_signum amount <? 0)
      then Ok (tecINTERNAL, v, takeFromSender)
      else if st_is_zero amount || (senderID =? receiverID)
      then send_each_xrp v senderID asset receivers takeFromSender
      else
        let* v :=
          match peek_account v receiverID with
          | None => Ok v
          | Some a =>
              let* balance := st_add cfg (acct_Balance a) amount in
              Ok (update_account v receiverID (set_acct_Balance a balance))
          end in
        send_each_xrp v senderID asset receivers takeFromSender
  end.

Definition accountSendMultiIOU v (senderID : Z) (asset : Asset) (receivers : list (Z * Number))
    (waiveFee : WaiveTransferFee) : result (TER * View) :=
  if fixAMMv1_1 (rules (env v)) && holds_mpt asset then Ok (tecINTERNAL, v)
  else if negb (asset_native asset) then rippleSendMultiIOU v senderID asset receivers waiveFee
  else
    let* zero := st_zeroed cfg asset in
    let* (ter, v, takeFromSender) := send_each_xrp v senderID asset receivers zero in
    if negb (isTesSuccess ter) then Ok (ter, v)
    else match peek_account v senderID with
    | None => Ok (tesSUCCESS, v)
    | Some a =>
        let* short := st_ltb (acct_Balance a) takeFromSender in
        if short then Ok (tecFAILED_PROCESSING, v)
        else
          let* balance := st_sub cfg (acct_Balance a) takeFromSender in
          Ok (tesSUCCESS, update_account v senderID (set_acct_Balance a balance))
    end.

(** ** Multi-purpose tokens *)

(** [peek] of an issuance: from now on the view holds a copy of its own. *)
Definition peek_issuance v (id : Z) : View :=
  match issuances v !! id with
  | Some _ => set_peeked v ({[id]} ∪ peeked v)
  | None => v
  end.

Definition mpt_id (a : Asset) : result Z :=
  match a with AMPT id => Ok id | AIssue _ => Throw logic_error end.

Definition debit_mpt v (id : Z) (iss : MPTokenIssuance) (sender pay : Z) : TER * View :=
  if sender =? mptIssuer id then
    (tesSUCCESS,
     update_issuance v id (set_iss_Outstanding iss (u64 (iss_OutstandingAmount iss + pay))))
  else match tokens v !! (id, sender) with
  | None => (tecNO_AUTH, v)
  | Some t =>
      if tok_MPTAmount t <? u64 pay then (tecINSUFFICIENT_FUNDS, v)
      else (tesSUCCESS,
            update_token v (id, sender) (set_tok_MPTAmount t (u64 (tok_MPTAmount t - pay))))
  end.

Definition credit_mpt v (id : Z) (receiver pay : Z) : TER * View :=
  if receiver =? mptIssuer id then
    match issuances v !! id with
    | None => (tecOBJECT_NOT_FOUND, v)
    | Some iss =>
        if u64 pay <=? iss_OutstandingAmount iss then
          (tesSUCCESS,
           update_issuance v id (set_iss_Outstanding iss (u64 (iss_OutstandingAmount iss - pay))))
        else (tecINTERNAL, v)
    end
  else match tokens v !! (id, receiver) with
  | None => (tecNO_AUTH, v)
  | Some t =>
      (tesSUCCESS,
       update_token v (id, receiver) (set_tok_MPTAmount t (u64 (tok_MPTAmount t + pay))))
  end.

Definition rippleCreditMPT v (sender receiver : Z) amount : result (TER * View) :=
  let* id := mpt_id (mAsset amount) in
  match issuances v !! id with
  | None => Ok (tecOBJECT_NOT_FOUND, v)
  | Some iss =>
      let v := peek_issuance v id in
      let* pay := mpt amount in
      let? v := Ok (debit_mpt v id iss sender pay) in
      Ok (credit_mpt v id receiver pay)
  end.

Definition maximum (iss : MPTokenIssuance) : Z := default maxMPTokenAmount (iss_MaximumAmount iss).

Definition rippleSendMPT v (sender receiver : Z) amount (waiveFee : WaiveTransferFee)
  : result (TER * View) :=
  let issuer := getIssuer (mAsset amount) in
  let* id := mpt_id (mAsset amount) in
  match issuances v !! id with
  | None => Ok (tecOBJECT_NOT_FOUND, v)
  | Some sle =>
      if (sender =? issuer) || (receiver =? issuer) then
        let* sendAmount := mpt amount in
        if (sender =? issuer) &&
           ((maximum sle <? u64 sendAmount) ||
            (u64 (maximum sle - sendAmount) <? iss_OutstandingAmount sle))
        then Ok (tecPATH_DRY, v)
        else rippleCreditMPT v sender receiver amount
      else
        let* saActual := with_fee amount (transferRate_mpt v id) waiveFee in
        let? v := rippleCreditMPT v issuer receiver amount in
        rippleCreditMPT v sender issuer saActual
  end.

(** The test of the maximum in a multiple payment.  A 64-bit integer minus an
    [STAmount] is a difference of [Number]s, and so is the comparison. *)
Definition exceeds_maximum (sle : MPTokenIssuance) (sendAmount : Z) (takeFromSender : STAmount)
  : result bool :=
  let md := round_mode cfg in
  let* taken := number_of_st cfg takeFromSender in
  let* m := of_rep md (i64 (maximum sle)) in
  let* room := number_sub md m taken in
  let* send := of_rep md sendAmount in
  if number_gtb send room then Ok true
  else
    let* m := of_rep md (i64 (u64 (maximum sle - sendAmount))) in
    let* room := number_sub md m taken in
    let* outstanding := of_rep md (i64 (iss_OutstandingAmount sle)) in
    Ok (number_gtb outstanding room).

(** [sle] was read before the loop: it is the view's own copy, which
    [rippleCreditMPT] changes, only if the view already had one. *)
Fixpoint send_each_mpt v (senderID : Z) (asset : Asset) (id : Z) (stale : option MPTokenIssuance)
    (receivers : list (Z * Number)) (waiveFee : WaiveTransferFee)
    (takeFromSender actual : STAmount) : result (TER * View * STAmount) :=
  match receivers with
  | [] => Ok (tesSUCCESS, v, takeFromSender)
  | (receiverID, x) :: receivers =>
      let issuer := mptIssuer id in
      let* amount := st_of_number cfg asset x in
      if st_is_zero amount || (senderID =? receiverID)
      then send_each_mpt v senderID asset id stale receivers waiveFee takeFromSender actual
      else if (senderID =? issuer) || (receiverID =? issuer) then
        let* sendAmount := mpt amount in
        let* exceeds :=
          if senderID =? issuer then
            match (match stale with Some s => Some s | None => issuances v !! id end) with
            | None => Throw logic_error
            | Some sle => exceeds_maximum sle sendAmount takeFromSender
            end
          else Ok false in
        if exceeds then Ok (tecPATH_DRY, v, takeFromSender)
        else
          let* (ter, v) := rippleCreditMPT v senderID receiverID amount in
          if negb (isTesSuccess ter) then Ok (ter, v, takeFromSender)
          else
            let* actual := st_add cfg actual amount in
            send_each_mpt v senderID asset id stale receivers waiveFee takeFromSender actual
      else
        let* actualSend := with_fee amount (transferRate_mpt v id) waiveFee in
        let* actual := st_add cfg actual actualSend in
        let* takeFromSender := st_add cfg takeFromSender actualSend in
        let* (ter, v) := rippleCreditMPT v issuer receiverID amount in
        if negb (isTesSuccess ter) then Ok (ter, v, takeFromSender)
        else send_each_mpt v senderID asset id stale receivers waiveFee takeFromSender actual
  end.

Definition rippleSendMultiMPT v (senderID : Z) (asset : Asset) (receivers : list (Z * Number))
    (waiveFee : WaiveTransferFee) : result (TER * View) :=
  let* id := mpt_id asset in
  match issuances v !! id with
  | None => Ok (tecOBJECT_NOT_FOUND, v)
  | Some sle =>
      let stale := if bool_decide (id ∈ peeked v) then None else Some sle in
      let* zero := st_zeroed cfg asset in
      let* (ter, v, takeFromSender) :=
        send_each_mpt v senderID asset id stale receivers waiveFee zero zero in
      if negb (isTesSuccess ter) then Ok (ter, v)
      else if negb (senderID =? mptIssuer id) && negb (st_is_zero takeFromSender)
      then rippleCreditMPT v senderID (mptIssuer id) takeFromSender
      else Ok (tesSUCCESS, v)
  end.

Definition accountSendMPT v (sender receiver : Z) amount (waiveFee : WaiveTransferFee)
  : result (TER * View) :=
  if st_is_zero amount || (sender =? receiver) then Ok (tesSUCCESS, v)
  else rippleSendMPT v sender receiver amount waiveFee.

(** ** Any asset *)

Definition accountSend v (sender receiver : Z) amount (waiveFee : WaiveTransferFee)
  : result (TER * View) :=
  match mAsset amount with
  | AIssue _ => accountSendIOU v sender receiver amount waiveFee
  | AMPT _ => accountSendMPT v sender receiver amount waiveFee
  end.

Definition accountSendMulti v (senderID : Z) (asset : Asset) (receivers : list (Z * Number))
    (waiveFee : WaiveTransferFee) : result (TER * View) :=
  match asset with
  | AIssue _ => accountSendMultiIOU v senderID asset receivers waiveFee
  | AMPT _ => rippleSendMultiMPT v senderID asset receivers waiveFee
  end.

(** [transferXRP]: both accounts must exist. *)
Definition transferXRP v (from to : Z) amount : result (TER * View) :=
  match accounts v !! from, accounts v !! to with
  | Some sender, Some receiver =>
      let* short := st_ltb (acct_Balance sender) amount in
      if short
      then Ok (if is_open (env v) then telFAILED_PROCESSING else tecFAILED_PROCESSING, v)
      else
        let* balance := st_sub cfg (acct_Balance sender) amount in
        let v := update_account v from (set_acct_Balance sender balance) in
        let receiver := if from =? to then set_acct_Balance sender balance else receiver in
        let* balance := st_add cfg (acct_Balance receiver) amount in
        Ok (tesSUCCESS, update_account v to (set_acct_Balance receiver balance))
  | _, _ => Ok (tefINTERNAL, v)
  end.

(** ** Issuing and redeeming *)

(** The view and the line with the sender's reserve released, and whether the line
    is to be deleted. *)
Definition updateTrustLine v (l : RippleState) (bSenderHigh : bool) (sender : Z)
    (before after : STAmount) : View * RippleState * bool :=
  match accounts v !! sender with
  | None => (v, l, false)
  | Some a =>
      if (0 <? st_signum before) && (st_signum after <=? 0) &&
         hasFlag (line_Flags l) (side_reserve bSenderHigh) && side_is_default bSenderHigh l a
      then (adjustOwnerCount v sender (-1),
            set_line_Flags l (clearFlag (line_Flags l) (side_reserve bSenderHigh)),
            st_is_zero after && negb (hasFlag (line_Flags l) (side_reserve (negb bSenderHigh))))
      else (v, l, false)
  end.

(** The common part of [issueIOU] and [redeemIOU]: the line changes by [amount] in
    the sender's terms. *)
Definition change_line v (k : Z * Z * Z) (l : RippleState) (sender receiver : Z) amount
  : result (TER * View) :=
  let bSenderHigh := receiver <? sender in
  let start := if bSenderHigh then st_neg (line_Balance l) else line_Balance l in
  let* finalBalance := st_sub cfg start amount in
  let '(v, l, must_delete) := updateTrustLine v l bSenderHigh sender start finalBalance in
  let l := set_line_Balance l (if bSenderHigh then st_neg finalBalance else finalBalance) in
  let v := update_line v k l in
  if must_delete
  then trustDelete v k l (if bSenderHigh then receiver else sender)
         (if bSenderHigh then sender else receiver)
  else Ok (tesSUCCESS, v).

Definition issueIOU v (acct : Z) amount (issue : Issue) : result (TER * View) :=
  let issuer := account issue in
  let k := line_keylet issuer acct (currency issue) in
  match lines v !! k with
  | Some l => change_line v k l issuer acct amount
  | None =>
      let* limit := st_zeroed cfg (AIssue (mkIssue (currency issue) acct)) in
      let* finalBalance := st_setIssuer amount noAccount in
      match accounts v !! acct with
      | None => Ok (tefINTERNAL, v)
      | Some a =>
          trustCreate v (acct <? issuer) issuer acct k acct false
            (Z.land (acct_Flags a) lsfDefaultRipple =? 0) false false finalBalance limit 0 0
      end
  end.

Definition redeemIOU v (acct : Z) amount (issue : Issue) : result (TER * View) :=
  let k := line_keylet acct (account issue) (currency issue) in
  match lines v !! k with
  | Some l => change_line v k l acct (account issue) amount
  | None => Ok (tefINTERNAL, v)
  end.

(** ** Holdings *)

Definition tfMPTUnauthorize : Z := 0x00000001.

Definition authorizeMPToken v (priorBalance id acct flags : Z) (holderID : option Z)
  : result (TER * View) :=
  match accounts v !! acct with
  | None => Ok (tecINTERNAL, v)
  | Some sleAcct =>
      match holderID with
      | None =>
          if hasFlag flags tfMPTUnauthorize then
            match tokens v !! (id, acct) with
            | None => Ok (tecINTERNAL, v)
            | Some t =>
                if negb (tok_MPTAmount t =? 0) then Ok (tecINTERNAL, v)
                else
                  let* (found, v) := ownerDirRemove v acct (tok_OwnerNode t) (mptoken_key (id, acct)) in
                  if negb found then Ok (tecINTERNAL, v)
                  else
                    let v := adjustOwnerCount v acct (-1) in
                    Ok (tesSUCCESS, set_tokens v (delete (id, acct) (tokens v)))
            end
          else
            let uOwnerCount := acct_OwnerCount sleAcct in
            let reserveCreate :=
              if uOwnerCount <? 2 then 0
              else accountReserve (fees (env v)) (u32 (uOwnerCount + 1)) in
            if priorBalance <? reserveCreate then Ok (tecINSUFFICIENT_RESERVE, v)
            else
              let invalid := match issuances v !! id with
                             | None => true
                             | Some i => iss_Issuer i =? acct
                             end in
              if invalid && featureLendingProtocol (rules (env v)) then Ok (tecINTERNAL, v)
              else
                let* (page, v) := dirInsert v acct (mptoken_key (id, acct)) in
                match page with
                | None => Ok (tecDIR_FULL, v)
                | Some page =>
                    if bool_decide (is_Some (tokens v !! (id, acct))) then Throw logic_error
                    else
                      let v := update_token v (id, acct) (mkToken 0 0 page) in
                      Ok (tesSUCCESS, adjustOwnerCount v acct 1)
                end
      | Some holder =>
          match issuances v !! id with
          | None => Ok (tecINTERNAL, v)
          | Some i =>
              if negb (acct =? iss_Issuer i) then Ok (tecINTERNAL, v)
              else match tokens v !! (id, holder) with
              | None => Ok (tecINTERNAL, v)
              | Some t =>
                  let flagsOut :=
                    if hasFlag flags tfMPTUnauthorize
                    then clearFlag (tok_Flags t) lsfMPTAuthorized
                    else setFlag (tok_Flags t) lsfMPTAuthorized in
                  Ok (tesSUCCESS,
                      update_token v (id, holder)
                        (mkToken flagsOut (tok_MPTAmount t) (tok_OwnerNode t)))
              end
          end
      end
  end.

Definition addEmptyHolding v (acct priorBalance : Z) (asset : Asset) : result (TER * View) :=
  match asset with
  | AIssue issue =>
      if issue_native issue || (acct =? account issue) then Ok (tesSUCCESS, v)
      else if isGlobalFrozen_issuer v (account issue) then Ok (tecFROZEN, v)
      else
        let src := account issue in
        let k := line_keylet src acct (currency issue) in
        match accounts v !! src, accounts v !! acct with
        | Some sleSrc, Some sleDst =>
            if negb (isFlag (acct_Flags sleSrc) lsfDefaultRipple) then Ok (tecINTERNAL, v)
            else if bool_decide (is_Some (lines v !! k)) then Ok (tecDUPLICATE, v)
            else if priorBalance <?
                    accountReserve (fees (env v)) (u32 (acct_OwnerCount sleDst + 1))
            then Ok (tecNO_LINE_INSUF_RESERVE, v)
            else
              let* balance := st_zeroed cfg (AIssue (mkIssue (currency issue) noAccount)) in
              let* limit := st_zeroed cfg (AIssue (mkIssue (currency issue) acct)) in
              trustCreate v (acct <? src) src acct k acct false true false false balance limit 0 0
        | _, _ => Ok (tefINTERNAL, v)
        end
  | AMPT id =>
      match issuances v !! id with
      | None => Ok (tefINTERNAL, v)
      | Some i =>
          let v := peek_issuance v id in
          if isFlag (iss_Flags i) lsfMPTLocked then Ok (tefINTERNAL, v)
          else if bool_decide (is_Some (tokens v !! (id, acct))) then Ok (tecDUPLICATE, v)
          else if acct =? mptIssuer id then Ok (tesSUCCESS, v)
          else authorizeMPToken v priorBalance id acct 0 None
      end
  end.

(** One side of a line releases its reserve. *)
Definition release_side v (k : Z * Z * Z) (l : RippleState) (high : bool)
  : option (View * RippleState) :=
  if isFlag (line_Flags l) (side_reserve high) then
    let id := getIssuer (mAsset (side_limit high l)) in
    match accounts v !! id with
    | None => None
    | Some _ =>
        let l := set_line_Flags l (clearFlag (line_Flags l) (side_reserve high)) in
        Some (update_line (adjustOwnerCount v id (-1)) k l, l)
    end
  else Some (v, l).

Definition removeEmptyHolding v (acct : Z) (asset : Asset) : result (TER * View) :=
  match asset with
  | AIssue issue =>
      if issue_native issue then
        match accounts v !! acct with
        | None => Ok (tecINTERNAL, v)
        | Some a =>
            let* b := xrp (acct_Balance a) in
            Ok (if b =? 0 then tesSUCCESS else tecHAS_OBLIGATIONS, v)
        end
      else
        let k := line_keylet acct (account issue) (currency issue) in
        match lines v !! k with
        | None => Ok (tecOBJECT_NOT_FOUND, v)
        | Some l =>
            let* b := iou cfg (line_Balance l) in
            if negb (iou_signum b =? 0) then Ok (tecHAS_OBLIGATIONS, v)
            else match release_side v k l false with
            | None => Ok (tecINTERNAL, v)
            | Some (v, l) =>
                match release_side v k l true with
                | None => Ok (tecINTERNAL, v)
                | Some (v, l) =>
                    trustDelete v k l (getIssuer (mAsset (line_LowLimit l)))
                      (getIssuer (mAsset (line_HighLimit l)))
                end
            end
        end
  | AMPT id =>
      match tokens v !! (id, acct) with
      | None => Ok (tecOBJECT_NOT_FOUND, v)
      | Some t =>
          if negb (tok_MPTAmount t =? 0) then Ok (tecHAS_OBLIGATIONS, v)
          else authorizeMPToken v 0 id acct tfMPTUnauthorize None
      end
  end.

End Transfers.
