(* ===== verification/Transactors.v ===== *)
(** * What transactors share

    Checks of fields ([src/xrpld/app/tx/detail/Transactor.h], [Transactor.cpp]), links
    of entries to owner directories, pseudo-accounts ([src/libxrpl/ledger/View.cpp]) and
    the direct payment of multi-purpose tokens
    ([src/xrpld/app/tx/detail/Payment.cpp]).

    ** Permissioned domains and tokens that need authorization

    [CredentialHelpers.cpp]: credentials that have expired are deleted on the way.
    [enforceMPTokenAuthorization] of [View.cpp]. *)

From S2P Require Import Prelude.
From S2P Require Import Ter.
From S2P Require Import XrplNumber.
From S2P Require Import Amounts.
From S2P Require Import Lending.
From S2P Require Import Directories.
From S2P Require Import LedgerState.
From S2P Require Import Holdings.
From S2P Require Import Transfers.
From stdpp Require Import gmap list.

Local Open Scope Z_scope.

(** ** Checks of fields *)

Definition maxDataPayloadLength : Z := 256.

Definition validDataLength (slice : option (list Z)) (maxLength : Z) : bool :=
  match slice with
  | None => true
  | Some s => negb (bool_decide (s = [])) && (Z.of_nat (length s) <=? maxLength)
  end.

Definition validNumericRange (value : option Z) (max min : Z) : bool :=
  match value with None => true | Some x => (min <=? x) && (x <=? max) end.

Definition validNumericMinimum (value : option Z) (min : Z) : bool :=
  match value with None => true | Some x => min <=? x end.

(** The instances of the templates at [Number]. *)
Definition validNumericRange_number (value : option Number) (max min : Number) : bool :=
  match value with None => true | Some x => number_geb x min && number_leb x max end.

Definition validNumericMinimum_number (value : option Number) (min : Number) : bool :=
  match value with None => true | Some x => number_geb x min end.

(** [VaultCreate::checkExtraFeatures] for a transaction without a domain. *)
Definition checkLendingProtocolDependencies (r : Rules) (hasDomain : bool) : bool :=
  featureSingleAssetVault r && featureMPTokensV1 r &&
  negb (hasDomain && negb (featurePermissionedDomains r)).

(** ** Entries *)

Section Entries.
Context `{Keylets}.
Implicit Types (v : View).

(** The entry is listed in the directory of [owner]; its node field gets the page. *)
Definition dirLink v (owner key : Z) : result (Expected Z * View) :=
  let* (page, v) := dirInsert v owner key in
  Ok (match page with None => Unexpected tecDIR_FULL | Some page => Value page end, v).

(** An owner directory exists when it has its first page. *)
Definition hasOwnerDir v (owner : Z) : bool := bool_decide (is_Some (ownerDir v owner !! 0)).

Definition maxAccountAttempts : nat := 256.

(** [n] attempts are left, [i] is the number of the next one. *)
Fixpoint free_address v (pseudoOwnerKey : Z) (n : nat) (i : Z) : Z :=
  match n with
  | O => 0
  | S n =>
      let ret := pseudo_hash i (parentHash (env v)) pseudoOwnerKey in
      match accounts v !! ret with
      | None => ret
      | Some _ => free_address v pseudoOwnerKey n (i + 1)
      end
  end.

Definition pseudoAccountAddress v (pseudoOwnerKey : Z) : Z :=
  free_address v pseudoOwnerKey maxAccountAttempts 0.

(** The field that links a pseudo-account to its owner. *)
Inductive OwnerField : Set := of_vault | of_loan_broker.

Definition pseudo_account (seqno pseudoOwnerKey : Z) (f : OwnerField) : AccountRoot :=
  mkAccount (st_drops 0) 0 (Z.lor (Z.lor lsfDisableMaster lsfDefaultRipple) lsfDepositAuth) None None
    (match f with of_vault => Some pseudoOwnerKey | of_loan_broker => None end)
    (match f with of_vault => None | of_loan_broker => Some pseudoOwnerKey end) seqno.

Definition createPseudoAccount v (pseudoOwnerKey : Z) (f : OwnerField) : Expected Z * View :=
  let accountId := pseudoAccountAddress v pseudoOwnerKey in
  if accountId =? 0 then (Unexpected tecDUPLICATE, v)
  else
    let r := rules (env v) in
    let seqno := if featureSingleAssetVault r || featureLendingProtocol r then 0 else ledgerSeq (env v) in
    (Value accountId, update_account v accountId (pseudo_account seqno pseudoOwnerKey f)).

End Entries.

(** ** Payments of tokens *)

Definition isAnyFrozen_mpt (v : View) (accts : list Z) (id : Z) : bool :=
  isGlobalFrozen_mpt v id ||
  existsb (fun a => isIndividualFrozen_mpt v a id) accts ||
  existsb (fun a => isVaultPseudoAccountFrozen v maxAssetCheckDepth a id) accts.

(** Without credentials in the transaction. *)
Definition verifyDepositPreauth (v : View) (src dst : Z) (sleDst : option AccountRoot) : TER :=
  match sleDst with
  | None => tesSUCCESS
  | Some a =>
      if hasFlag (acct_Flags a) lsfDepositAuth && negb (src =? dst) &&
         negb (bool_decide ((dst, src) ∈ preauths (env v)))
      then tecNO_PERMISSION else tesSUCCESS
  end.

Section Payment.
Context `{Keylets} (cfg : Settings).
Implicit Types (v : View).

(** A holding for an account that may have one already. *)
Definition ensure_holding v (acct : Z) (asset : Asset) : result (TER * View) :=
  match accounts v !! acct with
  | None => Throw logic_error
  | Some a =>
      let* balance := xrp (acct_Balance a) in
      let* (ter, v) := addEmptyHolding cfg v acct balance asset in
      Ok (match ter with tecDUPLICATE => tesSUCCESS | _ => ter end, v)
  end.

(** Without [SendMax]. *)
Definition getMaxSourceAmount (senderAccount : Z) (dstAmount : STAmount) : result STAmount :=
  match mAsset dstAmount with
  | AMPT _ => Ok dstAmount
  | AIssue i =>
      if issue_native i then Ok dstAmount
      else st_make cfg (AIssue (mkIssue (currency i) senderAccount)) (mValue dstAmount)
             (mOffset dstAmount) (st_signum dstAmount <? 0)
  end.

(** Without partial payment and minimum delivery; the view of a payment that fails is
    discarded. *)
Definition makeMPTDirectPayment v (src dst : Z) (sleDst : option AccountRoot)
    (dstAmount maxSourceAmount : STAmount) (id : Z) : result (TER * View) :=
  let auth := requireAuth_mpt v maxAssetCheckDepth id src Legacy in
  if negb (isTesSuccess auth) then Ok (auth, v)
  else
    let auth := requireAuth_mpt v maxAssetCheckDepth id dst Legacy in
    if negb (isTesSuccess auth) then Ok (auth, v)
    else
      let transfer := canTransfer v id src dst in
      if negb (isTesSuccess transfer) then Ok (transfer, v)
      else
        let preauth := verifyDepositPreauth v src dst sleDst in
        if negb (isTesSuccess preauth) then Ok (preauth, v)
        else
          let issuer := mptIssuer id in
          let between := negb (src =? issuer) && negb (dst =? issuer) in
          if between && isAnyFrozen_mpt v [src; dst] id then Ok (tecLOCKED, v)
          else
            let rate := if between then transferRate_mpt v id else parityRate in
            let* required := multiply_rate cfg dstAmount rate in
            let* exceeds := st_ltb maxSourceAmount required in
            if exceeds then Ok (tecPATH_PARTIAL, v)
            else
              let* (res, pv) := accountSend cfg v src dst dstAmount NoWaive in
              Ok (match res with
                  | tesSUCCESS => (tesSUCCESS, pv)
                  | tecINSUFFICIENT_FUNDS | tecPATH_DRY => (tecPATH_PARTIAL, v)
                  | _ => (res, v)
                  end).

End Payment.

(** ** Permissioned domains and tokens that need authorization *)

Local Open Scope Z_scope.
Local Open Scope xrpl_scope.

Definition set_credentials (v : View) (c : gmap (Z * Z * Z) Credential) : View :=
  let e := env v in
  mkLedger
    (mkEnv (rules e) (fees e) (is_open e) (parentCloseTime e) (closeTime e) (parentHash e) (ledgerSeq e) (amms e)
       (domains e) c (preauths e))
    (accounts v) (lines v) (issuances v) (tokens v) (ownerDirs v) (vaults v) (brokers v) (loans v) (peeked v).

Section Domains.
Context `{Keylets}.
Implicit Types (v : View).

(** The lambda [delSLE] of [deleteSLE]. *)
Definition unlink_credential v (k : Z * Z * Z) (acct page : Z) (isOwner : bool) : result (TER * View) :=
  match accounts v !! acct with
  | None => Ok (tecINTERNAL, v)
  | Some _ =>
      let* (found, v) := ownerDirRemove v acct page (credential_key k) in
      if negb found then Ok (tefBAD_LEDGER, v)
      else Ok (tesSUCCESS, if isOwner then adjustOwnerCount v acct (-1) else v)
  end.

Definition deleteSLE v (k : Z * Z * Z) : result (TER * View) :=
  match credentials (env v) !! k with
  | None => Ok (tecNO_ENTRY, v)
  | Some c =>
      let '(subject, issuer, _) := k in
      let accepted := hasFlag (cred_Flags c) lsfAccepted in
      let? v := unlink_credential v k issuer (cred_IssuerNode c) (negb accepted || (subject =? issuer)) in
      let? v := if subject =? issuer then Ok (tesSUCCESS, v)
                else unlink_credential v k subject (cred_SubjectNode c) accepted in
      Ok (tesSUCCESS, set_credentials v (delete k (credentials (env v))))
  end.

(** The code of [deleteSLE] is dropped. *)
Fixpoint removeExpired v (arr : list (Z * Z * Z)) : result (bool * View) :=
  match arr with
  | [] => Ok (false, v)
  | k :: arr =>
      match credentials (env v) !! k with
      | Some c =>
          if checkExpired c (parentCloseTime (env v)) then
            let* (_, v) := deleteSLE v k in
            let* (_, v) := removeExpired v arr in
            Ok (true, v)
          else removeExpired v arr
      | None => removeExpired v arr
      end
  end.

(** The credentials of [acct] that the domain accepts. *)
Definition matching v (acct : Z) (l : list (Z * Z)) : list (Z * Z * Z) :=
  filter (fun k => is_Some (credentials (env v) !! k)) ((fun p => (acct, p.1, p.2)) <$> l).

Definition verifyValidDomain v (acct domainID : Z) : result (TER * View) :=
  match domains (env v) !! domainID with
  | None => Ok (tecOBJECT_NOT_FOUND, v)
  | Some l =>
      let creds := matching v acct l in
      let* (foundExpired, v) := removeExpired v creds in
      let accepted := existsb (fun k => match credentials (env v) !! k with
                                        | Some c => hasFlag (cred_Flags c) lsfAccepted
                                        | None => false
                                        end) creds in
      Ok (if accepted then tesSUCCESS else if foundExpired then tecEXPIRED else tecNO_PERMISSION, v)
  end.

Definition enforceMPTokenAuthorization v (id acct priorBalance : Z) : result (TER * View) :=
  match issuances v !! id with
  | None => Ok (tefINTERNAL, v)
  | Some issuance =>
      if acct =? iss_Issuer issuance then Ok (tefINTERNAL, v)
      else
        let token := tokens v !! (id, acct) in
        let* (ter, v) := match iss_DomainID issuance with
                         | None => Ok (tecNO_AUTH, v)
                         | Some domainID => verifyValidDomain v acct domainID
                         end in
        let authorizedByDomain := isTesSuccess ter in
        let refused := match iss_DomainID issuance, ter with
                       | Some _, tecEXPIRED => tecEXPIRED
                       | _, _ => tecNO_AUTH
                       end in
        match token with
        | None => if authorizedByDomain then authorizeMPToken v priorBalance id acct 0 None else Ok (refused, v)
        | Some t =>
            if authorizedByDomain then Ok (tesSUCCESS, v)
            else if bool_decide (is_Some (iss_DomainID issuance)) then Ok (refused, v)
            else Ok (if isFlag (tok_Flags t) lsfMPTAuthorized then tesSUCCESS else tecNO_AUTH, v)
        end
  end.

End Domains.
