(* ===== verification/TransfersFrame.v ===== *)
(** * What transfers leave alone

    The transfer functions change accounts, trust lines, tokens, issuances and owner
    directories.  The environment, the vaults, the brokers and the loans stay. *)

From S2P Require Import Prelude.
From S2P Require Import Ter.
From S2P Require Import XrplNumber.
From S2P Require Import Amounts.
From S2P Require Import Lending.
From S2P Require Import Directories.
From S2P Require Import LedgerState.
From S2P Require Import Holdings.
From S2P Require Import Transfers.
From S2P Require Import Transactors.
From stdpp Require Import gmap list.

Local Open Scope Z_scope.

Definition frame (v : View) : Env * gmap Z Vault * gmap Z LoanBroker * gmap Z LoanEntry :=
  (env v, vaults v, brokers v, loans v).

Create Rewrite HintDb frame.

(** Follows a successful computation to its end, branch by branch. *)
Ltac follow H :=
  unfold and_then in H;
  repeat match type of H with
  | Ok _ = Ok _ => first [discriminate H | injection H; clear H; intros; subst]
  | Throw _ = Ok _ => discriminate H
  | bind _ _ = Ok _ =>
      apply bind_ok in H;
      let a := fresh "a" in let E := fresh "E" in destruct H as (a & E & H);
      try match type of a with
          | (_ * _ * _)%type => destruct a as [[? ?] ?]
          | (_ * _)%type => destruct a as [? ?]
          end
  | (if ?b then _ else _) = _ => destruct b
  | match ?x with _ => _ end = _ => destruct x
  end.

(** ** Codes *)

Lemma isTesSuccess_eq t : isTesSuccess t = true -> t = tesSUCCESS.
Proof. by destruct t. Qed.

Lemma failed_code t : isTesSuccess t = false -> t <> tesSUCCESS.
Proof. by intros E ->. Qed.

(** A sequence that succeeds is two computations that do. *)
Lemma and_then_ok (m : result (TER * View)) k v' :
  and_then m k = Ok (tesSUCCESS, v') -> exists w, m = Ok (tesSUCCESS, w) /\ k w = Ok (tesSUCCESS, v').
Proof.
  unfold and_then. intros ([t w] & Em & Hk)%bind_ok. exists w.
  destruct (isTesSuccess t) eqn:Et; [|apply failed_code in Et; congruence].
  apply isTesSuccess_eq in Et. by subst.
Qed.

(** ** Frames *)

Lemma frame_parts v v' :
  frame v' = frame v -> vaults v' = vaults v /\ brokers v' = brokers v /\ loans v' = loans v.
Proof. unfold frame. intros E. splits; congruence. Qed.

Section Frame.
Context `{Keylets} (cfg : Settings).
Implicit Types (v : View).

Lemma frame_account v k a : frame (update_account v k a) = frame v.
Proof. done. Qed.
Lemma frame_line v k l : frame (update_line v k l) = frame v.
Proof. done. Qed.
Lemma frame_lines v l : frame (set_lines v l) = frame v.
Proof. done. Qed.
Lemma frame_issuance v k i : frame (update_issuance v k i) = frame v.
Proof. done. Qed.
Lemma frame_token v k t : frame (update_token v k t) = frame v.
Proof. done. Qed.
Lemma frame_tokens v t : frame (set_tokens v t) = frame v.
Proof. done. Qed.
Lemma frame_dirs v d : frame (set_ownerDirs v d) = frame v.
Proof. done. Qed.
Lemma frame_peek v id : frame (peek_issuance v id) = frame v.
Proof. unfold peek_issuance. by destruct (issuances v !! id). Qed.
Lemma frame_count v id adj : frame (adjustOwnerCount v id adj) = frame v.
Proof. unfold adjustOwnerCount. by destruct (accounts v !! id). Qed.

End Frame.

#[export] Hint Rewrite @frame_account @frame_line @frame_lines @frame_issuance @frame_token
  @frame_tokens @frame_dirs @frame_peek @frame_count : frame.

(** Closes a goal about the frame from what the calls did to it. *)
Ltac frame_done := autorewrite with frame in *; congruence.

Section Frames.
Context `{Keylets} (cfg : Settings).
Implicit Types (v : View).

Lemma dirInsert_frame v o key r v' : dirInsert v o key = Ok (r, v') -> frame v' = frame v.
Proof. unfold dirInsert. intros Hr. follow Hr. frame_done. Qed.
Lemma ownerDirRemove_frame v o p key r v' : ownerDirRemove v o p key = Ok (r, v') -> frame v' = frame v.
Proof. unfold ownerDirRemove. intros Hr. follow Hr. frame_done. Qed.

Lemma trustDelete_frame v k l low high ter v' :
  trustDelete v k l low high = Ok (ter, v') -> frame v' = frame v.
Proof.
  unfold trustDelete. intros Hr. follow Hr;
    repeat match goal with E : ownerDirRemove _ _ _ _ = _ |- _ => apply ownerDirRemove_frame in E end;
    frame_done.
Qed.

Lemma trustCreate_frame v b src dst k acct b1 b2 b3 b4 bal lim q1 q2 ter v' :
  trustCreate cfg v b src dst k acct b1 b2 b3 b4 bal lim q1 q2 = Ok (ter, v') -> frame v' = frame v.
Proof.
  unfold trustCreate. intros Hr. follow Hr;
    repeat match goal with E : dirInsert _ _ _ = _ |- _ => apply dirInsert_frame in E end;
    frame_done.
Qed.

Lemma rippleCreditIOU_frame v s r amount ter v' :
  rippleCreditIOU cfg v s r amount = Ok (ter, v') -> frame v' = frame v.
Proof.
  unfold rippleCreditIOU. intros Hr. apply bind_ok in Hr as (c & _ & Hr).
  destruct (lines v !! _) as [l|].
  - apply bind_ok in Hr as (b & _ & Hr). apply bind_ok in Hr as (cleared & _ & Hr).
    assert (frame (if cleared then adjustOwnerCount v s (-1) else v) = frame v) as E
      by (destruct cleared; frame_done).
    destruct (_ && negb _); [|by injection Hr as _ <-].
    apply trustDelete_frame in Hr. by rewrite Hr.
  - follow Hr; [|done]. by apply trustCreate_frame in Hr.
Qed.

Lemma rippleSendIOU_frame v s r amount fee ter v' :
  rippleSendIOU cfg v s r amount fee = Ok (ter, v') -> frame v' = frame v.
Proof.
  unfold rippleSendIOU. intros Hr. follow Hr;
    repeat match goal with E : rippleCreditIOU _ _ _ _ _ = _ |- _ => apply rippleCreditIOU_frame in E end;
    frame_done.
Qed.

Lemma debit_mpt_frame v id iss s pay : frame (debit_mpt v id iss s pay).2 = frame v.
Proof.
  unfold debit_mpt. destruct (s =? mptIssuer id); [done|]. destruct (tokens v !! (id, s)); [|done].
  by destruct (_ <? _).
Qed.
Lemma credit_mpt_frame v id r pay : frame (credit_mpt v id r pay).2 = frame v.
Proof.
  unfold credit_mpt. destruct (r =? mptIssuer id).
  - destruct (issuances v !! id); [|done]. by destruct (_ <=? _).
  - by destruct (tokens v !! (id, r)).
Qed.

Lemma rippleCreditMPT_frame v s r amount ter v' :
  rippleCreditMPT v s r amount = Ok (ter, v') -> frame v' = frame v.
Proof.
  unfold rippleCreditMPT. intros Hr. apply bind_ok in Hr as (id & _ & Hr).
  destruct (issuances v !! id) as [iss|]; [|congruence]. apply bind_ok in Hr as (pay & _ & Hr).
  pose proof (debit_mpt_frame (peek_issuance v id) id iss s pay) as E1. rewrite frame_peek in E1.
  unfold and_then in Hr. destruct (debit_mpt _ _ _ _ _) as [ter1 v1]. simpl in E1, Hr.
  pose proof (credit_mpt_frame v1 id r pay) as E2.
  destruct (credit_mpt v1 id r pay) as [ter2 v2]. simpl in E2.
  destruct (isTesSuccess ter1); congruence.
Qed.

End Frames.

(** The calls made on the way, down to what they do to the frame. *)
Ltac frame_calls :=
  repeat match goal with
  | E : rippleCreditIOU _ _ _ _ _ = _ |- _ => apply rippleCreditIOU_frame in E
  | E : rippleCreditMPT _ _ _ _ = _ |- _ => apply rippleCreditMPT_frame in E
  | E : rippleSendIOU _ _ _ _ _ _ = _ |- _ => apply rippleSendIOU_frame in E
  | E : trustCreate _ _ _ _ _ _ _ _ _ _ _ _ _ _ _ = _ |- _ => apply trustCreate_frame in E
  | E : trustDelete _ _ _ _ _ = _ |- _ => apply trustDelete_frame in E
  | E : dirInsert _ _ _ = _ |- _ => apply dirInsert_frame in E
  | E : ownerDirRemove _ _ _ _ = _ |- _ => apply ownerDirRemove_frame in E
  end;
  frame_done.

Section Sends.
Context `{Keylets} (cfg : Settings).
Implicit Types (v : View).

Lemma accountSend_frame v s r amount fee ter v' :
  accountSend cfg v s r amount fee = Ok (ter, v') -> frame v' = frame v.
Proof.
  unfold accountSend, accountSendIOU, accountSendMPT, rippleSendMPT. intros Hr.
  destruct (mAsset amount) as [i|id]; follow Hr; try frame_calls.
  all: repeat match goal with E : _ = Ok (_, _) |- _ => follow E end; frame_calls.
Qed.

Lemma send_each_iou_frame v s asset qs fee t a ter v' t' :
  send_each_iou cfg v s asset qs fee t a = Ok (ter, v', t') -> frame v' = frame v.
Proof.
  revert v t a. induction qs as [|[r x] qs IH]; intros v t a Hr; simpl in Hr; [congruence|].
  follow Hr; try (apply IH in Hr); frame_calls.
Qed.

Lemma send_each_xrp_frame v s asset qs t ter v' t' :
  send_each_xrp cfg v s asset qs t = Ok (ter, v', t') -> frame v' = frame v.
Proof.
  revert v t. induction qs as [|[r x] qs IH]; intros v t Hr; simpl in Hr; [congruence|].
  apply bind_ok in Hr as (amount & _ & Hr). apply bind_ok in Hr as (t1 & _ & Hr).
  destruct (_ && _); [congruence|]. destruct (_ || _); [by apply IH in Hr|].
  apply bind_ok in Hr as (v1 & E & Hr). apply IH in Hr. rewrite Hr. follow E; frame_calls.
Qed.

Lemma send_each_mpt_frame v s asset id stale qs fee t a ter v' t' :
  send_each_mpt cfg v s asset id stale qs fee t a = Ok (ter, v', t') -> frame v' = frame v.
Proof.
  revert v t a. induction qs as [|[r x] qs IH]; intros v t a Hr; simpl in Hr; [congruence|].
  follow Hr; try (apply IH in Hr); frame_calls.
Qed.

Lemma accountSendMulti_frame v s asset qs fee ter v' :
  accountSendMulti cfg v s asset qs fee = Ok (ter, v') -> frame v' = frame v.
Proof.
  unfold accountSendMulti, accountSendMultiIOU, rippleSendMultiIOU, rippleSendMultiMPT. intros Hr.
  destruct asset; follow Hr;
    repeat match goal with
    | E : send_each_iou _ _ _ _ _ _ _ _ = _ |- _ => apply send_each_iou_frame in E
    | E : send_each_xrp _ _ _ _ _ _ = _ |- _ => apply send_each_xrp_frame in E
    | E : send_each_mpt _ _ _ _ _ _ _ _ _ _ = _ |- _ => apply send_each_mpt_frame in E
    end; frame_calls.
Qed.

Lemma addEmptyHolding_frame v acct prior asset ter v' :
  addEmptyHolding cfg v acct prior asset = Ok (ter, v') -> frame v' = frame v.
Proof.
  unfold addEmptyHolding, authorizeMPToken. intros Hr. destruct asset; follow Hr; frame_calls.
Qed.

Lemma release_side_frame v k l high v' l' : release_side v k l high = Some (v', l') -> frame v' = frame v.
Proof.
  unfold release_side. destruct (isFlag _ _); [|congruence]. destruct (accounts v !! _); [|done].
  intros [= <- <-]. by rewrite frame_line, frame_count.
Qed.

Lemma removeEmptyHolding_frame v acct asset ter v' :
  removeEmptyHolding cfg v acct asset = Ok (ter, v') -> frame v' = frame v.
Proof.
  unfold removeEmptyHolding, authorizeMPToken. intros Hr. destruct asset as [i|id]; [|follow Hr; frame_calls].
  destruct (issue_native i); [follow Hr; done|]. destruct (lines v !! _) as [l|]; [|congruence].
  apply bind_ok in Hr as (b & _ & Hr). destruct (negb _); [congruence|].
  destruct (release_side v _ l false) as [[v1 l1]|] eqn:E1; [|congruence].
  apply release_side_frame in E1.
  destruct (release_side v1 _ l1 true) as [[v2 l2]|] eqn:E2; [|congruence].
  apply release_side_frame in E2. apply trustDelete_frame in Hr. congruence.
Qed.

(** A link to a directory changes directories only. *)
Lemma dirLink_dirs v owner key r v' : dirLink v owner key = Ok (r, v') -> exists d, v' = set_ownerDirs v d.
Proof.
  unfold dirLink, dirInsert. intros ([page w] & E & Hr)%bind_ok. injection Hr as _ <-.
  apply bind_ok in E as ([p d] & _ & E). injection E as _ <-. by eexists.
Qed.

Lemma dirLink_frame v owner key r v' : dirLink v owner key = Ok (r, v') -> frame v' = frame v.
Proof. by intros (d & ->)%dirLink_dirs. Qed.

Lemma dirLink_full v owner key t v' : dirLink v owner key = Ok (Unexpected t, v') -> t = tecDIR_FULL.
Proof. unfold dirLink. intros ([[page|] w] & _ & Hr)%bind_ok; congruence. Qed.

Lemma ensure_holding_frame v acct asset ter v' :
  ensure_holding cfg v acct asset = Ok (ter, v') -> frame v' = frame v.
Proof.
  unfold ensure_holding. destruct (accounts v !! acct); [|done]. intros (bal & _ & Hr)%bind_ok.
  apply bind_ok in Hr as ([t w] & E%addEmptyHolding_frame & Hr). by injection Hr as _ <-.
Qed.

End Sends.
