(* ===== verification/TransfersMPT.v ===== *)
(** * Theory of token transfers

    Sums over finite maps first.

    A balance of a multi-purpose token is what a holder's token says, and for the
    issuer minus the outstanding amount.  Every transfer is a list of shifts of such
    balances. *)

From S2P Require Import Prelude.
From S2P Require Import Ter.
From S2P Require Import XrplNumber.
From S2P Require Import Amounts.
From S2P Require Import AmountsFacts.
From S2P Require Import AmountsRound.
From S2P Require Import AmountsWhole.
From S2P Require Import Lending.
From S2P Require Import LedgerState.
From S2P Require Import Holdings.
From S2P Require Import Transfers.
From S2P Require Import TransfersFrame.
From stdpp Require Import gmap list.

Local Open Scope Z_scope.

Section MapSums.
Context `{Countable K} {A : Type} (f : K -> A -> Z).
Implicit Types (m : gmap K A).

Definition msum m : Z := map_fold (fun k x s => f k x + s) 0 m.

Lemma msum_empty : msum ∅ = 0.
Proof. apply map_fold_empty. Qed.

Lemma msum_insert_new m k x : m !! k = None -> msum (<[k := x]> m) = f k x + msum m.
Proof.
  intros Hk. unfold msum. rewrite map_fold_insert_L; [done|intros; lia|done].
Qed.

Lemma msum_delete m k x : m !! k = Some x -> msum (delete k m) = msum m - f k x.
Proof.
  intros Hk. rewrite <- (insert_delete_id m k x Hk) at 2.
  rewrite msum_insert_new by apply lookup_delete_eq. lia.
Qed.

Lemma msum_update m k x y :
  m !! k = Some x -> msum (<[k := y]> m) = msum m - f k x + f k y.
Proof.
  intros Hk. rewrite <- insert_delete_eq, msum_insert_new by apply lookup_delete_eq.
  rewrite (msum_delete m k x Hk). lia.
Qed.

Lemma msum_nonneg m : (forall k x, m !! k = Some x -> 0 <= f k x) -> 0 <= msum m.
Proof.
  induction m as [|k x m Hk IH] using map_ind; intros Hm; [by rewrite msum_empty|].
  rewrite msum_insert_new by done.
  assert (0 <= f k x) by (apply Hm, lookup_insert_eq).
  assert (0 <= msum m); [|lia]. apply IH. intros k' x' Hx. apply (Hm k').
  rewrite lookup_insert_ne; [done|]. congruence.
Qed.

(** Terms that are not negative are bounded by the sum. *)
Lemma msum_term m k x :
  (forall k x, m !! k = Some x -> 0 <= f k x) -> m !! k = Some x -> f k x <= msum m.
Proof.
  intros Hm Hk. pose proof (msum_delete m k x Hk).
  assert (0 <= msum (delete k m)); [|lia]. apply msum_nonneg. intros k' x' Hx.
  apply lookup_delete_Some in Hx as [_ Hx]. eauto.
Qed.

End MapSums.

Section MapSums2.
Context `{Countable K} {A : Type}.
Implicit Types (m : gmap K A).

Lemma msum_le (f g : K -> A -> Z) m :
  (forall k x, m !! k = Some x -> f k x <= g k x) -> msum f m <= msum g m.
Proof.
  induction m as [|k x m Hk IH] using map_ind; intros Hm; [by rewrite !msum_empty|].
  rewrite !msum_insert_new by done.
  assert (f k x <= g k x) by (apply Hm, lookup_insert_eq).
  assert (msum f m <= msum g m); [|lia]. apply IH. intros k' x' Hx. apply Hm.
  rewrite lookup_insert_ne; [done|]. intros ->. congruence.
Qed.

Lemma msum_ext (f g : K -> A -> Z) m :
  (forall k x, m !! k = Some x -> f k x = g k x) -> msum f m = msum g m.
Proof.
  intros Hm. assert (msum f m <= msum g m); [|assert (msum g m <= msum f m); [|lia]].
  - apply msum_le. intros k x Hx. rewrite (Hm k x Hx). lia.
  - apply msum_le. intros k x Hx. rewrite (Hm k x Hx). lia.
Qed.

(** A sum after one entry has changed, appeared or gone. *)
Lemma msum_altered (f g : K -> A -> Z) m k (o : option A) :
  (forall k' z, f k' z = g k' z) ->
  msum g (partial_alter (fun _ => o) k m) =
  msum f m - from_option (f k) 0 (m !! k) + from_option (f k) 0 o.
Proof.
  intros E. rewrite (msum_ext g f) by (intros; by rewrite E).
  destruct (m !! k) as [x|] eqn:Hk, o as [y|]; simpl.
  - change (partial_alter _ k m) with (<[k := y]> m). by rewrite (msum_update f m k x y Hk).
  - change (partial_alter _ k m) with (delete k m). rewrite (msum_delete f m k x Hk). lia.
  - change (partial_alter _ k m) with (<[k := y]> m). rewrite msum_insert_new by done. lia.
  - change (partial_alter _ k m) with (delete k m). rewrite delete_id by done. lia.
Qed.

End MapSums2.

(** ** Theory of token transfers *)

Local Open Scope Z_scope.

(** ** Balances *)

Definition mpt_amount (id a : Z) : STAmount := st_whole (AMPT id) a.

Definition outstanding (v : View) (id : Z) : Z :=
  match issuances v !! id with Some i => iss_OutstandingAmount i | None => 0 end.

Definition holding (v : View) (id x : Z) : Z :=
  match tokens v !! (id, x) with Some t => tok_MPTAmount t | None => 0 end.

Definition mpt_balance (v : View) (id x : Z) : Z :=
  if x =? mptIssuer id then - outstanding v id else holding v id x.

Definition holder (v : View) (id x : Z) : bool :=
  (x =? mptIssuer id) || bool_decide (is_Some (tokens v !! (id, x))).

(** What all holders have together. *)
Definition held (v : View) (id : Z) : Z :=
  msum (fun k t => if k.1 =? id then tok_MPTAmount t else 0) (tokens v).

(** The books of a token balance, and no more than [B] is outstanding. *)
Record books (v : View) (id B : Z) : Prop := {
  bk_issuance : is_Some (issuances v !! id);
  bk_outstanding : outstanding v id = held v id;
  bk_bound : outstanding v id <= B;
  bk_tokens : forall k t, tokens v !! k = Some t -> 0 <= tok_MPTAmount t }.

Definition maximum_of (v : View) (id : Z) : Z :=
  match issuances v !! id with Some i => maximum i | None => 0 end.

(** ** Shifts *)

Definition shift (v : View) (id x d : Z) : View :=
  if x =? mptIssuer id then
    match issuances v !! id with
    | Some i => update_issuance v id (set_iss_Outstanding i (iss_OutstandingAmount i - d))
    | None => v
    end
  else match tokens v !! (id, x) with
  | Some t => update_token v (id, x) (set_tok_MPTAmount t (tok_MPTAmount t + d))
  | None => v
  end.

Definition shifts (v : View) (id : Z) (l : list (Z * Z)) : View :=
  fold_left (fun v p => shift v id p.1 p.2) l v.

(** What the shifts of [l] give to [x]. *)
Definition gain (l : list (Z * Z)) (x : Z) : Z :=
  fold_right (fun p s => (if p.1 =? x then p.2 else 0) + s) 0 l.

Definition net (l : list (Z * Z)) : Z := fold_right (fun p s => p.2 + s) 0 l.

Section Shifts.
Implicit Types (v : View).

Lemma shift_balance v id x d y :
  is_Some (issuances v !! id) -> holder v id x = true ->
  mpt_balance (shift v id x d) id y = mpt_balance v id y + (if x =? y then d else 0).
Proof.
  intros [i Hi] Hx. unfold mpt_balance, shift, holder in *.
  destruct (x =? mptIssuer id) eqn:E; zbool.
  - subst x. rewrite Hi. destruct (y =? mptIssuer id) eqn:Ey; zbool.
    + subst y. rewrite Z.eqb_refl. unfold outstanding. simpl. rewrite lookup_insert_eq, Hi. simpl. lia.
    + destruct (mptIssuer id =? y) eqn:E'; zbool; [lia|]. unfold holding. simpl. lia.
  - simpl in Hx. apply bool_decide_eq_true in Hx as [t Ht]. rewrite Ht.
    destruct (y =? mptIssuer id) eqn:Ey; zbool.
    + destruct (x =? y) eqn:E'; zbool; [lia|]. unfold outstanding. simpl. lia.
    + unfold holding. simpl. destruct (x =? y) eqn:E'; zbool.
      * subst y. rewrite lookup_insert_eq, Ht. done.
      * rewrite lookup_insert_ne by congruence. lia.
Qed.

Lemma shift_issuance v id x d i :
  issuances v !! id = Some i ->
  issuances (shift v id x d) !! id =
  Some (set_iss_Outstanding i (iss_OutstandingAmount i - if x =? mptIssuer id then d else 0)).
Proof.
  intros Hi. unfold shift. rewrite Hi. destruct (x =? mptIssuer id).
  - simpl. by rewrite lookup_insert_eq.
  - rewrite Z.sub_0_r. destruct (tokens v !! (id, x)); simpl; rewrite Hi; by destruct i.
Qed.

Lemma shift_holder v id x d y : holder (shift v id x d) id y = holder v id y.
Proof.
  unfold holder, shift. destruct (x =? mptIssuer id).
  - by destruct (issuances v !! id).
  - destruct (tokens v !! (id, x)) as [t|] eqn:Ht; [|done]. f_equal. simpl.
    apply bool_decide_ext. rewrite lookup_insert_is_Some. split; [|by destruct (decide ((id, x) = (id, y))); auto].
    intros [E|[_ ?]]; [|done]. injection E as <-. by rewrite Ht.
Qed.

(** The holdings minus the outstanding amount. *)
Lemma shift_excess v id x d :
  is_Some (issuances v !! id) -> holder v id x = true ->
  held (shift v id x d) id - outstanding (shift v id x d) id = held v id - outstanding v id + d.
Proof.
  intros [i Hi] Hx. unfold shift, holder in *. destruct (x =? mptIssuer id) eqn:E.
  - rewrite Hi. unfold held, outstanding. simpl. rewrite lookup_insert_eq, Hi. simpl. lia.
  - simpl in Hx. apply bool_decide_eq_true in Hx as [t Ht]. rewrite Ht.
    unfold held, outstanding. simpl. rewrite (msum_update _ _ _ t) by done. simpl.
    rewrite Z.eqb_refl. lia.
Qed.

Lemma shifts_cons v id p l : shifts v id (p :: l) = shifts (shift v id p.1 p.2) id l.
Proof. done. Qed.

Lemma shifts_app v id l l' : shifts v id (l ++ l') = shifts (shifts v id l) id l'.
Proof. apply fold_left_app. Qed.

Lemma shifts_issuance v id l i :
  issuances v !! id = Some i ->
  exists o, issuances (shifts v id l) !! id = Some (set_iss_Outstanding i o).
Proof.
  revert v i. induction l as [|p l IH]; intros v i Hi; [by exists (iss_OutstandingAmount i); destruct i|].
  rewrite shifts_cons. pose proof (shift_issuance v id p.1 p.2 i Hi) as Ho.
  destruct (IH _ _ Ho) as [o' Ho']. by exists o'.
Qed.

Lemma shifts_holder v id l y : holder (shifts v id l) id y = holder v id y.
Proof.
  revert v. induction l as [|p l IH]; intros v; [done|]. rewrite shifts_cons, IH. apply shift_holder.
Qed.

Lemma shifts_balance v id l y :
  is_Some (issuances v !! id) -> (forall p, p ∈ l -> holder v id p.1 = true) ->
  mpt_balance (shifts v id l) id y = mpt_balance v id y + gain l y.
Proof.
  revert v. induction l as [|p l IH]; intros v [i Hi] Hl; [simpl; lia|].
  rewrite shifts_cons. pose proof (shift_issuance v id p.1 p.2 i Hi) as Ho.
  rewrite IH, shift_balance; [simpl; lia|by eexists|apply Hl; left|by eexists|].
  intros q Hq. rewrite shift_holder. apply Hl. by right.
Qed.

Lemma shifts_excess v id l :
  is_Some (issuances v !! id) -> (forall p, p ∈ l -> holder v id p.1 = true) ->
  held (shifts v id l) id - outstanding (shifts v id l) id =
  held v id - outstanding v id + net l.
Proof.
  revert v. induction l as [|p l IH]; intros v [i Hi] Hl; [simpl; lia|].
  rewrite shifts_cons. pose proof (shift_issuance v id p.1 p.2 i Hi) as Ho.
  rewrite IH, shift_excess; [simpl; lia|by eexists|apply Hl; left|by eexists|].
  intros q Hq. rewrite shift_holder. apply Hl. by right.
Qed.

End Shifts.

(** ** The code of a transfer *)

(** Whether [s] can pay [a]. *)
Definition debit_code (v : View) (id s a : Z) : TER :=
  if s =? mptIssuer id then tesSUCCESS
  else match tokens v !! (id, s) with
  | None => tecNO_AUTH
  | Some t => if tok_MPTAmount t <? a then tecINSUFFICIENT_FUNDS else tesSUCCESS
  end.

Definition credit_code (v : View) (id r : Z) : TER :=
  if holder v id r then tesSUCCESS else tecNO_AUTH.

(** The first code that is not success. *)
Definition first_code (c d : TER) : TER := if isTesSuccess c then d else c.

(** The code of a direct transfer with the fee waived. *)
Definition mpt_send_code (v : View) (id s r a : Z) : TER :=
  if (a =? 0) || (s =? r) then tesSUCCESS
  else match issuances v !! id with
  | None => tecOBJECT_NOT_FOUND
  | Some i =>
      if s =? mptIssuer id then
        if maximum i <? iss_OutstandingAmount i + a then tecPATH_DRY else credit_code v id r
      else first_code (credit_code v id r) (debit_code v id s a)
  end.

Lemma first_code_l c : first_code c tesSUCCESS = c.
Proof. by destruct c. Qed.

Section Credits.
Implicit Types (v : View).

Lemma mpt_of_amount id a : 0 <= a <= maxMPTokenAmount -> mpt (mpt_amount id a) = Ok a.
Proof.
  unfold maxMPTokenAmount. intros Ha. unfold mpt, mpt_amount. by rewrite signed_value_whole by lia.
Qed.

Lemma debit_mpt_shift v id s a i :
  issuances v !! id = Some i -> 0 <= a <= maxMPTokenAmount ->
  (s = mptIssuer id -> 0 <= iss_OutstandingAmount i /\ iss_OutstandingAmount i + a < 2 ^ 64) ->
  (forall t, tokens v !! (id, s) = Some t -> 0 <= tok_MPTAmount t < 2 ^ 64) ->
  debit_mpt v id i s a =
  (debit_code v id s a, if isTesSuccess (debit_code v id s a) then shift v id s (- a) else v).
Proof.
  unfold debit_mpt, debit_code, shift, maxMPTokenAmount. intros Hi Ha Ho Ht.
  destruct (s =? mptIssuer id) eqn:E; zbool.
  - rewrite Hi. simpl. rewrite u64_id by (specialize (Ho E); lia). do 3 f_equal. lia.
  - destruct (tokens v !! (id, s)) as [t|] eqn:Et; [|done]. specialize (Ht t eq_refl).
    rewrite (u64_id a) by lia. destruct (tok_MPTAmount t <? a) eqn:El; [done|]. zbool. simpl.
    rewrite u64_id by lia. do 3 f_equal.
Qed.

Lemma credit_mpt_shift v id r a i :
  issuances v !! id = Some i -> 0 <= a <= maxMPTokenAmount ->
  (r = mptIssuer id -> a <= iss_OutstandingAmount i < 2 ^ 64) ->
  (forall t, tokens v !! (id, r) = Some t -> r <> mptIssuer id ->
   0 <= tok_MPTAmount t /\ tok_MPTAmount t + a < 2 ^ 64) ->
  credit_mpt v id r a =
  (credit_code v id r, if isTesSuccess (credit_code v id r) then shift v id r a else v).
Proof.
  unfold credit_mpt, credit_code, holder, shift, maxMPTokenAmount. intros Hi Ha Ho Ht.
  destruct (r =? mptIssuer id) eqn:E; zbool.
  - rewrite Hi. specialize (Ho E). rewrite (u64_id a) by lia.
    destruct (a <=? iss_OutstandingAmount i) eqn:El; zbool; [|lia]. simpl.
    rewrite u64_id by lia. done.
  - destruct (tokens v !! (id, r)) as [t|] eqn:Et; [|done]. specialize (Ht t eq_refl E). simpl.
    rewrite u64_id by lia. done.
Qed.

Lemma shift_peeked v id x d p : shift (set_peeked v p) id x d = set_peeked (shift v id x d) p.
Proof.
  unfold shift. destruct (x =? mptIssuer id); simpl.
  - by destruct (issuances v !! id).
  - by destruct (tokens v !! (id, x)).
Qed.

Lemma shifts_peeked v id l p : shifts (set_peeked v p) id l = set_peeked (shifts v id l) p.
Proof.
  revert v. induction l as [|q l IH]; intros v; [done|]. by rewrite !shifts_cons, shift_peeked.
Qed.

Lemma rippleCreditMPT_shift v id s r a i :
  issuances v !! id = Some i -> s <> r -> 0 <= a <= maxMPTokenAmount ->
  0 <= iss_OutstandingAmount i < 2 ^ 64 ->
  (s = mptIssuer id -> iss_OutstandingAmount i + a < 2 ^ 64) ->
  (isTesSuccess (debit_code v id s a) = true -> r = mptIssuer id -> a <= iss_OutstandingAmount i) ->
  (forall t, tokens v !! (id, s) = Some t -> 0 <= tok_MPTAmount t < 2 ^ 64) ->
  (forall t, tokens v !! (id, r) = Some t -> r <> mptIssuer id ->
   0 <= tok_MPTAmount t /\ tok_MPTAmount t + a < 2 ^ 64) ->
  rippleCreditMPT v s r (mpt_amount id a) =
  Ok (first_code (debit_code v id s a) (credit_code v id r),
      set_peeked
        (if isTesSuccess (debit_code v id s a)
         then if isTesSuccess (credit_code v id r) then shifts v id [(s, - a); (r, a)]
              else shift v id s (- a)
         else v) ({[id]} ∪ peeked v)).
Proof.
  intros Hi Hsr Ha Ho Hso Hro Hst Hrt. unfold rippleCreditMPT.
  change (mpt_id (mAsset (mpt_amount id a))) with (Ok id). cbn [bind].
  rewrite Hi, mpt_of_amount by done. unfold peek_issuance. rewrite Hi. unfold and_then. cbn [bind].
  rewrite debit_mpt_shift; [|done|done|intros E; specialize (Hso E); lia|done].
  simpl. change (debit_code (set_peeked v _) id s a) with (debit_code v id s a).
  change (credit_code (set_peeked v _) id r) with (credit_code v id r).
  unfold first_code. destruct (isTesSuccess (debit_code v id s a)) eqn:Ed; [|done].
  set (v1 := set_peeked v _). assert (issuances v1 !! id = Some i) as Hi1 by done.
  pose proof (shift_issuance v1 id s (- a) i Hi1) as Hio.
  erewrite credit_mpt_shift; [| |exact Ha| |]; [|exact Hio| |].
  - unfold credit_code. rewrite !shift_holder. change (holder v1 id r) with (holder v id r).
    unfold v1. rewrite !shift_peeked. by destruct (holder v id r).
  - intros E. specialize (Hro eq_refl E). simpl.
    destruct (s =? mptIssuer id) eqn:Es; zbool; [congruence|]. lia.
  - intros t. unfold shift. rewrite Hi1. destruct (s =? mptIssuer id); [apply Hrt|].
    destruct (tokens v1 !! (id, s)); [|apply Hrt]. simpl.
    rewrite lookup_insert_ne by congruence. apply Hrt.
Qed.

End Credits.

(** ** Transfers *)

Section Sends.
Implicit Types (v : View).

Lemma shift_tokens_ne v id x d k :
  x = mptIssuer id \/ k <> (id, x) -> tokens (shift v id x d) !! k = tokens v !! k.
Proof.
  intros Hk. unfold shift. destruct (x =? mptIssuer id) eqn:E; zbool.
  - by destruct (issuances v !! id).
  - destruct Hk as [Hk|Hk]; [done|]. destruct (tokens v !! (id, x)); [|done].
    apply lookup_insert_ne. congruence.
Qed.

Lemma shift_tokens_other v id x d k :
  k.1 <> id \/ k.2 = mptIssuer id -> tokens (shift v id x d) !! k = tokens v !! k.
Proof.
  intros Hk. apply shift_tokens_ne. destruct (decide (x = mptIssuer id)); [by left|].
  right. intros ->. simpl in Hk. intuition.
Qed.

Lemma shifts_tokens_other v id l k :
  k.1 <> id \/ k.2 = mptIssuer id -> tokens (shifts v id l) !! k = tokens v !! k.
Proof.
  intros Hk. revert v. induction l as [|p l IH]; intros v; [done|].
  rewrite shifts_cons, IH. by apply shift_tokens_other.
Qed.

Lemma balance_issuer v id : mpt_balance v id (mptIssuer id) = - outstanding v id.
Proof. unfold mpt_balance. by rewrite Z.eqb_refl. Qed.

Lemma shifts_books v id l B B' :
  books v id B -> (forall p, p ∈ l -> holder v id p.1 = true) -> net l = 0 ->
  (forall x, x <> mptIssuer id -> 0 <= mpt_balance v id x + gain l x) ->
  outstanding v id - gain l (mptIssuer id) <= B' ->
  books (shifts v id l) id B'.
Proof.
  intros [Hs Ho Hb Ht] Hl Hn Hp Hout. pose proof (shifts_balance v id l) as Hbal.
  split.
  - destruct Hs as [i Hi]. destruct (shifts_issuance v id l i Hi) as [o Hio]. by eexists.
  - pose proof (shifts_excess v id l Hs Hl). lia.
  - specialize (Hbal (mptIssuer id) Hs Hl). rewrite !balance_issuer in Hbal. lia.
  - intros [id' x] t Hx. destruct (decide (id' <> id \/ x = mptIssuer id)) as [Hk|Hk].
    + rewrite shifts_tokens_other in Hx by done. eauto.
    + assert (id' = id /\ x <> mptIssuer id) as [-> Hne] by (split; [apply dec_stable|]; tauto).
      specialize (Hbal x Hs Hl). specialize (Hp x Hne). unfold mpt_balance in *.
      destruct (x =? mptIssuer id) eqn:E; zbool; [done|]. unfold holding in Hbal at 1.
      rewrite Hx in Hbal. lia.
Qed.

Lemma books_holding v id B x t :
  books v id B -> tokens v !! (id, x) = Some t -> 0 <= tok_MPTAmount t <= outstanding v id.
Proof.
  intros W Hx. split; [by apply (bk_tokens _ _ _ W (id, x))|].
  rewrite (bk_outstanding _ _ _ W). unfold held.
  pose proof (msum_term (fun k (t : MPToken) => if k.1 =? id then tok_MPTAmount t else 0)
                (tokens v) (id, x) t) as M.
  simpl in M. rewrite Z.eqb_refl in M. apply M; [|done].
  intros k t' Hk. destruct (k.1 =? id); [|lia]. by apply (bk_tokens _ _ _ W k).
Qed.

Lemma books_outstanding_pos v id B : books v id B -> 0 <= outstanding v id.
Proof.
  intros W. rewrite (bk_outstanding _ _ _ W). apply msum_nonneg. intros k t Hk.
  destruct (k.1 =? id); [|lia]. by apply (bk_tokens _ _ _ W k).
Qed.

Lemma peeked_books v id B p : books v id B -> books (set_peeked v p) id B.
Proof. intros []. by split. Qed.

Lemma unpeeked_books v id B B' p : books (set_peeked v p) id B -> B <= B' -> books v id B'.
Proof.
  intros [Hi Ho Hb Ht] HB. split; [exact Hi|exact Ho| |exact Ht].
  change (outstanding v id <= B) in Hb. lia.
Qed.

Lemma debit_code_covers v id B s a x :
  books v id B -> 0 <= a -> isTesSuccess (debit_code v id s a) = true -> x <> mptIssuer id ->
  (if s =? x then a else 0) <= mpt_balance v id x.
Proof.
  intros W Ha Hc Hx. unfold mpt_balance, debit_code in *.
  destruct (x =? mptIssuer id) eqn:E; zbool; [done|]. destruct (s =? x) eqn:Es; zbool.
  - subst s. destruct (x =? mptIssuer id) eqn:E'; zbool; [done|]. unfold holding.
    destruct (tokens v !! (id, x)); [|done]. destruct (tok_MPTAmount m <? a) eqn:El; [done|]. by zbool.
  - unfold holding. destruct (tokens v !! (id, x)) eqn:Et; [|done].
    by destruct (books_holding v id B x m W Et).
Qed.

Lemma credit_code_holder v id r : isTesSuccess (credit_code v id r) = true -> holder v id r = true.
Proof. unfold credit_code. by destruct (holder v id r). Qed.

Lemma debit_code_holder v id s a :
  isTesSuccess (debit_code v id s a) = true -> holder v id s = true.
Proof.
  unfold debit_code, holder. destruct (s =? mptIssuer id); [done|]. simpl.
  by destruct (tokens v !! (id, s)).
Qed.

Lemma first_code_success c d :
  isTesSuccess (first_code c d) = true -> isTesSuccess c = true /\ isTesSuccess d = true.
Proof. unfold first_code. destruct (isTesSuccess c) eqn:E; [done|]. congruence. Qed.

(** A transfer that the issuer makes or receives. *)
Lemma credit_books v id B s r a :
  books v id B -> 0 <= a <= maxMPTokenAmount -> s <> r ->
  s = mptIssuer id \/ r = mptIssuer id ->
  let B' := B + (if s =? mptIssuer id then a else 0) in
  B' < 2 ^ 64 ->
  let ter := first_code (debit_code v id s a) (credit_code v id r) in
  exists w p, rippleCreditMPT v s r (mpt_amount id a) = Ok (ter, set_peeked w p) /\
    (isTesSuccess ter = true -> w = shifts v id [(s, - a); (r, a)] /\ books w id B').
Proof.
  intros W Ha Hsr Hdir B' HB ter. destruct (bk_issuance _ _ _ W) as [i Hi].
  pose proof (bk_bound _ _ _ W) as Hb. pose proof (books_outstanding_pos _ _ _ W) as Hp.
  assert (outstanding v id = iss_OutstandingAmount i) as Ho by (unfold outstanding; by rewrite Hi).
  assert (forall x t, tokens v !! (id, x) = Some t -> 0 <= tok_MPTAmount t <= iss_OutstandingAmount i)
    as Htok by (intros x t Ht; pose proof (books_holding v id B x t W Ht); lia).
  rewrite Ho in Hb, Hp. unfold B' in *.
  do 2 eexists. split.
  - apply (rippleCreditMPT_shift v id s r a i); auto.
    + destruct (s =? mptIssuer id); lia.
    + intros ->. rewrite Z.eqb_refl in HB. lia.
    + intros Hc ->. unfold debit_code in Hc. destruct (s =? mptIssuer id) eqn:Es; zbool; [done|].
      destruct (tokens v !! (id, s)) as [t|] eqn:Et; [|done].
      destruct (tok_MPTAmount t <? a) eqn:El; [done|]. zbool. specialize (Htok _ _ Et). lia.
    + intros t Ht. specialize (Htok _ _ Ht). destruct (s =? mptIssuer id); lia.
    + intros t Ht Hr. specialize (Htok _ _ Ht). destruct (s =? mptIssuer id) eqn:Es; zbool; [lia|].
      tauto.
  - unfold ter. intros [Ed Ec]%first_code_success. rewrite Ed, Ec. split; [done|].
    apply (shifts_books v id _ B); auto.
    + intros q [->|[->|[]%elem_of_nil]%elem_of_cons]%elem_of_cons; simpl;
        eauto using debit_code_holder, credit_code_holder.
    + simpl. lia.
    + intros x Hx. pose proof (debit_code_covers v id B s a x W ltac:(lia) Ed Hx). simpl.
      destruct (s =? x), (r =? x); lia.
    + simpl. rewrite Ho. destruct (s =? mptIssuer id), (r =? mptIssuer id); lia.
Qed.

Lemma debit_code_shifts v id l s a :
  (forall p, p ∈ l -> p.1 = mptIssuer id \/ s <> p.1) ->
  debit_code (shifts v id l) id s a = debit_code v id s a.
Proof.
  revert v. induction l as [|p l IH]; intros v Hl; [done|].
  rewrite shifts_cons, IH by (intros q Hq; apply Hl; by right).
  unfold debit_code. rewrite shift_tokens_ne; [done|].
  destruct (Hl p (list_elem_of_here _ _)) as [E|E]; [by left|]. right. congruence.
Qed.

(** A transfer between two holders: the issuer pays, then is paid. *)
Lemma transit_books v id B s r a :
  books v id B -> 0 <= a <= maxMPTokenAmount -> B + a < 2 ^ 64 ->
  s <> r -> s <> mptIssuer id -> r <> mptIssuer id ->
  let ter := first_code (credit_code v id r) (debit_code v id s a) in
  let issuer := mptIssuer id in
  exists w p,
    (let? v := rippleCreditMPT v issuer r (mpt_amount id a) in
     rippleCreditMPT v s issuer (mpt_amount id a)) = Ok (ter, set_peeked w p) /\
    (isTesSuccess ter = true ->
     w = shifts v id [(issuer, - a); (r, a); (s, - a); (issuer, a)] /\ books w id B).
Proof.
  intros W Ha HB Hsr Hs Hr ter issuer.
  assert (debit_code v id issuer a = tesSUCCESS) as Hdi
    by (unfold debit_code, issuer; by rewrite Z.eqb_refl).
  destruct (credit_books v id B issuer r a) as (w1 & p1 & E1 & S1); auto.
  { unfold issuer. rewrite Z.eqb_refl. lia. }
  unfold and_then. rewrite E1. cbn [bind]. rewrite Hdi in *. unfold first_code in E1, S1 |- * at 1.
  cbn [isTesSuccess] in *. unfold ter, first_code.
  destruct (isTesSuccess (credit_code v id r)) eqn:Ec; [|do 2 eexists; split; [done|congruence]].
  destruct (S1 eq_refl) as [-> W1]. clear S1 E1.
  set (v1 := shifts v id [(issuer, - a); (r, a)]) in *. set (v2 := set_peeked v1 p1).
  assert (debit_code v2 id s a = debit_code v id s a) as Hd2.
  { apply (debit_code_shifts v id [(issuer, - a); (r, a)]).
    intros q [->|[->|[]%elem_of_nil]%elem_of_cons]%elem_of_cons; auto. }
  destruct (credit_books v2 id (B + a) s issuer a) as (w2 & p2 & E2 & S2); auto.
  { unfold issuer in W1. rewrite Z.eqb_refl in W1. by apply peeked_books. }
  { apply Z.eqb_neq in Hs. rewrite Hs. lia. }
  assert (credit_code v2 id issuer = tesSUCCESS) as Hci
    by (unfold credit_code, holder, issuer; by rewrite Z.eqb_refl).
  rewrite Hd2, Hci, first_code_l in E2, S2. rewrite E2.
  set (l := [(issuer, - a); (r, a); (s, - a); (issuer, a)]).
  assert (shifts v2 id [(s, - a); (issuer, a)] = set_peeked (shifts v id l) (peeked v2)) as Es
    by exact (shifts_peeked v1 id [(s, - a); (issuer, a)] p1).
  exists (if isTesSuccess (debit_code v id s a) then shifts v id l else w2), p2. split.
  - destruct (isTesSuccess (debit_code v id s a)); [|done]. destruct (S2 eq_refl) as [-> _].
    by rewrite Es.
  - intros Ed. rewrite Ed. split; [done|].
    apply (shifts_books v id l B); [done| |simpl; lia| |].
    + apply credit_code_holder in Ec. apply debit_code_holder in Ed.
      assert (holder v id issuer = true) as Hi by (unfold holder, issuer; by rewrite Z.eqb_refl).
      unfold l. intros q.
      intros [->|[->|[->|[->|[]%elem_of_nil]%elem_of_cons]%elem_of_cons]%elem_of_cons]%elem_of_cons; done.
    + intros x Hx. pose proof (debit_code_covers v id B s a x W ltac:(lia) Ed Hx). simpl.
      destruct (issuer =? x) eqn:E; zbool; [unfold issuer in E; congruence|].
      destruct (s =? x), (r =? x); lia.
    + pose proof (bk_bound _ _ _ W). simpl. unfold issuer. rewrite Z.eqb_refl.
      rewrite <- Z.eqb_neq in Hs, Hr. rewrite Hs, Hr. lia.
Qed.

Lemma gain_cons p l x : gain (p :: l) x = (if p.1 =? x then p.2 else 0) + gain l x.
Proof. done. Qed.

(** What a successful transfer leaves. *)
Lemma sent_result v id l p B B' C s r a :
  books v id B -> (forall q, q ∈ l -> holder v id q.1 = true) -> books (shifts v id l) id B' ->
  (forall x, gain l x = (if r =? x then a else 0) - (if s =? x then a else 0)) ->
  outstanding v id - gain l (mptIssuer id) <= C -> C <= B ->
  books (set_peeked (shifts v id l) p) id B /\ outstanding (set_peeked (shifts v id l) p) id <= C /\
  forall x, mpt_balance (set_peeked (shifts v id l) p) id x =
            mpt_balance v id x + (if r =? x then a else 0) - (if s =? x then a else 0).
Proof.
  intros W Hh W' Hg Ho HC.
  assert (forall x, mpt_balance (set_peeked (shifts v id l) p) id x = mpt_balance v id x + gain l x) as Hb.
  { intros x. by apply shifts_balance; [exact (bk_issuance _ _ _ W)|]. }
  assert (outstanding (set_peeked (shifts v id l) p) id <= C) as Hout.
  { pose proof (Hb (mptIssuer id)) as E. rewrite !balance_issuer in E. lia. }
  splits; [|done|].
  - destruct W' as [Hi Hs _ Ht]. split; [exact Hi|exact Hs|lia|exact Ht].
  - intros x. rewrite Hb, Hg. lia.
Qed.

(** [a] moved from [s] to [r], and no more than [C] is outstanding. *)
Definition sent v id s r a C (v' : View) : Prop :=
  books v' id maxMPTokenAmount /\ outstanding v' id <= C /\
  forall x, mpt_balance v' id x =
            mpt_balance v id x + (if r =? x then a else 0) - (if s =? x then a else 0).

Lemma direct_sent v id s r a C :
  books v id maxMPTokenAmount -> 0 <= a <= maxMPTokenAmount -> s <> r ->
  s = mptIssuer id \/ r = mptIssuer id ->
  outstanding v id + (if s =? mptIssuer id then a else 0) <= C <= maxMPTokenAmount ->
  let ter := first_code (debit_code v id s a) (credit_code v id r) in
  exists v', rippleCreditMPT v s r (mpt_amount id a) = Ok (ter, v') /\
    (ter = tesSUCCESS -> sent v id s r a C v').
Proof.
  intros W Ha Hsr Hdir HC ter.
  destruct (credit_books v id _ s r a W) as (w & p & Ec & Sc); auto.
  { unfold maxMPTokenAmount in *. destruct (s =? mptIssuer id); lia. }
  exists (set_peeked w p). split; [done|]. intros Et.
  assert (isTesSuccess ter = true) as Es by (by rewrite Et). destruct (Sc Es) as [-> W'].
  apply first_code_success in Es as [Ed Er].
  apply (sent_result v id _ p _ _ C s r a W) in W'; auto; [| | |lia].
  - intros q [->|[->|[]%elem_of_nil]%elem_of_cons]%elem_of_cons;
      [by apply debit_code_holder in Ed|by apply credit_code_holder in Er].
  - intros x. rewrite !gain_cons. simpl. destruct (s =? x), (r =? x); lia.
  - rewrite !gain_cons. simpl. destruct (s =? mptIssuer id), (r =? mptIssuer id); lia.
Qed.

Lemma transit_sent v id s r a C :
  books v id maxMPTokenAmount -> 0 <= a <= maxMPTokenAmount -> s <> r ->
  s <> mptIssuer id -> r <> mptIssuer id -> outstanding v id <= C <= maxMPTokenAmount ->
  let ter := first_code (credit_code v id r) (debit_code v id s a) in
  exists v',
    (let? v := rippleCreditMPT v (mptIssuer id) r (mpt_amount id a) in
     rippleCreditMPT v s (mptIssuer id) (mpt_amount id a)) = Ok (ter, v') /\
    (ter = tesSUCCESS -> sent v id s r a C v').
Proof.
  intros W Ha Hsr Hs Hr HC ter.
  destruct (transit_books v id _ s r a W) as (w & p & Ec & Sc); auto.
  { unfold maxMPTokenAmount in *. lia. }
  exists (set_peeked w p). split; [done|]. intros Et.
  assert (isTesSuccess ter = true) as Es by (by rewrite Et). destruct (Sc Es) as [-> W'].
  apply first_code_success in Es as [Er Ed].
  apply (sent_result v id _ p _ _ C s r a W) in W'; auto; [| | |lia].
  - intros q [->|[->|[->|[->|[]%elem_of_nil]%elem_of_cons]%elem_of_cons]%elem_of_cons]%elem_of_cons;
      try (unfold holder; simpl; by rewrite Z.eqb_refl);
      [by apply credit_code_holder in Er|by apply debit_code_holder in Ed].
  - intros x. rewrite !gain_cons. simpl. destruct (s =? x), (r =? x), (mptIssuer id =? x); lia.
  - rewrite !gain_cons. simpl. rewrite Z.eqb_refl. rewrite <- Z.eqb_neq in Hs, Hr. rewrite Hs, Hr. lia.
Qed.

(** A direct transfer with the fee waived. *)
Lemma accountSend_mpt `{Keylets} cfg v id s r a :
  books v id maxMPTokenAmount -> 0 <= maximum_of v id <= maxMPTokenAmount ->
  0 <= a <= maxMPTokenAmount ->
  let ter := mpt_send_code v id s r a in
  exists v', accountSend cfg v s r (mpt_amount id a) Waive = Ok (ter, v') /\
    (ter = tesSUCCESS -> sent v id s r a (Z.max (outstanding v id) (maximum_of v id)) v').
Proof.
  intros W HM Ha ter. destruct (bk_issuance _ _ _ W) as [i Hi].
  assert (outstanding v id = iss_OutstandingAmount i) as Ho by (unfold outstanding; by rewrite Hi).
  assert (maximum_of v id = maximum i) as Hm by (unfold maximum_of; by rewrite Hi).
  pose proof (bk_bound _ _ _ W) as Hb. pose proof (books_outstanding_pos _ _ _ W) as Hp.
  unfold accountSend. change (mAsset (mpt_amount id a)) with (AMPT id).
  unfold accountSendMPT. unfold mpt_amount at 1. rewrite whole_is_zero.
  unfold ter, mpt_send_code. destruct ((a =? 0) || (s =? r)) eqn:Etriv.
  { exists v. split; [done|]. intros _. unfold sent. splits; [done|lia|]. intros x. apply orb_true_iff in Etriv as [E|E]; zbool.
    - subst a. destruct (r =? x), (s =? x); lia.
    - subst s. destruct (r =? x); lia. }
  apply orb_false_iff in Etriv as [E0 Esr]. zbool. rewrite Hi.
  unfold rippleSendMPT. change (mpt_id (mAsset (mpt_amount id a))) with (Ok id). cbn [bind].
  change (getIssuer (mAsset (mpt_amount id a))) with (mptIssuer id).
  rewrite Hi, mpt_of_amount by done. cbn [bind].
  destruct (s =? mptIssuer id) eqn:Es; zbool; cbn [orb andb].
  - subst s. unfold maxMPTokenAmount in *. rewrite (u64_id a) by lia.
    destruct (maximum i <? iss_OutstandingAmount i + a) eqn:Emax; zbool.
    { replace ((maximum i <? a) || (u64 (maximum i - a) <? iss_OutstandingAmount i)) with true; [by eexists|].
      destruct (maximum i <? a) eqn:E; [done|]. zbool. rewrite u64_id by lia. simpl. symmetry. lia. }
    replace ((maximum i <? a) || (u64 (maximum i - a) <? iss_OutstandingAmount i)) with false.
    2:{ rewrite u64_id by lia. symmetry. apply orb_false_iff. lia. }
    pose proof (direct_sent v id (mptIssuer id) r a (Z.max (outstanding v id) (maximum_of v id)) W) as D.
    unfold debit_code in D. rewrite Z.eqb_refl in D. apply D; auto. unfold maxMPTokenAmount. lia.
  - assert (first_code (credit_code v id r) (debit_code v id s a) =
            first_code (debit_code v id s a) (credit_code v id r) \/ r <> mptIssuer id) as Hc.
    { destruct (decide (r = mptIssuer id)) as [->|]; [left|by right].
      unfold credit_code, holder. rewrite Z.eqb_refl. simpl. by rewrite first_code_l. }
    destruct (r =? mptIssuer id) eqn:Er; zbool.
    + destruct Hc as [->|]; [|done]. apply direct_sent; auto.
      apply Z.eqb_neq in Es. rewrite Es. lia.
    + cbn [with_fee bind]. apply transit_sent; auto. lia.
Qed.

(** ** Payments to several receivers *)

Definition payer (s id r : Z) : Z :=
  if (s =? mptIssuer id) || (r =? mptIssuer id) then s else mptIssuer id.

(** Receivers that get nothing, or are the sender, are skipped. *)
Definition skipped (s : Z) (q : Z * Z) : bool := (q.2 =? 0) || (s =? q.1).

Fixpoint moves (s id : Z) (l : list (Z * Z)) : list (Z * Z) :=
  match l with
  | [] => []
  | q :: l =>
      if skipped s q then moves s id l
      else (payer s id q.1, - q.2) :: (q.1, q.2) :: moves s id l
  end.

(** What the issuer has advanced for the sender. *)
Fixpoint advanced (s id : Z) (l : list (Z * Z)) : Z :=
  match l with
  | [] => 0
  | q :: l => (if skipped s q || (payer s id q.1 =? s) then 0 else q.2) + advanced s id l
  end.

Fixpoint sum_of (l : list (Z * Z)) : Z :=
  match l with [] => 0 | q :: l => q.2 + sum_of l end.

(** The receivers are to get whole amounts. *)
Definition whole_payments (cfg : Settings) (asset : Asset)
  : list (Z * Number) -> list (Z * Z) -> Prop :=
  Forall2 (fun p q => p.1 = q.1 /\ st_of_number cfg asset p.2 = Ok (st_whole asset q.2) /\ 0 <= q.2).

Lemma sum_of_pos cfg asset l qs : whole_payments cfg asset l qs -> 0 <= sum_of qs.
Proof. induction 1 as [|p q l qs (_ & _ & ?) _ IH]; simpl; lia. Qed.

Lemma mpt_add cfg id u a :
  current cfg -> 0 <= u -> 0 <= a -> u + a <= maxMPTokenAmount ->
  st_add cfg (mpt_amount id u) (mpt_amount id a) = Ok (mpt_amount id (u + a)).
Proof.
  intros. assert (integral_limit (AMPT id) = maxMPTokenAmount) as E by done.
  apply st_add_same; rewrite ?E; done || lia.
Qed.

Lemma payer_ne s id r : s <> r -> payer s id r <> r.
Proof.
  unfold payer. destruct (s =? mptIssuer id) eqn:E1; [done|].
  destruct (r =? mptIssuer id) eqn:E2; [done|]. zbool. simpl. congruence.
Qed.

Lemma payer_direct s id r : payer s id r = mptIssuer id \/ r = mptIssuer id.
Proof.
  unfold payer. destruct (s =? mptIssuer id) eqn:E1; zbool; [by left|].
  destruct (r =? mptIssuer id) eqn:E2; zbool; [by right|by left].
Qed.

Lemma send_each_mpt_books cfg id s stale l qs :
  current cfg -> whole_payments cfg (AMPT id) l qs ->
  forall v B T actual v' T',
  books v id B -> B + sum_of qs < 2 ^ 64 -> 0 <= T -> T + sum_of qs <= maxMPTokenAmount ->
  send_each_mpt cfg v s (AMPT id) id stale l Waive (mpt_amount id T) actual = Ok (tesSUCCESS, v', T') ->
  T' = mpt_amount id (T + advanced s id qs) /\
  exists p, v' = set_peeked (shifts v id (moves s id qs)) p /\
    books (shifts v id (moves s id qs)) id (B + sum_of qs) /\
    (forall q, q ∈ moves s id qs -> holder v id q.1 = true).
Proof.
  intros HC. induction 1 as [|[r x] [r' a] l qs (Er & Ex & Ha) HF IH]; intros v B T actual v' T' W HB HT HM.
  - simpl. intros [= <- <-]. rewrite Z.add_0_r. split; [done|]. exists (peeked v). rewrite Z.add_0_r.
    splits; [by destruct v|done|]. by intros q []%elem_of_nil.
  - cbn [fst snd] in Er, Ex, Ha. subst r'. pose proof (sum_of_pos _ _ _ _ HF) as Hpos.
    cbn [sum_of snd] in HB, HM. cbn [send_each_mpt]. rewrite Ex. cbn [bind].
    fold (mpt_amount id a). cbn [moves advanced sum_of fst snd]. unfold mpt_amount at 1. rewrite whole_is_zero.
    change ((a =? 0) || (s =? r)) with (skipped s (r, a)). destruct (skipped s (r, a)) eqn:Esk.
    { intros Hs. destruct (IH v B T actual v' T') as (-> & p & -> & W' & Hh); auto; try lia.
      split; [done|]. exists p. splits; auto. destruct W'. split; auto. lia. }
    apply orb_false_iff in Esk as [Ea Es]. cbn [fst snd] in Ea, Es. zbool. simpl orb.
    pose proof (payer_ne s id r Es) as Hne. pose proof (payer_direct s id r) as Hdir.
    assert (0 <= a <= maxMPTokenAmount) as Ha' by lia.
    (* one credit, whoever pays *)
    destruct (credit_books v id B (payer s id r) r a) as (w & p1 & Ec & Sc); auto.
    { destruct (payer s id r =? mptIssuer id); lia. }
    assert (forall T1 actual1 v' T',
      0 <= T1 -> T1 + sum_of qs <= maxMPTokenAmount ->
      (let* (ter, v) := rippleCreditMPT v (payer s id r) r (mpt_amount id a) in
       if negb (isTesSuccess ter) then Ok (ter, v, mpt_amount id T1)
       else send_each_mpt cfg v s (AMPT id) id stale l Waive (mpt_amount id T1) actual1) =
      Ok (tesSUCCESS, v', T') ->
      T' = mpt_amount id (T1 + advanced s id qs) /\
      exists p, v' = set_peeked (shifts v id ((payer s id r, - a) :: (r, a) :: moves s id qs)) p /\
        books (shifts v id ((payer s id r, - a) :: (r, a) :: moves s id qs)) id (B + (a + sum_of qs)) /\
        (forall q, q ∈ (payer s id r, - a) :: (r, a) :: moves s id qs -> holder v id q.1 = true)) as Hstep.
    { clear v' T' actual T HT HM. intros T1 actual1 v' T' HT1 HM1. rewrite Ec. cbn [bind].
      destruct (isTesSuccess (first_code _ _)) eqn:Et; [|intros [= E]; by rewrite E in Et].
      cbn [negb]. destruct (Sc eq_refl) as [-> W1]. apply first_code_success in Et as [Ed Er].
      intros Hs. destruct (IH _ _ T1 actual1 v' T' (peeked_books _ _ _ p1 W1)) as (-> & p & -> & W' & Hh); auto.
      { destruct (payer s id r =? mptIssuer id); lia. }
      rewrite shifts_peeked in W'. split; [done|]. exists p. rewrite shifts_peeked. splits; [done| |].
      - apply (unpeeked_books _ _ _ _ _ W'). destruct (payer s id r =? mptIssuer id); lia.
      - intros q [->|[->|Hq]%elem_of_cons]%elem_of_cons;
          [by apply debit_code_holder in Ed|by apply credit_code_holder in Er|].
        specialize (Hh q Hq). rewrite <- Hh. symmetry. apply shifts_holder. }
    rewrite mpt_of_amount by done. destruct ((s =? mptIssuer id) || (r =? mptIssuer id)) eqn:Edir.
    + assert (payer s id r = s) as Ep by (unfold payer; by rewrite Edir).
      rewrite Ep in *. rewrite Z.eqb_refl. cbn [bind].
      intros Hs. apply bind_ok in Hs as (exceeds & _ & Hs). destruct exceeds; [done|].
      rewrite Ec in Hs. cbn [bind] in Hs.
      destruct (isTesSuccess (first_code _ _)) eqn:Et; [|injection Hs as E _ _; by rewrite E in Et].
      cbn [negb] in Hs. apply bind_ok in Hs as (actual1 & _ & Hs).
      apply (Hstep T actual1); auto; [lia|]. rewrite Ec. cbn [bind]. by rewrite Et.
    + assert (payer s id r = mptIssuer id) as Ep by (unfold payer; by rewrite Edir).
      rewrite Ep in *. assert ((mptIssuer id =? s) = false) as -> by (apply orb_false_iff in Edir as [E _]; zbool; lia).
      cbn [bind with_fee]. intros Hs. apply bind_ok in Hs as (actual1 & _ & Hs).
      rewrite mpt_add in Hs by (done || lia). cbn [bind] in Hs.
      rewrite Z.add_assoc. apply (Hstep (T + a) actual1); auto; lia.
Qed.

(** What [x] receives, and what the sender pays. *)
Fixpoint received (s : Z) (l : list (Z * Z)) (x : Z) : Z :=
  match l with
  | [] => 0
  | q :: l => (if skipped s q then 0 else if q.1 =? x then q.2 else 0) + received s l x
  end.

Fixpoint paid (s : Z) (l : list (Z * Z)) : Z :=
  match l with
  | [] => 0
  | q :: l => (if skipped s q then 0 else q.2) + paid s l
  end.

Lemma gain_moves s id l x :
  gain (moves s id l) x =
  received s l x - (if s =? x then paid s l - advanced s id l else 0)
  - (if mptIssuer id =? x then advanced s id l else 0).
Proof.
  induction l as [|[r a] l IH]; cbn [moves received paid advanced fst snd].
  { by destruct (s =? x), (mptIssuer id =? x). }
  destruct (skipped s (r, a)); cbn [orb]; [by rewrite IH|].
  rewrite !gain_cons, IH. cbn [fst snd]. unfold payer.
  destruct ((s =? mptIssuer id) || (r =? mptIssuer id)) eqn:E.
  - rewrite Z.eqb_refl. destruct (s =? x), (mptIssuer id =? x), (r =? x); lia.
  - apply orb_false_iff in E as [E _]. rewrite Z.eqb_sym in E. rewrite E.
    destruct (s =? x), (mptIssuer id =? x), (r =? x); lia.
Qed.

Lemma advanced_range cfg s id l qs :
  whole_payments cfg (AMPT id) l qs -> 0 <= advanced s id qs <= sum_of qs.
Proof.
  induction 1 as [|p q l qs (_ & _ & ?) _ IH]; simpl; [lia|]. destruct (skipped s q || _); lia.
Qed.

Lemma multi_send_books cfg v id s l qs v' :
  current cfg -> books v id maxMPTokenAmount -> whole_payments cfg (AMPT id) l qs ->
  sum_of qs <= maxMPTokenAmount ->
  rippleSendMultiMPT cfg v s (AMPT id) l Waive = Ok (tesSUCCESS, v') ->
  books v' id (maxMPTokenAmount + sum_of qs) /\
  forall x, mpt_balance v' id x =
            mpt_balance v id x + received s qs x - (if s =? x then paid s qs else 0).
Proof.
  intros HC W HF HT. pose proof (sum_of_pos _ _ _ _ HF) as Hp.
  destruct (bk_issuance _ _ _ W) as [i Hi].
  unfold rippleSendMultiMPT. cbn [mpt_id bind]. rewrite Hi.
  rewrite st_zeroed_whole by done. cbn [bind]. fold (mpt_amount id 0). intros Hs.
  apply bind_ok in Hs as ([[ter v1] T1] & H1 & Hs).
  destruct (isTesSuccess ter) eqn:Et; [|by injection Hs as -> _].
  apply isTesSuccess_eq in Et as ->.
  eapply send_each_mpt_books in H1 as (E1 & p & E2 & W1 & Hh);
    [|done|exact HF|exact W|unfold maxMPTokenAmount in *; lia|lia|lia].
  pose proof (advanced_range cfg s id l qs HF) as Hadv.
  set (l1 := moves s id qs) in *. subst T1 v1. cbn [negb] in Hs. rewrite Z.add_0_l in Hs.
  unfold mpt_amount at 1 in Hs. rewrite whole_is_zero in Hs.
  destruct (negb (s =? mptIssuer id) && negb (advanced s id qs =? 0)) eqn:Elast.
  - apply andb_true_iff in Elast as [E1 E2]. zbool.
    destruct (credit_books (set_peeked (shifts v id l1) p) id _ s (mptIssuer id) (advanced s id qs)
                (peeked_books _ _ _ p W1)) as (w & p2 & Ec & Sc); [lia|done|by right| |].
    { apply Z.eqb_neq in E1. rewrite E1. unfold maxMPTokenAmount in *. lia. }
    rewrite Ec in Hs. injection Hs as Et <-. rewrite Et in Sc. destruct (Sc eq_refl) as [-> W2].
    assert (isTesSuccess (debit_code (set_peeked (shifts v id l1) p) id s (advanced s id qs)) = true) as Ed
      by (apply (first_code_success _ (credit_code (set_peeked (shifts v id l1) p) id (mptIssuer id)));
          by rewrite Et).
    apply debit_code_holder in Ed.
    apply Z.eqb_neq in E1. rewrite E1, Z.add_0_r in W2. split; [by apply peeked_books|].
    intros x. set (last := [(s, - advanced s id qs); (mptIssuer id, advanced s id qs)]) in *.
    change (mpt_balance (set_peeked ?w p2) id x) with (mpt_balance w id x).
    rewrite shifts_balance; [|exact (bk_issuance _ _ _ W1)|].
    + change (mpt_balance (set_peeked ?w p) id x) with (mpt_balance w id x).
      rewrite shifts_balance by (done || by eexists). unfold l1, last.
      rewrite gain_moves, !gain_cons. simpl. rewrite Z.eqb_sym in E1.
      destruct (s =? x) eqn:Esx, (mptIssuer id =? x) eqn:Eix; zbool; lia.
    + intros q [->|[->|[]%elem_of_nil]%elem_of_cons]%elem_of_cons; [done|].
      unfold holder. simpl. by rewrite Z.eqb_refl.
  - injection Hs as <-. split; [by apply peeked_books|]. intros x.
    change (mpt_balance (set_peeked ?w p) id x) with (mpt_balance w id x).
    rewrite shifts_balance by (done || by eexists). unfold l1. rewrite gain_moves.
    apply andb_false_iff in Elast as [E|E]; zbool.
    + subst s. destruct (mptIssuer id =? x); lia.
    + rewrite E. destruct (s =? x), (mptIssuer id =? x); lia.
Qed.

End Sends.
