(* ===== verification/TransfersHoldings.v ===== *)
(** * Empty holdings

    Giving an account an empty holding of a token, or taking it away, moves no token; a
    transfer of one token moves no other. *)

From S2P Require Import Prelude.
From S2P Require Import Ter.
From S2P Require Import XrplNumber.
From S2P Require Import Amounts.
From S2P Require Import AmountsRound.
From S2P Require Import Lending.
From S2P Require Import LedgerState.
From S2P Require Import Holdings.
From S2P Require Import Transfers.
From S2P Require Import Transactors.
From S2P Require Import TransfersFrame.
From S2P Require Import TransfersMPT.
From stdpp Require Import gmap list.

Local Open Scope Z_scope.

(** The balances and the issuances of every token are the same. *)
Record same_tokens (v v' : View) : Prop := {
  st_issuances : issuances v' = issuances v;
  st_holdings : forall id x, holding v' id x = holding v id x;
  st_held : forall id, held v' id = held v id;
  st_nonneg : (forall k t, tokens v !! k = Some t -> 0 <= tok_MPTAmount t) ->
              forall k t, tokens v' !! k = Some t -> 0 <= tok_MPTAmount t }.

Lemma same_tokens_refl v v' : tokens v' = tokens v -> issuances v' = issuances v -> same_tokens v v'.
Proof. intros Et Ei. split; [done|..]; unfold holding, held; rewrite ?Et; auto. Qed.

Lemma same_tokens_trans v1 v2 v3 : same_tokens v1 v2 -> same_tokens v2 v3 -> same_tokens v1 v3.
Proof. intros [A1 A2 A3 A4] [B1 B2 B3 B4]. split; intros; rewrite ?B1, ?B2, ?B3; auto. eauto. Qed.

#[export] Instance same_tokens_preorder : PreOrder same_tokens.
Proof. split; [intros v; by apply same_tokens_refl|exact same_tokens_trans]. Qed.

Lemma same_balance v v' id x : same_tokens v v' -> mpt_balance v' id x = mpt_balance v id x.
Proof. intros [Ei Eh _ _]. unfold mpt_balance, outstanding. by rewrite Ei, Eh. Qed.

Lemma same_books v v' id B : same_tokens v v' -> books v id B -> books v' id B.
Proof.
  intros [Ei _ Eh Hn] [H1 H2 H3 H4].
  split; [by rewrite Ei|unfold outstanding in *; by rewrite Ei, Eh|unfold outstanding in *; by rewrite Ei|eauto].
Qed.

(** An entry that appears, changes or goes without changing its amount. *)
Lemma same_tokens_alter v v' k o :
  issuances v' = issuances v ->
  from_option tok_MPTAmount 0 o = from_option tok_MPTAmount 0 (tokens v !! k) ->
  tokens v' = partial_alter (fun _ => o) k (tokens v) -> same_tokens v v'.
Proof.
  intros Ei Ho Et. split; [done|..].
  - intros id x. unfold holding. rewrite Et, lookup_partial_alter. case_decide as E; [|done].
    subst k. destruct o, (tokens v !! (id, x)); done.
  - intros id. unfold held. rewrite Et.
    rewrite (msum_altered (fun k t => if k.1 =? id then tok_MPTAmount t else 0)) by done.
    destruct o, (tokens v !! k); simpl in *; destruct (k.1 =? id); lia.
  - intros Hn k' t'. rewrite Et, lookup_partial_alter. case_decide; [|apply Hn].
    intros ->. simpl in Ho. rewrite Ho. destruct (tokens v !! k) as [t|] eqn:Ek; simpl; [|done]. eauto.
Qed.

Lemma adjustOwnerCount_tokens v id adj : same_tokens v (adjustOwnerCount v id adj).
Proof. unfold adjustOwnerCount. destruct (accounts v !! id); by apply same_tokens_refl. Qed.

Section Holdings.
Context `{Keylets} (cfg : Settings).
Implicit Types (v : View).

Lemma dirInsert_tokens v o key r v' : dirInsert v o key = Ok (r, v') -> same_tokens v v'.
Proof. unfold dirInsert. intros Hr. follow Hr. by apply same_tokens_refl. Qed.

Lemma ownerDirRemove_tokens v o p key r v' : ownerDirRemove v o p key = Ok (r, v') -> same_tokens v v'.
Proof. unfold ownerDirRemove. intros Hr. follow Hr. by apply same_tokens_refl. Qed.

Lemma authorizeMPToken_tokens v prior id acct flags holderID ter v' :
  authorizeMPToken v prior id acct flags holderID = Ok (ter, v') -> same_tokens v v'.
Proof.
  unfold authorizeMPToken. intros Hr.
  destruct (accounts v !! acct) as [a|]; [|by injection Hr as _ <-]. destruct holderID as [holder|].
  - destruct (issuances v !! id) as [i|]; [|by injection Hr as _ <-].
    destruct (negb _); [by injection Hr as _ <-|].
    destruct (tokens v !! (id, holder)) as [t|] eqn:Et; injection Hr as _ <-; [|done].
    eapply (same_tokens_alter _ _ (id, holder) (Some _)); [done| |done]. by rewrite Et.
  - destruct (hasFlag flags tfMPTUnauthorize).
    + destruct (tokens v !! (id, acct)) as [t|] eqn:Et; [|by injection Hr as _ <-].
      destruct (tok_MPTAmount t =? 0) eqn:E0; [|by injection Hr as _ <-]. zbool. simpl in Hr.
      apply bind_ok in Hr as ([found w] & Ew & Hr).
      assert (same_tokens v w /\ tokens w = tokens v) as [Sw Tw].
      { split; [by eapply ownerDirRemove_tokens|]. unfold ownerDirRemove in Ew. by follow Ew. }
      destruct (negb found); injection Hr as _ <-; [done|].
      transitivity w; [done|]. transitivity (adjustOwnerCount w acct (-1)); [apply adjustOwnerCount_tokens|].
      eapply (same_tokens_alter _ _ (id, acct) None); [done| |done].
      assert (tokens (adjustOwnerCount w acct (-1)) = tokens w) as -> by (unfold adjustOwnerCount; by destruct (accounts w !! acct)).
      by rewrite Tw, Et.
    + destruct (prior <? _); [by injection Hr as _ <-|]. destruct (_ && _); [by injection Hr as _ <-|].
      apply bind_ok in Hr as ([page w] & Ew & Hr). pose proof (dirInsert_tokens _ _ _ _ _ Ew) as Sw.
      destruct page as [page|]; [|by injection Hr as _ <-].
      case_bool_decide as Hn; [done|]. injection Hr as _ <-. apply eq_None_not_Some in Hn.
      transitivity w; [done|]. etransitivity; [|apply adjustOwnerCount_tokens].
      eapply (same_tokens_alter _ _ (id, acct) (Some _)); [done| |done]. by rewrite Hn.
Qed.

Lemma addEmptyHolding_tokens v acct prior id ter v' :
  addEmptyHolding cfg v acct prior (AMPT id) = Ok (ter, v') -> same_tokens v v'.
Proof.
  unfold addEmptyHolding. destruct (issuances v !! id) as [i|] eqn:Ei; [|by intros [= _ <-]].
  assert (same_tokens v (peek_issuance v id)) as Sp.
  { unfold peek_issuance. rewrite ?Ei. by apply same_tokens_refl. }
  destruct (isFlag _ _); [by intros [= _ <-]|]. destruct (bool_decide _); [by intros [= _ <-]|].
  destruct (acct =? _); [by intros [= _ <-]|]. intros Hr%authorizeMPToken_tokens. by transitivity (peek_issuance v id).
Qed.

Lemma removeEmptyHolding_tokens v acct id ter v' :
  removeEmptyHolding cfg v acct (AMPT id) = Ok (ter, v') -> same_tokens v v'.
Proof.
  unfold removeEmptyHolding. destruct (tokens v !! (id, acct)) as [t|]; [|by intros [= _ <-]].
  destruct (negb _); [by intros [= _ <-]|]. apply authorizeMPToken_tokens.
Qed.

Lemma ensure_holding_tokens v acct id ter v' :
  ensure_holding cfg v acct (AMPT id) = Ok (ter, v') -> same_tokens v v'.
Proof.
  unfold ensure_holding. destruct (accounts v !! acct); [|done]. intros (bal & _ & Hr)%bind_ok.
  apply bind_ok in Hr as ([t w] & E%addEmptyHolding_tokens & Hr). by injection Hr as _ <-.
Qed.

End Holdings.

(** ** Other tokens *)

(** Only token [id] changes. *)
Record same_others (id : Z) (v v' : View) : Prop := {
  so_issuances : forall t, t <> id -> issuances v' !! t = issuances v !! t;
  so_tokens : forall t x, t <> id -> tokens v' !! (t, x) = tokens v !! (t, x);
  so_held : forall t, t <> id -> held v' t = held v t }.

Lemma same_others_refl id v v' : tokens v' = tokens v -> issuances v' = issuances v -> same_others id v v'.
Proof. intros Et Ei. split; intros; unfold held; by rewrite ?Et, ?Ei. Qed.

Lemma same_others_trans id v1 v2 v3 : same_others id v1 v2 -> same_others id v2 v3 -> same_others id v1 v3.
Proof. intros [A1 A2 A3] [B1 B2 B3]. split; intros; rewrite ?B1, ?B2, ?B3; auto. Qed.

#[export] Instance same_others_preorder id : PreOrder (same_others id).
Proof. split; [intros v; by apply same_others_refl|exact (same_others_trans id)]. Qed.

Lemma same_others_issuance id v i : same_others id v (update_issuance v id i).
Proof. split; intros; [|done|done]. simpl. by apply lookup_insert_ne. Qed.

Lemma same_others_token id v x t : same_others id v (update_token v (id, x) t).
Proof.
  split; intros t' **; simpl; [done|apply lookup_insert_ne; congruence|]. unfold held. simpl.
  change (<[(id, x) := t]> (tokens v)) with (partial_alter (fun _ => Some t) (id, x) (tokens v)).
  rewrite (msum_altered (fun k t => if k.1 =? t' then tok_MPTAmount t else 0)) by done.
  destruct (tokens v !! (id, x)); simpl; destruct (id =? t') eqn:E; zbool; lia.
Qed.

Lemma others_balance id v v' t x : same_others id v v' -> t <> id -> mpt_balance v' t x = mpt_balance v t x.
Proof.
  intros S Ht. unfold mpt_balance, outstanding, holding.
  by rewrite (so_issuances _ _ _ S) by done; rewrite (so_tokens _ _ _ S) by done.
Qed.

Lemma others_maximum id v v' t : same_others id v v' -> t <> id -> maximum_of v' t = maximum_of v t.
Proof. intros S Ht. unfold maximum_of. by rewrite (so_issuances _ _ _ S). Qed.

Lemma others_books id v v' t B B' : same_others id v v' -> t <> id -> books v' id B' -> books v t B -> books v' t B.
Proof.
  intros S Ht [_ _ _ Hn] [H1 H2 H3 H4].
  split; unfold outstanding in *; rewrite ?(so_issuances _ _ _ S), ?(so_held _ _ _ S) by done; done.
Qed.

Section Others.
Context `{Keylets} (cfg : Settings).
Implicit Types (v : View).

Lemma peek_others id v t : same_others id v (peek_issuance v t).
Proof. unfold peek_issuance. destruct (issuances v !! t); by apply same_others_refl. Qed.

Lemma rippleCreditMPT_others v s r amount id ter v' :
  mAsset amount = AMPT id -> rippleCreditMPT v s r amount = Ok (ter, v') -> same_others id v v'.
Proof.
  intros Ea. unfold rippleCreditMPT. rewrite Ea. cbn [mpt_id bind].
  destruct (issuances v !! id) as [i|]; [|by intros [= _ <-]]. intros (pay & _ & Hr)%bind_ok.
  transitivity (peek_issuance v id); [apply peek_others|]. set (w := peek_issuance v id) in *.
  assert (forall w i s, same_others id w (debit_mpt w id i s pay).2) as D.
  { intros. unfold debit_mpt. destruct (_ =? mptIssuer id); [apply same_others_issuance|].
    destruct (tokens _ !! _); [|done]. destruct (_ <? _); [done|apply same_others_token]. }
  assert (forall w r, same_others id w (credit_mpt w id r pay).2) as C.
  { intros. unfold credit_mpt. destruct (_ =? mptIssuer id).
    - destruct (issuances _ !! id); [|done]. destruct (_ <=? _); [apply same_others_issuance|done].
    - destruct (tokens _ !! _); [apply same_others_token|done]. }
  specialize (D w i s). destruct (debit_mpt w id i s pay) as [t1 w1]. unfold and_then in Hr. cbn [bind] in Hr. simpl in D.
  destruct (isTesSuccess t1); [|by injection Hr as _ <-]. transitivity w1; [done|].
  specialize (C w1 r). destruct (credit_mpt w1 id r pay). by injection Hr as _ <-.
Qed.

Lemma accountSend_others v s r a id ter v' :
  accountSend cfg v s r (mpt_amount id a) Waive = Ok (ter, v') -> same_others id v v'.
Proof.
  unfold accountSend. change (mAsset (mpt_amount id a)) with (AMPT id). cbv iota.
  unfold accountSendMPT, rippleSendMPT. destruct (_ || _); [by intros [= _ <-]|]. cbn [mpt_id mAsset mpt_amount st_whole bind].
  destruct (issuances v !! id) as [i|]; [|by intros [= _ <-]]. destruct (_ || _).
  - intros (n & _ & Hr)%bind_ok. destruct (_ && _); [by injection Hr as _ <-|]. by eapply rippleCreditMPT_others; [|exact Hr].
  - simpl with_fee. cbn [bind]. unfold and_then. intros ([t w] & H1 & Hr)%bind_ok.
    apply (rippleCreditMPT_others _ _ _ (mpt_amount id a) id) in H1; [|done].
    destruct (isTesSuccess t); [|by injection Hr as _ <-]. transitivity w; [done|].
    by apply (rippleCreditMPT_others _ _ _ (mpt_amount id a) id) in Hr.
Qed.

(** Transfers change nothing of an issuance but the outstanding amount. *)
Definition terms (v : View) (t : Z) : option MPTokenIssuance := (fun i => set_iss_Outstanding i 0) <$> issuances v !! t.

Lemma terms_maximum v v' t : terms v' t = terms v t -> maximum_of v' t = maximum_of v t.
Proof.
  unfold terms, maximum_of. destruct (issuances v' !! t), (issuances v !! t); simpl; try done.
  intros E. unfold maximum. injection E. congruence.
Qed.

Lemma terms_issuance v id i t :
  issuances v !! id = Some i -> forall o, terms (update_issuance v id (set_iss_Outstanding i o)) t = terms v t.
Proof.
  intros Hi o. unfold terms. simpl. rewrite lookup_insert. case_decide as E; [|done]. by rewrite <- E, Hi.
Qed.

Lemma rippleCreditMPT_terms v s r amount ter v' t :
  rippleCreditMPT v s r amount = Ok (ter, v') -> terms v' t = terms v t.
Proof.
  unfold rippleCreditMPT. intros (id & _ & Hr)%bind_ok. destruct (issuances v !! id) as [i|] eqn:Ei; [|by injection Hr as _ <-].
  apply bind_ok in Hr as (pay & _ & Hr). unfold peek_issuance in Hr. rewrite Ei in Hr.
  set (w := set_peeked v _) in *. assert (issuances w !! id = Some i) as Ew by done.
  assert (terms (debit_mpt w id i s pay).2 t = terms v t) as D.
  { change (terms v t) with (terms w t). unfold debit_mpt.
    destruct (_ =? mptIssuer id); [by apply terms_issuance|]. destruct (tokens _ !! _); [|done]. by destruct (_ <? _). }
  destruct (debit_mpt w id i s pay) as [t1 w1]. unfold and_then in Hr. cbn [bind] in Hr. simpl in D.
  destruct (isTesSuccess t1); [|by injection Hr as _ <-].
  assert (terms (credit_mpt w1 id r pay).2 t = terms w1 t) as C.
  { unfold credit_mpt. destruct (_ =? mptIssuer id).
    - destruct (issuances w1 !! id) eqn:E1; [|done]. destruct (_ <=? _); [by apply terms_issuance|done].
    - by destruct (tokens _ !! _). }
  destruct (credit_mpt w1 id r pay). injection Hr as _ <-. simpl in C. congruence.
Qed.

Lemma accountSend_terms v s r a id ter v' t :
  accountSend cfg v s r (mpt_amount id a) Waive = Ok (ter, v') -> terms v' t = terms v t.
Proof.
  unfold accountSend. change (mAsset (mpt_amount id a)) with (AMPT id). cbv iota.
  unfold accountSendMPT, rippleSendMPT. destruct (_ || _); [by intros [= _ <-]|]. cbn [mpt_id mAsset mpt_amount st_whole bind].
  destruct (issuances v !! id) as [i|]; [|by intros [= _ <-]]. destruct (_ || _).
  - intros (n & _ & Hr)%bind_ok. destruct (_ && _); [by injection Hr as _ <-|]. by eapply rippleCreditMPT_terms.
  - simpl with_fee. cbn [bind]. unfold and_then. intros ([c w] & H1 & Hr)%bind_ok.
    apply (rippleCreditMPT_terms _ _ _ _ _ _ t) in H1. destruct (isTesSuccess c); [|by injection Hr as _ <-].
    apply (rippleCreditMPT_terms _ _ _ _ _ _ t) in Hr. congruence.
Qed.

End Others.
