(* ===== verification/TransfersXRP.v ===== *)
(** * Theory of XRP transfers

    Balances of XRP as integers, and the shifts of them that the transfers make. *)

From S2P Require Import Prelude.
From S2P Require Import Ter.
From S2P Require Import XrplNumber.
From S2P Require Import Amounts.
From S2P Require Import AmountsFacts.
From S2P Require Import AmountsRound.
From S2P Require Import AmountsWhole.
From S2P Require Import Lending.
From S2P Require Import LedgerState.
From S2P Require Import Holdings.
From S2P Require Import Transfers.
From S2P Require Import TransfersMPT.
From stdpp Require Import gmap list.

Local Open Scope Z_scope.

Definition xrp_amount (a : Z) : STAmount := st_whole (AIssue xrpIssue) a.

Definition drops_of (a : AccountRoot) : Z := signed_value (acct_Balance a).

Definition xrp_balance (v : View) (x : Z) : Z :=
  match accounts v !! x with Some a => drops_of a | None => 0 end.

Definition xrp_total (v : View) : Z := msum (fun _ a => drops_of a) (accounts v).

(** Every balance is an amount of XRP that is not negative; together they are at
    most [B]. *)
Record xrp_wf (v : View) (B : Z) : Prop := {
  xrp_form : forall x a, accounts v !! x = Some a -> acct_Balance a = xrp_amount (drops_of a);
  xrp_pos : forall x a, accounts v !! x = Some a -> 0 <= drops_of a;
  xrp_bound : xrp_total v <= B }.

Definition has_account (v : View) (x : Z) : Prop := x <> 0 /\ is_Some (accounts v !! x).

Definition xshift (v : View) (x d : Z) : View :=
  match accounts v !! x with
  | Some a => update_account v x (set_acct_Balance a (xrp_amount (drops_of a + d)))
  | None => v
  end.

Section Shifts.
Implicit Types (v : View).

Lemma xrp_amount_sign a : 0 <= a -> (st_signum (xrp_amount a) <? 0) = false.
Proof.
  intros Ha. unfold st_signum, xrp_amount, st_whole. simpl.
  destruct (Z.abs a =? 0); [done|]. by rewrite (proj2 (Z.ltb_ge a 0)).
Qed.

Lemma xrp_le_total v B x a : xrp_wf v B -> accounts v !! x = Some a -> 0 <= drops_of a <= B.
Proof.
  intros W Hx. split; [by apply (xrp_pos _ _ W x)|]. pose proof (xrp_bound _ _ W).
  pose proof (msum_term (fun _ a => drops_of a) (accounts v) x a (xrp_pos _ _ W) Hx) as M.
  simpl in M. unfold xrp_total in *. lia.
Qed.

Lemma xrp_wf_le v B B' : xrp_wf v B -> B <= B' -> xrp_wf v B'.
Proof. intros [] HB. split; auto. lia. Qed.

Lemma drops_of_amount a d :
  Z.abs d < 2 ^ 63 -> drops_of (set_acct_Balance a (xrp_amount d)) = d.
Proof. intros. unfold drops_of. simpl. by apply signed_value_whole. Qed.

Lemma xshift_wf v B x d a :
  xrp_wf v B -> accounts v !! x = Some a -> 0 <= drops_of a + d < 2 ^ 63 ->
  xrp_wf (xshift v x d) (B + d) /\ xrp_total (xshift v x d) = xrp_total v + d.
Proof.
  intros W Hx Hd. unfold xshift. rewrite Hx.
  assert (xrp_total (update_account v x (set_acct_Balance a (xrp_amount (drops_of a + d)))) =
          xrp_total v + d) as Ht.
  { unfold xrp_total. simpl. rewrite (msum_update _ _ _ a) by done.
    rewrite drops_of_amount by lia. lia. }
  split; [|done]. split.
  - intros y b Hy. simpl in Hy. rewrite lookup_insert in Hy. case_decide.
    + injection Hy as <-. rewrite drops_of_amount by lia. done.
    + by apply (xrp_form _ _ W y).
  - intros y b Hy. simpl in Hy. rewrite lookup_insert in Hy. case_decide.
    + injection Hy as <-. rewrite drops_of_amount by lia. lia.
    + by apply (xrp_pos _ _ W y).
  - pose proof (xrp_bound _ _ W). lia.
Qed.

Lemma xshift_balance v x d y a :
  accounts v !! x = Some a -> 0 <= drops_of a + d < 2 ^ 63 ->
  xrp_balance (xshift v x d) y = xrp_balance v y + (if x =? y then d else 0).
Proof.
  intros Hx Hd. unfold xshift, xrp_balance. rewrite Hx. simpl. rewrite lookup_insert.
  destruct (x =? y) eqn:E; zbool.
  - subst y. rewrite decide_True by done. rewrite Hx, drops_of_amount by lia. done.
  - rewrite decide_False by done. lia.
Qed.

Lemma xshift_account v x d y : has_account (xshift v x d) y <-> has_account v y.
Proof.
  unfold has_account, xshift. destruct (accounts v !! x) as [a|] eqn:Hx; [|done]. simpl.
  rewrite lookup_insert_is_Some. split; intros [H0 H1]; split; auto.
  - destruct H1 as [<-|[_ H1]]; [by rewrite Hx|done].
  - destruct (decide (x = y)); auto.
Qed.

Lemma xshift_env v x d : env (xshift v x d) = env v.
Proof. unfold xshift. by destruct (accounts v !! x). Qed.

Lemma has_account_peek v x :
  has_account v x -> exists a, peek_account v x = Some a /\ accounts v !! x = Some a.
Proof.
  intros [H0 [a Ha]]. exists a. unfold peek_account. apply Z.eqb_neq in H0. by rewrite H0.
Qed.

End Shifts.

(** ** One receiver *)

Lemma xrp_send `{Keylets} cfg v s r a waive :
  current cfg -> xrp_wf v cMaxNativeN -> has_account v s -> has_account v r -> s <> r ->
  0 < a <= cMaxNativeN ->
  accountSend cfg v s r (xrp_amount a) waive =
  Ok (if xrp_balance v s <? a
      then (if is_open (env v) then telFAILED_PROCESSING else tecFAILED_PROCESSING, v)
      else (tesSUCCESS, xshift (xshift v s (- a)) r a)).
Proof.
  intros HC W Hs Hr Hsr Ha. unfold accountSend. change (mAsset (xrp_amount a)) with (AIssue xrpIssue).
  unfold accountSendIOU. change (holds_mpt (mAsset (xrp_amount a))) with false.
  change (native (xrp_amount a)) with true. unfold xrp_amount at 2. rewrite whole_is_zero.
  rewrite xrp_amount_sign by lia.
  rewrite orb_false_r, andb_false_r. rewrite (proj2 (Z.eqb_neq a 0)), (proj2 (Z.eqb_neq s r)) by lia.
  cbn [orb negb]. destruct (has_account_peek v s Hs) as (sa & Ep & Es). rewrite Ep.
  unfold xrp_balance. rewrite Es. rewrite (xrp_form _ _ W s sa Es). unfold xrp_amount at 1 2.
  rewrite st_ltb_same. cbn [bind]. pose proof (xrp_le_total v _ s sa W Es) as Hb.
  destruct (drops_of sa <? a) eqn:El; zbool.
  { unfold and_then. simpl. by destruct (is_open (env v)). }
  unfold xrp_amount. unfold cMaxNativeN in *.
  rewrite st_sub_drops by (done || unfold int64_max, cMaxNativeN; lia). cbn [bind]. unfold and_then. cbn [bind isTesSuccess].
  fold (xrp_amount (drops_of sa - a)).
  assert (update_account v s (set_acct_Balance sa (xrp_amount (drops_of sa - a))) = xshift v s (- a)) as ->
    by (unfold xshift; by rewrite Es).
  destruct (xshift_wf v 100000000000000000 s (- a) sa W Es ltac:(lia)) as [W1 _].
  destruct (has_account_peek (xshift v s (- a)) r) as (ra & Epr & Er); [by apply xshift_account|].
  rewrite Epr, (xrp_form _ _ W1 r ra Er). pose proof (xrp_le_total _ _ r ra W1 Er) as Hbr.
  unfold xrp_amount. rewrite st_add_drops by (done || unfold int64_max, cMaxNativeN; lia).
  cbn [bind]. unfold xshift at 2. by rewrite Er.
Qed.

(** ** Several receivers *)

Fixpoint xmoves (v : View) (s : Z) (l : list (Z * Z)) : View :=
  match l with
  | [] => v
  | q :: l => xmoves (if skipped s q then v else xshift v q.1 q.2) s l
  end.

Section Moves.
Implicit Types (v : View).

Lemma xmoves_account v s l y : has_account (xmoves v s l) y <-> has_account v y.
Proof.
  revert v. induction l as [|q l IH]; intros v; [done|]. simpl. rewrite IH.
  destruct (skipped s q); [done|]. apply xshift_account.
Qed.

(** The receivers are credited in turn; the sum to take counts every amount. *)
Lemma send_each_xrp_spec cfg s l qs :
  current cfg -> whole_payments cfg (AIssue xrpIssue) l qs ->
  forall v B T, xrp_wf v B -> B + sum_of qs <= int64_max -> 0 <= T -> T + sum_of qs <= cMaxNativeN ->
  (forall q, q ∈ qs -> has_account v q.1) ->
  send_each_xrp cfg v s (AIssue xrpIssue) l (xrp_amount T) =
  Ok (tesSUCCESS, xmoves v s qs, xrp_amount (T + sum_of qs)) /\
  xrp_wf (xmoves v s qs) (B + sum_of qs) /\
  xrp_total (xmoves v s qs) = xrp_total v + paid s qs /\
  (forall y, xrp_balance (xmoves v s qs) y = xrp_balance v y + received s qs y).
Proof.
  intros HC. unfold cMaxNativeN.
  induction 1 as [|[r x] [r' a] l qs (Er & Ex & Ha) HF IH]; intros v B T W HB HT HM Hacc.
  - simpl. rewrite !Z.add_0_r. splits; auto. intros y. lia.
  - cbn [fst snd] in Er, Ex, Ha. subst r'. pose proof (sum_of_pos _ _ _ _ HF) as Hp.
    cbn [sum_of snd] in HB, HM. cbn [send_each_xrp xmoves sum_of received paid fst snd].
    rewrite Ex. cbn [bind]. fold (xrp_amount a). unfold xrp_amount at 1 2. unfold int64_max in HB.
    rewrite st_add_drops by (done || unfold int64_max, cMaxNativeN; lia). cbn [bind].
    rewrite xrp_amount_sign, andb_false_r by lia. fold (xrp_amount (T + a)).
    unfold xrp_amount at 1. rewrite whole_is_zero.
    change ((a =? 0) || (s =? r)) with (skipped s (r, a)). rewrite (Z.add_assoc T a).
    assert (forall q, q ∈ qs -> has_account v q.1) as Hacc' by (intros q Hq; apply Hacc; by right).
    destruct (skipped s (r, a)).
    { destruct (IH v B (T + a) W) as (E1 & W1 & Ht & Hb); unfold int64_max; auto; try lia.
      splits; [done|by apply (xrp_wf_le _ _ _ W1); lia|lia|]. intros y. rewrite Hb. lia. }
    destruct (has_account_peek v r (Hacc _ (list_elem_of_here _ _))) as (ra & Epr & Era).
    rewrite Epr, (xrp_form _ _ W r ra Era). pose proof (xrp_le_total v B r ra W Era) as Hle.
    unfold xrp_amount at 1. rewrite st_add_drops by (done || unfold int64_max, cMaxNativeN; lia).
    cbn [bind]. fold (xrp_amount (drops_of ra + a)).
    assert (update_account v r (set_acct_Balance ra (xrp_amount (drops_of ra + a))) = xshift v r a) as ->
      by (unfold xshift; by rewrite Era).
    destruct (xshift_wf v B r a ra W Era ltac:(lia)) as [W1 Ht1].
    destruct (IH (xshift v r a) (B + a) (T + a) W1) as (E1 & W2 & Ht & Hb);
      unfold int64_max; try lia.
    { intros q Hq. apply xshift_account. auto. }
    splits; [done|by rewrite Z.add_assoc|lia|].
    intros y. rewrite Hb, (xshift_balance v r a y ra Era) by lia. lia.
Qed.

End Moves.

Lemma received_self s qs : received s qs s = 0.
Proof.
  induction qs as [|q qs IH]; [done|]. simpl. unfold skipped.
  rewrite (Z.eqb_sym s q.1). destruct (q.2 =? 0), (q.1 =? s); simpl; lia.
Qed.

Lemma xrp_multi_send `{Keylets} cfg v s l qs waive :
  current cfg -> xrp_wf v cMaxNativeN -> has_account v s ->
  whole_payments cfg (AIssue xrpIssue) l qs -> (forall q, q ∈ qs -> has_account v q.1) ->
  sum_of qs <= cMaxNativeN ->
  accountSendMulti cfg v s (AIssue xrpIssue) l waive =
  Ok (if xrp_balance v s <? sum_of qs then (tecFAILED_PROCESSING, xmoves v s qs)
      else (tesSUCCESS, xshift (xmoves v s qs) s (- sum_of qs))).
Proof.
  intros HC W Hs HF Hacc HT. pose proof (sum_of_pos _ _ _ _ HF) as Hp.
  unfold accountSendMulti, accountSendMultiIOU. change (holds_mpt (AIssue xrpIssue)) with false.
  rewrite andb_false_r. change (asset_native (AIssue xrpIssue)) with true. cbn [negb].
  rewrite st_zeroed_whole by done. cbn [bind]. fold (xrp_amount 0). unfold cMaxNativeN in *.
  destruct (send_each_xrp_spec cfg s l qs HC HF v _ 0 W) as (-> & W1 & _ & Hb);
    [unfold int64_max; lia|lia|unfold cMaxNativeN; lia|done|].
  rewrite Z.add_0_l. cbn [bind isTesSuccess negb].
  pose proof (received_self s qs) as Hself.
  destruct (has_account_peek (xmoves v s qs) s) as (sa & Ep & Es); [by apply xmoves_account|].
  rewrite Ep, (xrp_form _ _ W1 s sa Es). unfold xrp_amount at 1 2. rewrite st_ltb_same. cbn [bind].
  assert (xrp_balance v s = drops_of sa) as ->.
  { specialize (Hb s). unfold xrp_balance at 1 in Hb. rewrite Es in Hb. lia. }
  pose proof (xrp_le_total _ _ s sa W1 Es) as Hle.
  destruct (drops_of sa <? sum_of qs) eqn:El; zbool; [done|].
  unfold xrp_amount. rewrite st_sub_drops by (done || unfold int64_max, cMaxNativeN; lia).
  cbn [bind]. unfold xshift. by rewrite Es.
Qed.
