(* ===== verification/TransfersLines.v ===== *)
(** * Theory of trust lines

    A trust line is listed in the owner directories of both its accounts, on the pages
    it remembers.  Creating, changing and deleting lines keeps it so. *)

From S2P Require Import Prelude.
From S2P Require Import Ter.
From S2P Require Import XrplNumber.
From S2P Require Import Amounts.
From S2P Require Import AmountsWhole.
From S2P Require Import Lending.
From S2P Require Import Directories.
From S2P Require Import DirectoriesFacts.
From S2P Require Import LedgerState.
From S2P Require Import Holdings.
From S2P Require Import Transfers.
From S2P Require Import TransfersFrame.
From stdpp Require Import gmap list.

Local Open Scope Z_scope.

Section Linked.
Context `{Keylets} `{!Inj (=) (=) line_key} (cfg : Settings).
Implicit Types (v : View) (k : Z * Z * Z) (l : RippleState).

(** The directory of [o] lists [ks]; keys of lines among them are those of lines of
    [o]. *)
Definition dir_linked v (o : Z) (ks : list Z) : Prop :=
  lists (ownerDir v o) ks /\ NoDup ks /\
  forall k, line_key k ∈ ks -> is_Some (lines v !! k) /\ (o = k.1.1 \/ o = k.1.2).

Definition line_linked v k l : Prop :=
  k.1.1 <> k.1.2 /\
  line_key k ∈ entries (ownerDir v k.1.1) (line_LowNode l) /\
  line_key k ∈ entries (ownerDir v k.1.2) (line_HighNode l).

Record linked v : Prop := {
  ln_dirs : forall o, exists ks, dir_linked v o ks;
  ln_lines : forall k l, lines v !! k = Some l -> line_linked v k l }.

Lemma linked_ext v v' :
  lines v' = lines v -> ownerDirs v' = ownerDirs v -> linked v -> linked v'.
Proof.
  intros El Ed [Hd Hl]. unfold dir_linked, line_linked, ownerDir in *. split.
  - intros o. unfold dir_linked, ownerDir. rewrite El, Ed. apply Hd.
  - intros k l. rewrite El. unfold line_linked, ownerDir. rewrite Ed. apply Hl.
Qed.

(** Changing a line without moving it. *)
Lemma update_line_linked v k l l' :
  linked v -> lines v !! k = Some l ->
  line_LowNode l' = line_LowNode l -> line_HighNode l' = line_HighNode l ->
  linked (update_line v k l').
Proof.
  intros L Hk Elow Ehigh. split.
  - intros o. destruct (ln_dirs _ L o) as (ks & H1 & H2 & H3). exists ks.
    split; [exact H1|]. split; [exact H2|]. intros k' Hk'. destruct (H3 k' Hk') as [Hs Ho]. split; [|done]. simpl.
    rewrite lookup_insert_is_Some. destruct (decide (k = k')); auto.
  - intros k' l0. simpl. rewrite lookup_insert. case_decide.
    + intros [= <-]. subst k'. destruct (ln_lines _ L k l Hk) as (H1 & H2 & H3).
      unfold line_linked. rewrite Elow, Ehigh. done.
    + intros Hl. by apply (ln_lines _ L).
Qed.

Lemma ownerDir_set v o d o' :
  ownerDir (set_ownerDirs v (<[o := d]> (ownerDirs v))) o' = if decide (o = o') then d else ownerDir v o'.
Proof. unfold ownerDir. simpl. rewrite lookup_insert. by case_decide. Qed.

(** ** Deleting *)

(** One of the two directories forgets the key. *)
Lemma ownerDirRemove_spec v o page key ks :
  lists (ownerDir v o) ks -> key ∈ entries (ownerDir v o) page ->
  exists v' ks', ownerDirRemove v o page key = Ok (true, v') /\
    v' = set_ownerDirs v (<[o := ownerDir v' o]> (ownerDirs v)) /\
    lists (ownerDir v' o) ks' /\ ks ≡ₚ key :: ks' /\
    (forall o', o' <> o -> ownerDir v' o' = ownerDir v o') /\
    (forall p x, x <> key -> x ∈ entries (ownerDir v o) p -> x ∈ entries (ownerDir v' o) p).
Proof.
  intros Hl Hk. destruct (lists_remove _ _ page key false Hl Hk) as (d' & ks' & Hr & Hl' & Hp).
  unfold ownerDirRemove. rewrite Hr. cbn [bind]. eexists _, ks'. split; [done|].
  rewrite ownerDir_set, decide_True by done. splits; auto.
  - intros o' Ho. rewrite ownerDir_set, decide_False by done. done.
  - intros p x. apply (dirRemove_keeps _ _ _ _ _ _ p x Hr).
Qed.

Lemma keys_delete v o k (ks : list Z) :
  (forall k', line_key k' ∈ ks -> is_Some (lines v !! k') /\ (o = k'.1.1 \/ o = k'.1.2)) ->
  line_key k ∉ ks ->
  forall k', line_key k' ∈ ks -> is_Some (delete k (lines v) !! k') /\ (o = k'.1.1 \/ o = k'.1.2).
Proof.
  intros Hks Hnk k' Hin. destruct (Hks k' Hin) as [Hs Hside]. split; [|done].
  rewrite lookup_delete_ne; [done|]. intros <-. done.
Qed.

Lemma trustDelete_linked v k l0 l :
  linked v -> lines v !! k = Some l0 ->
  line_LowNode l = line_LowNode l0 -> line_HighNode l = line_HighNode l0 ->
  exists v', trustDelete v k l k.1.1 k.1.2 = Ok (tesSUCCESS, v') /\ linked v' /\
    lines v' = delete k (lines v) /\ accounts v' = accounts v.
Proof.
  intros L Hk Elow Ehigh. destruct (ln_lines _ L k l0 Hk) as (Hne & Hlow & Hhigh).
  destruct (ln_dirs _ L k.1.1) as (ks1 & Hl1 & Hn1 & Hc1).
  destruct (ln_dirs _ L k.1.2) as (ks2 & Hl2 & Hn2 & Hc2).
  unfold trustDelete. rewrite Elow, Ehigh.
  destruct (ownerDirRemove_spec v k.1.1 (line_LowNode l0) (line_key k) ks1 Hl1 Hlow)
    as (v1 & ks1' & -> & Ev1 & Hl1' & Hp1 & Ho1 & Hk1). cbn [bind negb].
  assert (ownerDir v1 k.1.2 = ownerDir v k.1.2) as E12 by (apply Ho1; done).
  rewrite <- E12 in Hl2, Hhigh.
  destruct (ownerDirRemove_spec v1 k.1.2 (line_HighNode l0) (line_key k) ks2 Hl2 Hhigh)
    as (v2 & ks2' & -> & Ev2 & Hl2' & Hp2 & Ho2 & Hk2). cbn [bind negb].
  eexists. split; [done|].
  assert (lines v2 = lines v) as Elines by (rewrite Ev2; simpl; by rewrite Ev1).
  assert (accounts v2 = accounts v) as Eacc by (rewrite Ev2; simpl; by rewrite Ev1).
  assert (forall o, o <> k.1.1 -> o <> k.1.2 -> ownerDir v2 o = ownerDir v o) as Hother
    by (intros o H1 H2; rewrite Ho2, Ho1; done).
  rewrite Hp1 in Hn1. rewrite Hp2 in Hn2. apply NoDup_cons in Hn1 as [Hn1 Hd1], Hn2 as [Hn2 Hd2].
  splits; [|by rewrite <- Elines|done]. split.
  - intros o. unfold dir_linked. change (ownerDir (set_lines v2 _) o) with (ownerDir v2 o).
    simpl. rewrite Elines.
    destruct (decide (o = k.1.1)) as [->|N1]; [|destruct (decide (o = k.1.2)) as [->|N2]].
    + exists ks1'. rewrite (Ho2 k.1.1) by done. splits; auto. apply keys_delete; [|done].
      intros k' Hin. apply Hc1. rewrite Hp1. by apply list_elem_of_further.
    + exists ks2'. splits; auto. apply keys_delete; [|done].
      intros k' Hin. apply Hc2. rewrite Hp2. by apply list_elem_of_further.
    + destruct (ln_dirs _ L o) as (ks & G1 & G2 & G3). exists ks. rewrite Hother by done.
      splits; auto. apply keys_delete; [done|]. intros Hin. destruct (G3 k Hin) as [_ [?|?]]; congruence.
  - intros k' l' Hl'. simpl in Hl'. rewrite Elines in Hl'. apply lookup_delete_Some in Hl' as [Hkk Hl'].
    destruct (ln_lines _ L k' l' Hl') as (G1 & G2 & G3). unfold line_linked.
    change (ownerDir (set_lines v2 _)) with (ownerDir v2).
    assert (line_key k' <> line_key k) as Hkey by (intros E; apply Hkk; by apply (inj line_key)).
    assert (forall o p, line_key k' ∈ entries (ownerDir v o) p -> line_key k' ∈ entries (ownerDir v2 o) p) as Hstay.
    { intros o p Hin. destruct (decide (o = k.1.1)) as [->|N1]; [|destruct (decide (o = k.1.2)) as [->|N2]].
      - rewrite (Ho2 k.1.1) by done. by apply Hk1.
      - apply Hk2; [done|]. by rewrite E12.
      - by rewrite Hother. }
    splits; auto.
Qed.

(** ** Creating *)

Lemma dirInsert_spec v o key ks page v' :
  lists (ownerDir v o) ks -> key ∉ ks -> dirInsert v o key = Ok (Some page, v') ->
  v' = set_ownerDirs v (<[o := ownerDir v' o]> (ownerDirs v)) /\
  lists (ownerDir v' o) (key :: ks) /\ key ∈ entries (ownerDir v' o) page /\
  (forall o', o' <> o -> ownerDir v' o' = ownerDir v o') /\
  (forall p x, x ∈ entries (ownerDir v o) p -> x ∈ entries (ownerDir v' o) p).
Proof.
  intros Hl Hk Hi. unfold dirInsert in Hi. apply bind_ok in Hi as ([page' d] & Ha & [= -> <-]).
  destruct (lists_added _ _ _ _ _ _ Hl Hk Ha) as [Hl' Hin].
  rewrite ownerDir_set, decide_True by done. splits; auto.
  - intros o' Ho. rewrite ownerDir_set, decide_False by done. done.
  - intros p x. apply (dirAdd_keeps _ _ _ _ _ _ _ Ha).
Qed.

(** A key of a line that does not exist is in no directory. *)
Lemma unlisted v o ks k : dir_linked v o ks -> lines v !! k = None -> line_key k ∉ ks.
Proof. intros (_ & _ & Hc) Hk Hin. destruct (Hc k Hin) as [[l Hl] _]. congruence. Qed.

Lemma keys_insert v o k l (ks : list Z) :
  (forall k', line_key k' ∈ ks -> is_Some (lines v !! k') /\ (o = k'.1.1 \/ o = k'.1.2)) ->
  forall k', line_key k' ∈ ks -> is_Some (<[k := l]> (lines v) !! k') /\ (o = k'.1.1 \/ o = k'.1.2).
Proof.
  intros Hks k' Hin. destruct (Hks k' Hin) as [Hs Hside]. split; [|done].
  rewrite lookup_insert_is_Some. destruct (decide (k = k')); auto.
Qed.

(** A line is listed on both sides and then written. *)
Lemma link_line v v0 k l p1 p2 v1 v2 v3 :
  linked v -> k.1.1 <> k.1.2 -> lines v !! k = None -> ownerDirs v0 = ownerDirs v ->
  dirInsert v0 k.1.1 (line_key k) = Ok (Some p1, v1) ->
  dirInsert v1 k.1.2 (line_key k) = Ok (Some p2, v2) ->
  ownerDirs v3 = ownerDirs v2 -> lines v3 = <[k := l]> (lines v) ->
  line_LowNode l = p1 -> line_HighNode l = p2 -> linked v3.
Proof.
  intros L Hne Hk Ed0 I1 I2 Ed El Elow Ehigh.
  assert (forall o, ownerDir v o = ownerDir v0 o) as E0 by (intros o; unfold ownerDir; by rewrite Ed0).
  destruct (ln_dirs _ L k.1.1) as (ks1 & D1). destruct (ln_dirs _ L k.1.2) as (ks2 & D2).
  pose proof (unlisted _ _ _ _ D1 Hk) as N1. pose proof (unlisted _ _ _ _ D2 Hk) as N2.
  destruct D1 as (Hl1 & Hn1 & Hc1), D2 as (Hl2 & Hn2 & Hc2). rewrite E0 in Hl1, Hl2.
  destruct (dirInsert_spec _ _ _ _ _ _ Hl1 N1 I1) as (Ev1 & Hl1' & Hin1 & Ho1 & Hk1).
  assert (ownerDir v1 k.1.2 = ownerDir v0 k.1.2) as E12 by (apply Ho1; done).
  rewrite <- E12 in Hl2.
  destruct (dirInsert_spec _ _ _ _ _ _ Hl2 N2 I2) as (Ev2 & Hl2' & Hin2 & Ho2 & Hk2).
  assert (forall o, ownerDir v3 o = ownerDir v2 o) as E3 by (intros o; unfold ownerDir; by rewrite Ed).
  assert (forall o p x, x ∈ entries (ownerDir v o) p -> x ∈ entries (ownerDir v2 o) p) as Hstay.
  { intros o p x. rewrite E0. intros Hin. destruct (decide (o = k.1.1)) as [->|M1]; [|destruct (decide (o = k.1.2)) as [->|M2]].
    - rewrite (Ho2 k.1.1) by done. by apply Hk1.
    - apply Hk2. by rewrite E12.
    - by rewrite Ho2, Ho1. }
  split.
  - intros o. unfold dir_linked. rewrite E3, El.
    destruct (decide (o = k.1.1)) as [->|M1]; [|destruct (decide (o = k.1.2)) as [->|M2]].
    + exists (line_key k :: ks1). rewrite (Ho2 k.1.1) by done. splits; [done|by constructor|].
      intros k' [E|Hin]%elem_of_cons; [|by apply (keys_insert v _ k l ks1)].
      apply (inj line_key) in E as ->. rewrite lookup_insert_eq. eauto.
    + exists (line_key k :: ks2). splits; [done|by constructor|].
      intros k' [E|Hin]%elem_of_cons; [|by apply (keys_insert v _ k l ks2)].
      apply (inj line_key) in E as ->. rewrite lookup_insert_eq. eauto.
    + destruct (ln_dirs _ L o) as (ks & G1 & G2 & G3). exists ks. rewrite Ho2, Ho1, <- E0 by done.
      splits; auto. by apply keys_insert.
  - intros k' l'. rewrite El, lookup_insert. unfold line_linked. rewrite !E3. case_decide.
    + intros [= <-]. subst k'. rewrite Elow, Ehigh. splits; [done| |done]. by rewrite (Ho2 k.1.1).
    + intros Hl'. destruct (ln_lines _ L k' l' Hl') as (G1 & G2 & G3). splits; auto.
Qed.

(** ** The operations *)

(** A balance kept in the low account's terms, in those of the account [a]. *)
Definition in_terms_of (a b : Z) amount : STAmount := if b <? a then st_neg amount else amount.

Lemma keylet_ends a b c : a <> b ->
  (line_keylet a b c).1.1 = (if b <? a then b else a) /\
  (line_keylet a b c).1.2 = (if b <? a then a else b).
Proof. intros Hne. unfold line_keylet. destruct (a <? b) eqn:E1, (b <? a) eqn:E2; zbool; simpl; lia. Qed.

Lemma adjustOwnerCount_lines v id adj : lines (adjustOwnerCount v id adj) = lines v.
Proof. unfold adjustOwnerCount. by destruct (accounts v !! id). Qed.
Lemma adjustOwnerCount_dirs v id adj : ownerDirs (adjustOwnerCount v id adj) = ownerDirs v.
Proof. unfold adjustOwnerCount. by destruct (accounts v !! id). Qed.
Lemma adjustOwnerCount_linked v id adj : linked v -> linked (adjustOwnerCount v id adj).
Proof. apply linked_ext; [apply adjustOwnerCount_lines|apply adjustOwnerCount_dirs]. Qed.

Lemma dirInsert_lines v o key r v' : dirInsert v o key = Ok (r, v') -> lines v' = lines v.
Proof. unfold dirInsert. intros ([? ?] & _ & [= _ <-])%bind_ok. done. Qed.

(** What [trustCreate] creates, when it succeeds. *)
Lemma trustCreate_linked v src dst c account bAuth bNoRipple bFreeze bDeepFreeze saBalance saLimit
    qIn qOut ter v' :
  let k := line_keylet src dst c in
  linked v -> src <> dst -> ter = tesSUCCESS ->
  trustCreate cfg v (dst <? src) src dst k account bAuth bNoRipple bFreeze bDeepFreeze
    saBalance saLimit qIn qOut = Ok (ter, v') ->
  linked v' /\ exists l, lines v' = <[k := l]> (lines v) /\
    line_Balance l = (if xorb (dst <? src) (getIssuer (mAsset saLimit) =? dst)
                      then st_neg saBalance else saBalance).
Proof.
  intros k L Hne Hter Ht. destruct (keylet_ends src dst c Hne) as [E1 E2]. fold k in E1, E2.
  unfold trustCreate in Ht. rewrite <- E1, <- E2 in Ht.
  destruct (_ && _); [congruence|]. case_bool_decide as Hnone; [done|].
  apply eq_None_not_Some in Hnone.
  apply bind_ok in Ht as ([lowNode v1] & I1 & Ht). destruct lowNode as [p1|]; [|congruence].
  apply bind_ok in Ht as ([highNode v2] & I2 & Ht). destruct highNode as [p2|]; [|congruence].
  destruct (accounts v2 !! account) as [a|] eqn:Ea; [|congruence].
  destruct (accounts v2 !! (if xorb _ _ then _ else _)) as [peer|]; [|congruence].
  apply bind_ok in Ht as (cur & _ & Ht). apply bind_ok in Ht as (other & _ & Ht).
  injection Ht as _ <-.
  assert (lines (adjustOwnerCount v2 account 1) = <[k := default_line]> (lines v)) as El.
  { rewrite adjustOwnerCount_lines, (dirInsert_lines _ _ _ _ _ I2), (dirInsert_lines _ _ _ _ _ I1). done. }
  split.
  - eapply (link_line v (update_line v k default_line) k _ p1 p2 v1 v2 _ L); [by rewrite E1, E2; destruct (dst <? src)| | | | | | | |]; [done|done|done|done|..].
    + simpl. apply adjustOwnerCount_dirs.
    + simpl. rewrite El. apply insert_insert_eq.
    + done.
    + done.
  - eexists. simpl. rewrite El, insert_insert_eq. split; done.
Qed.

(** What a credit of [amount] from [s] to [r] does to their line: the balance, in the
    sender's terms, goes down by the amount. *)
Definition credited v (s r c : Z) (amount : STAmount) v' : Prop :=
  let k := line_keylet s r c in
  (forall k', k' <> k -> lines v' !! k' = lines v !! k') /\
  match lines v !! k with
  | Some l => exists b, st_sub cfg (in_terms_of s r (line_Balance l)) amount = Ok b /\
      match lines v' !! k with
      | Some l' => line_Balance l' = in_terms_of s r b
      | None => st_is_zero b = true
      end
  | None => exists b l', st_setIssuer amount noAccount = Ok b /\
      lines v' !! k = Some l' /\ line_Balance l' = in_terms_of r s b
  end.

(** The line as the sender's side leaves it, kept or deleted. *)
Lemma settle_line v v1 s r c l l1 amount b (delete_it : bool) :
  let k := line_keylet s r c in
  linked v -> s <> r -> lines v !! k = Some l ->
  lines v1 = lines v -> ownerDirs v1 = ownerDirs v ->
  line_LowNode l1 = line_LowNode l -> line_HighNode l1 = line_HighNode l ->
  st_sub cfg (in_terms_of s r (line_Balance l)) amount = Ok b ->
  line_Balance l1 = in_terms_of s r b -> (delete_it = true -> st_is_zero b = true) ->
  exists v', (if delete_it
              then trustDelete (update_line v1 k l1) k l1 (if r <? s then r else s) (if r <? s then s else r)
              else Ok (tesSUCCESS, update_line v1 k l1)) = Ok (tesSUCCESS, v') /\
    linked v' /\ credited v s r c amount v'.
Proof.
  intros k L Hne Hk El Ed Elow Ehigh Hb Hbal Hdel.
  assert (linked (update_line v1 k l1)) as L1.
  { apply (update_line_linked v1 k l); [by apply (linked_ext v)|by rewrite El|done|done]. }
  unfold credited. fold k. rewrite Hk. destruct delete_it.
  - destruct (keylet_ends s r c Hne) as [<- <-]. fold k.
    destruct (trustDelete_linked (update_line v1 k l1) k l1 l1 L1) as (v' & -> & L' & El' & _);
      [by simpl; rewrite lookup_insert_eq|done|done|].
    exists v'. splits; [done|done| |].
    + intros k' Hk'. rewrite El'. simpl. rewrite lookup_delete_ne, lookup_insert_ne, El by done. done.
    + exists b. split; [done|]. rewrite El', lookup_delete_eq. auto.
  - eexists. splits; [done|done| |].
    + intros k' Hk'. simpl. rewrite lookup_insert_ne, El by done. done.
    + exists b. split; [done|]. simpl. by rewrite lookup_insert_eq.
Qed.

Lemma setIssuer_currency a i b c :
  st_currency a = Ok c -> st_setIssuer a i = Ok b -> st_currency b = Ok c.
Proof.
  unfold st_setIssuer, st_currency. destruct (mAsset a) as [j|] eqn:Ea; [|done].
  intros [= <-] [= <-]. done.
Qed.

Lemma getIssuer_zeroed i b : st_zeroed cfg (AIssue i) = Ok b -> getIssuer (mAsset b) = account i.
Proof. intros Hz. by rewrite (canonicalize_asset cfg _ _ Hz). Qed.

(** A credit keeps every line linked and changes only the line of the two accounts. *)
Lemma rippleCreditIOU_linked v s r c amount ter v' :
  linked v -> s <> r -> st_currency amount = Ok c ->
  rippleCreditIOU cfg v s r amount = Ok (ter, v') ->
  (is_Some (lines v !! line_keylet s r c) -> ter = tesSUCCESS) /\
  (ter = tesSUCCESS -> linked v' /\ credited v s r c amount v').
Proof.
  intros L Hne Hc. unfold rippleCreditIOU. rewrite Hc. cbn [bind].
  destruct (lines v !! line_keylet s r c) as [l|] eqn:Hk.
  - intros (b & Hb & Hr)%bind_ok. apply bind_ok in Hr as (cleared & _ & Hr).
    match type of Hr with (if ?d then trustDelete (update_line ?v1 _ ?l1) _ _ _ _ else _) = _ =>
      destruct (settle_line v v1 s r c l l1 amount b d L Hne Hk) as (v2 & E & L' & C) end.
    + destruct cleared; [apply adjustOwnerCount_lines|done].
    + destruct cleared; [apply adjustOwnerCount_dirs|done].
    + by destruct cleared.
    + by destruct cleared.
    + done.
    + by destruct cleared.
    + by intros [[_ ?]%andb_true_iff _]%andb_true_iff.
    + rewrite E in Hr. injection Hr as <- <-. auto.
  - intros (limit & Hlimit & Hr)%bind_ok. apply bind_ok in Hr as (b & Hb & Hr).
    split; [by intros [? ?]|]. intros Hter.
    destruct (accounts v !! r) as [a|] eqn:Ha; [|congruence].
    destruct (trustCreate_linked _ _ _ _ _ _ _ _ _ _ _ _ _ _ _ L Hne Hter Hr) as (L' & l' & El & Hbal).
    split; [done|]. unfold credited. rewrite Hk, El. split.
    + intros k' Hk'. by rewrite lookup_insert_ne.
    + exists b, l'. splits; [done|by rewrite lookup_insert_eq|]. rewrite Hbal.
      rewrite (getIssuer_zeroed _ _ Hlimit). cbn [account]. rewrite Z.eqb_refl, xorb_true_r.
      unfold in_terms_of. destruct (r <? s) eqn:E1, (s <? r) eqn:E2; zbool; first [done|lia].
Qed.

(** ** Issuing and redeeming *)

(** Changing a line is crediting along it. *)
Lemma change_line_credit v s r c amount l :
  st_currency amount = Ok c -> lines v !! line_keylet s r c = Some l -> is_Some (accounts v !! s) ->
  change_line cfg v (line_keylet s r c) l s r amount = rippleCreditIOU cfg v s r amount.
Proof.
  intros Hc Hk [a Ha]. unfold change_line, rippleCreditIOU, updateTrustLine, sender_side_cleared.
  rewrite Hc. cbn [bind]. rewrite Hk, Ha.
  destruct (st_sub cfg _ amount) as [b|e]; [|done]. cbn [bind].
  destruct (_ && hasFlag _ _); cbn [andb bind]; [|done].
  by destruct (side_is_default _ _ _).
Qed.

(** ** Sending *)

Lemma rippleCreditIOU_env v s r amount ter v' :
  rippleCreditIOU cfg v s r amount = Ok (ter, v') -> env v' = env v.
Proof. intros Hr%rippleCreditIOU_frame. unfold frame in Hr. congruence. Qed.

Lemma credit_linked v s r amount v' :
  linked v -> s <> r -> rippleCreditIOU cfg v s r amount = Ok (tesSUCCESS, v') -> linked v'.
Proof.
  intros L Hne Hr. pose proof Hr as Hc. unfold rippleCreditIOU in Hc.
  apply bind_ok in Hc as (c & Hc & _).
  destruct (rippleCreditIOU_linked v s r c amount _ v' L Hne Hc Hr) as [_ Hs]. by apply Hs.
Qed.

Lemma rippleSendIOU_linked v s r amount fee v' :
  featureDeletableAccounts (rules (env v)) = true -> linked v -> s <> r ->
  rippleSendIOU cfg v s r amount fee = Ok (tesSUCCESS, v') -> linked v'.
Proof.
  intros HF L Hne. unfold rippleSendIOU. destruct (_ || _ || _) eqn:Edir.
  - intros ([ter v1] & Hc & Hr)%bind_ok. rewrite (rippleCreditIOU_env _ _ _ _ _ _ Hc), HF in Hr.
    destruct ter; simpl in Hr; try congruence. injection Hr as <-. by apply (credit_linked v s r amount).
  - apply orb_false_iff in Edir as [[E1 E2]%orb_false_iff _]. zbool.
    intros (actual & _ & Hr)%bind_ok. unfold and_then in Hr.
    apply bind_ok in Hr as ([ter v1] & Hc & Hr). destruct (isTesSuccess ter) eqn:Et; [|by destruct ter].
    assert (ter = tesSUCCESS) as -> by (by destruct ter).
    apply credit_linked in Hc; [|done|congruence]. by apply credit_linked in Hr.
Qed.

Lemma send_each_iou_linked v s asset qs fee t a v' t' :
  linked v -> send_each_iou cfg v s asset qs fee t a = Ok (tesSUCCESS, v', t') -> linked v'.
Proof.
  revert v t a. induction qs as [|[r x] qs IH]; intros v t a L; simpl; [by intros [= <- _]|].
  intros (amount & _ & Hr)%bind_ok. destruct (_ || _) eqn:Eskip; [by apply IH in Hr|].
  apply orb_false_iff in Eskip as [_ Esr]. apply Z.eqb_neq in Esr. destruct (_ || _ || _) eqn:Edir.
  - apply bind_ok in Hr as ([ter v1] & Hc & Hr).
    destruct ter; simpl in Hr; try congruence. apply bind_ok in Hr as (a' & _ & Hr).
    apply IH in Hr; [done|]. by apply credit_linked in Hc.
  - apply orb_false_iff in Edir as [[E1 E2]%orb_false_iff _]. zbool.
    apply bind_ok in Hr as (actual & _ & Hr). apply bind_ok in Hr as (a' & _ & Hr).
    apply bind_ok in Hr as (t1 & _ & Hr). apply bind_ok in Hr as ([ter v1] & Hc & Hr).
    destruct ter; simpl in Hr; try congruence.
    apply IH in Hr; [done|]. apply credit_linked in Hc; [done|done|congruence].
Qed.

Lemma rippleSendMultiIOU_linked v s asset qs fee v' :
  linked v -> rippleSendMultiIOU cfg v s asset qs fee = Ok (tesSUCCESS, v') -> linked v'.
Proof.
  intros L. unfold rippleSendMultiIOU. intros (z & _ & Hr)%bind_ok.
  apply bind_ok in Hr as ([[ter v1] t] & He & Hr). destruct ter; simpl in Hr; try congruence.
  apply send_each_iou_linked in He; [|done].
  destruct (_ && _) eqn:Ec; [|by injection Hr as <-].
  apply andb_true_iff in Ec as [Ec _]. rewrite negb_true_iff in Ec. zbool.
  by apply credit_linked in Hr.
Qed.

End Linked.
