(* ===== verification/SampleLedger.v ===== *)
(** * A small ledger

    Three accounts, an issued currency and a multi-purpose token, on which the
    theorems about transfers and transactions are evaluated. *)

From S2P Require Import Prelude.
From S2P Require Import XrplNumber.
From S2P Require Import Amounts.
From S2P Require Import AmountsRound.
From S2P Require Import Directories.
From S2P Require Import LedgerState.
From stdpp Require Import gmap list.

Local Open Scope Z_scope.

(** The entries of the ledger, encoded as keys: different entries have different keys. *)
Inductive EntryKind : Set := kline | ktoken | kissuance | kvault | kbroker | kloan | kpseudo | kcredential.

Definition kind_number (k : EntryKind) : Z :=
  match k with
  | kline => 0 | ktoken => 1 | kissuance => 2 | kvault => 3 | kbroker => 4 | kloan => 5 | kpseudo => 6
  | kcredential => 7
  end.

Definition sample_key (k : EntryKind) (x : Z * Z * Z) : Z := Z.pos (encode (kind_number k, x)).

#[global] Instance sample_keylets : Keylets := {
  line_key := sample_key kline;
  mptoken_key k := sample_key ktoken (k, 0);
  issuance_key id := sample_key kissuance (id, 0, 0);
  credential_key := sample_key kcredential;
  vault_keylet a b := sample_key kvault (a, b, 0);
  loanbroker_keylet a b := sample_key kbroker (a, b, 0);
  loan_keylet a b := sample_key kloan (a, b, 0);
  pseudo_hash i h k := sample_key kpseudo (i, h, k) }.

Lemma sample_key_inj k k' x x' : sample_key k x = sample_key k' x' -> kind_number k = kind_number k' /\ x = x'.
Proof.
  intros E. assert (encode (kind_number k, x) = encode (kind_number k', x')) as E'
    by (apply Pos2Z.inj; exact E).
  apply (inj encode) in E'. by injection E'.
Qed.

#[global] Instance sample_line_key_inj : Inj (=) (=) line_key.
Proof. intros k k' E. by apply sample_key_inj in E as [_ ->]. Qed.

Definition sample_settings : Settings := mkSettings to_nearest true true.

Definition sample_rules : Rules := mkRules true true true true true true true true true true true true true true.

Definition sample_env : Env :=
  mkEnv sample_rules (mkFees 10 1000000 200000) false 1000 1010 0 90 ∅ ∅ ∅ ∅.

Definition gateway : Z := 5.
Definition alice : Z := 7.
Definition bob : Z := 9.
Definition token : Z := gateway.      (* the first issuance of the gateway *)
Definition dollars : Asset := AIssue (mkIssue 840 gateway).

Definition sample_account (drops : Z) : AccountRoot :=
  mkAccount (st_whole (AIssue xrpIssue) drops) 0 lsfDefaultRipple None None None None 1.

Definition sample_view : View :=
  mkLedger sample_env
    {[gateway := sample_account 50000000; alice := sample_account 60000000;
      bob := sample_account 70000000]}
    ∅
    {[token := mkIssuance gateway 0 1000 (Some 5000) None None 0 1 0 None 0]}
    {[(token, alice) := mkToken 0 600 0; (token, bob) := mkToken 0 400 0]}
    ∅ ∅ ∅ ∅ ∅.
