(* ===== verification/TransfersProps.v ===== *)
(** * Properties of transfers

    Multi-purpose tokens, XRP and trust lines under the transfer functions. *)

From S2P Require Import Prelude.
From S2P Require Import Ter.
From S2P Require Import XrplNumber.
From S2P Require Import Amounts.
From S2P Require Import AmountsFacts.
From S2P Require Import AmountsRound.
From S2P Require Import AmountsWhole.
From S2P Require Import Lending.
From S2P Require Import LedgerState.
From S2P Require Import Holdings.
From S2P Require Import Transfers.
From S2P Require Import TransfersMPT.
From S2P Require Import TransfersXRP.
From S2P Require Import TransfersLines.
From S2P Require Import SampleLedger.
From stdpp Require Import gmap list.

Local Open Scope Z_scope.

(** ** Multi-purpose tokens *)


Lemma sample_books : books sample_view token maxMPTokenAmount.
Proof.
  split; [by eexists|by vm_compute|by vm_compute|].
  intros k t. simpl. rewrite lookup_insert. case_decide; [by intros [= <-]|].
  rewrite lookup_singleton_Some. by intros [_ <-].
Qed.


(** A payment of a multi-purpose token to several receivers that succeeds, with
    the fee waived, gives every receiver what is addressed to it and takes from the
    sender the sum of what the others received: payments of nothing and payments to
    the sender itself change nothing.  What all holders have stays equal to the
    outstanding amount. *)
Theorem mpt_multi_conserves `{Keylets} cfg v id s l qs v' :
  current cfg -> books v id maxMPTokenAmount -> whole_payments cfg (AMPT id) l qs ->
  sum_of qs <= maxMPTokenAmount ->
  accountSendMulti cfg v s (AMPT id) l Waive = Ok (tesSUCCESS, v') ->
  outstanding v' id = held v' id /\
  forall x, mpt_balance v' id x =
            mpt_balance v id x + received s qs x - (if s =? x then paid s qs else 0).
Proof.
  intros HC W HF HT Hs. destruct (multi_send_books cfg v id s l qs v' HC W HF HT Hs) as [W' Hb].
  split; [apply (bk_outstanding _ _ _ W')|done].
Qed.

Definition sample_payments : list (Z * Number) :=
  [(bob, mkNumber 1000000000000000 (-13)); (alice, mkNumber 7000000000000000 (-15));
   (gateway, mkNumber 2500000000000000 (-14))].
Definition sample_whole : list (Z * Z) := [(bob, 100); (alice, 7); (gateway, 25)].

Lemma sample_payments_whole asset :
  asset = AMPT token \/ asset = AIssue xrpIssue ->
  whole_payments sample_settings asset sample_payments sample_whole.
Proof.
  intros [->| ->]; repeat constructor; by vm_compute.
Qed.

Lemma mpt_multi_conserves_witness :
  exists v', accountSendMulti sample_settings sample_view alice (AMPT token) sample_payments Waive =
             Ok (tesSUCCESS, v') /\
    outstanding v' token = held v' token /\
    forall x, mpt_balance v' token x =
              mpt_balance sample_view token x + received alice sample_whole x
              - (if alice =? x then paid alice sample_whole else 0).
Proof.
  eexists. split; [vm_compute; reflexivity|].
  apply (mpt_multi_conserves sample_settings sample_view token alice sample_payments sample_whole);
    [done|apply sample_books|apply sample_payments_whole; by left|by vm_compute|vm_compute; reflexivity].
Defined.

(** The maximum amount does not bind the issuer of a multiple payment: the issuance it
    is compared with was read before the first credit, and what was sent so far is
    not counted.  Two payments of 4000 against a maximum of 5000 leave 9000
    outstanding. *)
Example mpt_multi_exceeds_maximum :
  maximum_of sample_view token = 5000 /\ outstanding sample_view token = 1000 /\
  match accountSendMulti sample_settings sample_view gateway (AMPT token)
          [(alice, mkNumber 4000000000000000 (-12)); (bob, mkNumber 4000000000000000 (-12))] Waive with
  | Ok (ter, v) => ter = tesSUCCESS /\ outstanding v token = 9000
  | Throw _ => False
  end.
Proof. by vm_compute. Qed.

(** ** XRP *)

(** A payment of XRP that succeeds moves the amount and keeps the total. *)
Lemma xrp_send_conserves `{Keylets} cfg v s r a waive v' :
  current cfg -> xrp_wf v cMaxNativeN -> has_account v s -> has_account v r -> s <> r ->
  0 < a <= cMaxNativeN -> accountSend cfg v s r (xrp_amount a) waive = Ok (tesSUCCESS, v') ->
  xrp_total v' = xrp_total v /\
  forall x, xrp_balance v' x = xrp_balance v x + (if r =? x then a else 0) - (if s =? x then a else 0).
Proof.
  intros HC W Hs Hr Hne Ha. rewrite (xrp_send cfg v s r a waive) by done.
  destruct (xrp_balance v s <? a) eqn:El; [by destruct (is_open (env v))|]. intros [= <-]. zbool.
  destruct Hs as [Hs0 [sa Es]], Hr as [Hr0 [ra Er]]. unfold xrp_balance in El. rewrite Es in El.
  pose proof (xrp_le_total v _ s sa W Es) as Hb. unfold cMaxNativeN in *.
  destruct (xshift_wf v _ s (- a) sa W Es ltac:(lia)) as [W1 Ht].
  assert (accounts (xshift v s (- a)) !! r = Some ra) as Er1.
  { unfold xshift. rewrite Es. simpl. by rewrite lookup_insert_ne. }
  pose proof (xrp_le_total _ _ r ra W1 Er1) as Hbr.
  destruct (xshift_wf _ _ r a ra W1 Er1 ltac:(lia)) as [_ Ht']. split; [lia|].
  intros x. rewrite (xshift_balance _ r a x ra Er1), (xshift_balance v s (- a) x sa Es) by lia.
  destruct (s =? x), (r =? x); lia.
Qed.

(** A payment of XRP to several receivers always returns; it fails exactly when the
    sender has less than the sum of all amounts.  Otherwise every receiver gets what is
    addressed to it and the sender loses the sum: amounts addressed to the sender
    itself are taken and given to nobody, and the total falls by them. *)
Theorem xrp_multi_pays `{Keylets} cfg v s l qs waive :
  current cfg -> xrp_wf v cMaxNativeN -> has_account v s ->
  whole_payments cfg (AIssue xrpIssue) l qs -> (forall q, q ∈ qs -> has_account v q.1) ->
  sum_of qs <= cMaxNativeN ->
  exists v', accountSendMulti cfg v s (AIssue xrpIssue) l waive =
             Ok (if xrp_balance v s <? sum_of qs then tecFAILED_PROCESSING else tesSUCCESS, v') /\
    (sum_of qs <= xrp_balance v s ->
     (forall x, xrp_balance v' x =
                xrp_balance v x + received s qs x - (if s =? x then sum_of qs else 0)) /\
     xrp_total v' = xrp_total v - (sum_of qs - paid s qs)).
Proof.
  intros HC W Hs HF Hacc HT. pose proof (sum_of_pos _ _ _ _ HF) as Hp.
  rewrite (xrp_multi_send cfg v s l qs waive) by done.
  destruct (xrp_balance v s <? sum_of qs) eqn:El; zbool; (eexists; split; [done|]); [lia|]. intros _.
  unfold cMaxNativeN in *.
  destruct (send_each_xrp_spec cfg s l qs HC HF v _ 0 W) as (_ & W1 & Ht & Hb);
    [unfold int64_max; lia|lia|unfold cMaxNativeN; lia|done|].
  assert (has_account (xmoves v s qs) s) as [_ [sa Es]] by (by apply xmoves_account).
  pose proof (Hb s) as Hbs. rewrite received_self in Hbs. unfold xrp_balance at 1 in Hbs.
  rewrite Es in Hbs. pose proof (xrp_le_total _ _ s sa W1 Es) as Hle.
  destruct (xshift_wf _ _ s (- sum_of qs) sa W1 Es ltac:(lia)) as [_ Ht']. split; [|lia].
  intros x. rewrite (xshift_balance _ s _ x sa Es) by lia. rewrite Hb. destruct (s =? x); lia.
Qed.

Lemma sample_xrp : xrp_wf sample_view cMaxNativeN.
Proof.
  split; [| |by vm_compute];
    intros x a; simpl; rewrite !lookup_insert; repeat (case_decide; [by intros [= <-]|]);
    rewrite lookup_singleton_Some; by intros [_ <-].
Qed.

Lemma xrp_multi_pays_witness :
  exists v', accountSendMulti sample_settings sample_view alice (AIssue xrpIssue) sample_payments Waive =
             Ok (tesSUCCESS, v') /\
    (sum_of sample_whole <= xrp_balance sample_view alice ->
     (forall x, xrp_balance v' x =
                xrp_balance sample_view x + received alice sample_whole x
                - (if alice =? x then sum_of sample_whole else 0)) /\
     xrp_total v' = xrp_total sample_view - 7).
Proof.
  apply (xrp_multi_pays sample_settings sample_view alice sample_payments sample_whole Waive);
    [done|apply sample_xrp|split; [done|by eexists]|apply sample_payments_whole; by right| |by vm_compute].
  intros q. unfold sample_whole. rewrite !elem_of_cons, elem_of_nil.
  intros [->|[->|[->|[]]]]; (split; [done|by eexists]).
Defined.

(** ** Trust lines *)

(** C36. A credit between two accounts over their trust line keeps every line of the
    ledger listed in the owner directories of both its accounts, on the pages the line
    remembers, and every directory free of lines that do not exist.  It never fails on a
    line that exists.  When it succeeds no other line changes; the balance, in the
    sender's terms, falls by the amount, and a line that is gone had come to zero.
    Between accounts with no line it makes one that owes the amount.  Issuing and
    redeeming an amount over a line is this credit. *)
Theorem trust_line_credit `{Keylets} `{!Inj (=) (=) line_key} cfg v s r c i amount :
  linked v -> s <> r -> mAsset amount = AIssue (mkIssue c i) ->
  (forall ter v', rippleCreditIOU cfg v s r amount = Ok (ter, v') ->
     (is_Some (lines v !! line_keylet s r c) -> ter = tesSUCCESS) /\
     (ter = tesSUCCESS -> linked v' /\ credited cfg v s r c amount v')) /\
  (is_Some (accounts v !! s) ->
   issueIOU cfg v r amount (mkIssue c s) = rippleCreditIOU cfg v s r amount /\
   (is_Some (lines v !! line_keylet s r c) ->
    redeemIOU cfg v s amount (mkIssue c r) = rippleCreditIOU cfg v s r amount)).
Proof.
  intros L Hne Ha. assert (st_currency amount = Ok c) as Hc by (unfold st_currency; by rewrite Ha).
  split; [intros ter v'; by apply rippleCreditIOU_linked|]. intros Hs. split.
  - unfold issueIOU. cbn [account currency].
    destruct (lines v !! line_keylet s r c) as [l|] eqn:Hk; [by apply change_line_credit|].
    unfold rippleCreditIOU. rewrite Hc. cbn [bind]. by rewrite Hk.
  - intros [l Hk]. unfold redeemIOU. cbn [account currency]. rewrite Hk. by apply change_line_credit.
Qed.

(** A payment of an issued currency that succeeds, to one receiver or to several,
    direct or through the issuer, keeps every trust line listed as it must be. *)
Theorem iou_payments_linked `{Keylets} `{!Inj (=) (=) line_key} cfg v s i amount qs fee :
  linked v -> featureDeletableAccounts (rules (env v)) = true ->
  mAsset amount = AIssue i -> issue_native i = false ->
  (forall r v', accountSend cfg v s r amount fee = Ok (tesSUCCESS, v') -> linked v') /\
  (forall v', accountSendMulti cfg v s (AIssue i) qs fee = Ok (tesSUCCESS, v') -> linked v').
Proof.
  intros L HF Ha Hi. split.
  - intros r v'. unfold accountSend. rewrite Ha. unfold accountSendIOU, native, asset_native.
    rewrite Ha, Hi. cbn [negb]. destruct (_ && _); [done|].
    destruct (_ || _) eqn:E; [by intros [= <-]|].
    apply orb_false_iff in E as [_ E]. zbool. by apply rippleSendIOU_linked.
  - intros v'. unfold accountSendMulti, accountSendMultiIOU, asset_native. rewrite Hi. cbn [negb].
    destruct (_ && _); [done|]. by apply rippleSendMultiIOU_linked.
Qed.

Lemma sample_linked : linked sample_view.
Proof.
  split.
  - intros o. exists []. split; [left; by split|]. split; [constructor|].
    intros k Hk. by apply not_elem_of_nil in Hk.
  - intros k l Hk. simpl in Hk. by rewrite lookup_empty in Hk.
Qed.

Definition ten_dollars : STAmount := mkSTAmount dollars 1000000000000000 (-14) false.

(** The gateway pays ten dollars to Alice, over a line the payment makes. *)
Lemma trust_line_credit_witness :
  exists v', rippleCreditIOU sample_settings sample_view gateway alice ten_dollars = Ok (tesSUCCESS, v') /\
    linked v' /\ credited sample_settings sample_view gateway alice 840 ten_dollars v'.
Proof.
  eexists. split; [vm_compute; reflexivity|].
  apply (proj1 (trust_line_credit sample_settings sample_view gateway alice 840 gateway ten_dollars
    sample_linked ltac:(done) eq_refl) tesSUCCESS); [vm_compute; reflexivity|done].
Defined.

Lemma iou_payments_linked_witness :
  exists v', accountSendMulti sample_settings sample_view gateway dollars
               [(alice, mkNumber 1000000000000000 (-14)); (bob, mkNumber 2000000000000000 (-14))] Waive =
             Ok (tesSUCCESS, v') /\ linked v'.
Proof.
  eexists. split; [vm_compute; reflexivity|].
  apply (proj2 (iou_payments_linked sample_settings sample_view gateway (mkIssue 840 gateway) ten_dollars
    [(alice, mkNumber 1000000000000000 (-14)); (bob, mkNumber 2000000000000000 (-14))] Waive
    sample_linked eq_refl eq_refl eq_refl)).
  vm_compute. reflexivity.
Defined.

(** ** Clearing *)

(** [STAmount::clear] gives a zero of a multi-purpose token the exponent -100, which
    no other operation does: it differs from the zero that the constructor makes. *)
Example cleared_mpt_zero_differs :
  st_zeroed sample_settings (AMPT token) = Ok (mpt_amount token 0) /\
  st_eqb (st_clear (AMPT token)) (mpt_amount token 0) = false.
Proof. by vm_compute. Qed.
