(* ===== verification/LoanManage.v ===== *)
(** * Managing a loan

    The transaction that impairs a loan, reverses the impairment or declares the loan
    in default ([src/xrpld/app/tx/detail/LoanManage.cpp]). *)

From S2P Require Import Prelude.
From S2P Require Import Ter.
From S2P Require Import XrplNumber.
From S2P Require Import Amounts.
From S2P Require Import Lending.
From S2P Require Import LedgerState.
From S2P Require Import Holdings.
From S2P Require Import Transfers.
From stdpp Require Import gmap list.

Local Open Scope Z_scope.

Definition tfUniversal : Z := Z.lor 0x80000000 0x40000000.
Definition tfUniversalMask : Z := Z.lxor 0xFFFFFFFF tfUniversal.

Definition tfLoanDefault : Z := 0x00010000.
Definition tfLoanImpair : Z := 0x00020000.
Definition tfLoanUnimpair : Z := 0x00040000.
Definition tfLoanManageMask : Z :=
  Z.lxor 0xFFFFFFFF (Z.lor (Z.lor (Z.lor tfUniversal tfLoanDefault) tfLoanImpair) tfLoanUnimpair).

Record LoanManageTx : Set := mkLoanManage {
  lm_Account : Z;
  lm_LoanID : Z;
  lm_Flags : option Z }.

(** [tx.isFlag]; a field that is absent reads as no flags. *)
Definition lm_isFlag (tx : LoanManageTx) (f : Z) : bool := isFlag (default 0 (lm_Flags tx)) f.

(** ** Writes through the field proxies *)

Definition set_loan_fields (l : LoanEntry) (x : Loan) : LoanEntry :=
  mkLoanEntry x (loan_Borrower l) (loan_LoanBrokerID l) (loan_GracePeriod l) (loan_Default l)
    (loan_Impaired l) (loan_OriginationFee l) (loan_LoanSequence l) (loan_OwnerNode l)
    (loan_LoanBrokerNode l).
Definition set_loan_flags (l : LoanEntry) (d i : bool) : LoanEntry :=
  mkLoanEntry (loan_fields l) (loan_Borrower l) (loan_LoanBrokerID l) (loan_GracePeriod l) d i
    (loan_OriginationFee l) (loan_LoanSequence l) (loan_OwnerNode l) (loan_LoanBrokerNode l).
Definition set_nextDue (x : Loan) (next : option Z) : Loan :=
  set_schedule x (sfPreviousPaymentDate x) next (sfPaymentRemaining x).
Definition set_vault_assets (x : Vault) (assetsTotal assetsAvailable : Number) : Vault :=
  mkVault (vault_Owner x) (vault_Account x) (vault_Asset x) assetsTotal assetsAvailable
    (vault_LossUnrealized x) (vault_ShareMPTID x) (vault_Flags x) (vault_AssetsMaximum x) (vault_Scale x)
    (vault_WithdrawalPolicy x) (vault_Sequence x) (vault_OwnerNode x) (vault_Data x).
Definition set_vault_loss (x : Vault) (loss : Number) : Vault :=
  mkVault (vault_Owner x) (vault_Account x) (vault_Asset x) (vault_AssetsTotal x)
    (vault_AssetsAvailable x) loss (vault_ShareMPTID x) (vault_Flags x) (vault_AssetsMaximum x) (vault_Scale x)
    (vault_WithdrawalPolicy x) (vault_Sequence x) (vault_OwnerNode x) (vault_Data x).
Definition set_broker_funds (b : LoanBroker) (debt cover : Number) : LoanBroker :=
  mkBroker (broker_Owner b) (broker_Account b) (broker_VaultID b) (broker_ManagementFeeRate b)
    (broker_OwnerCount b) debt (broker_DebtMaximum b) cover (broker_CoverRateMinimum b)
    (broker_CoverRateLiquidation b) (broker_LoanSequence b) (broker_Sequence b)
    (broker_OwnerNode b) (broker_VaultNode b) (broker_Data b).

(** A field that must be present. *)
Definition present {A} (x : option A) : result A :=
  match x with Some a => Ok a | None => Throw runtime_error end.

Section LoanManage.
Context `{Keylets} (cfg : Settings).
Implicit Types (v : View) (loan : LoanEntry) (vault : Vault) (broker : LoanBroker).

Local Notation "x [+] y" := (number_add (round_mode cfg) x y) (at level 50).
Local Notation "x [-] y" := (number_sub (round_mode cfg) x y) (at level 50).

(** ** Checks *)

Definition LoanManage_preflight (tx : LoanManageTx) : TER :=
  if lm_LoanID tx =? 0 then temINVALID
  else
    let flags := Z.land (default 0 (lm_Flags tx)) tfUniversalMask in
    if negb (default 0 (lm_Flags tx) =? 0) && negb (Z.land flags (u32 (flags - 1)) =? 0)
    then temINVALID_FLAG
    else tesSUCCESS.

Definition LoanManage_preclaim v (tx : LoanManageTx) : result TER :=
  match loans v !! lm_LoanID tx with
  | None => Ok tecNO_ENTRY
  | Some loan =>
      if loan_Default loan then Ok tecNO_PERMISSION
      else if loan_Impaired loan && lm_isFlag tx tfLoanImpair then Ok tecNO_PERMISSION
      else if negb (loan_Impaired loan || loan_Default loan) && lm_isFlag tx tfLoanUnimpair
      then Ok tecNO_PERMISSION
      else if sfPaymentRemaining (loan_fields loan) =? 0 then Ok tecNO_PERMISSION
      else
        let* too_soon :=
          if lm_isFlag tx tfLoanDefault then
            let* due := present (sfNextPaymentDueDate (loan_fields loan)) in
            Ok (negb (hasExpired (parentCloseTime (env v)) (Some (u32 (due + loan_GracePeriod loan)))))
          else Ok false in
        if too_soon then Ok tecTOO_SOON
        else match brokers v !! loan_LoanBrokerID loan with
        | None => Ok tecINTERNAL
        | Some broker =>
            if negb (broker_Owner broker =? lm_Account tx) then Ok tecNO_PERMISSION
            else Ok tesSUCCESS
        end
  end.

(** ** State changes *)

Definition owedToVault loan : result Number :=
  sfTotalValueOutstanding (loan_fields loan) [-] sfManagementFeeOutstanding (loan_fields loan).

(** The part of a default that the first-loss capital covers. *)
Definition coveredByBroker (asset : Asset) loan broker (totalDefaultAmount : Number) : result Number :=
  let* minimum := tenthBipsOfValue cfg (broker_DebtTotal broker) (broker_CoverRateMinimum broker) in
  let* liquidated := tenthBipsOfValue cfg minimum (broker_CoverRateLiquidation broker) in
  roundToAsset cfg asset (number_min liquidated totalDefaultAmount)
    (sfLoanScale (loan_fields loan)) (round_mode cfg).

(** Dust by which the available assets exceed the total is added to the total. *)
Definition absorb_dust (asset : Asset) (assetsTotal assetsAvailable : Number) : result Number :=
  if number_gtb assetsAvailable assetsTotal && negb (asset_integral asset) then
    let* difference := assetsAvailable [-] assetsTotal in
    Ok (if 13 <? exponent_ assetsAvailable - exponent_ difference then assetsAvailable
        else assetsTotal)
  else Ok assetsTotal.

(** The fields of the loan, the broker and the vault that a default changes. *)
Definition default_loan_entry loan : LoanEntry :=
  let x := loan_fields loan in
  set_loan_flags
    (set_loan_fields loan
       (set_outstanding (set_schedule x (sfPreviousPaymentDate x) None 0) zero zero zero))
    true (loan_Impaired loan).

Definition defaultLoan v (loanID brokerID vaultID : Z) loan broker vault (asset : Asset)
  : result (TER * View) :=
  let* totalDefaultAmount := owedToVault loan in
  let* defaultCovered := coveredByBroker asset loan broker totalDefaultAmount in
  let* vaultDefaultAmount := totalDefaultAmount [-] defaultCovered in
  if number_ltb (vault_AssetsTotal vault) vaultDefaultAmount then Ok (tefBAD_LEDGER, v)
  else
    let* assetsTotal := vault_AssetsTotal vault [-] vaultDefaultAmount in
    let* assetsAvailable := vault_AssetsAvailable vault [+] defaultCovered in
    let* assetsTotal := absorb_dust asset assetsTotal assetsAvailable in
    if number_gtb assetsAvailable assetsTotal then Ok (tecLIMIT_EXCEEDED, v)
    else
      let vault := set_vault_assets vault assetsTotal assetsAvailable in
      if loan_Impaired loan && number_ltb (vault_LossUnrealized vault) totalDefaultAmount
      then Ok (tefBAD_LEDGER, v)
      else
        let* loss :=
          if loan_Impaired loan then vault_LossUnrealized vault [-] totalDefaultAmount
          else Ok (vault_LossUnrealized vault) in
        let vault := set_vault_loss vault loss in
        let v := update_vault v vaultID vault in
        if number_ltb (broker_DebtTotal broker) totalDefaultAmount then Ok (tefBAD_LEDGER, v)
        else
          let* debt := broker_DebtTotal broker [-] totalDefaultAmount in
          if number_ltb (broker_CoverAvailable broker) defaultCovered then Ok (tefBAD_LEDGER, v)
          else
            let* cover := broker_CoverAvailable broker [-] defaultCovered in
            let v := update_broker v brokerID (set_broker_funds broker debt cover) in
            let v := update_loan v loanID (default_loan_entry loan) in
            let* amount := st_of_number cfg asset defaultCovered in
            accountSend cfg v (broker_Account broker) (vault_Account vault) amount Waive.

(** [impairLoan] and [unimpairLoan] change the entries they are given. *)
Definition impairLoan v loan vault : result (TER * LoanEntry * Vault) :=
  let* lossUnrealized := owedToVault loan in
  let* loss := vault_LossUnrealized vault [+] lossUnrealized in
  let vault := set_vault_loss vault loss in
  let* unavailable := vault_AssetsTotal vault [-] vault_AssetsAvailable vault in
  if number_gtb loss unavailable then Ok (tecLIMIT_EXCEEDED, loan, vault)
  else
    let loan := set_loan_flags loan (loan_Default loan) true in
    let* due := present (sfNextPaymentDueDate (loan_fields loan)) in
    let now := parentCloseTime (env v) in
    let due := if hasExpired now (Some due) then due else now in
    Ok (tesSUCCESS, set_loan_fields loan (set_nextDue (loan_fields loan) (Some due)), vault).

Definition unimpairLoan v loan vault : result (TER * LoanEntry * Vault) :=
  let* lossReversed := owedToVault loan in
  if number_ltb (vault_LossUnrealized vault) lossReversed then Ok (tefBAD_LEDGER, loan, vault)
  else
    let* loss := vault_LossUnrealized vault [-] lossReversed in
    let vault := set_vault_loss vault loss in
    let loan := set_loan_flags loan (loan_Default loan) false in
    let x := loan_fields loan in
    let now := parentCloseTime (env v) in
    let normalPaymentDueDate :=
      u32 (Z.max (sfPreviousPaymentDate x) (sfStartDate x) + sfPaymentInterval x) in
    let due :=
      if hasExpired now (Some normalPaymentDueDate) then u32 (now + sfPaymentInterval x)
      else normalPaymentDueDate in
    Ok (tesSUCCESS, set_loan_fields loan (set_nextDue x (Some due)), vault).

(** Both write the entries back when they succeed. *)
Definition write_loan_vault v (loanID vaultID : Z) (r : TER * LoanEntry * Vault) : TER * View :=
  let '(ter, loan, vault) := r in
  (ter, if isTesSuccess ter then update_loan (update_vault v vaultID vault) loanID loan else v).

Definition LoanManage_doApply v (tx : LoanManageTx) : result (TER * View) :=
  let loanID := lm_LoanID tx in
  match loans v !! loanID with
  | None => Ok (tefBAD_LEDGER, v)
  | Some loan =>
      let brokerID := loan_LoanBrokerID loan in
      match brokers v !! brokerID with
      | None => Ok (tefBAD_LEDGER, v)
      | Some broker =>
          let vaultID := broker_VaultID broker in
          match vaults v !! vaultID with
          | None => Ok (tefBAD_LEDGER, v)
          | Some vault =>
              if lm_isFlag tx tfLoanDefault
              then defaultLoan v loanID brokerID vaultID loan broker vault (vault_Asset vault)
              else if lm_isFlag tx tfLoanImpair then
                let* r := impairLoan v loan vault in
                Ok (write_loan_vault v loanID vaultID r)
              else if lm_isFlag tx tfLoanUnimpair then
                let* r := unimpairLoan v loan vault in
                Ok (write_loan_vault v loanID vaultID r)
              else Ok (tesSUCCESS, v)
          end
      end
  end.

End LoanManage.
