(* ===== verification/LoanBrokers.v ===== *)
(** * Loan brokers

    The transactions that create, change and delete a loan broker and move its
    first-loss capital
    ([src/xrpld/app/tx/detail/LoanBroker{Set,Delete,CoverDeposit,CoverWithdraw,
    CoverClawback}.cpp]). *)

From S2P Require Import Prelude.
From S2P Require Import Ter.
From S2P Require Import XrplNumber.
From S2P Require Import Amounts.
From S2P Require Import Lending.
From S2P Require Import LedgerState.
From S2P Require Import Holdings.
From S2P Require Import Transfers.
From S2P Require Import Transactors.
From S2P Require Import LoanManage.
From stdpp Require Import gmap list.

Local Open Scope Z_scope.

Definition maxManagementFeeRate : Z := 10000.
Definition maxCoverRate : Z := 100000.

Record LoanBrokerSetTx : Set := mkBrokerSet {
  bs_Account : Z;
  bs_VaultID : Z;
  bs_LoanBrokerID : option Z;
  bs_Data : option (list Z);
  bs_ManagementFeeRate : option Z;
  bs_DebtMaximum : option Number;
  bs_CoverRateMinimum : option Z;
  bs_CoverRateLiquidation : option Z;
  bs_Sequence : Z }.                     (* getSeqValue *)

Record LoanBrokerDeleteTx : Set := mkBrokerDelete {
  bd_Account : Z;
  bd_LoanBrokerID : Z }.

Record CoverDepositTx : Set := mkCoverDeposit {
  cd_Account : Z;
  cd_LoanBrokerID : Z;
  cd_Amount : STAmount }.

Record CoverWithdrawTx : Set := mkCoverWithdraw {
  cw_Account : Z;
  cw_LoanBrokerID : Z;
  cw_Amount : STAmount;
  cw_Destination : option Z;
  cw_hasDestinationTag : bool }.

Record CoverClawbackTx : Set := mkCoverClawback {
  cc_Account : Z;
  cc_LoanBrokerID : option Z;
  cc_Amount : option STAmount }.

(** ** Writes through the field proxies *)

Definition set_broker_terms (b : LoanBroker) (data : list Z) (debtMaximum : Number) : LoanBroker :=
  mkBroker (broker_Owner b) (broker_Account b) (broker_VaultID b) (broker_ManagementFeeRate b)
    (broker_OwnerCount b) (broker_DebtTotal b) debtMaximum (broker_CoverAvailable b)
    (broker_CoverRateMinimum b) (broker_CoverRateLiquidation b) (broker_LoanSequence b)
    (broker_Sequence b) (broker_OwnerNode b) (broker_VaultNode b) data.

Definition set_broker_cover (b : LoanBroker) (cover : Number) : LoanBroker :=
  set_broker_funds b (broker_DebtTotal b) cover.

(** [view.insert]: the entry must be new. *)
Definition insert_broker (v : View) (id : Z) (b : LoanBroker) : result View :=
  if bool_decide (is_Some (brokers v !! id)) then Throw logic_error else Ok (update_broker v id b).

Section Brokers.
Context `{Keylets} (cfg : Settings).
Implicit Types (v : View) (broker : LoanBroker).

Local Notation "x [+] y" := (number_add (round_mode cfg) x y) (at level 50).
Local Notation "x [-] y" := (number_sub (round_mode cfg) x y) (at level 50).

(** ** Creation and change *)

Definition LoanBrokerSet_preflight (tx : LoanBrokerSetTx) : result TER :=
  let* maximum := of_rep (round_mode cfg) maxMPTokenAmount in
  let dataTooLong := match bs_Data tx with
                     | Some (_ :: _) => negb (validDataLength (bs_Data tx) maxDataPayloadLength)
                     | _ => false
                     end in
  let fixedGiven := bool_decide (is_Some (bs_ManagementFeeRate tx)) ||
                    bool_decide (is_Some (bs_CoverRateMinimum tx)) ||
                    bool_decide (is_Some (bs_CoverRateLiquidation tx)) in
  Ok (if dataTooLong then temINVALID
      else if negb (validNumericRange (bs_ManagementFeeRate tx) maxManagementFeeRate 0) then temINVALID
      else if negb (validNumericRange (bs_CoverRateMinimum tx) maxCoverRate 0) then temINVALID
      else if negb (validNumericRange (bs_CoverRateLiquidation tx) maxCoverRate 0) then temINVALID
      else if negb (validNumericRange_number (bs_DebtMaximum tx) maximum zero) then temINVALID
      else if bool_decide (is_Some (bs_LoanBrokerID tx)) && fixedGiven then temINVALID
      else tesSUCCESS).

Definition LoanBrokerSet_preclaim v (tx : LoanBrokerSetTx) : TER :=
  match bs_LoanBrokerID tx with
  | Some brokerID =>
      match brokers v !! brokerID with
      | None => tecNO_ENTRY
      | Some broker =>
          if negb (bs_VaultID tx =? broker_VaultID broker) then tecNO_PERMISSION
          else if negb (bs_Account tx =? broker_Owner broker) then tecNO_PERMISSION
          else tesSUCCESS
      end
  | None =>
      match vaults v !! bs_VaultID tx with
      | None => tecNO_ENTRY
      | Some vault =>
          if negb (bs_Account tx =? vault_Owner vault) then tecNO_PERMISSION
          else canAddHolding v (vault_Asset vault)
      end
  end.

Definition new_broker (tx : LoanBrokerSetTx) (pseudoId ownerNode vaultNode : Z) : LoanBroker :=
  mkBroker (bs_Account tx) pseudoId (bs_VaultID tx) (default 0 (bs_ManagementFeeRate tx)) 0
    zero (default zero (bs_DebtMaximum tx)) zero (default 0 (bs_CoverRateMinimum tx))
    (default 0 (bs_CoverRateLiquidation tx)) 1 (bs_Sequence tx) ownerNode vaultNode
    (default [] (bs_Data tx)).

(** [priorBalance] is the balance of the account before the fee. *)
Definition create_broker v (tx : LoanBrokerSetTx) (priorBalance : Z) : result (TER * View) :=
  match vaults v !! bs_VaultID tx with
  | None => Throw logic_error
  | Some vault =>
      let acct := bs_Account tx in
      if negb (bool_decide (is_Some (accounts v !! acct))) then Ok (tefBAD_LEDGER, v)
      else
        let key := loanbroker_keylet acct (bs_Sequence tx) in
        let* (node, v) := dirLink v acct key in
        match node with
        | Unexpected t => Ok (t, v)
        | Value ownerNode =>
            let* (node, v) := dirLink v (vault_Account vault) key in
            match node with
            | Unexpected t => Ok (t, v)
            | Value vaultNode =>
                let v := adjustOwnerCount v acct 2 in
                let ownerCount := from_option acct_OwnerCount 0 (accounts v !! acct) in
                if priorBalance <? accountReserve (fees (env v)) ownerCount
                then Ok (tecINSUFFICIENT_RESERVE, v)
                else
                  let (pseudo, v) := createPseudoAccount v key of_loan_broker in
                  match pseudo with
                  | Unexpected t => Ok (t, v)
                  | Value pseudoId =>
                      let? v := addEmptyHolding cfg v pseudoId priorBalance (vault_Asset vault) in
                      let* v := insert_broker v key (new_broker tx pseudoId ownerNode vaultNode) in
                      Ok (tesSUCCESS, v)
                  end
            end
        end
  end.

Definition LoanBrokerSet_doApply v (tx : LoanBrokerSetTx) (priorBalance : Z) : result (TER * View) :=
  match bs_LoanBrokerID tx with
  | Some brokerID =>
      match brokers v !! brokerID with
      | None => Ok (tefBAD_LEDGER, v)
      | Some broker =>
          let data := default (broker_Data broker) (bs_Data tx) in
          let debtMax := default (broker_DebtMaximum broker) (bs_DebtMaximum tx) in
          Ok (tesSUCCESS, update_broker v brokerID (set_broker_terms broker data debtMax))
      end
  | None => create_broker v tx priorBalance
  end.

(** ** Deletion *)

Definition LoanBrokerDelete_preclaim v (tx : LoanBrokerDeleteTx) : TER :=
  match brokers v !! bd_LoanBrokerID tx with
  | None => tecNO_ENTRY
  | Some broker =>
      if negb (bd_Account tx =? broker_Owner broker) then tecNO_PERMISSION
      else if negb (broker_OwnerCount broker =? 0) then tecHAS_OBLIGATIONS
      else tesSUCCESS
  end.

(** The pseudo-account and the broker go once nothing is left in them. *)
Definition erase_broker v (acct brokerID pseudoID : Z) : result (TER * View) :=
  match accounts v !! pseudoID with
  | None => Ok (tefBAD_LEDGER, v)
  | Some pseudo =>
      if negb (st_signum (acct_Balance pseudo) =? 0) then Ok (tecHAS_OBLIGATIONS, v)
      else if negb (acct_OwnerCount pseudo =? 0) then Ok (tecHAS_OBLIGATIONS, v)
      else if hasOwnerDir v pseudoID then Ok (tecHAS_OBLIGATIONS, v)
      else
        let v := set_accounts v (delete pseudoID (accounts v)) in
        let v := set_brokers v (delete brokerID (brokers v)) in
        match accounts v !! acct with
        | None => Ok (tefBAD_LEDGER, v)
        | Some _ => Ok (tesSUCCESS, adjustOwnerCount v acct (-2))
        end
  end.

Definition LoanBrokerDelete_doApply v (tx : LoanBrokerDeleteTx) : result (TER * View) :=
  let brokerID := bd_LoanBrokerID tx in
  let acct := bd_Account tx in
  match brokers v !! brokerID with
  | None => Ok (tefBAD_LEDGER, v)
  | Some broker =>
      match vaults v !! broker_VaultID broker with
      | None => Ok (tefBAD_LEDGER, v)
      | Some vault =>
          let asset := vault_Asset vault in
          let pseudoID := broker_Account broker in
          let* (found, v) := ownerDirRemove v acct (broker_OwnerNode broker) brokerID in
          if negb found then Ok (tefBAD_LEDGER, v)
          else
            let* (found, v) := ownerDirRemove v (vault_Account vault) (broker_VaultNode broker) brokerID in
            if negb found then Ok (tefBAD_LEDGER, v)
            else
              let* cover := st_of_number cfg asset (broker_CoverAvailable broker) in
              let? v := accountSend cfg v pseudoID acct cover Waive in
              let? v := removeEmptyHolding cfg v pseudoID asset in
              erase_broker v acct brokerID pseudoID
      end
  end.

(** ** Cover *)

Definition CoverDeposit_preflight (tx : CoverDepositTx) : TER :=
  if cd_LoanBrokerID tx =? 0 then temINVALID
  else if st_signum (cd_Amount tx) <=? 0 then temBAD_AMOUNT
  else if negb (isLegalNet (cd_Amount tx)) then temBAD_AMOUNT
  else tesSUCCESS.

Definition CoverDeposit_preclaim v (tx : CoverDepositTx) : result TER :=
  match brokers v !! cd_LoanBrokerID tx with
  | None => Ok tecNO_ENTRY
  | Some broker =>
      if negb (cd_Account tx =? broker_Owner broker) then Ok tecNO_PERMISSION
      else match vaults v !! broker_VaultID broker with
      | None => Throw logic_error
      | Some vault =>
          let asset := vault_Asset vault in
          if negb (asset_eqb (mAsset (cd_Amount tx)) asset) then Ok tecWRONG_ASSET
          else
            let frozen := checkFrozen v (cd_Account tx) asset in
            if negb (isTesSuccess frozen) then Ok frozen
            else
              let frozen := checkDeepFrozen v (broker_Account broker) asset in
              if negb (isTesSuccess frozen) then Ok frozen
              else
                let* balance := accountHolds cfg v (cd_Account tx) asset fhZERO_IF_FROZEN
                                  ahZERO_IF_UNAUTHORIZED in
                let* short := st_ltb balance (cd_Amount tx) in
                Ok (if short then tecINSUFFICIENT_FUNDS else tesSUCCESS)
      end
  end.

Definition CoverDeposit_doApply v (tx : CoverDepositTx) : result (TER * View) :=
  match brokers v !! cd_LoanBrokerID tx with
  | None => Ok (tecINTERNAL, v)
  | Some broker =>
      let? v := accountSend cfg v (cd_Account tx) (broker_Account broker) (cd_Amount tx) Waive in
      let* amount := number_of_st cfg (cd_Amount tx) in
      let* cover := broker_CoverAvailable broker [+] amount in
      Ok (tesSUCCESS, update_broker v (cd_LoanBrokerID tx) (set_broker_cover broker cover))
  end.

Definition CoverWithdraw_preflight (tx : CoverWithdrawTx) : TER :=
  if cw_LoanBrokerID tx =? 0 then temINVALID
  else if st_signum (cw_Amount tx) <=? 0 then temBAD_AMOUNT
  else if negb (isLegalNet (cw_Amount tx)) then temBAD_AMOUNT
  else match cw_Destination tx with
  | Some d => if d =? 0 then temMALFORMED else tesSUCCESS
  | None => tesSUCCESS
  end.

Definition minimumCover (asset : Asset) broker : result Number :=
  let* minimum := tenthBipsOfValue cfg (broker_DebtTotal broker) (broker_CoverRateMinimum broker) in
  roundToAsset cfg asset minimum (exponent_ (broker_DebtTotal broker)) (round_mode cfg).

(** What may leave: enough cover stays, and the account has the funds. *)
Definition cover_allows v broker (asset : Asset) (amount : STAmount) : result TER :=
  let* minimum := minimumCover asset broker in
  let* n := number_of_st cfg amount in
  if number_ltb (broker_CoverAvailable broker) n then Ok tecINSUFFICIENT_FUNDS
  else
    let* remaining := broker_CoverAvailable broker [-] n in
    if number_ltb remaining minimum then Ok tecINSUFFICIENT_FUNDS
    else
      let* balance := accountHolds cfg v (broker_Account broker) asset fhZERO_IF_FROZEN
                        ahZERO_IF_UNAUTHORIZED in
      let* short := st_ltb balance amount in
      Ok (if short then tecINSUFFICIENT_FUNDS else tesSUCCESS).

Definition CoverWithdraw_preclaim v (tx : CoverWithdrawTx) : result TER :=
  let acct := cw_Account tx in
  let dstAcct := default acct (cw_Destination tx) in
  match brokers v !! cw_LoanBrokerID tx with
  | None => Ok tecNO_ENTRY
  | Some broker =>
      if negb (acct =? broker_Owner broker) then Ok tecNO_PERMISSION
      else match vaults v !! broker_VaultID broker with
      | None => Ok tefBAD_LEDGER
      | Some vault =>
          let asset := vault_Asset vault in
          if negb (asset_eqb (mAsset (cw_Amount tx)) asset) then Ok tecWRONG_ASSET
          else
            let ret := if acct =? dstAcct then tesSUCCESS
                       else canWithdraw v acct dstAcct (cw_hasDestinationTag tx) in
            if negb (isTesSuccess ret) then Ok ret
            else
              let authType := if acct =? dstAcct then Legacy else StrongAuth in
              let ret := requireAuth v asset dstAcct authType in
              if negb (isTesSuccess ret) then Ok ret
              else
                let ret := if dstAcct =? getIssuer asset then tesSUCCESS
                           else checkFrozen v (broker_Account broker) asset in
                if negb (isTesSuccess ret) then Ok ret
                else
                  let ret := if dstAcct =? getIssuer asset then tesSUCCESS
                             else checkDeepFrozen v dstAcct asset in
                  if negb (isTesSuccess ret) then Ok ret
                  else cover_allows v broker asset (cw_Amount tx)
      end
  end.

(** A withdrawal of an issued currency to somebody else goes through the payment engine,
    [Payment::makeRipplePayment]: source, destination, amount, limit. *)
Definition payment_engine : Type := View -> Z -> Z -> STAmount -> STAmount -> result (TER * View).

Definition CoverWithdraw_doApply (makeRipplePayment : payment_engine) v (tx : CoverWithdrawTx)
  : result (TER * View) :=
  let acct := cw_Account tx in
  let amount := cw_Amount tx in
  let dstAcct := default acct (cw_Destination tx) in
  match brokers v !! cw_LoanBrokerID tx with
  | None => Ok (tecINTERNAL, v)
  | Some broker =>
      let pseudoID := broker_Account broker in
      let* n := number_of_st cfg amount in
      let* cover := broker_CoverAvailable broker [-] n in
      let v := update_broker v (cw_LoanBrokerID tx) (set_broker_cover broker cover) in
      if (dstAcct =? acct) || native amount
      then accountSend cfg v pseudoID dstAcct amount Waive
      else
        let* maxSource := getMaxSourceAmount cfg pseudoID amount in
        match accounts v !! dstAcct with
        | None => Ok (tecINTERNAL, v)
        | Some sleDst =>
            let* (ret, v) :=
              match mAsset amount with
              | AMPT id => makeMPTDirectPayment cfg v pseudoID dstAcct (Some sleDst) amount maxSource id
              | AIssue _ => makeRipplePayment v pseudoID dstAcct amount maxSource
              end in
            Ok (if negb (isTesSuccess ret) && negb (isTecClaim ret) then tecPATH_DRY else ret, v)
        end
  end.

(** ** Clawback *)

Definition CoverClawback_preflight (tx : CoverClawbackTx) : TER :=
  match cc_LoanBrokerID tx, cc_Amount tx with
  | None, None => temINVALID
  | brokerID, amount =>
      if bool_decide (brokerID = Some 0) then temINVALID
      else match amount with
      | None => tesSUCCESS
      | Some amount =>
          if native amount then temBAD_AMOUNT
          else if st_signum amount <? 0 then temBAD_AMOUNT
          else if negb (isLegalNet amount) then temBAD_AMOUNT
          else if bool_decide (is_Some brokerID) then tesSUCCESS
          else match mAsset amount with
          | AMPT _ => temINVALID
          | AIssue i =>
              let holder := account i in
              if (holder =? cc_Account tx) || (holder =? 0) then temINVALID else tesSUCCESS
          end
      end
  end.

Definition determineBrokerID v (tx : CoverClawbackTx) : Expected Z :=
  match cc_LoanBrokerID tx with
  | Some brokerID => Value brokerID
  | None =>
      match cc_Amount tx with
      | Some (mkSTAmount (AIssue i) _ _ _) =>
          match accounts v !! account i with
          | None => Unexpected tecNO_ENTRY
          | Some a =>
              match acct_LoanBrokerID a with
              | Some brokerID => Value brokerID
              | None => Unexpected tecOBJECT_NOT_FOUND
              end
          end
      | _ => Unexpected tecINTERNAL
      end
  end.

Definition determineAsset (acct brokerPseudoAccountID : Z) (amount : STAmount) : Expected Asset :=
  match mAsset amount with
  | AMPT _ => Value (mAsset amount)
  | AIssue i =>
      if account i =? acct then Value (mAsset amount)
      else if account i =? brokerPseudoAccountID then Value (AIssue (mkIssue (currency i) acct))
      else Unexpected tecWRONG_ASSET
  end.

Definition determineClawAmount broker (vaultAsset : Asset) (amount : option STAmount)
  : result (Expected STAmount) :=
  let* minimum := tenthBipsOfValue cfg (broker_DebtTotal broker) (broker_CoverRateMinimum broker) in
  let* maxClawAmount := broker_CoverAvailable broker [-] minimum in
  if number_leb maxClawAmount zero then Ok (Unexpected tecINSUFFICIENT_FUNDS)
  else
    let* claw :=
      match amount with
      | Some amount =>
          if st_signum amount =? 0 then Ok maxClawAmount
          else
            let* magnitude := number_of_st cfg amount in
            Ok (if number_gtb magnitude maxClawAmount then maxClawAmount else magnitude)
      | None => Ok maxClawAmount
      end in
    let* claw := st_of_number cfg vaultAsset claw in
    Ok (Value claw).

(** [preclaimHelper] at an issued currency and at a token. *)
Definition claw_permitted v (asset : Asset) (issuer : AccountRoot) (issuerID : Z) : TER :=
  match asset with
  | AIssue _ =>
      if negb (isFlag (acct_Flags issuer) lsfAllowTrustLineClawback) || isFlag (acct_Flags issuer) lsfNoFreeze
      then tecNO_PERMISSION else tesSUCCESS
  | AMPT id =>
      match issuances v !! id with
      | None => tecOBJECT_NOT_FOUND
      | Some i =>
          if negb (isFlag (iss_Flags i) lsfMPTCanClawback) || negb (isFlag (iss_Flags i) lsfMPTCanLock)
          then tecNO_PERMISSION
          else if negb (iss_Issuer i =? issuerID) then tecINTERNAL
          else tesSUCCESS
      end
  end.

Definition CoverClawback_preclaim v (tx : CoverClawbackTx) : result TER :=
  let acct := cc_Account tx in
  match determineBrokerID v tx with
  | Unexpected t => Ok t
  | Value brokerID =>
      match brokers v !! brokerID with
      | None => Ok tecNO_ENTRY
      | Some broker =>
          match vaults v !! broker_VaultID broker with
          | None => Ok tecINTERNAL
          | Some vault =>
              let asset := vault_Asset vault in
              if asset_native asset then Ok tecNO_PERMISSION
              else if negb (getIssuer asset =? acct) then Ok tecNO_PERMISSION
              else
                let wrong := match cc_Amount tx with
                             | None => tesSUCCESS
                             | Some amount =>
                                 match determineAsset acct (broker_Account broker) amount with
                                 | Unexpected t => t
                                 | Value txAsset => if asset_eqb txAsset asset then tesSUCCESS else tecWRONG_ASSET
                                 end
                             end in
                if negb (isTesSuccess wrong) then Ok wrong
                else
                  let* claw := determineClawAmount broker asset (cc_Amount tx) in
                  match claw with
                  | Unexpected t => Ok t
                  | Value clawAmount =>
                      let* balance := accountHolds cfg v (broker_Account broker) asset fhIGNORE_FREEZE
                                        ahIGNORE_AUTH in
                      let* short := st_ltb balance clawAmount in
                      if short then Ok tecINTERNAL
                      else match accounts v !! getIssuer asset with
                      | None => Throw logic_error
                      | Some issuer => Ok (claw_permitted v asset issuer (getIssuer asset))
                      end
                  end
          end
      end
  end.

Definition CoverClawback_doApply v (tx : CoverClawbackTx) : result (TER * View) :=
  match determineBrokerID v tx with
  | Unexpected _ => Ok (tecINTERNAL, v)
  | Value brokerID =>
      match brokers v !! brokerID with
      | None => Ok (tecINTERNAL, v)
      | Some broker =>
          match vaults v !! broker_VaultID broker with
          | None => Ok (tecINTERNAL, v)
          | Some vault =>
              let* claw := determineClawAmount broker (vault_Asset vault) (cc_Amount tx) in
              match claw with
              | Unexpected _ => Ok (tecINTERNAL, v)
              | Value clawAmount =>
                  if native clawAmount then Ok (tecINTERNAL, v)
                  else
                    let* n := number_of_st cfg clawAmount in
                    let* cover := broker_CoverAvailable broker [-] n in
                    let v := update_broker v brokerID (set_broker_cover broker cover) in
                    accountSend cfg v (broker_Account broker) (cc_Account tx) clawAmount Waive
              end
          end
      end
  end.

End Brokers.
