(* ===== verification/Vaults.v ===== *)
(** * Vault transactions

    The four conversions of assets and shares at the end of [View.cpp].  The fields of every
    transaction on vaults, and [VaultCreate], [VaultSet] and
    [VaultDelete] ([src/xrpld/app/tx/detail]): the checks and the state changes. *)

From S2P Require Import Prelude.
From S2P Require Import Ter.
From S2P Require Import XrplNumber.
From S2P Require Import Amounts.
From S2P Require Import Directories.
From S2P Require Import LedgerState.
From S2P Require Import Holdings.
From S2P Require Import Transfers.
From S2P Require Import Transactors.
From S2P Require Import LoanManage.
From stdpp Require Import gmap list.

Local Open Scope Z_scope.
Local Open Scope xrpl_scope.

Inductive TruncateShares : Set := truncate_no | truncate_yes.

Section Shares.
Context (cfg : Settings).
Implicit Types (vault : Vault) (issuance : MPTokenIssuance).

Local Notation "x [*] y" := (number_mul (round_mode cfg) x y) (at level 40).
Local Notation "x [/] y" := (number_div (round_mode cfg) x y) (at level 40).
Local Notation "x [-] y" := (number_sub (round_mode cfg) x y) (at level 50).

Definition share_asset vault : Asset := AMPT (vault_ShareMPTID vault).

(** The 64-bit field becomes a signed mantissa. *)
Definition shareTotal issuance : result Number := of_rep (round_mode cfg) (i64 (iss_OutstandingAmount issuance)).

(** [total * (part / whole)]: operators of one expression. *)
Definition proportion (total part whole : Number) : result Number :=
  let* ratio := part [/] whole in total [*] ratio.

Definition assetsToSharesDeposit vault issuance (assets : STAmount) : result (option STAmount) :=
  if mIsNegative assets || negb (asset_eqb (mAsset assets) (vault_Asset vault)) then Ok None
  else if number_eqb (vault_AssetsTotal vault) zero then
    let* n := make (round_mode cfg) (mValue assets) (mOffset assets + vault_Scale vault) in
    let* n := truncate (round_mode cfg) n in
    let* shares := st_of_number cfg (share_asset vault) n in
    Ok (Some shares)
  else
    let* total := shareTotal issuance in
    let* assets := number_of_st cfg assets in
    let* n := proportion total assets (vault_AssetsTotal vault) in
    let* n := truncate (round_mode cfg) n in
    let* shares := st_of_number cfg (share_asset vault) n in
    Ok (Some shares).

Definition sharesToAssetsDeposit vault issuance (shares : STAmount) : result (option STAmount) :=
  if mIsNegative shares || negb (asset_eqb (mAsset shares) (share_asset vault)) then Ok None
  else if number_eqb (vault_AssetsTotal vault) zero then
    let* assets := st_make cfg (vault_Asset vault) (mValue shares) (mOffset shares - vault_Scale vault) false in
    Ok (Some assets)
  else
    let* total := shareTotal issuance in
    let* shares := number_of_st cfg shares in
    let* n := proportion (vault_AssetsTotal vault) shares total in
    let* assets := st_of_number cfg (vault_Asset vault) n in
    Ok (Some assets).

Definition assetsToSharesWithdraw vault issuance (assets : STAmount) (trunc : TruncateShares)
  : result (option STAmount) :=
  if mIsNegative assets || negb (asset_eqb (mAsset assets) (vault_Asset vault)) then Ok None
  else
    let* assetTotal := vault_AssetsTotal vault [-] vault_LossUnrealized vault in
    if number_eqb assetTotal zero then
      let* shares := st_zeroed cfg (share_asset vault) in
      Ok (Some shares)
    else
      let* total := shareTotal issuance in
      let* assets := number_of_st cfg assets in
      let* n := proportion total assets assetTotal in
      let* n := match trunc with
                | truncate_yes => truncate (round_mode cfg) n
                | truncate_no => Ok n
                end in
      let* shares := st_of_number cfg (share_asset vault) n in
      Ok (Some shares).

Definition sharesToAssetsWithdraw vault issuance (shares : STAmount) : result (option STAmount) :=
  if mIsNegative shares || negb (asset_eqb (mAsset shares) (share_asset vault)) then Ok None
  else
    let* assetTotal := vault_AssetsTotal vault [-] vault_LossUnrealized vault in
    if number_eqb assetTotal zero then
      let* assets := st_zeroed cfg (vault_Asset vault) in
      Ok (Some assets)
    else
      let* total := shareTotal issuance in
      let* shares := number_of_st cfg shares in
      let* n := proportion assetTotal shares total in
      let* assets := st_of_number cfg (vault_Asset vault) n in
      Ok (Some assets).

End Shares.

(** ** Vault transactions *)

Local Open Scope Z_scope.
Local Open Scope xrpl_scope.

Definition tfVaultPrivate : Z := 0x00010000.
Definition tfVaultShareNonTransferable : Z := 0x00020000.
Definition vaultStrategyFirstComeFirstServe : Z := 1.
Definition vaultDefaultIOUScale : Z := 6.
Definition vaultMaximumIOUScale : Z := 18.
Definition maxMPTokenMetadataLength : Z := 1024.

Record VaultCreateTx : Set := mkVaultCreate {
  vc_Account : Z;
  vc_Flags : Z;
  vc_Asset : Asset;
  vc_AssetsMaximum : option Number;
  vc_MPTokenMetadata : option (list Z);
  vc_DomainID : option Z;
  vc_WithdrawalPolicy : option Z;
  vc_Data : option (list Z);
  vc_Scale : option Z;
  vc_Sequence : Z }.                     (* getSeqValue *)

Record VaultSetTx : Set := mkVaultSet {
  vs_Account : Z;
  vs_VaultID : Z;
  vs_AssetsMaximum : option Number;
  vs_DomainID : option Z;
  vs_Data : option (list Z) }.

Record VaultDeleteTx : Set := mkVaultDelete {
  vd_Account : Z;
  vd_VaultID : Z }.

Record VaultDepositTx : Set := mkVaultDeposit {
  vp_Account : Z;
  vp_VaultID : Z;
  vp_Amount : STAmount }.

Record VaultWithdrawTx : Set := mkVaultWithdraw {
  vw_Account : Z;
  vw_VaultID : Z;
  vw_Amount : STAmount;
  vw_Destination : option Z;
  vw_hasDestinationTag : bool }.

Record VaultClawbackTx : Set := mkVaultClawback {
  vk_Account : Z;
  vk_VaultID : Z;
  vk_Holder : Z;
  vk_Amount : option STAmount }.

(** ** Writes and erasures *)

Definition set_vault_terms (x : Vault) (maximum : Number) (data : option (list Z)) : Vault :=
  mkVault (vault_Owner x) (vault_Account x) (vault_Asset x) (vault_AssetsTotal x) (vault_AssetsAvailable x)
    (vault_LossUnrealized x) (vault_ShareMPTID x) (vault_Flags x) maximum (vault_Scale x)
    (vault_WithdrawalPolicy x) (vault_Sequence x) (vault_OwnerNode x) data.

Definition set_iss_Domain (i : MPTokenIssuance) (d : option Z) : MPTokenIssuance :=
  mkIssuance (iss_Issuer i) (iss_Flags i) (iss_OutstandingAmount i) (iss_MaximumAmount i) (iss_TransferFee i)
    d (iss_OwnerNode i) (iss_Sequence i) (iss_AssetScale i) (iss_Metadata i) (iss_MutableFlags i).

(** [view.insert]: the entry must be new. *)
Definition insert_vault (v : View) (id : Z) (x : Vault) : result View :=
  if bool_decide (is_Some (vaults v !! id)) then Throw logic_error else Ok (update_vault v id x).
Definition insert_issuance (v : View) (id : Z) (i : MPTokenIssuance) : result View :=
  if bool_decide (is_Some (issuances v !! id)) then Throw logic_error else Ok (update_issuance v id i).

(** The handler of [std::overflow_error]. *)
Definition catch_overflow {A} (m : result (Expected A)) : result (Expected A) :=
  match m with Throw overflow_error => Ok (Unexpected tecPATH_DRY) | _ => m end.

(** ** Creation *)

(** [makeMptID]: 32 bits of sequence number over 160 bits of account. *)
Definition makeMptID (sequence acct : Z) : Z := sequence * 2 ^ 160 + acct.

Section Vaults.
Context `{Keylets} (cfg : Settings).
Implicit Types (v : View) (vault : Vault).

Local Notation "x [+] y" := (number_add (round_mode cfg) x y) (at level 50).
Local Notation "x [-] y" := (number_sub (round_mode cfg) x y) (at level 50).

(** [MPTokenIssuanceCreate::create] without a prior balance, a maximum, a transfer fee
    and mutable flags. *)
Definition create_issuance v (acct sequence flags scale : Z) (metadata : option (list Z)) (domainId : option Z)
  : result (Expected Z * View) :=
  match accounts v !! acct with
  | None => Ok (Unexpected tecINTERNAL, v)
  | Some _ =>
      let id := makeMptID sequence acct in
      let* (ownerNode, v) := dirInsert v acct (issuance_key id) in
      match ownerNode with
      | None => Ok (Unexpected tecDIR_FULL, v)
      | Some ownerNode =>
          let* v := insert_issuance v id
                      (mkIssuance acct (Z.ldiff flags tfUniversal) 0 None None domainId ownerNode sequence scale
                         metadata 0) in
          Ok (Value id, adjustOwnerCount v acct 1)
      end
  end.

Definition VaultCreate_checkExtraFeatures (r : Rules) (tx : VaultCreateTx) : bool :=
  featureMPTokensV1 r &&
  negb (bool_decide (is_Some (vc_DomainID tx)) && negb (featurePermissionedDomains r)).

Definition VaultCreate_preflight (tx : VaultCreateTx) : TER :=
  let asset := vc_Asset tx in
  if negb (validDataLength (vc_Data tx) maxDataPayloadLength) then temMALFORMED
  else if match vc_WithdrawalPolicy tx with
          | Some p => negb (p =? vaultStrategyFirstComeFirstServe)
          | None => false
          end then temMALFORMED
  else if match vc_DomainID tx with
          | Some d => (d =? 0) || (Z.land (vc_Flags tx) tfVaultPrivate =? 0)
          | None => false
          end then temMALFORMED
  else if match vc_AssetsMaximum tx with Some m => number_ltb m zero | None => false end then temMALFORMED
  else if match vc_MPTokenMetadata tx with
          | Some m => (Z.of_nat (length m) =? 0) || (maxMPTokenMetadataLength <? Z.of_nat (length m))
          | None => false
          end then temMALFORMED
  else if match vc_Scale tx with
          | Some s => holds_mpt asset || asset_native asset || (vaultMaximumIOUScale <? s)
          | None => false
          end then temMALFORMED
  else tesSUCCESS.

Definition VaultCreate_calculateBaseFee v : Z := fee_increment (fees (env v)).

Definition isPseudo v (acct : Z) : bool :=
  match accounts v !! acct with Some a => isPseudoAccount a | None => false end.

Definition frozen_code (asset : Asset) : TER :=
  match asset with AIssue _ => tecFROZEN | AMPT _ => tecLOCKED end.

Definition VaultCreate_preclaim v (tx : VaultCreateTx) : TER :=
  let asset := vc_Asset tx in
  let ter := canAddHolding v asset in
  if negb (isTesSuccess ter) then ter
  else if negb (asset_native asset) && isPseudo v (getIssuer asset) then tecWRONG_ASSET
  else if isFrozen v (vc_Account tx) asset then frozen_code asset
  else if match vc_DomainID tx with
          | Some d => negb (bool_decide (is_Some (domains (env v) !! d)))
          | None => false
          end then tecOBJECT_NOT_FOUND
  else if pseudoAccountAddress v (vault_keylet (vc_Account tx) (vc_Sequence tx)) =? 0 then terADDRESS_COLLISION
  else tesSUCCESS.

Definition vault_scale (tx : VaultCreateTx) : Z :=
  if holds_mpt (vc_Asset tx) || asset_native (vc_Asset tx) then 0
  else default vaultDefaultIOUScale (vc_Scale tx).

Definition share_flags (txFlags : Z) : Z :=
  Z.lor
    (if Z.land txFlags tfVaultShareNonTransferable =? 0
     then Z.lor (Z.lor lsfMPTCanEscrow lsfMPTCanTrade) lsfMPTCanTransfer else 0)
    (if hasFlag txFlags tfVaultPrivate then lsfMPTRequireAuth else 0).

Definition new_vault (tx : VaultCreateTx) (pseudoId share ownerNode : Z) : Vault :=
  mkVault (vc_Account tx) pseudoId (vc_Asset tx) zero zero zero share (Z.land (vc_Flags tx) tfVaultPrivate)
    (default zero (vc_AssetsMaximum tx)) (vault_scale tx)
    (default vaultStrategyFirstComeFirstServe (vc_WithdrawalPolicy tx)) (vc_Sequence tx) ownerNode (vc_Data tx).

(** [priorBalance] is the balance of the account before the fee. *)
Definition VaultCreate_doApply v (tx : VaultCreateTx) (priorBalance : Z) : result (TER * View) :=
  let acct := vc_Account tx in
  let key := vault_keylet acct (vc_Sequence tx) in
  match accounts v !! acct with
  | None => Ok (tefINTERNAL, v)
  | Some _ =>
      let* (node, v) := dirLink v acct key in
      match node with
      | Unexpected t => Ok (t, v)
      | Value ownerNode =>
          let v := adjustOwnerCount v acct 1 in
          let ownerCount := from_option acct_OwnerCount 0 (accounts v !! acct) in
          if priorBalance <? accountReserve (fees (env v)) ownerCount then Ok (tecINSUFFICIENT_RESERVE, v)
          else
            let (pseudo, v) := createPseudoAccount v key of_vault in
            match pseudo with
            | Unexpected t => Ok (t, v)
            | Value pseudoId =>
                let? v := addEmptyHolding cfg v pseudoId priorBalance (vc_Asset tx) in
                let* (share, v) := create_issuance v pseudoId 1 (share_flags (vc_Flags tx)) (vault_scale tx)
                                     (vc_MPTokenMetadata tx) (vc_DomainID tx) in
                match share with
                | Unexpected t => Ok (t, v)
                | Value share =>
                    let* v := insert_vault v key (new_vault tx pseudoId share ownerNode) in
                    let? v := authorizeMPToken v priorBalance share acct 0 None in
                    if hasFlag (vc_Flags tx) tfVaultPrivate
                    then authorizeMPToken v priorBalance share pseudoId 0 (Some acct)
                    else Ok (tesSUCCESS, v)
                end
            end
      end
  end.

(** ** Change *)

Definition VaultSet_checkExtraFeatures (r : Rules) (tx : VaultSetTx) : bool :=
  negb (bool_decide (is_Some (vs_DomainID tx)) && negb (featurePermissionedDomains r)).

Definition VaultSet_preflight (tx : VaultSetTx) : TER :=
  if vs_VaultID tx =? 0 then temMALFORMED
  else if match vs_Data tx with
          | Some d => (Z.of_nat (length d) =? 0) || (maxDataPayloadLength <? Z.of_nat (length d))
          | None => false
          end then temMALFORMED
  else if match vs_AssetsMaximum tx with Some m => number_ltb m zero | None => false end then temMALFORMED
  else match vs_DomainID tx, vs_AssetsMaximum tx, vs_Data tx with
  | None, None, None => temMALFORMED
  | _, _, _ => tesSUCCESS
  end.

Definition VaultSet_preclaim v (tx : VaultSetTx) : TER :=
  match vaults v !! vs_VaultID tx with
  | None => tecNO_ENTRY
  | Some vault =>
      if negb (vs_Account tx =? vault_Owner vault) then tecNO_PERMISSION
      else match issuances v !! vault_ShareMPTID vault with
      | None => tefINTERNAL
      | Some issuance =>
          match vs_DomainID tx with
          | None => tesSUCCESS
          | Some domain =>
              if negb (isFlag (vault_Flags vault) lsfVaultPrivate) then tecNO_PERMISSION
              else if negb (domain =? 0) && negb (bool_decide (is_Some (domains (env v) !! domain)))
              then tecOBJECT_NOT_FOUND
              else if Z.land (iss_Flags issuance) lsfMPTRequireAuth =? 0 then tefINTERNAL
              else tesSUCCESS
          end
      end
  end.

Definition VaultSet_doApply v (tx : VaultSetTx) : result (TER * View) :=
  match vaults v !! vs_VaultID tx with
  | None => Ok (tefINTERNAL, v)
  | Some vault =>
      match issuances v !! vault_ShareMPTID vault with
      | None => Ok (tefINTERNAL, v)
      | Some issuance =>
          let data := match vs_Data tx with Some d => Some d | None => vault_Data vault end in
          let tooLow := match vs_AssetsMaximum tx with
                        | Some m => negb (number_eqb m zero) && number_ltb m (vault_AssetsTotal vault)
                        | None => false
                        end in
          if tooLow then Ok (tecLIMIT_EXCEEDED, v)
          else
            let maximum := default (vault_AssetsMaximum vault) (vs_AssetsMaximum tx) in
            let v := match vs_DomainID tx with
                     | Some d => update_issuance v (vault_ShareMPTID vault)
                                   (set_iss_Domain issuance (if d =? 0 then None else Some d))
                     | None => v
                     end in
            Ok (tesSUCCESS, update_vault v (vs_VaultID tx) (set_vault_terms vault maximum data))
      end
  end.

(** ** Deletion *)

Definition VaultDelete_preflight (tx : VaultDeleteTx) : TER :=
  if vd_VaultID tx =? 0 then temMALFORMED else tesSUCCESS.

Definition VaultDelete_preclaim v (tx : VaultDeleteTx) : TER :=
  match vaults v !! vd_VaultID tx with
  | None => tecNO_ENTRY
  | Some vault =>
      if negb (vault_Owner vault =? vd_Account tx) then tecNO_PERMISSION
      else if negb (number_eqb (vault_AssetsAvailable vault) zero) then tecHAS_OBLIGATIONS
      else if negb (number_eqb (vault_AssetsTotal vault) zero) then tecHAS_OBLIGATIONS
      else match issuances v !! vault_ShareMPTID vault with
      | None => tecOBJECT_NOT_FOUND
      | Some issuance =>
          if negb (iss_Issuer issuance =? vault_Account vault) then tecNO_PERMISSION
          else if negb (iss_OutstandingAmount issuance =? 0) then tecHAS_OBLIGATIONS
          else tesSUCCESS
      end
  end.

(** The issuance, the pseudo-account and the vault go. *)
Definition erase_vault v (vaultID : Z) vault (issuance : MPTokenIssuance) : result (TER * View) :=
  let pseudoID := vault_Account vault in
  let share := vault_ShareMPTID vault in
  let* (found, v) := ownerDirRemove v pseudoID (iss_OwnerNode issuance) (issuance_key share) in
  if negb found then Ok (tefBAD_LEDGER, v)
  else
    let v := adjustOwnerCount v pseudoID (-1) in
    let v := set_issuances v (delete share (issuances v)) in
    if hasOwnerDir v pseudoID then Ok (tecHAS_OBLIGATIONS, v)
    else
      let v := set_accounts v (delete pseudoID (accounts v)) in
      let* (found, v) := ownerDirRemove v (vault_Owner vault) (vault_OwnerNode vault) vaultID in
      if negb found then Ok (tefBAD_LEDGER, v)
      else match accounts v !! vault_Owner vault with
      | None => Ok (tefBAD_LEDGER, v)
      | Some _ =>
          let v := adjustOwnerCount v (vault_Owner vault) (-1) in
          Ok (tesSUCCESS, set_vaults v (delete vaultID (vaults v)))
      end.

Definition VaultDelete_doApply v (tx : VaultDeleteTx) : result (TER * View) :=
  match vaults v !! vd_VaultID tx with
  | None => Ok (tefINTERNAL, v)
  | Some vault =>
      let share := vault_ShareMPTID vault in
      let? v := removeEmptyHolding cfg v (vault_Account vault) (vault_Asset vault) in
      match accounts v !! vault_Account vault with
      | None => Ok (tefBAD_LEDGER, v)
      | Some _ =>
          match issuances v !! share with
          | None => Ok (tefINTERNAL, v)
          | Some issuance =>
              let? v := match tokens v !! (share, vd_Account tx) with
                        | Some _ => removeEmptyHolding cfg v (vd_Account tx) (AMPT share)
                        | None => Ok (tesSUCCESS, v)
                        end in
              erase_vault v (vd_VaultID tx) vault issuance
          end
      end
  end.

End Vaults.
