(* ===== verification/VaultFunds.v ===== *)
(** * Deposits, withdrawals and clawbacks of vaults

    [src/xrpld/app/tx/detail/Vault{Deposit,Withdraw,Clawback}.cpp]. *)

From S2P Require Import Prelude.
From S2P Require Import Ter.
From S2P Require Import XrplNumber.
From S2P Require Import Amounts.
From S2P Require Import Directories.
From S2P Require Import LedgerState.
From S2P Require Import Holdings.
From S2P Require Import Transfers.
From S2P Require Import Transactors.
From S2P Require Import LoanManage.
From S2P Require Import Vaults.
From stdpp Require Import gmap list.

Local Open Scope Z_scope.
Local Open Scope xrpl_scope.

Section VaultFunds.
Context `{Keylets} (cfg : Settings).
Implicit Types (v : View) (vault : Vault) (issuance : MPTokenIssuance).

Local Notation "x [+] y" := (number_add (round_mode cfg) x y) (at level 50).
Local Notation "x [-] y" := (number_sub (round_mode cfg) x y) (at level 50).

(** The asset can be moved at all. *)
Definition asset_checks v (asset : Asset) : TER :=
  if asset_native asset then tesSUCCESS
  else match asset with
  | AMPT id =>
      match issuances v !! id with
      | None => tecOBJECT_NOT_FOUND
      | Some i => if isFlag (iss_Flags i) lsfMPTCanTransfer then tesSUCCESS else tecNO_AUTH
      end
  | AIssue i => if bool_decide (is_Some (accounts v !! account i)) then tesSUCCESS else tefINTERNAL
  end.

(** A computation of amounts that returns without a value has failed. *)
Definition need {A} (m : result (option A)) : result (Expected A) :=
  let* o := m in
  Ok (match o with Some a => Value a | None => Unexpected tecINTERNAL end).

Definition on_value {A B} (m : result (Expected A)) (k : A -> result (Expected B)) : result (Expected B) :=
  let* e := m in
  match e with Value a => k a | Unexpected t => Ok (Unexpected t) end.

(** The sanity check after a transfer. *)
Definition holds_negative v (acct : Z) (asset : Asset) : result bool :=
  let* balance := accountHolds cfg v acct asset fhIGNORE_FREEZE ahIGNORE_AUTH in
  Ok (st_signum balance <? 0).

(** ** Deposit *)

Definition VaultDeposit_preflight (tx : VaultDepositTx) : TER :=
  if vp_VaultID tx =? 0 then temMALFORMED
  else if st_signum (vp_Amount tx) <=? 0 then temBAD_AMOUNT
  else tesSUCCESS.

Definition VaultDeposit_preclaim v (tx : VaultDepositTx) : result TER :=
  let acct := vp_Account tx in
  let assets := vp_Amount tx in
  match vaults v !! vp_VaultID tx with
  | None => Ok tecNO_ENTRY
  | Some vault =>
      let asset := vault_Asset vault in
      let share := vault_ShareMPTID vault in
      if negb (asset_eqb (mAsset assets) asset) then Ok tecWRONG_ASSET
      else
        let ter := asset_checks v asset in
        if negb (isTesSuccess ter) then Ok ter
        else if asset_eqb (AMPT share) (mAsset assets) then Ok tefINTERNAL
        else match issuances v !! share with
        | None => Ok tefINTERNAL
        | Some issuance =>
            if isFlag (iss_Flags issuance) lsfMPTLocked then Ok tefINTERNAL
            else if isFrozen v acct asset then Ok (frozen_code asset)
            else if isFrozen v acct (AMPT share) then Ok tecLOCKED
            else
              let domain :=
                if isFlag (vault_Flags vault) lsfVaultPrivate && negb (acct =? vault_Owner vault) then
                  match iss_DomainID issuance with
                  | Some d => match validDomain v d acct with tecEXPIRED => tesSUCCESS | err => err end
                  | None => tecNO_AUTH
                  end
                else tesSUCCESS in
              if negb (isTesSuccess domain) then Ok domain
              else
                let ter := requireAuth v asset acct Legacy in
                if negb (isTesSuccess ter) then Ok ter
                else if asset_native asset || negb (getIssuer asset =? acct) then
                  let* balance := accountHolds cfg v acct asset fhZERO_IF_FROZEN ahZERO_IF_UNAUTHORIZED in
                  let* short := st_ltb balance assets in
                  Ok (if short then tecINSUFFICIENT_FUNDS else tesSUCCESS)
                else Ok tesSUCCESS
        end
  end.

(** The depositor can hold shares. *)
Definition admit_depositor v vault issuance (acct priorBalance : Z) : result (TER * View) :=
  let share := vault_ShareMPTID vault in
  if isFlag (vault_Flags vault) lsfVaultPrivate && negb (acct =? vault_Owner vault)
  then enforceMPTokenAuthorization v share acct priorBalance
  else
    let? v := if bool_decide (is_Some (tokens v !! (share, acct))) then Ok (tesSUCCESS, v)
              else authorizeMPToken v priorBalance share acct 0 None in
    if isFlag (vault_Flags vault) lsfVaultPrivate
    then authorizeMPToken v priorBalance share (iss_Issuer issuance) 0 (Some acct)
    else Ok (tesSUCCESS, v).

(** Shares created and assets taken for an amount. *)
Definition deposit_exchange vault issuance (amount : STAmount) : result (Expected (STAmount * STAmount)) :=
  catch_overflow
    (on_value (need (assetsToSharesDeposit cfg vault issuance amount)) (fun sharesCreated =>
       if st_is_zero sharesCreated then Ok (Unexpected tecPRECISION_LOSS)
       else on_value (need (sharesToAssetsDeposit cfg vault issuance sharesCreated)) (fun assets =>
         let* more := st_ltb amount assets in
         Ok (if more then Unexpected tecINTERNAL else Value (sharesCreated, assets))))).

(** The vault gives or takes assets. *)
Definition add_assets vault (assets : Number) : result Vault :=
  let* total := vault_AssetsTotal vault [+] assets in
  let* available := vault_AssetsAvailable vault [+] assets in
  Ok (set_vault_assets vault total available).

Definition remove_assets vault (assets : Number) : result Vault :=
  let* total := vault_AssetsTotal vault [-] assets in
  let* available := vault_AssetsAvailable vault [-] assets in
  Ok (set_vault_assets vault total available).

Definition over_maximum vault : bool :=
  negb (number_eqb (vault_AssetsMaximum vault) zero) &&
  number_gtb (vault_AssetsTotal vault) (vault_AssetsMaximum vault).

Definition VaultDeposit_doApply v (tx : VaultDepositTx) (priorBalance : Z) : result (TER * View) :=
  let acct := vp_Account tx in
  match vaults v !! vp_VaultID tx with
  | None => Ok (tefINTERNAL, v)
  | Some vault =>
      match issuances v !! vault_ShareMPTID vault with
      | None => Ok (tefINTERNAL, v)
      | Some issuance =>
          let? v := admit_depositor v vault issuance acct priorBalance in
          let* exchange := deposit_exchange vault issuance (vp_Amount tx) in
          match exchange with
          | Unexpected t => Ok (t, v)
          | Value (sharesCreated, assetsDeposited) =>
              let* n := number_of_st cfg assetsDeposited in
              let* vault := add_assets vault n in
              let v := update_vault v (vp_VaultID tx) vault in
              if over_maximum vault then Ok (tecLIMIT_EXCEEDED, v)
              else
                let? v := accountSend cfg v acct (vault_Account vault) assetsDeposited Waive in
                let* negative := holds_negative v acct (mAsset assetsDeposited) in
                if negative then Ok (tefINTERNAL, v)
                else accountSend cfg v (vault_Account vault) acct sharesCreated Waive
          end
      end
  end.

(** ** Withdrawal *)

Definition VaultWithdraw_preflight (tx : VaultWithdrawTx) : TER :=
  if vw_VaultID tx =? 0 then temMALFORMED
  else if st_signum (vw_Amount tx) <=? 0 then temBAD_AMOUNT
  else if bool_decide (vw_Destination tx = Some 0) then temMALFORMED
  else tesSUCCESS.

Definition VaultWithdraw_preclaim v (tx : VaultWithdrawTx) : TER :=
  let acct := vw_Account tx in
  let dstAcct := default acct (vw_Destination tx) in
  match vaults v !! vw_VaultID tx with
  | None => tecNO_ENTRY
  | Some vault =>
      let asset := vault_Asset vault in
      let share := AMPT (vault_ShareMPTID vault) in
      if negb (asset_eqb (mAsset (vw_Amount tx)) asset) && negb (asset_eqb (mAsset (vw_Amount tx)) share)
      then tecWRONG_ASSET
      else
        let ter := asset_checks v asset in
        if negb (isTesSuccess ter) then ter
        else if negb (vault_WithdrawalPolicy vault =? vaultStrategyFirstComeFirstServe) then tefINTERNAL
        else
          let ter := canWithdraw v acct dstAcct (vw_hasDestinationTag tx) in
          if negb (isTesSuccess ter) then ter
          else
            let ter := requireAuth v asset dstAcct (if acct =? dstAcct then WeakAuth else StrongAuth) in
            if negb (isTesSuccess ter) then ter
            else
              let ter := checkFrozen v dstAcct asset in
              if negb (isTesSuccess ter) then ter else checkFrozen v acct share
  end.

(** Shares redeemed and assets withdrawn for an amount of either. *)
Definition withdraw_exchange vault issuance (amount : STAmount) : result (Expected (STAmount * STAmount)) :=
  catch_overflow
    (if asset_eqb (mAsset amount) (vault_Asset vault) then
       on_value (need (assetsToSharesWithdraw cfg vault issuance amount truncate_no)) (fun shares =>
         if st_is_zero shares then Ok (Unexpected tecPRECISION_LOSS)
         else on_value (need (sharesToAssetsWithdraw cfg vault issuance shares)) (fun assets =>
           Ok (Value (shares, assets))))
     else if asset_eqb (mAsset amount) (share_asset vault) then
       on_value (need (sharesToAssetsWithdraw cfg vault issuance amount)) (fun assets =>
         Ok (Value (amount, assets)))
     else Ok (Unexpected tefINTERNAL)).

(** The holding of shares goes when it is empty, unless it is the owner's. *)
Definition drop_shares v vault (holder : Z) : result (TER * View) :=
  if holder =? vault_Owner vault then Ok (tesSUCCESS, v)
  else
    let* (ter, w) := removeEmptyHolding cfg v holder (share_asset vault) in
    Ok (match ter with tecHAS_OBLIGATIONS => (tesSUCCESS, w) | _ => (ter, w) end).

(** From the update of the vault to the end: shares go back to the vault, assets to
    [receiver]. *)
Definition redeem v (vaultID : Z) vault (holder receiver : Z) (shares assets : STAmount)
    (prepare : View -> result (TER * View)) : result (TER * View) :=
  let* n := number_of_st cfg assets in
  let* vault := remove_assets vault n in
  let v := update_vault v vaultID vault in
  let? v := accountSend cfg v holder (vault_Account vault) shares Waive in
  let? v := drop_shares v vault holder in
  let? v := prepare v in
  let? v := accountSend cfg v (vault_Account vault) receiver assets Waive in
  let* negative := holds_negative v (vault_Account vault) (mAsset assets) in
  Ok (if negative then tefINTERNAL else tesSUCCESS, v).

(** A holding of the asset for an account that withdraws to itself. *)
Definition receive_assets (acct dstAcct : Z) (asset : Asset) (priorBalance : Z) v : result (TER * View) :=
  if negb (asset_native asset) && negb (dstAcct =? getIssuer asset) && (dstAcct =? acct) then
    let* (ter, v) := addEmptyHolding cfg v acct priorBalance asset in
    Ok (match ter with tecDUPLICATE => tesSUCCESS | _ => ter end, v)
  else Ok (tesSUCCESS, v).

Definition VaultWithdraw_doApply v (tx : VaultWithdrawTx) (priorBalance : Z) : result (TER * View) :=
  let acct := vw_Account tx in
  let dstAcct := default acct (vw_Destination tx) in
  match vaults v !! vw_VaultID tx with
  | None => Ok (tefINTERNAL, v)
  | Some vault =>
      match issuances v !! vault_ShareMPTID vault with
      | None => Ok (tefINTERNAL, v)
      | Some issuance =>
          let* exchange := withdraw_exchange vault issuance (vw_Amount tx) in
          match exchange with
          | Unexpected t => Ok (t, v)
          | Value (sharesRedeemed, assetsWithdrawn) =>
              let* balance := accountHolds cfg v acct (share_asset vault) fhZERO_IF_FROZEN ahIGNORE_AUTH in
              let* short := st_ltb balance sharesRedeemed in
              if short then Ok (tecINSUFFICIENT_FUNDS, v)
              else
                let* n := number_of_st cfg assetsWithdrawn in
                if number_ltb (vault_AssetsAvailable vault) n then Ok (tecINSUFFICIENT_FUNDS, v)
                else redeem v (vw_VaultID tx) vault acct dstAcct sharesRedeemed assetsWithdrawn
                       (receive_assets acct dstAcct (vault_Asset vault) priorBalance)
          end
      end
  end.

(** ** Clawback *)

Definition VaultClawback_preflight (tx : VaultClawbackTx) : TER :=
  if vk_VaultID tx =? 0 then temMALFORMED
  else if vk_Account tx =? vk_Holder tx then temMALFORMED
  else match vk_Amount tx with
  | None => tesSUCCESS
  | Some amount =>
      if st_signum amount <? 0 then temBAD_AMOUNT
      else if native amount then temMALFORMED
      else if negb (getIssuer (mAsset amount) =? vk_Account tx) then temMALFORMED
      else tesSUCCESS
  end.

Definition VaultClawback_preclaim v (tx : VaultClawbackTx) : TER :=
  match vaults v !! vk_VaultID tx with
  | None => tecNO_ENTRY
  | Some vault =>
      match accounts v !! vk_Account tx with
      | None => tefINTERNAL
      | Some issuer =>
          let asset := vault_Asset vault in
          if match vk_Amount tx with Some a => negb (asset_eqb asset (mAsset a)) | None => false end
          then tecWRONG_ASSET
          else if asset_native asset then tecNO_PERMISSION
          else if negb (getIssuer asset =? vk_Account tx) then tecNO_PERMISSION
          else match asset with
          | AMPT id =>
              match issuances v !! id with
              | None => tecOBJECT_NOT_FOUND
              | Some i => if hasFlag (iss_Flags i) lsfMPTCanClawback then tesSUCCESS else tecNO_PERMISSION
              end
          | AIssue _ =>
              if negb (hasFlag (acct_Flags issuer) lsfAllowTrustLineClawback) || hasFlag (acct_Flags issuer) lsfNoFreeze
              then tecNO_PERMISSION else tesSUCCESS
          end
      end
  end.

(** Shares destroyed and assets recovered, before they are limited to what the vault has. *)
Definition clawback_amounts v vault issuance (holder : Z) (amount : STAmount)
  : result (Expected (STAmount * STAmount)) :=
  if st_is_zero amount then
    let* shares := accountHolds cfg v holder (share_asset vault) fhIGNORE_FREEZE ahIGNORE_AUTH in
    on_value (need (sharesToAssetsWithdraw cfg vault issuance shares)) (fun assets =>
      Ok (Value (shares, assets)))
  else
    on_value (need (assetsToSharesWithdraw cfg vault issuance amount truncate_no)) (fun shares =>
      on_value (need (sharesToAssetsWithdraw cfg vault issuance shares)) (fun assets =>
        Ok (Value (shares, assets)))).

Definition clawback_exchange v vault issuance (holder : Z) (amount : STAmount)
  : result (Expected (STAmount * STAmount)) :=
  catch_overflow
    (on_value (clawback_amounts v vault issuance holder amount) (fun sa =>
       let* n := number_of_st cfg sa.2 in
       if negb (number_gtb n (vault_AssetsAvailable vault)) then Ok (Value sa)
       else
         let* recovered := st_of_number cfg (vault_Asset vault) (vault_AssetsAvailable vault) in
         on_value (need (assetsToSharesWithdraw cfg vault issuance recovered truncate_yes)) (fun shares =>
           on_value (need (sharesToAssetsWithdraw cfg vault issuance shares)) (fun assets =>
             let* n := number_of_st cfg assets in
             Ok (if number_gtb n (vault_AssetsAvailable vault) then Unexpected tecINTERNAL
                 else Value (shares, assets)))))).

Definition VaultClawback_doApply v (tx : VaultClawbackTx) : result (TER * View) :=
  match vaults v !! vk_VaultID tx with
  | None => Ok (tefINTERNAL, v)
  | Some vault =>
      match issuances v !! vault_ShareMPTID vault with
      | None => Ok (tefINTERNAL, v)
      | Some issuance =>
          let* amount := match vk_Amount tx with
                         | Some a => Ok a
                         | None => st_zeroed cfg (vault_Asset vault)
                         end in
          let* exchange := clawback_exchange v vault issuance (vk_Holder tx) amount in
          match exchange with
          | Unexpected t => Ok (t, v)
          | Value (sharesDestroyed, assetsRecovered) =>
              if st_is_zero sharesDestroyed then Ok (tecPRECISION_LOSS, v)
              else redeem v (vk_VaultID tx) vault (vk_Holder tx) (vk_Account tx) sharesDestroyed assetsRecovered
                     (fun v => Ok (tesSUCCESS, v))
          end
      end
  end.

End VaultFunds.
