(* ===== verification/LoanPay.v ===== *)
(** * Paying a loan

    The transaction by which a borrower pays
    ([src/xrpld/app/tx/detail/LoanPay.cpp]).  The payment itself is computed by the
    functions of [Lending]; the transaction chooses who gets the broker's fee, keeps the
    accounts of the broker and the vault, and moves the funds. *)

From S2P Require Import Prelude.
From S2P Require Import Ter.
From S2P Require Import XrplNumber.
From S2P Require Import Amounts.
From S2P Require Import Lending.
From S2P Require Import LedgerState.
From S2P Require Import Holdings.
From S2P Require Import Transfers.
From S2P Require Import Transactors.
From S2P Require Import LoanManage.
From stdpp Require Import gmap list.

Local Open Scope Z_scope.

Definition tfLoanOverpayment : Z := 0x00010000.
Definition tfLoanFullPayment : Z := 0x00020000.
Definition tfLoanPayMask : Z :=
  Z.lxor 0xFFFFFFFF (Z.lor (Z.lor tfUniversal tfLoanOverpayment) tfLoanFullPayment).

Definition loanPaymentsPerFeeIncrement : Z := 5.

Record LoanPayTx : Set := mkLoanPay {
  pay_Account : Z;
  pay_LoanID : Z;
  pay_Amount : STAmount;
  pay_Flags : Z }.

Section LoanPay.
Context `{Keylets} (cfg : Settings).
Implicit Types (v : View) (loan : LoanEntry) (vault : Vault) (broker : LoanBroker).
Implicit Types (tx : LoanPayTx) (parts : LoanPaymentParts).

Local Notation "x [+] y" := (number_add (round_mode cfg) x y) (at level 50).
Local Notation "x [-] y" := (number_sub (round_mode cfg) x y) (at level 50).

(** ** Checks *)

Definition LoanPay_preflight tx : TER :=
  if pay_LoanID tx =? 0 then temINVALID
  else if st_signum (pay_Amount tx) <=? 0 then temBAD_AMOUNT
  else if isFlag (pay_Flags tx) (Z.lor tfLoanOverpayment tfLoanFullPayment) then temINVALID_FLAG
  else tesSUCCESS.

(** The number of base fees for the payments that [amount] may make. *)
Definition feeIncrements (asset : Asset) (x : Loan) (amount : STAmount) (overpayment : bool)
  : result Z :=
  let* payment := roundPeriodicPayment cfg asset (sfPeriodicPayment x) (sfLoanScale x) in
  let* regularPayment := payment [+] sfLoanServiceFee x in
  let mode := if overpayment then upward else downward in
  let* a := number_of_st (with_mode cfg mode) amount in
  let* q := number_div mode a regularPayment in
  let* estimate := to_rep mode q in
  let* n := of_rep mode estimate in
  let* d := of_rep upward loanPaymentsPerFeeIncrement in
  let* q := number_div upward n d in
  let* increments := to_rep upward q in
  Ok (Z.max 1 increments).

Definition LoanPay_calculateBaseFee v tx (normalCost : Z) : result Z :=
  if isFlag (pay_Flags tx) tfLoanFullPayment then Ok normalCost
  else match loans v !! pay_LoanID tx with
  | None => Ok normalCost
  | Some loan =>
      let x := loan_fields loan in
      if sfPaymentRemaining x <=? loanPaymentsPerFeeIncrement then Ok normalCost
      else
        let* due := present (sfNextPaymentDueDate x) in
        if hasExpired (parentCloseTime (env v)) (Some due) then Ok normalCost
        else match brokers v !! loan_LoanBrokerID loan with
        | None => Ok normalCost
        | Some broker =>
            match vaults v !! broker_VaultID broker with
            | None => Ok normalCost
            | Some vault =>
                if negb (asset_eqb (vault_Asset vault) (mAsset (pay_Amount tx))) then Ok normalCost
                else
                  let* n := feeIncrements (vault_Asset vault) x (pay_Amount tx)
                              (isFlag (pay_Flags tx) tfLoanOverpayment) in
                  Ok (i64 (n * normalCost))
            end
        end
  end.

Definition LoanPay_preclaim v tx : result TER :=
  match loans v !! pay_LoanID tx with
  | None => Ok tecNO_ENTRY
  | Some loan =>
      let x := loan_fields loan in
      if negb (loan_Borrower loan =? pay_Account tx) then Ok tecNO_PERMISSION
      else if isFlag (pay_Flags tx) tfLoanOverpayment && negb (lsfLoanOverpayment x)
      then Ok temINVALID_FLAG
      else if (sfPaymentRemaining x =? 0) || number_eqb (sfPrincipalOutstanding x) zero
      then Ok tecKILLED
      else match brokers v !! loan_LoanBrokerID loan with
      | None => Ok tefBAD_LEDGER
      | Some broker =>
          match vaults v !! broker_VaultID broker with
          | None => Ok tefBAD_LEDGER
          | Some vault =>
              let asset := vault_Asset vault in
              if negb (asset_eqb (mAsset (pay_Amount tx)) asset) then Ok tecWRONG_ASSET
              else
                let frozen := checkFrozen v (pay_Account tx) asset in
                if negb (isTesSuccess frozen) then Ok frozen
                else
                  let frozen := checkDeepFrozen v (vault_Account vault) asset in
                  if negb (isTesSuccess frozen) then Ok frozen
                  else
                    let* balance := accountCanSend cfg v (pay_Account tx) asset fhZERO_IF_FROZEN
                                      ahZERO_IF_UNAUTHORIZED in
                    let* short := st_ltb balance (pay_Amount tx) in
                    Ok (if short then tecINSUFFICIENT_FUNDS else tesSUCCESS)
          end
      end
  end.

(** ** The payment *)

Definition sendBrokerFeeToOwner v (asset : Asset) loan broker : result bool :=
  let* minimum := tenthBipsOfValue cfg (broker_DebtTotal broker) (broker_CoverRateMinimum broker) in
  let* minimum := roundToAsset cfg asset minimum (sfLoanScale (loan_fields loan)) (round_mode cfg) in
  Ok (number_geb (broker_CoverAvailable broker) minimum &&
      negb (isDeepFrozen v (broker_Owner broker) asset)).

(** The code [unimpairLoan] returns is not looked at. *)
Definition unimpaired v loan vault : result (LoanEntry * Vault) :=
  if loan_Impaired loan then
    let* (_, loan, vault) := unimpairLoan cfg v loan vault in
    Ok (loan, vault)
  else Ok (loan, vault).

Definition makePayment v tx (asset : Asset) loan broker : result (Expected LoanPaymentParts * LoanEntry) :=
  let now := parentCloseTime (env v) in
  let rate := broker_ManagementFeeRate broker in
  let* (parts, x) :=
    if isFlag (pay_Flags tx) tfLoanFullPayment
    then loanMakeFullPayment cfg asset now (loan_fields loan) rate (pay_Amount tx)
    else loanMakePayment cfg asset now (loan_fields loan) rate (pay_Amount tx)
           (isFlag (pay_Flags tx) tfLoanOverpayment) in
  Ok (parts, set_loan_fields loan x).

(** The accounts of the broker and the vault after a payment, and what goes to the
    vault. *)
Definition book_payment (asset : Asset) broker vault parts (toOwner : bool)
  : result (LoanBroker * Vault * Number) :=
  let vaultScale := exponent_ (vault_AssetsAvailable vault) in
  let* totalPaidToVaultRaw := principalPaid parts [+] interestPaid parts in
  let* totalPaidToVaultRounded := roundToAsset cfg asset totalPaidToVaultRaw vaultScale downward in
  let* totalPaidToVaultForDebt := totalPaidToVaultRaw [-] valueChange parts in
  let* debt :=
    if number_geb totalPaidToVaultForDebt (broker_DebtTotal broker) then Ok zero
    else broker_DebtTotal broker [-] totalPaidToVaultForDebt in
  let* assetsAvailable := vault_AssetsAvailable vault [+] totalPaidToVaultRounded in
  let* assetsTotal := vault_AssetsTotal vault [+] valueChange parts in
  let* cover :=
    if toOwner then Ok (broker_CoverAvailable broker)
    else broker_CoverAvailable broker [+] feePaid parts in
  Ok (set_broker_funds broker debt cover, set_vault_assets vault assetsTotal assetsAvailable,
      totalPaidToVaultRounded).

(** A receiver that pays itself gets its holding back if it deleted it. *)
Definition restore_holding v (payee payer : Z) (asset : Asset) : result (TER * View) :=
  if payee =? payer then ensure_holding cfg v payee asset else Ok (tesSUCCESS, v).

Definition move_funds v (payer : Z) (asset : Asset) (vaultAccount brokerPayee : Z)
    (toVault toBroker : Number) : result (TER * View) :=
  let? v :=
    Ok (if number_eqb toVault zero then tesSUCCESS else requireAuth v asset vaultAccount StrongAuth, v) in
  let? v :=
    if number_eqb toBroker zero then Ok (tesSUCCESS, v)
    else
      let? v := restore_holding v brokerPayee payer asset in
      Ok (requireAuth v asset brokerPayee StrongAuth, v) in
  accountSendMulti cfg v payer asset [(vaultAccount, toVault); (brokerPayee, toBroker)] Waive.

Definition LoanPay_doApply v tx : result (TER * View) :=
  let loanID := pay_LoanID tx in
  match loans v !! loanID with
  | None => Ok (tefBAD_LEDGER, v)
  | Some loan =>
      let brokerID := loan_LoanBrokerID loan in
      match brokers v !! brokerID with
      | None => Ok (tefBAD_LEDGER, v)
      | Some broker =>
          let vaultID := broker_VaultID broker in
          match vaults v !! vaultID with
          | None => Ok (tefBAD_LEDGER, v)
          | Some vault =>
              let asset := vault_Asset vault in
              let* toOwner := sendBrokerFeeToOwner v asset loan broker in
              let brokerPayee := if toOwner then broker_Owner broker else broker_Account broker in
              let frozen := if toOwner then tesSUCCESS else checkDeepFrozen v brokerPayee asset in
              if negb (isTesSuccess frozen) then Ok (frozen, v)
              else
                let* (loan, vault) := unimpaired v loan vault in
                let* (paymentParts, loan) := makePayment v tx asset loan broker in
                match paymentParts with
                | Unexpected t => Ok (t, v)
                | Value parts =>
                    let v := update_loan v loanID loan in
                    if number_ltb (principalPaid parts) zero || number_ltb (interestPaid parts) zero ||
                       number_ltb (feePaid parts) zero
                    then Ok (tecLIMIT_EXCEEDED, v)
                    else
                      let* (broker, vault, toVault) :=
                        book_payment asset broker vault parts toOwner in
                      let v := update_vault (update_broker v brokerID broker) vaultID vault in
                      move_funds v (pay_Account tx) asset (vault_Account vault) brokerPayee
                        toVault (feePaid parts)
                end
          end
      end
  end.

End LoanPay.
