(* ===== verification/Bytes.v ===== *)
(** * Bytes

    Numbers written as bytes, the most significant one first, as [Serializer]
    ([src/libxrpl/protocol/Serializer.cpp]) writes and reads them. *)

From S2P Require Import Prelude.
From stdpp Require Import list.

Local Open Scope Z_scope.

Definition byte (b : Z) : Prop := 0 <= b < 256.

(** The number that bytes stand for. *)
Definition be_number (l : list Z) : Z := fold_left (fun n b => n * 256 + b) l 0.

(** The last [n] bytes of a number. *)
Fixpoint be_bytes (n : nat) (x : Z) : list Z :=
  match n with
  | O => []
  | S n => (x / 256 ^ Z.of_nat n) mod 256 :: be_bytes n x
  end.

Definition zlen (l : list Z) : Z := Z.of_nat (length l).

Lemma be_number_acc l n : fold_left (fun n b => n * 256 + b) l n = n * 256 ^ zlen l + be_number l.
Proof.
  unfold be_number, zlen. revert n. induction l as [|b l IH]; intros n.
  - change (n = n * 256 ^ Z.of_nat 0 + 0). change (256 ^ Z.of_nat 0) with 1. lia.
  - cbn [fold_left]. rewrite IH, (IH (0 * 256 + b)). cbn [length]. rewrite Nat2Z.inj_succ, Z.pow_succ_r by lia. lia.
Qed.

Lemma be_number_cons b l : be_number (b :: l) = b * 256 ^ zlen l + be_number l.
Proof. unfold be_number at 1. cbn [fold_left]. by rewrite be_number_acc. Qed.

Lemma zlen_cons b l : zlen (b :: l) = zlen l + 1.
Proof. unfold zlen. cbn [length]. lia. Qed.

Lemma zlen_pos l : 0 <= zlen l.
Proof. unfold zlen. lia. Qed.

Lemma be_number_bound l : Forall byte l -> 0 <= be_number l < 256 ^ zlen l.
Proof.
  induction 1 as [|b l Hb _ IH]; [done|]. rewrite be_number_cons, zlen_cons, Z.pow_add_r by (pose proof (zlen_pos l); lia).
  unfold byte in Hb. change (256 ^ 1) with 256. nia.
Qed.

Lemma be_number_inj l l' :
  Forall byte l -> Forall byte l' -> zlen l = zlen l' -> be_number l = be_number l' -> l = l'.
Proof.
  intros Hl. revert l'. induction Hl as [|b l Hb Hl IH]; intros l' Hl' Hlen Hn.
  - destruct l'; [done|]. rewrite zlen_cons in Hlen. pose proof (zlen_pos l'). change (zlen []) with 0 in Hlen. lia.
  - destruct Hl' as [|b' l' Hb' Hl']; [rewrite zlen_cons in Hlen; pose proof (zlen_pos l); change (zlen []) with 0 in Hlen; lia|].
    rewrite !zlen_cons in Hlen. rewrite !be_number_cons in Hn. assert (zlen l = zlen l') as E by lia. rewrite E in Hn.
    pose proof (be_number_bound l Hl) as B. pose proof (be_number_bound l' Hl') as B'. rewrite E in B.
    assert (b = b') as -> by nia. f_equal. apply IH; [done..|]. lia.
Qed.

Lemma be_bytes_length n x : length (be_bytes n x) = n.
Proof. induction n as [|n IH]; cbn [be_bytes length]; congruence. Qed.

Lemma be_bytes_bytes n x : Forall byte (be_bytes n x).
Proof. induction n as [|n IH]; cbn [be_bytes]; constructor; [|done]. unfold byte. apply Z.mod_pos_bound. lia. Qed.

(** Writing and reading back keeps the last bytes of a number. *)
Lemma be_number_bytes n x : be_number (be_bytes n x) = x mod 256 ^ Z.of_nat n.
Proof.
  induction n as [|n IH]; [by rewrite Z.mod_1_r|]. cbn [be_bytes].
  rewrite be_number_cons, IH. unfold zlen. rewrite be_bytes_length, Nat2Z.inj_succ, Z.pow_succ_r by lia.
  pose proof (Z.pow_pos_nonneg 256 (Z.of_nat n)) as P. rewrite (Z.mul_comm 256), Z.rem_mul_r by lia. lia.
Qed.

Lemma be_number_bytes_small n x : 0 <= x < 256 ^ Z.of_nat n -> be_number (be_bytes n x) = x.
Proof. intros Hx. rewrite be_number_bytes. by apply Z.mod_small. Qed.

Lemma be_bytes_inj n x y : 0 <= x < 256 ^ Z.of_nat n -> 0 <= y < 256 ^ Z.of_nat n -> be_bytes n x = be_bytes n y -> x = y.
Proof. intros Hx Hy E. by rewrite <- (be_number_bytes_small n x Hx), <- (be_number_bytes_small n y Hy), E. Qed.

(** Reading and writing back gives the same bytes. *)
Lemma be_bytes_number l : Forall byte l -> be_bytes (length l) (be_number l) = l.
Proof.
  intros Hl. apply be_number_inj; [apply be_bytes_bytes|done| |].
  - unfold zlen. by rewrite be_bytes_length.
  - apply be_number_bytes_small. by apply be_number_bound.
Qed.
