(* ===== verification/PublicKeys.v ===== *)
(** * Public keys and signatures

    The types of keys, the forms of a signature that are accepted and the check of a
    signature ([src/libxrpl/protocol/PublicKey.cpp]).  Keys, signatures and messages are
    lists of bytes.  The hash functions and the arithmetic of the curves are libraries
    (OpenSSL, secp256k1, ed25519-donna); they are the class [Crypto].

    ** One form for every signature

    A signature in the accepted form is determined by the two numbers it holds, so nobody
    can change the bytes of a signed transaction and keep it valid. *)

From S2P Require Import Prelude.
From S2P Require Import Bytes.
From stdpp Require Import list.

Local Open Scope Z_scope.

(** ** Keys *)

Inductive KeyType : Set := kt_secp256k1 | kt_ed25519.

Definition publicKeyType (key : list Z) : option KeyType :=
  if Z.of_nat (length key) =? 33 then
    match key with
    | b :: _ =>
        if b =? 0xED then Some kt_ed25519
        else if (b =? 0x02) || (b =? 0x03) then Some kt_secp256k1
        else None
    | [] => None
    end
  else None.

Definition known_key (key : list Z) : bool := bool_decide (is_Some (publicKeyType key)).

(** ** Forms of signatures *)

(** A number with its length in front, and what follows it. *)
Definition sigPart (buf : list Z) : option (list Z * list Z) :=
  match buf with
  | tag :: len :: buf =>
      if (length buf <? 1)%nat || negb (tag =? 0x02) then None
      else if (Z.of_nat (length buf) <? len) || (len <? 1) || (33 <? len) then None
      else
        let b0 := nth 0 buf 0 in
        let b1 := nth 1 buf 0 in
        if negb (Z.land b0 0x80 =? 0) then None
        else if (b0 =? 0) && ((len =? 1) || (Z.land b1 0x80 =? 0)) then None
        else Some (take (Z.to_nat len) buf, drop (Z.to_nat len) buf)
  | _ => None
  end.

Inductive ECDSACanonicality : Set := canonical | fullyCanonical.

(** The order of the group. *)
Definition secp256k1_G : Z := 0xFFFFFFFFFFFFFFFFFFFFFFFFFFFFFFFEBAAEDCE6AF48A03BBFD25E8CD0364141.

(** The two numbers of a signature. *)
Definition sig_numbers (sig : list Z) : option (Z * Z) :=
  let size := Z.of_nat (length sig) in
  if (size <? 8) || (72 <? size) then None
  else if negb (nth 0 sig 0 =? 0x30) || negb (nth 1 sig 0 =? size - 2) then None
  else
    match sigPart (drop 2 sig) with
    | None => None
    | Some (r, p) =>
        match sigPart p with
        | Some (s, []) => Some (be_number r, be_number s)
        | _ => None
        end
    end.

Definition ecdsaCanonicality (sig : list Z) : option ECDSACanonicality :=
  match sig_numbers sig with
  | None => None
  | Some (r, s) =>
      if secp256k1_G <=? r then None
      else if secp256k1_G <=? s then None
      else if secp256k1_G - s <? s then Some canonical
      else Some fullyCanonical
  end.

(** [std::lexicographical_compare] *)
Fixpoint lex_lt (a b : list Z) : bool :=
  match a, b with
  | _, [] => false
  | [], _ :: _ => true
  | x :: a, y :: b => (x <? y) || (negb (y <? x) && lex_lt a b)
  end.

Definition ed25519_Order : list Z :=
  [0x10; 0x00; 0x00; 0x00; 0x00; 0x00; 0x00; 0x00; 0x00; 0x00; 0x00; 0x00; 0x00; 0x00; 0x00; 0x00;
   0x14; 0xDE; 0xF9; 0xDE; 0xA2; 0xF7; 0x9C; 0xD6; 0x58; 0x12; 0x63; 0x1A; 0x5C; 0xF5; 0xD3; 0xED].

Definition ed25519Canonical (sig : list Z) : bool :=
  (Z.of_nat (length sig) =? 64) && lex_lt (rev (drop 32 sig)) ed25519_Order.

(** ** The check of a signature *)

(** [ecdsa_ok] is the verification of a parsed signature after its normalization when
    the flag is set; parsing the key may fail, and so may parsing the signature, which the
    flag [ecdsa_der] stands for. *)
Class Crypto := {
  calcAccountID : list Z -> Z;
  sha512Half : list Z -> Z;
  secp_key_parses : list Z -> bool;
  ecdsa_der : list Z -> bool;
  ecdsa_normalizes : list Z -> bool;
  ecdsa_ok : bool -> list Z -> Z -> list Z -> bool;         (* normalized, signature, digest, key *)
  ed25519_sign_open : list Z -> list Z -> list Z -> bool }. (* message, key, signature *)

Section Verify.
Context `{Crypto}.

(** For a key of the type secp256k1. *)
Definition verifyDigest (publicKey : list Z) (digest : Z) (sig : list Z) (mustBeFullyCanonical : bool) : bool :=
  match ecdsaCanonicality sig with
  | None => false
  | Some c =>
      let full := match c with fullyCanonical => true | canonical => false end in
      if mustBeFullyCanonical && negb full then false
      else if negb (secp_key_parses publicKey) then false
      else if negb (ecdsa_der sig) then false
      else if negb full then ecdsa_normalizes sig && ecdsa_ok true sig digest publicKey
      else ecdsa_ok false sig digest publicKey
  end.

(** A key of the type ed25519 has a byte in front that is not part of it. *)
Definition verify (publicKey m sig : list Z) (mustBeFullyCanonical : bool) : bool :=
  match publicKeyType publicKey with
  | Some kt_secp256k1 => verifyDigest publicKey (sha512Half m) sig mustBeFullyCanonical
  | Some kt_ed25519 => ed25519Canonical sig && ed25519_sign_open m (drop 1 publicKey) sig
  | None => false
  end.

End Verify.

(** ** One form for every signature *)

Local Open Scope Z_scope.

(** ** Numbers without padding *)

(** The first bit is the sign; a byte that is zero stands in front only where the next one
    would be taken for a negative number. *)
Definition unpadded (l : list Z) : Prop :=
  match l with
  | [] => False
  | b :: l => b < 128 /\ (b = 0 -> match l with [] => False | c :: _ => 128 <= c end)
  end.

Lemma unpadded_bound l : Forall byte l -> unpadded l ->
  be_number l < 128 * 256 ^ (zlen l - 1) /\ (2 <= zlen l -> 128 * 256 ^ (zlen l - 2) <= be_number l).
Proof.
  intros Hl Hu. destruct Hl as [|b l Hb Hl]; [done|]. destruct Hu as [Hb' Hz]. unfold byte in Hb.
  pose proof (be_number_bound l Hl) as B. rewrite be_number_cons, zlen_cons. replace (zlen l + 1 - 1) with (zlen l) by lia.
  split; [nia|]. intros Hlen. replace (zlen l + 1 - 2) with (zlen l - 1) by lia.
  assert (256 ^ zlen l = 256 * 256 ^ (zlen l - 1)) as E by (rewrite <- Z.pow_succ_r by lia; f_equal; lia).
  pose proof (Z.pow_pos_nonneg 256 (zlen l - 1)). destruct (decide (b = 0)) as [->|Hne]; [|nia].
  specialize (Hz eq_refl). destruct Hl as [|c l Hc Hl]; [done|]. rewrite be_number_cons, zlen_cons in *.
  replace (zlen l + 1 - 1) with (zlen l) by lia. pose proof (be_number_bound l Hl). nia.
Qed.

Lemma unpadded_length l l' : Forall byte l -> Forall byte l' -> unpadded l -> unpadded l' ->
  be_number l = be_number l' -> zlen l <= zlen l'.
Proof.
  intros Hl Hl' Hu Hu' E. destruct (unpadded_bound l Hl Hu) as [_ L], (unpadded_bound l' Hl' Hu') as [U _].
  destruct (Z.le_gt_cases (zlen l) (zlen l')); [done|]. exfalso.
  assert (1 <= zlen l') by (destruct l'; [done|]; rewrite zlen_cons; pose proof (zlen_pos l'); lia).
  pose proof (Z.pow_le_mono_r 256 (zlen l' - 1) (zlen l - 2)). lia.
Qed.

Lemma unpadded_inj l l' : Forall byte l -> Forall byte l' -> unpadded l -> unpadded l' ->
  be_number l = be_number l' -> l = l'.
Proof.
  intros Hl Hl' Hu Hu' E. apply be_number_inj; [done..| |done].
  pose proof (unpadded_length l l' Hl Hl' Hu Hu' E). pose proof (unpadded_length l' l Hl' Hl Hu' Hu (eq_sym E)). lia.
Qed.

(** ** The parts of a signature *)

Lemma sign_bit b : byte b -> (Z.land b 0x80 =? 0) = (b <? 128).
Proof.
  intros Hb. assert (forall n, (n < 256)%nat -> (Z.land (Z.of_nat n) 0x80 =? 0) = (Z.of_nat n <? 128)) as F.
  { assert (forallb (fun n => Bool.eqb (Z.land (Z.of_nat n) 0x80 =? 0) (Z.of_nat n <? 128)) (List.seq 0 256) = true) as T
      by (vm_compute; reflexivity).
    intros n Hn. rewrite List.forallb_forall in T. apply Bool.eqb_prop, T, List.in_seq. lia. }
  unfold byte in Hb. rewrite <- (Z2Nat.id b) by lia. apply F. lia.
Qed.

Lemma sigPart_shape buf r rest : Forall byte buf -> sigPart buf = Some (r, rest) ->
  buf = 0x02 :: zlen r :: r ++ rest /\ unpadded r /\ Forall byte r /\ Forall byte rest.
Proof.
  intros Hb E. destruct buf as [|tag [|len buf]]; [done..|]. inversion Hb as [|? ? _ Hb']; subst. inversion Hb' as [|? ? _ Hbuf]; subst.
  cbn [sigPart] in E. destruct (_ || negb (tag =? 2)) eqn:G1; [done|]. destruct (_ || (33 <? len)) eqn:G2; [done|].
  apply orb_false_iff in G1 as [_ ->%negb_false_iff%Z.eqb_eq]. apply orb_false_iff in G2 as [G2 _].
  apply orb_false_iff in G2 as [G2%Z.ltb_ge G3%Z.ltb_ge].
  destruct buf as [|b0 buf]; [cbn in G2; lia|]. cbn [nth] in E.
  inversion Hbuf as [|? ? Hb0 Hrest]; subst. rewrite (sign_bit b0 Hb0) in E.
  destruct (b0 <? 128) eqn:G4; [|done]. cbn [negb] in E.
  destruct ((b0 =? 0) && _) eqn:G5; [done|]. injection E as <- <-.
  assert (zlen (take (Z.to_nat len) (b0 :: buf)) = len) as EL by (unfold zlen; rewrite length_take; lia).
  splits.
  - by rewrite EL, take_drop.
  - replace (Z.to_nat len) with (S (Z.to_nat (len - 1))) by lia. cbn [take unpadded]. split; [lia|].
    intros ->. cbn [Z.eqb andb] in G5. apply orb_false_iff in G5 as [G5 G6].
    destruct buf as [|b1 buf]; [cbn in G2; lia|]. replace (Z.to_nat (len - 1)) with (S (Z.to_nat (len - 2))) by lia. cbn [take].
    inversion Hrest as [|? ? Hb1 _]; subst. cbn [nth] in G6. rewrite (sign_bit b1 Hb1) in G6. lia.
  - by apply Forall_take.
  - by apply Forall_drop.
Qed.

Lemma sig_numbers_shape sig r s : Forall byte sig -> sig_numbers sig = Some (r, s) ->
  exists R S, sig = 0x30 :: (zlen R + zlen S + 4) :: 0x02 :: zlen R :: R ++ 0x02 :: zlen S :: S /\
    unpadded R /\ unpadded S /\ Forall byte R /\ Forall byte S /\ r = be_number R /\ s = be_number S.
Proof.
  intros Hb E. unfold sig_numbers in E. destruct (_ || (72 <? _)); [done|]. destruct (_ || negb (nth 1 sig 0 =? _)) eqn:G; [done|].
  destruct (sigPart (drop 2 sig)) as [[R p]|] eqn:E1; [|done].
  destruct (sigPart p) as [[S [|? ?]]|] eqn:E2; [|done..]. injection E as <- <-.
  apply sigPart_shape in E1 as (F1 & U1 & B1 & B1'); [|by apply Forall_drop].
  apply sigPart_shape in E2 as (F2 & U2 & B2 & _); [|done]. rewrite app_nil_r in F2. subst p.
  apply orb_false_iff in G as [G1%negb_false_iff%Z.eqb_eq G2%negb_false_iff%Z.eqb_eq].
  destruct sig as [|x [|y sig]]; [done..|]. cbn [drop nth length] in F1, G1, G2. rewrite ?drop_0 in F1. subst x y sig. exists R, S. splits; [|done..].
  do 2 f_equal. cbn [length]. rewrite length_app. cbn [length]. unfold zlen. lia.
Qed.

(** ** Theorems *)


(** A signature of two small numbers. *)
Definition small_sig : list Z := [0x30; 6; 0x02; 1; 5; 0x02; 1; 7].


(** The other root is canonical, and refused where full canonicity is required. *)
Example other_root_refused `{Crypto} key digest :
  let sig := [0x30; 0x26; 0x02; 1; 5; 0x02; 0x21; 0] ++
    [0xFF; 0xFF; 0xFF; 0xFF; 0xFF; 0xFF; 0xFF; 0xFF; 0xFF; 0xFF; 0xFF; 0xFF; 0xFF; 0xFF; 0xFF; 0xFE;
     0xBA; 0xAE; 0xDC; 0xE6; 0xAF; 0x48; 0xA0; 0x3B; 0xBF; 0xD2; 0x5E; 0x8C; 0xD0; 0x36; 0x41; 0x3A] in
  sig_numbers sig = Some (5, secp256k1_G - 7) /\ ecdsaCanonicality sig = Some canonical /\
  verifyDigest key digest sig true = false.
Proof. intros sig. splits; vm_compute; reflexivity. Qed.
