(* ===== verification/Signatures.v ===== *)
(** * Who signed a transaction

    The signature of a transaction, by one key or by several signers: the check of the
    signatures themselves ([src/libxrpl/protocol/STTx.cpp]), and the check that the keys
    may sign for the account ([src/xrpld/app/tx/detail/Transactor.cpp]).  The text of an
    error is left out: a check of the first kind is a [bool]. *)

From S2P Require Import Prelude.
From S2P Require Import Ter.
From S2P Require Import Amounts.
From S2P Require Import LedgerState.
From S2P Require Import Holdings.
From S2P Require Import PublicKeys.
From stdpp Require Import gmap list.

Local Open Scope Z_scope.

Definition tfFullyCanonicalSig : Z := 0x80000000.
Definition tfInnerBatchTxn : Z := 0x40000000.

(** ** Data *)

(** An element of [sfSigners]. *)
Record Signer : Set := mkSigner {
  sgn_Account : Z;
  sgn_SigningPubKey : list Z;
  sgn_TxnSignature : option (list Z) }.

(** The fields of a transaction, or of its object [sfCounterpartySignature], that sign it. *)
Record SigObject : Set := mkSig {
  sig_SigningPubKey : list Z;
  sig_TxnSignature : option (list Z);
  sig_Signers : option (list Signer) }.

Record SignerEntry : Set := mkSignerEntry { se_account : Z; se_weight : Z }.

Record SignerList : Set := mkSignerList { sl_SignerQuorum : Z; sl_SignerEntries : list SignerEntry }.

(** What the ledger says about keys: the regular key of an account, its list of signers,
    and the permissions that an account has given to another one. *)
Record Keys := mkKeys {
  regularKeys : gmap Z Z;
  signerLists : gmap Z SignerList;
  delegates : gmap (Z * Z) (list Z) }.

(** ** Checks before the ledger is looked at *)

Definition empty_key (key : list Z) : bool := bool_decide (key = []).

Definition preflightCheckSigningKey (sig : SigObject) : TER :=
  if negb (empty_key (sig_SigningPubKey sig)) && negb (known_key (sig_SigningPubKey sig))
  then temBAD_SIGNATURE else tesSUCCESS.

Definition signed (s : option (list Z)) : bool :=
  match s with Some (_ :: _) => true | _ => false end.

(** In a simulation nothing may be signed. *)
Definition preflightCheckSimulateKeys (dryRun : bool) (sig : SigObject) : option TER :=
  if negb dryRun then None
  else if signed (sig_TxnSignature sig) then Some temINVALID
  else match sig_Signers sig with
  | None => Some tesSUCCESS
  | Some signers =>
      if existsb (fun s => signed (sgn_TxnSignature s)) signers then Some temINVALID
      else if negb (empty_key (sig_SigningPubKey sig)) then Some temINVALID
      else Some tesSUCCESS
  end.

(** ** The signatures *)

Definition minMultiSigners : Z := 1.
Definition maxMultiSigners (r : Rules) : Z := if featureExpandedSignerList r then 32 else 8.

Section Crypto.
Context `{Crypto}.

Definition singleSignHelper (sig : SigObject) (data : list Z) (fullyCanonical : bool) : bool :=
  match sig_Signers sig with
  | Some _ => false
  | None =>
      known_key (sig_SigningPubKey sig) &&
      verify (sig_SigningPubKey sig) data (default [] (sig_TxnSignature sig)) fullyCanonical
  end.

(** Accounts ascend, and every signature is good. *)
Fixpoint signers_verify (txnAccountID : option Z) (fullyCanonical : bool) (makeMsg : Z -> list Z)
    (lastAccountID : Z) (signers : list Signer) : bool :=
  match signers with
  | [] => true
  | s :: signers =>
      let accountID := sgn_Account s in
      if bool_decide (txnAccountID = Some accountID) then false
      else if lastAccountID =? accountID then false
      else if accountID <? lastAccountID then false
      else if negb (known_key (sgn_SigningPubKey s) &&
                    verify (sgn_SigningPubKey s) (makeMsg accountID) (default [] (sgn_TxnSignature s)) fullyCanonical)
      then false
      else signers_verify txnAccountID fullyCanonical makeMsg accountID signers
  end.

Definition multiSignHelper (r : Rules) (sig : SigObject) (txnAccountID : option Z) (fullyCanonical : bool)
    (makeMsg : Z -> list Z) : bool :=
  match sig_Signers sig with
  | None => false
  | Some signers =>
      if bool_decide (is_Some (sig_TxnSignature sig)) then false
      else
        let size := Z.of_nat (length signers) in
        if (size <? minMultiSigners) || (maxMultiSigners r <? size) then false
        else signers_verify txnAccountID fullyCanonical makeMsg 0 signers
  end.

(** [data] is what a single key signs, [makeMsg] what each of several signers signs.  The
    owner of the account is not one of several signers of its transaction; [own] is
    absent for the signature of the counterparty. *)
Definition checkSign_object (r : Rules) (flags : Z) (requireCanonicalSig : bool) (data : list Z) (makeMsg : Z -> list Z)
    (own : option Z) (sig : SigObject) : bool :=
  let fullyCanonical := hasFlag flags tfFullyCanonicalSig || requireCanonicalSig in
  if empty_key (sig_SigningPubKey sig) then multiSignHelper r sig own fullyCanonical makeMsg
  else singleSignHelper sig data fullyCanonical.

(** ** The right to sign for an account *)

Definition checkSingleSign (v : View) (keys : Keys) (idSigner idAccount : Z) (sleAccount : AccountRoot) : TER :=
  let isMasterDisabled := isFlag (acct_Flags sleAccount) lsfDisableMaster in
  let regularKey := regularKeys keys !! idAccount in
  let regular := bool_decide (regularKey = Some idSigner) in
  if fixMasterKeyAsRegularKey (rules (env v)) then
    if regular then tesSUCCESS
    else if negb isMasterDisabled && (idAccount =? idSigner) then tesSUCCESS
    else if isMasterDisabled && (idAccount =? idSigner) then tefMASTER_DISABLED
    else tefBAD_AUTH
  else if idSigner =? idAccount then
    if isMasterDisabled then tefMASTER_DISABLED else tesSUCCESS
  else if regular then tesSUCCESS
  else if bool_decide (is_Some regularKey) then tefBAD_AUTH
  else tefBAD_AUTH_MASTER.

(** The entries from the first one that is not below [id] on.  A list of signers has an
    entry; the end of the list is reached when all are below. *)
Fixpoint seek_signer (iter : list SignerEntry) (id : Z) : option (SignerEntry * list SignerEntry) :=
  match iter with
  | [] => None
  | e :: rest => if se_account e <? id then seek_signer rest id else Some (e, iter)
  end.

(** The key of one of several signers belongs to the account of the signer. *)
Definition checkSignerKey (v : View) (keys : Keys) (txSigner : Signer) : TER :=
  let txSignerAcctID := sgn_Account txSigner in
  let spk := sgn_SigningPubKey txSigner in
  if negb (empty_key spk) && negb (known_key spk) then tefBAD_SIGNATURE
  else
    let signingAcctIDFromPubKey := if empty_key spk then txSignerAcctID else calcAccountID spk in
    let sleTxSignerRoot := accounts v !! txSignerAcctID in
    if signingAcctIDFromPubKey =? txSignerAcctID then
      match sleTxSignerRoot with
      | Some a => if hasFlag (acct_Flags a) lsfDisableMaster then tefMASTER_DISABLED else tesSUCCESS
      | None => tesSUCCESS
      end
    else
      match sleTxSignerRoot, regularKeys keys !! txSignerAcctID with
      | Some _, Some regular =>
          if negb (signingAcctIDFromPubKey =? regular) then tefBAD_SIGNATURE else tesSUCCESS
      | _, _ => tefBAD_SIGNATURE
      end.

Fixpoint weigh_signers (v : View) (keys : Keys) (iter : list SignerEntry) (weightSum : Z) (txSigners : list Signer)
  : Expected Z :=
  match txSigners with
  | [] => Value weightSum
  | txSigner :: txSigners =>
      match seek_signer iter (sgn_Account txSigner) with
      | None => Unexpected tefBAD_SIGNATURE
      | Some (e, iter) =>
          if negb (se_account e =? sgn_Account txSigner) then Unexpected tefBAD_SIGNATURE
          else
            match checkSignerKey v keys txSigner with
            | tesSUCCESS => weigh_signers v keys iter (u32 (weightSum + se_weight e)) txSigners
            | ter => Unexpected ter
            end
      end
  end.

Definition checkMultiSign (v : View) (keys : Keys) (id : Z) (txSigners : list Signer) : TER :=
  match signerLists keys !! id with
  | None => tefNOT_MULTI_SIGNING
  | Some l =>
      match weigh_signers v keys (sl_SignerEntries l) 0 txSigners with
      | Unexpected ter => ter
      | Value weightSum => if weightSum <? sl_SignerQuorum l then tefBAD_QUORUM else tesSUCCESS
      end
  end.

(** [inBatch] when there is a parent batch. *)
Definition checkSign (v : View) (keys : Keys) (dryRun inBatch : bool) (idAccount : Z) (sig : SigObject) : TER :=
  let pkSigner := sig_SigningPubKey sig in
  if featureLendingProtocol (rules (env v)) && from_option isPseudoAccount false (accounts v !! idAccount) then tefBAD_AUTH
  else if inBatch && featureBatch (rules (env v)) then
    if bool_decide (is_Some (sig_TxnSignature sig)) || negb (empty_key pkSigner) || bool_decide (is_Some (sig_Signers sig))
    then temINVALID_FLAG else tesSUCCESS
  else if dryRun && empty_key pkSigner && negb (bool_decide (is_Some (sig_Signers sig))) then tesSUCCESS
  else match sig_Signers sig with
  | Some txSigners => checkMultiSign v keys idAccount txSigners
  | None =>
      if negb (known_key pkSigner) then tefBAD_AUTH
      else match accounts v !! idAccount with
      | None => terNO_ACCOUNT
      | Some sleAccount => checkSingleSign v keys (calcAccountID pkSigner) idAccount sleAccount
      end
  end.

End Crypto.
