(* ===== verification/WireFields.v ===== *)
(** * Fields and formats

    The fields of the wire format with their types and numbers
    ([include/xrpl/protocol/detail/sfields.macro]), the templates of inner objects
    ([src/libxrpl/protocol/InnerObjectFormats.cpp]) and those of transactions
    ([src/libxrpl/protocol/TxFormats.cpp], [detail/transactions.macro]). *)

From S2P Require Import Prelude.
From stdpp Require Import list.

Local Open Scope Z_scope.

(** ** Types of fields *)

Definition STI_UINT16 : Z := 1.
Definition STI_UINT32 : Z := 2.
Definition STI_UINT64 : Z := 3.
Definition STI_UINT128 : Z := 4.
Definition STI_UINT256 : Z := 5.
Definition STI_AMOUNT : Z := 6.
Definition STI_VL : Z := 7.
Definition STI_ACCOUNT : Z := 8.
Definition STI_NUMBER : Z := 9.
Definition STI_INT32 : Z := 10.
Definition STI_OBJECT : Z := 14.
Definition STI_ARRAY : Z := 15.
Definition STI_UINT8 : Z := 16.
Definition STI_UINT160 : Z := 17.
Definition STI_PATHSET : Z := 18.
Definition STI_VECTOR256 : Z := 19.
Definition STI_UINT192 : Z := 21.
Definition STI_ISSUE : Z := 24.
Definition STI_XCHAIN_BRIDGE : Z := 25.
Definition STI_CURRENCY : Z := 26.

(** A field is identified by its type and its number. *)
Definition Field : Set := Z * Z.

Inductive SOEStyle : Set := soeREQUIRED | soeOPTIONAL | soeDEFAULT.

Definition SOTemplate : Set := list (Field * SOEStyle).

(** ** Fields *)

Module SF.

Definition sfCloseResolution : Field := (STI_UINT8, 1).
Definition sfMethod : Field := (STI_UINT8, 2).
Definition sfTransactionResult : Field := (STI_UINT8, 3).
Definition sfScale : Field := (STI_UINT8, 4).
Definition sfAssetScale : Field := (STI_UINT8, 5).
Definition sfTickSize : Field := (STI_UINT8, 16).
Definition sfUNLModifyDisabling : Field := (STI_UINT8, 17).
Definition sfHookResult : Field := (STI_UINT8, 18).
Definition sfWasLockingChainSend : Field := (STI_UINT8, 19).
Definition sfWithdrawalPolicy : Field := (STI_UINT8, 20).
Definition sfLedgerEntryType : Field := (STI_UINT16, 1).
Definition sfTransactionType : Field := (STI_UINT16, 2).
Definition sfSignerWeight : Field := (STI_UINT16, 3).
Definition sfTransferFee : Field := (STI_UINT16, 4).
Definition sfTradingFee : Field := (STI_UINT16, 5).
Definition sfDiscountedFee : Field := (STI_UINT16, 6).
Definition sfVersion : Field := (STI_UINT16, 16).
Definition sfHookStateChangeCount : Field := (STI_UINT16, 17).
Definition sfHookEmitCount : Field := (STI_UINT16, 18).
Definition sfHookExecutionIndex : Field := (STI_UINT16, 19).
Definition sfHookApiVersion : Field := (STI_UINT16, 20).
Definition sfLedgerFixType : Field := (STI_UINT16, 21).
Definition sfManagementFeeRate : Field := (STI_UINT16, 22).
Definition sfNetworkID : Field := (STI_UINT32, 1).
Definition sfFlags : Field := (STI_UINT32, 2).
Definition sfSourceTag : Field := (STI_UINT32, 3).
Definition sfSequence : Field := (STI_UINT32, 4).
Definition sfPreviousTxnLgrSeq : Field := (STI_UINT32, 5).
Definition sfLedgerSequence : Field := (STI_UINT32, 6).
Definition sfCloseTime : Field := (STI_UINT32, 7).
Definition sfParentCloseTime : Field := (STI_UINT32, 8).
Definition sfSigningTime : Field := (STI_UINT32, 9).
Definition sfExpiration : Field := (STI_UINT32, 10).
Definition sfTransferRate : Field := (STI_UINT32, 11).
Definition sfWalletSize : Field := (STI_UINT32, 12).
Definition sfOwnerCount : Field := (STI_UINT32, 13).
Definition sfDestinationTag : Field := (STI_UINT32, 14).
Definition sfLastUpdateTime : Field := (STI_UINT32, 15).
Definition sfHighQualityIn : Field := (STI_UINT32, 16).
Definition sfHighQualityOut : Field := (STI_UINT32, 17).
Definition sfLowQualityIn : Field := (STI_UINT32, 18).
Definition sfLowQualityOut : Field := (STI_UINT32, 19).
Definition sfQualityIn : Field := (STI_UINT32, 20).
Definition sfQualityOut : Field := (STI_UINT32, 21).
Definition sfStampEscrow : Field := (STI_UINT32, 22).
Definition sfBondAmount : Field := (STI_UINT32, 23).
Definition sfLoadFee : Field := (STI_UINT32, 24).
Definition sfOfferSequence : Field := (STI_UINT32, 25).
Definition sfFirstLedgerSequence : Field := (STI_UINT32, 26).
Definition sfLastLedgerSequence : Field := (STI_UINT32, 27).
Definition sfTransactionIndex : Field := (STI_UINT32, 28).
Definition sfOperationLimit : Field := (STI_UINT32, 29).
Definition sfReferenceFeeUnits : Field := (STI_UINT32, 30).
Definition sfReserveBase : Field := (STI_UINT32, 31).
Definition sfReserveIncrement : Field := (STI_UINT32, 32).
Definition sfSetFlag : Field := (STI_UINT32, 33).
Definition sfClearFlag : Field := (STI_UINT32, 34).
Definition sfSignerQuorum : Field := (STI_UINT32, 35).
Definition sfCancelAfter : Field := (STI_UINT32, 36).
Definition sfFinishAfter : Field := (STI_UINT32, 37).
Definition sfSignerListID : Field := (STI_UINT32, 38).
Definition sfSettleDelay : Field := (STI_UINT32, 39).
Definition sfTicketCount : Field := (STI_UINT32, 40).
Definition sfTicketSequence : Field := (STI_UINT32, 41).
Definition sfNFTokenTaxon : Field := (STI_UINT32, 42).
Definition sfMintedNFTokens : Field := (STI_UINT32, 43).
Definition sfBurnedNFTokens : Field := (STI_UINT32, 44).
Definition sfHookStateCount : Field := (STI_UINT32, 45).
Definition sfEmitGeneration : Field := (STI_UINT32, 46).
Definition sfVoteWeight : Field := (STI_UINT32, 48).
Definition sfFirstNFTokenSequence : Field := (STI_UINT32, 50).
Definition sfOracleDocumentID : Field := (STI_UINT32, 51).
Definition sfPermissionValue : Field := (STI_UINT32, 52).
Definition sfMutableFlags : Field := (STI_UINT32, 53).
Definition sfStartDate : Field := (STI_UINT32, 54).
Definition sfPaymentInterval : Field := (STI_UINT32, 55).
Definition sfGracePeriod : Field := (STI_UINT32, 56).
Definition sfPreviousPaymentDate : Field := (STI_UINT32, 57).
Definition sfNextPaymentDueDate : Field := (STI_UINT32, 58).
Definition sfPaymentRemaining : Field := (STI_UINT32, 59).
Definition sfPaymentTotal : Field := (STI_UINT32, 60).
Definition sfLoanSequence : Field := (STI_UINT32, 61).
Definition sfCoverRateMinimum : Field := (STI_UINT32, 62).
Definition sfCoverRateLiquidation : Field := (STI_UINT32, 63).
Definition sfOverpaymentFee : Field := (STI_UINT32, 64).
Definition sfInterestRate : Field := (STI_UINT32, 65).
Definition sfLateInterestRate : Field := (STI_UINT32, 66).
Definition sfCloseInterestRate : Field := (STI_UINT32, 67).
Definition sfOverpaymentInterestRate : Field := (STI_UINT32, 68).
Definition sfIndexNext : Field := (STI_UINT64, 1).
Definition sfIndexPrevious : Field := (STI_UINT64, 2).
Definition sfBookNode : Field := (STI_UINT64, 3).
Definition sfOwnerNode : Field := (STI_UINT64, 4).
Definition sfBaseFee : Field := (STI_UINT64, 5).
Definition sfExchangeRate : Field := (STI_UINT64, 6).
Definition sfLowNode : Field := (STI_UINT64, 7).
Definition sfHighNode : Field := (STI_UINT64, 8).
Definition sfDestinationNode : Field := (STI_UINT64, 9).
Definition sfCookie : Field := (STI_UINT64, 10).
Definition sfServerVersion : Field := (STI_UINT64, 11).
Definition sfNFTokenOfferNode : Field := (STI_UINT64, 12).
Definition sfEmitBurden : Field := (STI_UINT64, 13).
Definition sfHookOn : Field := (STI_UINT64, 16).
Definition sfHookInstructionCount : Field := (STI_UINT64, 17).
Definition sfHookReturnCode : Field := (STI_UINT64, 18).
Definition sfReferenceCount : Field := (STI_UINT64, 19).
Definition sfXChainClaimID : Field := (STI_UINT64, 20).
Definition sfXChainAccountCreateCount : Field := (STI_UINT64, 21).
Definition sfXChainAccountClaimCount : Field := (STI_UINT64, 22).
Definition sfAssetPrice : Field := (STI_UINT64, 23).
Definition sfMaximumAmount : Field := (STI_UINT64, 24).
Definition sfOutstandingAmount : Field := (STI_UINT64, 25).
Definition sfMPTAmount : Field := (STI_UINT64, 26).
Definition sfIssuerNode : Field := (STI_UINT64, 27).
Definition sfSubjectNode : Field := (STI_UINT64, 28).
Definition sfLockedAmount : Field := (STI_UINT64, 29).
Definition sfVaultNode : Field := (STI_UINT64, 30).
Definition sfLoanBrokerNode : Field := (STI_UINT64, 31).
Definition sfEmailHash : Field := (STI_UINT128, 1).
Definition sfTakerPaysCurrency : Field := (STI_UINT160, 1).
Definition sfTakerPaysIssuer : Field := (STI_UINT160, 2).
Definition sfTakerGetsCurrency : Field := (STI_UINT160, 3).
Definition sfTakerGetsIssuer : Field := (STI_UINT160, 4).
Definition sfMPTokenIssuanceID : Field := (STI_UINT192, 1).
Definition sfShareMPTID : Field := (STI_UINT192, 2).
Definition sfLedgerHash : Field := (STI_UINT256, 1).
Definition sfParentHash : Field := (STI_UINT256, 2).
Definition sfTransactionHash : Field := (STI_UINT256, 3).
Definition sfAccountHash : Field := (STI_UINT256, 4).
Definition sfPreviousTxnID : Field := (STI_UINT256, 5).
Definition sfLedgerIndex : Field := (STI_UINT256, 6).
Definition sfWalletLocator : Field := (STI_UINT256, 7).
Definition sfRootIndex : Field := (STI_UINT256, 8).
Definition sfAccountTxnID : Field := (STI_UINT256, 9).
Definition sfNFTokenID : Field := (STI_UINT256, 10).
Definition sfEmitParentTxnID : Field := (STI_UINT256, 11).
Definition sfEmitNonce : Field := (STI_UINT256, 12).
Definition sfEmitHookHash : Field := (STI_UINT256, 13).
Definition sfAMMID : Field := (STI_UINT256, 14).
Definition sfBookDirectory : Field := (STI_UINT256, 16).
Definition sfInvoiceID : Field := (STI_UINT256, 17).
Definition sfNickname : Field := (STI_UINT256, 18).
Definition sfAmendment : Field := (STI_UINT256, 19).
Definition sfDigest : Field := (STI_UINT256, 21).
Definition sfChannel : Field := (STI_UINT256, 22).
Definition sfConsensusHash : Field := (STI_UINT256, 23).
Definition sfCheckID : Field := (STI_UINT256, 24).
Definition sfValidatedHash : Field := (STI_UINT256, 25).
Definition sfPreviousPageMin : Field := (STI_UINT256, 26).
Definition sfNextPageMin : Field := (STI_UINT256, 27).
Definition sfNFTokenBuyOffer : Field := (STI_UINT256, 28).
Definition sfNFTokenSellOffer : Field := (STI_UINT256, 29).
Definition sfHookStateKey : Field := (STI_UINT256, 30).
Definition sfHookHash : Field := (STI_UINT256, 31).
Definition sfHookNamespace : Field := (STI_UINT256, 32).
Definition sfHookSetTxnID : Field := (STI_UINT256, 33).
Definition sfDomainID : Field := (STI_UINT256, 34).
Definition sfVaultID : Field := (STI_UINT256, 35).
Definition sfParentBatchID : Field := (STI_UINT256, 36).
Definition sfLoanBrokerID : Field := (STI_UINT256, 37).
Definition sfLoanID : Field := (STI_UINT256, 38).
Definition sfNumber : Field := (STI_NUMBER, 1).
Definition sfAssetsAvailable : Field := (STI_NUMBER, 2).
Definition sfAssetsMaximum : Field := (STI_NUMBER, 3).
Definition sfAssetsTotal : Field := (STI_NUMBER, 4).
Definition sfLossUnrealized : Field := (STI_NUMBER, 5).
Definition sfDebtTotal : Field := (STI_NUMBER, 6).
Definition sfDebtMaximum : Field := (STI_NUMBER, 7).
Definition sfCoverAvailable : Field := (STI_NUMBER, 8).
Definition sfLoanOriginationFee : Field := (STI_NUMBER, 9).
Definition sfLoanServiceFee : Field := (STI_NUMBER, 10).
Definition sfLatePaymentFee : Field := (STI_NUMBER, 11).
Definition sfClosePaymentFee : Field := (STI_NUMBER, 12).
Definition sfPrincipalOutstanding : Field := (STI_NUMBER, 13).
Definition sfPrincipalRequested : Field := (STI_NUMBER, 14).
Definition sfTotalValueOutstanding : Field := (STI_NUMBER, 15).
Definition sfPeriodicPayment : Field := (STI_NUMBER, 16).
Definition sfManagementFeeOutstanding : Field := (STI_NUMBER, 17).
Definition sfLoanScale : Field := (STI_INT32, 1).
Definition sfAmount : Field := (STI_AMOUNT, 1).
Definition sfBalance : Field := (STI_AMOUNT, 2).
Definition sfLimitAmount : Field := (STI_AMOUNT, 3).
Definition sfTakerPays : Field := (STI_AMOUNT, 4).
Definition sfTakerGets : Field := (STI_AMOUNT, 5).
Definition sfLowLimit : Field := (STI_AMOUNT, 6).
Definition sfHighLimit : Field := (STI_AMOUNT, 7).
Definition sfFee : Field := (STI_AMOUNT, 8).
Definition sfSendMax : Field := (STI_AMOUNT, 9).
Definition sfDeliverMin : Field := (STI_AMOUNT, 10).
Definition sfAmount2 : Field := (STI_AMOUNT, 11).
Definition sfBidMin : Field := (STI_AMOUNT, 12).
Definition sfBidMax : Field := (STI_AMOUNT, 13).
Definition sfMinimumOffer : Field := (STI_AMOUNT, 16).
Definition sfRippleEscrow : Field := (STI_AMOUNT, 17).
Definition sfDeliveredAmount : Field := (STI_AMOUNT, 18).
Definition sfNFTokenBrokerFee : Field := (STI_AMOUNT, 19).
Definition sfBaseFeeDrops : Field := (STI_AMOUNT, 22).
Definition sfReserveBaseDrops : Field := (STI_AMOUNT, 23).
Definition sfReserveIncrementDrops : Field := (STI_AMOUNT, 24).
Definition sfLPTokenOut : Field := (STI_AMOUNT, 25).
Definition sfLPTokenIn : Field := (STI_AMOUNT, 26).
Definition sfEPrice : Field := (STI_AMOUNT, 27).
Definition sfPrice : Field := (STI_AMOUNT, 28).
Definition sfSignatureReward : Field := (STI_AMOUNT, 29).
Definition sfMinAccountCreateAmount : Field := (STI_AMOUNT, 30).
Definition sfLPTokenBalance : Field := (STI_AMOUNT, 31).
Definition sfPublicKey : Field := (STI_VL, 1).
Definition sfMessageKey : Field := (STI_VL, 2).
Definition sfSigningPubKey : Field := (STI_VL, 3).
Definition sfTxnSignature : Field := (STI_VL, 4).
Definition sfURI : Field := (STI_VL, 5).
Definition sfSignature : Field := (STI_VL, 6).
Definition sfDomain : Field := (STI_VL, 7).
Definition sfFundCode : Field := (STI_VL, 8).
Definition sfRemoveCode : Field := (STI_VL, 9).
Definition sfExpireCode : Field := (STI_VL, 10).
Definition sfCreateCode : Field := (STI_VL, 11).
Definition sfMemoType : Field := (STI_VL, 12).
Definition sfMemoData : Field := (STI_VL, 13).
Definition sfMemoFormat : Field := (STI_VL, 14).
Definition sfFulfillment : Field := (STI_VL, 16).
Definition sfCondition : Field := (STI_VL, 17).
Definition sfMasterSignature : Field := (STI_VL, 18).
Definition sfUNLModifyValidator : Field := (STI_VL, 19).
Definition sfValidatorToDisable : Field := (STI_VL, 20).
Definition sfValidatorToReEnable : Field := (STI_VL, 21).
Definition sfHookStateData : Field := (STI_VL, 22).
Definition sfHookReturnString : Field := (STI_VL, 23).
Definition sfHookParameterName : Field := (STI_VL, 24).
Definition sfHookParameterValue : Field := (STI_VL, 25).
Definition sfDIDDocument : Field := (STI_VL, 26).
Definition sfData : Field := (STI_VL, 27).
Definition sfAssetClass : Field := (STI_VL, 28).
Definition sfProvider : Field := (STI_VL, 29).
Definition sfMPTokenMetadata : Field := (STI_VL, 30).
Definition sfCredentialType : Field := (STI_VL, 31).
Definition sfAccount : Field := (STI_ACCOUNT, 1).
Definition sfOwner : Field := (STI_ACCOUNT, 2).
Definition sfDestination : Field := (STI_ACCOUNT, 3).
Definition sfIssuer : Field := (STI_ACCOUNT, 4).
Definition sfAuthorize : Field := (STI_ACCOUNT, 5).
Definition sfUnauthorize : Field := (STI_ACCOUNT, 6).
Definition sfRegularKey : Field := (STI_ACCOUNT, 8).
Definition sfNFTokenMinter : Field := (STI_ACCOUNT, 9).
Definition sfEmitCallback : Field := (STI_ACCOUNT, 10).
Definition sfHolder : Field := (STI_ACCOUNT, 11).
Definition sfDelegate : Field := (STI_ACCOUNT, 12).
Definition sfHookAccount : Field := (STI_ACCOUNT, 16).
Definition sfOtherChainSource : Field := (STI_ACCOUNT, 18).
Definition sfOtherChainDestination : Field := (STI_ACCOUNT, 19).
Definition sfAttestationSignerAccount : Field := (STI_ACCOUNT, 20).
Definition sfAttestationRewardAccount : Field := (STI_ACCOUNT, 21).
Definition sfLockingChainDoor : Field := (STI_ACCOUNT, 22).
Definition sfIssuingChainDoor : Field := (STI_ACCOUNT, 23).
Definition sfSubject : Field := (STI_ACCOUNT, 24).
Definition sfBorrower : Field := (STI_ACCOUNT, 25).
Definition sfCounterparty : Field := (STI_ACCOUNT, 26).
Definition sfIndexes : Field := (STI_VECTOR256, 1).
Definition sfHashes : Field := (STI_VECTOR256, 2).
Definition sfAmendments : Field := (STI_VECTOR256, 3).
Definition sfNFTokenOffers : Field := (STI_VECTOR256, 4).
Definition sfCredentialIDs : Field := (STI_VECTOR256, 5).
Definition sfPaths : Field := (STI_PATHSET, 1).
Definition sfBaseAsset : Field := (STI_CURRENCY, 1).
Definition sfQuoteAsset : Field := (STI_CURRENCY, 2).
Definition sfLockingChainIssue : Field := (STI_ISSUE, 1).
Definition sfIssuingChainIssue : Field := (STI_ISSUE, 2).
Definition sfAsset : Field := (STI_ISSUE, 3).
Definition sfAsset2 : Field := (STI_ISSUE, 4).
Definition sfXChainBridge : Field := (STI_XCHAIN_BRIDGE, 1).
Definition sfTransactionMetaData : Field := (STI_OBJECT, 2).
Definition sfCreatedNode : Field := (STI_OBJECT, 3).
Definition sfDeletedNode : Field := (STI_OBJECT, 4).
Definition sfModifiedNode : Field := (STI_OBJECT, 5).
Definition sfPreviousFields : Field := (STI_OBJECT, 6).
Definition sfFinalFields : Field := (STI_OBJECT, 7).
Definition sfNewFields : Field := (STI_OBJECT, 8).
Definition sfTemplateEntry : Field := (STI_OBJECT, 9).
Definition sfMemo : Field := (STI_OBJECT, 10).
Definition sfSignerEntry : Field := (STI_OBJECT, 11).
Definition sfNFToken : Field := (STI_OBJECT, 12).
Definition sfEmitDetails : Field := (STI_OBJECT, 13).
Definition sfHook : Field := (STI_OBJECT, 14).
Definition sfPermission : Field := (STI_OBJECT, 15).
Definition sfSigner : Field := (STI_OBJECT, 16).
Definition sfMajority : Field := (STI_OBJECT, 18).
Definition sfDisabledValidator : Field := (STI_OBJECT, 19).
Definition sfEmittedTxn : Field := (STI_OBJECT, 20).
Definition sfHookExecution : Field := (STI_OBJECT, 21).
Definition sfHookDefinition : Field := (STI_OBJECT, 22).
Definition sfHookParameter : Field := (STI_OBJECT, 23).
Definition sfHookGrant : Field := (STI_OBJECT, 24).
Definition sfVoteEntry : Field := (STI_OBJECT, 25).
Definition sfAuctionSlot : Field := (STI_OBJECT, 26).
Definition sfAuthAccount : Field := (STI_OBJECT, 27).
Definition sfXChainClaimProofSig : Field := (STI_OBJECT, 28).
Definition sfXChainCreateAccountProofSig : Field := (STI_OBJECT, 29).
Definition sfXChainClaimAttestationCollectionElement : Field := (STI_OBJECT, 30).
Definition sfXChainCreateAccountAttestationCollectionElement : Field := (STI_OBJECT, 31).
Definition sfPriceData : Field := (STI_OBJECT, 32).
Definition sfCredential : Field := (STI_OBJECT, 33).
Definition sfRawTransaction : Field := (STI_OBJECT, 34).
Definition sfBatchSigner : Field := (STI_OBJECT, 35).
Definition sfBook : Field := (STI_OBJECT, 36).
Definition sfCounterpartySignature : Field := (STI_OBJECT, 37).
Definition sfSigners : Field := (STI_ARRAY, 3).
Definition sfSignerEntries : Field := (STI_ARRAY, 4).
Definition sfTemplate : Field := (STI_ARRAY, 5).
Definition sfNecessary : Field := (STI_ARRAY, 6).
Definition sfSufficient : Field := (STI_ARRAY, 7).
Definition sfAffectedNodes : Field := (STI_ARRAY, 8).
Definition sfMemos : Field := (STI_ARRAY, 9).
Definition sfNFTokens : Field := (STI_ARRAY, 10).
Definition sfHooks : Field := (STI_ARRAY, 11).
Definition sfVoteSlots : Field := (STI_ARRAY, 12).
Definition sfAdditionalBooks : Field := (STI_ARRAY, 13).
Definition sfMajorities : Field := (STI_ARRAY, 16).
Definition sfDisabledValidators : Field := (STI_ARRAY, 17).
Definition sfHookExecutions : Field := (STI_ARRAY, 18).
Definition sfHookParameters : Field := (STI_ARRAY, 19).
Definition sfHookGrants : Field := (STI_ARRAY, 20).
Definition sfXChainClaimAttestations : Field := (STI_ARRAY, 21).
Definition sfXChainCreateAccountAttestations : Field := (STI_ARRAY, 22).
Definition sfPriceDataSeries : Field := (STI_ARRAY, 24).
Definition sfAuthAccounts : Field := (STI_ARRAY, 25).
Definition sfAuthorizeCredentials : Field := (STI_ARRAY, 26).
Definition sfUnauthorizeCredentials : Field := (STI_ARRAY, 27).
Definition sfAcceptedCredentials : Field := (STI_ARRAY, 28).
Definition sfPermissions : Field := (STI_ARRAY, 29).
Definition sfRawTransactions : Field := (STI_ARRAY, 30).
Definition sfBatchSigners : Field := (STI_ARRAY, 31).

End SF.

Import SF.

Definition sfields : list Field :=
  [
   sfCloseResolution; sfMethod; sfTransactionResult; sfScale; sfAssetScale; sfTickSize; sfUNLModifyDisabling;
   sfHookResult; sfWasLockingChainSend; sfWithdrawalPolicy; sfLedgerEntryType; sfTransactionType;
   sfSignerWeight; sfTransferFee; sfTradingFee; sfDiscountedFee; sfVersion; sfHookStateChangeCount;
   sfHookEmitCount; sfHookExecutionIndex; sfHookApiVersion; sfLedgerFixType; sfManagementFeeRate;
   sfNetworkID; sfFlags; sfSourceTag; sfSequence; sfPreviousTxnLgrSeq; sfLedgerSequence; sfCloseTime;
   sfParentCloseTime; sfSigningTime; sfExpiration; sfTransferRate; sfWalletSize; sfOwnerCount;
   sfDestinationTag; sfLastUpdateTime; sfHighQualityIn; sfHighQualityOut; sfLowQualityIn; sfLowQualityOut;
   sfQualityIn; sfQualityOut; sfStampEscrow; sfBondAmount; sfLoadFee; sfOfferSequence; sfFirstLedgerSequence;
   sfLastLedgerSequence; sfTransactionIndex; sfOperationLimit; sfReferenceFeeUnits; sfReserveBase;
   sfReserveIncrement; sfSetFlag; sfClearFlag; sfSignerQuorum; sfCancelAfter; sfFinishAfter; sfSignerListID;
   sfSettleDelay; sfTicketCount; sfTicketSequence; sfNFTokenTaxon; sfMintedNFTokens; sfBurnedNFTokens;
   sfHookStateCount; sfEmitGeneration; sfVoteWeight; sfFirstNFTokenSequence; sfOracleDocumentID;
   sfPermissionValue; sfMutableFlags; sfStartDate; sfPaymentInterval; sfGracePeriod; sfPreviousPaymentDate;
   sfNextPaymentDueDate; sfPaymentRemaining; sfPaymentTotal; sfLoanSequence; sfCoverRateMinimum;
   sfCoverRateLiquidation; sfOverpaymentFee; sfInterestRate; sfLateInterestRate; sfCloseInterestRate;
   sfOverpaymentInterestRate; sfIndexNext; sfIndexPrevious; sfBookNode; sfOwnerNode; sfBaseFee;
   sfExchangeRate; sfLowNode; sfHighNode; sfDestinationNode; sfCookie; sfServerVersion; sfNFTokenOfferNode;
   sfEmitBurden; sfHookOn; sfHookInstructionCount; sfHookReturnCode; sfReferenceCount; sfXChainClaimID;
   sfXChainAccountCreateCount; sfXChainAccountClaimCount; sfAssetPrice; sfMaximumAmount; sfOutstandingAmount;
   sfMPTAmount; sfIssuerNode; sfSubjectNode; sfLockedAmount; sfVaultNode; sfLoanBrokerNode; sfEmailHash;
   sfTakerPaysCurrency; sfTakerPaysIssuer; sfTakerGetsCurrency; sfTakerGetsIssuer; sfMPTokenIssuanceID;
   sfShareMPTID; sfLedgerHash; sfParentHash; sfTransactionHash; sfAccountHash; sfPreviousTxnID;
   sfLedgerIndex; sfWalletLocator; sfRootIndex; sfAccountTxnID; sfNFTokenID; sfEmitParentTxnID; sfEmitNonce;
   sfEmitHookHash; sfAMMID; sfBookDirectory; sfInvoiceID; sfNickname; sfAmendment; sfDigest; sfChannel;
   sfConsensusHash; sfCheckID; sfValidatedHash; sfPreviousPageMin; sfNextPageMin; sfNFTokenBuyOffer;
   sfNFTokenSellOffer; sfHookStateKey; sfHookHash; sfHookNamespace; sfHookSetTxnID; sfDomainID; sfVaultID;
   sfParentBatchID; sfLoanBrokerID; sfLoanID; sfNumber; sfAssetsAvailable; sfAssetsMaximum; sfAssetsTotal;
   sfLossUnrealized; sfDebtTotal; sfDebtMaximum; sfCoverAvailable; sfLoanOriginationFee; sfLoanServiceFee;
   sfLatePaymentFee; sfClosePaymentFee; sfPrincipalOutstanding; sfPrincipalRequested;
   sfTotalValueOutstanding; sfPeriodicPayment; sfManagementFeeOutstanding; sfLoanScale; sfAmount; sfBalance;
   sfLimitAmount; sfTakerPays; sfTakerGets; sfLowLimit; sfHighLimit; sfFee; sfSendMax; sfDeliverMin;
   sfAmount2; sfBidMin; sfBidMax; sfMinimumOffer; sfRippleEscrow; sfDeliveredAmount; sfNFTokenBrokerFee;
   sfBaseFeeDrops; sfReserveBaseDrops; sfReserveIncrementDrops; sfLPTokenOut; sfLPTokenIn; sfEPrice; sfPrice;
   sfSignatureReward; sfMinAccountCreateAmount; sfLPTokenBalance; sfPublicKey; sfMessageKey; sfSigningPubKey;
   sfTxnSignature; sfURI; sfSignature; sfDomain; sfFundCode; sfRemoveCode; sfExpireCode; sfCreateCode;
   sfMemoType; sfMemoData; sfMemoFormat; sfFulfillment; sfCondition; sfMasterSignature; sfUNLModifyValidator;
   sfValidatorToDisable; sfValidatorToReEnable; sfHookStateData; sfHookReturnString; sfHookParameterName;
   sfHookParameterValue; sfDIDDocument; sfData; sfAssetClass; sfProvider; sfMPTokenMetadata;
   sfCredentialType; sfAccount; sfOwner; sfDestination; sfIssuer; sfAuthorize; sfUnauthorize; sfRegularKey;
   sfNFTokenMinter; sfEmitCallback; sfHolder; sfDelegate; sfHookAccount; sfOtherChainSource;
   sfOtherChainDestination; sfAttestationSignerAccount; sfAttestationRewardAccount; sfLockingChainDoor;
   sfIssuingChainDoor; sfSubject; sfBorrower; sfCounterparty; sfIndexes; sfHashes; sfAmendments;
   sfNFTokenOffers; sfCredentialIDs; sfPaths; sfBaseAsset; sfQuoteAsset; sfLockingChainIssue;
   sfIssuingChainIssue; sfAsset; sfAsset2; sfXChainBridge; sfTransactionMetaData; sfCreatedNode;
   sfDeletedNode; sfModifiedNode; sfPreviousFields; sfFinalFields; sfNewFields; sfTemplateEntry; sfMemo;
   sfSignerEntry; sfNFToken; sfEmitDetails; sfHook; sfPermission; sfSigner; sfMajority; sfDisabledValidator;
   sfEmittedTxn; sfHookExecution; sfHookDefinition; sfHookParameter; sfHookGrant; sfVoteEntry; sfAuctionSlot;
   sfAuthAccount; sfXChainClaimProofSig; sfXChainCreateAccountProofSig;
   sfXChainClaimAttestationCollectionElement; sfXChainCreateAccountAttestationCollectionElement; sfPriceData;
   sfCredential; sfRawTransaction; sfBatchSigner; sfBook; sfCounterpartySignature; sfSigners;
   sfSignerEntries; sfTemplate; sfNecessary; sfSufficient; sfAffectedNodes; sfMemos; sfNFTokens; sfHooks;
   sfVoteSlots; sfAdditionalBooks; sfMajorities; sfDisabledValidators; sfHookExecutions; sfHookParameters;
   sfHookGrants; sfXChainClaimAttestations; sfXChainCreateAccountAttestations; sfPriceDataSeries;
   sfAuthAccounts; sfAuthorizeCredentials; sfUnauthorizeCredentials; sfAcceptedCredentials; sfPermissions;
   sfRawTransactions; sfBatchSigners].

(** The fields that a signature does not cover. *)
Definition not_signing : list Field :=
  [sfTxnSignature; sfSignature; sfMasterSignature; sfCounterpartySignature; sfSigners; sfBatchSigners].

(** ** Formats *)

Definition inner_formats : list (Field * SOTemplate) := [
  (sfSignerEntry, [
    (sfAccount, soeREQUIRED); (sfSignerWeight, soeREQUIRED); (sfWalletLocator, soeOPTIONAL)]);
  (sfSigner, [
    (sfAccount, soeREQUIRED); (sfSigningPubKey, soeREQUIRED); (sfTxnSignature, soeREQUIRED)]);
  (sfMajority, [
    (sfAmendment, soeREQUIRED); (sfCloseTime, soeREQUIRED)]);
  (sfDisabledValidator, [
    (sfPublicKey, soeREQUIRED); (sfFirstLedgerSequence, soeREQUIRED)]);
  (sfNFToken, [
    (sfNFTokenID, soeREQUIRED); (sfURI, soeOPTIONAL)]);
  (sfVoteEntry, [
    (sfAccount, soeREQUIRED); (sfTradingFee, soeDEFAULT); (sfVoteWeight, soeREQUIRED)]);
  (sfAuctionSlot, [
    (sfAccount, soeREQUIRED); (sfExpiration, soeREQUIRED); (sfDiscountedFee, soeDEFAULT);
    (sfPrice, soeREQUIRED); (sfAuthAccounts, soeOPTIONAL)]);
  (sfXChainClaimAttestationCollectionElement, [
    (sfAttestationSignerAccount, soeREQUIRED); (sfPublicKey, soeREQUIRED); (sfSignature, soeREQUIRED);
    (sfAmount, soeREQUIRED); (sfAccount, soeREQUIRED); (sfAttestationRewardAccount, soeREQUIRED);
    (sfWasLockingChainSend, soeREQUIRED); (sfXChainClaimID, soeREQUIRED); (sfDestination, soeOPTIONAL)]);
  (sfXChainCreateAccountAttestationCollectionElement, [
    (sfAttestationSignerAccount, soeREQUIRED); (sfPublicKey, soeREQUIRED); (sfSignature, soeREQUIRED);
    (sfAmount, soeREQUIRED); (sfAccount, soeREQUIRED); (sfAttestationRewardAccount, soeREQUIRED);
    (sfWasLockingChainSend, soeREQUIRED); (sfXChainAccountCreateCount, soeREQUIRED);
    (sfDestination, soeREQUIRED); (sfSignatureReward, soeREQUIRED)]);
  (sfXChainClaimProofSig, [
    (sfAttestationSignerAccount, soeREQUIRED); (sfPublicKey, soeREQUIRED); (sfAmount, soeREQUIRED);
    (sfAttestationRewardAccount, soeREQUIRED); (sfWasLockingChainSend, soeREQUIRED);
    (sfDestination, soeOPTIONAL)]);
  (sfXChainCreateAccountProofSig, [
    (sfAttestationSignerAccount, soeREQUIRED); (sfPublicKey, soeREQUIRED); (sfAmount, soeREQUIRED);
    (sfSignatureReward, soeREQUIRED); (sfAttestationRewardAccount, soeREQUIRED);
    (sfWasLockingChainSend, soeREQUIRED); (sfDestination, soeREQUIRED)]);
  (sfAuthAccount, [
    (sfAccount, soeREQUIRED)]);
  (sfPriceData, [
    (sfBaseAsset, soeREQUIRED); (sfQuoteAsset, soeREQUIRED); (sfAssetPrice, soeOPTIONAL);
    (sfScale, soeDEFAULT)]);
  (sfCredential, [
    (sfIssuer, soeREQUIRED); (sfCredentialType, soeREQUIRED)]);
  (sfPermission, [
    (sfPermissionValue, soeREQUIRED)]);
  (sfBatchSigner, [
    (sfAccount, soeREQUIRED); (sfSigningPubKey, soeOPTIONAL); (sfTxnSignature, soeOPTIONAL);
    (sfSigners, soeOPTIONAL)]);
  (sfBook, [
    (sfBookDirectory, soeREQUIRED); (sfBookNode, soeREQUIRED)]);
  (sfCounterpartySignature, [
    (sfSigningPubKey, soeOPTIONAL); (sfTxnSignature, soeOPTIONAL); (sfSigners, soeOPTIONAL)])].

Definition commonFields : SOTemplate := [
  (sfTransactionType, soeREQUIRED); (sfFlags, soeOPTIONAL); (sfSourceTag, soeOPTIONAL);
  (sfAccount, soeREQUIRED); (sfSequence, soeREQUIRED); (sfPreviousTxnID, soeOPTIONAL);
  (sfLastLedgerSequence, soeOPTIONAL); (sfAccountTxnID, soeOPTIONAL); (sfFee, soeREQUIRED);
  (sfOperationLimit, soeOPTIONAL); (sfMemos, soeOPTIONAL); (sfSigningPubKey, soeREQUIRED);
  (sfTicketSequence, soeOPTIONAL); (sfTxnSignature, soeOPTIONAL); (sfSigners, soeOPTIONAL);
  (sfNetworkID, soeOPTIONAL); (sfDelegate, soeOPTIONAL)].

(** What transactions of each type have beside the common fields. *)
Definition tx_fields : list (Z * SOTemplate) := [
  (0, [
    (sfDestination, soeREQUIRED); (sfAmount, soeREQUIRED); (sfSendMax, soeOPTIONAL); (sfPaths, soeDEFAULT);
    (sfInvoiceID, soeOPTIONAL); (sfDestinationTag, soeOPTIONAL); (sfDeliverMin, soeOPTIONAL);
    (sfCredentialIDs, soeOPTIONAL); (sfDomainID, soeOPTIONAL)]);
  (1, [
    (sfDestination, soeREQUIRED); (sfAmount, soeREQUIRED); (sfCondition, soeOPTIONAL);
    (sfCancelAfter, soeOPTIONAL); (sfFinishAfter, soeOPTIONAL); (sfDestinationTag, soeOPTIONAL)]);
  (2, [
    (sfOwner, soeREQUIRED); (sfOfferSequence, soeREQUIRED); (sfFulfillment, soeOPTIONAL);
    (sfCondition, soeOPTIONAL); (sfCredentialIDs, soeOPTIONAL)]);
  (3, [
    (sfEmailHash, soeOPTIONAL); (sfWalletLocator, soeOPTIONAL); (sfWalletSize, soeOPTIONAL);
    (sfMessageKey, soeOPTIONAL); (sfDomain, soeOPTIONAL); (sfTransferRate, soeOPTIONAL);
    (sfSetFlag, soeOPTIONAL); (sfClearFlag, soeOPTIONAL); (sfTickSize, soeOPTIONAL);
    (sfNFTokenMinter, soeOPTIONAL)]);
  (4, [
    (sfOwner, soeREQUIRED); (sfOfferSequence, soeREQUIRED)]);
  (5, [
    (sfRegularKey, soeOPTIONAL)]);
  (7, [
    (sfTakerPays, soeREQUIRED); (sfTakerGets, soeREQUIRED); (sfExpiration, soeOPTIONAL);
    (sfOfferSequence, soeOPTIONAL); (sfDomainID, soeOPTIONAL)]);
  (8, [
    (sfOfferSequence, soeREQUIRED)]);
  (10, [
    (sfTicketCount, soeREQUIRED)]);
  (12, [
    (sfSignerQuorum, soeREQUIRED); (sfSignerEntries, soeOPTIONAL)]);
  (13, [
    (sfDestination, soeREQUIRED); (sfAmount, soeREQUIRED); (sfSettleDelay, soeREQUIRED);
    (sfPublicKey, soeREQUIRED); (sfCancelAfter, soeOPTIONAL); (sfDestinationTag, soeOPTIONAL)]);
  (14, [
    (sfChannel, soeREQUIRED); (sfAmount, soeREQUIRED); (sfExpiration, soeOPTIONAL)]);
  (15, [
    (sfChannel, soeREQUIRED); (sfAmount, soeOPTIONAL); (sfBalance, soeOPTIONAL); (sfSignature, soeOPTIONAL);
    (sfPublicKey, soeOPTIONAL); (sfCredentialIDs, soeOPTIONAL)]);
  (16, [
    (sfDestination, soeREQUIRED); (sfSendMax, soeREQUIRED); (sfExpiration, soeOPTIONAL);
    (sfDestinationTag, soeOPTIONAL); (sfInvoiceID, soeOPTIONAL)]);
  (17, [
    (sfCheckID, soeREQUIRED); (sfAmount, soeOPTIONAL); (sfDeliverMin, soeOPTIONAL)]);
  (18, [
    (sfCheckID, soeREQUIRED)]);
  (19, [
    (sfAuthorize, soeOPTIONAL); (sfUnauthorize, soeOPTIONAL); (sfAuthorizeCredentials, soeOPTIONAL);
    (sfUnauthorizeCredentials, soeOPTIONAL)]);
  (20, [
    (sfLimitAmount, soeOPTIONAL); (sfQualityIn, soeOPTIONAL); (sfQualityOut, soeOPTIONAL)]);
  (21, [
    (sfDestination, soeREQUIRED); (sfDestinationTag, soeOPTIONAL); (sfCredentialIDs, soeOPTIONAL)]);
  (25, [
    (sfNFTokenTaxon, soeREQUIRED); (sfTransferFee, soeOPTIONAL); (sfIssuer, soeOPTIONAL);
    (sfURI, soeOPTIONAL); (sfAmount, soeOPTIONAL); (sfDestination, soeOPTIONAL); (sfExpiration, soeOPTIONAL)]);
  (26, [
    (sfNFTokenID, soeREQUIRED); (sfOwner, soeOPTIONAL)]);
  (27, [
    (sfNFTokenID, soeREQUIRED); (sfAmount, soeREQUIRED); (sfDestination, soeOPTIONAL);
    (sfOwner, soeOPTIONAL); (sfExpiration, soeOPTIONAL)]);
  (28, [
    (sfNFTokenOffers, soeREQUIRED)]);
  (29, [
    (sfNFTokenBuyOffer, soeOPTIONAL); (sfNFTokenSellOffer, soeOPTIONAL); (sfNFTokenBrokerFee, soeOPTIONAL)]);
  (30, [
    (sfAmount, soeREQUIRED); (sfHolder, soeOPTIONAL)]);
  (31, [
    (sfHolder, soeREQUIRED); (sfAsset, soeREQUIRED); (sfAsset2, soeREQUIRED); (sfAmount, soeOPTIONAL)]);
  (35, [
    (sfAmount, soeREQUIRED); (sfAmount2, soeREQUIRED); (sfTradingFee, soeREQUIRED)]);
  (36, [
    (sfAsset, soeREQUIRED); (sfAsset2, soeREQUIRED); (sfAmount, soeOPTIONAL); (sfAmount2, soeOPTIONAL);
    (sfEPrice, soeOPTIONAL); (sfLPTokenOut, soeOPTIONAL); (sfTradingFee, soeOPTIONAL)]);
  (37, [
    (sfAsset, soeREQUIRED); (sfAsset2, soeREQUIRED); (sfAmount, soeOPTIONAL); (sfAmount2, soeOPTIONAL);
    (sfEPrice, soeOPTIONAL); (sfLPTokenIn, soeOPTIONAL)]);
  (38, [
    (sfAsset, soeREQUIRED); (sfAsset2, soeREQUIRED); (sfTradingFee, soeREQUIRED)]);
  (39, [
    (sfAsset, soeREQUIRED); (sfAsset2, soeREQUIRED); (sfBidMin, soeOPTIONAL); (sfBidMax, soeOPTIONAL);
    (sfAuthAccounts, soeOPTIONAL)]);
  (40, [
    (sfAsset, soeREQUIRED); (sfAsset2, soeREQUIRED)]);
  (41, [
    (sfXChainBridge, soeREQUIRED); (sfSignatureReward, soeREQUIRED); (sfOtherChainSource, soeREQUIRED)]);
  (42, [
    (sfXChainBridge, soeREQUIRED); (sfXChainClaimID, soeREQUIRED); (sfAmount, soeREQUIRED);
    (sfOtherChainDestination, soeOPTIONAL)]);
  (43, [
    (sfXChainBridge, soeREQUIRED); (sfXChainClaimID, soeREQUIRED); (sfDestination, soeREQUIRED);
    (sfDestinationTag, soeOPTIONAL); (sfAmount, soeREQUIRED)]);
  (44, [
    (sfXChainBridge, soeREQUIRED); (sfDestination, soeREQUIRED); (sfAmount, soeREQUIRED);
    (sfSignatureReward, soeREQUIRED)]);
  (45, [
    (sfXChainBridge, soeREQUIRED); (sfAttestationSignerAccount, soeREQUIRED); (sfPublicKey, soeREQUIRED);
    (sfSignature, soeREQUIRED); (sfOtherChainSource, soeREQUIRED); (sfAmount, soeREQUIRED);
    (sfAttestationRewardAccount, soeREQUIRED); (sfWasLockingChainSend, soeREQUIRED);
    (sfXChainClaimID, soeREQUIRED); (sfDestination, soeOPTIONAL)]);
  (46, [
    (sfXChainBridge, soeREQUIRED); (sfAttestationSignerAccount, soeREQUIRED); (sfPublicKey, soeREQUIRED);
    (sfSignature, soeREQUIRED); (sfOtherChainSource, soeREQUIRED); (sfAmount, soeREQUIRED);
    (sfAttestationRewardAccount, soeREQUIRED); (sfWasLockingChainSend, soeREQUIRED);
    (sfXChainAccountCreateCount, soeREQUIRED); (sfDestination, soeREQUIRED); (sfSignatureReward, soeREQUIRED)]);
  (47, [
    (sfXChainBridge, soeREQUIRED); (sfSignatureReward, soeOPTIONAL); (sfMinAccountCreateAmount, soeOPTIONAL)]);
  (48, [
    (sfXChainBridge, soeREQUIRED); (sfSignatureReward, soeREQUIRED); (sfMinAccountCreateAmount, soeOPTIONAL)]);
  (49, [
    (sfDIDDocument, soeOPTIONAL); (sfURI, soeOPTIONAL); (sfData, soeOPTIONAL)]);
  (50, []);
  (51, [
    (sfOracleDocumentID, soeREQUIRED); (sfProvider, soeOPTIONAL); (sfURI, soeOPTIONAL);
    (sfAssetClass, soeOPTIONAL); (sfLastUpdateTime, soeREQUIRED); (sfPriceDataSeries, soeREQUIRED)]);
  (52, [
    (sfOracleDocumentID, soeREQUIRED)]);
  (53, [
    (sfLedgerFixType, soeREQUIRED); (sfOwner, soeOPTIONAL)]);
  (54, [
    (sfAssetScale, soeOPTIONAL); (sfTransferFee, soeOPTIONAL); (sfMaximumAmount, soeOPTIONAL);
    (sfMPTokenMetadata, soeOPTIONAL); (sfDomainID, soeOPTIONAL); (sfMutableFlags, soeOPTIONAL)]);
  (55, [
    (sfMPTokenIssuanceID, soeREQUIRED)]);
  (56, [
    (sfMPTokenIssuanceID, soeREQUIRED); (sfHolder, soeOPTIONAL); (sfDomainID, soeOPTIONAL);
    (sfMPTokenMetadata, soeOPTIONAL); (sfTransferFee, soeOPTIONAL); (sfMutableFlags, soeOPTIONAL)]);
  (57, [
    (sfMPTokenIssuanceID, soeREQUIRED); (sfHolder, soeOPTIONAL)]);
  (58, [
    (sfSubject, soeREQUIRED); (sfCredentialType, soeREQUIRED); (sfExpiration, soeOPTIONAL);
    (sfURI, soeOPTIONAL)]);
  (59, [
    (sfIssuer, soeREQUIRED); (sfCredentialType, soeREQUIRED)]);
  (60, [
    (sfSubject, soeOPTIONAL); (sfIssuer, soeOPTIONAL); (sfCredentialType, soeREQUIRED)]);
  (61, [
    (sfNFTokenID, soeREQUIRED); (sfOwner, soeOPTIONAL); (sfURI, soeOPTIONAL)]);
  (62, [
    (sfDomainID, soeOPTIONAL); (sfAcceptedCredentials, soeREQUIRED)]);
  (63, [
    (sfDomainID, soeREQUIRED)]);
  (64, [
    (sfAuthorize, soeREQUIRED); (sfPermissions, soeREQUIRED)]);
  (65, [
    (sfAsset, soeREQUIRED); (sfAssetsMaximum, soeOPTIONAL); (sfMPTokenMetadata, soeOPTIONAL);
    (sfDomainID, soeOPTIONAL); (sfWithdrawalPolicy, soeOPTIONAL); (sfData, soeOPTIONAL);
    (sfScale, soeOPTIONAL)]);
  (66, [
    (sfVaultID, soeREQUIRED); (sfAssetsMaximum, soeOPTIONAL); (sfDomainID, soeOPTIONAL); (sfData, soeOPTIONAL)]);
  (67, [
    (sfVaultID, soeREQUIRED)]);
  (68, [
    (sfVaultID, soeREQUIRED); (sfAmount, soeREQUIRED)]);
  (69, [
    (sfVaultID, soeREQUIRED); (sfAmount, soeREQUIRED); (sfDestination, soeOPTIONAL);
    (sfDestinationTag, soeOPTIONAL)]);
  (70, [
    (sfVaultID, soeREQUIRED); (sfHolder, soeREQUIRED); (sfAmount, soeOPTIONAL)]);
  (71, [
    (sfRawTransactions, soeREQUIRED); (sfBatchSigners, soeOPTIONAL)]);
  (74, [
    (sfVaultID, soeREQUIRED); (sfLoanBrokerID, soeOPTIONAL); (sfData, soeOPTIONAL);
    (sfManagementFeeRate, soeOPTIONAL); (sfDebtMaximum, soeOPTIONAL); (sfCoverRateMinimum, soeOPTIONAL);
    (sfCoverRateLiquidation, soeOPTIONAL)]);
  (75, [
    (sfLoanBrokerID, soeREQUIRED)]);
  (76, [
    (sfLoanBrokerID, soeREQUIRED); (sfAmount, soeREQUIRED)]);
  (77, [
    (sfLoanBrokerID, soeREQUIRED); (sfAmount, soeREQUIRED); (sfDestination, soeOPTIONAL);
    (sfDestinationTag, soeOPTIONAL)]);
  (78, [
    (sfLoanBrokerID, soeOPTIONAL); (sfAmount, soeOPTIONAL)]);
  (80, [
    (sfLoanBrokerID, soeREQUIRED); (sfData, soeOPTIONAL); (sfCounterparty, soeOPTIONAL);
    (sfCounterpartySignature, soeOPTIONAL); (sfLoanOriginationFee, soeOPTIONAL);
    (sfLoanServiceFee, soeOPTIONAL); (sfLatePaymentFee, soeOPTIONAL); (sfClosePaymentFee, soeOPTIONAL);
    (sfOverpaymentFee, soeOPTIONAL); (sfInterestRate, soeOPTIONAL); (sfLateInterestRate, soeOPTIONAL);
    (sfCloseInterestRate, soeOPTIONAL); (sfOverpaymentInterestRate, soeOPTIONAL);
    (sfPrincipalRequested, soeREQUIRED); (sfPaymentTotal, soeOPTIONAL); (sfPaymentInterval, soeOPTIONAL);
    (sfGracePeriod, soeOPTIONAL)]);
  (81, [
    (sfLoanID, soeREQUIRED)]);
  (82, [
    (sfLoanID, soeREQUIRED)]);
  (84, [
    (sfLoanID, soeREQUIRED); (sfAmount, soeREQUIRED)]);
  (100, [
    (sfLedgerSequence, soeREQUIRED); (sfAmendment, soeREQUIRED)]);
  (101, [
    (sfLedgerSequence, soeOPTIONAL); (sfBaseFee, soeOPTIONAL); (sfReferenceFeeUnits, soeOPTIONAL);
    (sfReserveBase, soeOPTIONAL); (sfReserveIncrement, soeOPTIONAL); (sfBaseFeeDrops, soeOPTIONAL);
    (sfReserveBaseDrops, soeOPTIONAL); (sfReserveIncrementDrops, soeOPTIONAL)]);
  (102, [
    (sfUNLModifyDisabling, soeREQUIRED); (sfLedgerSequence, soeREQUIRED); (sfUNLModifyValidator, soeREQUIRED)])].
