(* ===== verification/Wire.v ===== *)
(** * The wire format

    How fields, objects and transactions are written as bytes and read back
    ([src/libxrpl/protocol/{Serializer,STAmount,STNumber,STIssue,STAccount,STBlob,STInteger,
    STVector256,STPathSet,STXChainBridge,STCurrency,STVar,STObject,STArray,STTx}.cpp] and
    their headers).  A [Serializer] is the list of its bytes, a [SerialIter] the list of the
    bytes that are left. *)

From S2P Require Import Prelude.
From S2P Require Import XrplNumber.
From S2P Require Import Amounts.
From S2P Require Import LedgerState.
From S2P Require Import Bytes.
From S2P Require Import WireFields.
From stdpp Require Import list.

Local Open Scope Z_scope.
Local Open Scope xrpl_scope.

(** ** Serializer *)

Definition add8 (x : Z) : list Z := be_bytes 1 x.
Definition add16 (x : Z) : list Z := be_bytes 2 x.
Definition add32 (x : Z) : list Z := be_bytes 4 x.
Definition add64 (x : Z) : list Z := be_bytes 8 x.

(** [n] bytes of a [base_uint]. *)
Definition addBitString (n : nat) (x : Z) : list Z := be_bytes n x.

Definition addEncoded (length : Z) : result (list Z) :=
  if length <=? 192 then Ok [length]
  else if length <=? 12480 then
    let length := length - 193 in
    Ok [193 + Z.shiftr length 8; Z.land length 0xff]
  else if length <=? 918744 then
    let length := length - 12481 in
    Ok [241 + Z.shiftr length 16; Z.land (Z.shiftr length 8) 0xff; Z.land length 0xff]
  else Throw overflow_error.

Definition addVL (b : list Z) : result (list Z) :=
  let* n := addEncoded (zlen b) in Ok (n ++ b).

Definition addFieldID (f : Field) : list Z :=
  let '(type, name) := f in
  if type <? 16 then
    if name <? 16 then [Z.lor (Z.shiftl type 4) name] else [Z.shiftl type 4; name]
  else if name <? 16 then [name; type]
  else [0; type; name].

(** ** SerialIter *)

Definition getRaw (n : nat) (it : list Z) : result (list Z * list Z) :=
  if (length it <? n)%nat then Throw runtime_error else Ok (take n it, drop n it).

(** A number of [n] bytes, or a [base_uint] of that width. *)
Definition get_number (n : nat) (it : list Z) : result (Z * list Z) :=
  let* (b, it) := getRaw n it in Ok (be_number b, it).

Definition get8 : list Z -> result (Z * list Z) := get_number 1.
Definition get16 : list Z -> result (Z * list Z) := get_number 2.
Definition get32 : list Z -> result (Z * list Z) := get_number 4.
Definition get64 : list Z -> result (Z * list Z) := get_number 8.
Definition get160 : list Z -> result (Z * list Z) := get_number 20.
Definition get192 : list Z -> result (Z * list Z) := get_number 24.

Definition geti32 (it : list Z) : result (Z * list Z) := let* (n, it) := get32 it in Ok (i32 n, it).
Definition geti64 (it : list Z) : result (Z * list Z) := let* (n, it) := get64 it in Ok (i64 n, it).

Definition getFieldID (it : list Z) : result (Field * list Z) :=
  let* (b, it) := get8 it in
  let name := Z.land b 15 in
  let type := Z.shiftr b 4 in
  let* (type, it) :=
    if type =? 0 then
      let* (type, it) := get8 it in
      if type <? 16 then Throw runtime_error else Ok (type, it)
    else Ok (type, it) in
  let* (name, it) :=
    if name =? 0 then
      let* (name, it) := get8 it in
      if name <? 16 then Throw runtime_error else Ok (name, it)
    else Ok (name, it) in
  Ok ((type, name), it).

Definition decodeLengthLength (b1 : Z) : result Z :=
  if b1 <? 0 then Throw overflow_error
  else if b1 <=? 192 then Ok 1
  else if b1 <=? 240 then Ok 2
  else if b1 <=? 254 then Ok 3
  else Throw overflow_error.

Definition decodeVLLength (b1 : Z) : result Z :=
  if (b1 <? 0) || (254 <? b1) then Throw overflow_error else Ok b1.

Definition decodeVLLength2 (b1 b2 : Z) : result Z :=
  if (b1 <? 193) || (240 <? b1) then Throw overflow_error else Ok (193 + (b1 - 193) * 256 + b2).

Definition decodeVLLength3 (b1 b2 b3 : Z) : result Z :=
  if (b1 <? 241) || (254 <? b1) then Throw overflow_error else Ok (12481 + (b1 - 241) * 65536 + b2 * 256 + b3).

Definition getVLDataLength (it : list Z) : result (Z * list Z) :=
  let* (b1, it) := get8 it in
  let* lenLen := decodeLengthLength b1 in
  if lenLen =? 1 then
    let* n := decodeVLLength b1 in Ok (n, it)
  else if lenLen =? 2 then
    let* (b2, it) := get8 it in
    let* n := decodeVLLength2 b1 b2 in Ok (n, it)
  else
    let* (b2, it) := get8 it in
    let* (b3, it) := get8 it in
    let* n := decodeVLLength3 b1 b2 b3 in Ok (n, it).

Definition getVL (it : list Z) : result (list Z * list Z) :=
  let* (n, it) := getVLDataLength it in getRaw (Z.to_nat n) it.

(** ** Amounts *)

Definition cIssuedCurrency : Z := 0x8000000000000000.
Definition cPositive : Z := 0x4000000000000000.
Definition cMPToken : Z := 0x2000000000000000.
Definition cValueMask : Z := 0x9FFFFFFFFFFFFFFF.

Definition STAmount_add (a : STAmount) : list Z :=
  match mAsset a with
  | AMPT id =>
      let u8 := Z.shiftr cMPToken 56 in
      let u8 := if mIsNegative a then u8 else Z.lor u8 (Z.shiftr cPositive 56) in
      add8 u8 ++ add64 (mValue a) ++ addBitString 24 id
  | AIssue issue =>
      if native a then
        if mIsNegative a then add64 (mValue a) else add64 (Z.lor (mValue a) cPositive)
      else
        (if st_is_zero a then add64 cIssuedCurrency
         else if mIsNegative a then add64 (Z.lor (mValue a) (u64 (Z.shiftl (mOffset a + 512 + 97) 54)))
         else add64 (Z.lor (mValue a) (u64 (Z.shiftl (mOffset a + 512 + 256 + 97) 54)))) ++
        addBitString 20 (currency issue) ++ addBitString 20 (account issue)
  end.

Definition STAmount_parse (cfg : Settings) (it : list Z) : result (STAmount * list Z) :=
  let* (value, it) := get64 it in
  if Z.land value cIssuedCurrency =? 0 then
    if negb (Z.land value cMPToken =? 0) then
      let* (b, it) := get8 it in
      let* (id, it) := get192 it in
      Ok (mkSTAmount (AMPT id) (Z.lor (u64 (Z.shiftl value 8)) b) 0 (Z.land value cPositive =? 0), it)
    else if negb (Z.land value cPositive =? 0) then
      Ok (mkSTAmount (AIssue xrpIssue) (Z.land value cValueMask) 0 false, it)
    else if value =? 0 then Throw runtime_error
    else Ok (mkSTAmount (AIssue xrpIssue) (Z.land value cValueMask) 0 true, it)
  else
    let* (c, it) := get160 it in
    if isXRP_currency c then Throw runtime_error
    else
      let* (acct, it) := get160 it in
      if acct =? 0 then Throw runtime_error
      else
        let issue := AIssue (mkIssue c acct) in
        let offset := Z.shiftr value 54 in
        let value := Z.land value 0x3FFFFFFFFFFFFF in
        if negb (value =? 0) then
          let isNegative := Z.land offset 256 =? 0 in
          let offset := Z.land offset 255 - 97 in
          if (value <? cMinValue) || (cMaxValue <? value) || (offset <? cMinOffset) || (cMaxOffset <? offset)
          then Throw runtime_error
          else
            let* a := canonicalize cfg (mkSTAmount issue value offset isNegative) in Ok (a, it)
        else if negb (offset =? 512) then Throw runtime_error
        else
          let* a := canonicalize cfg (mkSTAmount issue 0 0 false) in Ok (a, it).

(** ** Numbers and assets *)

Definition STNumber_add (x : Number) : list Z := add64 (mantissa_ x) ++ add32 (exponent_ x).

Definition STNumber_parse (md : rounding_mode) (it : list Z) : result (Number * list Z) :=
  let* (m, it) := geti64 it in
  let* (e, it) := geti32 it in
  let* x := make md m e in Ok (x, it).

(** Four bytes that are copied to or from an integer of the host. *)
Definition host_bytes (little_endian : bool) (b : list Z) : list Z := if little_endian then rev b else b.

Definition STIssue_add (little_endian : bool) (a : Asset) : list Z :=
  match a with
  | AIssue i =>
      addBitString 20 (currency i) ++ (if isXRP_currency (currency i) then [] else addBitString 20 (account i))
  | AMPT id =>
      let sequence := be_number (host_bytes little_endian (take 4 (addBitString 24 id))) in
      addBitString 20 (mptIssuer id) ++ addBitString 20 noAccount ++ add32 sequence
  end.

Definition STIssue_parse (little_endian : bool) (it : list Z) : result (Asset * list Z) :=
  let* (currencyOrAccount, it) := get160 it in
  if isXRP_currency currencyOrAccount then Ok (AIssue xrpIssue, it)
  else
    let* (acct, it) := get160 it in
    if acct =? noAccount then
      let* (sequence, it) := get32 it in
      let mptID := host_bytes little_endian (be_bytes 4 sequence) ++ addBitString 20 currencyOrAccount in
      Ok (AMPT (be_number mptID), it)
    else if negb (eqb (isXRP_currency currencyOrAccount) (acct =? 0)) then Throw runtime_error
    else Ok (AIssue (mkIssue currencyOrAccount acct), it).

(** ** Accounts *)

(** A default account has no value. *)
Definition STAccount_add (a : option Z) : result (list Z) :=
  addVL (match a with None => [] | Some id => addBitString 20 id end).

Definition STAccount_parse (it : list Z) : result (option Z * list Z) :=
  let* (b, it) := getVL it in
  if bool_decide (b = []) then Ok (None, it)
  else if negb (zlen b =? 20) then Throw runtime_error
  else Ok (Some (be_number b), it).

(** ** Lists of hashes *)

Definition STVector256_add (l : list Z) : result (list Z) :=
  let* n := addEncoded (Z.of_nat (length l) * 32) in Ok (n ++ concat (addBitString 32 <$> l)).

Fixpoint split_hashes (cnt : nat) (b : list Z) : list Z :=
  match cnt with
  | O => []
  | S cnt => be_number (take 32 b) :: split_hashes cnt (drop 32 b)
  end.

Definition STVector256_parse (it : list Z) : result (list Z * list Z) :=
  let* (b, it) := getVL it in
  if negb (zlen b mod 32 =? 0) then Throw runtime_error
  else Ok (split_hashes (Z.to_nat (zlen b / 32)) b, it).

(** ** Paths *)

Definition typeNone : Z := 0x00.
Definition typeAccount : Z := 0x01.
Definition typeCurrency : Z := 0x10.
Definition typeIssuer : Z := 0x20.
Definition typeBoundary : Z := 0xFF.
Definition typeAll : Z := Z.lor typeAccount (Z.lor typeCurrency typeIssuer).

Record STPathElement : Set := mkPathElement {
  mType : Z;
  mAccountID : Z;
  mCurrencyID : Z;
  mIssuerID : Z }.

(** [STPathElement(account, currency, issuer, forceCurrency)] *)
Definition path_element (account currency issuer : Z) (forceCurrency : bool) : STPathElement :=
  let t := if account =? 0 then typeNone else typeAccount in
  let t := if forceCurrency || negb (isXRP_currency currency) then Z.lor t typeCurrency else t in
  let t := if issuer =? 0 then t else Z.lor t typeIssuer in
  mkPathElement t account currency issuer.

Definition has_type (t flag : Z) : bool := negb (Z.land t flag =? 0).

Definition element_add (e : STPathElement) : list Z :=
  add8 (mType e) ++
  (if has_type (mType e) typeAccount then addBitString 20 (mAccountID e) else []) ++
  (if has_type (mType e) typeCurrency then addBitString 20 (mCurrencyID e) else []) ++
  (if has_type (mType e) typeIssuer then addBitString 20 (mIssuerID e) else []).

Definition path_add (p : list STPathElement) : list Z := concat (element_add <$> p).

(** Paths are separated by [typeBoundary]. *)
Fixpoint paths_add (ps : list (list STPathElement)) : list Z :=
  match ps with
  | [] => []
  | [p] => path_add p
  | p :: ps => path_add p ++ add8 typeBoundary ++ paths_add ps
  end.

Definition STPathSet_add (ps : list (list STPathElement)) : list Z := paths_add ps ++ add8 typeNone.

Definition get_if (b : bool) (it : list Z) : result (Z * list Z) := if b then get160 it else Ok (0, it).

(** Each round reads at least one byte. *)
Fixpoint paths_loop (fuel : nat) (path : list STPathElement) (it : list Z)
  : result (list (list STPathElement) * list Z) :=
  match fuel with
  | O => Throw runtime_error
  | S fuel =>
      let* (iType, it) := get8 it in
      if (iType =? typeNone) || (iType =? typeBoundary) then
        if bool_decide (path = []) then Throw runtime_error
        else if iType =? typeNone then Ok ([path], it)
        else
          let* (ps, it) := paths_loop fuel [] it in Ok (path :: ps, it)
      else if negb (Z.land iType (Z.lnot typeAll) =? 0) then Throw runtime_error
      else
        let hasCurrency := has_type iType typeCurrency in
        let* (account, it) := get_if (has_type iType typeAccount) it in
        let* (currency, it) := get_if hasCurrency it in
        let* (issuer, it) := get_if (has_type iType typeIssuer) it in
        paths_loop fuel (path ++ [path_element account currency issuer hasCurrency]) it
  end.

Definition STPathSet_parse (it : list Z) : result (list (list STPathElement) * list Z) :=
  paths_loop (S (length it)) [] it.

(** ** Values without parts *)

Inductive Leaf : Set :=
| STUInt8 (n : Z)
| STUInt16 (n : Z)
| STUInt32 (n : Z)
| STUInt64 (n : Z)
| STUInt128 (n : Z)
| STUInt160 (n : Z)
| STUInt192 (n : Z)
| STUInt256 (n : Z)
| STInt32 (n : Z)
| l_amount (a : STAmount)
| l_number (x : Number)
| STBlob (b : list Z)
| STAccount (a : option Z)
| STVector256 (l : list Z)
| STPathSet (ps : list (list STPathElement))
| STIssue (a : Asset)
| STXChainBridge (lockingChainDoor : option Z) (lockingChainIssue : Asset) (issuingChainDoor : option Z) (issuingChainIssue : Asset)
| STCurrency (c : Z).

Definition getSType (l : Leaf) : Z :=
  match l with
  | STUInt8 _ => STI_UINT8
  | STUInt16 _ => STI_UINT16
  | STUInt32 _ => STI_UINT32
  | STUInt64 _ => STI_UINT64
  | STUInt128 _ => STI_UINT128
  | STUInt160 _ => STI_UINT160
  | STUInt192 _ => STI_UINT192
  | STUInt256 _ => STI_UINT256
  | STInt32 _ => STI_INT32
  | l_amount _ => STI_AMOUNT
  | l_number _ => STI_NUMBER
  | STBlob _ => STI_VL
  | STAccount _ => STI_ACCOUNT
  | STVector256 _ => STI_VECTOR256
  | STPathSet _ => STI_PATHSET
  | STIssue _ => STI_ISSUE
  | STXChainBridge _ _ _ _ => STI_XCHAIN_BRIDGE
  | STCurrency _ => STI_CURRENCY
  end.

Definition issue_default (a : Asset) : bool := match a with AIssue i => issue_eqb i xrpIssue | AMPT _ => false end.

Definition leaf_default (l : Leaf) : bool :=
  match l with
  | STUInt8 n | STUInt16 n | STUInt32 n | STUInt64 n | STUInt128 n | STUInt160 n | STUInt192 n | STUInt256 n | STInt32 n => n =? 0
  | l_amount a => (mValue a =? 0) && native a
  | l_number x => number_eqb x zero
  | STBlob b => bool_decide (b = [])
  | STAccount a => bool_decide (a = None)
  | STVector256 l => bool_decide (l = [])
  | STPathSet ps => match ps with [] => true | _ => false end
  | STIssue a => issue_default a
  | STXChainBridge d i d' i' => bool_decide (d = None) && issue_default i && bool_decide (d' = None) && issue_default i'
  | STCurrency c => isXRP_currency c
  end.

Section Wire.
Context (cfg : Settings) (little_endian : bool).

Definition leaf_add (l : Leaf) : result (list Z) :=
  match l with
  | STUInt8 n => Ok (add8 n)
  | STUInt16 n => Ok (add16 n)
  | STUInt32 n => Ok (add32 n)
  | STUInt64 n => Ok (add64 n)
  | STUInt128 n => Ok (addBitString 16 n)
  | STUInt160 n => Ok (addBitString 20 n)
  | STUInt192 n => Ok (addBitString 24 n)
  | STUInt256 n => Ok (addBitString 32 n)
  | STInt32 n => Ok (add32 n)
  | l_amount a => Ok (STAmount_add a)
  | l_number x => Ok (STNumber_add x)
  | STBlob b => addVL b
  | STAccount a => STAccount_add a
  | STVector256 l => STVector256_add l
  | STPathSet ps => Ok (STPathSet_add ps)
  | STIssue a => Ok (STIssue_add little_endian a)
  | STXChainBridge d i d' i' =>
      let* b := STAccount_add d in
      let* b' := STAccount_add d' in
      Ok (b ++ STIssue_add little_endian i ++ b' ++ STIssue_add little_endian i')
  | STCurrency c => Ok (addBitString 20 c)
  end.

Definition on_fst {A B} (k : A -> B) (m : result (A * list Z)) : result (B * list Z) := let* (a, it) := m in Ok (k a, it).

(** The value of a field of type [id]: the cases of [STVar::constructST] but for objects
    and arrays. *)
Definition leaf_parse (id : Z) (it : list Z) : result (Leaf * list Z) :=
  if id =? STI_UINT8 then on_fst STUInt8 (get8 it)
  else if id =? STI_UINT16 then on_fst STUInt16 (get16 it)
  else if id =? STI_UINT32 then on_fst STUInt32 (get32 it)
  else if id =? STI_UINT64 then on_fst STUInt64 (get64 it)
  else if id =? STI_AMOUNT then on_fst l_amount (STAmount_parse cfg it)
  else if id =? STI_NUMBER then on_fst l_number (STNumber_parse (round_mode cfg) it)
  else if id =? STI_UINT128 then on_fst STUInt128 (get_number 16 it)
  else if id =? STI_UINT160 then on_fst STUInt160 (get_number 20 it)
  else if id =? STI_UINT192 then on_fst STUInt192 (get_number 24 it)
  else if id =? STI_UINT256 then on_fst STUInt256 (get_number 32 it)
  else if id =? STI_INT32 then on_fst (fun n => STInt32 (i32 n)) (get32 it)
  else if id =? STI_VECTOR256 then on_fst STVector256 (STVector256_parse it)
  else if id =? STI_VL then on_fst STBlob (getVL it)
  else if id =? STI_ACCOUNT then on_fst STAccount (STAccount_parse it)
  else if id =? STI_PATHSET then on_fst STPathSet (STPathSet_parse it)
  else if id =? STI_ISSUE then on_fst STIssue (STIssue_parse little_endian it)
  else if id =? STI_XCHAIN_BRIDGE then
    let* (d, it) := STAccount_parse it in
    let* (i, it) := STIssue_parse little_endian it in
    let* (d', it) := STAccount_parse it in
    let* (i', it) := STIssue_parse little_endian it in
    Ok (STXChainBridge d i d' i', it)
  else if id =? STI_CURRENCY then on_fst STCurrency (get160 it)
  else Throw runtime_error.

(** ** Objects *)

(** A member of an object: absent, a value, an object, or an array of named objects. *)
Inductive STVar : Set :=
| v_absent
| v_leaf (l : Leaf)
| v_object (fs : list (Field * STVar))
| v_array (es : list (Field * list (Field * STVar))).

Definition STObject : Set := list (Field * STVar).

Definition present (v : STVar) : bool := match v with v_absent => false | _ => true end.

Definition isDefault (v : STVar) : bool :=
  match v with
  | v_absent => true
  | v_leaf l => leaf_default l
  | v_object fs => bool_decide (length fs = 0%nat)
  | v_array es => bool_decide (length es = 0%nat)
  end.

Definition field_code (f : Field) : Z := Z.lor (Z.shiftl f.1 16) f.2.

Definition shouldInclude (withSigningField : bool) (f : Field) : bool :=
  (f.2 <? 256) && (withSigningField || negb (bool_decide (f ∈ not_signing))).

Fixpoint insert_field {A} (x : Field * A) (l : list (Field * A)) : list (Field * A) :=
  match l with
  | [] => [x]
  | y :: l' => if field_code x.1 <=? field_code y.1 then x :: l else y :: insert_field x l'
  end.

(** The order of the codes of fields. *)
Definition sort_fields {A} (l : list (Field * A)) : list (Field * A) := foldr insert_field [] l.

Definition end_of_object : Field := (STI_OBJECT, 1).
Definition end_of_array : Field := (STI_ARRAY, 1).

(** The marker behind an object or an array. *)
Definition terminator (v : STVar) : list Z :=
  match v with
  | v_object _ => addFieldID end_of_object
  | v_array _ => addFieldID end_of_array
  | _ => []
  end.

(** [STBase::add] of each kind of member; objects inside are written whole. *)
Fixpoint var_add (v : STVar) : result (list Z) :=
  match v with
  | v_absent => Ok []
  | v_leaf l => leaf_add l
  | v_object fs =>
      let* parts := (fix parts fs : result (list (Field * list Z)) :=
        match fs with
        | [] => Ok []
        | (f, w) :: fs =>
            if present w && shouldInclude true f then
              let* b := var_add w in
              let* ps := parts fs in
              Ok ((f, addFieldID f ++ b ++ terminator w) :: ps)
            else parts fs
        end) fs in
      Ok (concat (snd <$> sort_fields parts))
  | v_array es =>
      (fix elements es : result (list Z) :=
        match es with
        | [] => Ok []
        | (f, fs) :: es =>
            let* parts := (fix parts fs : result (list (Field * list Z)) :=
              match fs with
              | [] => Ok []
              | (f, w) :: fs =>
                  if present w && shouldInclude true f then
                    let* b := var_add w in
                    let* ps := parts fs in
                    Ok ((f, addFieldID f ++ b ++ terminator w) :: ps)
                  else parts fs
              end) fs in
            let* rest := elements es in
            Ok (addFieldID f ++ concat (snd <$> sort_fields parts) ++ addFieldID end_of_object ++ rest)
        end) es
  end.

Fixpoint object_parts (whichFields : bool) (fs : STObject) : result (list (Field * list Z)) :=
  match fs with
  | [] => Ok []
  | (f, w) :: fs =>
      if present w && shouldInclude whichFields f then
        let* b := var_add w in
        let* ps := object_parts whichFields fs in
        Ok ((f, addFieldID f ++ b ++ terminator w) :: ps)
      else object_parts whichFields fs
  end.

(** [STObject::add(s, whichFields)] *)
Definition object_add (whichFields : bool) (fs : STObject) : result (list Z) :=
  let* parts := object_parts whichFields fs in Ok (concat (snd <$> sort_fields parts)).

(** ** Templates *)

Fixpoint find_field (f : Field) (fs : STObject) : option (STVar * STObject) :=
  match fs with
  | [] => None
  | (g, v) :: fs =>
      if bool_decide (g = f) then Some (v, fs)
      else match find_field f fs with
      | Some (w, rest) => Some (w, (g, v) :: rest)
      | None => None
      end
  end.

Definition isDiscardable (f : Field) : bool := 256 <? f.2.

Fixpoint applyTemplate (type : SOTemplate) (fs : STObject) : result STObject :=
  match type with
  | [] => if forallb (fun x => isDiscardable x.1) fs then Ok [] else Throw runtime_error
  | (f, style) :: type =>
      match find_field f fs with
      | Some (v, fs) =>
          match style with
          | soeDEFAULT => if isDefault v then Throw runtime_error
                          else let* r := applyTemplate type fs in Ok ((f, v) :: r)
          | _ => let* r := applyTemplate type fs in Ok ((f, v) :: r)
          end
      | None =>
          match style with
          | soeREQUIRED => Throw runtime_error
          | _ => let* r := applyTemplate type fs in Ok ((f, v_absent) :: r)
          end
      end
  end.

Definition format_of {A} `{EqDecision A} (k : A) (formats : list (A * SOTemplate)) : option SOTemplate :=
  snd <$> find (fun x => bool_decide (x.1 = k)) formats.

Definition applyTemplateFromSField (f : Field) (fs : STObject) : result STObject :=
  match format_of f inner_formats with Some type => applyTemplate type fs | None => Ok fs end.

(** ** Reading objects *)

Definition known (f : Field) : bool := bool_decide (f ∈ sfields).

Fixpoint adjacent_equal (fs : STObject) : bool :=
  match fs with
  | x :: ((y :: _) as fs') => bool_decide (x.1 = y.1) || adjacent_equal fs'
  | _ => false
  end.

(** The loop of [STObject::set]: the members, and whether the end marker was found.  Each
    round reads at least one byte. *)
Fixpoint fields_loop (value : Field -> list Z -> result (STVar * list Z)) (fuel : nat) (it : list Z)
  : result (STObject * bool * list Z) :=
  match it with
  | [] => Ok ([], false, [])
  | _ =>
      match fuel with
      | O => Throw logic_error
      | S fuel =>
          let* (f, it) := getFieldID it in
          if bool_decide (f = end_of_object) then Ok ([], true, it)
          else if bool_decide (f = end_of_array) then Throw runtime_error
          else if negb (known f) then Throw runtime_error
          else
            let* (v, it) := value f it in
            let* v := match v with
                      | v_object fs => let* fs := applyTemplateFromSField f fs in Ok (v_object fs)
                      | v => Ok v
                      end in
            let* (fs, ended, it) := fields_loop value fuel it in
            Ok ((f, v) :: fs, ended, it)
      end
  end.

Definition getSortedFields (whichFields : bool) (fs : STObject) : STObject :=
  sort_fields (List.filter (fun x => present x.2 && shouldInclude whichFields x.1) fs).

(** [STObject::set(sit, depth)] *)
Definition object_set (value : Field -> list Z -> result (STVar * list Z)) (it : list Z)
  : result (STObject * bool * list Z) :=
  let* (fs, ended, it) := fields_loop value (length it) it in
  if adjacent_equal (getSortedFields true fs) then Throw runtime_error else Ok (fs, ended, it).

(** The loop of the constructor of [STArray]. *)
Fixpoint elements_loop (object : list Z -> result (STObject * list Z)) (fuel : nat) (it : list Z)
  : result (list (Field * STObject) * list Z) :=
  match it with
  | [] => Ok ([], [])
  | _ =>
      match fuel with
      | O => Throw logic_error
      | S fuel =>
          let* (f, it) := getFieldID it in
          if bool_decide (f = end_of_array) then Ok ([], it)
          else if bool_decide (f = end_of_object) then Throw runtime_error
          else if negb (known f) then Throw runtime_error
          else if negb (f.1 =? STI_OBJECT) then Throw runtime_error
          else
            let* (fs, it) := object it in
            let* fs := applyTemplateFromSField f fs in
            let* (es, it) := elements_loop object fuel it in
            Ok ((f, fs) :: es, it)
      end
  end.

(** [STVar(sit, name, depth)]; [levels] is what is left of the depth of ten. *)
Fixpoint var_parse (levels : nat) (f : Field) (it : list Z) : result (STVar * list Z) :=
  match levels with
  | O => Throw runtime_error
  | S levels =>
      if f.1 =? STI_OBJECT then
        let* (fs, _, it) := object_set (var_parse levels) it in Ok (v_object fs, it)
      else if f.1 =? STI_ARRAY then
        let object it :=
          match levels with
          | O => Throw runtime_error
          | S levels => let* (fs, _, it) := object_set (var_parse levels) it in Ok (fs, it)
          end in
        let* (es, it) := elements_loop object (length it) it in Ok (v_array es, it)
      else
        let* (l, it) := leaf_parse f.1 it in Ok (v_leaf l, it)
  end.

(** An object by itself: members have the depths one to ten. *)
Definition object_parse (it : list Z) : result (STObject * bool * list Z) := object_set (var_parse 10) it.

(** ** Transactions *)

Definition txMinSizeBytes : Z := 32.
Definition txMaxSizeBytes : Z := 1048576.

Definition getTxFormat (type : Z) : option SOTemplate :=
  (fun fields => fields ++ commonFields) <$> format_of type tx_fields.

(** [getFieldU16] of an object without a template. *)
Definition getFieldU16 (f : Field) (fs : STObject) : result Z :=
  match find_field f fs with
  | None => Throw runtime_error
  | Some (v_absent, _) => Ok 0
  | Some (v_leaf (STUInt16 n), _) => Ok n
  | Some _ => Throw runtime_error
  end.

Definition HashPrefix_transactionID : Z := 0x54584E00.
Definition HashPrefix_txSign : Z := 0x53545800.
Definition HashPrefix_txMultiSign : Z := 0x534D5400.

(** What is hashed for the identifier of a transaction. *)
Definition id_data (fs : STObject) : result (list Z) :=
  let* b := object_add true fs in Ok (add32 HashPrefix_transactionID ++ b).

(** [STTx(SerialIter&)]: the type, the members, and what is hashed for the identifier. *)
Definition STTx_parse (it : list Z) : result (Z * STObject * list Z) :=
  let length := zlen it in
  if (length <? txMinSizeBytes) || (txMaxSizeBytes <? length) then Throw runtime_error
  else
    let* (fs, ended, _) := object_parse it in
    if ended then Throw runtime_error
    else
      let* type := getFieldU16 SF.sfTransactionType fs in
      match getTxFormat type with
      | None => Throw runtime_error
      | Some format => let* fs := applyTemplate format fs in
                       let* data := id_data fs in Ok (type, fs, data)
      end.

(** What is signed. *)
Definition getSigningData (fs : STObject) : result (list Z) :=
  let* b := object_add false fs in Ok (add32 HashPrefix_txSign ++ b).

Definition buildMultiSigningData (fs : STObject) (signingID : Z) : result (list Z) :=
  let* b := object_add false fs in Ok (add32 HashPrefix_txMultiSign ++ b ++ addBitString 20 signingID).

End Wire.
