(* ===== verification/WireProps.v ===== *)
(** * What is written is read back

    Every value, object and transaction that is in order is read back from the bytes
    written for it, so the bytes determine it; and what is signed determines every field
    that a signature covers. *)

From S2P Require Import Prelude.
From S2P Require Import XrplNumber.
From S2P Require Import XrplNumberFacts.
From S2P Require Import Amounts.
From S2P Require Import AmountsFacts.
From S2P Require Import LedgerState.
From S2P Require Import Bytes.
From S2P Require Import WireFields.
From S2P Require Import Wire.
From Stdlib Require Import Sorting.Sorted.
From stdpp Require Import list.

Local Open Scope Z_scope.
Local Open Scope xrpl_scope.

(** ** Bytes and bits *)

Lemma be_bytes_app n m x y :
  0 <= y < 256 ^ Z.of_nat m -> be_bytes (n + m) (x * 256 ^ Z.of_nat m + y) = be_bytes n x ++ be_bytes m y.
Proof.
  intros Hy. assert (0 < 256 ^ Z.of_nat m) by lia. induction n as [|n IH]; cbn [Nat.add be_bytes app].
  - clear - Hy. revert x y Hy. induction m as [|m IH]; intros x y Hy; [done|]. cbn [be_bytes].
    rewrite Nat2Z.inj_succ, Z.pow_succ_r in * by lia. assert (0 < 256 ^ Z.of_nat m) by lia. f_equal.
    + replace (x * (256 * 256 ^ Z.of_nat m) + y) with (y + (x * 256) * 256 ^ Z.of_nat m) by lia.
      rewrite Z.div_add by lia. by rewrite Z.mod_add by lia.
    + pose proof (Z.div_mod y (256 ^ Z.of_nat m)) as D. pose proof (Z.mod_pos_bound y (256 ^ Z.of_nat m)).
      replace (x * (256 * 256 ^ Z.of_nat m) + y)
        with ((x * 256 + y / 256 ^ Z.of_nat m) * 256 ^ Z.of_nat m + y mod 256 ^ Z.of_nat m) by lia.
      rewrite IH by lia. rewrite D at 2 by lia. rewrite Z.mul_comm. by rewrite IH by lia.
  - f_equal; [|done]. rewrite Nat2Z.inj_add, Z.pow_add_r by lia.
    rewrite (Z.mul_comm (256 ^ Z.of_nat n)), <- Z.div_div by lia. rewrite Z.add_comm, Z.div_add by lia.
    by rewrite (Z.div_small y) by lia.
Qed.

Lemma lor_low x k y : 0 <= k -> 0 <= y < 2 ^ k -> Z.lor (x * 2 ^ k) y = x * 2 ^ k + y.
Proof.
  intros Hk Hy. rewrite <- Z.shiftl_mul_pow2 by done. symmetry. apply Z.add_nocarry_lor.
  apply Z.bits_inj'. intros i Hi. rewrite Z.land_spec, Z.bits_0. destruct (Z.ltb_spec i k); [by rewrite Z.shiftl_spec_low|].
  replace (Z.testbit y i) with false; [by rewrite andb_false_r|]. symmetry.
  destruct (decide (y = 0)) as [->|]; [apply Z.bits_0|]. apply Z.bits_above_log2; [lia|].
  apply Z.log2_lt_pow2; [lia|]. apply Z.lt_le_trans with (2 ^ k); [lia|]. apply Z.pow_le_mono_r; lia.
Qed.

Lemma land_bit v k : 0 <= k -> (Z.land v (2 ^ k) =? 0) = ((v / 2 ^ k) mod 2 =? 0).
Proof.
  intros Hk. assert (Z.land v (2 ^ k) = ((v / 2 ^ k) mod 2) * 2 ^ k) as ->.
  { rewrite <- Z.testbit_spec' by done. apply Z.bits_inj'. intros i Hi. rewrite Z.land_spec, Z.pow2_bits_eqb by done.
    rewrite <- Z.shiftl_mul_pow2 by done. destruct (Z.eqb_spec k i) as [<-|N].
    - rewrite Z.shiftl_spec by done. rewrite Z.sub_diag. by destruct (Z.testbit v k).
    - rewrite andb_false_r, Z.shiftl_spec by done. symmetry. destruct (Z.ltb_spec i k); [apply Z.testbit_neg_r; lia|].
      destruct (Z.testbit v k); [|apply Z.bits_0]. change (Z.b2z true) with (2 ^ 0). apply Z.pow2_bits_false. lia. }
  assert (0 < 2 ^ k) by lia. pose proof (Z.mod_pos_bound (v / 2 ^ k) 2).
  destruct (Z.eqb_spec ((v / 2 ^ k) mod 2) 0) as [->|]; [done|]. apply Z.eqb_neq. nia.
Qed.

(** ** Serializer and iterator *)

Lemma getRaw_app n b it : length b = n -> getRaw n (b ++ it) = Ok (b, it).
Proof.
  intros <-. unfold getRaw. rewrite length_app. destruct (Nat.ltb_spec (length b + length it) (length b)); [lia|].
  by rewrite take_app_length, drop_app_length.
Qed.

Lemma get_number_mod n x it : get_number n (be_bytes n x ++ it) = Ok (x mod 256 ^ Z.of_nat n, it).
Proof. unfold get_number. rewrite getRaw_app by apply be_bytes_length. cbn [bind]. by rewrite be_number_bytes. Qed.

Lemma get_number_bytes n x it : 0 <= x < 256 ^ Z.of_nat n -> get_number n (be_bytes n x ++ it) = Ok (x, it).
Proof. intros Hx. rewrite get_number_mod. by rewrite Z.mod_small. Qed.

Lemma get8_cons b it : get8 (b :: it) = Ok (b, it).
Proof. done. Qed.

Lemma geti64_bytes x it : - 2 ^ 63 <= x < 2 ^ 63 -> geti64 (add64 x ++ it) = Ok (x, it).
Proof.
  intros Hx. unfold geti64, get64, add64. rewrite get_number_mod. cbn [bind]. change (256 ^ Z.of_nat 8) with (2 ^ 64).
  unfold i64. rewrite Zplus_mod_idemp_l, Z.mod_small by lia. do 2 f_equal. lia.
Qed.

Lemma i32_bytes x it : - 2 ^ 31 <= x < 2 ^ 31 -> get32 (add32 x ++ it) = Ok (x mod 2 ^ 32, it) /\ i32 (x mod 2 ^ 32) = x.
Proof.
  intros Hx. unfold get32, add32. rewrite get_number_mod. split; [done|].
  unfold i32. rewrite Zplus_mod_idemp_l, Z.mod_small by lia. lia.
Qed.

Definition wire_field (f : Field) : Prop := 1 <= f.1 < 256 /\ 1 <= f.2 < 256.

Lemma addFieldID_read f it : wire_field f -> getFieldID (addFieldID f ++ it) = Ok (f, it).
Proof.
  destruct f as [t n]. intros [Ht Hn]. cbn [fst snd] in *. unfold addFieldID, getFieldID.
  destruct (Z.ltb_spec t 16); destruct (Z.ltb_spec n 16); cbn [app]; rewrite get8_cons; cbn [bind].
  - rewrite Z.shiftl_mul_pow2, lor_low by (change (2 ^ 4) with 16; lia). change (2 ^ 4) with 16.
    change 15 with (Z.ones 4). rewrite Z.land_ones, Z.shiftr_div_pow2 by lia. change (2 ^ 4) with 16.
    rewrite (Z.add_comm (t * 16)), Z.mod_add, Z.div_add, Z.mod_small, Z.div_small, Z.add_0_l by lia.
    destruct (Z.eqb_spec t 0); [lia|]. cbn [bind]. by destruct (Z.eqb_spec n 0); [lia|].
  - rewrite Z.shiftl_mul_pow2 by lia. change 15 with (Z.ones 4). rewrite Z.land_ones, Z.shiftr_div_pow2, Z.div_mul, Z.mod_mul by lia.
    destruct (Z.eqb_spec t 0); [lia|]. cbn [bind Z.eqb]. rewrite get8_cons. cbn [bind]. by destruct (Z.ltb_spec n 16); [lia|].
  - change 15 with (Z.ones 4). rewrite Z.land_ones, Z.shiftr_div_pow2 by lia. change (2 ^ 4) with 16.
    rewrite Z.mod_small, Z.div_small by lia. cbn [Z.eqb]. rewrite get8_cons. cbn [bind]. destruct (Z.ltb_spec t 16); [lia|]. cbn [bind].
    by destruct (Z.eqb_spec n 0); [lia|].
  - rewrite Z.land_0_l, Z.shiftr_0_l. cbn [Z.eqb]. rewrite get8_cons. cbn [bind]. destruct (Z.ltb_spec t 16); [lia|]. cbn [bind].
    rewrite get8_cons. cbn [bind]. by destruct (Z.ltb_spec n 16); [lia|].
Qed.

Lemma addEncoded_read n b it : 0 <= n -> addEncoded n = Ok b -> getVLDataLength (b ++ it) = Ok (n, it).
Proof.
  intros Hn. unfold addEncoded. change 0xff with (Z.ones 8). rewrite !Z.land_ones, !Z.shiftr_div_pow2 by lia.
  change (2 ^ 8) with 256. change (2 ^ 16) with 65536. unfold getVLDataLength.
  destruct (Z.leb_spec n 192); [intros [= <-]|destruct (Z.leb_spec n 12480); [intros [= <-]|destruct (Z.leb_spec n 918744); [intros [= <-]|done]]];
    cbn [app]; rewrite get8_cons; cbn [bind]; unfold decodeLengthLength.
  - destruct (Z.ltb_spec n 0); [lia|]. destruct (Z.leb_spec n 192); [|lia]. cbn [bind Z.eqb Pos.eqb]. unfold decodeVLLength.
    destruct (Z.ltb_spec n 0); [lia|]. by destruct (Z.ltb_spec 254 n); [lia|].
  - pose proof (Z.div_mod (n - 193) 256). pose proof (Z.mod_pos_bound (n - 193) 256). set (q := (n - 193) / 256) in *.
    set (r := (n - 193) mod 256) in *. destruct (Z.ltb_spec (193 + q) 0); [lia|]. destruct (Z.leb_spec (193 + q) 192); [lia|].
    destruct (Z.leb_spec (193 + q) 240); [|lia]. cbn [bind Z.eqb Pos.eqb]. rewrite get8_cons. cbn [bind]. unfold decodeVLLength2.
    destruct (Z.ltb_spec (193 + q) 193); [lia|]. destruct (Z.ltb_spec 240 (193 + q)); [lia|]. cbn [orb bind]. do 2 f_equal. lia.
  - pose proof (Z.div_mod (n - 12481) 256). pose proof (Z.mod_pos_bound (n - 12481) 256).
    pose proof (Z.div_mod ((n - 12481) / 256) 256). pose proof (Z.mod_pos_bound ((n - 12481) / 256) 256).
    replace ((n - 12481) / 65536) with ((n - 12481) / 256 / 256) by (rewrite Z.div_div by lia; done).
    set (a := (n - 12481) / 256) in *. set (q := a / 256) in *. set (s := a mod 256) in *. set (r := (n - 12481) mod 256) in *.
    destruct (Z.ltb_spec (241 + q) 0); [lia|]. destruct (Z.leb_spec (241 + q) 192); [lia|]. destruct (Z.leb_spec (241 + q) 240); [lia|].
    destruct (Z.leb_spec (241 + q) 254); [|lia]. cbn [bind Z.eqb Pos.eqb]. rewrite get8_cons. cbn [bind]. rewrite get8_cons. cbn [bind].
    unfold decodeVLLength3. destruct (Z.ltb_spec (241 + q) 241); [lia|]. destruct (Z.ltb_spec 254 (241 + q)); [lia|]. cbn [orb bind].
    do 2 f_equal. lia.
Qed.

Lemma addVL_read v b it : addVL v = Ok b -> getVL (b ++ it) = Ok (v, it).
Proof.
  unfold addVL, getVL. intros H. apply bind_ok in H as (n & Hn & [= <-]). rewrite <- app_assoc.
  rewrite (addEncoded_read _ _ _ (zlen_pos v) Hn). cbn [bind]. unfold zlen. rewrite Nat2Z.id. by apply getRaw_app.
Qed.

(** ** Amounts *)

(** Amounts that can be written: canonical, with an asset that has an encoding. *)
Definition amount_ok (a : STAmount) : Prop :=
  canonical a /\
  match mAsset a with
  | AMPT id => 0 <= id < 2 ^ 192
  | AIssue i => i = xrpIssue \/ (0 < currency i < 2 ^ 160 /\ 0 < account i < 2 ^ 160)
  end.

Lemma mpt_amount_read cfg id v neg it :
  0 <= id < 2 ^ 192 -> 0 <= v < 2 ^ 64 ->
  STAmount_parse cfg (STAmount_add (mkSTAmount (AMPT id) v 0 neg) ++ it) = Ok (mkSTAmount (AMPT id) v 0 neg, it).
Proof.
  intros Hid Hv. unfold STAmount_add. cbn [mAsset mIsNegative mValue].
  set (u := if neg then _ else _). assert (u = if neg then 32 else 96) as Hu by (by destruct neg).
  pose proof (Z.div_mod v 256). pose proof (Z.mod_pos_bound v 256). set (w := v / 256) in *. set (b := v mod 256) in *.
  assert (add64 v = be_bytes 7 w ++ be_bytes 1 b) as ->.
  { unfold add64. change 8%nat with (7 + 1)%nat. rewrite <- be_bytes_app by (change (256 ^ Z.of_nat 1) with 256; lia).
    f_equal. change (256 ^ Z.of_nat 1) with 256. lia. }
  unfold add8. rewrite <- !app_assoc, app_assoc, <- be_bytes_app by (change (256 ^ Z.of_nat 7) with (2 ^ 56); lia).
  change (256 ^ Z.of_nat 7) with (2 ^ 56). change (1 + 7)%nat with 8%nat.
  assert (0 <= u * 2 ^ 56 + w < 2 ^ 64) by (destruct neg; lia).
  unfold STAmount_parse, get64. rewrite get_number_bytes by (change (256 ^ Z.of_nat 8) with (2 ^ 64); lia). cbn [bind].
  change cIssuedCurrency with (2 ^ 63). change cMPToken with (2 ^ 61). change cPositive with (2 ^ 62). rewrite !land_bit by lia.
  assert ((u * 2 ^ 56 + w) / 2 ^ 63 = 0) as -> by (apply Z.div_small; destruct neg; lia).
  assert ((u * 2 ^ 56 + w) / 2 ^ 61 = if neg then 1 else 3) as ->.
  { symmetry. apply (Z.div_unique _ _ _ w); [lia|destruct neg; lia]. }
  assert ((u * 2 ^ 56 + w) / 2 ^ 62 = if neg then 0 else 1) as ->.
  { symmetry. apply (Z.div_unique _ _ _ (if neg then u * 2 ^ 56 + w else 2 ^ 61 + w)); [destruct neg; lia..]. }
  change (0 mod 2 =? 0) with true. cbv iota. assert (negb ((if neg then 1 else 3) mod 2 =? 0) = true) as -> by (by destruct neg).
  unfold get8, get192, addBitString. rewrite get_number_bytes by (change (256 ^ Z.of_nat 1) with 256; lia). cbn [bind].
  rewrite get_number_bytes by (change (256 ^ Z.of_nat 24) with (2 ^ 192); lia). cbn [bind].
  assert (u64 (Z.shiftl (u * 2 ^ 56 + w) 8) = w * 2 ^ 8) as ->.
  { unfold u64. rewrite Z.shiftl_mul_pow2 by lia. replace ((u * 2 ^ 56 + w) * 2 ^ 8) with (w * 2 ^ 8 + u * 2 ^ 64) by lia.
    rewrite Z.mod_add by lia. apply Z.mod_small. lia. }
  rewrite lor_low by lia. do 3 f_equal; [lia|]. by destruct neg.
Qed.

Lemma land_mask v : 0 <= v < 2 ^ 63 -> Z.land v cValueMask = v mod 2 ^ 61.
Proof.
  intros Hv. change cValueMask with (Z.lor (2 ^ 63) (Z.ones 61)). rewrite Z.land_lor_distr_r, Z.land_ones by lia.
  pose proof (land_bit v 63) as B. rewrite (Z.div_small v (2 ^ 63)) in B by lia. change (0 mod 2 =? 0) with true in B.
  apply Z.eqb_eq in B; [|lia]. by rewrite B, Z.lor_0_l.
Qed.

Lemma xrp_amount_read cfg v neg it :
  0 <= v < 2 ^ 61 -> (v = 0 -> neg = false) ->
  STAmount_parse cfg (STAmount_add (mkSTAmount (AIssue xrpIssue) v 0 neg) ++ it) = Ok (mkSTAmount (AIssue xrpIssue) v 0 neg, it).
Proof.
  intros Hv Hn. unfold STAmount_add. cbn [mAsset mIsNegative mValue]. change (native _) with true. cbv iota.
  assert (Z.lor v cPositive = 2 ^ 62 + v) as E.
  { rewrite Z.lor_comm. change cPositive with (1 * 2 ^ 62). rewrite lor_low by lia. lia. }
  set (x := if neg then v else 2 ^ 62 + v). assert ((if neg then add64 v else add64 (Z.lor v cPositive)) = add64 x) as ->.
  { rewrite E. by destruct neg. }
  assert (0 <= x < 2 ^ 63) by (destruct neg; lia).
  unfold STAmount_parse, get64, add64. rewrite get_number_bytes by (change (256 ^ Z.of_nat 8) with (2 ^ 64); lia). cbn [bind].
  change cIssuedCurrency with (2 ^ 63). change cMPToken with (2 ^ 61). change cPositive with (2 ^ 62). rewrite !land_bit by lia.
  rewrite (Z.div_small x (2 ^ 63)) by lia. change (0 mod 2 =? 0) with true. cbv iota.
  assert (x / 2 ^ 61 = if neg then 0 else 2) as ->.
  { symmetry. apply (Z.div_unique _ _ _ v); [lia|destruct neg; lia]. }
  assert (x / 2 ^ 62 = if neg then 0 else 1) as ->.
  { symmetry. apply (Z.div_unique _ _ _ v); [lia|destruct neg; lia]. }
  assert (negb ((if neg then 0 else 2) mod 2 =? 0) = false) as -> by (by destruct neg). cbv iota.
  rewrite land_mask by done. assert (x mod 2 ^ 61 = v) as ->.
  { subst x. destruct neg; [apply Z.mod_small; lia|]. replace (2 ^ 62 + v) with (v + 2 * 2 ^ 61) by lia.
    rewrite Z.mod_add by lia. apply Z.mod_small. lia. }
  destruct neg; [|done]. cbv iota. change (negb (0 mod 2 =? 0)) with false. cbv iota.
  destruct (Z.eqb_spec x 0) as [E0|]; [|done]. subst x. by specialize (Hn E0).
Qed.

Lemma iou_amount_read cfg i v e neg it :
  current cfg -> 0 < currency i < 2 ^ 160 -> 0 < account i < 2 ^ 160 ->
  canonical (mkSTAmount (AIssue i) v e neg) ->
  STAmount_parse cfg (STAmount_add (mkSTAmount (AIssue i) v e neg) ++ it) = Ok (mkSTAmount (AIssue i) v e neg, it).
Proof.
  intros HC Hc Ha [Hz HI].
  assert (asset_native (AIssue i) = false) as Hnat.
  { cbn. unfold issue_native, issue_eqb. cbn [currency xrpIssue]. by destruct (Z.eqb_spec (currency i) 0); [lia|]. }
  assert (asset_integral (AIssue i) = false) as Hint by exact Hnat.
  unfold integral in HI. cbn [mAsset mValue mOffset mIsNegative] in *. rewrite Hint in HI.
  set (k := if v =? 0 then 512 else e + 512 + (if neg then 0 else 256) + 97).
  assert (0 <= v < 2 ^ 54) as Hv by (unfold cMinValue, cMaxValue in HI; lia).
  assert (512 <= k < 1024) as Hk by (subst k; unfold cMinValue, cMaxValue, cMinOffset, cMaxOffset in HI; destruct (Z.eqb_spec v 0), neg; lia).
  assert (STAmount_add (mkSTAmount (AIssue i) v e neg) =
          add64 (k * 2 ^ 54 + v) ++ addBitString 20 (currency i) ++ addBitString 20 (account i)) as ->.
  { unfold STAmount_add, native. cbn [mAsset mIsNegative mValue mOffset]. rewrite Hnat. f_equal.
    assert (st_is_zero (mkSTAmount (AIssue i) v e neg) = (v =? 0)) as ->.
    { unfold st_is_zero, st_signum. cbn [mValue mIsNegative]. by destruct (Z.eqb_spec v 0), neg. }
    subst k. destruct (Z.eqb_spec v 0) as [->|]; [done|]. rewrite !Z.shiftl_mul_pow2 by lia. unfold u64.
    destruct neg; rewrite Z.mod_small, Z.lor_comm, lor_low by lia; f_equal; lia. }
  unfold STAmount_parse, get64, add64. rewrite <- !app_assoc, get_number_bytes by (change (256 ^ Z.of_nat 8) with (2 ^ 64); lia). cbn [bind].
  change cIssuedCurrency with (2 ^ 63). rewrite land_bit by lia.
  assert ((k * 2 ^ 54 + v) / 2 ^ 63 = 1) as -> by (symmetry; apply (Z.div_unique _ _ _ ((k - 512) * 2 ^ 54 + v)); lia).
  change (1 mod 2 =? 0) with false. cbv iota. unfold get160, addBitString, isXRP_currency.
  rewrite get_number_bytes by (change (256 ^ Z.of_nat 20) with (2 ^ 160); lia). cbn [bind]. destruct (Z.eqb_spec (currency i) 0); [lia|].
  rewrite get_number_bytes by (change (256 ^ Z.of_nat 20) with (2 ^ 160); lia). cbn [bind]. destruct (Z.eqb_spec (account i) 0); [lia|].
  change 0x3FFFFFFFFFFFFF with (Z.ones 54). rewrite Z.land_ones, Z.shiftr_div_pow2 by lia.
  rewrite (Z.add_comm (k * 2 ^ 54)), Z.mod_add, Z.div_add, Z.mod_small, Z.div_small, Z.add_0_l by lia.
  replace (mkIssue (currency i) (account i)) with i by (by destruct i). subst k.
  destruct (Z.eqb_spec v 0) as [->|Hv0]; cbn [negb].
  - change (negb (512 =? 512)) with false. cbv iota. destruct HI as [[_ ->]|HI]; [|unfold cMinValue in HI; lia].
    rewrite Hz by done.
    rewrite (canonicalize_iou cfg (AIssue i) HC Hint) by done. unfold iou, integral. cbn [mAsset]. by rewrite Hint.
  - destruct HI as [[? _]|[Rv Re]]; [done|].
    set (o := e + 512 + _ + 97). assert ((Z.land o 256 =? 0) = neg) as ->.
    { change 256 with (2 ^ 8). rewrite land_bit by lia. unfold cMinOffset, cMaxOffset in Re. subst o. destruct neg.
      - replace ((e + 512 + 0 + 97) / 2 ^ 8) with 2; [done|]. apply (Z.div_unique _ _ _ (e + 97)); lia.
      - replace ((e + 512 + 256 + 97) / 2 ^ 8) with 3; [done|]. apply (Z.div_unique _ _ _ (e + 97)); lia. }
    assert (Z.land o 255 - 97 = e) as ->.
    { change 255 with (Z.ones 8). rewrite Z.land_ones by lia. unfold cMinOffset, cMaxOffset in Re. subst o. destruct neg.
      - replace ((e + 512 + 0 + 97) mod 2 ^ 8) with (e + 97); [lia|]. apply (Z.mod_unique _ _ 2); lia.
      - replace ((e + 512 + 256 + 97) mod 2 ^ 8) with (e + 97); [lia|]. apply (Z.mod_unique _ _ 3); lia. }
    destruct (Z.ltb_spec v cMinValue); [lia|]. destruct (Z.ltb_spec cMaxValue v); [lia|].
    destruct (Z.ltb_spec e cMinOffset); [lia|]. destruct (Z.ltb_spec cMaxOffset e); [lia|]. cbn [orb].
    fold (st_make cfg (AIssue i) v e neg).
    rewrite (st_make_range cfg (AIssue i) HC Hint v e neg).
    + cbn [bind]. unfold st_iou. do 3 f_equal; destruct neg; lia.
    + unfold iou_range. unfold cMinValue, cMaxValue, cMinOffset, cMaxOffset in *. unfold minMantissa, maxMantissa, iou_minExponent, iou_maxExponent. lia.
    + unfold cMinValue in Rv. lia.
Qed.

Lemma amount_read cfg a it : current cfg -> amount_ok a -> STAmount_parse cfg (STAmount_add a ++ it) = Ok (a, it).
Proof.
  intros HC [Hcan Ha]. destruct a as [[i|id] v e neg]; cbn [mAsset] in Ha.
  - destruct Ha as [->|[Hc Ha]]; [|by apply iou_amount_read]. destruct Hcan as [Hz [HO Hv]]. cbn in HO. subst e.
    apply xrp_amount_read; [|done]. cbn [mValue mAsset] in Hv. unfold integral_limit, cMaxNativeN in Hv. cbn in Hv. lia.
  - destruct Hcan as [Hz [HO Hv]]. cbn in HO. subst e. apply mpt_amount_read; [done|].
    cbn [mValue mAsset] in Hv. unfold integral_limit, maxMPTokenAmount in Hv. cbn in Hv. lia.
Qed.

(** ** Numbers, assets, accounts *)

Lemma number_read md x it : wf x -> STNumber_parse md (STNumber_add x ++ it) = Ok (x, it).
Proof.
  intros Hx. assert (- 2 ^ 63 <= mantissa_ x < 2 ^ 63 /\ - 2 ^ 31 <= exponent_ x < 2 ^ 31) as [Hm He].
  { destruct Hx as [->|[Hm He]]; [done|]. unfold abs_mantissa, minMantissa, maxMantissa, minExponent, maxExponent in *. lia. }
  unfold STNumber_parse, STNumber_add. rewrite <- app_assoc, geti64_bytes by done. cbn [bind]. unfold geti32.
  destruct (i32_bytes (exponent_ x) it He) as [-> R]. cbn [bind]. rewrite R. unfold make.
  replace (mkNumber (mantissa_ x) (exponent_ x)) with x by (by destruct x).
  destruct Hx as [->|Hx]; [done|]. by rewrite normalize_normal.
Qed.

Definition asset_ok (a : Asset) : Prop :=
  match a with
  | AMPT id => 0 <= id < 2 ^ 192 /\ mptIssuer id <> 0
  | AIssue i => i = xrpIssue \/ (0 < currency i < 2 ^ 160 /\ 0 < account i < 2 ^ 160 /\ account i <> noAccount)
  end.

Lemma host_bytes_length le b : length (host_bytes le b) = length b.
Proof. destruct le; [apply length_rev|done]. Qed.

Lemma host_bytes_twice le b : host_bytes le (host_bytes le b) = b.
Proof. destruct le; [apply rev_involutive|done]. Qed.

Lemma host_bytes_bytes le b : Forall byte b -> Forall byte (host_bytes le b).
Proof. destruct le; [|done]. intros H. by apply Forall_rev. Qed.

Lemma issue_read le a it : asset_ok a -> STIssue_parse le (STIssue_add le a ++ it) = Ok (a, it).
Proof.
  destruct a as [i|id]; cbn [asset_ok STIssue_add]; unfold STIssue_parse, get160, addBitString, isXRP_currency.
  - intros [->|(Hc & Ha & Hn)].
    + cbn [currency xrpIssue Z.eqb app]. rewrite <- app_assoc, get_number_bytes by done. done.
    + destruct (Z.eqb_spec (currency i) 0); [lia|]. rewrite <- !app_assoc, get_number_bytes by (change (256 ^ Z.of_nat 20) with (2 ^ 160); lia).
      cbn [bind]. destruct (Z.eqb_spec (currency i) 0); [lia|]. rewrite get_number_bytes by (change (256 ^ Z.of_nat 20) with (2 ^ 160); lia).
      cbn [bind]. destruct (Z.eqb_spec (account i) noAccount); [done|]. destruct (Z.eqb_spec (account i) 0); [lia|]. cbn. by destruct i.
  - intros [Hid Hiss]. pose proof (Z.mod_pos_bound id (2 ^ 160)) as B. unfold mptIssuer in *.
    assert (be_bytes 24 id = be_bytes 4 (id / 2 ^ 160) ++ be_bytes 20 (id mod 2 ^ 160)) as E.
    { change 24%nat with (4 + 20)%nat. rewrite <- be_bytes_app by (change (256 ^ Z.of_nat 20) with (2 ^ 160); lia). f_equal.
      change (256 ^ Z.of_nat 20) with (2 ^ 160). rewrite (Z.mul_comm _ (2 ^ 160)). apply Z.div_mod. lia. }
    rewrite E, take_app_length' by (by rewrite be_bytes_length).
    rewrite <- !app_assoc, get_number_bytes by (change (256 ^ Z.of_nat 20) with (2 ^ 160); lia). cbn [bind].
    destruct (Z.eqb_spec (id mod 2 ^ 160) 0); [done|]. rewrite get_number_bytes by done. cbn [bind].
    change (noAccount =? noAccount) with true. cbv iota. unfold get32, add32. set (s := host_bytes le (be_bytes 4 (id / 2 ^ 160))).
    assert (length s = 4%nat) as Ls by (subst s; by rewrite host_bytes_length, be_bytes_length).
    assert (Forall byte s) as Bs by (apply host_bytes_bytes, be_bytes_bytes).
    rewrite get_number_bytes by (pose proof (be_number_bound s Bs) as X; unfold zlen in X; by rewrite Ls in X). cbn [bind].
    replace (be_bytes 4 (be_number s)) with s by (rewrite <- (be_bytes_number s Bs) at 1; by rewrite Ls).
    subst s. rewrite host_bytes_twice, <- E. rewrite be_number_bytes_small by (change (256 ^ Z.of_nat 24) with (2 ^ 192); lia). done.
Qed.

Definition account_ok (a : option Z) : Prop := match a with None => True | Some id => 0 <= id < 2 ^ 160 end.

Lemma account_read a b it : account_ok a -> STAccount_add a = Ok b -> STAccount_parse (b ++ it) = Ok (a, it).
Proof.
  intros Ha Hb. unfold STAccount_parse. rewrite (addVL_read _ _ _ Hb). cbn [bind]. destruct a as [id|]; [|done].
  unfold addBitString. rewrite bool_decide_false by (intros E; by apply (f_equal length) in E; rewrite be_bytes_length in E).
  unfold zlen. rewrite be_bytes_length. cbn [negb]. change (negb (Z.of_nat 20 =? 20)) with false. cbv iota.
  by rewrite be_number_bytes_small by (change (256 ^ Z.of_nat 20) with (2 ^ 160); done).
Qed.

(** ** Hashes and paths *)

Lemma hashes_read (l : list Z) :
  Forall (fun x => 0 <= x < 2 ^ 256) l -> split_hashes (length l) (concat (addBitString 32 <$> l)) = l.
Proof.
  induction 1 as [|x l Hx _ IH]; [done|]. cbn [length split_hashes fmap list_fmap concat]. unfold addBitString at 1 3.
  rewrite take_app_length', drop_app_length' by (by rewrite be_bytes_length).
  rewrite be_number_bytes_small by (change (256 ^ Z.of_nat 32) with (2 ^ 256); lia). f_equal. exact IH.
Qed.

Lemma hashes_length (l : list Z) : zlen (concat (addBitString 32 <$> l)) = Z.of_nat (length l) * 32.
Proof.
  unfold zlen. induction l as [|x l IH]; [done|]. cbn [fmap list_fmap concat length]. rewrite length_app. unfold addBitString at 1.
  rewrite be_bytes_length. change (list_fmap Z (list Z) (addBitString 32) l) with (addBitString 32 <$> l). lia.
Qed.

Lemma vector_read l b it :
  Forall (fun x => 0 <= x < 2 ^ 256) l -> STVector256_add l = Ok b -> STVector256_parse (b ++ it) = Ok (l, it).
Proof.
  intros Hl Hb. unfold STVector256_add in Hb. rewrite <- hashes_length in Hb. unfold STVector256_parse.
  rewrite (addVL_read (concat (addBitString 32 <$> l)) b it Hb). cbn [bind]. rewrite hashes_length.
  rewrite Z.mod_mul, Z.div_mul, Nat2Z.id by lia. cbn [Z.eqb negb]. by rewrite hashes_read.
Qed.

(** An element of a path names an account, a currency or an issuer. *)
Definition element_ok (e : STPathElement) : Prop :=
  mType e <> typeNone /\
  exists force, e = path_element (mAccountID e) (mCurrencyID e) (mIssuerID e) force /\
  0 <= mAccountID e < 2 ^ 160 /\ 0 <= mCurrencyID e < 2 ^ 160 /\ 0 <= mIssuerID e < 2 ^ 160.

Lemma element_read e path it n : element_ok e ->
  paths_loop (S n) path (element_add e ++ it) = paths_loop n (path ++ [e]) it.
Proof.
  destruct e as [t a c i]. intros (Ht & force & E & Ha & Hc & Hi). cbn [mType mAccountID mCurrencyID mIssuerID] in *.
  unfold path_element in E. injection E as E. cbn [paths_loop]. unfold element_add. cbn [mType mAccountID mCurrencyID mIssuerID].
  unfold add8, get8. rewrite <- app_assoc, get_number_bytes
    by (subst t; destruct (a =? 0), (force || negb (isXRP_currency c)), (i =? 0); by vm_compute). cbn [bind].
  assert (forall x (b : bool) rest, 0 <= x < 2 ^ 160 -> (b = false -> x = 0) ->
            get_if b ((if b then addBitString 20 x else []) ++ rest) = Ok (x, rest)) as G.
  { intros x b rest Hx Hb. unfold get_if, get160, addBitString. destruct b; [|by rewrite Hb].
    by rewrite get_number_bytes by (change (256 ^ Z.of_nat 20) with (2 ^ 160); lia). }
  assert (has_type t typeAccount = negb (a =? 0) /\ has_type t typeCurrency = (force || negb (isXRP_currency c)) /\
          has_type t typeIssuer = negb (i =? 0) /\ (t =? typeBoundary) = false /\ (Z.land t (Z.lnot typeAll) =? 0) = true)
    as (T1 & T2 & T3 & T4 & T5).
  { subst t. by destruct (a =? 0), (force || negb (isXRP_currency c)), (i =? 0). }
  destruct (Z.eqb_spec t typeNone); [done|]. rewrite T4, T5. cbn [orb negb].
  rewrite <- !app_assoc. rewrite G; [cbn [bind]|done|rewrite T1; by intros ->%negb_false_iff%Z.eqb_eq].
  rewrite G; [cbn [bind]|done|rewrite T2; intros [_ H]%orb_false_iff; by apply negb_false_iff, Z.eqb_eq in H].
  rewrite G; [cbn [bind]|done|rewrite T3; by intros ->%negb_false_iff%Z.eqb_eq].
  do 2 f_equal. f_equal. unfold path_element. f_equal. rewrite T2, E. by destruct (isXRP_currency c), force.
Qed.

Lemma path_read p path it n : Forall element_ok p ->
  paths_loop (length p + n) path (path_add p ++ it) = paths_loop n (path ++ p) it.
Proof.
  intros H. revert path. induction H as [|e p He _ IH]; intros path; [by rewrite app_nil_r|].
  unfold path_add. cbn [fmap list_fmap concat length Nat.add]. rewrite <- app_assoc, element_read by done.
  fold (path_add p) || idtac. change (list_fmap STPathElement (list Z) element_add p) with (element_add <$> p).
  fold (path_add p). rewrite IH. by rewrite <- app_assoc.
Qed.

Lemma element_length e : (1 <= length (element_add e))%nat.
Proof. unfold element_add, add8. rewrite length_app, be_bytes_length. lia. Qed.

Lemma path_length p : (length p <= length (path_add p))%nat.
Proof.
  induction p as [|e p IH]; [done|]. unfold path_add in *. cbn [fmap list_fmap concat length]. rewrite length_app.
  pose proof (element_length e). change (list_fmap STPathElement (list Z) element_add p) with (element_add <$> p). lia.
Qed.

Definition paths_ok (ps : list (list STPathElement)) : Prop := ps <> [] /\ Forall (fun p => p <> [] /\ Forall element_ok p) ps.

Lemma paths_read ps it n : paths_ok ps -> (length (paths_add ps) < n)%nat ->
  paths_loop n [] (paths_add ps ++ add8 typeNone ++ it) = Ok (ps, it).
Proof.
  intros [Hne H]. revert n. induction H as [|p ps [Hp He] H IH]; intros n Hn; [done|]. clear Hne.
  pose proof (path_length p) as Lp. destruct ps as [|q ps].
  - cbn [paths_add] in *. replace n with (length p + (n - length p))%nat by lia. rewrite path_read by done.
    destruct (n - length p)%nat as [|m] eqn:E; [lia|]. cbn [paths_loop app]. rewrite get8_cons || idtac. unfold add8. cbn [be_bytes app].
    rewrite get8_cons. cbn [bind]. change ((_ =? typeNone) || _) with true. cbv iota. by rewrite bool_decide_false.
  - cbn [paths_add] in *. rewrite !length_app in Hn. unfold add8 in Hn. rewrite be_bytes_length in Hn. rewrite <- !app_assoc.
    replace n with (length p + (n - length p))%nat by lia. rewrite path_read by done.
    destruct (n - length p)%nat as [|m] eqn:E; [lia|]. cbn [paths_loop app]. unfold add8 at 1. cbn [be_bytes app].
    rewrite get8_cons. cbn [bind]. change ((_ =? typeNone) || _) with true. cbv iota. rewrite bool_decide_false by done.
    change (_ =? typeNone) with false. cbv iota. change (match ps with [] => path_add q | _ => _ end) with (paths_add (q :: ps)) in *.
    rewrite IH; [done|done|lia].
Qed.

(** ** Values without parts *)

(** The longest string of bytes that has an encoding. *)
Definition max_vl : Z := 918744.

Definition leaf_ok (l : Leaf) : Prop :=
  match l with
  | STUInt8 n => 0 <= n < 2 ^ 8
  | STUInt16 n => 0 <= n < 2 ^ 16
  | STUInt32 n => 0 <= n < 2 ^ 32
  | STUInt64 n => 0 <= n < 2 ^ 64
  | STUInt128 n => 0 <= n < 2 ^ 128
  | STUInt160 n | STCurrency n => 0 <= n < 2 ^ 160
  | STUInt192 n => 0 <= n < 2 ^ 192
  | STUInt256 n => 0 <= n < 2 ^ 256
  | STInt32 n => - 2 ^ 31 <= n < 2 ^ 31
  | l_amount a => amount_ok a
  | l_number x => wf x
  | STBlob b => zlen b <= max_vl
  | STAccount a => account_ok a
  | STVector256 l => Forall (fun x => 0 <= x < 2 ^ 256) l /\ Z.of_nat (length l) * 32 <= max_vl
  | STPathSet ps => paths_ok ps
  | STIssue a => asset_ok a
  | STXChainBridge d i d' i' => account_ok d /\ asset_ok i /\ account_ok d' /\ asset_ok i'
  end.

Lemma addEncoded_total n : n <= max_vl -> exists b, addEncoded n = Ok b.
Proof. unfold max_vl, addEncoded. intros Hn. destruct (_ <=? 192); [eauto|]. destruct (_ <=? 12480); [eauto|]. apply Z.leb_le in Hn. rewrite Hn. eauto. Qed.

Lemma addVL_total v : zlen v <= max_vl -> exists b, addVL v = Ok b.
Proof. intros [b Hb]%addEncoded_total. unfold addVL. rewrite Hb. cbn. eauto. Qed.

Lemma account_written a : account_ok a ->
  exists b, STAccount_add a = Ok b /\ forall it, STAccount_parse (b ++ it) = Ok (a, it).
Proof.
  intros Ha. destruct (addVL_total (match a with None => [] | Some id => addBitString 20 id end)) as [b Hb].
  { destruct a; [|done]. unfold zlen, addBitString. by rewrite be_bytes_length. }
  exists b. split; [done|]. intros it. by apply account_read.
Qed.

(** A value in order is written, and read back in front of any other bytes. *)
Lemma leaf_read cfg le l : current cfg -> leaf_ok l ->
  exists b, leaf_add le l = Ok b /\ forall it, leaf_parse cfg le (getSType l) (b ++ it) = Ok (l, it).
Proof.
  intros HC H. destruct l; cbn [leaf_add getSType] in *; cbn [leaf_ok] in H;
    unfold leaf_parse, STI_UINT8, STI_UINT16, STI_UINT32, STI_UINT64, STI_UINT128, STI_UINT160, STI_UINT192, STI_UINT256,
      STI_INT32, STI_AMOUNT, STI_NUMBER, STI_VL, STI_ACCOUNT, STI_VECTOR256, STI_PATHSET, STI_ISSUE, STI_XCHAIN_BRIDGE,
      STI_CURRENCY; cbn [Z.eqb Pos.eqb]; cbv iota.
  all: try (eexists; split; [done|]; intros it; unfold on_fst, get8, get16, get32, get64, get160, add8, add16, add32, add64, addBitString;
    rewrite get_number_bytes by done; done).
  - eexists. split; [done|]. intros it. unfold on_fst. destruct (i32_bytes n it H) as [-> R]. cbn [bind]. by rewrite R.
  - eexists. split; [done|]. intros it. unfold on_fst. by rewrite amount_read.
  - eexists. split; [done|]. intros it. unfold on_fst. by rewrite number_read.
  - destruct (addVL_total b H) as [b' Hb]. exists b'. split; [done|]. intros it. unfold on_fst. by rewrite (addVL_read _ _ it Hb).
  - destruct (account_written a H) as (b & -> & R). exists b. split; [done|]. intros it. unfold on_fst. by rewrite R.
  - destruct H as [Hl Hn]. destruct (addEncoded_total _ Hn) as [n Hb].
    assert (STVector256_add l = Ok (n ++ concat (addBitString 32 <$> l))) as E by (unfold STVector256_add; by rewrite Hb).
    rewrite E. eexists. split; [done|]. intros it. unfold on_fst. by rewrite (vector_read _ _ it Hl E).
  - eexists. split; [done|]. intros it. unfold on_fst, STPathSet_parse, STPathSet_add. rewrite <- app_assoc, paths_read; [done..|].
    rewrite !length_app. lia.
  - eexists. split; [done|]. intros it. unfold on_fst. by rewrite issue_read.
  - destruct H as (Hd & Hi & Hd' & Hi'). destruct (account_written _ Hd) as (b & -> & R). destruct (account_written _ Hd') as (b' & -> & R').
    cbn [bind]. eexists. split; [done|]. intros it. rewrite <- !app_assoc, R. cbn [bind]. rewrite issue_read by done. cbn [bind].
    rewrite R'. cbn [bind]. by rewrite issue_read.
Qed.

(** ** The order of members *)

Lemma insert_field_perm {A} (x : Field * A) l : insert_field x l ≡ₚ x :: l.
Proof. induction l as [|y l IH]; [done|]. cbn. destruct (_ <=? _); [done|]. rewrite IH. constructor. Qed.

Lemma sort_fields_perm {A} (l : list (Field * A)) : sort_fields l ≡ₚ l.
Proof. induction l as [|x l IH]; [done|]. cbn. by rewrite insert_field_perm, IH. Qed.

(** Sorting looks at the fields only, so it commutes with writing the members. *)
Lemma sort_fields_related {A B} (R : Field * A -> Field * B -> Prop) l l' :
  (forall x y, R x y -> x.1 = y.1) -> Forall2 R l l' -> Forall2 R (sort_fields l) (sort_fields l').
Proof.
  intros HR. assert (forall x y m m', R x y -> Forall2 R m m' -> Forall2 R (insert_field x m) (insert_field y m')) as I.
  { intros x y m m' Hxy. induction 1 as [|u v m m' Huv Hm IH]; cbn; [by constructor|].
    rewrite (HR _ _ Hxy), (HR _ _ Huv). destruct (_ <=? _); by repeat constructor. }
  induction 1; cbn; [constructor|by apply I].
Qed.

Lemma adjacent_equal_nodup (fs : STObject) : NoDup fs.*1 -> adjacent_equal fs = false.
Proof.
  induction fs as [|x fs IH]; [done|]. cbn [fmap list_fmap]. intros [Hx Hn]%NoDup_cons. destruct fs as [|y fs]; [done|].
  change (adjacent_equal (x :: y :: fs)) with (bool_decide (x.1 = y.1) || adjacent_equal (y :: fs)).
  rewrite IH by done. rewrite bool_decide_false; [done|]. intros E. apply Hx. rewrite E. by left.
Qed.

(** ** Templates *)

(** The members of an object that were given the form of a template: its fields in its
    order, the required ones present and no default ones with the default value. *)
Definition fits (type : SOTemplate) (fs : STObject) : Prop :=
  Forall2 (fun t x => t.1 = x.1 /\
    match t.2 with
    | soeREQUIRED => present x.2 = true
    | soeDEFAULT => present x.2 = true -> isDefault x.2 = false
    | soeOPTIONAL => True
    end) type fs.

Lemma fits_fields type fs : fits type fs -> fs.*1 = type.*1.
Proof. induction 1 as [|t x type fs [E _] _ IH]; [done|]. cbn. by rewrite E, <- IH. Qed.

Lemma find_field_some f v (l : STObject) :
  NoDup l.*1 -> (f, v) ∈ l -> exists rest, find_field f l = Some (v, rest) /\ l ≡ₚ (f, v) :: rest.
Proof.
  induction l as [|[g w] l IH]; [by intros _ ?%elem_of_nil|]. cbn [fmap list_fmap fst find_field].
  intros [Hg Hn]%NoDup_cons. intros [E|Hin]%elem_of_cons.
  - injection E as <- <-. rewrite bool_decide_true by done. eauto.
  - rewrite bool_decide_false.
    + destruct (IH Hn Hin) as (rest & -> & P). eexists. split; [done|]. rewrite P. constructor.
    + intros ->. apply Hg. apply list_elem_of_fmap. by exists (f, v).
Qed.

Lemma find_field_none f (l : STObject) : f ∉ l.*1 -> find_field f l = None.
Proof.
  induction l as [|[g w] l IH]; [done|]. cbn [fmap list_fmap fst find_field]. intros [Hg Hn]%not_elem_of_cons.
  rewrite bool_decide_false by congruence. by rewrite IH.
Qed.

Definition here (x : Field * STVar) : Prop := present x.2 = true.
Global Instance here_decision x : Decision (here x) := decide (present x.2 = true).

Lemma filter_here_fields fs f : f ∈ (filter here fs).*1 -> f ∈ fs.*1.
Proof. intros ([g v] & -> & [_ H]%list_elem_of_filter)%list_elem_of_fmap. apply list_elem_of_fmap. eauto. Qed.

Lemma filter_here_nodup (P : Field * STVar -> Prop) `{forall x, Decision (P x)} (fs : STObject) :
  NoDup fs.*1 -> NoDup (filter P fs).*1.
Proof. intros Hn. eapply sublist_NoDup; [done|]. apply fmap_sublist, sublist_filter. Qed.

(** The template puts the present members, in whatever order, in their places. *)
Lemma applyTemplate_fits type fs l :
  fits type fs -> NoDup type.*1 -> l ≡ₚ filter here fs -> applyTemplate type l = Ok fs.
Proof.
  intros H. revert l. induction H as [|[f style] [g v] type fs [E Hs] H IH]; intros l Hn P.
  - cbn in P. apply Permutation_nil_r in P. by subst l.
  - cbn [fst snd] in *. subst g. cbn [fmap list_fmap fst] in Hn. apply NoDup_cons in Hn as [Hf Hn].
    rewrite <- (fits_fields _ _ H) in Hf. assert (NoDup (filter here fs).*1) as Hn'.
    { apply filter_here_nodup. by rewrite (fits_fields _ _ H). }
    assert (f ∉ (filter here fs).*1) as Hf' by (intros ?%filter_here_fields; done).
    cbn [applyTemplate]. destruct (decide (here (f, v))) as [Hv|Hv].
    + rewrite (filter_cons_True here) in P by done. destruct (find_field_some f v l) as (rest & -> & P').
      { rewrite P. cbn. by constructor. } { rewrite P. by left. }
      rewrite P' in P. apply Permutation_cons_inv in P. rewrite (IH rest) by done. cbn in Hv.
      destruct style; [done|done|]. by rewrite Hs.
    + rewrite (filter_cons_False here) in P by done. rewrite find_field_none by (by rewrite P). rewrite (IH l) by done.
      unfold here in Hv. cbn in Hv. destruct v; cbn in Hv; [|done..]. by destruct style.
Qed.

(** ** Objects *)

Section Objects.
Context (cfg : Settings) (le : bool) (HC : current cfg).

(** Fields that a member of an object or an element of an array can have. *)
Definition member (f : Field) : Prop :=
  wire_field f /\ known f = true /\ f <> end_of_object /\ f <> end_of_array.

(** The members of an object with a template have its form, the others come in the order
    of their codes. *)
Definition arranged (f : Field) (fs : STObject) : Prop :=
  NoDup fs.*1 /\
  match format_of f inner_formats with
  | Some type => fits type fs
  | None => Forall here fs /\ sort_fields fs = fs
  end.

(** What the bytes of an object give before its template is applied. *)
Definition raw (v : STVar) : STVar :=
  match v with v_object fs => v_object (sort_fields (filter here fs)) | _ => v end.

Definition included (w : bool) (x : Field * STVar) : Prop := present x.2 && shouldInclude w x.1 = true.
#[export] Instance included_decision w x : Decision (included w x) := decide (present x.2 && shouldInclude w x.1 = true).

Lemma getSortedFields_perm w (fs : list (Field * STVar)) : getSortedFields w fs ≡ₚ filter (included w) fs.
Proof.
  unfold getSortedFields. rewrite sort_fields_perm. induction fs as [|x fs IH]; [done|]. cbn [List.filter].
  destruct (present x.2 && shouldInclude w x.1) eqn:E.
  - rewrite (filter_cons_True (included w)) by done. by rewrite IH.
  - rewrite (filter_cons_False (included w)); [done|]. unfold included. by rewrite E.
Qed.

Definition written (x : Field * STVar) (p : Field * list Z) : Prop :=
  x.1 = p.1 /\ exists b, var_add le x.2 = Ok b /\ p.2 = addFieldID x.1 ++ b ++ terminator x.2.

Definition reads (value : Field -> list Z -> result (STVar * list Z)) (x : Field * STVar) : Prop :=
  exists b, var_add le x.2 = Ok b /\ forall it, value x.1 (b ++ terminator x.2 ++ it) = Ok (raw x.2, it).

Lemma arranged_apply f fs : arranged f fs -> applyTemplateFromSField f (sort_fields (filter here fs)) = Ok fs.
Proof.
  intros [Hn H]. unfold applyTemplateFromSField. destruct (format_of f inner_formats) as [type|].
  - apply (applyTemplate_fits _ _ _ H); [|apply sort_fields_perm]. by rewrite <- (fits_fields _ _ H).
  - destruct H as [Hh Hs]. assert (filter here fs = fs) as -> by (clear -Hh; induction Hh as [|x l Hx _ IH];
      [done|rewrite (filter_cons_True here) by done; f_equal; exact IH]). by rewrite Hs.
Qed.

Lemma object_parts_written w fs :
  Forall (fun x => included w x -> exists b, var_add le x.2 = Ok b) fs ->
  exists ps, object_parts le w fs = Ok ps /\ Forall2 written (filter (included w) fs) ps.
Proof.
  induction 1 as [|[f v] fs Hx _ (ps & E & H)]; [by exists []; repeat constructor|]. cbn [object_parts].
  destruct (present v && shouldInclude w f) eqn:Ei.
  - destruct (Hx Ei) as [b Hb]. cbn in Hb. rewrite Hb. cbn [bind]. rewrite E. cbn [bind]. eexists. split; [done|].
    rewrite (filter_cons_True (included w)) by done. constructor; [|done]. split; [done|]. by exists b.
  - exists ps. split; [done|]. rewrite (filter_cons_False (included w)); [done|]. unfold included. cbn. by rewrite Ei.
Qed.

Lemma addFieldID_cons f : exists b r, addFieldID f = b :: r.
Proof. destruct f as [t n]. unfold addFieldID. destruct (t <? 16), (n <? 16); unfold add8; cbn; eauto. Qed.

Lemma fields_loop_step value n f it : wire_field f ->
  fields_loop value (S n) (addFieldID f ++ it) =
    if bool_decide (f = end_of_object) then Ok ([], true, it)
    else if bool_decide (f = end_of_array) then Throw runtime_error
    else if negb (known f) then Throw runtime_error
    else
      let* (v, it) := value f it in
      let* v := match v with
                | v_object fs => let* fs := applyTemplateFromSField f fs in Ok (v_object fs)
                | v => Ok v
                end in
      let* (fs, ended, it) := fields_loop value n it in
      Ok ((f, v) :: fs, ended, it).
Proof.
  intros Hf. destruct (addFieldID_cons f) as (b & r & E). pose proof (addFieldID_read f it Hf) as R.
  rewrite E in *. cbn [app fields_loop] in *. rewrite R. done.
Qed.

(** An end of the bytes of an object: nothing, or the marker and other bytes. *)
Definition object_end (tail it : list Z) (ended : bool) : Prop :=
  (tail = [] /\ it = [] /\ ended = false) \/ (tail = addFieldID end_of_object ++ it /\ ended = true).

Definition arranged_var (f : Field) (v : STVar) : Prop := match v with v_object fs => arranged f fs | _ => True end.

Lemma fields_loop_read value l ps tail it ended :
  Forall (fun x => member x.1 /\ reads value x /\ arranged_var x.1 x.2) l -> Forall2 written l ps -> object_end tail it ended ->
  forall n, (length (concat (snd <$> ps) ++ tail) <= n)%nat -> fields_loop value n (concat (snd <$> ps) ++ tail) = Ok (l, ended, it).
Proof.
  intros Hl Hw He. revert Hl. induction Hw as [|[f v] [g p] l ps W _ IH]; intros Hl n Hn.
  - cbn [fmap list_fmap concat app] in *. destruct He as [(-> & -> & ->)|[-> ->]]; [by destruct n|].
    destruct (addFieldID_cons end_of_object) as (b & r & E). destruct n as [|n]; [by rewrite E in Hn; cbn in Hn; lia|].
    rewrite fields_loop_step by done. done.
  - apply Forall_cons in Hl as [((Hf & Hk & H1 & H2) & (b & Hb & R) & Ha) Hl]. destruct W as (E & b' & Hb' & Ep). cbn [fst snd] in *.
    subst g p. rewrite Hb in Hb'. injection Hb' as <-. cbn [fmap list_fmap concat snd] in *.
    rewrite <- !app_assoc in *.
    destruct (addFieldID_cons f) as (x & r & E). destruct n as [|n]; [rewrite E in Hn; cbn in Hn; lia|].
    rewrite fields_loop_step by done. rewrite !bool_decide_false by done. rewrite Hk. cbn [negb]. rewrite R. cbn [bind].
    assert (fields_loop value n (concat (snd <$> ps) ++ tail) = Ok (l, ended, it)) as Er.
    { apply IH; [done|]. rewrite E in Hn. cbn in Hn. rewrite !length_app in *. lia. }
    destruct v as [| |fs|]; cbn [raw bind]; [by rewrite Er..| |by rewrite Er].
    rewrite arranged_apply by done. cbn [bind]. by rewrite Er.
Qed.

(** The members of an object, in any order, are read back in the order of their codes. *)
Lemma object_read value w fs : NoDup fs.*1 ->
  Forall (fun x => present x.2 = true -> member x.1 /\ reads value x /\ arranged_var x.1 x.2) fs ->
  exists b, object_add le w fs = Ok b /\
  forall tail it ended, object_end tail it ended ->
    object_set value (b ++ tail) = Ok (sort_fields (filter (included w) fs), ended, it).
Proof.
  intros Hn Hfs. assert (Forall (fun x => member x.1 /\ reads value x /\ arranged_var x.1 x.2) (filter (included w) fs)) as Hl.
  { apply Forall_forall. intros x [Hi Hx]%list_elem_of_filter. rewrite Forall_forall in Hfs. apply (Hfs x Hx).
    by apply andb_true_iff in Hi as [? _]. }
  destruct (object_parts_written w fs) as (ps & E & Hw).
  { eapply Forall_impl; [exact Hfs|]. intros x H [Hp _]%andb_true_iff. destruct (H Hp) as (_ & (b & Hb & _) & _). eauto. }
  apply (sort_fields_related written) in Hw; [|by intros x y [? _]]. unfold object_add. rewrite E. cbn [bind]. eexists. split; [done|].
  intros tail it ended He. unfold object_set.
  rewrite (fields_loop_read value (sort_fields (filter (included w) fs)) (sort_fields ps) tail it ended); [cbn [bind]|by rewrite sort_fields_perm|exact Hw|exact He|lia].
  rewrite adjacent_equal_nodup; [done|]. rewrite getSortedFields_perm. apply filter_here_nodup. rewrite sort_fields_perm. by apply filter_here_nodup.
Qed.

(** ** Arrays and nested objects *)

Fixpoint elements_add (es : list (Field * STObject)) : result (list Z) :=
  match es with
  | [] => Ok []
  | (f, fs) :: es =>
      let* b := object_add le true fs in
      let* rest := elements_add es in
      Ok (addFieldID f ++ b ++ addFieldID end_of_object ++ rest)
  end.

Lemma var_add_object fs : var_add le (v_object fs) = object_add le true fs.
Proof.
  unfold object_add. cbn [var_add]. f_equal. induction fs as [|[f v] fs IH]; [done|]. cbn [object_parts].
  destruct (present v && shouldInclude true f); [|done]. destruct (var_add le v); [|done]. cbn [bind]. by rewrite IH.
Qed.

Lemma var_add_array es : var_add le (v_array es) = elements_add es.
Proof.
  cbn [var_add]. induction es as [|[f fs] es IH]; [done|]. cbn [elements_add]. rewrite <- var_add_object, <- IH. cbn [var_add].
  by destruct (_ fs).
Qed.

Definition members_ok (P : Field -> STVar -> Prop) (fs : STObject) : Prop :=
  Forall (fun x => present x.2 = true -> member x.1 /\ P x.1 x.2) fs.

(** A member in order, at most [levels] deep: the depth that a reader admits is ten. *)
Fixpoint var_ok (levels : nat) (f : Field) (v : STVar) : Prop :=
  match levels with
  | O => False
  | S levels =>
      match v with
      | v_absent => False
      | v_leaf l => leaf_ok l /\ getSType l = f.1
      | v_object fs => f.1 = STI_OBJECT /\ members_ok (var_ok levels) fs /\ arranged f fs
      | v_array es =>
          f.1 = STI_ARRAY /\
          match levels with
          | O => es = []
          | S levels =>
              Forall (fun e => member e.1 /\ e.1.1 = STI_OBJECT /\ members_ok (var_ok levels) e.2 /\ arranged e.1 e.2) es
          end
      end
  end.

Lemma included_here (fs : list (Field * STVar)) P : members_ok P fs -> filter (included true) fs = filter here fs.
Proof.
  induction 1 as [|[f v] fs Hx H IH]; [done|]. destruct (decide (present v = true)) as [Hv|Hv].
  - rewrite (filter_cons_True here) by done. rewrite (filter_cons_True (included true)); [by f_equal|].
    destruct (Hx Hv) as [([_ Hf] & _) _]. unfold included, shouldInclude. cbn [fst snd] in *. rewrite Hv. cbn [orb andb].
    rewrite andb_true_r. apply Z.ltb_lt. lia.
  - rewrite (filter_cons_False here) by done. rewrite (filter_cons_False (included true)); [done|].
    unfold included. cbn [snd]. by destruct (present v).
Qed.

Lemma elements_loop_step object n f it : wire_field f ->
  elements_loop object (S n) (addFieldID f ++ it) =
    if bool_decide (f = end_of_array) then Ok ([], it)
    else if bool_decide (f = end_of_object) then Throw runtime_error
    else if negb (known f) then Throw runtime_error
    else if negb (f.1 =? STI_OBJECT) then Throw runtime_error
    else
      let* (fs, it) := object it in
      let* fs := applyTemplateFromSField f fs in
      let* (es, it) := elements_loop object n it in
      Ok ((f, fs) :: es, it).
Proof.
  intros Hf. destruct (addFieldID_cons f) as (b & r & E). pose proof (addFieldID_read f it Hf) as R.
  rewrite E in *. cbn [app elements_loop] in *. rewrite R. done.
Qed.

Lemma elements_loop_read object es :
  Forall (fun e => member e.1 /\ e.1.1 = STI_OBJECT /\ arranged e.1 e.2 /\
    exists b, object_add le true e.2 = Ok b /\
    forall it, object (b ++ addFieldID end_of_object ++ it) = Ok (sort_fields (filter here e.2), it)) es ->
  exists b, elements_add es = Ok b /\
  forall it n, (length (b ++ addFieldID end_of_array ++ it) <= n)%nat ->
    elements_loop object n (b ++ addFieldID end_of_array ++ it) = Ok (es, it).
Proof.
  induction 1 as [|[f fs] es ((Hf & Hk & H1 & H2) & Ht & Ha & b & Hb & R) _ (b' & E & IH)].
  - exists []. split; [done|]. intros it n Hn. cbn [app] in *. destruct (addFieldID_cons end_of_array) as (x & r & E).
    destruct n as [|n]; [by rewrite E in Hn; cbn in Hn; lia|]. rewrite elements_loop_step by done. done.
  - cbn [elements_add fst snd] in *. rewrite Hb. cbn [bind]. rewrite E. cbn [bind]. eexists. split; [done|]. intros it n Hn.
    rewrite <- !app_assoc in *. destruct (addFieldID_cons f) as (x & r & E').
    destruct n as [|n]; [by rewrite E' in Hn; cbn in Hn; lia|]. rewrite elements_loop_step by done. rewrite !bool_decide_false by done.
    rewrite Hk, Ht, R. cbn [negb bind]. change (STI_OBJECT =? STI_OBJECT) with true. cbn [negb bind]. rewrite arranged_apply by done.
    cbn [bind]. rewrite IH; [done|]. rewrite E' in Hn. cbn [app length] in Hn. rewrite !length_app in *. lia.
Qed.

Lemma members_reads n fs :
  (forall f v, var_ok n f v -> reads (var_parse cfg le n) (f, v)) -> members_ok (var_ok n) fs ->
  Forall (fun x => present x.2 = true -> member x.1 /\ reads (var_parse cfg le n) x /\ arranged_var x.1 x.2) fs.
Proof.
  intros IH Hm. eapply Forall_impl; [exact Hm|]. clear Hm. intros [f v] H Hp. destruct (H Hp) as [Hm Hv]. splits; [done|by apply IH|].
  cbn [fst snd] in *. destruct n; [done|]. destruct v; cbn in Hv |- *; tauto.
Qed.

(** A member in order is written and read back. *)
Lemma var_read n f v : var_ok n f v -> reads (var_parse cfg le n) (f, v).
Proof.
  revert f v. induction n as [n IH] using lt_wf_ind. intros f v H. destruct n as [|n]; [done|].
  destruct v as [|l|fs|es]; cbn [var_ok] in H; [done|..]; unfold reads; cbn [fst snd raw terminator var_parse].
  - destruct H as [Hl Ht]. destruct (leaf_read cfg le l HC Hl) as (b & Hb & R). exists b. split; [done|]. intros it. cbn [app].
    rewrite <- Ht. assert ((getSType l =? STI_OBJECT) = false /\ (getSType l =? STI_ARRAY) = false) as [-> ->] by (by destruct l).
    by rewrite R.
  - destruct H as (Ht & Hm & Ha). rewrite Ht. change (STI_OBJECT =? STI_OBJECT) with true. cbv iota.
    destruct (object_read (var_parse cfg le n) true fs) as (b & Hb & R); [apply Ha|apply members_reads; [exact (IH n ltac:(lia))|done]|].
    exists b. rewrite var_add_object. split; [done|]. intros it. rewrite (R _ it true) by (by right). cbn [bind].
    by rewrite (included_here _ _ Hm).
  - destruct H as (Ht & Hes). rewrite Ht. change (STI_ARRAY =? STI_OBJECT) with false. change (STI_ARRAY =? STI_ARRAY) with true. cbv iota.
    rewrite var_add_array. edestruct (elements_loop_read) as (b & Hb & R); [|exists b; split; [done|]; intros it; rewrite R by lia; done].
    destruct n as [|n]; [by subst es|]. eapply Forall_impl; [exact Hes|]. intros [g gs] (Hg & Ho & Hm & Ha). cbn [fst snd] in *.
    splits; [done..|]. destruct (object_read (var_parse cfg le n) true gs) as (c & Hc & Rc);
      [apply Ha|apply members_reads; [exact (IH n ltac:(lia))|done]|].
    exists c. split; [done|]. intros it. rewrite (Rc _ it true) by (by right). cbn [bind]. by rewrite (included_here _ _ Hm).
Qed.

(** ** Transactions *)

(** A transaction in order: its members have the form of its type. *)
Definition tx_ok (type : Z) (fs : STObject) : Prop :=
  exists format, getTxFormat type = Some format /\ fits format fs /\ members_ok (var_ok 10) fs /\
  (SF.sfTransactionType, v_leaf (STUInt16 type)) ∈ fs.

(** No format names a field twice. *)
Lemma formats_nodup type format : getTxFormat type = Some format -> NoDup format.*1.
Proof.
  unfold getTxFormat, format_of. destruct (find _ tx_fields) as [[t fields]|] eqn:E; [|done]. cbn. intros [= <-].
  apply find_some in E as [Hin _]. assert (forallb (fun x => bool_decide (NoDup (x.2 ++ commonFields).*1)) tx_fields = true) as F by (by vm_compute).
  rewrite forallb_forall in F. specialize (F _ Hin). by apply bool_decide_eq_true in F.
Qed.

Lemma tx_ok_nodup type fs : tx_ok type fs -> NoDup fs.*1.
Proof. intros (format & Hf & Hfs & _). rewrite (fits_fields _ _ Hfs). by apply (formats_nodup type). Qed.

(** The bytes of a transaction, with or without the fields that are not signed, give back
    the members that were written. *)
Lemma tx_written w type (fs : list (Field * STVar)) : tx_ok type fs ->
  exists b, object_add le w fs = Ok b /\ object_parse cfg le b = Ok (sort_fields (filter (included w) fs), false, []).
Proof.
  intros H. pose proof (tx_ok_nodup _ _ H) as Hn. destruct H as (format & _ & _ & Hm & _).
  destruct (object_read (var_parse cfg le 10) w fs Hn) as (b & Hb & R); [apply members_reads; [apply var_read|done]|].
  exists b. split; [done|]. rewrite <- (app_nil_r b). apply R. by left.
Qed.

(** C16. A transaction in order is written and, unless it is too short or too long, read back
    as it was: its type, every field and every nested object; the identifier is the hash of
    the bytes that were read. *)
Theorem transaction_roundtrip type (fs : list (Field * STVar)) : tx_ok type fs ->
  exists b, object_add le true fs = Ok b /\
  (txMinSizeBytes <= zlen b <= txMaxSizeBytes ->
   STTx_parse cfg le b = Ok (type, fs, add32 HashPrefix_transactionID ++ b)).
Proof.
  intros H. destruct (tx_written true _ _ H) as (b & Hb & R). exists b. split; [done|]. intros Hl. unfold STTx_parse. rewrite R.
  destruct (Z.ltb_spec (zlen b) txMinSizeBytes); [lia|]. destruct (Z.ltb_spec txMaxSizeBytes (zlen b)); [lia|]. cbn [orb bind].
  pose proof (tx_ok_nodup _ _ H) as Hn. destruct H as (format & Hf & Hfs & Hm & Ht). rewrite (included_here _ _ Hm).
  unfold getFieldU16. destruct (find_field_some SF.sfTransactionType (v_leaf (STUInt16 type)) (sort_fields (filter here fs))) as (rest & -> & _).
  { rewrite sort_fields_perm. by apply filter_here_nodup. } { rewrite sort_fields_perm. by apply list_elem_of_filter. }
  cbn [bind]. rewrite Hf, (applyTemplate_fits _ _ _ Hfs); [|by apply (formats_nodup type)|apply sort_fields_perm].
  cbn [bind]. unfold id_data. by rewrite Hb.
Qed.

Lemma written_same w type type' (fs fs' : list (Field * STVar)) : tx_ok type fs -> tx_ok type' fs' ->
  object_add le w fs = object_add le w fs' -> forall x, included w x -> x ∈ fs <-> x ∈ fs'.
Proof.
  intros H H' E x Hx. destruct (tx_written w _ _ H) as (b & Hb & R), (tx_written w _ _ H') as (b' & Hb' & R').
  rewrite Hb, Hb' in E. injection E as <-. rewrite R in R'. injection R' as E.
  assert (filter (included w) fs ≡ₚ filter (included w) fs') as P by (by rewrite <- (sort_fields_perm (filter _ fs)), E, sort_fields_perm).
  transitivity (x ∈ filter (included w) fs); [|rewrite P]; rewrite list_elem_of_filter; tauto.
Qed.

Lemma field_unique f v v' (fs : STObject) : NoDup fs.*1 -> (f, v) ∈ fs -> (f, v') ∈ fs -> v = v'.
Proof.
  intros Hn Hv Hv'. destruct (find_field_some _ _ _ Hn Hv) as (r & E & _), (find_field_some _ _ _ Hn Hv') as (r' & E' & _). congruence.
Qed.

(** What two transactions with the same signing data share. *)
Definition same_signed (fs fs' : STObject) : Prop := forall f v, f ∉ not_signing -> (f, v) ∈ fs <-> (f, v) ∈ fs'.

Lemma signed_same type type' fs fs' : tx_ok type fs -> tx_ok type' fs' ->
  object_add le false fs = object_add le false fs' -> type = type' /\ same_signed fs fs'.
Proof.
  intros H H' E. pose proof (written_same false _ _ _ _ H H' E) as S. pose proof (tx_ok_nodup _ _ H) as Hn.
  pose proof (tx_ok_nodup _ _ H') as Hn'. destruct H as (format & Hf & Hfs & Hm & Ht), H' as (format' & Hf' & Hfs' & Hm' & Ht').
  assert (type = type') as <-.
  { apply S in Ht; [|done]. pose proof (field_unique _ _ _ _ Hn' Ht Ht') as Eq. by injection Eq. }
  split; [done|]. rewrite Hf in Hf'. injection Hf' as <-.
  assert (forall gs gs' f v, members_ok (var_ok 10) gs' -> NoDup gs.*1 -> gs.*1 = gs'.*1 -> (forall x, included false x -> x ∈ gs <-> x ∈ gs') ->
    members_ok (var_ok 10) gs -> f ∉ not_signing -> (f, v) ∈ gs -> (f, v) ∈ gs') as G.
  { intros gs gs' f v Gm' Gn Ef GS Gm Hs Hin. assert (f ∈ gs'.*1) as Hin' by (rewrite <- Ef; apply list_elem_of_fmap; by exists (f, v)).
    apply list_elem_of_fmap in Hin' as ([g v'] & E1 & Hin'). cbn in E1. subst g.
    assert (forall hs u, members_ok (var_ok 10) hs -> (f, u) ∈ hs -> present u = true -> included false (f, u)) as I.
    { intros hs u Hh Hu Hp. unfold members_ok in Hh. rewrite Forall_forall in Hh. destruct (Hh _ Hu Hp) as [([_ Hw] & _) _].
      unfold included, shouldInclude. cbn [fst snd] in *. rewrite Hp, bool_decide_false by done. cbn. rewrite andb_true_r. apply Z.ltb_lt. lia. }
    destruct (present v) eqn:Hp; [apply GS; [by apply (I gs)|done]|]. destruct (present v') eqn:Hp'.
    - pose proof Hin' as Hin2. apply GS in Hin2; [|by apply (I gs')]. rewrite (field_unique _ _ _ _ Gn Hin Hin2). done.
    - by destruct v, v'. }
  assert (fs.*1 = fs'.*1) as Ef by (by rewrite (fits_fields _ _ Hfs), (fits_fields _ _ Hfs')).
  intros f v Hs. split; [apply G|apply G]; try done. intros x Hx. by rewrite S.
Qed.

Lemma ok_inj {A} (x y : A) : Ok x = Ok y -> x = y.
Proof. congruence. Qed.

(** C17. What is signed determines the transaction: two transactions in order that give the
    same bytes to sign, alone or as one of several signers, have the same type and agree in
    every field that a signature covers; the signers of several are the same too, and no
    bytes are signed both ways. *)
Theorem signature_covers type type' fs fs' : tx_ok type fs -> tx_ok type' fs' ->
  (getSigningData le fs = getSigningData le fs' -> type = type' /\ same_signed fs fs') /\
  (forall s s', 0 <= s < 2 ^ 160 -> 0 <= s' < 2 ^ 160 ->
     buildMultiSigningData le fs s = buildMultiSigningData le fs' s' -> type = type' /\ same_signed fs fs' /\ s = s') /\
  (forall s, getSigningData le fs <> buildMultiSigningData le fs' s).
Proof.
  intros H H'. destruct (tx_written false _ _ H) as (b & Hb & _), (tx_written false _ _ H') as (b' & Hb' & _).
  unfold getSigningData, buildMultiSigningData. rewrite Hb, Hb'. cbn [bind]. splits.
  - intros E%ok_inj%app_inv_head. apply signed_same; [done..|]. congruence.
  - intros s s' Hs Hs' E%ok_inj%app_inv_head. apply app_inj_2 in E as [E Es]; [|unfold addBitString; by rewrite !be_bytes_length].
    apply (f_equal be_number) in Es. unfold addBitString in Es. rewrite !be_number_bytes_small in Es by done.
    edestruct (signed_same type type' fs fs') as [? ?]; [done..|congruence|]. done.
  - intros s E. injection E as E. by vm_compute in E.
Qed.

(** ** What was read *)

Lemma find_field_inv f v (l rest : STObject) : find_field f l = Some (v, rest) -> l ≡ₚ (f, v) :: rest.
Proof.
  revert rest. induction l as [|[g w] l IH]; [done|]. intros rest. cbn [find_field]. destruct (bool_decide_reflect (g = f)) as [->|_].
  - by intros [= -> ->].
  - destruct (find_field f l) as [[u r]|]; [|done]. intros [= -> <-]. rewrite (IH r) by done. constructor.
Qed.

(** A template leaves nothing out but fields that have no encoding. *)
Lemma applyTemplate_members type l r : applyTemplate type l = Ok r -> Forall here l ->
  fits type r /\ (forall x, x ∈ l -> isDiscardable x.1 = true \/ x ∈ r) /\ (forall x, x ∈ r -> here x -> x ∈ l).
Proof.
  revert l r. induction type as [|[f style] type IH]; intros l r H Hl; cbn [applyTemplate] in H.
  - destruct (forallb _ l) eqn:E; [|done]. injection H as <-. rewrite forallb_forall in E. splits; [constructor| |by intros x ?%elem_of_nil].
    intros x Hx. left. apply E. by apply list_elem_of_In.
  - destruct (find_field f l) as [[v rest]|] eqn:E.
    + pose proof (find_field_inv _ _ _ _ E) as P. rewrite P in Hl. apply Forall_cons in Hl as [Hv Hl].
      assert (exists r', r = (f, v) :: r' /\ applyTemplate type rest = Ok r' /\ (style = soeDEFAULT -> isDefault v = false)) as (r' & -> & Hr & Hd).
      { destruct style; [| |destruct (isDefault v) eqn:Ed; [done|]]; bind_inv H; injection H as <-; eexists; splits; eauto; done. }
      destruct (IH _ _ Hr Hl) as (F & I & O). splits.
      * constructor; [|done]. split; [done|]. destruct style; [exact Hv|done|]. intros _. by apply Hd.
      * intros x Hx. rewrite P in Hx. apply elem_of_cons in Hx as [->|Hx]; [by right; left|]. destruct (I x Hx); [by left|by right; right].
      * intros x [->|Hx]%elem_of_cons Hh; rewrite P; [by left|right; by apply O].
    + assert (exists r', r = (f, v_absent) :: r' /\ applyTemplate type l = Ok r' /\ style <> soeREQUIRED) as (r' & -> & Hr & Hs).
      { destruct style; [done|..]; bind_inv H; injection H as <-; eexists; splits; eauto; done. }
      destruct (IH _ _ Hr Hl) as (F & I & O). splits.
      * constructor; [|done]. split; [done|]. by destruct style.
      * intros x Hx. destruct (I x Hx); [by left|by right; right].
      * intros x [->|Hx]%elem_of_cons Hh; [done|by apply O].
Qed.

Definition code_bound (f : Field) : Prop := 0 <= f.1 < 65536 /\ 0 <= f.2 < 65536.

Lemma field_code_inj f g : code_bound f -> code_bound g -> field_code f = field_code g -> f = g.
Proof.
  destruct f as [t n], g as [t' n']. intros [Ht Hn] [Ht' Hn']. unfold field_code. cbn [fst snd] in *.
  rewrite !Z.shiftl_mul_pow2, !lor_low by lia. intros E. f_equal; lia.
Qed.

Lemma known_bound f : known f = true -> code_bound f.
Proof.
  intros H%bool_decide_eq_true. assert (Forall code_bound sfields) as F; [|rewrite Forall_forall in F; by apply F].
  apply (bool_decide_unpack _). by vm_compute.
Qed.

Lemma sort_fields_sorted {A} (l : list (Field * A)) : Sorted (fun x y => field_code x.1 <= field_code y.1) (sort_fields l).
Proof.
  induction l as [|x l IH]; [constructor|]. cbn [sort_fields foldr]. change (foldr insert_field [] l) with (sort_fields l).
  induction IH as [|y m Hm IH Hy]; cbn [insert_field]; [by repeat constructor|]. destruct (Z.leb_spec (field_code x.1) (field_code y.1)).
  - by repeat constructor.
  - constructor; [done|]. destruct m as [|z m]; cbn [insert_field]; [constructor; lia|]. inversion Hy; subst.
    destruct (_ <=? _); constructor; lia.
Qed.

(** The check on neighbours after sorting finds every field that comes twice. *)
Lemma adjacent_equal_exact (l : STObject) : Sorted (fun x y => field_code x.1 <= field_code y.1) l ->
  Forall (fun x => known x.1 = true) l -> adjacent_equal l = false -> NoDup l.*1.
Proof.
  intros S Hk Ha.
  assert (Sorted (fun x y => field_code x.1 < field_code y.1) l) as S'.
  { induction S as [|x m Sm IH Hx]; [constructor|]. apply Forall_cons in Hk as [Kx Km]. destruct m as [|y m]; [by repeat constructor|].
    change (bool_decide (x.1 = y.1) || adjacent_equal (y :: m) = false) in Ha. apply orb_false_iff in Ha as [Hne Ha].
    apply bool_decide_eq_false in Hne. constructor; [by apply IH|]. constructor. inversion Hx; subst. apply Forall_cons in Km as [Ky _].
    assert (field_code x.1 <> field_code y.1); [|lia]. intros E. apply Hne. by apply field_code_inj; [apply known_bound..|]. }
  apply Sorted_StronglySorted in S'; [|intros x y z; lia]. clear -S'. induction S' as [|x m Sm IH Hx]; [constructor|].
  cbn. constructor; [|done]. intros ([f v] & E & Hin)%list_elem_of_fmap. rewrite Forall_forall in Hx. specialize (Hx _ Hin).
  rewrite E in Hx. cbn in Hx. lia.
Qed.

Lemma var_parse_present n f it v it' : var_parse cfg le n f it = Ok (v, it') -> present v = true.
Proof.
  destruct n as [|n]; [done|]. cbn [var_parse]. intros H. destruct (f.1 =? STI_OBJECT); [|destruct (f.1 =? STI_ARRAY)].
  - bind_inv H. destruct a as [[fs e] r]. by injection H as <- <-.
  - bind_inv H. destruct a as [es r]. by injection H as <- <-.
  - bind_inv H. destruct a as [l r]. by injection H as <- <-.
Qed.

Lemma fields_loop_known value n it fs ended it' :
  (forall f it v it', value f it = Ok (v, it') -> present v = true) -> fields_loop value n it = Ok (fs, ended, it') ->
  Forall (fun x => known x.1 = true /\ here x) fs.
Proof.
  intros Hv. revert it fs ended it'. induction n as [|n IH]; intros it fs ended it' H.
  - destruct it; [|done]. injection H as <- <- <-. constructor.
  - destruct it as [|c it]; [injection H as <- <- <-; constructor|]. cbn [fields_loop] in H. bind_inv H. destruct a as [f r].
    destruct (bool_decide (f = end_of_object)); [injection H as <- <- <-; constructor|].
    destruct (bool_decide (f = end_of_array)); [done|]. destruct (known f) eqn:Hk; [|done]. cbn [negb] in H.
    bind_inv H. destruct a as [v r']. bind_inv H. bind_inv H. destruct a0 as [[fs' e'] r'']. injection H as <- <- <-.
    constructor; [|by eapply IH]. split; [done|]. apply Hv in Hb0. unfold here. cbn [snd].
    destruct v; [done|by injection Hb1 as <-| |by injection Hb1 as <-]. bind_inv Hb1. by injection Hb1 as <-.
Qed.

(** C19. A transaction that is read has a size within the bounds and a type of the table;
    its bytes name no field twice; it has exactly the fields of its type in their order,
    the required ones present and no default one with its default value; and every member
    that has an encoding was kept as it was read. *)
Theorem transaction_read_fits b type fs data : STTx_parse cfg le b = Ok (type, fs, data) ->
  txMinSizeBytes <= zlen b <= txMaxSizeBytes /\
  exists format members rest, getTxFormat type = Some format /\ fits format fs /\
    object_parse cfg le b = Ok (members, false, rest) /\ NoDup (filter (included true) members).*1 /\
    (forall x, x ∈ members -> isDiscardable x.1 = true \/ x ∈ fs) /\ (forall x, x ∈ fs -> here x -> x ∈ members).
Proof.
  unfold STTx_parse. intros H. destruct (_ || _) eqn:E; [done|]. apply orb_false_iff in E as [E1%Z.ltb_ge E2%Z.ltb_ge]. split; [lia|].
  bind_inv H. destruct a as [[members ended] rest]. destruct ended; [done|]. bind_inv H. destruct (getTxFormat a) as [format|] eqn:Ef; [|done].
  bind_inv H. bind_inv H. injection H as <- <- <-. exists format, members, rest. pose proof Hb as Hp. unfold object_parse, object_set in Hp. bind_inv Hp.
  destruct a2 as [[fs' ended] r]. destruct (adjacent_equal (getSortedFields true fs')) eqn:Ea; [done|]. injection Hp as -> -> ->.
  apply fields_loop_known in Hb3; [|by intros; eapply var_parse_present].
  destruct (applyTemplate_members format members a0) as (F & I & O); [done|eapply Forall_impl; [exact Hb3|]; by intros x [? ?]|].
  splits; try done. rewrite <- getSortedFields_perm. apply adjacent_equal_exact; [apply sort_fields_sorted| |done]. rewrite getSortedFields_perm.
  apply Forall_forall. intros x [_ Hx]%list_elem_of_filter. rewrite Forall_forall in Hb3. by apply Hb3.
Qed.

End Objects.

(** ** The bounds on the loops are enough *)

Definition shrinks {A} (m : list Z -> result (A * list Z)) : Prop :=
  forall it a it', m it = Ok (a, it') -> (length it' <= length it)%nat.

Create HintDb shrink.

(** Follows a reader to its results and gathers how much each step left over. *)
Ltac shrink :=
  repeat match goal with
  | H : bind _ _ = Ok _ |- _ => apply bind_ok in H; destruct H as (? & ? & H)
  | p : (_ * _)%type |- _ => destruct p
  | H : (if ?b then _ else _) = Ok _ |- _ => destruct b
  | H : Throw _ = Ok _ |- _ => discriminate H
  | H : Ok _ = Ok _ |- _ => injection H as <- <-
  | H : ?m ?it = Ok (_, ?r) |- _ =>
      match m with Ok => fail 1 | _ =>
        let S := fresh "S" in assert (shrinks m) as S by (eauto with shrink); apply S in H; clear S end
  end.

Lemma getRaw_shrinks n : shrinks (getRaw n).
Proof. intros it b r H. unfold getRaw in H. destruct (_ <? _)%nat; [done|]. injection H as <- <-. rewrite length_drop. lia. Qed.
#[export] Hint Resolve getRaw_shrinks : shrink.

Lemma get_number_shrinks n : shrinks (get_number n).
Proof. intros it b r H. unfold get_number in H. by shrink. Qed.
#[export] Hint Resolve get_number_shrinks : shrink.
#[export] Hint Unfold get8 get16 get32 get64 get160 get192 : shrink.

Lemma get8_less it b r : get8 it = Ok (b, r) -> (length r < length it)%nat.
Proof.
  unfold get8, get_number, getRaw. destruct it as [|c it]; [done|]. cbn. intros [= _ <-]. rewrite drop_0. lia.
Qed.

Lemma getFieldID_less it f r : getFieldID it = Ok (f, r) -> (length r < length it)%nat.
Proof.
  unfold getFieldID. intros H. bind_inv H. destruct a as [b it1]. apply get8_less in Hb.
  bind_inv H. destruct a as [t it2]. bind_inv H. destruct a as [n it3]. injection H as <- <-.
  assert (length it2 <= length it1)%nat by (destruct (_ =? 0) in Hb0; by shrink).
  assert (length it3 <= length it2)%nat by (destruct (_ =? 0) in Hb1; by shrink). lia.
Qed.

Lemma geti32_shrinks : shrinks geti32.
Proof. intros it a r H. unfold geti32 in H. by shrink. Qed.
Lemma geti64_shrinks : shrinks geti64.
Proof. intros it a r H. unfold geti64 in H. by shrink. Qed.
Lemma getVL_shrinks : shrinks getVL.
Proof. intros it a r H. unfold getVL, getVLDataLength in H. shrink; lia. Qed.
#[export] Hint Resolve geti32_shrinks geti64_shrinks getVL_shrinks : shrink.

Lemma STAmount_shrinks cfg : shrinks (STAmount_parse cfg).
Proof. intros it a r H. unfold STAmount_parse in H. shrink; lia. Qed.
Lemma STNumber_shrinks md : shrinks (STNumber_parse md).
Proof. intros it a r H. unfold STNumber_parse in H. shrink; lia. Qed.
Lemma STIssue_shrinks le : shrinks (STIssue_parse le).
Proof. intros it a r H. unfold STIssue_parse in H. shrink; lia. Qed.
Lemma STAccount_shrinks : shrinks STAccount_parse.
Proof. intros it a r H. unfold STAccount_parse in H. shrink; lia. Qed.
Lemma STVector256_shrinks : shrinks STVector256_parse.
Proof. intros it a r H. unfold STVector256_parse in H. shrink; lia. Qed.
Lemma get_if_shrinks b : shrinks (get_if b).
Proof. intros it a r H. unfold get_if in H. shrink; lia. Qed.
#[export] Hint Resolve STAmount_shrinks STNumber_shrinks STIssue_shrinks STAccount_shrinks STVector256_shrinks get_if_shrinks : shrink.

Lemma paths_loop_shrinks n path : shrinks (paths_loop n path).
Proof.
  revert path. induction n as [|n IH]; intros path it a r H; [done|]. cbn [paths_loop] in H.
  assert (forall p, shrinks (paths_loop n p)) by exact IH. shrink; lia.
Qed.
#[export] Hint Resolve paths_loop_shrinks : shrink.

Lemma paths_loop_bound n m path it : (length it < n)%nat -> (length it < m)%nat -> paths_loop n path it = paths_loop m path it.
Proof.
  revert m path it. induction n as [|n IH]; intros m path it Hn Hm; [lia|]. destruct m as [|m]; [lia|]. cbn [paths_loop].
  destruct (get8 it) as [[t r]|] eqn:E; [|done]. apply get8_less in E. cbn [bind]. destruct (_ || _).
  - destruct (bool_decide _); [done|]. destruct (t =? typeNone); [done|]. by rewrite (IH m) by lia.
  - destruct (negb _); [done|].
    destruct (get_if _ r) as [[x1 r1]|] eqn:E1; [|done]. apply get_if_shrinks in E1. cbn [bind].
    destruct (get_if _ r1) as [[x2 r2]|] eqn:E2; [|done]. apply get_if_shrinks in E2. cbn [bind].
    destruct (get_if _ r2) as [[x3 r3]|] eqn:E3; [|done]. apply get_if_shrinks in E3. cbn [bind]. apply IH; lia.
Qed.

Lemma on_fst_shrinks {A B} (k : A -> B) m : shrinks m -> shrinks (fun it => on_fst k (m it)).
Proof. intros Hm it a r H. unfold on_fst in H. bind_inv H. destruct a0 as [x r']. injection H as <- <-. by eapply Hm. Qed.

Lemma leaf_shrinks cfg le id : shrinks (leaf_parse cfg le id).
Proof.
  intros it a r. unfold leaf_parse, STPathSet_parse.
  repeat (destruct (id =? _); [intros H; first [revert H; by (apply (on_fst_shrinks _ _); eauto with shrink)
    | unfold on_fst in H; shrink; lia]|]). done.
Qed.

Lemma fields_loop_shrinks value n : (forall f, shrinks (value f)) -> shrinks (fun it =>
  let* (fs, ended, it) := fields_loop value n it in Ok ((fs, ended), it)).
Proof.
  intros Hv. induction n as [|n IH]; intros it a r H.
  - destruct it; [|done]. injection H as <- <-. done.
  - destruct it as [|c it]; [by injection H as <- <-|]. cbn [fields_loop] in H. bind_inv H. destruct a0 as [[fs e] r0]. injection H as <- <-.
    bind_inv Hb. destruct a as [f r1]. apply getFieldID_less in Hb0. destruct (bool_decide _); [injection Hb as <- <- <-; lia|].
    destruct (bool_decide _); [done|]. destruct (negb _); [done|]. bind_inv Hb. destruct a as [v r2]. apply Hv in Hb1.
    bind_inv Hb. bind_inv Hb. destruct a0 as [[fs' e'] r3]. injection Hb as <- <- <-. specialize (IH r2 (fs', e') r3). cbn beta in IH. rewrite Hb3 in IH.
    specialize (IH eq_refl). lia.
Qed.

Lemma object_set_shrinks value it fs e r : (forall f, shrinks (value f)) -> object_set value it = Ok (fs, e, r) -> (length r <= length it)%nat.
Proof.
  intros Hv H. unfold object_set in H. bind_inv H. destruct a as [[fs' e'] r']. destruct (adjacent_equal _); [done|].
  injection H as <- <- <-. apply (fields_loop_shrinks value (length it) Hv it (fs', e') r'). cbn beta. by rewrite Hb.
Qed.

Lemma elements_loop_shrinks object n : shrinks object -> shrinks (elements_loop object n).
Proof.
  intros Ho. induction n as [|n IH]; intros it a r H.
  - destruct it; [|done]. by injection H as <- <-.
  - destruct it as [|c it]; [by injection H as <- <-|]. cbn [elements_loop] in H. bind_inv H. destruct a0 as [f r1].
    apply getFieldID_less in Hb. destruct (bool_decide _); [injection H as <- <-; lia|]. destruct (bool_decide _); [done|].
    destruct (negb _); [done|]. destruct (negb _); [done|]. bind_inv H. destruct a0 as [fs r2]. apply Ho in Hb0.
    bind_inv H. bind_inv H. destruct a1 as [es r3]. injection H as <- <-. apply IH in Hb2. lia.
Qed.

Lemma var_shrinks cfg le n f : shrinks (var_parse cfg le n f).
Proof.
  revert f. induction n as [n IH] using lt_wf_ind. intros f it v r H. destruct n as [|n]; [done|]. cbn [var_parse] in H.
  destruct (f.1 =? STI_OBJECT); [|destruct (f.1 =? STI_ARRAY)]; bind_inv H.
  - destruct a as [[fs e] r']. injection H as <- <-. apply object_set_shrinks in Hb; [done|]. apply IH. lia.
  - destruct a as [es r']. injection H as <- <-. revert Hb. apply elements_loop_shrinks. intros it0 fs r0 H0.
    destruct n as [|n]; [done|]. bind_inv H0. destruct a as [[fs' e] r1]. injection H0 as <- <-.
    apply object_set_shrinks in Hb; [done|]. apply IH. lia.
  - destruct a as [l r']. injection H as <- <-. by apply leaf_shrinks in Hb.
Qed.

Lemma fields_loop_bound value n m it : (forall f, shrinks (value f)) ->
  (length it <= n)%nat -> (length it <= m)%nat -> fields_loop value n it = fields_loop value m it.
Proof.
  intros Hv. revert m it. induction n as [|n IH]; intros m it Hn Hm; (destruct it as [|c it]; [by destruct m|]); [cbn in Hn; lia|].
  destruct m as [|m]; [cbn in Hm; lia|]. cbn [fields_loop]. destruct (getFieldID (c :: it)) as [[f r]|] eqn:E; [|done].
  apply getFieldID_less in E. cbn [bind]. do 2 (destruct (bool_decide _); [done|]). destruct (negb _); [done|].
  destruct (value f r) as [[v r']|] eqn:E'; [|done]. apply Hv in E'. cbn [bind]. destruct (match v with v_object _ => _ | _ => _ end); [|done].
  cbn [bind]. by rewrite (IH m) by lia.
Qed.

Lemma elements_loop_bound object n m it : shrinks object ->
  (length it <= n)%nat -> (length it <= m)%nat -> elements_loop object n it = elements_loop object m it.
Proof.
  intros Ho. revert m it. induction n as [|n IH]; intros m it Hn Hm; (destruct it as [|c it]; [by destruct m|]); [cbn in Hn; lia|].
  destruct m as [|m]; [cbn in Hm; lia|]. cbn [elements_loop]. destruct (getFieldID (c :: it)) as [[f r]|] eqn:E; [|done].
  apply getFieldID_less in E. cbn [bind]. do 2 (destruct (bool_decide _); [done|]). do 2 (destruct (negb _); [done|]).
  destruct (object r) as [[fs r']|] eqn:E'; [|done]. apply Ho in E'. cbn [bind]. destruct (applyTemplateFromSField f fs); [|done].
  cbn [bind]. by rewrite (IH m) by lia.
Qed.

(** The loops of the readers end for the length of what they read: more rounds change nothing. *)
Theorem reading_terminates cfg le levels n it : (length it <= n)%nat ->
  fields_loop (var_parse cfg le levels) n it = fields_loop (var_parse cfg le levels) (length it) it /\
  (forall object, shrinks object -> elements_loop object n it = elements_loop object (length it) it) /\
  paths_loop (S n) [] it = STPathSet_parse it.
Proof.
  intros Hn. splits.
  - apply fields_loop_bound; [apply var_shrinks|lia..].
  - intros object Ho. by apply elements_loop_bound; [|lia..].
  - apply paths_loop_bound; lia.
Qed.

(** ** A loan and its signatures *)

Definition wire_settings : Settings := mkSettings to_nearest true true.

(** The members of a template, those not given absent. *)
Definition fill (type : SOTemplate) (l : STObject) : STObject :=
  (fun t => (t.1, match find_field t.1 l with Some (v, _) => v | None => v_absent end)) <$> type.

Definition loan_set_format : SOTemplate := Eval vm_compute in default [] (getTxFormat 80).

(** A loan of 1000, signed by the borrower and by the broker, with a memo. *)
Definition sample_loan_set (principal : Number) (signature : list Z) : STObject :=
  fill loan_set_format [
    (SF.sfTransactionType, v_leaf (STUInt16 80));
    (SF.sfAccount, v_leaf (STAccount (Some 7)));
    (SF.sfSequence, v_leaf (STUInt32 5));
    (SF.sfFee, v_leaf (l_amount (mkSTAmount (AIssue xrpIssue) 10 0 false)));
    (SF.sfSigningPubKey, v_leaf (STBlob [2; 3]));
    (SF.sfTxnSignature, v_leaf (STBlob signature));
    (SF.sfMemos, v_array [(SF.sfMemo, [(SF.sfMemoType, v_leaf (STBlob [1])); (SF.sfMemoData, v_leaf (STBlob [9]))])]);
    (SF.sfCounterpartySignature, v_object (fill [(SF.sfSigningPubKey, soeOPTIONAL); (SF.sfTxnSignature, soeOPTIONAL); (SF.sfSigners, soeOPTIONAL)]
       [(SF.sfSigningPubKey, v_leaf (STBlob [2; 4])); (SF.sfTxnSignature, v_leaf (STBlob [48; 1]))]));
    (SF.sfLoanBrokerID, v_leaf (STUInt256 77));
    (SF.sfInterestRate, v_leaf (STUInt32 12000));
    (SF.sfPrincipalRequested, v_leaf (l_number principal))].

Definition sample_principal : Number := mkNumber 1000000000000000 (-12).

Lemma member_decided f : bool_decide (1 <= f.1 < 256 /\ 1 <= f.2 < 256) && known f && negb (bool_decide (f = end_of_object)) &&
  negb (bool_decide (f = end_of_array)) = true -> member f.
Proof.
  intros [[[H1 H2]%andb_true_iff H3]%andb_true_iff H4]%andb_true_iff. apply negb_true_iff in H3, H4.
  apply bool_decide_eq_true in H1. apply bool_decide_eq_false in H3, H4. done.
Qed.

Lemma fill_members P type l : members_ok P l -> members_ok P (fill type l).
Proof.
  unfold members_ok. rewrite !Forall_forall. intros H x ([f style] & -> & _)%list_elem_of_fmap Hp. cbn [fst snd] in *.
  destruct (find_field f l) as [[v r]|] eqn:E; [|done]. apply (H (f, v)); [|done]. rewrite (find_field_inv _ _ _ _ E). by left.
Qed.

Ltac member_tac := intros _; split; [apply member_decided; by vm_compute|]; cbn [fst snd].

Lemma sample_loan_set_ok principal signature : wf principal -> zlen signature <= max_vl -> tx_ok 80 (sample_loan_set principal signature).
Proof.
  intros Hp Hs. exists loan_set_format. splits; [by vm_compute| | |].
  - unfold fits, sample_loan_set, fill, loan_set_format. vm_compute. repeat constructor; done.
  - apply fill_members. repeat (apply Forall_cons; split; [member_tac|]); [..|constructor].
    all: try (match goal with |- var_ok _ _ (v_leaf _) => split; [cbn [leaf_ok account_ok]; try lia|reflexivity] end).
    + split; [|by left]. split; [done|]. by vm_compute.
    + done.
    + split; [reflexivity|]. apply Forall_cons. split; [|constructor]. splits; [apply member_decided; by vm_compute|done| |].
      * repeat (apply Forall_cons; split; [member_tac; by split|]). constructor.
      * split; [apply (bool_decide_unpack _); by vm_compute|]. vm_compute. split; [repeat constructor|done].
    + split; [reflexivity|]. split.
      * apply fill_members. repeat (apply Forall_cons; split; [member_tac; by split|]). constructor.
      * split; [apply (bool_decide_unpack _); by vm_compute|]. vm_compute. repeat constructor.
    + done.
  - apply list_elem_of_In. vm_compute. tauto.
Qed.

Lemma principal_wf : wf sample_principal.
Proof. right. by vm_compute. Qed.

Lemma sample_signed signature : zlen signature <= max_vl -> tx_ok 80 (sample_loan_set sample_principal signature).
Proof. apply sample_loan_set_ok, principal_wf. Qed.

Lemma transaction_roundtrip_witness :
  exists b, object_add true true (sample_loan_set sample_principal [48; 1]) = Ok b /\
  STTx_parse wire_settings true b = Ok (80, sample_loan_set sample_principal [48; 1], add32 HashPrefix_transactionID ++ b).
Proof.
  destruct (transaction_roundtrip wire_settings true (conj eq_refl eq_refl) 80 (sample_loan_set sample_principal [48; 1])) as (b & Hb & R).
  - by apply sample_signed.
  - exists b. split; [exact Hb|]. vm_compute in Hb. injection Hb as <-. apply R. split; apply Z.leb_le; reflexivity.
Defined.

(** The signature is not signed, so any signature goes with the same data. *)
Lemma signature_covers_witness :
  getSigningData true (sample_loan_set sample_principal [48; 1]) = getSigningData true (sample_loan_set sample_principal [48; 2]) /\
  same_signed (sample_loan_set sample_principal [48; 1]) (sample_loan_set sample_principal [48; 2]).
Proof.
  assert (getSigningData true (sample_loan_set sample_principal [48; 1]) = getSigningData true (sample_loan_set sample_principal [48; 2])) as E by (by vm_compute).
  split; [exact E|].
  exact (proj2 (proj1 (signature_covers wire_settings true (conj eq_refl eq_refl) 80 80 _ _
    (sample_signed [48; 1] ltac:(done)) (sample_signed [48; 2] ltac:(done))) E)).
Defined.

(** The bytes of the sample. *)
Definition sample_bytes : list Z := match object_add true true (sample_loan_set sample_principal [48; 1]) with Ok b => b | Throw _ => [] end.

Lemma transaction_read_fits_witness :
  exists format members rest, getTxFormat 80 = Some format /\ fits format (sample_loan_set sample_principal [48; 1]) /\
    object_parse wire_settings true sample_bytes = Ok (members, false, rest) /\ NoDup (filter (included true) members).*1.
Proof.
  destruct (transaction_read_fits wire_settings true sample_bytes 80 (sample_loan_set sample_principal [48; 1])
    (add32 HashPrefix_transactionID ++ sample_bytes)) as (_ & format & members & rest & H).
  - by vm_compute.
  - exists format, members, rest. tauto.
Defined.

(** Another principal is not signed by the same signature. *)
Example principal_signed :
  getSigningData true (sample_loan_set sample_principal [48; 1]) <> getSigningData true (sample_loan_set (mkNumber 2000000000000000 (-12)) [48; 1]).
Proof. by vm_compute. Qed.

(** A step of a path through the account zero is read, but what is written for it is the
    end of the paths, which is not read back. *)
Example zero_account_path :
  STPathSet_parse ([1] ++ be_bytes 20 0 ++ [0]) = Ok ([[path_element 0 0 0 false]], []) /\
  STPathSet_add [[path_element 0 0 0 false]] = [0; 0] /\
  STPathSet_parse (STPathSet_add [[path_element 0 0 0 false]]) = Throw runtime_error.
Proof. by vm_compute. Qed.

(** A negative zero of XRP is refused, one of an MPT is read; so are amounts of an MPT
    above the largest, and two first bytes give the same amount. *)
Example loose_amounts :
  STAmount_parse wire_settings (be_bytes 8 0) = Throw runtime_error /\
  STAmount_parse wire_settings (be_bytes 8 cMPToken ++ [0] ++ be_bytes 24 5) = Ok (mkSTAmount (AMPT 5) 0 0 true, []) /\
  STAmount_parse wire_settings ([0x60; 255] ++ be_bytes 6 0 ++ [0] ++ be_bytes 24 5) = Ok (mkSTAmount (AMPT 5) (255 * 2 ^ 56) 0 false, []) /\
  STAmount_parse wire_settings ([0x7F; 255] ++ be_bytes 6 0 ++ [0] ++ be_bytes 24 5) = Ok (mkSTAmount (AMPT 5) (255 * 2 ^ 56) 0 false, []).
Proof. by vm_compute. Qed.
