(* ===== verification/LoanSet.v ===== *)
(** * Making and deleting a loan

    The transaction that makes a loan from the assets of a vault
    ([src/xrpld/app/tx/detail/LoanSet.cpp], [LoanSet.h]), signed by the borrower and by
    the owner of the broker, and the one that deletes a finished loan
    ([LoanDelete.cpp]). *)

From S2P Require Import Prelude.
From S2P Require Import Ter.
From S2P Require Import XrplNumber.
From S2P Require Import Amounts.
From S2P Require Import Lending.
From S2P Require Import LedgerState.
From S2P Require Import Holdings.
From S2P Require Import Transfers.
From S2P Require Import Transactors.
From S2P Require Import LoanManage.
From S2P Require Import LoanPay.
From S2P Require Import Signatures.
From stdpp Require Import gmap list.

Local Open Scope Z_scope.

Definition tfLoanSetMask : Z := Z.lxor 0xFFFFFFFF (Z.lor tfUniversal tfLoanOverpayment).

Definition defaultPaymentTotal : Z := 1.
Definition minPaymentInterval : Z := 60.
Definition defaultPaymentInterval : Z := 60.
Definition defaultGracePeriod : Z := 60.

Definition maxOverpaymentFee : Z := 100000.
Definition maxInterestRate : Z := 100000.
Definition maxLateInterestRate : Z := 100000.
Definition maxCloseInterestRate : Z := 100000.
Definition maxOverpaymentInterestRate : Z := 100000.

Record LoanSetTx : Set := mkLoanSet {
  ls_Account : Z;
  ls_LoanBrokerID : Z;
  ls_Flags : Z;
  ls_Data : option (list Z);
  ls_Counterparty : option Z;
  ls_CounterpartySignature : option SigObject;
  ls_LoanOriginationFee : option Number;
  ls_LoanServiceFee : option Number;
  ls_LatePaymentFee : option Number;
  ls_ClosePaymentFee : option Number;
  ls_OverpaymentFee : option Z;
  ls_InterestRate : option Z;
  ls_LateInterestRate : option Z;
  ls_CloseInterestRate : option Z;
  ls_OverpaymentInterestRate : option Z;
  ls_PrincipalRequested : Number;
  ls_PaymentTotal : option Z;
  ls_PaymentInterval : option Z;
  ls_GracePeriod : option Z }.

Definition paymentInterval (tx : LoanSetTx) : Z := default defaultPaymentInterval (ls_PaymentInterval tx).
Definition paymentTotal (tx : LoanSetTx) : Z := default defaultPaymentTotal (ls_PaymentTotal tx).
Definition originationFee (tx : LoanSetTx) : Number := default zero (ls_LoanOriginationFee tx).

(** ** Checks *)

Definition LoanSet_terms_valid (tx : LoanSetTx) : bool :=
  negb (match ls_Data tx with
        | Some (_ :: _) => negb (validDataLength (ls_Data tx) maxDataPayloadLength)
        | _ => false
        end) &&
  validNumericMinimum_number (ls_LoanServiceFee tx) zero &&
  validNumericMinimum_number (ls_LatePaymentFee tx) zero &&
  validNumericMinimum_number (ls_ClosePaymentFee tx) zero &&
  negb (number_leb (ls_PrincipalRequested tx) zero) &&
  validNumericRange_number (ls_LoanOriginationFee tx) (ls_PrincipalRequested tx) zero &&
  validNumericRange (ls_InterestRate tx) maxInterestRate 0 &&
  validNumericRange (ls_OverpaymentFee tx) maxOverpaymentFee 0 &&
  validNumericRange (ls_LateInterestRate tx) maxLateInterestRate 0 &&
  validNumericRange (ls_CloseInterestRate tx) maxCloseInterestRate 0 &&
  validNumericRange (ls_OverpaymentInterestRate tx) maxOverpaymentInterestRate 0 &&
  negb (match ls_PaymentTotal tx with Some n => n <=? 0 | None => false end) &&
  validNumericMinimum (ls_PaymentInterval tx) minPaymentInterval &&
  validNumericRange (ls_GracePeriod tx) (paymentInterval tx) 0.

Definition LoanSet_preflight (r : Rules) (dryRun : bool) (tx : LoanSetTx) : TER :=
  let inner := isFlag (ls_Flags tx) tfInnerBatchTxn in
  let sig := ls_CounterpartySignature tx in
  if inner && featureBatch r && negb (bool_decide (is_Some (ls_Counterparty tx))) then temBAD_SIGNER
  else if negb inner && negb (bool_decide (is_Some sig)) then temBAD_SIGNER
  else
    let key := match sig with Some s => preflightCheckSigningKey s | None => tesSUCCESS end in
    if negb (isTesSuccess key) then key
    else if negb (LoanSet_terms_valid tx) then temINVALID
    else match sig with
    | Some s => default tesSUCCESS (preflightCheckSimulateKeys dryRun s)
    | None => tesSUCCESS
    end.

(** [own] is the result of [Transactor::checkSign] on the transaction, [check] its
    overload for one account and one signature object. *)
Definition LoanSet_checkSign (v : View) (own : TER) (check : Z -> SigObject -> TER) (tx : LoanSetTx) : TER :=
  if negb (isTesSuccess own) then own
  else
    let counterSigner :=
      match ls_Counterparty tx with
      | Some c => Some c
      | None => broker_Owner <$> brokers v !! ls_LoanBrokerID tx
      end in
    match counterSigner with
    | None => temBAD_SIGNER
    | Some signer =>
        match ls_CounterpartySignature tx with
        | None => tesSUCCESS
        | Some sig => check signer sig
        end
    end.

Definition LoanSet_calculateBaseFee (v : View) (normalCost : Z) (tx : LoanSetTx) : Z :=
  let signerCount :=
    match ls_CounterpartySignature tx with
    | None => 0
    | Some sig =>
        match sig_Signers sig with
        | Some signers => Z.of_nat (length signers)
        | None => if bool_decide (is_Some (sig_TxnSignature sig)) then 1 else 0
        end
    end in
  i64 (normalCost + i64 (signerCount * fee_base (fees (env v)))).

Definition getValueFields (tx : LoanSetTx) : list (option Number) :=
  [Some (ls_PrincipalRequested tx); ls_LoanOriginationFee tx; ls_LoanServiceFee tx;
   ls_LatePaymentFee tx; ls_ClosePaymentFee tx].

Definition getStartDate (v : View) : Z := closeTime (env v).

(** The last due date fits in 32 bits. *)
Definition schedule_fits (v : View) (tx : LoanSetTx) : bool :=
  let timeAvailable := u32 (4294967295 - getStartDate v) in
  negb (timeAvailable <? paymentInterval tx) && negb (timeAvailable <? paymentTotal tx) &&
  negb (timeAvailable / paymentInterval tx <? paymentTotal tx).

(** Every value that is given satisfies [p]. *)
Fixpoint all_values (p : Number -> result bool) (values : list (option Number)) : result bool :=
  match values with
  | [] => Ok true
  | None :: rest => all_values p rest
  | Some x :: rest =>
      let* good := p x in
      if good then all_values p rest else Ok false
  end.

Definition set_loan_nodes (l : LoanEntry) (ownerNode brokerNode : Z) : LoanEntry :=
  mkLoanEntry (loan_fields l) (loan_Borrower l) (loan_LoanBrokerID l) (loan_GracePeriod l) (loan_Default l)
    (loan_Impaired l) (loan_OriginationFee l) (loan_LoanSequence l) ownerNode brokerNode.

Definition set_broker_loans (b : LoanBroker) (debt : Number) (ownerCount loanSequence : Z) : LoanBroker :=
  mkBroker (broker_Owner b) (broker_Account b) (broker_VaultID b) (broker_ManagementFeeRate b)
    ownerCount debt (broker_DebtMaximum b) (broker_CoverAvailable b) (broker_CoverRateMinimum b)
    (broker_CoverRateLiquidation b) loanSequence (broker_Sequence b) (broker_OwnerNode b)
    (broker_VaultNode b) (broker_Data b).

(** [adjustOwnerCount] on the entry of a broker. *)
Definition broker_adjusted (b : LoanBroker) (adj : Z) : LoanBroker :=
  set_broker_loans b (broker_DebtTotal b) (confineOwnerCount (broker_OwnerCount b) adj) (broker_LoanSequence b).

Definition insert_loan (v : View) (id : Z) (l : LoanEntry) : result View :=
  if bool_decide (is_Some (loans v !! id)) then Throw logic_error else Ok (update_loan v id l).

Section LoanSet.
Context `{Keylets} (cfg : Settings).
Implicit Types (v : View) (broker : LoanBroker) (vault : Vault) (tx : LoanSetTx) (properties : LoanProperties).

Local Notation "x [+] y" := (number_add (round_mode cfg) x y) (at level 50).
Local Notation "x [-] y" := (number_sub (round_mode cfg) x y) (at level 50).

Definition counterparty tx broker : Z := default (broker_Owner broker) (ls_Counterparty tx).
Definition borrower tx broker : Z :=
  if counterparty tx broker =? broker_Owner broker then ls_Account tx else counterparty tx broker.

(** The value is one of the asset. *)
Definition representable (asset : Asset) (value : Number) : result bool :=
  let* a := st_of_number cfg asset value in
  let* n := number_of_st cfg a in
  Ok (number_eqb n value).

Definition LoanSet_preclaim v tx : result TER :=
  if negb (schedule_fits v tx) then Ok tecKILLED
  else match brokers v !! ls_LoanBrokerID tx with
  | None => Ok tecNO_ENTRY
  | Some broker =>
      let owner := broker_Owner broker in
      if negb (ls_Account tx =? owner) && negb (counterparty tx broker =? owner) then Ok tecNO_PERMISSION
      else if negb (bool_decide (is_Some (accounts v !! borrower tx broker))) then Ok terNO_ACCOUNT
      else match vaults v !! broker_VaultID broker with
      | None => Ok tefBAD_LEDGER
      | Some vault =>
          let asset := vault_Asset vault in
          let* exact := all_values (representable asset) (getValueFields tx) in
          if negb exact then Ok tecPRECISION_LOSS
          else
            let ter := canAddHolding v asset in
            if negb (isTesSuccess ter) then Ok ter
            else
              let ter := checkFrozen v (vault_Account vault) asset in
              if negb (isTesSuccess ter) then Ok ter
              else
                let ter := checkFrozen v (borrower tx broker) asset in
                if negb (isTesSuccess ter) then Ok ter
                else Ok (checkDeepFrozen v owner asset)
      end
  end.

(** ** The terms *)

(** The guards on the terms that the properties of the loan give. *)
Definition loan_guards (asset : Asset) tx properties : result TER :=
  let principal := ls_PrincipalRequested tx in
  let rate := default 0 (ls_InterestRate tx) in
  let total := lp_totalValueOutstanding properties in
  let scale := lp_loanScale properties in
  let* exact := all_values (fun x => isRounded cfg asset x scale) (getValueFields tx) in
  if negb exact then Ok tecPRECISION_LOSS
  else
    let* interest := total [-] principal in
    if (0 <? rate) && number_leb interest zero then Ok tecPRECISION_LOSS
    else if (rate =? 0) && number_gtb interest zero then Ok tecINTERNAL
    else if number_leb (lp_firstPaymentPrincipal properties) zero then Ok tecPRECISION_LOSS
    else
      let* roundedPayment := roundPeriodicPayment cfg asset (lp_periodicPayment properties) scale in
      if number_eqb roundedPayment zero then Ok tecPRECISION_LOSS
      else
        let* q := number_div upward total roundedPayment in
        let* computedPayments := to_rep upward q in
        if computedPayments <? paymentTotal tx then Ok tecPRECISION_LOSS
        else if number_ltb (lp_managementFeeOwedToBroker properties) zero || number_leb total zero ||
                number_leb (lp_periodicPayment properties) zero
        then Ok tecINTERNAL
        else Ok tesSUCCESS.

(** The debt of the broker stays below its maximum and its cover above the minimum. *)
Definition debt_allowed broker (newDebtTotal : Number) : result TER :=
  if negb (number_eqb (broker_DebtMaximum broker) zero) &&
     number_ltb (broker_DebtMaximum broker) newDebtTotal
  then Ok tecLIMIT_EXCEEDED
  else
    let* minimum := tenthBipsOfValue cfg newDebtTotal (broker_CoverRateMinimum broker) in
    Ok (if number_ltb (broker_CoverAvailable broker) minimum then tecINSUFFICIENT_FUNDS else tesSUCCESS).

(** ** The loan *)

(** The borrower pays the reserve, holdings are made where they are missing, and the
    vault pays out the principal. *)
Definition fund_loan v (priorBalance : Z) (asset : Asset) (vaultPseudo borrower owner : Z)
    (toBorrower fee : Number) : result (TER * View) :=
  let v := adjustOwnerCount v borrower 1 in
  let ownerCount := from_option acct_OwnerCount 0 (accounts v !! borrower) in
  if priorBalance <? accountReserve (fees (env v)) ownerCount then Ok (tecINSUFFICIENT_RESERVE, v)
  else
    let? v := ensure_holding cfg v borrower asset in
    let? v := Ok (requireAuth v asset borrower StrongAuth, v) in
    let? v :=
      if number_eqb fee zero then Ok (tesSUCCESS, v)
      else
        let? v := ensure_holding cfg v owner asset in
        Ok (requireAuth v asset owner StrongAuth, v) in
    accountSendMulti cfg v vaultPseudo asset [(borrower, toBorrower); (owner, fee)] Waive.

Definition new_loan v tx properties (borrower loanSequence : Z) : LoanEntry :=
  mkLoanEntry
    (mkLoan (isFlag (ls_Flags tx) tfLoanOverpayment) (default 0 (ls_InterestRate tx))
       (default 0 (ls_LateInterestRate tx)) (default 0 (ls_CloseInterestRate tx))
       (default 0 (ls_OverpaymentInterestRate tx)) (default 0 (ls_OverpaymentFee tx))
       (default zero (ls_LoanServiceFee tx)) (default zero (ls_LatePaymentFee tx))
       (default zero (ls_ClosePaymentFee tx)) (getStartDate v) (paymentInterval tx)
       (lp_loanScale properties) 0 (Some (u32 (getStartDate v + paymentInterval tx))) (paymentTotal tx)
       (lp_totalValueOutstanding properties) (ls_PrincipalRequested tx)
       (lp_managementFeeOwedToBroker properties) (lp_periodicPayment properties))
    borrower (ls_LoanBrokerID tx) (default defaultGracePeriod (ls_GracePeriod tx)) false false
    (originationFee tx) loanSequence 0 0.

(** The loan is listed with the pseudo-account of the broker and with the borrower. *)
Definition link_loan v (loanID : Z) (loan : LoanEntry) (brokerPseudo borrower : Z) : result (TER * View) :=
  let* (node, v) := dirLink v brokerPseudo loanID in
  match node with
  | Unexpected t => Ok (t, v)
  | Value brokerNode =>
      let v := update_loan v loanID (set_loan_nodes loan (loan_OwnerNode loan) brokerNode) in
      let* (node, v) := dirLink v borrower loanID in
      match node with
      | Unexpected t => Ok (t, v)
      | Value ownerNode => Ok (tesSUCCESS, update_loan v loanID (set_loan_nodes loan ownerNode brokerNode))
      end
  end.

(** The entries of a new loan. *)
Definition book_loan v tx properties broker vault (borrower : Z) (interestDue newDebtDelta : Number)
  : result (TER * View) :=
  let sequence := broker_LoanSequence broker in
  let loanID := loan_keylet (ls_LoanBrokerID tx) sequence in
  let loan := new_loan v tx properties borrower sequence in
  let* v := insert_loan v loanID loan in
  let* available := vault_AssetsAvailable vault [-] ls_PrincipalRequested tx in
  let* total := vault_AssetsTotal vault [+] interestDue in
  let v := update_vault v (broker_VaultID broker) (set_vault_assets vault total available) in
  let* debt := broker_DebtTotal broker [+] newDebtDelta in
  let broker := set_broker_loans broker debt (confineOwnerCount (broker_OwnerCount broker) 1)
                  (u32 (sequence + 1)) in
  let v := update_broker v (ls_LoanBrokerID tx) broker in
  link_loan v loanID loan (broker_Account broker) borrower.

Definition LoanSet_doApply v tx (priorBalance : Z) : result (TER * View) :=
  match brokers v !! ls_LoanBrokerID tx with
  | None => Ok (tefBAD_LEDGER, v)
  | Some broker =>
      let owner := broker_Owner broker in
      let borrower := borrower tx broker in
      match accounts v !! owner, vaults v !! broker_VaultID broker, accounts v !! borrower,
            accounts v !! broker_Account broker with
      | Some _, Some vault, Some _, Some _ =>
          let asset := vault_Asset vault in
          let principal := ls_PrincipalRequested tx in
          if number_ltb (vault_AssetsAvailable vault) principal then Ok (tecINSUFFICIENT_FUNDS, v)
          else
            let* properties :=
              computeLoanProperties cfg asset principal (default 0 (ls_InterestRate tx)) (paymentInterval tx)
                (paymentTotal tx) (broker_ManagementFeeRate broker) in
            let* ter := loan_guards asset tx properties in
            if negb (isTesSuccess ter) then Ok (ter, v)
            else
              let* state := calculateRoundedLoanState cfg (lp_totalValueOutstanding properties) principal
                              (lp_managementFeeOwedToBroker properties) in
              let* toBorrower := principal [-] originationFee tx in
              let* newDebtDelta := principal [+] ls_interestDue state in
              let* newDebtTotal := broker_DebtTotal broker [+] newDebtDelta in
              let* ter := debt_allowed broker newDebtTotal in
              if negb (isTesSuccess ter) then Ok (ter, v)
              else
                let? v := fund_loan v priorBalance asset (vault_Account vault) borrower owner toBorrower
                            (originationFee tx) in
                book_loan v tx properties broker vault borrower (ls_interestDue state) newDebtDelta
      | _, _, _, _ => Ok (tefBAD_LEDGER, v)
      end
  end.

End LoanSet.

(** ** Deletion *)

Record LoanDeleteTx : Set := mkLoanDelete {
  ld_Account : Z;
  ld_LoanID : Z }.

Definition LoanDelete_preflight (tx : LoanDeleteTx) : TER :=
  if ld_LoanID tx =? 0 then temINVALID else tesSUCCESS.

Definition LoanDelete_preclaim (v : View) (tx : LoanDeleteTx) : TER :=
  match loans v !! ld_LoanID tx with
  | None => tecNO_ENTRY
  | Some loan =>
      if 0 <? sfPaymentRemaining (loan_fields loan) then tecHAS_OBLIGATIONS
      else match brokers v !! loan_LoanBrokerID loan with
      | None => tecINTERNAL
      | Some broker =>
          if negb (broker_Owner broker =? ld_Account tx) && negb (loan_Borrower loan =? ld_Account tx)
          then tecNO_PERMISSION else tesSUCCESS
      end
  end.

Definition LoanDelete_doApply (v : View) (tx : LoanDeleteTx) : result (TER * View) :=
  let loanID := ld_LoanID tx in
  match loans v !! loanID with
  | None => Ok (tefBAD_LEDGER, v)
  | Some loan =>
      let brokerID := loan_LoanBrokerID loan in
      match accounts v !! loan_Borrower loan, brokers v !! brokerID with
      | Some _, Some broker =>
          if negb (bool_decide (is_Some (vaults v !! broker_VaultID broker))) then Ok (tefBAD_LEDGER, v)
          else
            let* (found, v) := ownerDirRemove v (broker_Account broker) (loan_LoanBrokerNode loan) loanID in
            if negb found then Ok (tefBAD_LEDGER, v)
            else
              let* (found, v) := ownerDirRemove v (loan_Borrower loan) (loan_OwnerNode loan) loanID in
              if negb found then Ok (tefBAD_LEDGER, v)
              else
                let v := set_loans v (delete loanID (loans v)) in
                let v := update_broker v brokerID (broker_adjusted broker (-1)) in
                Ok (tesSUCCESS, adjustOwnerCount v (loan_Borrower loan) (-1))
      | _, _ => Ok (tefBAD_LEDGER, v)
      end
  end.
