(* ===== verification/LoanBooks.v ===== *)
(** * The books of a vault

    The assets of a vault are those available and those lent out.  What is lent is the
    sum, over the loans of its brokers, of what the borrowers owe the vault; the
    unrealized loss is the part of that sum owed on impaired loans; the debt of a broker
    is the part owed on its own loans.  All of it counts in units of one scale. *)

From S2P Require Import Prelude.
From S2P Require Import Ter.
From S2P Require Import XrplNumber.
From S2P Require Import XrplNumberFacts.
From S2P Require Import XrplNumberAdd.
From S2P Require Import XrplNumberGrid.
From S2P Require Import Amounts.
From S2P Require Import AmountsFacts.
From S2P Require Import AmountsRound.
From S2P Require Import Lending.
From S2P Require Import LendingFacts.
From S2P Require Import LedgerState.
From S2P Require Import Holdings.
From S2P Require Import Transfers.
From S2P Require Import TransfersFrame.
From S2P Require Import TransfersMPT.
From S2P Require Import LoanManage.
From stdpp Require Import gmap list.

Local Open Scope Z_scope.

(** ** Units *)

Definition units (s : Z) (x : Number) : Z :=
  if mantissa_ x =? 0 then 0 else mantissa_ x / 10 ^ (s - exponent_ x).

Definition gridded (s : Z) (x : Number) : Prop := on_grid s (units s x) x.

Section Units.
Context (md : rounding_mode) (s : Z) (HG : grid_scale s).
Implicit Types (x y : Number).

Lemma units_grid n x : on_grid s n x -> units s x = n.
Proof.
  intros [[-> ->]|(Hn & He & Hm)]; [done|]. unfold units.
  destruct (mantissa_ x =? 0) eqn:E; zbool.
  - pose proof (normal_abs_range x Hn) as R. unfold abs_mantissa, minMantissa in R. lia.
  - rewrite Hm. apply Z.div_mul. pose proof (pow10_pos (s - exponent_ x) ltac:(lia)). lia.
Qed.

Lemma grid_gridded n x : on_grid s n x -> gridded s x.
Proof. intros Hx. unfold gridded. by rewrite (units_grid n x Hx). Qed.

Lemma gridded_zero : gridded s zero /\ units s zero = 0.
Proof. split; [apply (grid_gridded 0), on_grid_zero|done]. Qed.

Lemma gridded_bound x : gridded s x -> Z.abs (units s x) <= maxMantissa.
Proof. apply on_grid_bound. Qed.

Lemma units_add x y :
  gridded s x -> gridded s y -> Z.abs (units s x + units s y) <= maxMantissa ->
  exists z, number_add md x y = Ok z /\ gridded s z /\ units s z = units s x + units s y.
Proof.
  intros Hx Hy Hb. destruct (grid_add md s _ _ x y HG Hx Hy Hb) as (z & -> & Hz).
  exists z. splits; [done|by apply (grid_gridded _ _ Hz)|by apply units_grid].
Qed.

Lemma units_sub x y :
  gridded s x -> gridded s y -> Z.abs (units s x - units s y) <= maxMantissa ->
  exists z, number_sub md x y = Ok z /\ gridded s z /\ units s z = units s x - units s y.
Proof.
  intros Hx Hy Hb. destruct (grid_sub md s _ _ x y HG Hx Hy Hb) as (z & -> & Hz).
  exists z. splits; [done|by apply (grid_gridded _ _ Hz)|by apply units_grid].
Qed.

Lemma units_ltb x y : gridded s x -> gridded s y -> number_ltb x y = (units s x <? units s y).
Proof. apply grid_ltb. Qed.

Lemma units_gtb x y : gridded s x -> gridded s y -> number_gtb x y = (units s y <? units s x).
Proof. intros. by apply units_ltb. Qed.

Lemma units_inj x y : gridded s x -> gridded s y -> units s x = units s y -> x = y.
Proof.
  unfold gridded. intros Hx Hy E. rewrite E in Hx. by apply (on_grid_unique s (units s y)).
Qed.

End Units.

(** ** Books *)

Definition owed (s : Z) (l : LoanEntry) : Z :=
  units s (sfTotalValueOutstanding (loan_fields l)) -
  units s (sfManagementFeeOutstanding (loan_fields l)).

(** A loan in default is closed for good. *)
Definition closed (l : LoanEntry) : Prop :=
  let x := loan_fields l in
  sfTotalValueOutstanding x = zero /\ sfPrincipalOutstanding x = zero /\
  sfManagementFeeOutstanding x = zero /\ sfPaymentRemaining x = 0 /\ sfNextPaymentDueDate x = None.

Record loan_books (s : Z) (l : LoanEntry) : Prop := {
  lb_total : gridded s (sfTotalValueOutstanding (loan_fields l));
  lb_fee : gridded s (sfManagementFeeOutstanding (loan_fields l));
  lb_owed : 0 <= owed s l;
  lb_default : loan_Default l = true -> closed l }.

Definition in_vault (v : View) (vid : Z) (l : LoanEntry) : bool :=
  match brokers v !! loan_LoanBrokerID l with
  | Some b => broker_VaultID b =? vid
  | None => false
  end.

(** What the borrowers of the vault owe it; what they owe on impaired loans; what
    the borrowers of a broker owe. *)
Definition lent (s vid : Z) (v : View) : Z :=
  msum (fun _ l => if in_vault v vid l then owed s l else 0) (loans v).
Definition paper_loss (s vid : Z) (v : View) : Z :=
  msum (fun _ l => if in_vault v vid l && loan_Impaired l then owed s l else 0) (loans v).
Definition debt_of (s bid : Z) (v : View) : Z :=
  msum (fun _ l => if loan_LoanBrokerID l =? bid then owed s l else 0) (loans v).

Record vault_books (s vid : Z) (v : View) (x : Vault) : Prop := {
  vb_total : gridded s (vault_AssetsTotal x);
  vb_available : gridded s (vault_AssetsAvailable x);
  vb_loss : gridded s (vault_LossUnrealized x);
  vb_available_nonneg : 0 <= units s (vault_AssetsAvailable x);
  vb_lent : units s (vault_AssetsTotal x) = units s (vault_AssetsAvailable x) + lent s vid v;
  vb_paper : units s (vault_LossUnrealized x) = paper_loss s vid v }.

Record broker_books (s bid : Z) (v : View) (b : LoanBroker) : Prop := {
  bb_debt : gridded s (broker_DebtTotal b);
  bb_cover : gridded s (broker_CoverAvailable b);
  bb_cover_nonneg : 0 <= units s (broker_CoverAvailable b);
  bb_owed : units s (broker_DebtTotal b) = debt_of s bid v;
  bb_minimum : 0 <= broker_CoverRateMinimum b <= tenthBipsPerUnity;
  bb_liquidation : 0 <= broker_CoverRateLiquidation b <= tenthBipsPerUnity }.

(** The books of a vault, of its brokers and of their loans. *)
Record books_balance (s vid : Z) (v : View) : Prop := {
  bal_vault : exists x, vaults v !! vid = Some x /\ vault_books s vid v x;
  bal_brokers : forall bid b, brokers v !! bid = Some b -> broker_VaultID b = vid -> broker_books s bid v b;
  bal_loans : forall k l, loans v !! k = Some l -> in_vault v vid l = true -> loan_books s l }.

(** ** Changing a loan *)

(** What a transaction on one loan does: the loan changes, appears or goes, its broker
    and its vault change, the links between them do not. *)
Record replaced (v v' : View) (k bid vid : Z) (o o' : option LoanEntry) (b b' : LoanBroker) (x x' : Vault)
  : Prop := {
  rp_loan : loans v !! k = o;
  rp_broker : brokers v !! bid = Some b;
  rp_vault : vaults v !! vid = Some x;
  rp_loans : loans v' = partial_alter (fun _ => o') k (loans v);
  rp_brokers : brokers v' = <[bid := b']> (brokers v);
  rp_vaults : vaults v' = <[vid := x']> (vaults v);
  rp_of_broker : forall l, o = Some l \/ o' = Some l -> loan_LoanBrokerID l = bid;
  rp_of_vault : broker_VaultID b = vid /\ broker_VaultID b' = vid }.

Definition changed (v v' : View) (k bid vid : Z) (l l' : LoanEntry) : LoanBroker -> LoanBroker -> Vault -> Vault -> Prop :=
  replaced v v' k bid vid (Some l) (Some l').

(** The entries of one loan in balanced books. *)
Record on_books (s : Z) (v : View) (k bid vid : Z) (l : LoanEntry) (b : LoanBroker) (x : Vault) : Prop := {
  ob_loan : loans v !! k = Some l;
  ob_broker : brokers v !! bid = Some b;
  ob_vault : vaults v !! vid = Some x;
  ob_of_broker : loan_LoanBrokerID l = bid;
  ob_of_vault : broker_VaultID b = vid;
  ob_books : books_balance s vid v }.

Definition impaired_owed (s : Z) (l : LoanEntry) : Z := if loan_Impaired l then owed s l else 0.

(** The new entries of a vault and a broker account for a loan that changes what it
    owes by [d], and what it owes when impaired by [i]. *)
Record accounted (s d i : Z) (b b' : LoanBroker) (x x' : Vault) : Prop := {
  ac_total : gridded s (vault_AssetsTotal x');
  ac_available : gridded s (vault_AssetsAvailable x');
  ac_loss : gridded s (vault_LossUnrealized x');
  ac_available_nonneg : 0 <= units s (vault_AssetsAvailable x');
  ac_lent : units s (vault_AssetsTotal x') - units s (vault_AssetsAvailable x') =
            units s (vault_AssetsTotal x) - units s (vault_AssetsAvailable x) + d;
  ac_paper : units s (vault_LossUnrealized x') = units s (vault_LossUnrealized x) + i;
  ac_debt : gridded s (broker_DebtTotal b');
  ac_cover : gridded s (broker_CoverAvailable b');
  ac_cover_nonneg : 0 <= units s (broker_CoverAvailable b');
  ac_owed : units s (broker_DebtTotal b') = units s (broker_DebtTotal b) + d;
  ac_rates : broker_CoverRateMinimum b' = broker_CoverRateMinimum b /\
             broker_CoverRateLiquidation b' = broker_CoverRateLiquidation b }.

Section Books.
Context (s vid : Z).
Implicit Types (v : View) (l : LoanEntry) (b : LoanBroker) (x : Vault).

Lemma on_books_in v k bid l b x : on_books s v k bid vid l b x -> in_vault v vid l = true.
Proof.
  intros O. unfold in_vault. rewrite (ob_of_broker _ _ _ _ _ _ _ _ O), (ob_broker _ _ _ _ _ _ _ _ O),
    (ob_of_vault _ _ _ _ _ _ _ _ O). apply Z.eqb_refl.
Qed.

Lemma on_books_loan v k bid l b x : on_books s v k bid vid l b x -> loan_books s l.
Proof. intros O. destruct (ob_books _ _ _ _ _ _ _ _ O) as [_ _ Hl]. eapply Hl; [apply O|by eapply on_books_in]. Qed.

Lemma on_books_broker v k bid l b x : on_books s v k bid vid l b x -> broker_books s bid v b.
Proof. intros O. destruct (ob_books _ _ _ _ _ _ _ _ O) as [_ Hb _]. apply Hb; apply O. Qed.

Lemma on_books_vault v k bid l b x : on_books s v k bid vid l b x -> vault_books s vid v x.
Proof.
  intros O. destruct (ob_books _ _ _ _ _ _ _ _ O) as [(x' & Hx & Hb) _ _].
  rewrite (ob_vault _ _ _ _ _ _ _ _ O) in Hx. by injection Hx as <-.
Qed.

(** What one loan owes is part of each sum, and the loss is part of what is lent. *)
Lemma owed_lent v k bid l b x : on_books s v k bid vid l b x -> owed s l <= lent s vid v.
Proof.
  intros O. pose proof (msum_term (fun _ l => if in_vault v vid l then owed s l else 0) (loans v) k l) as M.
  simpl in M. rewrite (on_books_in _ _ _ _ _ _ O) in M. apply M; [|apply O].
  intros k' l' Hl. destruct (in_vault v vid l') eqn:E; [|done].
  eapply lb_owed, (bal_loans _ _ _ (ob_books _ _ _ _ _ _ _ _ O)); eauto.
Qed.

Lemma owed_debt v k bid l b x : on_books s v k bid vid l b x -> owed s l <= debt_of s bid v.
Proof.
  intros O. pose proof (msum_term (fun _ l => if loan_LoanBrokerID l =? bid then owed s l else 0) (loans v) k l) as M.
  simpl in M. rewrite (ob_of_broker _ _ _ _ _ _ _ _ O), Z.eqb_refl in M. apply M; [|apply O].
  intros k' l' Hl. destruct (loan_LoanBrokerID l' =? bid) eqn:E; [|done]. zbool.
  eapply lb_owed, (bal_loans _ _ _ (ob_books _ _ _ _ _ _ _ _ O)); eauto.
  unfold in_vault. rewrite E, (ob_broker _ _ _ _ _ _ _ _ O), (ob_of_vault _ _ _ _ _ _ _ _ O).
  apply Z.eqb_refl.
Qed.

Lemma owed_paper v k bid l b x :
  on_books s v k bid vid l b x ->
  (loan_Impaired l = true -> owed s l <= paper_loss s vid v) /\
  (loan_Impaired l = false -> paper_loss s vid v + owed s l <= lent s vid v).
Proof.
  intros O. pose proof (on_books_in _ _ _ _ _ _ O) as Hin. pose proof (ob_loan _ _ _ _ _ _ _ _ O) as Hk.
  assert (forall k' l', loans v !! k' = Some l' -> in_vault v vid l' = true -> 0 <= owed s l') as Hpos.
  { intros k' l' Hl E. eapply lb_owed, (bal_loans _ _ _ (ob_books _ _ _ _ _ _ _ _ O)); eauto. }
  split; intros Himp.
  - pose proof (msum_term (fun _ l => if in_vault v vid l && loan_Impaired l then owed s l else 0) (loans v) k l) as M.
    simpl in M. rewrite Hin, Himp in M. apply M; [|done]. intros k' l' Hl.
    destruct (in_vault v vid l') eqn:E; [|done]. destruct (loan_Impaired l'); simpl; [eauto|done].
  - unfold paper_loss, lent.
    rewrite <- (insert_delete_id (loans v) k l Hk).
    rewrite !msum_insert_new by apply lookup_delete_eq. rewrite Hin, Himp. simpl.
    assert (msum (fun _ l => if in_vault v vid l && loan_Impaired l then owed s l else 0) (delete k (loans v)) <=
            msum (fun _ l => if in_vault v vid l then owed s l else 0) (delete k (loans v))); [|lia].
    apply msum_le. intros k' l' Hl. apply lookup_delete_Some in Hl as [_ Hl].
    destruct (in_vault v vid l') eqn:E; [|done]. simpl. destruct (loan_Impaired l'); [done|eauto].
Qed.

(** The books stay balanced when the entries of a loan change together. *)
Lemma books_replaced v v' k bid o o' b b' x x' :
  books_balance s vid v -> replaced v v' k bid vid o o' b b' x x' ->
  (forall l', o' = Some l' -> loan_books s l') ->
  accounted s (from_option (owed s) 0 o' - from_option (owed s) 0 o)
    (from_option (impaired_owed s) 0 o' - from_option (impaired_owed s) 0 o) b b' x x' ->
  books_balance s vid v'.
Proof.
  intros B [Hl Hb Hx El Eb Ex Ob [Ov Ov']] Ll' [G1 G2 G3 A' T' P' D1 D2 D3 D4 [R1 R2]].
  assert (forall l, in_vault v' vid l = in_vault v vid l) as Ein.
  { intros l0. unfold in_vault. rewrite Eb, lookup_insert. case_decide as E; [|done].
    by rewrite <- E, Hb, Ov, Ov'. }
  assert (forall l, o = Some l \/ o' = Some l -> in_vault v vid l = true) as Hin.
  { intros l E. unfold in_vault. by rewrite (Ob l E), Hb, Ov, Z.eqb_refl. }
  destruct (bal_vault _ _ _ B) as (x0 & Hx0 & Vb). rewrite Hx in Hx0. injection Hx0 as <-.
  pose proof (bal_brokers _ _ _ B bid b Hb Ov) as Bb.
  assert (forall (g : LoanEntry -> Z) (p : LoanEntry -> bool),
            (forall l, o = Some l \/ o' = Some l -> p l = true) ->
            from_option (fun l => if p l then g l else 0) 0 o = from_option g 0 o /\
            from_option (fun l => if p l then g l else 0) 0 o' = from_option g 0 o') as Hif.
  { intros g p Hp. split; [destruct o as [l|]|destruct o' as [l|]]; simpl; try done; rewrite (Hp l); auto. }
  assert (forall bid0, debt_of s bid0 v' = debt_of s bid0 v +
            (if bid =? bid0 then from_option (owed s) 0 o' - from_option (owed s) 0 o else 0)) as Ed.
  { intros bid0. unfold debt_of. rewrite El.
    rewrite (msum_altered (fun _ l => if loan_LoanBrokerID l =? bid0 then owed s l else 0)), Hl by done.
    destruct (bid =? bid0) eqn:E.
    - destruct (Hif (owed s) (fun l => loan_LoanBrokerID l =? bid0)) as [-> ->]; [|lia].
      intros l Hol. by rewrite (Ob l Hol).
    - assert (forall o1, o1 = o \/ o1 = o' ->
                from_option (fun l => if loan_LoanBrokerID l =? bid0 then owed s l else 0) 0 o1 = 0) as Hz.
      { intros [l|] Ho; simpl; [|done]. rewrite (Ob l), E by (destruct Ho; auto). done. }
      rewrite !Hz by auto. lia. }
  split.
  - exists x'. split; [by rewrite Ex, lookup_insert_eq|]. split; auto.
    + unfold lent. rewrite El.
      rewrite (msum_altered (fun _ l => if in_vault v vid l then owed s l else 0)), Hl by (intros; by rewrite Ein).
      destruct (Hif (owed s) (in_vault v vid) Hin) as [-> ->].
      pose proof (vb_lent _ _ _ _ Vb) as V. unfold lent in V. lia.
    + unfold paper_loss. rewrite El.
      rewrite (msum_altered (fun _ l => if in_vault v vid l && loan_Impaired l then owed s l else 0)), Hl
        by (intros; by rewrite Ein).
      pose proof (vb_paper _ _ _ _ Vb) as V. unfold paper_loss in V.
      destruct (Hif (impaired_owed s) (in_vault v vid) Hin) as [E1 E2].
      rewrite <- E1, <- E2 in P'. unfold impaired_owed in P'.
      assert (forall l, (if in_vault v vid l && loan_Impaired l then owed s l else 0) =
                        if in_vault v vid l then if loan_Impaired l then owed s l else 0 else 0) as Eand
        by (intros l; by destruct (in_vault v vid l)).
      destruct o as [l|], o' as [l'|]; simpl in P' |- *; rewrite ?Eand; lia.
  - intros bid0 b0 Hb0 Hv0. rewrite Eb, lookup_insert in Hb0. case_decide as E.
    + injection Hb0 as <-. subst bid0. destruct Bb. split; auto; try congruence.
      rewrite Ed, Z.eqb_refl. lia.
    + destruct (bal_brokers _ _ _ B bid0 b0 Hb0 Hv0). split; auto. rewrite Ed.
      apply Z.eqb_neq in E. rewrite E. lia.
  - intros k0 l0 Hl0 Hin0. rewrite El, lookup_partial_alter in Hl0. rewrite Ein in Hin0. case_decide.
    + by apply Ll'.
    + by apply (bal_loans _ _ _ B k0).
Qed.

Lemma changed_intro v v' k bid l l' b b' x x' :
  on_books s v k bid vid l b x -> loan_LoanBrokerID l' = bid -> broker_VaultID b' = vid ->
  loans v' = <[k := l']> (loans v) -> brokers v' = <[bid := b']> (brokers v) ->
  vaults v' = <[vid := x']> (vaults v) -> changed v v' k bid vid l l' b b' x x'.
Proof. intros [H1 H2 H3 H4 H5 H6] Hl Hb El Eb Ex. split; auto. intros l0 [[= <-]|[= <-]]; done. Qed.

Lemma books_changed v v' k bid l l' b b' x x' :
  books_balance s vid v -> changed v v' k bid vid l l' b b' x x' -> loan_books s l' ->
  accounted s (owed s l' - owed s l) (impaired_owed s l' - impaired_owed s l) b b' x x' ->
  books_balance s vid v'.
Proof. intros B C Ll' Ac. eapply books_replaced; eauto. by intros ? [= <-]. Qed.

End Books.
