(* ===== verification/LoanManageFacts.v ===== *)
(** * Theory of loan management

    On balanced books an impairment and its reversal always succeed, a default fails
    only for want of cover or in the transfer, and each keeps the books balanced. *)

From S2P Require Import Prelude.
From S2P Require Import Ter.
From S2P Require Import XrplNumber.
From S2P Require Import XrplNumberFacts.
From S2P Require Import XrplNumberGrid.
From S2P Require Import Amounts.
From S2P Require Import AmountsFacts.
From S2P Require Import AmountsRound.
From S2P Require Import Lending.
From S2P Require Import LendingFacts.
From S2P Require Import LedgerState.
From S2P Require Import Holdings.
From S2P Require Import Transfers.
From S2P Require Import TransfersFrame.
From S2P Require Import TransfersMPT.
From S2P Require Import LoanManage.
From S2P Require Import LoanBooks.
From stdpp Require Import gmap list.

Local Open Scope Z_scope.

Section Manage.
Context `{Keylets} (cfg : Settings) (s vid : Z) (HG : grid_scale s).
Implicit Types (v : View) (l : LoanEntry) (b : LoanBroker) (x : Vault).

Lemma owedToVault_units l :
  loan_books s l -> owed s l <= maxMantissa ->
  exists z, owedToVault cfg l = Ok z /\ gridded s z /\ units s z = owed s l.
Proof.
  intros [H1 H2 H3 _] Hb. unfold owedToVault. apply units_sub; auto. fold (owed s l). lia.
Qed.

(** The bounds that balanced books give. *)
Lemma books_bounds v k bid l b x :
  on_books s v k bid vid l b x ->
  0 <= owed s l <= lent s vid v /\ owed s l <= debt_of s bid v /\
  0 <= units s (vault_AssetsAvailable x) /\
  units s (vault_AssetsTotal x) = units s (vault_AssetsAvailable x) + lent s vid v /\
  units s (vault_AssetsTotal x) <= maxMantissa /\ units s (broker_DebtTotal b) <= maxMantissa /\
  0 <= paper_loss s vid v <= maxMantissa.
Proof.
  intros O. pose proof (on_books_vault _ _ _ _ _ _ _ _ O) as V.
  pose proof (on_books_broker _ _ _ _ _ _ _ _ O) as Bb.
  pose proof (lb_owed _ _ (on_books_loan _ _ _ _ _ _ _ _ O)).
  pose proof (owed_lent _ _ _ _ _ _ _ _ O). pose proof (owed_debt _ _ _ _ _ _ _ _ O).
  pose proof (gridded_bound s _ (vb_total _ _ _ _ V)). pose proof (gridded_bound s _ (bb_debt _ _ _ _ Bb)).
  pose proof (gridded_bound s _ (vb_loss _ _ _ _ V)) as Hl. rewrite (vb_paper _ _ _ _ V) in Hl.
  pose proof (vb_lent _ _ _ _ V). pose proof (vb_available_nonneg _ _ _ _ V).
  assert (0 <= paper_loss s vid v); [|lia].
  apply msum_nonneg. intros k' l' Hl'. destruct (in_vault v vid l') eqn:E; [|done].
  destruct (loan_Impaired l'); [|done]. simpl.
  eapply lb_owed, (bal_loans _ _ _ (ob_books _ _ _ _ _ _ _ _ O)); eauto.
Qed.

(** An impairment writes down what the loan owes. *)
Lemma impairLoan_spec v k bid l b x d :
  on_books s v k bid vid l b x -> loan_Impaired l = false ->
  sfNextPaymentDueDate (loan_fields l) = Some d ->
  exists loss, gridded s loss /\ units s loss = units s (vault_LossUnrealized x) + owed s l /\
  impairLoan cfg v l x =
    Ok (tesSUCCESS,
        set_loan_fields (set_loan_flags l (loan_Default l) true)
          (set_nextDue (loan_fields l) (Some (if d <=? parentCloseTime (env v) then d else parentCloseTime (env v)))),
        set_vault_loss x loss).
Proof.
  intros O Himp Hd. destruct (books_bounds _ _ _ _ _ _ O) as (B1 & B2 & B3 & B4 & B5 & B6 & B7).
  pose proof (on_books_vault _ _ _ _ _ _ _ _ O) as V. destruct (owed_paper _ _ _ _ _ _ _ _ O) as [_ HP].
  specialize (HP Himp). rewrite <- (vb_paper _ _ _ _ V) in HP, B7.
  destruct (owedToVault_units l (on_books_loan _ _ _ _ _ _ _ _ O)) as (z & Ez & Gz & Uz); [lia|].
  destruct (units_add (round_mode cfg) s HG (vault_LossUnrealized x) z (vb_loss _ _ _ _ V) Gz)
    as (loss & El & Gl & Ul); [lia|].
  destruct (units_sub (round_mode cfg) s HG _ _ (vb_total _ _ _ _ V) (vb_available _ _ _ _ V))
    as (u & Eu & Gu & Uu); [lia|].
  exists loss. splits; [done|lia|]. unfold impairLoan. rewrite Ez. cbn [bind]. rewrite El. cbn [bind].
  change (vault_AssetsTotal (set_vault_loss x loss)) with (vault_AssetsTotal x).
  change (vault_AssetsAvailable (set_vault_loss x loss)) with (vault_AssetsAvailable x).
  rewrite Eu. cbn [bind]. rewrite (units_gtb s loss u Gl Gu), Ul, Uu, Uz.
  destruct (_ <? _) eqn:E; zbool; [lia|].
  change (loan_fields (set_loan_flags l (loan_Default l) true)) with (loan_fields l).
  rewrite Hd. cbn [present bind hasExpired]. done.
Qed.

(** The due date an unimpaired loan gets. *)
Definition restored_due v (t : Loan) : Z :=
  let normal := u32 (Z.max (sfPreviousPaymentDate t) (sfStartDate t) + sfPaymentInterval t) in
  if normal <=? parentCloseTime (env v) then u32 (parentCloseTime (env v) + sfPaymentInterval t)
  else normal.

Lemma unimpairLoan_spec v k bid l b x :
  on_books s v k bid vid l b x -> loan_Impaired l = true ->
  exists loss, gridded s loss /\ units s loss = units s (vault_LossUnrealized x) - owed s l /\
  unimpairLoan cfg v l x =
    Ok (tesSUCCESS,
        set_loan_fields (set_loan_flags l (loan_Default l) false)
          (set_nextDue (loan_fields l) (Some (restored_due v (loan_fields l)))),
        set_vault_loss x loss).
Proof.
  intros O Himp. destruct (books_bounds _ _ _ _ _ _ O) as (B1 & B2 & B3 & B4 & B5 & B6 & B7).
  pose proof (on_books_vault _ _ _ _ _ _ _ _ O) as V. destruct (owed_paper _ _ _ _ _ _ _ _ O) as [HP _].
  specialize (HP Himp). rewrite <- (vb_paper _ _ _ _ V) in HP, B7.
  destruct (owedToVault_units l (on_books_loan _ _ _ _ _ _ _ _ O)) as (z & Ez & Gz & Uz); [lia|].
  destruct (units_sub (round_mode cfg) s HG (vault_LossUnrealized x) z (vb_loss _ _ _ _ V) Gz)
    as (loss & El & Gl & Ul); [lia|].
  exists loss. splits; [done|lia|]. unfold unimpairLoan. rewrite Ez. cbn [bind].
  rewrite (units_ltb s _ z (vb_loss _ _ _ _ V) Gz), Uz.
  destruct (_ <? _) eqn:E; zbool; [lia|]. rewrite El. cbn [bind]. done.
Qed.

(** The cover of a default is a whole number of units, no more than the default. *)
Lemma coveredByBroker_spec v k bid l b x z :
  current cfg -> asset_scale (vault_Asset x) s -> sfLoanScale (loan_fields l) = s ->
  on_books s v k bid vid l b x -> gridded s z -> units s z = owed s l ->
  exists c, coveredByBroker cfg (vault_Asset x) l b z = Ok c /\ gridded s c /\
    0 <= units s c <= owed s l.
Proof.
  intros HC HA HL O Gz Uz. pose proof (on_books_broker _ _ _ _ _ _ _ _ O) as Bb.
  destruct (books_bounds _ _ _ _ _ _ O) as (B1 & B2 & _).
  pose proof (bb_debt _ _ _ _ Bb) as Gd. pose proof (bb_owed _ _ _ _ Bb) as Ud.
  assert (nonneg (broker_DebtTotal b)) as Nd by (apply (nonneg_grid s _ _ Gd); lia).
  assert (nonneg z) as Nz by (apply (nonneg_grid s _ _ Gz); lia).
  assert (number_ltb (broker_DebtTotal b) (broker_DebtTotal b) = false) as Ld
    by (rewrite (units_ltb s _ _ Gd Gd); lia).
  assert (s <= 80) as H80.
  { unfold asset_scale, iou_scale, iou_maxExponent in HA. destruct (asset_integral (vault_Asset x)); lia. }
  pose proof (on_grid_wf s _ _ Gd) as Wd. pose proof (on_grid_wf s _ _ Gz) as Wz.
  pose proof (below_grid_exponent s _ _ _ HG Wd Nd Gd Ld) as Ed.
  destruct (tenthBips_below cfg (broker_DebtTotal b) (broker_CoverRateMinimum b) Wd Nd ltac:(lia)
              (bb_minimum _ _ _ _ Bb)) as (t & Ht & Wt & Nt & Lt).
  pose proof (below_grid_exponent s _ _ t HG Wt Nt Gd Lt) as Et.
  destruct (tenthBips_below cfg t (broker_CoverRateLiquidation b) Wt Nt ltac:(lia)
              (bb_liquidation _ _ _ _ Bb)) as (q & Hq & Wq & Nq & Lq).
  set (m := number_min q z).
  assert (wf m /\ nonneg m /\ number_ltb z m = false) as (Wm & Nm & Lm).
  { unfold m, number_min. destruct (number_ltb z q) eqn:E; splits; auto.
    rewrite (units_ltb s _ _ Gz Gz). lia. }
  pose proof (below_grid_exponent s _ _ m HG Wm Nm Gz Lm) as Em.
  destruct (roundToAsset_returns cfg (vault_Asset x) s m (round_mode cfg) HC HA Wm Em) as (c & Hc).
  destruct (roundToAsset_le cfg (vault_Asset x) s (units s z) z m (round_mode cfg) c HC HA Wm Nm Gz
              ltac:(lia) Lm Hc) as (g & Gc & Hg).
  exists c. unfold coveredByBroker. rewrite Ht. cbn [bind]. rewrite Hq. cbn [bind]. rewrite HL.
  splits; [done|by apply (grid_gridded s g)|rewrite (units_grid s g c Gc); lia..].
Qed.

(** What a default writes before it moves the cover. *)
Definition default_entries v (k bid : Z) l b x (T A L D C : Number) : View :=
  update_loan
    (update_broker (update_vault v vid (set_vault_loss (set_vault_assets x T A) L)) bid
       (set_broker_funds b D C))
    k (default_loan_entry l).

Lemma defaultLoan_spec v k bid l b x :
  current cfg -> asset_scale (vault_Asset x) s -> sfLoanScale (loan_fields l) = s ->
  on_books s v k bid vid l b x ->
  exists z c, owedToVault cfg l = Ok z /\ coveredByBroker cfg (vault_Asset x) l b z = Ok c /\
    gridded s c /\ 0 <= units s c <= owed s l /\
    (units s (broker_CoverAvailable b) < units s c ->
     exists v', defaultLoan cfg v k bid vid l b x (vault_Asset x) = Ok (tefBAD_LEDGER, v')) /\
    (units s c <= units s (broker_CoverAvailable b) ->
     exists T A L D C,
       gridded s T /\ gridded s A /\ gridded s L /\ gridded s D /\ gridded s C /\
       units s T = units s (vault_AssetsTotal x) - (owed s l - units s c) /\
       units s A = units s (vault_AssetsAvailable x) + units s c /\
       units s L = units s (vault_LossUnrealized x) - impaired_owed s l /\
       units s D = units s (broker_DebtTotal b) - owed s l /\
       units s C = units s (broker_CoverAvailable b) - units s c /\
       defaultLoan cfg v k bid vid l b x (vault_Asset x) =
         let* amount := st_of_number cfg (vault_Asset x) c in
         accountSend cfg (default_entries v k bid l b x T A L D C) (broker_Account b) (vault_Account x)
           amount Waive).
Proof.
  intros HC HA HL O. destruct (books_bounds _ _ _ _ _ _ O) as (B1 & B2 & B3 & B4 & B5 & B6 & B7).
  pose proof (on_books_vault _ _ _ _ _ _ _ _ O) as V. pose proof (on_books_broker _ _ _ _ _ _ _ _ O) as Bb.
  destruct (owed_paper _ _ _ _ _ _ _ _ O) as [HP _]. rewrite <- (vb_paper _ _ _ _ V) in HP, B7.
  destruct (owedToVault_units l (on_books_loan _ _ _ _ _ _ _ _ O)) as (z & Ez & Gz & Uz); [lia|].
  destruct (coveredByBroker_spec v k bid l b x z HC HA HL O Gz Uz) as (c & Ec & Gc & Hc).
  destruct (units_sub (round_mode cfg) s HG z c Gz Gc) as (w & Ew & Gw & Uw); [lia|].
  destruct (units_sub (round_mode cfg) s HG _ w (vb_total _ _ _ _ V) Gw) as (T & ET & GT & UT); [lia|].
  destruct (units_add (round_mode cfg) s HG _ c (vb_available _ _ _ _ V) Gc) as (A & EA & GA & UA); [lia|].
  destruct (units_sub (round_mode cfg) s HG _ z (bb_debt _ _ _ _ Bb) Gz) as (D & ED & GD & UD);
    [pose proof (bb_owed _ _ _ _ Bb); lia|].
  assert (exists L, (if loan_Impaired l then number_sub (round_mode cfg) (vault_LossUnrealized x) z
                     else Ok (vault_LossUnrealized x)) = Ok L /\ gridded s L /\
            units s L = units s (vault_LossUnrealized x) - impaired_owed s l) as (L & EL & GL & UL).
  { unfold impaired_owed. destruct (loan_Impaired l).
    - specialize (HP eq_refl).
      destruct (units_sub (round_mode cfg) s HG _ z (vb_loss _ _ _ _ V) Gz) as (L & ? & ? & ?); [lia|].
      exists L. splits; auto; lia.
    - exists (vault_LossUnrealized x). splits; [done|apply V|lia]. }
  assert (defaultLoan cfg v k bid vid l b x (vault_Asset x) =
          if number_ltb (broker_CoverAvailable b) c
          then Ok (tefBAD_LEDGER, update_vault v vid (set_vault_loss (set_vault_assets x T A) L))
          else
            let* C := number_sub (round_mode cfg) (broker_CoverAvailable b) c in
            let* amount := st_of_number cfg (vault_Asset x) c in
            accountSend cfg (default_entries v k bid l b x T A L D C) (broker_Account b) (vault_Account x)
              amount Waive) as ->.
  { unfold defaultLoan. rewrite Ez. cbn [bind]. rewrite Ec. cbn [bind]. rewrite Ew. cbn [bind].
    rewrite (units_ltb s _ w (vb_total _ _ _ _ V) Gw), (proj2 (Z.ltb_ge _ _)) by lia.
    rewrite ET. cbn [bind]. rewrite EA. cbn [bind]. unfold absorb_dust.
    rewrite (units_gtb s A T GA GT), (proj2 (Z.ltb_ge _ _)) by lia. cbn [andb bind].
    rewrite (units_gtb s A T GA GT), (proj2 (Z.ltb_ge _ _)) by lia.
    change (vault_LossUnrealized (set_vault_assets x T A)) with (vault_LossUnrealized x).
    rewrite (units_ltb s _ z (vb_loss _ _ _ _ V) Gz), Uz.
    replace (loan_Impaired l && (units s (vault_LossUnrealized x) <? owed s l)) with false
      by (destruct (loan_Impaired l); [specialize (HP eq_refl); simpl; lia|done]).
    rewrite EL. cbn [bind]. rewrite (units_ltb s _ z (bb_debt _ _ _ _ Bb) Gz), (proj2 (Z.ltb_ge _ _))
      by (pose proof (bb_owed _ _ _ _ Bb); lia).
    rewrite ED. cbn [bind]. done. }
  rewrite (units_ltb s _ c (bb_cover _ _ _ _ Bb) Gc).
  exists z, c. splits; try done; try lia.
  - intros Hlt. rewrite (proj2 (Z.ltb_lt _ _)) by lia. by eexists.
  - intros Hle. rewrite (proj2 (Z.ltb_ge _ _)) by lia.
    pose proof (gridded_bound s _ (bb_cover _ _ _ _ Bb)).
    destruct (units_sub (round_mode cfg) s HG _ c (bb_cover _ _ _ _ Bb) Gc) as (C & EC & GC & UC); [lia|].
    rewrite EC. cbn [bind]. exists T, A, L, D, C. splits; auto; lia.
Qed.

(** ** Balanced books stay balanced *)

Lemma books_frame v v' :
  vaults v' = vaults v -> brokers v' = brokers v -> loans v' = loans v ->
  books_balance s vid v -> books_balance s vid v'.
Proof.
  intros Ev Eb El [(x & Hx & [V1 V2 V3 V4 V5 V6]) B L].
  assert (forall l, in_vault v' vid l = in_vault v vid l) as Ein by (intros l; unfold in_vault; by rewrite Eb).
  split.
  - exists x. split; [by rewrite Ev|]. split; auto.
    + rewrite V5. unfold lent. rewrite El. f_equal. apply msum_ext. intros. by rewrite Ein.
    + rewrite V6. unfold paper_loss. rewrite El. apply msum_ext. intros. by rewrite Ein.
  - intros bid b. rewrite Eb. intros Hb Hv. destruct (B bid b Hb Hv). split; auto.
    unfold debt_of in *. by rewrite El.
  - intros k l. rewrite El, Ein. apply L.
Qed.

(** The loan and the vault change, the broker does not. *)
Lemma write_changed v k bid l l' b x x' :
  on_books s v k bid vid l b x -> loan_LoanBrokerID l' = loan_LoanBrokerID l ->
  changed v (update_loan (update_vault v vid x') k l') k bid vid l l' b b x x'.
Proof.
  intros O E. apply (changed_intro s); simpl; auto; try apply O.
  - by rewrite E, (ob_of_broker _ _ _ _ _ _ _ _ O).
  - symmetry. by apply insert_id, O.
Qed.

Lemma impair_books v k bid l b x loss d :
  on_books s v k bid vid l b x -> loan_Impaired l = false -> loan_Default l = false ->
  gridded s loss -> units s loss = units s (vault_LossUnrealized x) + owed s l ->
  books_balance s vid
    (update_loan (update_vault v vid (set_vault_loss x loss)) k
       (set_loan_fields (set_loan_flags l (loan_Default l) true) (set_nextDue (loan_fields l) d))).
Proof.
  intros O Hi Hd Gl Ul. set (l' := set_loan_fields _ _).
  pose proof (on_books_vault _ _ _ _ _ _ _ _ O) as V. pose proof (on_books_broker _ _ _ _ _ _ _ _ O) as Bb.
  destruct (on_books_loan _ _ _ _ _ _ _ _ O) as [L1 L2 L3 _].
  assert (owed s l' = owed s l) as Eo by done.
  eapply (books_changed s vid v _ k bid l l' b b x);
    [apply O|by apply write_changed|split; [done|done|done|simpl; congruence]|].
  split; try apply V; try apply Bb; auto; try (rewrite Eo; simpl; lia).
  unfold impaired_owed. rewrite Hi. simpl. rewrite Eo. lia.
Qed.

Lemma unimpair_books v k bid l b x loss d :
  on_books s v k bid vid l b x -> loan_Impaired l = true -> loan_Default l = false ->
  gridded s loss -> units s loss = units s (vault_LossUnrealized x) - owed s l ->
  books_balance s vid
    (update_loan (update_vault v vid (set_vault_loss x loss)) k
       (set_loan_fields (set_loan_flags l (loan_Default l) false) (set_nextDue (loan_fields l) d))).
Proof.
  intros O Hi Hd Gl Ul. set (l' := set_loan_fields _ _).
  pose proof (on_books_vault _ _ _ _ _ _ _ _ O) as V. pose proof (on_books_broker _ _ _ _ _ _ _ _ O) as Bb.
  destruct (on_books_loan _ _ _ _ _ _ _ _ O) as [L1 L2 L3 _].
  assert (owed s l' = owed s l) as Eo by done.
  eapply (books_changed s vid v _ k bid l l' b b x);
    [apply O|by apply write_changed|split; [done|done|done|simpl; congruence]|].
  split; try apply V; try apply Bb; auto; try (rewrite Eo; simpl; lia).
  unfold impaired_owed. rewrite Hi. simpl. lia.
Qed.

Lemma default_closed l : closed (default_loan_entry l).
Proof. done. Qed.

Lemma default_books v k bid l b x c T A L D C :
  on_books s v k bid vid l b x -> 0 <= c <= owed s l ->
  gridded s T -> gridded s A -> gridded s L -> gridded s D -> gridded s C ->
  units s T = units s (vault_AssetsTotal x) - (owed s l - c) ->
  units s A = units s (vault_AssetsAvailable x) + c ->
  units s L = units s (vault_LossUnrealized x) - impaired_owed s l ->
  units s D = units s (broker_DebtTotal b) - owed s l ->
  units s C = units s (broker_CoverAvailable b) - c -> c <= units s (broker_CoverAvailable b) ->
  books_balance s vid (default_entries v k bid l b x T A L D C).
Proof.
  intros O Hc GT GA GL GD GC UT UA UL UD UC Hle.
  pose proof (on_books_vault _ _ _ _ _ _ _ _ O) as V. pose proof (vb_available_nonneg _ _ _ _ V).
  assert (owed s (default_loan_entry l) = 0) as Eo by done.
  destruct (gridded_zero s) as [Gz _].
  eapply (books_changed s vid v _ k bid l (default_loan_entry l) b (set_broker_funds b D C) x
           (set_vault_loss (set_vault_assets x T A) L));
    [apply O| |split; [done|done|by rewrite Eo|intros; apply default_closed]|].
  - apply (changed_intro s); auto; apply O.
  - assert (impaired_owed s (default_loan_entry l) = 0) as Ei
      by (unfold impaired_owed; rewrite Eo; by destruct (loan_Impaired _)).
    rewrite Eo, Ei. split; try assumption; try done; simpl; lia.
Qed.

(** ** The transaction *)

(** What the checks leave through. *)
Record admitted v (tx : LoanManageTx) l b : Prop := {
  ad_loan : loans v !! lm_LoanID tx = Some l;
  ad_broker : brokers v !! loan_LoanBrokerID l = Some b;
  ad_owner : broker_Owner b = lm_Account tx;
  ad_default : loan_Default l = false;
  ad_impair : lm_isFlag tx tfLoanImpair = true -> loan_Impaired l = false;
  ad_unimpair : lm_isFlag tx tfLoanUnimpair = true -> loan_Impaired l = true;
  ad_remaining : sfPaymentRemaining (loan_fields l) <> 0 }.

Lemma preclaim_admits v tx :
  LoanManage_preclaim v tx = Ok tesSUCCESS -> exists l b, admitted v tx l b.
Proof.
  unfold LoanManage_preclaim. destruct (loans v !! lm_LoanID tx) as [l|] eqn:Hl; [|done].
  destruct (loan_Default l) eqn:Ed; [done|]. destruct (loan_Impaired l && _) eqn:Ei; [done|].
  destruct (negb _ && _) eqn:Eu; [done|]. destruct (_ =? 0) eqn:Er; [done|]. zbool.
  intros (soon & _ & Hp)%bind_ok. destruct soon; [done|].
  destruct (brokers v !! loan_LoanBrokerID l) as [b|] eqn:Hb; [|done].
  destruct (broker_Owner b =? lm_Account tx) eqn:Eo; [|done]. zbool.
  exists l, b. split; auto.
  - intros E. rewrite E, andb_true_r in Ei. done.
  - intros E. rewrite E, andb_true_r, orb_false_r in Eu. by destruct (loan_Impaired l).
Qed.

Lemma impairLoan_due v l x l' x' :
  impairLoan cfg v l x = Ok (tesSUCCESS, l', x') -> is_Some (sfNextPaymentDueDate (loan_fields l)).
Proof.
  unfold impairLoan. intros (z & _ & Hr)%bind_ok. apply bind_ok in Hr as (loss & _ & Hr).
  apply bind_ok in Hr as (u & _ & Hr). destruct (number_gtb loss u); [done|].
  apply bind_ok in Hr as (d & Hd & _). simpl in Hd. destruct (sfNextPaymentDueDate (loan_fields l)); [eauto|done].
Qed.

(** No entry but those of the loan is touched. *)
Definition others_same v v' (k bid : Z) : Prop :=
  (forall k', k' <> k -> loans v' !! k' = loans v !! k') /\
  (forall bid', bid' <> bid -> brokers v' !! bid' = brokers v !! bid') /\
  (forall vid', vid' <> vid -> vaults v' !! vid' = vaults v !! vid').

Lemma write_others v k bid x l : others_same v (update_loan (update_vault v vid x) k l) k bid.
Proof. unfold others_same. splits; intros k' Hk; simpl; by rewrite ?lookup_insert_ne by done. Qed.

Lemma LoanManage_keeps v tx l b x v' :
  current cfg -> asset_scale (vault_Asset x) s -> sfLoanScale (loan_fields l) = s ->
  on_books s v (lm_LoanID tx) (loan_LoanBrokerID l) vid l b x -> admitted v tx l b ->
  LoanManage_doApply cfg v tx = Ok (tesSUCCESS, v') ->
  books_balance s vid v' /\ others_same v v' (lm_LoanID tx) (loan_LoanBrokerID l).
Proof.
  intros HC HA HL O [A1 A2 A3 A4 A5 A6 A7] Hr. unfold LoanManage_doApply in Hr.
  rewrite A1, A2, (ob_of_vault _ _ _ _ _ _ _ _ O), (ob_vault _ _ _ _ _ _ _ _ O) in Hr.
  destruct (lm_isFlag tx tfLoanDefault).
  { destruct (defaultLoan_spec v _ _ l b x HC HA HL O) as (z & c & _ & _ & Gc & Hc & Hno & Hyes).
    destruct (Z.lt_ge_cases (units s (broker_CoverAvailable b)) (units s c)) as [Hlt|Hge].
    { destruct (Hno Hlt) as [v1 E]. congruence. }
    destruct (Hyes Hge) as (T & A & L & D & C & GT & GA & GL & GD & GC & UT & UA & UL & UD & UC & E).
    rewrite E in Hr. apply bind_ok in Hr as (amount & _ & Hr).
    apply accountSend_frame, frame_parts in Hr as (E1 & E2 & E3). split.
    - apply (books_frame (default_entries v (lm_LoanID tx) (loan_LoanBrokerID l) l b x T A L D C)); auto.
      by apply (default_books v _ _ l b x (units s c)).
    - unfold others_same. rewrite E1, E2, E3. splits; intros k' Hk; simpl; by rewrite ?lookup_insert_ne by done. }
  destruct (lm_isFlag tx tfLoanImpair).
  { apply bind_ok in Hr as ([[ter l'] x'] & Hi & Hr). injection Hr as Ht <-. subst ter.
    destruct (impairLoan_due _ _ _ _ _ Hi) as [d Hd].
    destruct (impairLoan_spec v _ _ l b x d O (A5 eq_refl) Hd) as (loss & Gl & Ul & E).
    rewrite E in Hi. injection Hi as <- <-. split; [|apply write_others]. by apply (impair_books _ _ _ _ _ _ _ _ O); auto. }
  destruct (lm_isFlag tx tfLoanUnimpair).
  { apply bind_ok in Hr as ([[ter l'] x'] & Hi & Hr). injection Hr as Ht <-. subst ter.
    destruct (unimpairLoan_spec v _ _ l b x O (A6 eq_refl)) as (loss & Gl & Ul & E).
    rewrite E in Hi. injection Hi as <- <-. split; [|apply write_others]. by apply (unimpair_books _ _ _ _ _ _ _ _ O); auto. }
  injection Hr as <-. split; [apply O|]. unfold others_same. by splits.
Qed.

End Manage.
