(* ===== verification/LoanPayFacts.v ===== *)
(** * Theory of loan payments

    A regular payment in time on balanced books: what it does to the loan, the broker,
    the vault and the funds. *)

From S2P Require Import Prelude.
From S2P Require Import Ter.
From S2P Require Import XrplNumber.
From S2P Require Import XrplNumberFacts.
From S2P Require Import XrplNumberGrid.
From S2P Require Import Amounts.
From S2P Require Import AmountsFacts.
From S2P Require Import AmountsRound.
From S2P Require Import AmountsWhole.
From S2P Require Import Lending.
From S2P Require Import LendingFacts.
From S2P Require Import LendingSpec.
From S2P Require Import LendingRefine.
From S2P Require Import LedgerState.
From S2P Require Import Holdings.
From S2P Require Import Transfers.
From S2P Require Import TransfersFrame.
From S2P Require Import TransfersMPT.
From S2P Require Import LoanManage.
From S2P Require Import LoanBooks.
From S2P Require Import LoanManageFacts.
From S2P Require Import Transactors.
From S2P Require Import LoanPay.
From stdpp Require Import gmap list.

Local Open Scope Z_scope.

Lemma payable_nextDue cfg asset x u sf rate d :
  payable cfg asset x u sf rate -> payable cfg asset (set_nextDue x d) u sf rate.
Proof. intros [H1 [] [] H4 H5 H6 H7 H8]. split; auto; split; auto. Qed.

(** The date by which a payment is in time. *)
Definition due_date (v : View) (l : LoanEntry) : option Z :=
  if loan_Impaired l then Some (restored_due v (loan_fields l))
  else sfNextPaymentDueDate (loan_fields l).

Definition in_time (v : View) (l : LoanEntry) : Prop :=
  exists d, due_date v l = Some d /\ word d /\ parentCloseTime (env v) < d.

(** A payment with neither flag. *)
Definition regular (tx : LoanPayTx) : Prop :=
  isFlag (pay_Flags tx) tfLoanFullPayment = false /\ isFlag (pay_Flags tx) tfLoanOverpayment = false.

Section Pay.
Context `{Keylets} (cfg : Settings) (s vid : Z) (HG : grid_scale s).
Implicit Types (v : View) (l : LoanEntry) (b : LoanBroker) (x : Vault).

(** The loan and the vault as the payment finds them. *)
Lemma unimpaired_spec v k bid l b x :
  on_books s v k bid vid l b x -> loan_Default l = false ->
  exists l1 x1, unimpaired cfg v l x = Ok (l1, x1) /\
    l1 = set_loan_fields (set_loan_flags l (loan_Default l) false) (set_nextDue (loan_fields l) (due_date v l)) /\
    (exists loss, x1 = set_vault_loss x loss /\ gridded s loss /\
       units s loss = units s (vault_LossUnrealized x) - impaired_owed s l).
Proof.
  intros O Hd. unfold unimpaired, due_date, impaired_owed.
  destruct (loan_Impaired l) eqn:Hi.
  - destruct (unimpairLoan_spec cfg s vid HG v k bid l b x O Hi) as (loss & Gl & Ul & ->).
    cbn [bind]. do 2 eexists. split; [done|]. split; [done|]. by exists loss.
  - exists l, x. split; [done|]. split.
    + destruct l as [t bo lb gp df im]. simpl in *. subst im. f_equal. by destruct t.
    + exists (vault_LossUnrealized x). splits; [by destruct x|apply (on_books_vault _ _ _ _ _ _ _ _ O)|lia].
Qed.

Lemma nonneg_part n y : on_grid s n y -> 0 <= n -> number_ltb y zero = false.
Proof. intros Hy Hn. rewrite (grid_ltb s n 0 y zero Hy (on_grid_zero s)). lia. Qed.

(** The accounts after a payment of [p] units to the vault and [f] to the broker. *)
Lemma book_payment_spec asset b x parts a fees (toOwner : bool) :
  current cfg -> deep_scale asset s -> parts_are s parts a fees -> split_nonneg a -> 0 <= fees ->
  gridded s (vault_AssetsTotal x) -> gridded s (vault_AssetsAvailable x) ->
  gridded s (broker_DebtTotal b) -> gridded s (broker_CoverAvailable b) ->
  let p := sp_principal a + sp_interest a in
  let f := sp_fee a + fees in
  0 <= units s (vault_AssetsAvailable x) -> units s (vault_AssetsAvailable x) + p <= maxMantissa ->
  0 <= units s (broker_CoverAvailable b) -> units s (broker_CoverAvailable b) + f <= maxMantissa ->
  0 <= units s (broker_DebtTotal b) ->
  exists D C A z, gridded s D /\ gridded s C /\ gridded s A /\ on_grid s p z /\
    units s D = Z.max 0 (units s (broker_DebtTotal b) - p) /\
    units s C = units s (broker_CoverAvailable b) + (if toOwner then 0 else f) /\
    units s A = units s (vault_AssetsAvailable x) + p /\
    book_payment cfg asset b x parts toOwner =
      Ok (set_broker_funds b D C, set_vault_assets x (vault_AssetsTotal x) A, z).
Proof.
  intros HC HS [P1 P2 P3 P4] (N1 & N2 & N3) Hf GT GA GD GC p f HA0 HA HC0 HCf HD0.
  destruct (grid_add (round_mode cfg) s _ _ _ _ HG P1 P2) as (z & Ez & Gz); [unfold p in *; lia|]. fold p in Gz.
  assert (number_sub (round_mode cfg) z zero = Ok z) as E0.
  { destruct (grid_sub (round_mode cfg) s _ _ z zero HG Gz (on_grid_zero s)) as (z' & E & Gz');
      [pose proof (on_grid_bound _ _ _ Gz); lia|].
    rewrite E. f_equal. rewrite Z.sub_0_r in Gz'. by apply (on_grid_unique s p). }
  assert (units s z = p) as Uz by (by apply units_grid).
  pose proof (grid_gridded s _ _ Gz) as Ggz.
  destruct (units_add (round_mode cfg) s HG _ z GA Ggz) as (A & EA & GA' & UA); [lia|].
  assert (exists D, (if number_geb z (broker_DebtTotal b) then Ok zero
                     else number_sub (round_mode cfg) (broker_DebtTotal b) z) = Ok D /\ gridded s D /\
            units s D = Z.max 0 (units s (broker_DebtTotal b) - p)) as (D & ED & GD' & UD).
  { unfold number_geb. rewrite (units_ltb s _ _ Ggz GD), Uz. pose proof (gridded_bound s _ GD).
    destruct (p <? units s (broker_DebtTotal b)) eqn:E; zbool; cbn [negb].
    - destruct (units_sub (round_mode cfg) s HG _ z GD Ggz) as (D & ? & ? & ?); [lia|].
      exists D. splits; auto; lia.
    - exists zero. splits; [done|apply gridded_zero|]. destruct (gridded_zero s) as [_ ->]. lia. }
  assert (exists C, (if toOwner then Ok (broker_CoverAvailable b)
                     else number_add (round_mode cfg) (broker_CoverAvailable b) (feePaid parts)) = Ok C /\
            gridded s C /\ units s C = units s (broker_CoverAvailable b) + (if toOwner then 0 else f))
    as (C & EC & GC' & UC).
  { destruct toOwner; [exists (broker_CoverAvailable b); splits; auto; lia|].
    pose proof (units_grid s _ _ P4) as Uf. fold f in Uf.
    destruct (units_add (round_mode cfg) s HG _ (feePaid parts) GC (grid_gridded s _ _ P4)) as (C & ? & ? & ?);
      [unfold f in *; lia|]. exists C. splits; auto; lia. }
  exists D, C, A, z. splits; auto; [lia|]. unfold book_payment. rewrite Ez. cbn [bind].
  rewrite (roundToAsset_finer cfg asset s p z _ _ downward HC HS Gz GA). cbn [bind].
  rewrite P3, E0. cbn [bind]. rewrite ED. cbn [bind]. rewrite EA. cbn [bind].
  rewrite number_add_zero_r. cbn [bind]. rewrite EC. cbn [bind]. done.
Qed.

Lemma restore_holding_frame v payee payer asset ter v' :
  restore_holding cfg v payee payer asset = Ok (ter, v') -> frame v' = frame v.
Proof.
  unfold restore_holding. destruct (payee =? payer); [apply ensure_holding_frame|congruence].
Qed.

(** When the funds are moved both receivers were authorized, and the transfer is one
    payment to the two of them. *)
Lemma move_funds_inv v payer asset vaultAccount brokerPayee z f v' :
  move_funds cfg v payer asset vaultAccount brokerPayee z f = Ok (tesSUCCESS, v') ->
  exists v1, frame v1 = frame v /\ (brokerPayee <> payer -> v1 = v) /\
    accountSendMulti cfg v1 payer asset [(vaultAccount, z); (brokerPayee, f)] Waive = Ok (tesSUCCESS, v').
Proof.
  unfold move_funds, and_then. intros ([t1 v1] & E1 & Hr)%bind_ok. injection E1 as <- <-.
  destruct (isTesSuccess _) eqn:Et; [|apply failed_code in Et; congruence].
  apply bind_ok in Hr as ([t2 v2] & E2 & Hr).
  destruct (isTesSuccess t2) eqn:Et2; [|apply failed_code in Et2; congruence].
  exists v2. destruct (number_eqb f zero); [injection E2 as _ <-; by splits|].
  apply bind_ok in E2 as ([t3 v3] & E3 & E2).
  assert (v3 = v2) as -> by (destruct (isTesSuccess t3); congruence).
  splits; [by apply restore_holding_frame in E3| |done].
  intros Hne. unfold restore_holding in E3. apply Z.eqb_neq in Hne. rewrite Hne in E3. congruence.
Qed.

Lemma move_funds_frame v payer asset vaultAccount brokerPayee z f v' :
  move_funds cfg v payer asset vaultAccount brokerPayee z f = Ok (tesSUCCESS, v') -> frame v' = frame v.
Proof.
  intros (v1 & E & _ & Hs)%move_funds_inv. apply accountSendMulti_frame in Hs. congruence.
Qed.

(** The entries a payment writes. *)
Definition paid_entries v (k bid : Z) l b x (t : Loan) (loss A D C : Number) : View :=
  update_vault
    (update_broker
       (update_loan v k (set_loan_fields (set_loan_flags l (loan_Default l) false) t)) bid
       (set_broker_funds b D C))
    vid (set_vault_assets (set_vault_loss x loss) (vault_AssetsTotal x) A).

(** Room for the sums of a payment. *)
Definition room (u : LendingSpec.Units) (sf : Z) b x : Prop :=
  units s (vault_AssetsAvailable x) + exposure u <= maxMantissa /\
  units s (broker_CoverAvailable b) + exposure u + 100 * sf <= maxMantissa.

Lemma LoanPay_regular v tx l b x u sf amt v' :
  current cfg -> deep_scale (vault_Asset x) s -> sfLoanScale (loan_fields l) = s ->
  on_books s v (pay_LoanID tx) (loan_LoanBrokerID l) vid l b x -> loan_Default l = false ->
  payable cfg (vault_Asset x) (loan_fields l) u sf (broker_ManagementFeeRate b) ->
  in_time v l -> regular tx -> number_of_st cfg (pay_Amount tx) = Ok amt -> room u sf b x ->
  LoanPay_doApply cfg v tx = Ok (tesSUCCESS, v') ->
  exists j a u' t loss A D C z fee (toOwner : bool),
    (1 <= j <= 100)%nat /\ pay_steps j u a u' /\ represents t u' /\ sfLoanScale t = s /\
    (forall M, on_grid s M amt -> split_sum a + Z.of_nat j * sf <= M) /\
    gridded s loss /\ gridded s A /\ gridded s D /\ gridded s C /\
    on_grid s (sp_principal a + sp_interest a) z /\ on_grid s (sp_fee a + Z.of_nat j * sf) fee /\
    units s loss = units s (vault_LossUnrealized x) - impaired_owed s l /\
    units s A = units s (vault_AssetsAvailable x) + (sp_principal a + sp_interest a) /\
    units s D = Z.max 0 (units s (broker_DebtTotal b) - (sp_principal a + sp_interest a)) /\
    units s C = units s (broker_CoverAvailable b) + (if toOwner then 0 else sp_fee a + Z.of_nat j * sf) /\
    move_funds cfg (paid_entries v (pay_LoanID tx) (loan_LoanBrokerID l) l b x t loss A D C)
      (pay_Account tx) (vault_Asset x) (vault_Account x)
      (if toOwner then broker_Owner b else broker_Account b) z fee = Ok (tesSUCCESS, v').
Proof.
  intros HC HS HL O Hd HP (d & Hdue & Wd & Hnow) [R1 R2] Hamt [Rm1 Rm2] Hr.
  pose proof (on_books_vault _ _ _ _ _ _ _ _ O) as V. pose proof (on_books_broker _ _ _ _ _ _ _ _ O) as Bb.
  destruct (books_bounds s vid _ _ _ _ _ _ O) as (B1 & B2 & B3 & B4 & B5 & B6 & B7).
  unfold LoanPay_doApply in Hr.
  rewrite (ob_loan _ _ _ _ _ _ _ _ O), (ob_broker _ _ _ _ _ _ _ _ O), (ob_of_vault _ _ _ _ _ _ _ _ O),
    (ob_vault _ _ _ _ _ _ _ _ O) in Hr.
  apply bind_ok in Hr as (toOwner & _ & Hr).
  destruct (isTesSuccess _) eqn:Ef; cbn [negb] in Hr; [|apply failed_code in Ef; congruence].
  destruct (unimpaired_spec v _ _ l b x O Hd) as (l1 & x1 & Eu & El1 & loss & Ex1 & Gloss & Uloss).
  rewrite Eu in Hr. cbn [bind] in Hr. apply bind_ok in Hr as ([pp l2] & Hm & Hr).
  unfold makePayment in Hm. rewrite R1, R2 in Hm. apply bind_ok in Hm as ([pp' t] & Hm & [= -> <-]).
  destruct pp as [parts|e]; [|apply loanMakePayment_refused, failed_code in Hm; congruence].
  subst l1. simpl in Hm. rewrite Hdue in Hm.
  assert (hasExpired (parentCloseTime (env v)) (Some d) = false) as Hx by (simpl; lia).
  destruct (loanMakePayment_regular cfg (vault_Asset x) _ u sf _ _ d (pay_Amount tx) amt parts t
              (payable_nextDue _ _ _ _ _ _ (Some d) HP) eq_refl Wd Hx Hamt Hm)
    as (j & a & u' & HJ & SS & R' & SM & PA & PL). simpl in PA, PL. rewrite HL in PA, PL.
  destruct (pay_steps_conserve _ _ _ _ SS) as (NN & E1 & E2 & E3).
  pose proof (pay_steps_ok _ _ _ _ SS (pay_ok _ _ _ _ _ _ HP)) as [O1 O2 _ _].
  destruct NN as (N1 & N2 & N3). pose proof (terms_service_nonneg _ _ _ (pay_terms _ _ _ _ _ _ HP)) as Hsf.
  assert (0 <= exposure u') as Hexp by (unfold exposure; lia).
  assert (0 <= Z.of_nat j * sf <= 100 * sf) as Hfees by nia.
  cbn [bind] in Hr. rewrite (nonneg_part _ _ (parts_principal _ _ _ _ PA) N1),
    (nonneg_part _ _ (parts_interest _ _ _ _ PA) N2),
    (nonneg_part _ _ (parts_fee _ _ _ _ PA)) in Hr by lia. cbn [orb] in Hr.
  unfold split_sum in E3.
  destruct (book_payment_spec (vault_Asset x) b (set_vault_loss x loss) parts a (Z.of_nat j * sf) toOwner
              HC HS PA (conj N1 (conj N2 N3)) ltac:(lia) (vb_total _ _ _ _ V) (vb_available _ _ _ _ V)
              (bb_debt _ _ _ _ Bb) (bb_cover _ _ _ _ Bb))
    as (D & C & A & z & GD & GC & GA & Gz & UD & UC & UA & Eb);
    [exact B3|simpl; lia|apply Bb|simpl; lia|pose proof (bb_owed _ _ _ _ Bb); lia|].
  subst x1. rewrite Eb in Hr. cbn [bind] in Hr.
  exists j, a, u', t, loss, A, D, C, z, (feePaid parts), toOwner. splits; auto; try lia.
  - by destruct SM as [-> _].
  - apply PA.
Qed.

(** A payment that takes from the loan exactly what it charges keeps the books. *)
Lemma paid_books v k bid l b x u a u' t loss A D C f :
  on_books s v k bid vid l b x -> loan_Default l = false -> sfLoanScale (loan_fields l) = s ->
  represents (loan_fields l) u -> represents t u' -> sfLoanScale t = s ->
  sp_fee a = u_fee u - u_fee u' -> split_sum a = u_total u - u_total u' -> split_nonneg a ->
  u_fee u' <= u_total u' -> 0 <= f ->
  gridded s loss -> gridded s A -> gridded s D -> gridded s C ->
  units s loss = units s (vault_LossUnrealized x) - impaired_owed s l ->
  units s A = units s (vault_AssetsAvailable x) + (sp_principal a + sp_interest a) ->
  units s D = Z.max 0 (units s (broker_DebtTotal b) - (sp_principal a + sp_interest a)) ->
  units s C = units s (broker_CoverAvailable b) + f ->
  books_balance s vid (paid_entries v k bid l b x t loss A D C).
Proof.
  intros O Hd HL [r1 r2 r3 _ _] [q1 q2 q3 _ _] HL' Ef Et (N1 & N2 & N3) Ho Hf Gl GA GD GC Ul UA UD UC.
  rewrite HL in r1, r3. rewrite HL' in q1, q3. unfold split_sum in Et.
  pose proof (on_books_vault _ _ _ _ _ _ _ _ O) as V. pose proof (on_books_broker _ _ _ _ _ _ _ _ O) as Bb.
  destruct (books_bounds s vid _ _ _ _ _ _ O) as (B1 & B2 & B3 & B4 & B5 & B6 & B7).
  set (l' := set_loan_fields (set_loan_flags l (loan_Default l) false) t).
  assert (owed s l = u_total u - u_fee u) as E1 by (unfold owed; by rewrite (units_grid s _ _ r1), (units_grid s _ _ r3)).
  assert (owed s l' = u_total u' - u_fee u') as E2
    by (unfold owed; simpl; by rewrite (units_grid s _ _ q1), (units_grid s _ _ q3)).
  pose proof (bb_owed _ _ _ _ Bb) as Hdebt. pose proof (bb_cover_nonneg _ _ _ _ Bb).
  eapply (books_changed s vid v _ k bid l l' b (set_broker_funds b D C) x
            (set_vault_assets (set_vault_loss x loss) (vault_AssetsTotal x) A));
    [apply O| | |].
  - apply (changed_intro s); auto; apply O.
  - split; [by apply (grid_gridded s _ _ q1)|by apply (grid_gridded s _ _ q3)|lia|simpl; congruence].
  - assert (impaired_owed s l' = 0) as Ei by done. rewrite Ei.
    split; try assumption; try apply V; try done; simpl; lia.
Qed.

End Pay.

(** ** The funds *)

(** The two payments of a loan payment, in whole tokens. *)
Lemma two_payments cfg id r1 r2 p f z fee :
  current cfg -> on_grid 0 p z -> on_grid 0 f fee -> 0 <= p -> 0 <= f ->
  whole_payments cfg (AMPT id) [(r1, z); (r2, fee)] [(r1, p); (r2, f)].
Proof. intros HC Hz Hf. repeat constructor; auto; by apply st_of_number_whole. Qed.

(** Tokens before the transfer are those of the view the payment began with. *)
Lemma paid_entries_tokens vid v k bid l b x t loss A D C id y :
  let v1 := paid_entries vid v k bid l b x t loss A D C in
  mpt_balance v1 id y = mpt_balance v id y /\ (forall B, books v id B -> books v1 id B).
Proof. intros v1. split; [done|]. intros B []. by split. Qed.
