(* ===== verification/LoanSetFacts.v ===== *)
(** * Theory of new loans

    The entries that a new loan writes, in units of its scale, and the books after it. *)

From S2P Require Import Prelude.
From S2P Require Import Ter.
From S2P Require Import XrplNumber.
From S2P Require Import XrplNumberFacts.
From S2P Require Import XrplNumberCorrect.
From S2P Require Import XrplNumberAdd.
From S2P Require Import XrplNumberProps.
From S2P Require Import XrplNumberGrid.
From S2P Require Import XrplNumberMultiple.
From S2P Require Import Amounts.
From S2P Require Import AmountsFacts.
From S2P Require Import AmountsRound.
From S2P Require Import AmountsWhole.
From S2P Require Import Lending.
From S2P Require Import LendingFacts.
From S2P Require Import Directories.
From S2P Require Import LedgerState.
From S2P Require Import Holdings.
From S2P Require Import Transfers.
From S2P Require Import TransfersFrame.
From S2P Require Import Transactors.
From S2P Require Import TransfersMPT.
From S2P Require Import TransfersHoldings.
From S2P Require Import LoanManage.
From S2P Require Import LoanPay.
From S2P Require Import LoanSet.
From S2P Require Import LoanBooks.
From S2P Require Import LoanManageFacts.
From S2P Require Import LoanPayFacts.
From stdpp Require Import gmap list.

Local Open Scope Z_scope.

(** ** Values of the asset *)

Lemma directed_agree n d :
  0 < d -> 0 <= n -> round_quot downward false n d = round_quot upward false n d -> n mod d = 0.
Proof.
  intros Hd Hn. unfold round_quot. simpl. destruct (0 <? n mod d) eqn:E; zbool; [lia|].
  pose proof (Z.mod_pos_bound n d Hd). lia.
Qed.

Lemma number_eqb_true x y : number_eqb x y = true -> x = y.
Proof.
  unfold number_eqb. destruct x, y. simpl. rewrite andb_true_iff. intros [? ?]. zbool. by f_equal.
Qed.

Lemma representable_whole cfg asset x :
  current cfg -> asset_integral asset = true -> normal x -> representable cfg asset x = Ok true ->
  multiple 0 x.
Proof.
  intros HC HA Hx Hrep. unfold representable in Hrep.
  rewrite (st_of_number_integral cfg asset) in Hrep by auto.
  destruct (_ && _); [done|]. bind_inv Hrep. bind_inv Hrep. bind_inv Hb. rename a1 into w.
  destruct (integral_limit asset <? Z.abs w); [done|]. injection Hb as <-.
  pose proof (round_whole_range _ x w (or_intror Hx) Hb1) as Hw.
  rewrite number_of_st_whole in Hb0 by done. injection Hrep as ->%number_eqb_true.
  by apply (of_rep_multiple (round_mode cfg) w).
Qed.

Lemma rounded_multiple cfg asset s x :
  current cfg -> asset_integral asset = false -> iou_scale s -> normal x -> nonneg x ->
  iou_minExponent <= exponent_ x <= iou_maxExponent -> isRounded cfg asset x s = Ok true -> multiple s x.
Proof.
  intros HC HA HS Hx Hn He Hround. unfold isRounded in Hround. bind_inv Hround. bind_inv Hround.
  injection Hround as ->%number_eqb_true.
  pose proof (roundToAsset_iou cfg asset s x downward HC HA HS (or_intror Hx)) as Hd.
  pose proof (roundToAsset_iou cfg asset s x upward HC HA HS (or_intror Hx)) as Hu.
  rewrite !(proj2 (Z.ltb_ge _ _)) in Hd, Hu by lia.
  destruct (s <=? exponent_ x) eqn:E; zbool.
  { destruct (Z.eq_dec (exponent_ x) s) as [<-|]; [|right; split; [done|lia]].
    left. exists (mantissa_ x). right. splits; [done|lia|]. rewrite Z.sub_diag. lia. }
  destruct Hd as (z1 & E1 & G1), Hu as (z2 & E2 & G2).
  assert (z1 = z2) as -> by congruence. pose proof (on_grid_fun _ _ _ _ G1 G2) as Eu.
  unfold round_units in Eu. apply nonneg_neg_number in Hn; [|by right]. rewrite Hn in Eu. unfold sgn in Eu. rewrite !Z.mul_1_l in Eu.
  pose proof (pow10_pos (s - exponent_ x) ltac:(lia)) as Hp.
  apply directed_agree in Eu; [|lia|unfold abs_mantissa; lia].
  left. exists (mantissa_ x / 10 ^ (s - exponent_ x)). right. splits; [done|lia|].
  unfold abs_mantissa, neg_number in *. zbool. rewrite Z.abs_eq in Eu by lia.
  pose proof (Z.div_mod (mantissa_ x) (10 ^ (s - exponent_ x)) ltac:(lia)). lia.
Qed.

(** A value that the asset can hold, that rounds to itself at the scale and whose
    exponent is not above it, is a number of units. *)
Lemma value_gridded cfg asset s x :
  current cfg -> asset_scale asset s -> wf x -> nonneg x -> exponent_ x <= s ->
  representable cfg asset x = Ok true -> isRounded cfg asset x s = Ok true -> gridded s x.
Proof.
  intros HC HS Hx Hn He Hrep Hround.
  destruct Hx as [-> | Hx]; [apply gridded_zero|].
  assert (multiple s x) as [[n Hg] | [_ Hlt]]; [|by apply (grid_gridded s n)|lia].
  unfold asset_scale in HS. destruct (asset_integral asset) eqn:HA.
  - subst s. by eapply representable_whole.
  - apply (rounded_multiple cfg asset); auto. unfold representable in Hrep.
    rewrite (st_of_number_iou cfg asset) in Hrep by (auto; by right).
    unfold st_clamp in Hrep. destruct (iou_maxExponent <? _) eqn:E1; [done|].
    destruct (exponent_ x <? iou_minExponent) eqn:E2; zbool; [|lia].
    bind_inv Hrep. bind_inv Hrep. injection Hb as <-.
    rewrite number_of_st_iou_zero in Hb0 by auto. injection Hb0 as <-. injection Hrep as <-%number_eqb_true.
    destruct Hx as [Hx _]. unfold abs_mantissa, minMantissa in Hx. simpl in Hx. lia.
Qed.

(** ** The properties of a loan *)

Lemma loanPeriodicPayment_wf cfg P r n z :
  wf P -> wf r -> word n -> loanPeriodicPayment cfg P r n = Ok z -> wf z.
Proof.
  intros HP Hr Hn. unfold loanPeriodicPayment. destruct (_ || _); [intros [= <-]; by left|].
  destruct (_ =? _); intros Hz; peel Hz.
  - repeat wf_num. assumption.
  - pose proof (computePaymentFactor_wf cfg r n _ Hr Hb). repeat wf_num. assumption.
Qed.

(** An amount built from a number counts whole units of its own scale. *)
Lemma amount_gridded cfg cfg' asset x a z :
  current cfg -> current cfg' -> wf x -> st_of_number cfg asset x = Ok a -> number_of_st cfg' a = Ok z ->
  asset_scale asset (mOffset a) -> exponent_ z <= mOffset a -> gridded (mOffset a) z.
Proof.
  intros HC HC' Hx Ha Hz HS He. unfold asset_scale in HS. destruct (asset_integral asset) eqn:HA.
  - assert (exists w, a = st_whole asset w /\ Z.abs w < 2 ^ 63) as (w & -> & Hw).
    { destruct Hx as [-> | Hx].
      - rewrite (st_of_number_whole cfg asset 0 zero HC HA (on_grid_zero 0)) in Ha. injection Ha as <-. by exists 0.
      - rewrite (st_of_number_integral cfg asset) in Ha by auto. destruct (_ && _); [done|]. bind_inv Ha.
        destruct (_ <? _); [done|]. injection Ha as <-. eexists. split; [done|].
        by apply (round_whole_range (round_mode cfg) x); [right|]. }
    rewrite number_of_st_whole in Hz by auto. simpl in He |- *.
    destruct (of_rep_multiple _ w z Hw Hz) as [[n G] | [_ Hlt]]; [by apply (grid_gridded 0 n)|lia].
  - rewrite (st_of_number_iou cfg asset) in Ha by auto. unfold st_clamp in Ha.
    destruct (iou_maxExponent <? _) eqn:E1; [done|].
    destruct (exponent_ x <? iou_minExponent) eqn:E2; injection Ha as <-; zbool.
    + rewrite number_of_st_iou_zero in Hz by auto. injection Hz as <-. apply gridded_zero.
    + destruct Hx as [-> | Hx]; [vm_compute in E2; congruence|].
      rewrite number_of_st_iou in Hz by first [done|split; [apply Hx|lia]]. injection Hz as <-.
      simpl. apply (grid_gridded _ (mantissa_ x)). right. destruct x as [m e]. simpl.
      splits; [done|lia|]. rewrite Z.sub_diag. lia.
Qed.

Lemma computeLoanProperties_units cfg asset s P rate interval n feeRate props :
  current cfg -> asset_scale asset s -> gridded s P -> word rate -> word interval -> word n ->
  0 <= feeRate <= tenthBipsPerUnity -> lp_loanScale props = s ->
  exponent_ (lp_totalValueOutstanding props) <= s ->
  computeLoanProperties cfg asset P rate interval n feeRate = Ok props ->
  let total := lp_totalValueOutstanding props in
  gridded s total /\
  (units s P <= units s total -> 0 <= units s P ->
   gridded s (lp_managementFeeOwedToBroker props) /\
   0 <= units s (lp_managementFeeOwedToBroker props) <= units s total - units s P).
Proof.
  intros HC HS HP Wr Wi Wn Hf Hscale He Hr total. subst total. unfold computeLoanProperties in Hr.
  apply bind_ok in Hr as (r & Er & Hr). apply bind_ok in Hr as (pay & Ep & Hr).
  apply bind_ok in Hr as (a & Ea & Hr). apply bind_ok in Hr as (P' & EP & Hr).
  apply bind_ok in Hr as (total & Et & Hr). apply bind_ok in Hr as (interest & Ei & Hr).
  apply bind_ok in Hr as (fee & Ef & Hr). apply bind_ok in Hr as (pc & _ & Hr).
  injection Hr as <-. simpl in *. subst s.
  pose proof (asset_scale_grid _ _ HS) as HG. pose proof (on_grid_wf _ _ _ HP) as WP.
  pose proof (loanPeriodicRate_wf cfg _ _ _ Wr Wi Er) as WR.
  pose proof (loanPeriodicPayment_wf cfg _ _ _ _ WP WR Wn Ep) as Wp.
  apply bind_ok in Ea as (k & Ek & Ea). apply bind_ok in Ea as (y & Ey & Ea). repeat wf_num.
  assert (gridded (mOffset a) total) as Gt
    by (eapply (amount_gridded (with_mode cfg to_nearest) cfg asset y a); eauto using current_with_mode).
  split; [done|]. intros Hle Hpos.
  rewrite (roundToAsset_grid_id cfg asset _ _ P to_nearest HC HS HP) in EP. injection EP as <-.
  pose proof (gridded_bound _ _ HP). pose proof (gridded_bound _ _ Gt).
  destruct (units_sub (round_mode cfg) _ HG total P Gt HP) as (i & Ei' & Gi & Ui); [lia|].
  assert (i = interest) as -> by congruence.
  destruct (computeFee_grid cfg asset _ (units (mOffset a) interest) interest feeRate fee HC HS Gi)
    as (g & Gg & Hg); [lia|done|done|].
  rewrite (units_grid _ _ _ Gg). split; [by apply (grid_gridded _ g)|lia].
Qed.

(** ** Frames *)

Section Frames.
Context `{Keylets} (cfg : Settings).
Implicit Types (v : View).

(** The view from which the funds of a loan are sent: empty holdings have been added. *)
Lemma fund_loan_inv v prior asset vp bo ow z f v' :
  fund_loan cfg v prior asset vp bo ow z f = Ok (tesSUCCESS, v') ->
  exists w, frame w = frame v /\ (forall id, asset = AMPT id -> same_tokens v w) /\
    accountSendMulti cfg w vp asset [(bo, z); (ow, f)] Waive = Ok (tesSUCCESS, v').
Proof.
  unfold fund_loan. destruct (_ <? _); [done|].
  intros (w1 & E1 & Hr)%and_then_ok.
  apply and_then_ok in Hr as (w2 & [= _ <-] & Hr). apply and_then_ok in Hr as (w3 & E3 & Hr).
  assert (frame w1 = frame v /\ (forall id, asset = AMPT id -> same_tokens v w1)) as [F1 T1].
  { split; [by apply ensure_holding_frame in E1; rewrite frame_count in E1|].
    intros id ->. etransitivity; [apply adjustOwnerCount_tokens|by eapply ensure_holding_tokens]. }
  exists w3. destruct (number_eqb f zero); [injection E3 as <-; by splits|].
  apply and_then_ok in E3 as (w4 & E4 & [= _ <-]).
  splits; [apply ensure_holding_frame in E4; congruence| |done].
  intros id ->. transitivity w1; [by apply (T1 id)|by eapply ensure_holding_tokens].
Qed.

Lemma fund_loan_frame v prior asset vp bo ow z f v' :
  fund_loan cfg v prior asset vp bo ow z f = Ok (tesSUCCESS, v') -> frame v' = frame v.
Proof. intros (w & E & _ & Hs%accountSendMulti_frame)%fund_loan_inv. congruence. Qed.

Lemma link_loan_spec v k l p bo v' :
  link_loan v k l p bo = Ok (tesSUCCESS, v') ->
  exists d on bn, v' = set_ownerDirs (update_loan v k (set_loan_nodes l on bn)) d.
Proof.
  unfold link_loan. intros ([[bn|t] w1] & E1 & Hr)%bind_ok; [|apply dirLink_full in E1; congruence].
  apply bind_ok in Hr as ([[on|t] w2] & E2 & Hr); [|apply dirLink_full in E2; congruence]. injection Hr as <-.
  apply dirLink_dirs in E1 as (d1 & ->). apply dirLink_dirs in E2 as (d2 & ->).
  exists d2, on, bn. unfold update_loan, set_loans, set_ownerDirs. simpl. by rewrite insert_insert_eq.
Qed.

End Frames.

(** ** A loan that is made *)

Lemma all_values_in p values x : all_values p values = Ok true -> Some x ∈ values -> p x = Ok true.
Proof.
  induction values as [|o values IH]; [intros _ []%not_elem_of_nil|].
  rewrite elem_of_cons. destruct o as [y|]; simpl.
  - intros (good & E & Hr)%bind_ok. destruct good; [|done]. intros [[= ->]|Hin]; auto.
  - intros Hr [[=]|Hin]. auto.
Qed.

Lemma principal_in tx : Some (ls_PrincipalRequested tx) ∈ getValueFields tx.
Proof. constructor. Qed.

Lemma origination_in tx f : ls_LoanOriginationFee tx = Some f -> Some f ∈ getValueFields tx.
Proof. intros <-. do 2 constructor. Qed.

Lemma loan_guards_ok cfg asset tx props :
  loan_guards cfg asset tx props = Ok tesSUCCESS ->
  (forall z, Some z ∈ getValueFields tx -> isRounded cfg asset z (lp_loanScale props) = Ok true) /\
  (0 < default 0 (ls_InterestRate tx) ->
   exists i, number_sub (round_mode cfg) (lp_totalValueOutstanding props) (ls_PrincipalRequested tx) = Ok i /\
             number_leb i zero = false) /\
  number_leb (lp_totalValueOutstanding props) zero = false.
Proof.
  unfold loan_guards. intros (exact & E & Hr)%bind_ok. destruct exact; [|done]. simpl in Hr.
  split; [intros z Hz; by apply (all_values_in _ _ z E)|].
  apply bind_ok in Hr as (i & Ei & Hr). destruct (_ && number_leb i zero) eqn:E1; [done|].
  split.
  - intros Hpos%Z.ltb_lt. exists i. split; [done|]. by rewrite Hpos in E1.
  - destruct ((_ =? 0) && _); [done|]. destruct (number_leb (lp_firstPaymentPrincipal props) zero); [done|].
    apply bind_ok in Hr as (rp & _ & Hr). destruct (number_eqb rp zero); [done|].
    apply bind_ok in Hr as (q & _ & Hr). apply bind_ok in Hr as (n & _ & Hr).
    destruct (n <? _); [done|]. destruct (number_leb (lp_totalValueOutstanding props) zero); [|done].
    by rewrite orb_true_r in Hr.
Qed.

Lemma positive_units s n : gridded s n -> number_leb n zero = false -> 0 < units s n.
Proof.
  intros G. unfold number_leb.
  rewrite (units_ltb s zero n (proj1 (gridded_zero s)) G), (proj2 (gridded_zero s)).
  destruct (0 <? units s n) eqn:E; by zbool.
Qed.

(** The debt of a broker is part of what the vault has lent. *)
Lemma debt_le_lent s vid v bid b :
  books_balance s vid v -> brokers v !! bid = Some b -> broker_VaultID b = vid ->
  debt_of s bid v <= lent s vid v.
Proof.
  intros B Hb Hv. apply msum_le. intros k l Hl.
  assert (loan_LoanBrokerID l = bid -> in_vault v vid l = true) as Hin
    by (intros E; unfold in_vault; by rewrite E, Hb, Hv, Z.eqb_refl).
  destruct (loan_LoanBrokerID l =? bid) eqn:E; zbool.
  - by rewrite Hin.
  - destruct (in_vault v vid l) eqn:Ei; [|done]. by eapply lb_owed, (bal_loans _ _ _ B).
Qed.

(** The hypotheses under which a loan is made: balanced books, a transaction that the
    checks admit, terms at the scale of the books, and room for the interest. *)
Record lending (cfg : Settings) (s : Z) (v : View) (tx : LoanSetTx) (b : LoanBroker) (x : Vault)
    (props : LoanProperties) : Prop := {
  ln_current : current cfg;
  ln_scale : asset_scale (vault_Asset x) s;
  ln_broker : brokers v !! ls_LoanBrokerID tx = Some b;
  ln_vault : vaults v !! broker_VaultID b = Some x;
  ln_books : books_balance s (broker_VaultID b) v;
  ln_words : word (default 0 (ls_InterestRate tx)) /\ word (paymentInterval tx) /\ word (paymentTotal tx);
  ln_wf : wf (ls_PrincipalRequested tx);
  ln_terms : LoanSet_terms_valid tx = true;
  ln_preclaim : LoanSet_preclaim cfg v tx = Ok tesSUCCESS;
  ln_fee_rate : 0 <= broker_ManagementFeeRate b <= tenthBipsPerUnity;
  ln_props : computeLoanProperties cfg (vault_Asset x) (ls_PrincipalRequested tx)
               (default 0 (ls_InterestRate tx)) (paymentInterval tx) (paymentTotal tx)
               (broker_ManagementFeeRate b) = Ok props;
  ln_loan_scale : lp_loanScale props = s;
  ln_digits : exponent_ (lp_totalValueOutstanding props) <= s;
  ln_interest : default 0 (ls_InterestRate tx) = 0 ->
                number_ltb (lp_totalValueOutstanding props) (ls_PrincipalRequested tx) = false;
  ln_room : units s (vault_AssetsTotal x) +
            (units s (lp_totalValueOutstanding props) - units s (ls_PrincipalRequested tx)) <= maxMantissa }.

Lemma terms_principal tx : LoanSet_terms_valid tx = true -> nonneg (ls_PrincipalRequested tx).
Proof.
  intros T. unfold LoanSet_terms_valid in T. repeat (apply andb_true_iff in T as [T ?]).
  apply ltb_zero_nonneg. unfold number_leb in *.
  by destruct (number_ltb zero (ls_PrincipalRequested tx)).
Qed.

Lemma terms_origination tx f :
  LoanSet_terms_valid tx = true -> ls_LoanOriginationFee tx = Some f ->
  nonneg f /\ number_ltb (ls_PrincipalRequested tx) f = false.
Proof.
  intros T Ef. unfold LoanSet_terms_valid in T. repeat (apply andb_true_iff in T as [T ?]).
  match goal with
  | R : validNumericRange_number (ls_LoanOriginationFee tx) _ _ = true |- _ =>
      rewrite Ef in R; apply andb_true_iff in R as [R1 R2]
  end.
  by apply negb_true_iff in R1, R2.
Qed.

Lemma preclaim_values cfg v tx b x z :
  LoanSet_preclaim cfg v tx = Ok tesSUCCESS -> brokers v !! ls_LoanBrokerID tx = Some b ->
  vaults v !! broker_VaultID b = Some x -> Some z ∈ getValueFields tx ->
  representable cfg (vault_Asset x) z = Ok true.
Proof.
  unfold LoanSet_preclaim. intros Hp Hb Hx Hz. rewrite Hb, Hx in Hp.
  destruct (negb (schedule_fits v tx)); [done|]. destruct (_ && _); [done|].
  destruct (negb (bool_decide _)); [done|]. apply bind_ok in Hp as (exact & E & Hp).
  destruct exact; [|done]. by apply (all_values_in _ _ z E).
Qed.

(** The values of a loan in units. *)
Lemma lending_units cfg s v tx b x props :
  lending cfg s v tx b x props ->
  number_ltb (vault_AssetsAvailable x) (ls_PrincipalRequested tx) = false ->
  loan_guards cfg (vault_Asset x) tx props = Ok tesSUCCESS ->
  let P := ls_PrincipalRequested tx in
  let total := lp_totalValueOutstanding props in
  let fee := lp_managementFeeOwedToBroker props in
  gridded s P /\ gridded s total /\ gridded s fee /\
  0 <= units s P <= units s (vault_AssetsAvailable x) /\ units s P <= units s total /\
  0 <= units s fee <= units s total - units s P.
Proof.
  intros [HC HS Hb Hx HB (W1 & W2 & W3) WP HT Hp HF Hprops Hscale He Hi Hroom] Hav Hg P total fee. subst P total fee.
  pose proof (asset_scale_grid _ _ HS) as HG.
  destruct (bal_vault _ _ _ HB) as (x0 & Hx0 & V). rewrite Hx in Hx0. injection Hx0 as <-.
  destruct (loan_guards_ok _ _ _ _ Hg) as (Hround & Hint & Hpos). specialize (Hround _ (principal_in tx)); rewrite Hscale in Hround.
  pose proof (terms_principal _ HT) as Hn. pose proof (vb_available _ _ _ _ V) as GA.
  assert (gridded s (ls_PrincipalRequested tx)) as GP.
  { apply (value_gridded cfg (vault_Asset x)); auto.
    - eapply (below_grid_exponent s _ _ _ HG WP Hn GA Hav).
    - by eapply preclaim_values, principal_in. }
  apply (nonneg_grid _ _ _ GP) in Hn.
  rewrite (units_ltb s _ _ GA GP) in Hav. zbool.
  destruct (computeLoanProperties_units cfg _ s _ _ _ _ _ props HC HS GP W1 W2 W3 HF Hscale He Hprops) as [Gt Hfee].
  pose proof (gridded_bound s _ GP). pose proof (gridded_bound s _ Gt).
  assert (units s (ls_PrincipalRequested tx) <= units s (lp_totalValueOutstanding props)) as Hle.
  { unfold word in W1. destruct (Z.eq_dec (default 0 (ls_InterestRate tx)) 0) as [E|E].
    - specialize (Hi E). rewrite (units_ltb s _ _ Gt GP) in Hi. by zbool.
    - destruct (Hint ltac:(lia)) as (i & Ei & Hi').
      apply (positive_units s _ Gt) in Hpos.
      destruct (units_sub (round_mode cfg) s HG _ _ Gt GP) as (i' & Ei' & Gi & Ui); [lia|].
      assert (i' = i) as -> by congruence. apply (positive_units s _ Gi) in Hi'. lia. }
  destruct (Hfee Hle Hn) as [Gf Hf]. splits; auto; lia.
Qed.

(** The entries of the loan, of its broker and of its vault. *)
Definition made_loan (v : View) (tx : LoanSetTx) (props : LoanProperties) (b : LoanBroker) (on bn : Z) : LoanEntry :=
  set_loan_nodes (new_loan v tx props (borrower tx b) (broker_LoanSequence b)) on bn.

Definition made_entries `{Keylets} (v w : View) (tx : LoanSetTx) (props : LoanProperties) (b : LoanBroker)
    (x : Vault) (T A D : Number) (on bn : Z) (d : gmap Z (gmap Z Page)) : View :=
  set_ownerDirs
    (update_loan
       (update_broker (update_vault w (broker_VaultID b) (set_vault_assets x T A)) (ls_LoanBrokerID tx)
          (set_broker_loans b D (confineOwnerCount (broker_OwnerCount b) 1) (u32 (broker_LoanSequence b + 1))))
       (loan_keylet (ls_LoanBrokerID tx) (broker_LoanSequence b)) (made_loan v tx props b on bn)) d.

Lemma book_loan_spec `{Keylets} cfg v w tx props b x due delta v' :
  frame w = frame v ->
  book_loan cfg w tx props b x (borrower tx b) due delta = Ok (tesSUCCESS, v') ->
  exists T A D on bn d,
    loans v !! loan_keylet (ls_LoanBrokerID tx) (broker_LoanSequence b) = None /\
    number_add (round_mode cfg) (vault_AssetsTotal x) due = Ok T /\
    number_sub (round_mode cfg) (vault_AssetsAvailable x) (ls_PrincipalRequested tx) = Ok A /\
    number_add (round_mode cfg) (broker_DebtTotal b) delta = Ok D /\
    v' = made_entries v w tx props b x T A D on bn d.
Proof.
  intros F. unfold book_loan, insert_loan. set (k := loan_keylet _ _).
  destruct (bool_decide (is_Some (loans w !! k))) eqn:Hk; [done|]. apply bool_decide_eq_false in Hk.
  cbn [bind]. intros (A & EA & Hr)%bind_ok. apply bind_ok in Hr as (T & ET & Hr).
  apply bind_ok in Hr as (D & ED & Hr). apply link_loan_spec in Hr as (d & on & bn & ->).
  exists T, A, D, on, bn, d. pose proof F as (_ & _ & Fl)%frame_parts.
  assert (env w = env v) as Fe by (unfold frame in F; congruence).
  splits; auto.
  - rewrite <- Fl. by apply eq_None_not_Some.
  - unfold made_entries, made_loan. fold k.
    assert (new_loan w tx props (borrower tx b) (broker_LoanSequence b) =
            new_loan v tx props (borrower tx b) (broker_LoanSequence b)) as ->
      by (unfold new_loan, getStartDate; by rewrite Fe).
    unfold update_loan, update_vault, update_broker, set_loans, set_vaults, set_brokers, set_ownerDirs. simpl.
    by rewrite insert_insert_eq.
Qed.

(** What the books record about a loan that is made. *)
Record recorded (s : Z) (tx : LoanSetTx) (props : LoanProperties) (b : LoanBroker) (x : Vault) (T A D : Number)
  : Prop := {
  rc_principal : gridded s (ls_PrincipalRequested tx);
  rc_total : gridded s (lp_totalValueOutstanding props);
  rc_fee : gridded s (lp_managementFeeOwedToBroker props);
  rc_range : 0 <= units s (ls_PrincipalRequested tx) <= units s (lp_totalValueOutstanding props) /\
             0 <= units s (lp_managementFeeOwedToBroker props) <=
               units s (lp_totalValueOutstanding props) - units s (ls_PrincipalRequested tx);
  rc_grids : gridded s T /\ gridded s A /\ gridded s D;
  rc_available : units s A = units s (vault_AssetsAvailable x) - units s (ls_PrincipalRequested tx);
  rc_available_nonneg : 0 <= units s A;
  rc_assets : units s T = units s (vault_AssetsTotal x) +
    (units s (lp_totalValueOutstanding props) - units s (ls_PrincipalRequested tx)
     - units s (lp_managementFeeOwedToBroker props));
  rc_debt : units s D = units s (broker_DebtTotal b) +
    (units s (lp_totalValueOutstanding props) - units s (lp_managementFeeOwedToBroker props)) }.

Lemma LoanSet_made `{Keylets} cfg s v tx b x props prior v' :
  lending cfg s v tx b x props -> LoanSet_doApply cfg v tx prior = Ok (tesSUCCESS, v') ->
  exists w T A D on bn d toBorrower,
    recorded s tx props b x T A D /\ loan_guards cfg (vault_Asset x) tx props = Ok tesSUCCESS /\
    loans v !! loan_keylet (ls_LoanBrokerID tx) (broker_LoanSequence b) = None /\
    debt_allowed cfg b D = Ok tesSUCCESS /\
    number_sub (round_mode cfg) (ls_PrincipalRequested tx) (originationFee tx) = Ok toBorrower /\
    fund_loan cfg v prior (vault_Asset x) (vault_Account x) (borrower tx b) (broker_Owner b) toBorrower
      (originationFee tx) = Ok (tesSUCCESS, w) /\
    v' = made_entries v w tx props b x T A D on bn d.
Proof.
  intros L Hr. pose proof L as [HC HS Hb Hx HB _ _ _ _ _ Hprops _ _ _ Hroom].
  unfold LoanSet_doApply in Hr. rewrite Hb, Hx in Hr.
  destruct (accounts v !! broker_Owner b); [|done]. destruct (accounts v !! borrower tx b); [|done].
  destruct (accounts v !! broker_Account b); [|done].
  destruct (number_ltb (vault_AssetsAvailable x) _) eqn:Hav; [done|]. rewrite Hprops in Hr. cbn [bind] in Hr.
  apply bind_ok in Hr as (ter & Hg & Hr). destruct (isTesSuccess ter) eqn:E1;
    [apply isTesSuccess_eq in E1 as ->|apply failed_code in E1; simpl in Hr; congruence].
  destruct (lending_units _ _ _ _ _ _ _ L Hav Hg) as (GP & Gt & Gf & HP & Hle & Hf).
  pose proof (asset_scale_grid _ _ HS) as HG.
  destruct (bal_vault _ _ _ HB) as (x0 & Hx0 & V). rewrite Hx in Hx0. injection Hx0 as <-.
  pose proof (bal_brokers _ _ _ HB _ _ Hb eq_refl) as Bb. pose proof (debt_le_lent _ _ _ _ _ HB Hb eq_refl) as HD.
  rewrite <- (bb_owed _ _ _ _ Bb) in HD. pose proof (vb_lent _ _ _ _ V) as HT.
  pose proof (gridded_bound _ _ (vb_total _ _ _ _ V)). pose proof (gridded_bound _ _ (bb_debt _ _ _ _ Bb)).
  pose proof (gridded_bound _ _ (vb_available _ _ _ _ V)). pose proof (gridded_bound _ _ Gt).
  cbn [negb] in Hr. unfold calculateRoundedLoanState in Hr.
  destruct (units_sub (round_mode cfg) s HG _ _ Gt GP) as (i & Ei & Gi & Ui); [lia|]. rewrite Ei in Hr. cbn [bind] in Hr.
  destruct (units_sub (round_mode cfg) s HG _ _ Gi Gf) as (due & Ed & Gd & Ud); [lia|]. rewrite Ed in Hr. cbn [bind] in Hr.
  simpl in Hr. apply bind_ok in Hr as (toB & EB & Hr).
  destruct (units_add (round_mode cfg) s HG _ _ GP Gd) as (delta & El & Gl & Ul); [lia|]. rewrite El in Hr. cbn [bind] in Hr.
  destruct (units_add (round_mode cfg) s HG _ _ (bb_debt _ _ _ _ Bb) Gl) as (D & ED & GD & UD); [lia|].
  rewrite ED in Hr. cbn [bind] in Hr.
  apply bind_ok in Hr as (ter & Hallow & Hr). destruct (isTesSuccess ter) eqn:E2;
    [apply isTesSuccess_eq in E2 as ->|apply failed_code in E2; simpl in Hr; congruence].
  cbn [negb] in Hr. apply and_then_ok in Hr as (w & Hfund & Hr).
  pose proof (fund_loan_frame _ _ _ _ _ _ _ _ _ _ Hfund) as Fw.
  apply (book_loan_spec cfg v w) in Hr as (T & A & D' & on & bn & d & Hk & ET & EA & ED' & ->); [|done].
  assert (D' = D) as -> by congruence.
  destruct (units_add (round_mode cfg) s HG _ _ (vb_total _ _ _ _ V) Gd) as (T' & ET' & GT & UT); [lia|].
  destruct (units_sub (round_mode cfg) s HG _ _ (vb_available _ _ _ _ V) GP) as (A' & EA' & GA & UA); [lia|].
  assert (T' = T /\ A' = A) as [-> ->] by (split; congruence).
  exists w, T, A, D, on, bn, d, toB. splits; auto.
  split; auto; lia.
Qed.

Lemma made_books `{Keylets} cfg s v w tx b x props T A D on bn d :
  lending cfg s v tx b x props -> recorded s tx props b x T A D -> frame w = frame v ->
  loans v !! loan_keylet (ls_LoanBrokerID tx) (broker_LoanSequence b) = None ->
  books_balance s (broker_VaultID b) (made_entries v w tx props b x T A D on bn d).
Proof.
  intros [HC HS Hb Hx HB _ _ _ _ _ _ _ _ _ _] [GP Gt Gf [HP Hf] (GT & GA & GD) UA A0 UT UD] F Hk.
  apply frame_parts in F as (Fv & Fb & Fl).
  destruct (bal_vault _ _ _ HB) as (x0 & Hx0 & V). rewrite Hx in Hx0. injection Hx0 as <-.
  pose proof (bal_brokers _ _ _ HB _ _ Hb eq_refl) as Bb.
  set (l' := made_loan v tx props b on bn).
  assert (owed s l' = units s (lp_totalValueOutstanding props) - units s (lp_managementFeeOwedToBroker props)) as Eo
    by done.
  eapply (books_replaced s (broker_VaultID b) v _ (loan_keylet (ls_LoanBrokerID tx) (broker_LoanSequence b))
            (ls_LoanBrokerID tx) None (Some l') b _ x); [exact HB| | |].
  - split; [done|done|done|simpl; by rewrite Fl|simpl; by rewrite Fb|simpl; by rewrite Fv| |done].
    by intros l [[=]|[= <-]].
  - intros ? [= <-]. split; [done|done|rewrite Eo; lia|done].
  - simpl. rewrite Eo.
    split; simpl; [done|done|apply V|done|lia| |done|apply Bb|apply Bb|lia|done].
    unfold impaired_owed. simpl. lia.
Qed.

(** The fee that the owner of the broker gets is part of the principal. *)
Lemma origination_units cfg s v tx b x props :
  lending cfg s v tx b x props -> gridded s (ls_PrincipalRequested tx) ->
  loan_guards cfg (vault_Asset x) tx props = Ok tesSUCCESS ->
  (forall f, ls_LoanOriginationFee tx = Some f -> wf f) ->
  gridded s (originationFee tx) /\ 0 <= units s (originationFee tx) <= units s (ls_PrincipalRequested tx).
Proof.
  intros [HC HS Hb Hx HB _ WP HT Hp _ _ Hscale _ _ _] GP Hg Wf. unfold originationFee.
  pose proof (terms_principal _ HT) as HP. apply (nonneg_grid _ _ _ GP) in HP.
  destruct (ls_LoanOriginationFee tx) as [f|] eqn:Ef; simpl.
  2: { split; [apply gridded_zero|]. rewrite (proj2 (gridded_zero s)). lia. }
  destruct (terms_origination _ _ HT Ef) as [H1 H2].
  destruct (loan_guards_ok _ _ _ _ Hg) as (Hround & _ & _).
  assert (gridded s f) as Gf.
  { apply (value_gridded cfg (vault_Asset x)); auto.
    - eapply (below_grid_exponent s _ _ f (asset_scale_grid _ _ HS)); eauto.
    - by eapply preclaim_values, origination_in.
    - rewrite <- Hscale. by apply Hround, origination_in. }
  split; [done|]. apply (nonneg_grid _ _ _ Gf) in H1. rewrite (units_ltb s _ _ GP Gf) in H2. zbool. lia.
Qed.

Lemma debt_allowed_ok cfg b D :
  debt_allowed cfg b D = Ok tesSUCCESS ->
  (broker_DebtMaximum b = zero \/ number_ltb (broker_DebtMaximum b) D = false) /\
  exists m, tenthBipsOfValue cfg D (broker_CoverRateMinimum b) = Ok m /\
            number_ltb (broker_CoverAvailable b) m = false.
Proof.
  unfold debt_allowed. destruct (_ && _) eqn:E; [done|]. intros (m & Em & Hr)%bind_ok.
  split; [|exists m; by destruct (number_ltb _ m)].
  destruct (number_eqb (broker_DebtMaximum b) zero) eqn:E0; [left; by apply number_eqb_true|by right].
Qed.
