(* ===== verification/LoanCoverFacts.v ===== *)
(** * First-loss cover

    What deposits, withdrawals and clawbacks of cover do to the books of a broker and
    to the balances of a token. *)

From S2P Require Import Prelude.
From S2P Require Import Ter.
From S2P Require Import XrplNumber.
From S2P Require Import XrplNumberFacts.
From S2P Require Import XrplNumberGrid.
From S2P Require Import XrplNumberMultiple.
From S2P Require Import XrplNumberProps.
From S2P Require Import Amounts.
From S2P Require Import AmountsFacts.
From S2P Require Import AmountsRound.
From S2P Require Import AmountsWhole.
From S2P Require Import Lending.
From S2P Require Import LendingFacts.
From S2P Require Import LedgerState.
From S2P Require Import Holdings.
From S2P Require Import Transfers.
From S2P Require Import Transactors.
From S2P Require Import TransfersFrame.
From S2P Require Import TransfersMPT.
From S2P Require Import LoanManage.
From S2P Require Import LoanBrokers.
From S2P Require Import LoanBooks.
From S2P Require Import LoanManageFacts.
From stdpp Require Import gmap list.

Local Open Scope Z_scope.

(** ** Amounts of tokens *)

Lemma number_of_mpt cfg id n :
  0 <= n <= maxMantissa -> exists z, number_of_st cfg (mpt_amount id n) = Ok z /\ gridded 0 z /\ units 0 z = n.
Proof.
  intros Hn. unfold mpt_amount. rewrite number_of_st_whole by (done || unfold maxMantissa in *; lia).
  destruct (make_grid (round_mode cfg) n 0) as (z & E & G); [lia|split; eval_cmp|].
  exists z. unfold of_rep. splits; [done|by apply (grid_gridded 0 n)|by apply units_grid].
Qed.

Lemma number_of_mpt_wf cfg id n z :
  0 <= n <= maxMPTokenAmount -> number_of_st cfg (mpt_amount id n) = Ok z -> wf z /\ nonneg z.
Proof.
  unfold maxMPTokenAmount. intros Hn. unfold mpt_amount. rewrite number_of_st_whole by (done || lia). intros Hz.
  split; [by eapply multiple_wf, of_rep_multiple; [|done]; lia|by eapply of_rep_nonneg; [|done]; lia].
Qed.

Lemma send_mpt `{Keylets} cfg v id s r a v' :
  books v id maxMPTokenAmount -> 0 <= maximum_of v id <= maxMPTokenAmount -> 0 <= a <= maxMPTokenAmount ->
  accountSend cfg v s r (mpt_amount id a) Waive = Ok (tesSUCCESS, v') ->
  sent v id s r a (Z.max (outstanding v id) (maximum_of v id)) v'.
Proof.
  intros W HM Ha Hs. destruct (accountSend_mpt cfg v id s r a W HM Ha) as (w & E & S).
  rewrite E in Hs. injection Hs as Ht <-. by apply S.
Qed.

(** Brokers hold no tokens. *)
Lemma broker_tokens v k b id B : books v id B -> books (update_broker v k b) id B.
Proof. intros []. by split. Qed.

(** A check that is passed. *)
Lemma check_passed (t : TER) (k : result TER) :
  (if negb (isTesSuccess t) then Ok t else k) = Ok tesSUCCESS -> t = tesSUCCESS /\ k = Ok tesSUCCESS.
Proof. destruct (isTesSuccess t) eqn:E; [intros; split; [by apply isTesSuccess_eq|done]|by intros [= ->]]. Qed.

(** ** Books *)

Lemma books_cover s vid v v' bid b c :
  books_balance s vid v -> brokers v !! bid = Some b -> broker_VaultID b = vid ->
  gridded s c -> 0 <= units s c ->
  frame v' = frame (update_broker v bid (set_broker_cover b c)) -> books_balance s vid v'.
Proof.
  intros B Hb Hv Gc Hc (Ev & Eb & El)%frame_parts.
  destruct (bal_vault _ _ _ B) as (x & Hx & [V1 V2 V3 V4 V5 V6]).
  destruct (bal_brokers _ _ _ B _ _ Hb Hv) as [B1 B2 B3 B4 B5 B6].
  set (k := fresh (dom (loans v))).
  assert (loans v !! k = None) as Hk by (apply not_elem_of_dom, is_fresh).
  eapply (books_replaced s vid v v' k bid None None b (set_broker_cover b c) x x); [done| |done|].
  - split; auto.
    + rewrite El. symmetry. change (delete k (loans v) = loans v). by apply delete_id.
    + rewrite Ev. simpl. symmetry. by apply insert_id.
    + by intros l [|].
  - simpl. split; auto; simpl; try lia; auto.
Qed.

(** ** The amount of a clawback *)

Lemma claw_units cfg id b amount a :
  current cfg -> gridded 0 (broker_CoverAvailable b) -> 0 <= units 0 (broker_CoverAvailable b) ->
  gridded 0 (broker_DebtTotal b) -> 0 <= units 0 (broker_DebtTotal b) ->
  0 <= broker_CoverRateMinimum b <= tenthBipsPerUnity ->
  (forall t, amount = Some t -> exists n, t = mpt_amount id n /\ 0 <= n <= maxMPTokenAmount) ->
  determineClawAmount cfg b (AMPT id) amount = Ok (Value a) ->
  exists n, a = mpt_amount id n /\ 0 <= n <= units 0 (broker_CoverAvailable b).
Proof.
  intros HC Gc Hc Gd Hd Hr Ha. set (C := broker_CoverAvailable b) in *. set (D := broker_DebtTotal b) in *.
  assert (grid_scale 0) as HG by (split; eval_cmp).
  assert (nonneg C) as NC by (by apply (nonneg_grid 0 _ _ Gc)).
  assert (nonneg D) as ND by (by apply (nonneg_grid 0 _ _ Gd)).
  pose proof (on_grid_wf _ _ _ Gc) as WC. pose proof (on_grid_wf _ _ _ Gd) as WD.
  assert (number_ltb D D = false) as LD by (rewrite (units_ltb 0 _ _ Gd Gd); lia).
  assert (number_ltb C C = false) as LC by (rewrite (units_ltb 0 _ _ Gc Gc); lia).
  pose proof (below_grid_exponent 0 _ _ _ HG WD ND Gd LD) as ED.
  destruct (tenthBips_below cfg D (broker_CoverRateMinimum b) WD ND ltac:(lia) Hr) as (t & Ht & Wt & Nt & Lt).
  unfold determineClawAmount. fold C D. rewrite Ht. cbn [bind]. intros (m & Em & Hr')%bind_ok.
  destruct (number_leb m zero) eqn:Ez; [done|]. unfold number_leb in Ez.
  assert (wf m) as Wm by (eapply number_sub_wf; [exact WC|exact Wt|exact Em]).
  assert (number_ltb zero m = true) as Zm by (by destruct (number_ltb zero m)).
  assert (number_ltb C t = false) as LCt.
  { destruct (number_ltb C t) eqn:E; [|done].
    rewrite (number_sub_nonpos _ _ _ _ WC NC Wt E Em) in Zm. done. }
  assert (number_ltb C m = false) as LCm by (by eapply (number_sub_le _ C t)).
  assert (nonneg m) as Nm by (by apply ltb_zero_nonneg).
  apply bind_ok in Hr' as (z & Hz & Hr'). apply bind_ok in Hr' as (a' & Ea & [= <-]).
  assert (wf z /\ nonneg z /\ number_ltb C z = false) as (Wz & Nz & Lz).
  { destruct amount as [q|]; [|injection Hz as <-; done].
    destruct (st_signum q =? 0); [injection Hz as <-; done|].
    apply bind_ok in Hz as (y & Hy & [= <-]). destruct (number_gtb y m) eqn:E; [done|].
    destruct (Ha q eq_refl) as (n & -> & Hn). destruct (number_of_mpt_wf _ _ _ _ Hn Hy) as [Wy Ny].
    splits; [done|done|]. unfold number_gtb in E. by eapply (ltb_false_trans C m y). }
  assert (exists w, a' = mpt_amount id w /\ round_whole (round_mode cfg) z = Ok w) as (w & -> & Hw).
  { destruct Wz as [-> | Hzn].
    - rewrite (st_of_number_whole cfg (AMPT id) 0 zero HC eq_refl (on_grid_zero 0)) in Ea. injection Ea as <-. by exists 0.
    - rewrite (st_of_number_integral cfg (AMPT id)) in Ea by auto. destruct (_ && _); [done|].
      apply bind_ok in Ea as (w & Ew & Ea). destruct (_ <? _); [done|]. injection Ea as <-. by exists w. }
  exists w. split; [done|]. by eapply (round_whole_le _ _ C z).
Qed.

(** ** Cover and tokens *)

(** A broker of a vault in a token, with books in order. *)
Record covering (cfg : Settings) (v : View) (bid : Z) (b : LoanBroker) (x : Vault) (id : Z) : Prop := {
  cv_current : current cfg;
  cv_broker : brokers v !! bid = Some b;
  cv_vault : vaults v !! broker_VaultID b = Some x;
  cv_asset : vault_Asset x = AMPT id;
  cv_books : books_balance 0 (broker_VaultID b) v;
  cv_tokens : books v id maxMPTokenAmount;
  cv_maximum : 0 <= maximum_of v id <= maxMPTokenAmount }.

(** The cover of the broker becomes [c], and [n] tokens go from one account to another;
    nothing else changes in the entries of the protocol, and all books stay in order. *)
Definition cover_moved (v v' : View) (bid : Z) (b : LoanBroker) (id from to n : Z) (c : Number) : Prop :=
  brokers v' = <[bid := set_broker_cover b c]> (brokers v) /\ vaults v' = vaults v /\ loans v' = loans v /\
  books_balance 0 (broker_VaultID b) v' /\ outstanding v' id = held v' id /\
  forall y, mpt_balance v' id y =
            mpt_balance v id y + (if to =? y then n else 0) - (if from =? y then n else 0).

Lemma cover_moved_intro cfg v v' bid b x id from to n C c :
  covering cfg v bid b x id -> gridded 0 c -> 0 <= units 0 c -> sent v id from to n C v' ->
  frame v' = frame (update_broker v bid (set_broker_cover b c)) -> cover_moved v v' bid b id from to n c.
Proof.
  intros [C1 C2 C3 C4 C5 C6 C7] Gc Hc (W & _ & Hb) F.
  pose proof (books_cover 0 _ v v' bid b c C5 C2 eq_refl Gc Hc F).
  apply frame_parts in F as (Ev & Eb & El). unfold cover_moved. splits; auto. apply W.
Qed.

Section Moves.
Context `{Keylets} (cfg : Settings) (v : View) (bid : Z) (b : LoanBroker) (x : Vault) (id : Z)
  (C : covering cfg v bid b x id).

Lemma covering_books : broker_books 0 bid v b.
Proof. apply (bal_brokers _ _ _ (cv_books _ _ _ _ _ _ C)); [apply C|done]. Qed.

Lemma covering_debt : 0 <= units 0 (broker_DebtTotal b).
Proof.
  rewrite (bb_owed _ _ _ _ covering_books). apply msum_nonneg. intros k l Hl.
  destruct (_ =? bid) eqn:E; [zbool|done]. eapply lb_owed, (bal_loans _ _ _ (cv_books _ _ _ _ _ _ C)); [done|].
  unfold in_vault. rewrite E, (cv_broker _ _ _ _ _ _ C). apply Z.eqb_refl.
Qed.

Lemma covering_scale : grid_scale 0.
Proof. split; eval_cmp. Qed.

Lemma deposit_moved tx n v' :
  cd_LoanBrokerID tx = bid -> cd_Amount tx = mpt_amount id n ->
  0 <= n -> units 0 (broker_CoverAvailable b) + n <= maxMantissa ->
  CoverDeposit_doApply cfg v tx = Ok (tesSUCCESS, v') ->
  exists c, units 0 c = units 0 (broker_CoverAvailable b) + n /\
    cover_moved v v' bid b id (cd_Account tx) (broker_Account b) n c.
Proof.
  intros E Ea Hn Hb. destruct covering_books as [_ Gc Hc _ _ _].
  unfold CoverDeposit_doApply. rewrite E, (cv_broker _ _ _ _ _ _ C), Ea.
  intros (w & Hs & Hr)%and_then_ok. destruct (number_of_mpt cfg id n) as (z & Ez & Gz & Uz); [lia|].
  rewrite Ez in Hr. cbn [bind] in Hr.
  destruct (units_add (round_mode cfg) 0 covering_scale _ _ Gc Gz) as (c & Ec & Gc' & Uc); [lia|].
  rewrite Ec in Hr. injection Hr as <-. exists c. split; [lia|].
  pose proof (accountSend_frame _ _ _ _ _ _ _ _ Hs) as F.
  apply send_mpt in Hs; [|apply C|apply C|unfold maxMPTokenAmount, maxMantissa in *; lia].
  eapply cover_moved_intro; [exact C|done|lia| |].
  { destruct Hs as (W & Ho & Hbal). split; [by apply broker_tokens|]. split; [exact Ho|exact Hbal]. }
  unfold frame in *. simpl. congruence.
Qed.

Lemma withdraw_moved engine tx n v' :
  cw_LoanBrokerID tx = bid -> cw_Amount tx = mpt_amount id n -> 0 <= n <= maxMantissa ->
  default (cw_Account tx) (cw_Destination tx) = cw_Account tx ->
  CoverWithdraw_preclaim cfg v tx = Ok tesSUCCESS -> CoverWithdraw_doApply cfg engine v tx = Ok (tesSUCCESS, v') ->
  exists c m, units 0 c = units 0 (broker_CoverAvailable b) - n /\
    minimumCover cfg (AMPT id) b = Ok m /\ number_ltb c m = false /\
    cover_moved v v' bid b id (broker_Account b) (cw_Account tx) n c.
Proof.
  intros E Ea Hn Hd Hp. destruct covering_books as [_ Gc Hc _ _ _].
  destruct (number_of_mpt cfg id n) as (z & Ez & Gz & Uz); [lia|].
  pose proof (gridded_bound 0 _ Gc) as Bc.
  destruct (units_sub (round_mode cfg) 0 covering_scale _ _ Gc Gz) as (c & Ec & Gc' & Uc); [lia|].
  assert (exists m, minimumCover cfg (AMPT id) b = Ok m /\ number_ltb c m = false /\
            n <= units 0 (broker_CoverAvailable b)) as (m & Em & Hm & Hle).
  { unfold CoverWithdraw_preclaim in Hp. rewrite E, (cv_broker _ _ _ _ _ _ C), (cv_vault _ _ _ _ _ _ C),
      (cv_asset _ _ _ _ _ _ C), Ea, Hd in Hp.
    destruct (negb (_ =? broker_Owner b)); [done|]. destruct (negb (asset_eqb _ _)); [done|].
    do 4 apply check_passed in Hp as [_ Hp].
    unfold cover_allows in Hp. apply bind_ok in Hp as (m & Em & Hp). rewrite Ez in Hp. cbn [bind] in Hp.
    rewrite (units_ltb 0 _ _ Gc Gz) in Hp. destruct (_ <? _) eqn:El; [done|]. zbool.
    rewrite Ec in Hp. cbn [bind] in Hp. destruct (number_ltb c m) eqn:Em'; [done|]. exists m. splits; auto. lia. }
  unfold CoverWithdraw_doApply. rewrite E, (cv_broker _ _ _ _ _ _ C), Ea, Ez. cbn [bind]. rewrite Ec, Hd, Z.eqb_refl.
  cbn [bind orb]. intros Hr. exists c, m. splits; auto; [lia|].
  pose proof (accountSend_frame _ _ _ _ _ _ _ _ Hr) as F.
  apply send_mpt in Hr; [|apply broker_tokens, C|exact (cv_maximum _ _ _ _ _ _ C)
                         |unfold maxMPTokenAmount, maxMantissa in *; lia].
  eapply cover_moved_intro; [exact C|done|lia|exact Hr|exact F].
Qed.

Lemma clawback_moved tx v' :
  determineBrokerID v tx = Value bid ->
  (forall t, cc_Amount tx = Some t -> exists n, t = mpt_amount id n /\ 0 <= n <= maxMPTokenAmount) ->
  CoverClawback_doApply cfg v tx = Ok (tesSUCCESS, v') ->
  exists c n, 0 <= n /\ units 0 c = units 0 (broker_CoverAvailable b) - n /\
    cover_moved v v' bid b id (broker_Account b) (cc_Account tx) n c.
Proof.
  intros E Ha. pose proof covering_debt as Hdebt. destruct covering_books as [Gd Gc Hc _ Hrate _].
  unfold CoverClawback_doApply.
  rewrite E, (cv_broker _ _ _ _ _ _ C), (cv_vault _ _ _ _ _ _ C), (cv_asset _ _ _ _ _ _ C).
  intros ([a|t] & Hclaw & Hr)%bind_ok; [|done]. pose proof (gridded_bound 0 _ Gc) as Bc.
  destruct (claw_units cfg id b _ a (cv_current _ _ _ _ _ _ C) Gc Hc Gd Hdebt Hrate Ha Hclaw) as (n & -> & Hn).
  destruct (native _); [done|]. destruct (number_of_mpt cfg id n) as (z & Ez & Gz & Uz); [lia|].
  rewrite Ez in Hr. cbn [bind] in Hr.
  destruct (units_sub (round_mode cfg) 0 covering_scale _ _ Gc Gz) as (c & Ec & Gc' & Uc); [lia|].
  rewrite Ec in Hr. cbn [bind] in Hr. exists c, n. splits; [lia|lia|].
  pose proof (accountSend_frame _ _ _ _ _ _ _ _ Hr) as F.
  apply send_mpt in Hr; [|apply broker_tokens, C|exact (cv_maximum _ _ _ _ _ _ C)
                         |unfold maxMPTokenAmount, maxMantissa in *; lia].
  eapply cover_moved_intro; [exact C|done|lia|exact Hr|exact F].
Qed.

End Moves.
