(* ===== verification/LoanMachine.v ===== *)
(** * The lending protocol as a state machine

    Every transaction on brokers and loans is a transition of the ledger.  What ties
    loans, brokers and vaults together survives every sequence of transitions: no loan
    loses its broker, no broker its vault, brokers count their loans, and the sequence
    numbers of a broker never repeat.

    ** Loans at their end

    No transition of the lending protocol changes a loan that has no payment left, short
    of its deletion.  A transaction that does not succeed leaves the entries as they are,
    so only those that succeed are transitions. *)

From S2P Require Import Prelude.
From S2P Require Import Ter.
From S2P Require Import XrplNumber.
From S2P Require Import Amounts.
From S2P Require Import Lending.
From S2P Require Import Directories.
From S2P Require Import LedgerState.
From S2P Require Import Holdings.
From S2P Require Import Transfers.
From S2P Require Import Transactors.
From S2P Require Import TransfersFrame.
From S2P Require Import TransfersMPT.
From S2P Require Import LoanManage.
From S2P Require Import LoanBrokers.
From S2P Require Import LoanPay.
From S2P Require Import LoanSet.
From S2P Require Import LoanBooks.
From S2P Require Import LoanManageFacts.
From S2P Require Import LoanPayFacts.
From S2P Require Import LoanSetFacts.
From stdpp Require Import relations gmap list.

Local Open Scope Z_scope.

(** ** Transitions *)

Section Machine.
Context `{Keylets} (cfg : Settings) (makeRipplePayment : payment_engine).
Implicit Types (v : View).

Inductive transition : View -> View -> Prop :=
| tr_broker_set v tx prior v' :
    LoanBrokerSet_preflight cfg tx = Ok tesSUCCESS -> LoanBrokerSet_preclaim v tx = tesSUCCESS ->
    LoanBrokerSet_doApply cfg v tx prior = Ok (tesSUCCESS, v') -> transition v v'
| tr_broker_delete v tx v' :
    LoanBrokerDelete_preclaim v tx = tesSUCCESS ->
    LoanBrokerDelete_doApply cfg v tx = Ok (tesSUCCESS, v') -> transition v v'
| tr_cover_deposit v tx v' :
    CoverDeposit_preflight tx = tesSUCCESS -> CoverDeposit_preclaim cfg v tx = Ok tesSUCCESS ->
    CoverDeposit_doApply cfg v tx = Ok (tesSUCCESS, v') -> transition v v'
| tr_cover_withdraw v tx v' :
    CoverWithdraw_preflight tx = tesSUCCESS -> CoverWithdraw_preclaim cfg v tx = Ok tesSUCCESS ->
    CoverWithdraw_doApply cfg makeRipplePayment v tx = Ok (tesSUCCESS, v') -> transition v v'
| tr_cover_clawback v tx v' :
    CoverClawback_preflight tx = tesSUCCESS -> CoverClawback_preclaim cfg v tx = Ok tesSUCCESS ->
    CoverClawback_doApply cfg v tx = Ok (tesSUCCESS, v') -> transition v v'
| tr_loan_set v tx prior v' :
    LoanSet_preclaim cfg v tx = Ok tesSUCCESS ->
    LoanSet_doApply cfg v tx prior = Ok (tesSUCCESS, v') -> transition v v'
| tr_loan_manage v tx v' :
    LoanManage_preflight tx = tesSUCCESS -> LoanManage_preclaim v tx = Ok tesSUCCESS ->
    LoanManage_doApply cfg v tx = Ok (tesSUCCESS, v') -> transition v v'
| tr_loan_pay v tx v' :
    LoanPay_preflight tx = tesSUCCESS -> LoanPay_preclaim cfg v tx = Ok tesSUCCESS ->
    LoanPay_doApply cfg v tx = Ok (tesSUCCESS, v') -> transition v v'
| tr_loan_delete v tx v' :
    LoanDelete_preflight tx = tesSUCCESS -> LoanDelete_preclaim v tx = tesSUCCESS ->
    LoanDelete_doApply v tx = Ok (tesSUCCESS, v') -> transition v v'
| tr_other v v' : frame v' = frame v -> transition v v'.

End Machine.

(** ** Structure *)

Definition loan_link (l : LoanEntry) : Z * Z := (loan_LoanBrokerID l, loan_LoanSequence l).
Definition broker_link (b : LoanBroker) : Z * Z * Z :=
  (broker_VaultID b, broker_OwnerCount b, broker_LoanSequence b).

(** What the structure depends on. *)
Definition skeleton (v : View) : gmap Z (Z * Z) * gmap Z (Z * Z * Z) * gset Z :=
  (loan_link <$> loans v, broker_link <$> brokers v, dom (vaults v)).

(** The number of loans of a broker. *)
Definition loans_of (bid : Z) (v : View) : Z :=
  msum (fun _ l => if loan_LoanBrokerID l =? bid then 1 else 0) (loans v).

(** The ledger has room for [n] more transitions. *)
Record structured `{Keylets} (n : nat) (v : View) : Prop := {
  sr_steps : Z.of_nat n < 2 ^ 32 - 1;
  sr_loans : forall k l, loans v !! k = Some l ->
    exists b, brokers v !! loan_LoanBrokerID l = Some b /\
      k = loan_keylet (loan_LoanBrokerID l) (loan_LoanSequence l) /\
      loan_LoanSequence l < broker_LoanSequence b;
  sr_counts : forall bid b, brokers v !! bid = Some b -> broker_OwnerCount b = loans_of bid v;
  sr_vaults : forall bid b, brokers v !! bid = Some b -> is_Some (vaults v !! broker_VaultID b);
  sr_room : forall bid b, brokers v !! bid = Some b ->
    0 <= broker_LoanSequence b /\ broker_LoanSequence b + Z.of_nat n < 2 ^ 32 /\
    broker_OwnerCount b + Z.of_nat n < 2 ^ 32 }.

Lemma frame_skeleton v v' : frame v' = frame v -> skeleton v' = skeleton v.
Proof. intros (E1 & E2 & E3)%frame_parts. unfold skeleton. by rewrite E1, E2, E3. Qed.

Lemma skeleton_loan v k l l' :
  loans v !! k = Some l -> loan_link l' = loan_link l -> skeleton (update_loan v k l') = skeleton v.
Proof.
  intros Hl E. unfold skeleton. simpl. rewrite fmap_insert, E.
  rewrite insert_id; [done|]. by rewrite lookup_fmap, Hl.
Qed.

Lemma skeleton_broker v k b b' :
  brokers v !! k = Some b -> broker_link b' = broker_link b -> skeleton (update_broker v k b') = skeleton v.
Proof.
  intros Hb E. unfold skeleton. simpl. rewrite fmap_insert, E.
  rewrite (insert_id (broker_link <$> brokers v)); [done|]. by rewrite lookup_fmap, Hb.
Qed.

Lemma skeleton_vault v k x x' : vaults v !! k = Some x -> skeleton (update_vault v k x') = skeleton v.
Proof. intros Hx. unfold skeleton. simpl. by rewrite dom_insert_lookup_L by (by eexists). Qed.

Lemma loans_of_fmap bid v :
  loans_of bid v = msum (fun _ p => if p.1 =? bid then 1 else 0) (loan_link <$> loans v).
Proof.
  unfold loans_of, msum. by rewrite map_fold_fmap.
Qed.

(** Views with one skeleton are structured alike. *)
Lemma structured_skeleton `{Keylets} n v v' : skeleton v' = skeleton v -> structured n v -> structured n v'.
Proof.
  intros E [S0 S1 S2 S3 S4]. unfold skeleton in E. injection E as El Eb Ev.
  assert (forall bid b', brokers v' !! bid = Some b' ->
            exists b, brokers v !! bid = Some b /\ broker_link b = broker_link b') as Hb.
  { intros bid b' Hb. assert ((broker_link <$> brokers v') !! bid = Some (broker_link b')) as Hf
      by (by rewrite lookup_fmap, Hb). rewrite Eb, lookup_fmap_Some in Hf. destruct Hf as (b & ? & ?). by exists b. }
  assert (forall bid b, brokers v !! bid = Some b ->
            exists b', brokers v' !! bid = Some b' /\ broker_link b' = broker_link b) as Hb'.
  { intros bid b Hv. assert ((broker_link <$> brokers v) !! bid = Some (broker_link b)) as Hf
      by (by rewrite lookup_fmap, Hv). rewrite <- Eb, lookup_fmap_Some in Hf. destruct Hf as (b' & ? & ?). by exists b'. }
  split; [done|..].
  - intros k l' Hl. assert ((loan_link <$> loans v') !! k = Some (loan_link l')) as Hf by (by rewrite lookup_fmap, Hl).
    rewrite El, lookup_fmap_Some in Hf. destruct Hf as (l & Elk & Hlv). injection Elk as E1 E2.
    destruct (S1 k l Hlv) as (b & B1 & B2 & B3). destruct (Hb' _ _ B1) as (b' & B4 & [= _ _ B5]).
    exists b'. rewrite <- E1, <- E2, B5. by splits.
  - intros bid b' Hbv. destruct (Hb _ _ Hbv) as (b & B1 & [= _ B2 _]).
    rewrite <- B2, (S2 _ _ B1), !loans_of_fmap. by rewrite El.
  - intros bid b' Hbv. destruct (Hb _ _ Hbv) as (b & B1 & [= B2 _ _]). rewrite <- B2.
    apply elem_of_dom. rewrite Ev. apply elem_of_dom. eauto.
  - intros bid b' Hbv. destruct (Hb _ _ Hbv) as (b & B1 & [= _ B2 B3]). rewrite <- B2, <- B3. eauto.
Qed.

Lemma structured_less `{Keylets} n m v : (m <= n)%nat -> structured n v -> structured m v.
Proof. intros Hm [S0 S1 S2 S3 S4]. split; auto; [lia|]. intros bid b Hb. destruct (S4 bid b Hb) as (? & ? & ?). splits; lia. Qed.

(** The next identifier of a broker is free. *)
Lemma structured_fresh `{Keylets} n v bid b :
  Inj2 (=) (=) (=) loan_keylet -> structured n v -> brokers v !! bid = Some b ->
  loans v !! loan_keylet bid (broker_LoanSequence b) = None.
Proof.
  intros Hinj [_ S1 _ _ _] Hb. destruct (loans v !! _) as [l|] eqn:E; [|done].
  destruct (S1 _ _ E) as (b' & B1 & B2 & B3). apply Hinj in B2 as [E1 E2].
  assert (b' = b) as -> by congruence. lia.
Qed.

(** ** Transitions that keep the skeleton *)

Section Keeping.
Context `{Keylets} (cfg : Settings).
Implicit Types (v : View).

Lemma createPseudoAccount_frame v key f r v' : createPseudoAccount v key f = (r, v') -> frame v' = frame v.
Proof. unfold createPseudoAccount. destruct (_ =? 0); by intros [= _ <-]. Qed.

Lemma createPseudoAccount_full v key f t v' : createPseudoAccount v key f = (Unexpected t, v') -> t = tecDUPLICATE.
Proof. unfold createPseudoAccount. destruct (_ =? 0); by intros [= <- _]. Qed.

Lemma makeMPTDirectPayment_frame v src dst a amount limit id ter v' :
  makeMPTDirectPayment cfg v src dst a amount limit id = Ok (ter, v') -> frame v' = frame v.
Proof.
  unfold makeMPTDirectPayment. intros Hr.
  repeat match type of Hr with (if ?b then _ else _) = _ => destruct b; [congruence|] end.
  apply bind_ok in Hr as (req & _ & Hr). apply bind_ok in Hr as (ex & _ & Hr). destruct ex; [congruence|].
  apply bind_ok in Hr as ([res pv] & E%accountSend_frame & Hr). injection Hr as Hr. destruct res; congruence.
Qed.

Lemma manage_skeleton v tx v' : LoanManage_doApply cfg v tx = Ok (tesSUCCESS, v') -> skeleton v' = skeleton v.
Proof.
  unfold LoanManage_doApply. intros Hr. destruct (loans v !! lm_LoanID tx) as [l|] eqn:Hl; [|done].
  destruct (brokers v !! _) as [b|] eqn:Hb; [|done]. destruct (vaults v !! _) as [x|] eqn:Hx; [|done].
  assert (forall t l' x', t = tesSUCCESS -> loan_link l' = loan_link l ->
    skeleton (write_loan_vault v (lm_LoanID tx) (broker_VaultID b) (t, l', x')).2 = skeleton v) as Hw.
  { intros t l' x' -> El. simpl. erewrite skeleton_loan by done. by eapply skeleton_vault. }
  destruct (lm_isFlag tx tfLoanDefault).
  { unfold defaultLoan in Hr. follow Hr. apply accountSend_frame, frame_skeleton in Hr. rewrite Hr.
    erewrite skeleton_loan by done. erewrite skeleton_broker by done. by eapply skeleton_vault. }
  destruct (lm_isFlag tx tfLoanImpair).
  { apply bind_ok in Hr as ([[t l'] x'] & Hi & Hr). injection Hr as Ht <-. apply (Hw t); [done|].
    unfold impairLoan in Hi. by follow Hi. }
  destruct (lm_isFlag tx tfLoanUnimpair); [|congruence].
  apply bind_ok in Hr as ([[t l'] x'] & Hi & Hr). injection Hr as Ht <-. apply (Hw t); [done|].
  unfold unimpairLoan in Hi. by follow Hi.
Qed.

Lemma unimpaired_link v l x l' x' : unimpaired cfg v l x = Ok (l', x') -> loan_link l' = loan_link l.
Proof.
  unfold unimpaired. destruct (loan_Impaired l); [|congruence].
  intros ([[ter l1] x1] & Hu & [= <- _])%bind_ok. unfold unimpairLoan in Hu. by follow Hu.
Qed.

Lemma book_payment_link asset b x parts toOwner b' x' z :
  book_payment cfg asset b x parts toOwner = Ok (b', x', z) -> broker_link b' = broker_link b.
Proof. unfold book_payment. intros Hr. follow Hr; done. Qed.

Lemma pay_skeleton v tx v' : LoanPay_doApply cfg v tx = Ok (tesSUCCESS, v') -> skeleton v' = skeleton v.
Proof.
  intros Hr. unfold LoanPay_doApply in Hr. destruct (loans v !! pay_LoanID tx) as [l|] eqn:Hl; [|done].
  destruct (brokers v !! _) as [b|] eqn:Hb; [|done]. destruct (vaults v !! _) as [x|] eqn:Hx; [|done].
  apply bind_ok in Hr as (toOwner & _ & Hr).
  destruct (isTesSuccess _) eqn:Ef; cbn [negb] in Hr; [|apply failed_code in Ef; congruence].
  apply bind_ok in Hr as ([l1 x1] & Hu%unimpaired_link & Hr).
  apply bind_ok in Hr as ([pp l2] & Hm & Hr).
  assert (loan_link l2 = loan_link l1) as E
    by (unfold makePayment in Hm; apply bind_ok in Hm as ([pp' t] & _ & [= _ <-]); done).
  destruct pp as [parts|e]; [|congruence].
  destruct (_ || _); [done|]. apply bind_ok in Hr as ([[b' x'] z] & Hbk%book_payment_link & Hr).
  apply move_funds_frame, frame_skeleton in Hr. rewrite Hr.
  erewrite skeleton_vault by done. erewrite skeleton_broker by done.
  eapply skeleton_loan; [done|congruence].
Qed.

Lemma frame_broker v w k b : frame w = frame v -> frame (update_broker w k b) = frame (update_broker v k b).
Proof. unfold frame. simpl. congruence. Qed.

(** Cover transactions write the cover of one broker, and move funds. *)
Definition cover_written v v' : Prop :=
  exists bid b c, brokers v !! bid = Some b /\ frame v' = frame (update_broker v bid (set_broker_cover b c)).

Lemma deposit_writes v tx v' : CoverDeposit_doApply cfg v tx = Ok (tesSUCCESS, v') -> cover_written v v'.
Proof.
  unfold CoverDeposit_doApply. destruct (brokers v !! _) as [b|] eqn:Hb; [|done].
  intros (w & Fw%accountSend_frame & Hr)%and_then_ok. follow Hr.
  eexists _, b, _. split; [done|]. by apply frame_broker.
Qed.

Lemma withdraw_writes engine v tx v' :
  (forall v s d a m ter v', engine v s d a m = Ok (ter, v') -> frame v' = frame v) ->
  CoverWithdraw_doApply cfg engine v tx = Ok (tesSUCCESS, v') -> cover_written v v'.
Proof.
  intros He. unfold CoverWithdraw_doApply. destruct (brokers v !! _) as [b|] eqn:Hb; [|done].
  intros (n & _ & Hr)%bind_ok. apply bind_ok in Hr as (cover & _ & Hr).
  eexists _, b, cover. split; [done|]. destruct (_ || _); [by eapply accountSend_frame|].
  apply bind_ok in Hr as (m & _ & Hr). destruct (accounts _ !! _) as [a|]; [|done].
  apply bind_ok in Hr as ([ter w] & Hp & Hr). injection Hr as _ <-.
  destruct (mAsset (cw_Amount tx)); [by eapply He|by eapply makeMPTDirectPayment_frame].
Qed.

Lemma clawback_writes v tx v' : CoverClawback_doApply cfg v tx = Ok (tesSUCCESS, v') -> cover_written v v'.
Proof.
  unfold CoverClawback_doApply. destruct (determineBrokerID v tx) as [bid|]; [|done].
  destruct (brokers v !! bid) as [b|] eqn:Hb; [|done]. destruct (vaults v !! _); [|done].
  intros ([claw|] & _ & Hr)%bind_ok; [|done]. destruct (native claw); [done|].
  apply bind_ok in Hr as (n & _ & Hr). apply bind_ok in Hr as (cover & _ & Hr).
  exists bid, b, cover. split; [done|]. by eapply accountSend_frame.
Qed.

Lemma cover_skeleton v v' : cover_written v v' -> skeleton v' = skeleton v.
Proof. intros (bid & b & c & Hb & ->%frame_skeleton). by eapply skeleton_broker. Qed.

Lemma cover_loans v v' : cover_written v v' -> loans v' = loans v.
Proof. by intros (bid & b & c & _ & (_ & _ & ->)%frame_parts). Qed.

(** A broker that is new or has its terms changed. *)
Definition broker_written v v' : Prop :=
  exists bid b', frame v' = frame (update_broker v bid b') /\
    match brokers v !! bid with
    | Some b => exists data m, b' = set_broker_terms b data m
    | None => is_Some (vaults v !! broker_VaultID b') /\ broker_OwnerCount b' = 0 /\ broker_LoanSequence b' = 1
    end.

Lemma broker_set_writes v tx prior v' :
  LoanBrokerSet_doApply cfg v tx prior = Ok (tesSUCCESS, v') -> broker_written v v'.
Proof.
  unfold LoanBrokerSet_doApply. intros Hr. destruct (bs_LoanBrokerID tx) as [bid|].
  { destruct (brokers v !! bid) as [b|] eqn:Hb; [|done]. injection Hr as <-. eexists bid, _. split; [done|]. rewrite Hb. eauto. }
  unfold create_broker in Hr. destruct (vaults v !! bs_VaultID tx) as [x|] eqn:Hx; [|done].
  destruct (negb _); [done|].
  apply bind_ok in Hr as ([[on|t] w1] & F1 & Hr); [|apply dirLink_full in F1; congruence].
  apply bind_ok in Hr as ([[vn|t] w2] & F2 & Hr); [|apply dirLink_full in F2; congruence].
  apply dirLink_frame in F1, F2. destruct (prior <? _); [done|].
  destruct (createPseudoAccount _ _ _) as [[p|t] w3] eqn:F3; [|apply createPseudoAccount_full in F3; congruence].
  apply createPseudoAccount_frame in F3. rewrite frame_count in F3.
  apply and_then_ok in Hr as (w4 & F4%addEmptyHolding_frame & Hr).
  apply bind_ok in Hr as (w5 & Hi & Hr). injection Hr as <-.
  assert (frame w4 = frame v) as F by congruence.
  unfold insert_broker in Hi. destruct (bool_decide _) eqn:Hk; [done|]. injection Hi as <-.
  apply bool_decide_eq_false in Hk. rewrite <- eq_None_not_Some in Hk.
  eexists _, _. split; [by apply frame_broker|].
  apply frame_parts in F as (_ & Fb & _). rewrite <- Fb, Hk. simpl. by rewrite Hx.
Qed.

Lemma broker_delete_writes v tx v' :
  LoanBrokerDelete_preclaim v tx = tesSUCCESS -> LoanBrokerDelete_doApply cfg v tx = Ok (tesSUCCESS, v') ->
  exists bid b, brokers v !! bid = Some b /\ broker_OwnerCount b = 0 /\
    frame v' = frame (set_brokers v (delete bid (brokers v))).
Proof.
  unfold LoanBrokerDelete_preclaim, LoanBrokerDelete_doApply.
  destruct (brokers v !! bd_LoanBrokerID tx) as [b|] eqn:Hb; [|done].
  destruct (negb (_ =? broker_Owner b)); [done|]. destruct (broker_OwnerCount b =? 0) eqn:Hc; [zbool|done].
  intros _ Hr. destruct (vaults v !! _); [|done].
  apply bind_ok in Hr as ([f1 w1] & F1%ownerDirRemove_frame & Hr). destruct (negb f1); [done|].
  apply bind_ok in Hr as ([f2 w2] & F2%ownerDirRemove_frame & Hr). destruct (negb f2); [done|].
  apply bind_ok in Hr as (c & _ & Hr). apply and_then_ok in Hr as (w3 & F3%accountSend_frame & Hr).
  apply and_then_ok in Hr as (w4 & F4%removeEmptyHolding_frame & Hr).
  assert (frame w4 = frame v) as F by congruence. unfold erase_broker in Hr.
  destruct (accounts w4 !! _); [|done]. do 3 (destruct (negb _) || destruct (hasOwnerDir _ _); try done).
  simpl in Hr. destruct (delete _ _ !! _); [|done]. injection Hr as <-.
  eexists _, b. splits; [exact Hb|done|]. rewrite frame_count. unfold frame in *. simpl. congruence.
Qed.

(** A loan that is made. *)
Lemma loan_set_writes v tx prior v' :
  LoanSet_doApply cfg v tx prior = Ok (tesSUCCESS, v') ->
  exists b x props w T A D on bn d, brokers v !! ls_LoanBrokerID tx = Some b /\
    vaults v !! broker_VaultID b = Some x /\ frame w = frame v /\
    loans v !! loan_keylet (ls_LoanBrokerID tx) (broker_LoanSequence b) = None /\
    v' = made_entries v w tx props b x T A D on bn d /\ loan_guards cfg (vault_Asset x) tx props = Ok tesSUCCESS.
Proof.
  unfold LoanSet_doApply. destruct (brokers v !! ls_LoanBrokerID tx) as [b|] eqn:Hb; [|done].
  destruct (accounts v !! broker_Owner b); [|done].
  destruct (vaults v !! broker_VaultID b) as [x|] eqn:Hx; [|done].
  destruct (accounts v !! borrower tx b); [|done]. destruct (accounts v !! broker_Account b); [|done].
  destruct (number_ltb _ _); [done|]. intros (props & _ & Hr)%bind_ok.
  apply bind_ok in Hr as (ter & Hg & Hr). destruct (isTesSuccess ter) eqn:Et; cbn [negb] in Hr; [|by injection Hr as ->].
  apply isTesSuccess_eq in Et as ->. apply bind_ok in Hr as (st & _ & Hr). apply bind_ok in Hr as (z & _ & Hr). apply bind_ok in Hr as (delta & _ & Hr).
  apply bind_ok in Hr as (D0 & _ & Hr). apply bind_ok in Hr as (ter' & _ & Hr).
  destruct (isTesSuccess ter') eqn:Et'; cbn [negb] in Hr; [|by injection Hr as ->].
  apply and_then_ok in Hr as (w & F%fund_loan_frame & Hr).
  apply (book_loan_spec cfg v) in Hr as (T & A & D & on & bn & d & Hk & _ & _ & _ & ->); [|done].
  exists b, x, props, w, T, A, D, on, bn, d. by splits.
Qed.

Lemma loan_delete_writes v tx v' :
  LoanDelete_doApply v tx = Ok (tesSUCCESS, v') ->
  exists l b, loans v !! ld_LoanID tx = Some l /\ brokers v !! loan_LoanBrokerID l = Some b /\
    frame v' = frame (update_broker (set_loans v (delete (ld_LoanID tx) (loans v))) (loan_LoanBrokerID l)
                        (broker_adjusted b (-1))).
Proof.
  unfold LoanDelete_doApply. destruct (loans v !! ld_LoanID tx) as [l|] eqn:Hl; [|done].
  destruct (accounts v !! loan_Borrower l); [|done].
  destruct (brokers v !! loan_LoanBrokerID l) as [b|] eqn:Hb; [|done]. destruct (negb _); [done|].
  intros ([f1 w1] & F1%ownerDirRemove_frame & Hr)%bind_ok. destruct (negb f1); [done|].
  apply bind_ok in Hr as ([f2 w2] & F2%ownerDirRemove_frame & Hr). destruct (negb f2); [done|].
  injection Hr as <-. exists l, b. splits; auto. rewrite frame_count.
  assert (frame w2 = frame v) as F by congruence. unfold frame in *. simpl. congruence.
Qed.

End Keeping.

(** ** Transitions that change it *)

(** Loans come and go with the count of their broker. *)
Lemma structured_alter `{Keylets} n v v' bid b b' k o :
  structured (S n) v -> brokers v !! bid = Some b ->
  dom (vaults v') = dom (vaults v) -> brokers v' = <[bid := b']> (brokers v) ->
  loans v' = partial_alter (fun _ => o) k (loans v) ->
  broker_VaultID b' = broker_VaultID b ->
  broker_LoanSequence b <= broker_LoanSequence b' <= broker_LoanSequence b + 1 ->
  broker_OwnerCount b' =
    broker_OwnerCount b - from_option (fun _ => 1) 0 (loans v !! k) + from_option (fun _ => 1) 0 o ->
  (forall l, loans v !! k = Some l -> loan_LoanBrokerID l = bid) ->
  (forall l, o = Some l -> loan_LoanBrokerID l = bid /\ k = loan_keylet bid (loan_LoanSequence l) /\
                       loan_LoanSequence l < broker_LoanSequence b') ->
  structured n v'.
Proof.
  intros [S0 S1 S2 S3 S4] Hb Ev Eb El Hv Hs Hc Hold Hnew. split; [lia|..].
  - intros k' l. rewrite El. rewrite lookup_partial_alter. case_decide as Ek.
    + intros Ho. destruct (Hnew l Ho) as (-> & ? & ?). exists b'. rewrite Eb, lookup_insert_eq. by subst.
    + intros Hl. destruct (S1 _ _ Hl) as (c & C1 & C2 & C3). rewrite Eb, lookup_insert. case_decide as Ec.
      * exists b'. rewrite <- Ec in *. splits; auto. assert (c = b) by congruence. subst. lia.
      * exists c. by splits.
  - intros bid' c. unfold loans_of.
    rewrite El, (msum_altered (fun (_ : Z) l => if loan_LoanBrokerID l =? bid' then 1 else 0)) by done.
    fold (loans_of bid' v). rewrite Eb, lookup_insert. case_decide as Ec.
    + intros [= <-]. subst bid'. rewrite Hc, (S2 _ _ Hb). f_equal; [f_equal|].
      * destruct (loans v !! k) as [l|]; [|done]. simpl. by rewrite (Hold l eq_refl), Z.eqb_refl.
      * destruct o as [l|]; [|done]. simpl. destruct (Hnew l eq_refl) as (-> & _). by rewrite Z.eqb_refl.
    + intros Hc'. rewrite (S2 _ _ Hc').
      assert (forall q : option LoanEntry, (forall l, q = Some l -> loan_LoanBrokerID l = bid) ->
                from_option (fun l => if loan_LoanBrokerID l =? bid' then 1 else 0) 0 q = 0) as Hz.
      { intros [l|] Hq; [|done]. simpl. rewrite (Hq l eq_refl). destruct (bid =? bid') eqn:E; [zbool|]; done. }
      rewrite (Hz _ Hold), (Hz o) by (intros l ->; apply Hnew; done). lia.
  - intros bid' c. rewrite Eb, lookup_insert. rewrite <- elem_of_dom, Ev, elem_of_dom. case_decide.
    + intros [= <-]. rewrite Hv. eauto.
    + eauto.
  - intros bid' c. rewrite Eb, lookup_insert. case_decide; [|intros Hc'; destruct (S4 _ _ Hc') as (? & ? & ?); splits; lia].
    intros [= <-]. destruct (S4 _ _ Hb) as (? & ? & ?). rewrite Hc.
    destruct (loans v !! k), o; simpl; splits; lia.
Qed.

Lemma loans_of_none bid v :
  (forall k l, loans v !! k = Some l -> loan_LoanBrokerID l <> bid) -> loans_of bid v = 0.
Proof.
  intros Hn. unfold loans_of. rewrite (msum_ext _ (fun _ _ => 0)).
  - clear Hn. unfold msum. induction (loans v) as [|k l m Hk IH] using map_ind; [done|].
    rewrite map_fold_insert_L; [exact IH|done|done].
  - intros k l Hl. specialize (Hn k l Hl). destruct (_ =? bid) eqn:E; by zbool.
Qed.

Lemma loans_of_zero bid v k l : loans_of bid v = 0 -> loans v !! k = Some l -> loan_LoanBrokerID l <> bid.
Proof.
  intros E Hl <-. apply (msum_term (fun _ l' => if loan_LoanBrokerID l' =? loan_LoanBrokerID l then 1 else 0)) in Hl.
  - rewrite Z.eqb_refl in Hl. unfold loans_of in E. lia.
  - intros ? l' _. by destruct (_ =? _).
Qed.

Lemma structured_add_broker `{Keylets} n v k b :
  structured (S n) v -> brokers v !! k = None -> is_Some (vaults v !! broker_VaultID b) ->
  broker_OwnerCount b = 0 -> broker_LoanSequence b = 1 -> structured n (update_broker v k b).
Proof.
  intros S Hk Hv Hc Hs. pose proof S as [S0 S1 S2 S3 S4]. split; [lia|..].
  - intros k' l Hl. destruct (S1 _ _ Hl) as (c & C1 & C2 & C3). exists c. simpl.
    rewrite lookup_insert_ne by congruence. by splits.
  - intros bid c. simpl. rewrite lookup_insert. case_decide; [|apply S2]. intros [= <-]. subst bid.
    rewrite Hc. symmetry. apply loans_of_none. intros k' l Hl E.
    destruct (S1 _ _ Hl) as (c & C1 & _). congruence.
  - intros bid c. simpl. rewrite lookup_insert. case_decide; [by intros [= <-]|apply S3].
  - intros bid c. simpl. rewrite lookup_insert. case_decide; [intros [= <-]; splits; lia|].
    intros Hc'. destruct (S4 _ _ Hc') as (? & ? & ?). splits; lia.
Qed.

Lemma structured_drop_broker `{Keylets} n v k b :
  structured n v -> brokers v !! k = Some b -> broker_OwnerCount b = 0 ->
  structured n (set_brokers v (delete k (brokers v))).
Proof.
  intros [S0 S1 S2 S3 S4] Hb Hc.
  assert (forall bid c, delete k (brokers v) !! bid = Some c -> brokers v !! bid = Some c) as Hd
    by (by intros bid c [_ ?]%lookup_delete_Some).
  rewrite (S2 _ _ Hb) in Hc. split; [done|..]; simpl.
  - intros k' l Hl. destruct (S1 _ _ Hl) as (c & C1 & C2 & C3). exists c.
    rewrite lookup_delete_ne; [by splits|]. intros E. by eapply loans_of_zero in Hc.
  - intros bid c Hc'. by apply S2, Hd.
  - intros bid c Hc'. by eapply S3, Hd.
  - intros bid c Hc'. by eapply S4, Hd.
Qed.

Section Changing.
Context `{Keylets} (cfg : Settings).
Implicit Types (v : View).

Lemma confine_up c : 0 <= c < 2 ^ 32 - 1 -> confineOwnerCount c 1 = c + 1.
Proof. intros Hc. unfold confineOwnerCount. rewrite u32_id by lia. simpl. destruct (c + 1 <? c) eqn:E; [zbool; lia|done]. Qed.

Lemma confine_down c : 1 <= c < 2 ^ 32 -> confineOwnerCount c (-1) = c - 1.
Proof. intros Hc. unfold confineOwnerCount. rewrite u32_id by lia. destruct (c <? c + -1) eqn:E; simpl; [zbool|]; lia. Qed.

Lemma loans_of_nonneg bid v : 0 <= loans_of bid v.
Proof. apply msum_nonneg. intros ? l _. by destruct (_ =? _). Qed.

Lemma broker_set_structured n v v' : broker_written v v' -> structured (S n) v -> structured n v'.
Proof.
  intros (bid & b' & F%frame_skeleton & Hb) S. apply (structured_skeleton _ _ _ F).
  destruct (brokers v !! bid) as [b|] eqn:E.
  - apply (structured_less (Datatypes.S n)); [lia|]. destruct Hb as (data & m & ->).
    eapply structured_skeleton; [|exact S]. by eapply skeleton_broker.
  - destruct Hb as (? & ? & ?). by apply structured_add_broker.
Qed.

Lemma loan_set_structured n v tx prior v' :
  LoanSet_doApply cfg v tx prior = Ok (tesSUCCESS, v') -> structured (S n) v -> structured n v'.
Proof.
  intros (b & x & props & w & T & A & D & on & bn & d & Hb & Hx & (Fv & Fb & Fl)%frame_parts & Hk & -> & _)%loan_set_writes S.
  pose proof (sr_room _ _ S _ _ Hb) as (R1 & R2 & R3).
  assert (0 <= broker_OwnerCount b) by (rewrite (sr_counts _ _ S _ _ Hb); apply loans_of_nonneg).
  eapply (structured_alter n v _ _ _ _ _ (Some _)); [done|exact Hb|..]; simpl.
  - rewrite Fv. by rewrite dom_insert_lookup_L by (by eexists).
  - by rewrite Fb.
  - by rewrite Fl.
  - done.
  - simpl. rewrite u32_id by lia. lia.
  - rewrite Hk. simpl. rewrite confine_up by lia. lia.
  - intros l. by rewrite Hk.
  - intros l [= <-]. simpl. rewrite u32_id by lia. splits; [done|done|lia].
Qed.

Lemma loan_delete_structured n v tx v' :
  LoanDelete_doApply v tx = Ok (tesSUCCESS, v') -> structured (S n) v -> structured n v'.
Proof.
  intros (l & b & Hl & Hb & F%frame_skeleton)%loan_delete_writes S. apply (structured_skeleton _ _ _ F).
  pose proof (sr_room _ _ S _ _ Hb) as (R1 & R2 & R3).
  assert (1 <= broker_OwnerCount b).
  { pose proof (loans_of_nonneg (loan_LoanBrokerID l) v). rewrite (sr_counts _ _ S _ _ Hb).
    destruct (Z.eq_dec (loans_of (loan_LoanBrokerID l) v) 0) as [E|]; [|lia]. by eapply loans_of_zero in E. }
  eapply (structured_alter n v _ _ _ _ (ld_LoanID tx) None); [done|exact Hb|done|done|done|done|..].
  - simpl. lia.
  - rewrite Hl. simpl. rewrite confine_down by lia. lia.
  - intros l'. rewrite Hl. by intros [= <-].
  - done.
Qed.

(** One transition. *)
Lemma transition_structured engine n v v' :
  (forall v s d a m ter v', engine v s d a m = Ok (ter, v') -> frame v' = frame v) ->
  transition cfg engine v v' -> structured (S n) v -> structured n v'.
Proof.
  intros He Ht S. pose proof (structured_less (Datatypes.S n) n v ltac:(lia) S) as S'.
  destruct Ht.
  - by eapply broker_set_structured; [eapply broker_set_writes|].
  - eapply broker_delete_writes in H1 as (bid & b & Hb & Hc & F%frame_skeleton); [|done].
    apply (structured_skeleton _ _ _ F). by eapply structured_drop_broker.
  - by eapply structured_skeleton; [eapply cover_skeleton, deposit_writes|].
  - by eapply structured_skeleton; [eapply cover_skeleton, withdraw_writes|].
  - by eapply structured_skeleton; [eapply cover_skeleton, clawback_writes|].
  - by eapply loan_set_structured.
  - by eapply structured_skeleton; [eapply manage_skeleton|].
  - by eapply structured_skeleton; [eapply pay_skeleton|].
  - by eapply loan_delete_structured.
  - by eapply structured_skeleton; [apply frame_skeleton|].
Qed.

End Changing.

(** ** Loans at their end *)

Local Open Scope Z_scope.

(** No payment is left: the loan was paid or is in default. *)
Definition finished (l : LoanEntry) : Prop := sfPaymentRemaining (loan_fields l) = 0.

Definition defaults_closed (v : View) : Prop :=
  forall k l, loans v !! k = Some l -> loan_Default l = true -> closed l.

Section Steps.
Context `{Keylets} (cfg : Settings).
Implicit Types (v : View) (l : LoanEntry).

(** A step writes at most one loan. *)
Definition writes v (k : Z) l v' : Prop := loans v' = <[k := l]> (loans v).

Lemma manage_writes v tx l b v' :
  admitted v tx l b -> LoanManage_doApply cfg v tx = Ok (tesSUCCESS, v') ->
  exists l', writes v (lm_LoanID tx) l' v' /\ (loan_Default l' = true -> closed l').
Proof.
  intros [A1 A2 A3 A4 A5 A6 A7] Hr. unfold LoanManage_doApply in Hr. rewrite A1, A2 in Hr.
  destruct (vaults v !! broker_VaultID b) as [x|]; [|done]. unfold writes.
  destruct (lm_isFlag tx tfLoanDefault).
  { exists (default_loan_entry l). split; [|intros; apply default_closed]. unfold defaultLoan in Hr.
    follow Hr. apply accountSend_frame, frame_parts in Hr as (_ & _ & ->). done. }
  destruct (lm_isFlag tx tfLoanImpair).
  { apply bind_ok in Hr as ([[ter l'] x'] & Hi & Hr). injection Hr as Ht <-. subst ter. exists l'. split; [done|].
    unfold impairLoan in Hi. follow Hi. simpl in *. congruence. }
  destruct (lm_isFlag tx tfLoanUnimpair).
  { apply bind_ok in Hr as ([[ter l'] x'] & Hi & Hr). injection Hr as Ht <-. subst ter. exists l'. split; [done|].
    unfold unimpairLoan in Hi. follow Hi. simpl in *. congruence. }
  injection Hr as <-. exists l. split; [symmetry; by apply insert_id|congruence].
Qed.

Lemma unimpaired_default v l x l' x' :
  unimpaired cfg v l x = Ok (l', x') -> loan_Default l' = loan_Default l.
Proof.
  unfold unimpaired. destruct (loan_Impaired l); [|congruence].
  intros ([[ter l1] x1] & Hu & [= <- _])%bind_ok. unfold unimpairLoan in Hu. follow Hu; done.
Qed.

Lemma pay_writes v tx l v' :
  loans v !! pay_LoanID tx = Some l -> LoanPay_doApply cfg v tx = Ok (tesSUCCESS, v') ->
  exists l', (writes v (pay_LoanID tx) l' v' \/ loans v' = loans v) /\ loan_Default l' = loan_Default l.
Proof.
  intros Hl Hr. unfold LoanPay_doApply in Hr. rewrite Hl in Hr.
  destruct (brokers v !! _) as [b|]; [|done]. destruct (vaults v !! _) as [x|]; [|done].
  apply bind_ok in Hr as (toOwner & _ & Hr).
  destruct (isTesSuccess _) eqn:Ef; cbn [negb] in Hr; [|apply failed_code in Ef; congruence].
  apply bind_ok in Hr as ([l1 x1] & Hu & Hr). apply unimpaired_default in Hu.
  apply bind_ok in Hr as ([pp l2] & Hm & Hr).
  assert (loan_Default l2 = loan_Default l) as E.
  { unfold makePayment in Hm. apply bind_ok in Hm as ([pp' t] & _ & [= _ <-]). done. }
  destruct pp as [parts|e]; [|exists l; split; [right; congruence|done]].
  destruct (_ || _); [done|]. apply bind_ok in Hr as ([[b' x'] z] & _ & Hr).
  exists l2. split; [|done]. left. unfold writes. apply move_funds_frame, frame_parts in Hr as (_ & _ & ->). done.
Qed.

Lemma pay_preclaim_open v tx :
  LoanPay_preclaim cfg v tx = Ok tesSUCCESS ->
  exists l, loans v !! pay_LoanID tx = Some l /\ loan_Borrower l = pay_Account tx /\ ~ finished l.
Proof.
  unfold LoanPay_preclaim. destruct (loans v !! pay_LoanID tx) as [l|]; [|done].
  destruct (loan_Borrower l =? pay_Account tx) eqn:E1; [|done]. cbn [negb].
  destruct (_ && _); [done|]. destruct (_ =? 0) eqn:E2; [done|]. zbool. intros _.
  exists l. splits; auto.
Qed.

(** One transition leaves finished loans alone, or deletes them, and closes what it
    declares in default. *)
Lemma transition_final engine v v' :
  (forall v s d a m ter v', engine v s d a m = Ok (ter, v') -> frame v' = frame v) ->
  transition cfg engine v v' -> defaults_closed v ->
  defaults_closed v' /\
  forall k l, loans v !! k = Some l -> finished l -> loans v' !! k = Some l \/ loans v' !! k = None.
Proof.
  intros He Ht Hd.
  assert (forall w, loans w = loans v -> defaults_closed w /\
            forall k l, loans v !! k = Some l -> finished l -> loans w !! k = Some l \/ loans w !! k = None) as Hsame
    by (intros w E; unfold defaults_closed; rewrite E; auto).
  destruct Ht as [v tx prior v' _ _ Ha|v tx v' Hp Ha|v tx v' _ _ Ha|v tx v' _ _ Ha|v tx v' _ _ Ha
                 |v tx prior v' _ Ha|v tx v' _ Hp Ha|v tx v' _ Hp Ha|v tx v' _ _ Ha|v v' F].
  - apply Hsame. by apply broker_set_writes in Ha as (bid & b & (_ & _ & ->)%frame_parts & _).
  - apply Hsame. by eapply broker_delete_writes in Ha as (bid & b & _ & _ & (_ & _ & ->)%frame_parts).
  - by eapply Hsame, cover_loans, deposit_writes.
  - by eapply Hsame, cover_loans, withdraw_writes.
  - by eapply Hsame, cover_loans, clawback_writes.
  - apply loan_set_writes in Ha as (b & x & props & w & T & A & D & on & bn & d & _ & _ & F & Hk & -> & _).
    apply frame_parts in F as (_ & _ & F). unfold defaults_closed. simpl. rewrite F. split.
    + intros k l. rewrite lookup_insert. case_decide; [by intros [= <-]|apply Hd].
    + intros k l Hl _. left. rewrite lookup_insert_ne; [done|]. congruence.
  - destruct (preclaim_admits v tx Hp) as (l0 & b & Ad).
    destruct (manage_writes v tx l0 b v' Ad Ha) as (l' & Hw & Hc). unfold writes in Hw. split.
    + intros k l. rewrite Hw, lookup_insert. case_decide; [by intros [= <-]|apply Hd].
    + intros k l Hl Hf. left. rewrite Hw, lookup_insert_ne; [done|]. intros <-.
      rewrite (ad_loan _ _ _ _ Ad) in Hl. injection Hl as <-. by apply (ad_remaining _ _ _ _ Ad).
  - destruct (pay_preclaim_open v tx Hp) as (l0 & Hl0 & _ & Hopen).
    destruct (pay_writes v tx l0 v' Hl0 Ha) as (l' & Hw & Ed).
    assert (loan_Default l0 = false) as Hnd.
    { destruct (loan_Default l0) eqn:E; [|done]. destruct (Hd _ _ Hl0 E) as (_ & _ & _ & Hr & _). done. }
    destruct Hw as [Hw|Hw]; [unfold writes in Hw|by apply Hsame]. split.
    + intros k l. rewrite Hw, lookup_insert. case_decide; [intros [= <-]; congruence|apply Hd].
    + intros k l Hl Hf. left. rewrite Hw, lookup_insert_ne; [done|]. intros <-. congruence.
  - apply loan_delete_writes in Ha as (l0 & b & _ & _ & F). apply frame_parts in F as (_ & _ & F). simpl in F.
    unfold defaults_closed. rewrite F. split.
    + intros k l [_ Hl]%lookup_delete_Some. by apply Hd with k.
    + intros k l Hl _. rewrite lookup_delete. case_decide; auto.
  - apply Hsame. by apply frame_parts in F as (_ & _ & ->).
Qed.

End Steps.
