(* ===== verification/LoanProps.v ===== *)
(** * Properties of the loan transactions

    Management and payment of loans on the books of a vault, and sequences of them. *)

From S2P Require Import Prelude.
From S2P Require Import Ter.
From S2P Require Import XrplNumber.
From S2P Require Import XrplNumberFacts.
From S2P Require Import XrplNumberGrid.
From S2P Require Import Amounts.
From S2P Require Import AmountsFacts.
From S2P Require Import AmountsRound.
From S2P Require Import AmountsWhole.
From S2P Require Import Lending.
From S2P Require Import LendingFacts.
From S2P Require Import LendingSpec.
From S2P Require Import LendingRefine.
From S2P Require Import LendingProps.
From S2P Require Import LedgerState.
From S2P Require Import Holdings.
From S2P Require Import Transfers.
From S2P Require Import TransfersFrame.
From S2P Require Import TransfersMPT.
From S2P Require Import TransfersXRP.
From S2P Require Import SampleLedger.
From S2P Require Import LoanManage.
From S2P Require Import LoanPay.
From S2P Require Import LoanBooks.
From S2P Require Import LoanManageFacts.
From S2P Require Import LoanPayFacts.
From S2P Require Import LoanSet.
From S2P Require Import LoanSetFacts.
From S2P Require Import LoanMachine.
From stdpp Require Import relations gmap list.

Local Open Scope Z_scope.

(** ** A small vault

    A vault in the token of the gateway with two million units available, a broker
    owned by Bob with half a million of cover, and Alice's loan. *)

Definition vault_account : Z := 21.
Definition broker_account : Z := 23.

Definition sample_vault : Vault :=
  mkVault bob vault_account (AMPT token) (mkNumber 3064611000000000 (-9))
    (mkNumber 2000000000000000 (-9)) zero 77 0 zero 0 1 4 0 None.

Definition sample_broker (cover : Number) : LoanBroker :=
  mkBroker bob broker_account 1 1000 1 (mkNumber 1064611000000000 (-9)) zero cover 10000 25000
    2 5 0 0 [].

Definition sample_entry : LoanEntry := mkLoanEntry sample_loan alice 2 60 false false zero 1 0 0.

Definition half_million : Number := mkNumber 5000000000000000 (-10).

Definition lending_view (cover : Number) (l : LoanEntry) : View :=
  mkLedger sample_env (accounts sample_view) ∅
    {[token := mkIssuance gateway 0 4000000 None None None 0 1 0 None 0]}
    {[(token, alice) := mkToken 0 1000000 0; (token, bob) := mkToken 0 500000 0;
      (token, vault_account) := mkToken 0 2000000 0; (token, broker_account) := mkToken 0 500000 0]}
    ∅ {[1 := sample_vault]} {[2 := sample_broker cover]} {[3 := l]} ∅.

Lemma gridded_intro s n m e :
  normal (mkNumber m e) -> e <= s -> m = n * 10 ^ (s - e) -> gridded s (mkNumber m e).
Proof. intros Hn He Hm. apply (grid_gridded s n). right. by splits. Qed.

Ltac grid_number n := apply (gridded_intro 0 n); [split; eval_cmp|eval_cmp|by vm_compute].

Lemma sample_number_grids :
  gridded 0 (mkNumber 3064611000000000 (-9)) /\ gridded 0 (mkNumber 2000000000000000 (-9)) /\
  gridded 0 (mkNumber 1064611000000000 (-9)) /\ gridded 0 half_million /\
  gridded 0 (mkNumber 1065263000000000 (-9)) /\ gridded 0 (mkNumber 6520000000000000 (-13)).
Proof.
  splits; [grid_number 3064611|grid_number 2000000|grid_number 1064611|grid_number 500000
          |grid_number 1065263|grid_number 652].
Qed.

Lemma sample_books_balance : books_balance 0 1 (lending_view half_million sample_entry).
Proof.
  destruct sample_number_grids as (G1 & G2 & G3 & G4 & G5 & G6).
  split.
  - exists sample_vault. split; [done|].
    split; [exact G1|exact G2|apply gridded_zero|by vm_compute..].
  - intros bid b. simpl. rewrite lookup_singleton_Some. intros [<- <-] _.
    split; [exact G3|exact G4|by vm_compute..].
  - intros k l. simpl. rewrite lookup_singleton_Some. intros [<- <-] _.
    split; [exact G5|exact G6|by vm_compute|done].
Qed.

Lemma sample_on_books :
  on_books 0 (lending_view half_million sample_entry) 3 2 1 sample_entry (sample_broker half_million) sample_vault.
Proof. split; [done..|]. apply sample_books_balance. Qed.

(** ** Management *)

(** C13. On balanced books, a transaction that impairs a loan, reverses the
    impairment or declares a default keeps the books balanced when it succeeds: the
    assets of the vault are what is available and what the borrowers owe, the
    unrealized loss is what is owed on impaired loans, and the debt of every broker is
    what its borrowers owe.  No other loan, broker or vault changes. *)
Theorem loan_management_books `{Keylets} cfg s vid v tx l b x v' :
  current cfg -> asset_scale (vault_Asset x) s -> sfLoanScale (loan_fields l) = s ->
  on_books s v (lm_LoanID tx) (loan_LoanBrokerID l) vid l b x ->
  LoanManage_preclaim v tx = Ok tesSUCCESS -> LoanManage_doApply cfg v tx = Ok (tesSUCCESS, v') ->
  books_balance s vid v' /\ others_same vid v v' (lm_LoanID tx) (loan_LoanBrokerID l).
Proof.
  intros HC HA HL O Hp Hr. destruct (preclaim_admits v tx Hp) as (l0 & b0 & Ad).
  pose proof (ob_loan _ _ _ _ _ _ _ _ O) as E1. rewrite (ad_loan _ _ _ _ Ad) in E1. injection E1 as ->.
  pose proof (ob_broker _ _ _ _ _ _ _ _ O) as E2. rewrite (ad_broker _ _ _ _ Ad) in E2. injection E2 as ->.
  exact (LoanManage_keeps cfg s vid (asset_scale_grid _ _ HA) v tx l b x v' HC HA HL O Ad Hr).
Qed.

Definition impair_tx : LoanManageTx := mkLoanManage bob 3 (Some tfLoanImpair).

Lemma loan_management_books_witness :
  exists v', LoanManage_doApply sample_settings (lending_view half_million sample_entry) impair_tx =
             Ok (tesSUCCESS, v') /\
    books_balance 0 1 v' /\ others_same 1 (lending_view half_million sample_entry) v' 3 2.
Proof.
  eexists. split; [vm_compute; reflexivity|].
  apply (loan_management_books sample_settings 0 1 (lending_view half_million sample_entry) impair_tx
           sample_entry (sample_broker half_million) sample_vault);
    [done|done|done|apply sample_on_books|by vm_compute|vm_compute; reflexivity].
Defined.

(** A default that the checks admit: the cover is a whole number of units and no
    more than what the loan owes the vault.  If the broker has less cover, the
    transaction fails.  Otherwise the loan is closed, the vault writes off what is not
    covered and gets the cover, the loss of an impaired loan is realized, the debt and
    the cover of the broker fall, and only the transfer of the cover is left to do. *)
Theorem loan_default_covered `{Keylets} cfg s vid v tx l b x :
  current cfg -> asset_scale (vault_Asset x) s -> sfLoanScale (loan_fields l) = s ->
  on_books s v (lm_LoanID tx) (loan_LoanBrokerID l) vid l b x ->
  lm_isFlag tx tfLoanDefault = true ->
  exists c, gridded s c /\ 0 <= units s c <= owed s l /\
    (units s (broker_CoverAvailable b) < units s c ->
     exists v', LoanManage_doApply cfg v tx = Ok (tefBAD_LEDGER, v')) /\
    (units s c <= units s (broker_CoverAvailable b) ->
     exists T A L D C,
       units s T = units s (vault_AssetsTotal x) - (owed s l - units s c) /\
       units s A = units s (vault_AssetsAvailable x) + units s c /\
       units s L = units s (vault_LossUnrealized x) - impaired_owed s l /\
       units s D = units s (broker_DebtTotal b) - owed s l /\
       units s C = units s (broker_CoverAvailable b) - units s c /\
       LoanManage_doApply cfg v tx =
         let* amount := st_of_number cfg (vault_Asset x) c in
         accountSend cfg
           (default_entries vid v (lm_LoanID tx) (loan_LoanBrokerID l) l b x T A L D C)
           (broker_Account b) (vault_Account x) amount Waive).
Proof.
  intros HC HA HL O Hf.
  destruct (defaultLoan_spec cfg s vid (asset_scale_grid _ _ HA) v _ _ l b x HC HA HL O)
    as (z & c & _ & _ & Gc & Hc & Hno & Hyes).
  assert (LoanManage_doApply cfg v tx =
          defaultLoan cfg v (lm_LoanID tx) (loan_LoanBrokerID l) vid l b x (vault_Asset x)) as ->.
  { unfold LoanManage_doApply. rewrite (ob_loan _ _ _ _ _ _ _ _ O), (ob_broker _ _ _ _ _ _ _ _ O),
      (ob_of_vault _ _ _ _ _ _ _ _ O), (ob_vault _ _ _ _ _ _ _ _ O), Hf. done. }
  exists c. splits; auto; try lia. intros Hle.
  destruct (Hyes Hle) as (T & A & L & D & C & _ & _ & _ & _ & _ & UT & UA & UL & UD & UC & E).
  exists T, A, L, D, C. by splits.
Qed.

Definition default_tx : LoanManageTx := mkLoanManage bob 3 (Some tfLoanDefault).

Lemma loan_default_covered_witness :
  exists c, gridded 0 c /\ 0 <= units 0 c <= 1064611 /\
    (500000 < units 0 c ->
     exists v', LoanManage_doApply sample_settings (lending_view half_million sample_entry) default_tx =
                Ok (tefBAD_LEDGER, v')) /\
    (units 0 c <= 500000 ->
     exists T A L D C,
       units 0 T = 3064611 - (1064611 - units 0 c) /\ units 0 A = 2000000 + units 0 c /\
       units 0 L = 0 - 0 /\ units 0 D = 1064611 - 1064611 /\ units 0 C = 500000 - units 0 c /\
       LoanManage_doApply sample_settings (lending_view half_million sample_entry) default_tx =
         let* amount := st_of_number sample_settings (AMPT token) c in
         accountSend sample_settings
           (default_entries 1 (lending_view half_million sample_entry) 3 2 sample_entry
              (sample_broker half_million) sample_vault T A L D C)
           broker_account vault_account amount Waive).
Proof.
  apply (loan_default_covered sample_settings 0 1 (lending_view half_million sample_entry) default_tx
           sample_entry (sample_broker half_million) sample_vault);
    [done|done|done|apply sample_on_books|by vm_compute].
Defined.

(** A broker whose cover is below the share to be liquidated cannot default a loan at
    all: the transaction fails where the code marks the branch as unreachable. *)
Example default_without_cover_fails :
  match LoanManage_doApply sample_settings (lending_view zero sample_entry) default_tx with
  | Ok (ter, _) => ter = tefBAD_LEDGER
  | Throw _ => False
  end.
Proof. by vm_compute. Qed.

(** An impairment on balanced books always succeeds, and reversing it later gives
    back the vault as it was, to the last digit, and the loan as it was but for the due
    date.  The due date is that of the schedule if it is still ahead, and one interval
    from now otherwise. *)
Theorem impairment_reversed `{Keylets} cfg s vid v v2 k bid l b x d :
  current cfg -> grid_scale s -> on_books s v k bid vid l b x ->
  loan_Impaired l = false -> sfNextPaymentDueDate (loan_fields l) = Some d ->
  exists l1 x1, impairLoan cfg v l x = Ok (tesSUCCESS, l1, x1) /\
    loan_Impaired l1 = true /\
    units s (vault_LossUnrealized x1) = units s (vault_LossUnrealized x) + owed s l /\
    unimpairLoan cfg v2 l1 x1 =
      Ok (tesSUCCESS, set_loan_fields l (set_nextDue (loan_fields l) (Some (restored_due v2 (loan_fields l)))), x).
Proof.
  intros HC HG O Hi Hd.
  destruct (impairLoan_spec cfg s vid HG v k bid l b x d O Hi Hd) as (loss & Gl & Ul & E).
  do 2 eexists. split; [exact E|]. split; [done|]. split; [exact Ul|].
  pose proof (on_books_vault _ _ _ _ _ _ _ _ O) as V.
  destruct (books_bounds s vid _ _ _ _ _ _ O) as (B1 & B2 & B3 & B4 & B5 & B6 & B7).
  pose proof (vb_paper _ _ _ _ V) as Vp. pose proof (gridded_bound s _ (vb_loss _ _ _ _ V)).
  destruct (owedToVault_units cfg s HG l (on_books_loan _ _ _ _ _ _ _ _ O)) as (z & Ez & Gz & Uz); [lia|].
  unfold unimpairLoan.
  change (owedToVault cfg (set_loan_fields _ _)) with (owedToVault cfg l). rewrite Ez. cbn [bind].
  change (vault_LossUnrealized (set_vault_loss x loss)) with loss.
  rewrite (units_ltb s loss z Gl Gz), (proj2 (Z.ltb_ge _ _)) by lia.
  destruct (units_sub (round_mode cfg) s HG loss z Gl Gz) as (loss' & -> & Gl' & Ul'); [lia|]. cbn [bind].
  rewrite (units_inj s loss' (vault_LossUnrealized x) Gl' (vb_loss _ _ _ _ V) ltac:(lia)).
  f_equal. f_equal; [f_equal|by destruct x].
  destruct l as [t bo lb gp df im fo sq on bn]. simpl in Hi. subst im. done.
Qed.

Lemma impairment_reversed_witness :
  exists l1 x1, impairLoan sample_settings (lending_view half_million sample_entry) sample_entry sample_vault =
                Ok (tesSUCCESS, l1, x1) /\
    loan_Impaired l1 = true /\
    units 0 (vault_LossUnrealized x1) = units 0 (vault_LossUnrealized sample_vault) + owed 0 sample_entry /\
    unimpairLoan sample_settings (lending_view half_million sample_entry) l1 x1 =
      Ok (tesSUCCESS,
          set_loan_fields sample_entry
            (set_nextDue sample_loan (Some (restored_due (lending_view half_million sample_entry) sample_loan))),
          sample_vault).
Proof.
  apply (impairment_reversed sample_settings 0 1 (lending_view half_million sample_entry)
           (lending_view half_million sample_entry) 3 2 sample_entry (sample_broker half_million)
           sample_vault 2592100);
    [done|split; eval_cmp|apply sample_on_books|done|done].
Defined.

(** ** Sequences *)

(** C38. Whatever transactions of the lending protocol follow, a loan with no payment
    left, paid off or in default, never changes again while it is in the ledger; and a
    loan in default has nothing outstanding, no payment left and no due date. *)
Theorem finished_loans_final `{Keylets} cfg engine k l v v' :
  (forall v s d a m ter v', engine v s d a m = Ok (ter, v') -> frame v' = frame v) ->
  rtc (fun v v' => transition cfg engine v v' /\ is_Some (loans v' !! k)) v v' -> defaults_closed v ->
  loans v !! k = Some l -> finished l -> defaults_closed v' /\ loans v' !! k = Some l.
Proof.
  intros He. induction 1 as [v|v v1 v' [Hs Hk] _ IH]; intros Hd Hl Hf; [by split|].
  destruct (transition_final cfg engine v v1 He Hs Hd) as [Hd1 Hstay]. apply IH; auto.
  destruct (Hstay k l Hl Hf) as [|E]; [done|]. rewrite E in Hk. by destruct Hk.
Qed.

Definition late_view (l : LoanEntry) : View :=
  mkLedger (mkEnv sample_rules (mkFees 10 1000000 200000) false 3000000 3000010 0 90 ∅ ∅ ∅ ∅)
    (accounts sample_view) ∅ (issuances (lending_view half_million l))
    (tokens (lending_view half_million l)) ∅ {[1 := sample_vault]} {[2 := sample_broker half_million]}
    {[3 := l]} ∅.

(** A payment engine that finds no path. *)
Definition no_path (v : View) (src dst : Z) (amount limit : STAmount) : result (TER * View) := Ok (tecPATH_DRY, v).

(** The sample view with a second loan, in default. *)
Definition closed_view : View := update_loan (late_view sample_entry) 4 (default_loan_entry sample_entry).

Lemma closed_default_made :
  exists v', LoanManage_doApply sample_settings closed_view default_tx = Ok (tesSUCCESS, v') /\ is_Some (loans v' !! 4).
Proof.
  assert (match LoanManage_doApply sample_settings closed_view default_tx with
          | Ok (tesSUCCESS, v') => bool_decide (is_Some (loans v' !! 4))
          | _ => false
          end = true) as E by (vm_compute; reflexivity).
  destruct (LoanManage_doApply _ _ _) as [[t v']|]; [|discriminate E].
  destruct t; try discriminate E. exists v'. split; [reflexivity|]. exact (bool_decide_eq_true_1 _ E).
Qed.

Lemma finished_loans_final_witness :
  exists v', rtc (fun v v' => transition sample_settings no_path v v' /\ is_Some (loans v' !! 4)) closed_view v' /\
    defaults_closed v' /\ loans v' !! 4 = Some (default_loan_entry sample_entry).
Proof.
  destruct closed_default_made as (v' & Hv & H4).
  assert (rtc (fun v v' => transition sample_settings no_path v v' /\ is_Some (loans v' !! 4)) closed_view v') as Hs.
  { apply rtc_once. split; [|done]. apply (tr_loan_manage _ _ _ default_tx); [by vm_compute|by vm_compute|done]. }
  exists v'. split; [done|].
  apply (finished_loans_final sample_settings no_path 4 _ closed_view v'); [unfold no_path; congruence|done| |done|done].
  intros k l. simpl. rewrite lookup_insert. case_decide; [intros [= <-] _; apply default_closed|].
  rewrite lookup_singleton_Some. by intros [<- <-].
Defined.

(** ** Payments *)

(** The hypotheses under which a transaction pays a loan: balanced books, a payable
    loan, a payment in time with neither flag, and room for the sums. *)
Record paying (cfg : Settings) (s vid : Z) (v : View) (tx : LoanPayTx) (l : LoanEntry) (b : LoanBroker)
    (x : Vault) (u : LendingSpec.Units) (sf : Z) (amt : Number) : Prop := {
  py_current : current cfg;
  py_scale : deep_scale (vault_Asset x) s;
  py_loan_scale : sfLoanScale (loan_fields l) = s;
  py_books : on_books s v (pay_LoanID tx) (loan_LoanBrokerID l) vid l b x;
  py_default : loan_Default l = false;
  py_payable : payable cfg (vault_Asset x) (loan_fields l) u sf (broker_ManagementFeeRate b);
  py_in_time : in_time v l;
  py_regular : regular tx;
  py_amount : number_of_st cfg (pay_Amount tx) = Ok amt;
  py_room : room s u sf b x }.



(** Alice pays 220,000 tokens: two payments and change. *)
Definition token_amount : STAmount := mkSTAmount (AMPT token) 220000 0 false.
Definition pay_tx : LoanPayTx := mkLoanPay alice 3 token_amount 0.

Lemma sample_paying :
  paying sample_settings 0 1 (lending_view half_million sample_entry) pay_tx sample_entry
    (sample_broker half_million) sample_vault sample_units 5 (mkNumber 2200000000000000 (-10)).
Proof.
  split; [done|done|done|apply sample_on_books|done| | |by split|by vm_compute|by vm_compute].
  - destruct sample_payable as [p1 [t1 t2 t3 t4 t5] p3 p4 p5 p6 p7 p8]. split; auto. split; auto.
  - exists 2592100. splits; [done|split; eval_cmp|eval_cmp].
Qed.

Lemma token_books l : books (lending_view half_million l) token maxMPTokenAmount.
Proof.
  split; [by eexists|by vm_compute|by vm_compute|].
  intros k t. simpl. rewrite !lookup_insert. repeat (case_decide; [by intros [= <-]|]).
  rewrite lookup_singleton_Some. by intros [_ <-].
Qed.



(** A broker that borrows from its own vault in XRP: the fee of its payment, which
    would come back to it, is taken and given to nobody. *)
Definition self_view : View :=
  mkLedger sample_env
    {[alice := sample_account 60000000; vault_account := sample_account 2000000;
      broker_account := sample_account 500000]} ∅ ∅ ∅ ∅
    {[1 := mkVault alice vault_account (AIssue xrpIssue) (mkNumber 3064611000000000 (-9))
             (mkNumber 2000000000000000 (-9)) zero 77 0 zero 0 1 4 0 None]}
    {[2 := mkBroker alice broker_account 1 1000 1 (mkNumber 1064611000000000 (-9)) zero half_million 10000 25000 2 5 0 0 []]}
    {[3 := sample_entry]} ∅.

Example own_fee_destroyed :
  match LoanPay_doApply sample_settings self_view (mkLoanPay alice 3 (mkSTAmount (AIssue xrpIssue) 220000 0 false) 0) with
  | Ok (ter, v) => ter = tesSUCCESS /\ xrp_total v < xrp_total self_view
  | Throw _ => False
  end.
Proof. vm_compute. by split. Qed.
