(* ===== verification/LoanSetProps.v ===== *)
(** * Properties of new loans

    A loan that is made keeps the books of its vault, is covered, and pays out the
    tokens that the books say. *)

From S2P Require Import Prelude.
From S2P Require Import Ter.
From S2P Require Import XrplNumber.
From S2P Require Import XrplNumberFacts.
From S2P Require Import XrplNumberGrid.
From S2P Require Import Amounts.
From S2P Require Import AmountsFacts.
From S2P Require Import AmountsRound.
From S2P Require Import AmountsWhole.
From S2P Require Import Lending.
From S2P Require Import LendingFacts.
From S2P Require Import LedgerState.
From S2P Require Import Holdings.
From S2P Require Import Transfers.
From S2P Require Import TransfersFrame.
From S2P Require Import Transactors.
From S2P Require Import TransfersMPT.
From S2P Require Import TransfersHoldings.
From S2P Require Import SampleLedger.
From S2P Require Import LoanManage.
From S2P Require Import LoanPay.
From S2P Require Import LoanSet.
From S2P Require Import LoanBooks.
From S2P Require Import LoanManageFacts.
From S2P Require Import LoanPayFacts.
From S2P Require Import LoanSetFacts.
From S2P Require Import LoanProps.
From stdpp Require Import gmap list.

Local Open Scope Z_scope.

(** ** A vault that lends *)

(** The vault of the sample with two million units, none of them lent. *)
Definition fresh_vault : Vault :=
  mkVault bob vault_account (AMPT token) (mkNumber 2000000000000000 (-9)) (mkNumber 2000000000000000 (-9)) zero
    77 0 zero 0 1 4 0 None.

Definition fresh_broker (feeRate : Z) : LoanBroker :=
  mkBroker bob broker_account 1 feeRate 0 zero zero half_million 10000 25000 1 5 0 0 [].

Definition fresh_view (feeRate : Z) : View :=
  mkLedger sample_env
    (<[vault_account := sample_account 0]> (<[broker_account := sample_account 0]> (accounts sample_view))) ∅
    {[token := mkIssuance gateway lsfMPTCanTransfer 2500000 None None None 0 1 0 None 0]}
    {[(token, bob) := mkToken 0 0 0; (token, vault_account) := mkToken 0 2000000 0;
      (token, broker_account) := mkToken 0 500000 0]}
    ∅ {[1 := fresh_vault]} {[2 := fresh_broker feeRate]} ∅ ∅.

(** Alice borrows one million for twelve months at ten percent; the owner of the broker
    takes ten thousand. *)
Definition borrow_tx : LoanSetTx :=
  mkLoanSet alice 2 0 None None None (Some (mkNumber 1000000000000000 (-11))) None None None None (Some 10000) None None
    None (mkNumber 1000000000000000 (-9)) (Some 12) (Some 2592000) None.

Definition borrow_props : LoanProperties :=
  mkProperties (mkNumber 8785218887550904 (-11)) (mkNumber 1054226000000000 (-9)) (mkNumber 5420000000000000 (-13)) 0
    (mkNumber 7963301079331726 (-11)).

Lemma fresh_books feeRate : books_balance 0 1 (fresh_view feeRate).
Proof.
  destruct sample_number_grids as (_ & G2 & _ & G4 & _ & _).
  split.
  - exists fresh_vault. split; [done|].
    split; [exact G2|exact G2|apply gridded_zero|by vm_compute..].
  - intros bid b. simpl. rewrite lookup_singleton_Some. intros [<- <-] _.
    split; [apply gridded_zero|exact G4|by vm_compute..].
  - intros k l. simpl. by rewrite lookup_empty.
Qed.

Lemma sample_lending :
  lending sample_settings 0 (fresh_view 1000) borrow_tx (fresh_broker 1000) fresh_vault borrow_props.
Proof.
  split; [done|done|done|done|apply fresh_books|split_and!; by vm_compute| |by vm_compute|by vm_compute
         |by vm_compute|by vm_compute|done|by vm_compute|done|by vm_compute].
  right. split; eval_cmp.
Qed.

(** ** Books *)

(** C6. A loan that is made is new.  The vault gives the principal from its available
    assets and books the interest due, the debt of the broker rises by what the borrower
    will owe the vault, and all books stay balanced.  The new debt is within the maximum
    of the broker and its cover within the minimum that the debt asks for. *)
Theorem loan_origination_books `{Keylets} cfg s v tx b x props prior v' :
  lending cfg s v tx b x props -> LoanSet_doApply cfg v tx prior = Ok (tesSUCCESS, v') ->
  let k := loan_keylet (ls_LoanBrokerID tx) (broker_LoanSequence b) in
  let principal := units s (ls_PrincipalRequested tx) in
  exists l' b' x' m, loans v !! k = None /\
    loans v' = <[k := l']> (loans v) /\ brokers v' = <[ls_LoanBrokerID tx := b']> (brokers v) /\
    vaults v' = <[broker_VaultID b := x']> (vaults v) /\
    loan_Borrower l' = borrower tx b /\ sfPaymentRemaining (loan_fields l') = paymentTotal tx /\
    sfPrincipalOutstanding (loan_fields l') = ls_PrincipalRequested tx /\
    0 <= principal <= owed s l' /\
    units s (vault_AssetsAvailable x') = units s (vault_AssetsAvailable x) - principal /\
    units s (vault_AssetsTotal x') = units s (vault_AssetsTotal x) + (owed s l' - principal) /\
    units s (broker_DebtTotal b') = units s (broker_DebtTotal b) + owed s l' /\
    broker_LoanSequence b' = u32 (broker_LoanSequence b + 1) /\
    (broker_DebtMaximum b = zero \/ number_ltb (broker_DebtMaximum b) (broker_DebtTotal b') = false) /\
    tenthBipsOfValue cfg (broker_DebtTotal b') (broker_CoverRateMinimum b) = Ok m /\
    number_ltb (broker_CoverAvailable b') m = false /\
    books_balance s (broker_VaultID b) v'.
Proof.
  intros L Hr k principal.
  destruct (LoanSet_made cfg s v tx b x props prior v' L Hr)
    as (w & T & A & D & on & bn & d & toB & R & _ & Hk & Hallow & _ & Hfund & ->).
  pose proof (fund_loan_frame _ _ _ _ _ _ _ _ _ _ Hfund) as F.
  pose proof (made_books cfg s v w tx b x props T A D on bn d L R F Hk) as HB.
  apply frame_parts in F as (Fv & Fb & Fl). destruct (debt_allowed_ok _ _ _ Hallow) as (Hmax & m & Em & Hm).
  destruct R as [GP Gt Gf [HP Hf] _ UA _ UT UD].
  exists (made_loan v tx props b on bn),
    (set_broker_loans b D (confineOwnerCount (broker_OwnerCount b) 1) (u32 (broker_LoanSequence b + 1))),
    (set_vault_assets x T A), m.
  assert (owed s (made_loan v tx props b on bn) =
          units s (lp_totalValueOutstanding props) - units s (lp_managementFeeOwedToBroker props)) as -> by done.
  simpl. rewrite Fl, Fb, Fv. unfold principal. splits; auto; lia.
Qed.

Lemma sample_loan_made :
  exists v', LoanSet_doApply sample_settings (fresh_view 1000) borrow_tx 60000000 = Ok (tesSUCCESS, v').
Proof. eexists. vm_compute. reflexivity. Qed.

Lemma loan_origination_books_witness :
  exists v', LoanSet_doApply sample_settings (fresh_view 1000) borrow_tx 60000000 = Ok (tesSUCCESS, v') /\
    books_balance 0 1 v'.
Proof.
  destruct sample_loan_made as [v' E]. exists v'. split; [exact E|].
  destruct (loan_origination_books sample_settings 0 (fresh_view 1000) borrow_tx (fresh_broker 1000) fresh_vault
              borrow_props 60000000 v' sample_lending E) as (l' & b' & x' & m & R). apply R.
Defined.

(** ** Funds *)

(** C39. When the vault is in a multi-purpose token, a loan that is made pays out exactly
    the principal from the account of the vault: the borrower gets it less the
    origination fee, the owner of the broker gets the fee, nobody else's balance changes,
    and the books of the vault fall by the same amount. *)
Theorem loan_origination_funds `{Keylets} cfg v tx b x props id prior v' :
  lending cfg 0 v tx b x props -> vault_Asset x = AMPT id -> books v id maxMPTokenAmount ->
  (forall f, ls_LoanOriginationFee tx = Some f -> wf f) ->
  vault_Account x <> borrower tx b -> vault_Account x <> broker_Owner b ->
  LoanSet_doApply cfg v tx prior = Ok (tesSUCCESS, v') ->
  let p := units 0 (ls_PrincipalRequested tx) in
  let f := units 0 (originationFee tx) in
  0 <= f <= p /\ outstanding v' id = held v' id /\
  (exists x', vaults v' !! broker_VaultID b = Some x' /\
     units 0 (vault_AssetsAvailable x') = units 0 (vault_AssetsAvailable x) - p) /\
  forall y, mpt_balance v' id y =
            mpt_balance v id y + (if borrower tx b =? y then p - f else 0)
            + (if broker_Owner b =? y then f else 0) - (if vault_Account x =? y then p else 0).
Proof.
  intros L Hasset W Wf Hn1 Hn2 Hr p f.
  destruct (LoanSet_made cfg 0 v tx b x props prior v' L Hr)
    as (w & T & A & D & on & bn & d & toB & R & Hg & Hk & _ & EB & Hfund & ->).
  destruct R as [GP Gt Gf [HP Hf] _ UA _ _ _].
  destruct (origination_units cfg 0 v tx b x props L GP Hg Wf) as [Go Ho]. fold p f in Ho.
  pose proof (ln_current _ _ _ _ _ _ _ L) as HC.
  pose proof (gridded_bound _ _ GP) as Bp. fold p in Bp. unfold maxMantissa in Bp.
  destruct (units_sub (round_mode cfg) 0 ltac:(split; eval_cmp) _ _ GP Go) as (z & Ez & Gz & Uz);
    [fold p f; unfold maxMantissa; lia|].
  assert (z = toB) as -> by congruence. fold p f in Uz.
  apply fund_loan_inv in Hfund as (w1 & _ & St & Hs). specialize (St id Hasset).
  rewrite Hasset in Hs. set (bo := borrower tx b) in *. set (ow := broker_Owner b) in *.
  assert (whole_payments cfg (AMPT id) [(bo, toB); (ow, originationFee tx)] [(bo, p - f); (ow, f)]) as Hw.
  { apply two_payments; auto; try lia. by rewrite <- Uz. }
  destruct (multi_send_books cfg w1 id (vault_Account x) _ [(bo, p - f); (ow, f)] w HC (same_books _ _ _ _ St W) Hw)
    as [W' Hbal]; [simpl; unfold maxMPTokenAmount; lia|exact Hs|].
  splits; [lia|lia|exact (bk_outstanding _ _ _ W')| |].
  - exists (set_vault_assets x T A). split; [apply lookup_insert_eq|exact UA].
  - intros y. change (mpt_balance (made_entries v w tx props b x T A D on bn d) id y) with (mpt_balance w id y).
    rewrite (Hbal y), (same_balance _ _ id y St). simpl. unfold skipped. simpl.
    rewrite (proj2 (Z.eqb_neq _ _) Hn1), (proj2 (Z.eqb_neq _ _) Hn2). rewrite !orb_false_r, !Z.add_0_r.
    destruct (p - f =? 0) eqn:E1, (f =? 0) eqn:E2; zbool;
      destruct (bo =? y), (ow =? y), (vault_Account x =? y); lia.
Qed.

Lemma fresh_tokens feeRate : books (fresh_view feeRate) token maxMPTokenAmount.
Proof.
  split; [by eexists|by vm_compute|by vm_compute|].
  intros k t. simpl. rewrite !lookup_insert. repeat (case_decide; [by intros [= <-]|]).
  rewrite lookup_singleton_Some. by intros [_ <-].
Qed.

Lemma loan_origination_funds_witness :
  exists v', LoanSet_doApply sample_settings (fresh_view 1000) borrow_tx 60000000 = Ok (tesSUCCESS, v') /\
    mpt_balance v' token alice = 0 + 990000 + 0 - 0 /\ mpt_balance v' token bob = 0 + 0 + 10000 - 0 /\
    mpt_balance v' token vault_account = 2000000 + 0 + 0 - 1000000.
Proof.
  destruct sample_loan_made as [v' E]. exists v'. split; [exact E|].
  destruct (loan_origination_funds sample_settings (fresh_view 1000) borrow_tx (fresh_broker 1000) fresh_vault
              borrow_props token 60000000 v' sample_lending eq_refl (fresh_tokens 1000)) as (_ & _ & _ & R);
    [intros f [= <-]; right; split; eval_cmp|done|done|exact E|].
  split_and!; [exact (R alice)|exact (R bob)|exact (R vault_account)].
Defined.

(** ** Schedules *)

(** For a loan that the checks admit, the due date of every payment fits in the 32
    bits of a date. *)
Theorem due_dates_fit `{Keylets} cfg v tx i :
  0 <= getStartDate v < 2 ^ 32 -> minPaymentInterval <= paymentInterval tx ->
  LoanSet_preclaim cfg v tx = Ok tesSUCCESS -> 1 <= i <= paymentTotal tx ->
  u32 (getStartDate v + i * paymentInterval tx) = getStartDate v + i * paymentInterval tx.
Proof.
  unfold LoanSet_preclaim. intros Hs Hi Hp Hr. destruct (schedule_fits v tx) eqn:Hf; [|done].
  unfold schedule_fits in Hf. rewrite u32_id in Hf by lia.
  apply andb_true_iff in Hf as [_ Hf]. apply negb_true_iff, Z.ltb_ge in Hf. unfold minPaymentInterval in Hi.
  pose proof (Z.mul_div_le (4294967295 - getStartDate v) (paymentInterval tx) ltac:(lia)).
  apply u32_id. nia.
Qed.

Lemma due_dates_fit_witness : u32 (1010 + 12 * 2592000) = 1010 + 12 * 2592000.
Proof.
  apply (due_dates_fit sample_settings (fresh_view 1000) borrow_tx 12);
    [by vm_compute|by vm_compute|by vm_compute|by vm_compute].
Defined.

(** ** Where the code does not do what it says *)

(** Without interest and without a management fee the total value of a large loan can be
    below its principal: the guard looks for interest above zero only. *)
Example zero_interest_below_principal :
  let tx := mkLoanSet alice 2 0 None None None None None None None None None None None None
              (mkNumber 9999999999999999 0) (Some 7) None None in
  match computeLoanProperties sample_settings (AMPT token) (ls_PrincipalRequested tx) 0 60 7 0 with
  | Ok props => loan_guards sample_settings (AMPT token) tx props = Ok tesSUCCESS /\
                lp_totalValueOutstanding props = mkNumber 9999999999999996 0
  | Throw _ => False
  end.
Proof. vm_compute. by split. Qed.

(** With a management fee the same loan is refused where the code marks the branch as
    unreachable. *)
Example zero_interest_refused :
  let tx := mkLoanSet alice 2 0 None None None None None None None None None None None None
              (mkNumber 9999999999999999 0) (Some 7) None None in
  match computeLoanProperties sample_settings (AMPT token) (ls_PrincipalRequested tx) 0 60 7 1000 with
  | Ok props => loan_guards sample_settings (AMPT token) tx props = Ok tecINTERNAL
  | Throw _ => False
  end.
Proof. by vm_compute. Qed.

(** The owner of the broker submits, the borrower is the counterparty: the reserve of the
    borrower is compared with the balance of the submitter.  A borrower with no XRP above
    the base reserve gets the loan. *)
Definition poor_view : View :=
  update_account (fresh_view 1000) alice (sample_account 1).

Definition owner_tx : LoanSetTx :=
  mkLoanSet bob 2 0 None (Some alice) None None None None None None (Some 10000) None None
    None (mkNumber 1000000000000000 (-9)) (Some 12) (Some 2592000) None.

Example reserve_of_submitter :
  match LoanSet_doApply sample_settings poor_view owner_tx 70000000 with
  | Ok (ter, v) => ter = tesSUCCESS /\ mpt_balance v token alice = 1000000
  | Throw _ => False
  end.
Proof. vm_compute. by split. Qed.
