(* ===== verification/LoanMachineProps.v ===== *)
(** * Properties of brokers and of the lending machine

    The structure that every sequence of transactions keeps, and the cover of brokers. *)

From S2P Require Import Prelude.
From S2P Require Import Ter.
From S2P Require Import XrplNumber.
From S2P Require Import XrplNumberFacts.
From S2P Require Import Amounts.
From S2P Require Import AmountsRound.
From S2P Require Import Lending.
From S2P Require Import LedgerState.
From S2P Require Import Holdings.
From S2P Require Import Transfers.
From S2P Require Import Transactors.
From S2P Require Import TransfersFrame.
From S2P Require Import TransfersMPT.
From S2P Require Import SampleLedger.
From S2P Require Import LoanManage.
From S2P Require Import LoanBrokers.
From S2P Require Import LoanPay.
From S2P Require Import LoanSet.
From S2P Require Import LoanBooks.
From S2P Require Import LoanManageFacts.
From S2P Require Import LoanCoverFacts.
From S2P Require Import LoanSetFacts.
From S2P Require Import LoanMachine.
From S2P Require Import LoanProps.
From S2P Require Import LoanSetProps.
From stdpp Require Import relations gmap list.

Local Open Scope Z_scope.

(** ** Structure *)

(** C7. Whatever transactions of the lending protocol follow, in any number for which the
    32-bit counters have room: every loan has its broker and the identifier that its
    broker and sequence number give, every broker has its vault and counts its loans
    exactly.  So a broker with loans cannot be deleted, and the identifier of its next
    loan is free. *)
Theorem lending_structure `{Keylets} cfg engine n m v v' :
  Inj2 (=) (=) (=) loan_keylet ->
  (forall v s d a m ter v', engine v s d a m = Ok (ter, v') -> frame v' = frame v) ->
  nsteps (transition cfg engine) n v v' -> structured (n + m) v ->
  structured m v' /\
  (forall bid b, brokers v' !! bid = Some b -> loans v' !! loan_keylet bid (broker_LoanSequence b) = None) /\
  (forall k l tx, loans v' !! k = Some l -> bd_LoanBrokerID tx = loan_LoanBrokerID l ->
     LoanBrokerDelete_preclaim v' tx = tecNO_PERMISSION \/ LoanBrokerDelete_preclaim v' tx = tecHAS_OBLIGATIONS).
Proof.
  intros Hinj He Hs S. assert (structured m v') as S'.
  { revert S. induction Hs as [v|n v v1 v' Ht _ IH]; [done|]. intros S. apply IH.
    by eapply (transition_structured cfg engine). }
  split; [done|]. split; [intros bid b Hb; by eapply structured_fresh|].
  intros k l tx Hl E. destruct (sr_loans _ _ S' _ _ Hl) as (b & Hb & _).
  unfold LoanBrokerDelete_preclaim. rewrite E, Hb. destruct (negb (_ =? broker_Owner b)); [by left|]. right.
  destruct (broker_OwnerCount b =? 0) eqn:Ec; [|done]. zbool. rewrite (sr_counts _ _ S' _ _ Hb) in Ec.
  by eapply loans_of_zero in Ec.
Qed.

Lemma sample_loan_keylet_inj : Inj2 (=) (=) (=) loan_keylet.
Proof. intros a b a' b' E. apply sample_key_inj in E as [_ E]. by injection E. Qed.

Lemma fresh_structured feeRate : structured 2 (fresh_view feeRate).
Proof.
  split; [done|..].
  - intros k l. simpl. by rewrite lookup_empty.
  - intros bid b. simpl. rewrite lookup_singleton_Some. by intros [<- <-].
  - intros bid b. simpl. rewrite lookup_singleton_Some. intros [<- <-]. by eexists.
  - intros bid b. simpl. rewrite lookup_singleton_Some. intros [<- <-]. simpl. lia.
Qed.

Lemma lending_structure_witness :
  exists v', nsteps (transition sample_settings no_path) 1 (fresh_view 1000) v' /\ structured 1 v'.
Proof.
  destruct sample_loan_made as [v' E]. exists v'.
  assert (nsteps (transition sample_settings no_path) 1 (fresh_view 1000) v') as Hs.
  { apply nsteps_once. apply (tr_loan_set _ _ _ borrow_tx 60000000); [by vm_compute|exact E]. }
  split; [exact Hs|].
  apply (lending_structure sample_settings no_path 1 1 (fresh_view 1000) v' sample_loan_keylet_inj);
    [unfold no_path; congruence|exact Hs|apply fresh_structured].
Defined.

(** ** Cover *)


(** The owner of the broker of the sample takes back one hundred thousand. *)
Definition withdraw_tx : CoverWithdrawTx := mkCoverWithdraw bob 2 (mpt_amount token 100000) None false.

Lemma sample_covering : covering sample_settings (fresh_view 1000) 2 (fresh_broker 1000) fresh_vault token.
Proof. split; [done|done|done|done|apply fresh_books|apply fresh_tokens|by vm_compute]. Qed.

Lemma sample_cover_withdrawn :
  exists v', CoverWithdraw_doApply sample_settings no_path (fresh_view 1000) withdraw_tx = Ok (tesSUCCESS, v').
Proof. eexists. vm_compute. reflexivity. Qed.

