(* ===== verification/VaultFacts.v ===== *)
(** * Assets and shares in whole tokens

    The conversions of a vault whose asset is a token, and the exchanges that deposits,
    withdrawals and clawbacks make with them. *)

From S2P Require Import Prelude.
From S2P Require Import Ter.
From S2P Require Import XrplNumber.
From S2P Require Import XrplNumberFacts.
From S2P Require Import XrplNumberCorrect.
From S2P Require Import XrplNumberAdd.
From S2P Require Import XrplNumberGrid.
From S2P Require Import XrplNumberMultiple.
From S2P Require Import XrplNumberProps.
From S2P Require Import Amounts.
From S2P Require Import AmountsFacts.
From S2P Require Import AmountsRound.
From S2P Require Import AmountsWhole.
From S2P Require Import Lending.
From S2P Require Import LendingFacts.
From S2P Require Import NumberRatios.
From S2P Require Import LedgerState.
From S2P Require Import Holdings.
From S2P Require Import Transfers.
From S2P Require Import Transactors.
From S2P Require Import TransfersFrame.
From S2P Require Import TransfersMPT.
From S2P Require Import Vaults.
From S2P Require Import VaultFunds.
From S2P Require Import LoanBooks.
From S2P Require Import LoanCoverFacts.
From stdpp Require Import gmap list.

Local Open Scope Z_scope.

(** ** Results of exchanges *)

Lemma catch_value {A} (m : result (Expected A)) a : catch_overflow m = Ok (Value a) -> m = Ok (Value a).
Proof. destruct m as [|[]]; simpl; congruence. Qed.

Lemma need_value {A} (m : result (option A)) a : need m = Ok (Value a) -> m = Ok (Some a).
Proof. unfold need. intros ([b|] & -> & [= <-])%bind_ok; done. Qed.

Lemma on_value_ok {A B} (m : result (Expected A)) (k : A -> result (Expected B)) b :
  on_value m k = Ok (Value b) -> exists a, m = Ok (Value a) /\ k a = Ok (Value b).
Proof. unfold on_value. intros ([a|t] & -> & Hk)%bind_ok; [by exists a|done]. Qed.

(** What is not a value is a failure. *)
Definition fails {A} (m : result (Expected A)) : Prop := forall t, m = Ok (Unexpected t) -> t <> tesSUCCESS.

Lemma fails_value {A} (a : A) : fails (Ok (Value a)).
Proof. by intros t [=]. Qed.
Lemma fails_code {A} t : t <> tesSUCCESS -> fails (A := A) (Ok (Unexpected t)).
Proof. intros Ht t' [= <-]. done. Qed.
Lemma fails_need {A} (m : result (option A)) : fails (need m).
Proof. intros t. unfold need. by intros ([a|] & _ & [= <-])%bind_ok. Qed.
Lemma fails_catch {A} (m : result (Expected A)) : fails m -> fails (catch_overflow m).
Proof. intros Hm t. destruct m as [e|[]]; simpl; [apply Hm|by intros [= <-]|done|done]. Qed.
Lemma fails_bind {A B} (m : result A) (k : A -> result (Expected B)) : (forall a, fails (k a)) -> fails (bind m k).
Proof. intros Hk t (a & _ & Ha)%bind_ok. by apply (Hk a). Qed.
Lemma fails_on_value {A B} (m : result (Expected A)) (k : A -> result (Expected B)) :
  fails m -> (forall a, fails (k a)) -> fails (on_value m k).
Proof. intros Hm Hk t. unfold on_value. intros ([a|t'] & E & Hr)%bind_ok; [by apply (Hk a)|injection Hr as <-; by apply Hm]. Qed.

Create HintDb vaults.
#[export] Hint Resolve fails_value fails_code fails_need fails_catch fails_bind fails_on_value : vaults.

Lemma deposit_exchange_fails cfg x i a : fails (deposit_exchange cfg x i a).
Proof.
  apply fails_catch, fails_on_value; [auto with vaults|]. intros s. destruct (st_is_zero s); [by apply fails_code|].
  apply fails_on_value; [auto with vaults|]. intros d. apply fails_bind. intros []; [by apply fails_code|apply fails_value].
Qed.

Lemma withdraw_exchange_fails cfg x i a : fails (withdraw_exchange cfg x i a).
Proof.
  apply fails_catch. destruct (asset_eqb _ _).
  - apply fails_on_value; [auto with vaults|]. intros s. destruct (st_is_zero s); [by apply fails_code|].
    auto with vaults.
  - destruct (asset_eqb _ _); [auto with vaults|by apply fails_code].
Qed.

Lemma clawback_exchange_fails cfg v x i h a : fails (clawback_exchange cfg v x i h a).
Proof.
  apply fails_catch, fails_on_value.
  - unfold clawback_amounts. destruct (st_is_zero a); auto 10 with vaults.
  - intros sd. apply fails_bind. intros n. destruct (negb _); [apply fails_value|].
    apply fails_bind. intros r. apply fails_on_value; [auto with vaults|]. intros s.
    apply fails_on_value; [auto with vaults|]. intros d. apply fails_bind. intros m.
    destruct (number_gtb _ _); [by apply fails_code|apply fails_value].
Qed.

(** ** Amounts *)

Lemma mpt_of_number_nonneg cfg id x a :
  current cfg -> wf x -> nonneg x -> st_of_number cfg (AMPT id) x = Ok a ->
  exists w, a = mpt_amount id w /\ 0 <= w <= maxMPTokenAmount /\ round_whole (round_mode cfg) x = Ok w.
Proof.
  intros HC Wx Nx Ha. destruct Wx as [-> | Hx].
  { rewrite (st_of_number_whole cfg (AMPT id) 0 zero HC eq_refl (on_grid_zero 0)) in Ha. injection Ha as <-. by exists 0. }
  rewrite (st_of_number_integral cfg (AMPT id)) in Ha by auto. destruct (_ && _); [done|].
  apply bind_ok in Ha as (w & Ew & Ha). destruct (Z.ltb_spec (integral_limit (AMPT id)) (Z.abs w)) as [|L]; [done|].
  injection Ha as <-. exists w. split; [done|]; split; [|done]. change (integral_limit (AMPT id)) with maxMPTokenAmount in L.
  enough (0 <= w) by lia. unfold round_whole in Ew. destruct (_ || _); [injection Ew; lia|].
  by eapply to_rep_nonneg; [|apply (nonneg_neg_number x (or_intror Hx))|].
Qed.

(** A proportion of quantities that are not negative. *)
Lemma proportion_nonneg cfg total part whole z :
  wf total -> nonneg total -> wf part -> nonneg part -> wf whole -> nonneg whole ->
  proportion cfg total part whole = Ok z -> wf z /\ nonneg z.
Proof.
  unfold proportion. intros Wt Nt Wp Np Ww Nw (r & Hr & Hz)%bind_ok.
  destruct (number_div_nonneg _ _ _ _ Wp Np Ww Nw Hr) as [Wr Nr].
  exact (number_mul_nonneg _ _ _ _ Wt Nt Wr Nr Hz).
Qed.

(** A part of the whole gets at most the total, and the whole of it all of the total. *)
Lemma proportion_le cfg total part whole z :
  wf total -> nonneg total -> wf part -> nonneg part -> wf whole -> nonneg whole ->
  number_ltb whole part = false ->
  proportion cfg total part whole = Ok z -> wf z /\ nonneg z /\ number_ltb total z = false.
Proof.
  unfold proportion. intros Wt Nt Wp Np Ww Nw HL (r & Hr & Hz)%bind_ok.
  assert (wf r /\ nonneg r /\ number_ltb one r = false) as (Wr & Nr & Lr); [|exact (number_mul_le _ _ _ _ Wt Nt Wr Nr Lr Hz)].
  destruct Ww as [-> | Hw]; [done|]. destruct Wp as [-> | Hp]; [|exact (number_div_le_one _ _ _ _ Hp Hw Np Nw HL Hr)].
  unfold number_div in Hr. rewrite (normal_neq_zero whole Hw) in Hr. injection Hr as <-. splits; [by left|done|done].
Qed.

Lemma proportion_whole cfg total whole :
  wf total -> nonneg total -> normal whole -> nonneg whole -> proportion cfg total whole whole = Ok total.
Proof.
  intros Wt Nt Hw Nw. unfold proportion. rewrite number_div_self by done. cbn [bind]. by apply number_mul_one.
Qed.

(** ** Conversions *)

(** A vault that holds a token, with an issuance of shares. *)
Record token_vault (cfg : Settings) (x : Vault) (i : MPTokenIssuance) (id : Z) : Prop := {
  tv_current : current cfg;
  tv_asset : vault_Asset x = AMPT id;
  tv_scale : vault_Scale x = 0;
  tv_total : gridded 0 (vault_AssetsTotal x);
  tv_available : gridded 0 (vault_AssetsAvailable x);
  tv_available_nonneg : 0 <= units 0 (vault_AssetsAvailable x);
  tv_loss : gridded 0 (vault_LossUnrealized x);
  tv_loss_range : 0 <= units 0 (vault_LossUnrealized x) <= units 0 (vault_AssetsTotal x);
  tv_outstanding : 0 <= iss_OutstandingAmount i <= maxMPTokenAmount }.

Lemma grid_zero : grid_scale 0.
Proof. split; eval_cmp. Qed.

Lemma mpt_eqb id : asset_eqb (AMPT id) (AMPT id) = true.
Proof. apply Z.eqb_refl. Qed.

Lemma mpt_asset id n : mAsset (mpt_amount id n) = AMPT id.
Proof. done. Qed.

Lemma mpt_not_negative id n : 0 <= n -> mIsNegative (mpt_amount id n) = false.
Proof. intros. by apply Z.ltb_ge. Qed.

(** An amount from its digits. *)
Lemma whole_amount cfg id n :
  current cfg -> 0 <= n <= maxMPTokenAmount -> st_make cfg (AMPT id) n 0 false = Ok (mpt_amount id n).
Proof.
  intros HC Hn. unfold st_make.
  assert (mkSTAmount (AMPT id) n 0 false = st_whole (AMPT id) n) as ->.
  { unfold st_whole. f_equal; [lia|]. symmetry. apply Z.ltb_ge. lia. }
  rewrite canonicalize_whole; [done|done|done|]. change (integral_limit (AMPT id)) with maxMPTokenAmount. lia.
Qed.

Lemma mpt_value id n : 0 <= n -> mValue (mpt_amount id n) = n.
Proof. apply Z.abs_eq. Qed.

Lemma gridded_facts x : gridded 0 x -> 0 <= units 0 x -> wf x /\ nonneg x.
Proof. intros G Hx. split; [by eapply on_grid_wf|by apply (nonneg_grid 0 _ _ G)]. Qed.

Section Conversions.
Context (cfg : Settings) (x : Vault) (i : MPTokenIssuance) (id : Z) (T : token_vault cfg x i id).

Lemma total_facts : wf (vault_AssetsTotal x) /\ nonneg (vault_AssetsTotal x).
Proof. apply gridded_facts; [apply T|]. pose proof (tv_loss_range _ _ _ _ T). lia. Qed.

Lemma shareTotal_value : shareTotal cfg i = of_rep (round_mode cfg) (iss_OutstandingAmount i).
Proof.
  unfold shareTotal. pose proof (tv_outstanding _ _ _ _ T) as Ho. unfold maxMPTokenAmount in Ho.
  by rewrite i64_id by lia.
Qed.

Lemma shareTotal_facts z : shareTotal cfg i = Ok z -> wf z /\ nonneg z.
Proof.
  rewrite shareTotal_value. intros Hz. pose proof (tv_outstanding _ _ _ _ T) as Ho. unfold maxMPTokenAmount in Ho.
  split; [by eapply multiple_wf, of_rep_multiple; [|done]; lia|by eapply of_rep_nonneg; [|done]; lia].
Qed.

(** What the vault is worth: its total without the loss that is not realised yet. *)
Lemma worth_facts :
  exists w, number_sub (round_mode cfg) (vault_AssetsTotal x) (vault_LossUnrealized x) = Ok w /\ gridded 0 w /\
    units 0 w = units 0 (vault_AssetsTotal x) - units 0 (vault_LossUnrealized x) /\ wf w /\ nonneg w.
Proof.
  pose proof (gridded_bound 0 _ (tv_total _ _ _ _ T)). pose proof (tv_loss_range _ _ _ _ T).
  destruct (units_sub (round_mode cfg) 0 grid_zero _ _ (tv_total _ _ _ _ T) (tv_loss _ _ _ _ T)) as (w & E & G & U); [lia|].
  exists w. splits; [done|done|done|..]; apply gridded_facts; auto; lia.
Qed.

Lemma deposit_shares n o :
  0 <= n <= maxMPTokenAmount -> assetsToSharesDeposit cfg x i (mpt_amount id n) = Ok o ->
  exists w, o = Some (mpt_amount (vault_ShareMPTID x) w) /\ 0 <= w <= maxMPTokenAmount.
Proof.
  intros Hn. destruct total_facts as [Wt Nt]. pose proof (tv_current _ _ _ _ T) as HC.
  unfold assetsToSharesDeposit. rewrite mpt_not_negative, mpt_asset, (tv_asset _ _ _ _ T), mpt_eqb, (tv_scale _ _ _ _ T) by lia.
  cbn [orb negb].
  assert (forall m k, wf m -> nonneg m -> truncate (round_mode cfg) m = Ok k ->
    forall r, (let* shares := st_of_number cfg (share_asset x) k in Ok (Some shares)) = Ok r ->
    exists w, r = Some (mpt_amount (vault_ShareMPTID x) w) /\ 0 <= w <= maxMPTokenAmount) as Finish.
  { intros m k Wm Nm Hk r (a & Ha & [= <-])%bind_ok.
    destruct (truncate_below (round_mode cfg) m Wm Nm) as (z & Ez & Wz & Nz & _). rewrite Ez in Hk. injection Hk as <-.
    destruct (mpt_of_number_nonneg cfg _ z a HC Wz Nz Ha) as (w & -> & Hw & _). eauto. }
  destruct (number_eqb _ _).
  - intros (m & Hm & Hr)%bind_ok. apply bind_ok in Hr as (k & Hk & Hr).
    assert (number_of_st cfg (mpt_amount id n) = Ok m) as Hm'.
    { unfold mpt_amount. rewrite number_of_st_whole by (done || unfold maxMPTokenAmount in *; lia).
      simpl in Hm. by rewrite Z.abs_eq in Hm by lia. }
    destruct (number_of_mpt_wf cfg id n m Hn Hm'). by eapply Finish.
  - intros (s & Hs & Hr)%bind_ok. apply bind_ok in Hr as (a & Ha & Hr). apply bind_ok in Hr as (m & Hm & Hr).
    apply bind_ok in Hr as (k & Hk & Hr). destruct (shareTotal_facts s Hs) as [Ws Ns].
    destruct (number_of_mpt_wf cfg id n a Hn Ha) as [Wa Na].
    destruct (proportion_nonneg _ _ _ _ _ Ws Ns Wa Na Wt Nt Hm). by eapply Finish.
Qed.

Lemma deposit_assets n o :
  0 <= n <= maxMPTokenAmount -> sharesToAssetsDeposit cfg x i (mpt_amount (vault_ShareMPTID x) n) = Ok o ->
  exists w, o = Some (mpt_amount id w) /\ 0 <= w <= maxMPTokenAmount.
Proof.
  intros Hn. destruct total_facts as [Wt Nt]. pose proof (tv_current _ _ _ _ T) as HC.
  unfold sharesToAssetsDeposit, share_asset.
  rewrite mpt_not_negative, mpt_asset, mpt_eqb, (tv_asset _ _ _ _ T), (tv_scale _ _ _ _ T) by lia. cbn [orb negb].
  destruct (number_eqb _ _).
  - rewrite mpt_value by lia. change (mOffset (mpt_amount (vault_ShareMPTID x) n) - 0) with 0.
    rewrite whole_amount by done. intros [= <-]. eauto.
  - intros (s & Hs & Hr)%bind_ok. apply bind_ok in Hr as (a & Ha & Hr). apply bind_ok in Hr as (m & Hm & Hr).
    apply bind_ok in Hr as (k & Hk & [= <-]). destruct (shareTotal_facts s Hs) as [Ws Ns].
    destruct (number_of_mpt_wf cfg _ n a Hn Ha) as [Wa Na].
    destruct (proportion_nonneg _ _ _ _ _ Wt Nt Wa Na Ws Ns Hm) as [Wm Nm].
    destruct (mpt_of_number_nonneg cfg _ m k HC Wm Nm Hk) as (w & -> & Hw & _). eauto.
Qed.

Lemma withdraw_shares n trunc o :
  0 <= n <= maxMPTokenAmount -> assetsToSharesWithdraw cfg x i (mpt_amount id n) trunc = Ok o ->
  exists w, o = Some (mpt_amount (vault_ShareMPTID x) w) /\ 0 <= w <= maxMPTokenAmount.
Proof.
  intros Hn. destruct worth_facts as (t & Et & _ & _ & Wt & Nt). pose proof (tv_current _ _ _ _ T) as HC.
  unfold assetsToSharesWithdraw. rewrite mpt_not_negative, mpt_asset, (tv_asset _ _ _ _ T), mpt_eqb, Et by lia.
  cbn [orb negb bind]. unfold share_asset. destruct (number_eqb _ _).
  { rewrite st_zeroed_whole by done. intros [= <-]. by exists 0. }
  intros (s & Hs & Hr)%bind_ok. apply bind_ok in Hr as (a & Ha & Hr). apply bind_ok in Hr as (m & Hm & Hr).
  apply bind_ok in Hr as (k & Hk & Hr). apply bind_ok in Hr as (r & Hr & [= <-]).
  destruct (shareTotal_facts s Hs) as [Ws Ns]. destruct (number_of_mpt_wf cfg id n a Hn Ha) as [Wa Na].
  destruct (proportion_nonneg _ _ _ _ _ Ws Ns Wa Na Wt Nt Hm) as [Wm Nm].
  assert (wf k /\ nonneg k) as [Wk Nk].
  { destruct trunc; [by injection Hk as <-|].
    destruct (truncate_below (round_mode cfg) m Wm Nm) as (z & Ez & Wz & Nz & _). by replace k with z by congruence. }
  destruct (mpt_of_number_nonneg cfg _ k r HC Wk Nk Hr) as (w & -> & Hw & _). eauto.
Qed.

Lemma withdraw_assets n o :
  0 <= n <= maxMPTokenAmount -> sharesToAssetsWithdraw cfg x i (mpt_amount (vault_ShareMPTID x) n) = Ok o ->
  exists w, o = Some (mpt_amount id w) /\ 0 <= w <= maxMPTokenAmount /\
    (n <= iss_OutstandingAmount i <= maxMantissa -> w <= units 0 (vault_AssetsTotal x) - units 0 (vault_LossUnrealized x)).
Proof.
  intros Hn. destruct worth_facts as (t & Et & Gt & Ut & Wt & Nt). pose proof (tv_current _ _ _ _ T) as HC.
  pose proof (tv_loss_range _ _ _ _ T) as HL.
  unfold sharesToAssetsWithdraw, share_asset. rewrite mpt_not_negative, mpt_asset, (tv_asset _ _ _ _ T), mpt_eqb, Et by lia.
  cbn [orb negb bind]. destruct (number_eqb _ _).
  { rewrite st_zeroed_whole by done. intros [= <-]. exists 0. splits; [done|done|done|lia]. }
  intros (s & Hs & Hr)%bind_ok. apply bind_ok in Hr as (a & Ha & Hr). apply bind_ok in Hr as (m & Hm & Hr).
  apply bind_ok in Hr as (r & Hr & [= <-]).
  destruct (shareTotal_facts s Hs) as [Ws Ns]. destruct (number_of_mpt_wf cfg _ n a Hn Ha) as [Wa Na].
  destruct (proportion_nonneg _ _ _ _ _ Wt Nt Wa Na Ws Ns Hm) as [Wm Nm].
  destruct (mpt_of_number_nonneg cfg _ m r HC Wm Nm Hr) as (w & -> & Hw & Ew). exists w. splits; [done|lia|lia|].
  intros Hle. destruct (number_of_mpt cfg (vault_ShareMPTID x) n) as (a' & Ea & Ga & Ua); [lia|].
  assert (a' = a) as -> by congruence.
  destruct (make_grid (round_mode cfg) (iss_OutstandingAmount i) 0) as (s' & Es & Gs); [lia|apply grid_zero|].
  assert (s' = s) as -> by (rewrite shareTotal_value in Hs; unfold of_rep in Hs; congruence).
  rewrite <- Ut. eapply (round_whole_le _ _ t m w); [done|done|exact Gt|lia| |done].
  eapply (proportion_le cfg t a s); auto.
  rewrite (units_ltb 0 _ _ (grid_gridded 0 _ _ Gs) Ga), Ua, (units_grid 0 _ _ Gs). apply Z.ltb_ge. lia.
Qed.

(** All shares together are worth exactly the assets of the vault. *)
Lemma redeem_all_shares :
  0 < iss_OutstandingAmount i ->
  sharesToAssetsWithdraw cfg x i (mpt_amount (vault_ShareMPTID x) (iss_OutstandingAmount i)) =
  Ok (Some (mpt_amount id (units 0 (vault_AssetsTotal x) - units 0 (vault_LossUnrealized x)))).
Proof.
  intros H0. destruct worth_facts as (t & Et & Gt & Ut & Wt & Nt). pose proof (tv_current _ _ _ _ T) as HC.
  pose proof (tv_outstanding _ _ _ _ T) as Ho. unfold maxMPTokenAmount in Ho.
  unfold sharesToAssetsWithdraw, share_asset. rewrite mpt_not_negative, mpt_asset, (tv_asset _ _ _ _ T), mpt_eqb, Et by lia.
  cbn [orb negb bind]. rewrite <- Ut. destruct Wt as [-> | Hw].
  { rewrite st_zeroed_whole by done. done. }
  rewrite (normal_neq_zero t Hw), shareTotal_value. unfold mpt_amount. rewrite number_of_st_whole by (done || lia).
  destruct (of_rep_pos (round_mode cfg) (iss_OutstandingAmount i)) as (s & -> & Hs & Ns); [lia|]. cbn [bind].
  rewrite proportion_whole by (auto; by right). cbn [bind].
  by rewrite (st_of_number_whole cfg (AMPT id) (units 0 t) t HC eq_refl Gt).
Qed.

(** ** Exchanges *)

(** Shares [n] for assets [w]. *)
Definition exchanged (s d : STAmount) (n w : Z) : Prop :=
  s = mpt_amount (vault_ShareMPTID x) n /\ 0 <= n <= maxMPTokenAmount /\ d = mpt_amount id w /\ 0 <= w <= maxMPTokenAmount.

(** All shares are worth the assets less the loss. *)
Definition redeemed (s d : STAmount) (n w : Z) : Prop :=
  exchanged s d n w /\
  (0 < n -> n = iss_OutstandingAmount i -> w = units 0 (vault_AssetsTotal x) - units 0 (vault_LossUnrealized x)).

Lemma redeem_assets n d :
  0 <= n <= maxMPTokenAmount -> sharesToAssetsWithdraw cfg x i (mpt_amount (vault_ShareMPTID x) n) = Ok (Some d) ->
  exists w, redeemed (mpt_amount (vault_ShareMPTID x) n) d n w.
Proof.
  intros Hn Hd. destruct (withdraw_assets n (Some d) Hn Hd) as (w & [= ->] & Hw & _). exists w. split; [done|].
  intros H0 E. rewrite E, redeem_all_shares in Hd by lia. pose proof (tv_loss_range _ _ _ _ T).
  pose proof (tv_available_nonneg _ _ _ _ T). injection Hd as Hd _. rewrite !Z.abs_eq in Hd by lia. done.
Qed.

Lemma deposit_exchange_units a s d :
  0 <= a <= maxMPTokenAmount -> deposit_exchange cfg x i (mpt_amount id a) = Ok (Value (s, d)) ->
  exists n w, exchanged s d n w /\ 0 < n /\ w <= a.
Proof.
  intros Ha (s' & Hs & Hr)%catch_value%on_value_ok.
  apply need_value, deposit_shares in Hs as (n & [= ->] & Hn); [|done].
  destruct (st_is_zero _) eqn:E0; [done|]. unfold mpt_amount in E0. rewrite whole_is_zero in E0.
  apply on_value_ok in Hr as (d' & Hd%need_value & Hr). apply deposit_assets in Hd as (w & [= ->] & Hw); [|done].
  unfold mpt_amount in Hr. rewrite st_ltb_same in Hr. cbn [bind] in Hr. destruct (a <? w) eqn:El; [done|].
  injection Hr as <- <-. zbool. exists n, w. split; [by unfold exchanged|lia].
Qed.

Lemma withdraw_exchange_units t a s d :
  t = id \/ t = vault_ShareMPTID x -> 0 <= a <= maxMPTokenAmount ->
  withdraw_exchange cfg x i (mpt_amount t a) = Ok (Value (s, d)) -> exists n w, redeemed s d n w.
Proof.
  intros Ht Ha Hx%catch_value. rewrite mpt_asset, (tv_asset _ _ _ _ T) in Hx.
  destruct (asset_eqb (AMPT t) (AMPT id)) eqn:E.
  - apply Z.eqb_eq in E as ->. apply on_value_ok in Hx as (s' & Hs%need_value & Hr).
    apply withdraw_shares in Hs as (n & [= ->] & Hn); [|done]. destruct (st_is_zero _); [done|].
    apply on_value_ok in Hr as (d' & Hd%need_value & Hr).
    apply redeem_assets in Hd as (w & Hw); [|done]. injection Hr as <- <-. by exists n, w.
  - destruct Ht as [-> | ->]; [by rewrite mpt_eqb in E|]. unfold share_asset in Hx. rewrite mpt_eqb in Hx.
    apply on_value_ok in Hx as (d' & Hd%need_value & Hr).
    apply redeem_assets in Hd as (w & Hw); [|done]. injection Hr as <- <-. by exists a, w.
Qed.

(** An empty vault sells its shares at one token. *)
Lemma first_deposit a :
  0 < a <= maxMantissa -> vault_AssetsTotal x = zero ->
  deposit_exchange cfg x i (mpt_amount id a) = Ok (Value (mpt_amount (vault_ShareMPTID x) a, mpt_amount id a)).
Proof.
  intros Ha H0. pose proof (tv_current _ _ _ _ T) as HC. assert (a <= maxMPTokenAmount) as Hl by (unfold maxMPTokenAmount, maxMantissa in *; lia).
  destruct (make_grid (round_mode cfg) a 0) as (z & Ez & Gz); [lia|apply grid_zero|].
  destruct (gridded_facts z) as [Wz Nz]; [by apply (grid_gridded 0 a)|rewrite (units_grid 0 a z Gz); lia|].
  destruct (truncate_below (round_mode cfg) z Wz Nz) as (y & Ey & _ & _ & Gy).
  assert (on_grid 0 a y) as Gy'.
  { destruct Gz as [[-> _]|(Hz & He & Hm)]; [lia|]. destruct (Z.eq_dec (exponent_ z) 0) as [E0|].
    - unfold truncate in Ey. rewrite E0 in Ey. injection Ey as <-. by right.
    - replace a with (mantissa_ z / 10 ^ (- exponent_ z)); [apply Gy; lia|].
      rewrite Hm, Z.sub_0_l. apply Z.div_mul. apply Z.pow_nonzero; lia. }
  assert (assetsToSharesDeposit cfg x i (mpt_amount id a) = Ok (Some (mpt_amount (vault_ShareMPTID x) a))) as E1.
  { unfold assetsToSharesDeposit. rewrite mpt_not_negative, mpt_asset, (tv_asset _ _ _ _ T), mpt_eqb, (tv_scale _ _ _ _ T), H0 by lia.
    cbn [orb negb]. change (number_eqb zero zero) with true. cbv iota.
    rewrite mpt_value by lia.
    change (mOffset (mpt_amount id a) + 0) with 0. rewrite Ez. cbn [bind]. rewrite Ey. cbn [bind].
    unfold share_asset. by rewrite (st_of_number_whole cfg (AMPT (vault_ShareMPTID x)) a y HC eq_refl Gy'). }
  assert (sharesToAssetsDeposit cfg x i (mpt_amount (vault_ShareMPTID x) a) = Ok (Some (mpt_amount id a))) as E2.
  { unfold sharesToAssetsDeposit, share_asset.
    rewrite mpt_not_negative, mpt_asset, mpt_eqb, (tv_asset _ _ _ _ T), (tv_scale _ _ _ _ T), H0 by lia.
    cbn [orb negb]. change (number_eqb zero zero) with true. cbv iota. rewrite mpt_value by lia.
    change (mOffset (mpt_amount (vault_ShareMPTID x) a) - 0) with 0. by rewrite whole_amount by (done || lia). }
  unfold deposit_exchange. rewrite E1. cbn [need bind on_value]. unfold mpt_amount at 1. rewrite whole_is_zero.
  destruct (a =? 0) eqn:E0; zbool; [lia|]. rewrite E2. cbn [need bind on_value]. unfold mpt_amount at 1 2.
  rewrite st_ltb_same, Z.ltb_irrefl. done.
Qed.

(** What an account holds of a token, as an amount. *)
Lemma accountHolds_units v acct tok fh ah a :
  (forall t, tokens v !! (tok, acct) = Some t -> 0 <= tok_MPTAmount t <= maxMPTokenAmount) ->
  accountHolds cfg v acct (AMPT tok) fh ah = Ok a ->
  st_is_zero a = true \/ exists n, a = mpt_amount tok n /\ 0 <= n <= maxMPTokenAmount.
Proof.
  intros Ht. simpl. unfold accountHolds_mpt. assert (st_is_zero (st_clear (AMPT tok)) = true) as HZ by done.
  destruct (tokens v !! (tok, acct)) as [t|]; [|intros [= <-]; by left]. destruct (_ && _); [intros [= <-]; by left|].
  specialize (Ht t eq_refl).
  rewrite whole_amount; [|apply T|done].
  cbn [bind]. intros [= <-]. destruct (if is_zero_if_unauthorized ah then _ else _); [by left|]. right. by eexists.
Qed.

Lemma clawback_exchange_units v h a s d :
  (forall t, tokens v !! (vault_ShareMPTID x, h) = Some t -> 0 <= tok_MPTAmount t <= maxMPTokenAmount) ->
  0 <= a <= maxMPTokenAmount -> clawback_exchange cfg v x i h (mpt_amount id a) = Ok (Value (s, d)) ->
  st_is_zero s = false ->
  exists n w z, redeemed s d n w /\ number_of_st cfg d = Ok z /\ number_ltb (vault_AssetsAvailable x) z = false.
Proof.
  intros Ht Ha ([s' d'] & Hs & Hr)%catch_value%on_value_ok Hne.
  assert (st_is_zero s' = true \/ exists n w, redeemed s' d' n w) as Hx.
  { unfold clawback_amounts in Hs. destruct (st_is_zero _).
    - apply bind_ok in Hs as (b & Hb & Hs). apply on_value_ok in Hs as (d'' & Hd%need_value & Hs).
      apply accountHolds_units in Hb as [Hb|(n & -> & Hn)]; [by injection Hs as <- <-; left| |done]. right.
      apply redeem_assets in Hd as (w & Hw); [|done]. injection Hs as <- <-. by exists n, w.
    - right. apply on_value_ok in Hs as (s'' & Hb%need_value & Hs). apply withdraw_shares in Hb as (n & [= ->] & Hn); [|done].
      apply on_value_ok in Hs as (d'' & Hd%need_value & Hs).
      apply redeem_assets in Hd as (w & Hw); [|done]. injection Hs as <- <-. by exists n, w. }
  apply bind_ok in Hr as (z & Hz & Hr). simpl in Hz.
  destruct (number_gtb z (vault_AssetsAvailable x)) eqn:E; cbn [negb] in Hr.
  2: { injection Hr as <- <-. destruct Hx as [Hx|(n & w & Hx)]; [congruence|by exists n, w, z]. }
  rewrite (tv_asset _ _ _ _ T) in Hr. pose proof (gridded_bound 0 _ (tv_available _ _ _ _ T)) as Hb.
  pose proof (tv_available_nonneg _ _ _ _ T) as H0.
  rewrite (st_of_number_whole cfg (AMPT id) _ _ (tv_current _ _ _ _ T) eq_refl (tv_available _ _ _ _ T)) in Hr.
  cbn [bind] in Hr. apply on_value_ok in Hr as (s'' & Hb'%need_value & Hr).
  apply withdraw_shares in Hb' as (n' & [= ->] & Hn'); [|unfold maxMPTokenAmount, maxMantissa in *; lia].
  apply on_value_ok in Hr as (d'' & Hd%need_value & Hr).
  apply redeem_assets in Hd as (w' & Hw'); [|done].
  apply bind_ok in Hr as (z' & Hz' & Hr). destruct (number_gtb z' _) eqn:E'; [done|].
  injection Hr as <- <-. by exists n', w', z'.
Qed.

End Conversions.
