(* ===== verification/VaultBooks.v ===== *)
(** * Deposits, withdrawals and clawbacks of token vaults

    What they do to the books of the vault and to the balances of its asset and of its
    shares. *)

From S2P Require Import Prelude.
From S2P Require Import Ter.
From S2P Require Import XrplNumber.
From S2P Require Import XrplNumberFacts.
From S2P Require Import XrplNumberGrid.
From S2P Require Import Amounts.
From S2P Require Import AmountsFacts.
From S2P Require Import AmountsRound.
From S2P Require Import AmountsWhole.
From S2P Require Import Lending.
From S2P Require Import NumberRatios.
From S2P Require Import LedgerState.
From S2P Require Import Holdings.
From S2P Require Import Transfers.
From S2P Require Import Transactors.
From S2P Require Import TransfersFrame.
From S2P Require Import TransfersMPT.
From S2P Require Import TransfersHoldings.
From S2P Require Import LoanManage.
From S2P Require Import Vaults.
From S2P Require Import VaultFunds.
From S2P Require Import LoanBooks.
From S2P Require Import LoanManageFacts.
From S2P Require Import LoanCoverFacts.
From S2P Require Import VaultFacts.
From stdpp Require Import gmap list.

Local Open Scope Z_scope.

(** ** Books *)

(** Assets that come or go change the total and what is available alike. *)
Lemma books_assets s vid v v' x t a d :
  books_balance s vid v -> vaults v !! vid = Some x -> gridded s t -> gridded s a ->
  units s t = units s (vault_AssetsTotal x) + d -> units s a = units s (vault_AssetsAvailable x) + d ->
  0 <= units s a -> vaults v' = <[vid := set_vault_assets x t a]> (vaults v) ->
  brokers v' = brokers v -> loans v' = loans v -> books_balance s vid v'.
Proof.
  intros [(x0 & Hx0 & [V1 V2 V3 V4 V5 V6]) Hb Hl] Hx Gt Ga Ut Ua Ha Ev Eb El.
  assert (x0 = x) as -> by congruence.
  assert (forall l, in_vault v' vid l = in_vault v vid l) as Ein by (intros; unfold in_vault; by rewrite Eb).
  assert (lent s vid v' = lent s vid v) as E1.
  { unfold lent. rewrite El. apply msum_ext. intros. by rewrite Ein. }
  assert (paper_loss s vid v' = paper_loss s vid v) as E2.
  { unfold paper_loss. rewrite El. apply msum_ext. intros. by rewrite Ein. }
  split.
  - exists (set_vault_assets x t a). split; [by rewrite Ev, lookup_insert_eq|].
    split; simpl; auto; [rewrite E1; lia|rewrite E2; lia].
  - intros bid b Hbid Hv. rewrite Eb in Hbid. destruct (Hb bid b Hbid Hv). split; auto.
    unfold debt_of in *. by rewrite El.
  - intros k l Hk. rewrite El in Hk. rewrite Ein. by apply (Hl k).
Qed.

Lemma paper_lent vid v : books_balance 0 vid v -> 0 <= paper_loss 0 vid v <= lent 0 vid v.
Proof.
  intros B. assert (forall k l, loans v !! k = Some l -> in_vault v vid l = true -> 0 <= owed 0 l) as Ho.
  { intros k l Hl Hin. by apply (lb_owed _ _ (bal_loans _ _ _ B k l Hl Hin)). }
  split; [apply msum_nonneg|apply msum_le]; intros k l Hl; specialize (Ho k l Hl);
    destruct (in_vault v vid l); simpl; [destruct (loan_Impaired l); auto; lia|lia|destruct (loan_Impaired l); auto; lia|lia].
Qed.

(** ** Entries *)

(** Vaults, brokers and loans are the same. *)
Definition entries (v : View) : gmap Z Vault * gmap Z LoanBroker * gmap Z LoanEntry := (vaults v, brokers v, loans v).

Lemma frame_entries v v' : frame v' = frame v -> entries v' = entries v.
Proof. intros (E1 & E2 & E3)%frame_parts. unfold entries. congruence. Qed.

(** Admission touches credentials, directories and holdings. *)
Record admitted (v v' : View) : Prop := {
  ad_entries : entries v' = entries v;
  ad_tokens : same_tokens v v' }.

#[export] Instance admitted_preorder : PreOrder admitted.
Proof.
  split; [intros v; by split|]. intros v1 v2 v3 [E1 T1] [E2 T2]. split; [congruence|by transitivity v2].
Qed.

Section Admission.
Context `{Keylets}.
Implicit Types (v : View).

Lemma ownerDirRemove_admitted v o p key r v' : ownerDirRemove v o p key = Ok (r, v') -> admitted v v'.
Proof. intros Hr. split; [by eapply frame_entries, ownerDirRemove_frame|by eapply ownerDirRemove_tokens]. Qed.

Lemma adjustOwnerCount_admitted v a n : admitted v (adjustOwnerCount v a n).
Proof. split; [apply frame_entries, frame_count|apply adjustOwnerCount_tokens]. Qed.

Lemma authorizeMPToken_admitted v prior id acct flags h ter v' :
  authorizeMPToken v prior id acct flags h = Ok (ter, v') -> admitted v v'.
Proof.
  intros Hr. split; [|by eapply authorizeMPToken_tokens]. apply frame_entries.
  unfold authorizeMPToken in Hr. follow Hr; frame_calls.
Qed.

Lemma unlink_credential_admitted v k acct page own ter v' :
  unlink_credential v k acct page own = Ok (ter, v') -> admitted v v'.
Proof.
  unfold unlink_credential. destruct (accounts v !! acct); [|by intros [= _ <-]].
  intros ([found w] & Hw%ownerDirRemove_admitted & Hr)%bind_ok. destruct (negb found); [by injection Hr as _ <-|].
  injection Hr as _ <-. destruct own; [|done]. transitivity w; [done|apply adjustOwnerCount_admitted].
Qed.

Lemma deleteSLE_admitted v k ter v' : deleteSLE v k = Ok (ter, v') -> admitted v v'.
Proof.
  unfold deleteSLE. destruct (credentials (env v) !! k) as [c|]; [|by intros [= _ <-]].
  destruct k as [[subject issuer] ty]. unfold and_then.
  intros ([t1 w1] & H1%unlink_credential_admitted & Hr)%bind_ok. destruct (isTesSuccess t1); [|by injection Hr as _ <-].
  apply bind_ok in Hr as ([t2 w2] & H2 & Hr). assert (admitted w1 w2) as A2.
  { destruct (subject =? issuer); [by injection H2 as _ <-|by apply unlink_credential_admitted in H2]. }
  assert (admitted v w2) as A by (by transitivity w1).
  destruct (isTesSuccess t2); injection Hr as _ <-; [|done]. transitivity w2; [done|].
  split; [done|by apply same_tokens_refl].
Qed.

Lemma removeExpired_admitted v l b v' : removeExpired v l = Ok (b, v') -> admitted v v'.
Proof.
  revert v b v'. induction l as [|k l IH]; intros v b v'; simpl; [by intros [= _ <-]|].
  destruct (credentials (env v) !! k) as [c|]; [|apply IH]. destruct (checkExpired _ _); [|apply IH].
  intros ([t w] & Hw%deleteSLE_admitted & Hr)%bind_ok. apply bind_ok in Hr as ([t2 w2] & H2%IH & Hr).
  injection Hr as _ <-. by transitivity w.
Qed.

Lemma verifyValidDomain_admitted v acct d ter v' : verifyValidDomain v acct d = Ok (ter, v') -> admitted v v'.
Proof.
  unfold verifyValidDomain. destruct (domains (env v) !! d); [|by intros [= _ <-]].
  intros ([t w] & Hw%removeExpired_admitted & Hr)%bind_ok. by injection Hr as _ <-.
Qed.

Lemma enforceMPTokenAuthorization_admitted v id acct prior ter v' :
  enforceMPTokenAuthorization v id acct prior = Ok (ter, v') -> admitted v v'.
Proof.
  unfold enforceMPTokenAuthorization. destruct (issuances v !! id) as [i|]; [|by intros [= _ <-]].
  destruct (_ =? _); [by intros [= _ <-]|]. intros ([t w] & Hw & Hr)%bind_ok.
  assert (admitted v w) as A.
  { destruct (iss_DomainID i); [by apply verifyValidDomain_admitted in Hw|by injection Hw as _ <-]. }
  destruct (tokens v !! (id, acct)).
  - destruct (isTesSuccess t); [by injection Hr as _ <-|]. destruct (bool_decide _); by injection Hr as _ <-.
  - destruct (isTesSuccess t); [|by injection Hr as _ <-]. apply authorizeMPToken_admitted in Hr. by transitivity w.
Qed.

Lemma admit_depositor_admitted v x i acct prior ter v' :
  admit_depositor v x i acct prior = Ok (ter, v') -> admitted v v'.
Proof.
  unfold admit_depositor. destruct (_ && _); [apply enforceMPTokenAuthorization_admitted|]. unfold and_then.
  intros ([t w] & Hw & Hr)%bind_ok. assert (admitted v w) as A.
  { destruct (bool_decide _); [by injection Hw as _ <-|by apply authorizeMPToken_admitted in Hw]. }
  destruct (isTesSuccess t); [|by injection Hr as _ <-].
  destruct (isFlag _ _); [|by injection Hr as _ <-]. apply authorizeMPToken_admitted in Hr. by transitivity w.
Qed.

End Admission.

(** ** Moves *)

(** A vault of a token in a ledger with books in order. *)
Record banking (cfg : Settings) (v : View) (vid : Z) (x : Vault) (i : MPTokenIssuance) (id : Z) : Prop := {
  bv_current : current cfg;
  bv_vault : vaults v !! vid = Some x;
  bv_asset : vault_Asset x = AMPT id;
  bv_scale : vault_Scale x = 0;
  bv_shares : issuances v !! vault_ShareMPTID x = Some i;
  bv_other : vault_ShareMPTID x <> id;
  bv_books : books_balance 0 vid v;
  bv_tokens : books v id maxMPTokenAmount;
  bv_share_tokens : books v (vault_ShareMPTID x) maxMPTokenAmount;
  bv_maximum : 0 <= maximum_of v id <= maxMPTokenAmount;
  bv_share_maximum : 0 <= maximum_of v (vault_ShareMPTID x) <= maxMPTokenAmount }.

Lemma banking_vault cfg v vid x i id : banking cfg v vid x i id -> token_vault cfg x i id.
Proof.
  intros B. destruct (bal_vault _ _ _ (bv_books _ _ _ _ _ _ B)) as (x' & Hx' & [V1 V2 V3 V4 V5 V6]).
  assert (x' = x) as -> by (rewrite (bv_vault _ _ _ _ _ _ B) in Hx'; congruence).
  pose proof (paper_lent vid v (bv_books _ _ _ _ _ _ B)).
  pose proof (bv_share_tokens _ _ _ _ _ _ B) as W. pose proof (books_outstanding_pos _ _ _ W) as W0.
  pose proof (bk_bound _ _ _ W) as W1. unfold outstanding in *. rewrite (bv_shares _ _ _ _ _ _ B) in *.
  split; auto; try apply B; lia.
Qed.

(** [d] of the asset come to the vault from [party], and [n] shares to [owner]; when they
    go the other way the numbers are negative.  All books stay in order, and nothing else
    changes in the entries of the protocol. *)
Record vault_moved (v v' : View) (vid : Z) (x : Vault) (id party d owner n : Z) : Prop := {
  vm_vaults : exists t a, vaults v' = <[vid := set_vault_assets x t a]> (vaults v) /\
    units 0 t = units 0 (vault_AssetsTotal x) + d /\ units 0 a = units 0 (vault_AssetsAvailable x) + d;
  vm_brokers : brokers v' = brokers v;
  vm_loans : loans v' = loans v;
  vm_books : books_balance 0 vid v';
  vm_asset : books v' id maxMPTokenAmount;
  vm_shares : books v' (vault_ShareMPTID x) maxMPTokenAmount;
  vm_terms : forall t, terms v' t = terms v t;
  vm_shares_bound : outstanding v' (vault_ShareMPTID x) <=
    Z.max (outstanding v (vault_ShareMPTID x)) (maximum_of v (vault_ShareMPTID x));
  vm_balances : forall y, mpt_balance v' id y =
    mpt_balance v id y + (if vault_Account x =? y then d else 0) - (if party =? y then d else 0);
  vm_owners : forall y, mpt_balance v' (vault_ShareMPTID x) y =
    mpt_balance v (vault_ShareMPTID x) y + (if owner =? y then n else 0) - (if vault_Account x =? y then n else 0) }.

(** The tokens of two kinds in order, each below its maximum. *)
Record purse (v : View) (id sid : Z) : Prop := {
  pu_asset : books v id maxMPTokenAmount;
  pu_share : books v sid maxMPTokenAmount;
  pu_asset_maximum : 0 <= maximum_of v id <= maxMPTokenAmount;
  pu_share_maximum : 0 <= maximum_of v sid <= maxMPTokenAmount }.

Lemma purse_same v v' id sid : same_tokens v v' -> purse v id sid -> purse v' id sid.
Proof.
  intros S [P1 P2 P3 P4]. pose proof (st_issuances _ _ S) as Ei.
  split; [by eapply same_books|by eapply same_books|..]; unfold maximum_of in *; by rewrite Ei.
Qed.

Lemma banking_purse cfg v vid x i id : banking cfg v vid x i id -> purse v id (vault_ShareMPTID x).
Proof. intros []. by split. Qed.

Section Funds.
Context `{Keylets} (cfg : Settings).
Implicit Types (v : View).

(** A token with its books in order, no more of it outstanding than before or than its
    maximum. *)
Definition kept (v v' : View) (t : Z) : Prop :=
  books v' t maxMPTokenAmount /\ terms v' t = terms v t /\
  outstanding v' t <= Z.max (outstanding v t) (maximum_of v t).

Lemma kept_trans v1 v2 v3 t : kept v1 v2 t -> kept v2 v3 t -> kept v1 v3 t.
Proof.
  intros (_ & T1 & O1) (W & T2 & O2). pose proof (terms_maximum _ _ _ T1). unfold kept. splits; [done|congruence|lia].
Qed.

Lemma kept_same v v' t : same_tokens v v' -> books v t maxMPTokenAmount -> kept v v' t.
Proof.
  intros S W. pose proof (st_issuances _ _ S) as Ei. unfold kept, terms, outstanding. rewrite Ei.
  splits; [by eapply same_books|done|lia].
Qed.

(** One transfer of one of two tokens; the other stays. *)
Lemma other_send v t o s r a v' :
  o <> t -> books v t maxMPTokenAmount -> books v o maxMPTokenAmount -> 0 <= maximum_of v t <= maxMPTokenAmount ->
  0 <= a <= maxMPTokenAmount -> accountSend cfg v s r (mpt_amount t a) Waive = Ok (tesSUCCESS, v') ->
  kept v v' t /\ kept v v' o /\
  (forall y, mpt_balance v' o y = mpt_balance v o y) /\
  (forall y, mpt_balance v' t y = mpt_balance v t y + (if r =? y then a else 0) - (if s =? y then a else 0)).
Proof.
  intros Hne P1 P2 P3 Ha Hs. pose proof (accountSend_others cfg _ _ _ _ _ _ _ Hs) as So.
  pose proof (fun q => accountSend_terms cfg _ _ _ _ _ _ _ q Hs) as Ht.
  apply send_mpt in Hs as (W & Hc & Hb); [|done..].
  split; [by split; [|split]|]. split; [|split; [intros; by apply (others_balance t)|done]].
  split; [by eapply others_books|]. split; [done|].
  unfold outstanding. rewrite (so_issuances _ _ _ So) by done. lia.
Qed.

(** A transfer of one token, then one of the other, with holdings made or removed between. *)
Lemma two_sends v w1 w2 v' t o s1 r1 a1 s2 r2 a2 :
  o <> t -> purse v t o -> 0 <= a1 <= maxMPTokenAmount -> 0 <= a2 <= maxMPTokenAmount ->
  accountSend cfg v s1 r1 (mpt_amount t a1) Waive = Ok (tesSUCCESS, w1) -> same_tokens w1 w2 ->
  accountSend cfg w2 s2 r2 (mpt_amount o a2) Waive = Ok (tesSUCCESS, v') ->
  kept v v' t /\ kept v v' o /\ (forall q, terms v' q = terms v q) /\
  (forall y, mpt_balance v' t y = mpt_balance v t y + (if r1 =? y then a1 else 0) - (if s1 =? y then a1 else 0)) /\
  (forall y, mpt_balance v' o y = mpt_balance v o y + (if r2 =? y then a2 else 0) - (if s2 =? y then a2 else 0)).
Proof.
  intros Hne [P1 P2 P3 P4] H1 H2 E1 S E2.
  destruct (other_send _ _ _ _ _ _ _ Hne P1 P2 P3 H1 E1) as (K1 & K2 & Bo & Bt).
  pose proof (kept_same _ _ _ S (proj1 K1)) as S1. pose proof (kept_same _ _ _ S (proj1 K2)) as S2.
  assert (0 <= maximum_of w2 o <= maxMPTokenAmount) as Hm.
  { rewrite (terms_maximum _ _ _ (proj1 (proj2 S2))), (terms_maximum _ _ _ (proj1 (proj2 K2))). lia. }
  destruct (other_send w2 o t _ _ _ _ (not_eq_sym Hne) (proj1 S2) (proj1 S1) Hm H2 E2) as (J1 & J2 & Bo' & Bt').
  split; [by eapply kept_trans, kept_trans|]. split; [by eapply kept_trans, kept_trans|]. splits; intros y.
  - rewrite (accountSend_terms cfg _ _ _ _ _ _ _ y E2), <- (accountSend_terms cfg _ _ _ _ _ _ _ y E1).
    unfold terms. by rewrite (st_issuances _ _ S).
  - by rewrite Bo', (same_balance _ _ _ _ S), Bt.
  - by rewrite Bt', (same_balance _ _ _ _ S), Bo.
Qed.

Lemma send_entries v s r a v' ter : accountSend cfg v s r a Waive = Ok (ter, v') -> entries v' = entries v.
Proof. intros Hs. by eapply frame_entries, accountSend_frame. Qed.

Lemma entries_parts v v' : entries v' = entries v -> vaults v' = vaults v /\ brokers v' = brokers v /\ loans v' = loans v.
Proof. unfold entries. intros E. splits; congruence. Qed.

Section Banking.
Context (v : View) (vid : Z) (x : Vault) (i : MPTokenIssuance) (id : Z) (B : banking cfg v vid x i id).

Lemma vault_tokens w y : purse w id (vault_ShareMPTID x) -> purse (update_vault w vid y) id (vault_ShareMPTID x).
Proof. apply purse_same. by apply same_tokens_refl. Qed.

(** What the shares of a vault are worth together. *)
Definition worth (y : Vault) : Z := units 0 (vault_AssetsTotal y) - units 0 (vault_LossUnrealized y).

Lemma deposit_vault_moved tx prior a v' :
  vp_VaultID tx = vid -> vp_Amount tx = mpt_amount id a -> 0 <= a ->
  units 0 (vault_AssetsTotal x) + a <= maxMantissa ->
  VaultDeposit_doApply cfg v tx prior = Ok (tesSUCCESS, v') ->
  exists d n, 0 <= d <= a /\ 0 < n /\ vault_moved v v' vid x id (vp_Account tx) d (vp_Account tx) n /\
    exists x', vaults v' !! vid = Some x' /\ over_maximum x' = false.
Proof.
  intros Ev Ea Ha Hmax. pose proof (banking_vault _ _ _ _ _ _ B) as T. pose proof (banking_purse _ _ _ _ _ _ B) as P.
  pose proof (tv_available_nonneg _ _ _ _ T) as A0. pose proof (tv_loss_range _ _ _ _ T) as L0.
  unfold VaultDeposit_doApply. rewrite Ev, (bv_vault _ _ _ _ _ _ B), (bv_shares _ _ _ _ _ _ B), Ea.
  intros (w & [Ew Sw]%admit_depositor_admitted & Hr)%and_then_ok.
  apply bind_ok in Hr as ([[s d]|t] & Hx & Hr);
    [|apply deposit_exchange_fails in Hx; congruence].
  destruct (deposit_exchange_units cfg x i id T a s d) as (n & k & (-> & Hn & -> & Hk) & Hn0 & Hka);
    [unfold maxMPTokenAmount, maxMantissa in *; lia|done|].
  destruct (number_of_mpt cfg id k) as (z & Ez & Gz & Uz); [lia|]. rewrite Ez in Hr. cbn [bind] in Hr.
  pose proof (paper_lent vid v (bv_books _ _ _ _ _ _ B)) as PL.
  destruct (bal_vault _ _ _ (bv_books _ _ _ _ _ _ B)) as (x0 & Hx0 & Vb).
  assert (x0 = x) as -> by (rewrite (bv_vault _ _ _ _ _ _ B) in Hx0; congruence).
  pose proof (vb_lent _ _ _ _ Vb) as VL.
  destruct (units_add (round_mode cfg) 0 grid_zero _ _ (tv_total _ _ _ _ T) Gz) as (t & Et & Gt & Ut); [lia|].
  destruct (units_add (round_mode cfg) 0 grid_zero _ _ (tv_available _ _ _ _ T) Gz) as (av & Eav & Gav & Uav); [lia|].
  unfold add_assets in Hr. rewrite Et, Eav in Hr. cbn [bind] in Hr.
  destruct (over_maximum _) eqn:Eo; [done|].
  apply and_then_ok in Hr as (w1 & H1 & Hr). apply bind_ok in Hr as (neg & _ & Hr). destruct neg; [done|].
  pose proof (vault_tokens w (set_vault_assets x t av) (purse_same _ _ _ _ Sw P)) as P1.
  destruct (two_sends _ w1 w1 v' _ _ _ _ k _ _ n (bv_other _ _ _ _ _ _ B) P1 ltac:(lia) ltac:(lia) H1 (reflexivity w1) Hr)
    as (Z1 & Z2 & Zm & B1 & B2).
  assert (entries v' = entries (update_vault w vid (set_vault_assets x t av))) as En
    by (rewrite (send_entries _ _ _ _ _ _ Hr); by eapply send_entries).
  apply entries_parts in Ew as (E1 & E2 & E3). apply entries_parts in En as (F1 & F2 & F3). simpl in F1, F2, F3.
  rewrite E1 in F1. rewrite E2 in F2. rewrite E3 in F3.
  assert (forall q y, mpt_balance (update_vault w vid (set_vault_assets x t av)) q y = mpt_balance v q y) as Sb.
  { intros q y. change (mpt_balance w q y = mpt_balance v q y). by apply same_balance. }
  exists k, n. split; [lia|]. split; [lia|]. split.
  - split; [by exists t, av; rewrite Ut, Uav, Uz|done|done| |apply Z1|apply Z2| | |..].
    + eapply (books_assets 0 vid v v' x t av k); [apply B|apply B|done|done|lia|lia|lia|done|done|done].
    + intros q. rewrite Zm. unfold terms. simpl. by rewrite (st_issuances _ _ Sw).
    + destruct Z2 as (_ & _ & Z2). unfold outstanding, maximum_of in *. simpl in Z2. by rewrite (st_issuances _ _ Sw) in Z2.
    + intros y. by rewrite B1, Sb.
    + intros y. by rewrite B2, Sb.
  - exists (set_vault_assets x t av). split; [by rewrite F1, lookup_insert_eq|done].
Qed.

Lemma drop_shares_admitted w y h ter w' :
  drop_shares cfg w y h = Ok (ter, w') -> admitted w w'.
Proof.
  unfold drop_shares. destruct (h =? _); [by intros [= _ <-]|]. intros ([t u] & Hu & Hr)%bind_ok.
  assert (admitted w u) as A.
  { split; [by eapply frame_entries, removeEmptyHolding_frame|by eapply removeEmptyHolding_tokens]. }
  destruct t; by injection Hr as _ <-.
Qed.

Lemma receive_assets_admitted acct dst prior w ter w' :
  receive_assets cfg acct dst (AMPT id) prior w = Ok (ter, w') -> admitted w w'.
Proof.
  unfold receive_assets. destruct (_ && _); [|by intros [= _ <-]]. intros ([t u] & Hu & Hr)%bind_ok.
  injection Hr as _ <-. split; [by eapply frame_entries, addEmptyHolding_frame|by eapply addEmptyHolding_tokens].
Qed.

(** Assets that the vault has for shares. *)
Lemma redeem_moved holder receiver n k z prepare v' :
  0 <= n <= maxMPTokenAmount -> 0 <= k <= maxMPTokenAmount ->
  number_of_st cfg (mpt_amount id k) = Ok z -> number_ltb (vault_AssetsAvailable x) z = false ->
  (forall w ter w', prepare w = Ok (ter, w') -> admitted w w') ->
  redeem cfg v vid x holder receiver (mpt_amount (vault_ShareMPTID x) n) (mpt_amount id k) prepare = Ok (tesSUCCESS, v') ->
  k <= units 0 (vault_AssetsAvailable x) /\ vault_moved v v' vid x id receiver (- k) holder (- n).
Proof.
  intros Hn Hk Hz HL Hp. pose proof (banking_vault _ _ _ _ _ _ B) as T. pose proof (banking_purse _ _ _ _ _ _ B) as P.
  pose proof (tv_available_nonneg _ _ _ _ T) as A0. pose proof (tv_loss_range _ _ _ _ T) as L0.
  pose proof (gridded_bound 0 _ (tv_available _ _ _ _ T)) as A1. pose proof (gridded_bound 0 _ (tv_total _ _ _ _ T)) as T1.
  assert (k <= units 0 (vault_AssetsAvailable x)) as Hle.
  { pose proof Hz as Hz'. unfold mpt_amount in Hz'. rewrite number_of_st_whole in Hz' by (done || unfold maxMPTokenAmount in *; lia).
    eapply of_rep_le_grid; [|exact A0|exact Hz'|exact (tv_available _ _ _ _ T)|exact HL].
    unfold maxMPTokenAmount in *; lia. }
  destruct (number_of_mpt cfg id k) as (z' & Ez & Gz & Uz); [lia|].
  assert (z' = z) as -> by congruence. unfold redeem. rewrite Hz. cbn [bind].
  destruct (units_sub (round_mode cfg) 0 grid_zero _ _ (tv_total _ _ _ _ T) Gz) as (t & Et & Gt & Ut); [lia|].
  destruct (units_sub (round_mode cfg) 0 grid_zero _ _ (tv_available _ _ _ _ T) Gz) as (av & Eav & Gav & Uav); [lia|].
  unfold remove_assets. rewrite Et, Eav. cbn [bind].
  intros (w1 & H1 & Hr)%and_then_ok. apply and_then_ok in Hr as (w2 & [D1 D2]%drop_shares_admitted & Hr).
  apply and_then_ok in Hr as (w3 & [R1 R2]%Hp & Hr). apply and_then_ok in Hr as (w4 & H4 & Hr).
  apply bind_ok in Hr as (neg & _ & Hr). destruct neg; [done|]. injection Hr as <-.
  set (y := set_vault_assets x t av) in *. simpl in H1, H4.
  assert (purse (update_vault v vid y) (vault_ShareMPTID x) id) as P1.
  { destruct (vault_tokens v y P). by split. }
  destruct (two_sends _ w1 w3 w4 _ _ _ _ n _ _ k (not_eq_sym (bv_other _ _ _ _ _ _ B)) P1 Hn Hk H1
              (same_tokens_trans _ _ _ D2 R2) H4) as (Z1 & Z2 & Zm & B1 & B2).
  assert (entries w4 = entries (update_vault v vid y)) as (F1 & F2 & F3)%entries_parts.
  { rewrite (send_entries _ _ _ _ _ _ H4), R1, D1. by eapply send_entries. }
  split; [done|]. split; [by exists t, av; rewrite Ut, Uav, Uz|done|done| |apply Z2|apply Z1|done|apply Z1|..].
  - eapply (books_assets 0 vid v w4 x t av (- k)); [apply B|apply B|done|done|lia|lia|lia|done|done|done].
  - intros q. rewrite B2. change (mpt_balance (update_vault v vid y) id q) with (mpt_balance v id q).
    repeat destruct (_ =? q); lia.
  - intros q. rewrite B1.
    change (mpt_balance (update_vault v vid y) (vault_ShareMPTID x) q) with (mpt_balance v (vault_ShareMPTID x) q).
    repeat destruct (_ =? q); lia.
Qed.

Lemma withdraw_vault_moved tx prior q a v' :
  vw_VaultID tx = vid -> vw_Amount tx = mpt_amount q a -> q = id \/ q = vault_ShareMPTID x ->
  0 <= a <= maxMPTokenAmount -> VaultWithdraw_doApply cfg v tx prior = Ok (tesSUCCESS, v') ->
  exists d n, 0 <= d <= units 0 (vault_AssetsAvailable x) /\ 0 <= n /\
    vault_moved v v' vid x id (default (vw_Account tx) (vw_Destination tx)) (- d) (vw_Account tx) (- n) /\
    (0 < n -> n = outstanding v (vault_ShareMPTID x) -> d = worth x).
Proof.
  intros Ev Ea Hq Ha. pose proof (banking_vault _ _ _ _ _ _ B) as T.
  unfold VaultWithdraw_doApply. rewrite Ev, (bv_vault _ _ _ _ _ _ B), (bv_shares _ _ _ _ _ _ B), Ea.
  intros ([[s d]|t] & Hx & Hr)%bind_ok; [|apply withdraw_exchange_fails in Hx; congruence].
  destruct (withdraw_exchange_units cfg x i id T q a s d Hq Ha Hx) as (n & k & (-> & Hn & -> & Hk) & Hall).
  apply bind_ok in Hr as (bal & _ & Hr). apply bind_ok in Hr as (short & _ & Hr). destruct short; [done|].
  apply bind_ok in Hr as (z & Hz & Hr). destruct (number_ltb _ _) eqn:El; [done|].
  apply (redeem_moved _ _ n k z) in Hr as [Hle M]; auto.
  - exists k, n. unfold outstanding. rewrite (bv_shares _ _ _ _ _ _ B). splits; auto; lia.
  - intros w ter w'. rewrite (tv_asset _ _ _ _ T). apply receive_assets_admitted.
Qed.

Lemma clawback_vault_moved tx v' :
  vk_VaultID tx = vid ->
  (forall t, vk_Amount tx = Some t -> exists a, t = mpt_amount id a /\ 0 <= a <= maxMPTokenAmount) ->
  VaultClawback_doApply cfg v tx = Ok (tesSUCCESS, v') ->
  exists d n, 0 <= d <= units 0 (vault_AssetsAvailable x) /\ 0 <= n /\
    vault_moved v v' vid x id (vk_Account tx) (- d) (vk_Holder tx) (- n) /\
    (0 < n -> n = outstanding v (vault_ShareMPTID x) -> d = worth x).
Proof.
  intros Ev Ha. pose proof (banking_vault _ _ _ _ _ _ B) as T.
  unfold VaultClawback_doApply. rewrite Ev, (bv_vault _ _ _ _ _ _ B), (bv_shares _ _ _ _ _ _ B), (tv_asset _ _ _ _ T).
  intros (amount & Eamt & Hr)%bind_ok.
  assert (exists a, amount = mpt_amount id a /\ 0 <= a <= maxMPTokenAmount) as (a & -> & Ha').
  { destruct (vk_Amount tx) as [t|]; [injection Eamt as <-; by apply Ha|].
    rewrite st_zeroed_whole in Eamt; [|apply T|done]. injection Eamt as <-. by exists 0. }
  apply bind_ok in Hr as ([[s d]|t] & Hx & Hr); [|apply clawback_exchange_fails in Hx; congruence].
  destruct (st_is_zero s) eqn:Es; [done|].
  apply (clawback_exchange_units cfg x i id T) in Hx as (n & k & z & [(-> & Hn & -> & Hk) Hall] & Hz & El); auto.
  - apply (redeem_moved _ _ n k z) in Hr as [Hle M]; auto.
    + exists k, n. unfold outstanding. rewrite (bv_shares _ _ _ _ _ _ B). splits; auto; lia.
    + by intros w ter w' [= _ <-].
  - intros t Ht. pose proof (bv_share_tokens _ _ _ _ _ _ B) as W.
    pose proof (books_holding _ _ _ _ _ W Ht). pose proof (bk_bound _ _ _ W). lia.
Qed.

End Banking.

End Funds.
