(* ===== verification/VaultProps.v ===== *)
(** * Vaults

    The theorems on deposits into vaults, withdrawals and clawbacks from them. *)

From S2P Require Import Prelude.
From S2P Require Import Ter.
From S2P Require Import XrplNumber.
From S2P Require Import XrplNumberFacts.
From S2P Require Import XrplNumberGrid.
From S2P Require Import XrplNumberCorrect.
From S2P Require Import Amounts.
From S2P Require Import AmountsFacts.
From S2P Require Import AmountsRound.
From S2P Require Import AmountsWhole.
From S2P Require Import Lending.
From S2P Require Import NumberRatios.
From S2P Require Import LedgerState.
From S2P Require Import Holdings.
From S2P Require Import Transfers.
From S2P Require Import Transactors.
From S2P Require Import TransfersMPT.
From S2P Require Import TransfersHoldings.
From S2P Require Import SampleLedger.
From S2P Require Import LoanManage.
From S2P Require Import Vaults.
From S2P Require Import VaultFunds.
From S2P Require Import LoanBooks.
From S2P Require Import LoanCoverFacts.
From S2P Require Import VaultFacts.
From S2P Require Import VaultBooks.
From stdpp Require Import relations gmap list.

Local Open Scope Z_scope.

(** ** Sequences of transactions *)

(** A transaction on the funds of a vault that succeeds.  Deposits are such that the total
    still has at most sixteen digits; neither payer nor payee is the vault itself. *)
Inductive vault_step `{Keylets} (cfg : Settings) (vid id : Z) : View -> View -> Prop :=
| vs_deposit v x tx prior a v' :
    vaults v !! vid = Some x -> vp_VaultID tx = vid -> vp_Amount tx = mpt_amount id a -> 0 <= a ->
    units 0 (vault_AssetsTotal x) + a <= maxMantissa -> vp_Account tx <> vault_Account x ->
    VaultDeposit_doApply cfg v tx prior = Ok (tesSUCCESS, v') -> vault_step cfg vid id v v'
| vs_withdraw v x tx prior q a v' :
    vaults v !! vid = Some x -> vw_VaultID tx = vid -> vw_Amount tx = mpt_amount q a ->
    q = id \/ q = vault_ShareMPTID x -> 0 <= a <= maxMPTokenAmount ->
    default (vw_Account tx) (vw_Destination tx) <> vault_Account x ->
    VaultWithdraw_doApply cfg v tx prior = Ok (tesSUCCESS, v') -> vault_step cfg vid id v v'
| vs_clawback v x tx v' :
    vaults v !! vid = Some x -> vk_VaultID tx = vid ->
    (forall t, vk_Amount tx = Some t -> exists a, t = mpt_amount id a /\ 0 <= a <= maxMPTokenAmount) ->
    vk_Account tx <> vault_Account x ->
    VaultClawback_doApply cfg v tx = Ok (tesSUCCESS, v') -> vault_step cfg vid id v v'.

(** The books are in order, and the vault has the tokens that it calls available. *)
Definition solvent (cfg : Settings) (vid id : Z) (v : View) : Prop :=
  exists x i, banking cfg v vid x i id /\ mpt_balance v id (vault_Account x) = units 0 (vault_AssetsAvailable x).

Lemma moved_solvent cfg v v' vid x i id party d owner n :
  banking cfg v vid x i id -> party <> vault_Account x ->
  mpt_balance v id (vault_Account x) = units 0 (vault_AssetsAvailable x) ->
  vault_moved v v' vid x id party d owner n -> solvent cfg vid id v'.
Proof.
  intros [C1 C2 C3 C4 C5 C6 C7 C8 C9 C10 C11] Hp Hb [(t & a & Ev & Ut & Ua) Eb El Bo Wa Ws Tm _ Ba _].
  destruct (bk_issuance _ _ _ Ws) as [i' Hi']. exists (set_vault_assets x t a), i'. split.
  - split; simpl; auto; [by rewrite Ev, lookup_insert_eq|by rewrite (terms_maximum _ _ _ (Tm _))|by rewrite (terms_maximum _ _ _ (Tm _))].
  - simpl. rewrite Ba, Z.eqb_refl. apply Z.eqb_neq in Hp. rewrite Hp. lia.
Qed.

Lemma step_solvent `{Keylets} cfg vid id v v' : vault_step cfg vid id v v' -> solvent cfg vid id v -> solvent cfg vid id v'.
Proof.
  intros St (x0 & i & B & Hb). pose proof (bv_vault _ _ _ _ _ _ B) as Hx0.
  destruct St as [v x tx prior a v' Hx Ev Ea Ha Hm Hp Hr|v x tx prior q a v' Hx Ev Ea Hq Ha Hp Hr|v x tx v' Hx Ev Ha Hp Hr];
    (assert (x0 = x) as -> by congruence).
  - destruct (deposit_vault_moved cfg v vid x i id B tx prior a v' Ev Ea Ha Hm Hr) as (d & n & _ & _ & M & _).
    by eapply moved_solvent.
  - destruct (withdraw_vault_moved cfg v vid x i id B tx prior q a v' Ev Ea Hq Ha Hr) as (d & n & _ & _ & M & _).
    by eapply moved_solvent.
  - destruct (clawback_vault_moved cfg v vid x i id B tx v' Ev Ha Hr) as (d & n & _ & _ & M & _). by eapply moved_solvent.
Qed.

(** ** A vault *)

Definition saver : Z := 21.

(** The first issuance of the vault. *)
Definition share : Z := makeMptID 1 saver.

Definition thousand : Number := mkNumber 1000000000000000 (-12).

Definition bank : Vault := mkVault bob saver (AMPT token) thousand thousand zero share 0 zero 0 1 4 0 None.

Definition shares_of (n : Z) : MPTokenIssuance := mkIssuance saver lsfMPTCanTransfer n None None None 0 1 0 None 0.

(** Bob has the thousand shares of a vault of a thousand tokens, and alice six hundred tokens. *)
Definition bank_view : View :=
  mkLedger sample_env
    (<[saver := sample_account 0]> (accounts sample_view)) ∅
    {[token := mkIssuance gateway lsfMPTCanTransfer 1600 None None None 0 0 0 None 0; share := shares_of 1000]}
    {[(token, alice) := mkToken 0 600 0; (token, saver) := mkToken 0 1000 0; (share, bob) := mkToken 0 1000 0]}
    ∅ {[1 := bank]} ∅ ∅ ∅.

Definition save_tx : VaultDepositTx := mkVaultDeposit alice 1 (mpt_amount token 250).
Definition take_tx : VaultWithdrawTx := mkVaultWithdraw bob 1 (mpt_amount share 400) None false.

Lemma thousand_grid : gridded 0 thousand.
Proof. right. split_and!; [split; split; eval_cmp|by vm_compute|by vm_compute]. Qed.

Lemma bank_tokens t : t = token \/ t = share -> books bank_view t maxMPTokenAmount.
Proof.
  intros Ht. split; [destruct Ht as [-> | ->]; by eexists|destruct Ht as [-> | ->]; by vm_compute..|].
  intros k t'. simpl. rewrite !lookup_insert. repeat (case_decide; [by intros [= <-]|]).
  rewrite lookup_singleton_Some. by intros [_ <-].
Qed.

Lemma bank_banking : banking sample_settings bank_view 1 bank (shares_of 1000) token.
Proof.
  split; [done|done|done|done|done|by vm_compute| |apply bank_tokens; by left|apply bank_tokens; by right|by vm_compute..].
  split.
  - exists bank. split; [done|].
    split; [apply thousand_grid|apply thousand_grid|apply gridded_zero|by vm_compute..].
  - intros bid b. simpl. by rewrite lookup_empty.
  - intros k l. simpl. by rewrite lookup_empty.
Qed.

Lemma bank_solvent : solvent sample_settings 1 token bank_view.
Proof. exists bank, (shares_of 1000). split; [apply bank_banking|by vm_compute]. Qed.

Lemma saved : exists v', VaultDeposit_doApply sample_settings bank_view save_tx 60000000 = Ok (tesSUCCESS, v').
Proof. eexists. vm_compute. reflexivity. Qed.

Lemma taken : exists v', VaultWithdraw_doApply sample_settings bank_view take_tx 70000000 = Ok (tesSUCCESS, v').
Proof. eexists. vm_compute. reflexivity. Qed.

(** ** Theorems *)

(** C5. Whatever deposits, withdrawals and clawbacks follow, the vault keeps exactly the
    tokens that its books call available, its total is what is available and what is
    lent, and the shares and the tokens that are outstanding are the ones that are held. *)
Theorem vault_stays_solvent `{Keylets} cfg vid id v v' :
  rtc (vault_step cfg vid id) v v' -> solvent cfg vid id v -> solvent cfg vid id v'.
Proof. intros Hs. induction Hs as [v|v v1 v' Hst _ IH]; [done|]. intros S. by eapply IH, step_solvent. Qed.

Lemma vault_stays_solvent_witness :
  exists v', VaultDeposit_doApply sample_settings bank_view save_tx 60000000 = Ok (tesSUCCESS, v') /\
    solvent sample_settings 1 token v'.
Proof.
  destruct saved as [v' E]. exists v'. split; [exact E|].
  apply (vault_stays_solvent sample_settings 1 token bank_view v'); [|apply bank_solvent].
  apply rtc_once. apply (vs_deposit _ _ _ _ bank save_tx 60000000 250); [done|done|done|lia| |by vm_compute|exact E].
  vm_compute. congruence.
Defined.



(** C14. The first deposit into a vault buys one share for each token.  Whoever redeems all
    shares gets exactly what the vault is worth, its total less the loss that is not
    realised, so the first deposit comes back unchanged; nobody who redeems fewer gets
    more than that. *)
Theorem shares_redeem_worth cfg x i id :
  token_vault cfg x i id -> vault_ShareMPTID x <> id ->
  (forall a, 0 < a <= maxMantissa -> vault_AssetsTotal x = zero ->
     deposit_exchange cfg x i (mpt_amount id a) = Ok (Value (mpt_amount (vault_ShareMPTID x) a, mpt_amount id a))) /\
  (0 < iss_OutstandingAmount i ->
     withdraw_exchange cfg x i (mpt_amount (vault_ShareMPTID x) (iss_OutstandingAmount i)) =
     Ok (Value (mpt_amount (vault_ShareMPTID x) (iss_OutstandingAmount i), mpt_amount id (worth x)))) /\
  (forall n s d, 0 <= n <= iss_OutstandingAmount i -> iss_OutstandingAmount i <= maxMantissa ->
     withdraw_exchange cfg x i (mpt_amount (vault_ShareMPTID x) n) = Ok (Value (s, d)) ->
     exists w, d = mpt_amount id w /\ 0 <= w <= worth x).
Proof.
  intros T Hne. assert (asset_eqb (AMPT (vault_ShareMPTID x)) (AMPT id) = false) as Ene by (by apply Z.eqb_neq).
  assert (forall n, withdraw_exchange cfg x i (mpt_amount (vault_ShareMPTID x) n) =
    catch_overflow (on_value (need (sharesToAssetsWithdraw cfg x i (mpt_amount (vault_ShareMPTID x) n)))
      (fun assets => Ok (Value (mpt_amount (vault_ShareMPTID x) n, assets))))) as Ex.
  { intros n. unfold withdraw_exchange. rewrite mpt_asset, (tv_asset _ _ _ _ T), Ene. unfold share_asset.
    by rewrite mpt_eqb. }
  splits.
  - intros a Ha H0. by apply first_deposit.
  - intros Ho. rewrite Ex. by rewrite (redeem_all_shares cfg x i id T Ho).
  - intros n s d Hn Hm. rewrite Ex. intros (d' & Hd%need_value & Hr)%catch_value%on_value_ok.
    apply (withdraw_assets cfg x i id T) in Hd as (w & [= ->] & Hw & Hle);
      [|pose proof (tv_outstanding _ _ _ _ T); lia].
    injection Hr as _ <-. exists w. split; [done|]. split; [lia|]. apply Hle. lia.
Qed.

Lemma bank_vault : token_vault sample_settings bank (shares_of 1000) token.
Proof. apply (banking_vault _ _ _ _ _ _ bank_banking). Qed.

Lemma shares_redeem_worth_witness :
  withdraw_exchange sample_settings bank (shares_of 1000) (mpt_amount share 1000) =
    Ok (Value (mpt_amount share 1000, mpt_amount token 1000)) /\
  (forall s d, withdraw_exchange sample_settings bank (shares_of 1000) (mpt_amount share 333) = Ok (Value (s, d)) ->
     exists w, d = mpt_amount token w /\ 0 <= w <= 1000).
Proof.
  destruct (shares_redeem_worth sample_settings bank (shares_of 1000) token bank_vault ltac:(vm_compute; congruence))
    as (_ & All & Part).
  split; [apply All; vm_compute; congruence|]. intros s d. apply (Part 333); split || idtac; vm_compute; congruence.
Defined.

(** Two shares of a vault of five tokens are outstanding.  Three tokens offered buy one
    share, which costs two tokens although it is worth two and a half. *)
Definition five : Number := mkNumber 5000000000000000 (-15).

Definition small_bank : Vault := mkVault bob saver (AMPT token) five five zero share 0 zero 0 1 4 0 None.

Example deposit_below_price :
  deposit_exchange sample_settings small_bank (shares_of 2) (mpt_amount token 3) =
  Ok (Value (mpt_amount share 1, mpt_amount token 2)).
Proof. vm_compute. reflexivity. Qed.

(** Two shares of a vault of seven tokens: the first to leave gets four of them. *)
Definition seven : Number := mkNumber 7000000000000000 (-15).

Definition odd_bank : Vault := mkVault bob saver (AMPT token) seven seven zero share 0 zero 0 1 4 0 None.

Example withdrawal_above_price :
  withdraw_exchange sample_settings odd_bank (shares_of 2) (mpt_amount share 1) =
  Ok (Value (mpt_amount share 1, mpt_amount token 4)).
Proof. vm_compute. reflexivity. Qed.
