(* ===== verification/Invariants.v ===== *)
(** * Invariant checks

    After a transaction the server shows every entry that it touched, before and after, to
    a list of checkers, and undoes the transaction when one of them objects
    ([src/xrpld/app/tx/detail/InvariantCheck.{h,cpp}]).  This file models the checkers for
    fields that must not change, for loan brokers, for loans and for vaults.  The reasons
    they log are left out. *)

From S2P Require Import Prelude.
From S2P Require Import Ter.
From S2P Require Import XrplNumber.
From S2P Require Import Amounts.
From S2P Require Import Lending.
From S2P Require Import Directories.
From S2P Require Import LedgerState.
From S2P Require Import Holdings.
From S2P Require Import Transfers.
From S2P Require Import Vaults.
From stdpp Require Import gmap list.

Local Open Scope Z_scope.
Local Open Scope xrpl_scope.

(** ** Entries that a transaction touched *)

(** Keys of entries, by type. *)
Inductive EntryKey : Set :=
| k_account (id : Z)
| k_line (k : Z * Z * Z)
| k_issuance (id : Z)
| k_token (k : Z * Z)
| k_vault (id : Z)
| k_broker (id : Z)
| k_loan (id : Z)
| k_other (k : Z).

#[export] Instance EntryKey_eq : EqDecision EntryKey.
Proof. solve_decision. Defined.

(** Entries of the types that no checker here looks into are [e_other]. *)
Inductive Entry : Set :=
| e_account (id : Z) (a : AccountRoot)
| e_line (k : Z * Z * Z) (l : RippleState)
| e_issuance (id : Z) (i : MPTokenIssuance)
| e_token (k : Z * Z) (t : MPToken)
| e_vault (id : Z) (x : Vault)
| e_broker (id : Z) (b : LoanBroker)
| e_loan (id : Z) (l : LoanEntry)
| e_other (k : Z).

Definition entry_key (e : Entry) : EntryKey :=
  match e with
  | e_account id _ => k_account id
  | e_line k _ => k_line k
  | e_issuance id _ => k_issuance id
  | e_token k _ => k_token k
  | e_vault id _ => k_vault id
  | e_broker id _ => k_broker id
  | e_loan id _ => k_loan id
  | e_other k => k_other k
  end.

(** The arguments of [visitEntry]. *)
Record Visit : Set := mkVisit {
  isDelete : bool;
  before : option Entry;
  after : option Entry }.

(** What the checkers read of the transaction; [ttOTHER] is a type without privileges. *)
Inductive TxType : Set :=
| ttVAULT_CREATE | ttVAULT_SET | ttVAULT_DELETE | ttVAULT_DEPOSIT | ttVAULT_WITHDRAW | ttVAULT_CLAWBACK
| ttLOAN_BROKER_SET | ttLOAN_BROKER_DELETE | ttLOAN_BROKER_COVER_DEPOSIT | ttLOAN_BROKER_COVER_WITHDRAW
| ttLOAN_BROKER_COVER_CLAWBACK | ttLOAN_SET | ttLOAN_DELETE | ttLOAN_MANAGE | ttLOAN_PAY | ttOTHER.

#[export] Instance TxType_eq : EqDecision TxType.
Proof. solve_decision. Defined.

Record CheckedTx : Set := mkCheckedTx {
  ct_type : TxType;
  ct_Account : Z;
  ct_Amount : STAmount;
  ct_Destination : option Z;
  ct_Holder : option Z;
  ct_Fee : Z }.

(** The privileges of the types above, from their declarations. *)
Inductive Privilege : Set :=
| createAcct | createPseudoAcct | mustDeleteAcct | mayDeleteAcct | overrideFreeze | changeNFTCounts
| createMPTIssuance | destroyMPTIssuance | mustAuthorizeMPT | mayAuthorizeMPT | mayDeleteMPT
| mustModifyVault | mayModifyVault.

#[export] Instance Privilege_eq : EqDecision Privilege.
Proof. solve_decision. Defined.

Definition privileges (t : TxType) : list Privilege :=
  match t with
  | ttVAULT_CREATE => [createPseudoAcct; createMPTIssuance; mustModifyVault]
  | ttVAULT_SET => [mustModifyVault]
  | ttVAULT_DELETE => [mustDeleteAcct; destroyMPTIssuance; mustModifyVault]
  | ttVAULT_DEPOSIT => [mayAuthorizeMPT; mustModifyVault]
  | ttVAULT_WITHDRAW => [mayDeleteMPT; mayAuthorizeMPT; mustModifyVault]
  | ttVAULT_CLAWBACK => [mayDeleteMPT; mustModifyVault]
  | ttLOAN_BROKER_SET => [createPseudoAcct; mayAuthorizeMPT]
  | ttLOAN_BROKER_DELETE => [mustDeleteAcct; mayAuthorizeMPT]
  | ttLOAN_BROKER_COVER_WITHDRAW => [mayAuthorizeMPT]
  | ttLOAN_SET | ttLOAN_PAY => [mayAuthorizeMPT; mustModifyVault]
  | ttLOAN_MANAGE => [mayModifyVault]
  | ttLOAN_BROKER_COVER_DEPOSIT | ttLOAN_BROKER_COVER_CLAWBACK | ttLOAN_DELETE | ttOTHER => []
  end.

Definition hasPrivilege (t : TxType) (p : Privilege) : bool := bool_decide (p ∈ privileges t).

(** ** Fields that must not change: [NoModifiedUnmodifiableFields] *)

(** Creation and deletion are ignored. *)
Definition changedEntries (l : list Visit) : list (Entry * Entry) :=
  omap (fun x => match before x, after x with
                 | Some b, Some a => if isDelete x then None else Some (b, a)
                 | _, _ => None
                 end) l.

Definition broker_changed (b a : LoanBroker) : bool :=
  negb ((broker_Sequence b =? broker_Sequence a) && (broker_OwnerNode b =? broker_OwnerNode a) &&
        (broker_VaultNode b =? broker_VaultNode a) && (broker_VaultID b =? broker_VaultID a) &&
        (broker_Account b =? broker_Account a) && (broker_Owner b =? broker_Owner a) &&
        (broker_ManagementFeeRate b =? broker_ManagementFeeRate a) &&
        (broker_CoverRateMinimum b =? broker_CoverRateMinimum a) &&
        (broker_CoverRateLiquidation b =? broker_CoverRateLiquidation a)).

(** The code also asks for [sfSequence], which a loan does not have. *)
Definition loan_changed (b a : LoanEntry) : bool :=
  let x := loan_fields b in
  let y := loan_fields a in
  negb ((loan_OwnerNode b =? loan_OwnerNode a) && (loan_LoanBrokerNode b =? loan_LoanBrokerNode a) &&
        (loan_LoanBrokerID b =? loan_LoanBrokerID a) && (loan_Borrower b =? loan_Borrower a) &&
        number_eqb (loan_OriginationFee b) (loan_OriginationFee a) &&
        number_eqb (sfLoanServiceFee x) (sfLoanServiceFee y) &&
        number_eqb (sfLatePaymentFee x) (sfLatePaymentFee y) &&
        number_eqb (sfClosePaymentFee x) (sfClosePaymentFee y) &&
        (sfOverpaymentFee x =? sfOverpaymentFee y) && (sfInterestRate x =? sfInterestRate y) &&
        (sfLateInterestRate x =? sfLateInterestRate y) && (sfCloseInterestRate x =? sfCloseInterestRate y) &&
        (sfOverpaymentInterestRate x =? sfOverpaymentInterestRate y) && (sfStartDate x =? sfStartDate y) &&
        (sfPaymentInterval x =? sfPaymentInterval y) && (loan_GracePeriod b =? loan_GracePeriod a) &&
        (sfLoanScale x =? sfLoanScale y)).

(** The key says the type and the index. *)
Definition entry_changed (p : Entry * Entry) : bool :=
  negb (bool_decide (entry_key p.1 = entry_key p.2)) ||
  match p with
  | (e_broker _ b, e_broker _ a) => broker_changed b a
  | (e_loan _ b, e_loan _ a) => loan_changed b a
  | _ => false
  end.

Definition NoModifiedUnmodifiableFields_finalize (v : View) (l : list Visit) : bool :=
  let enforce := featureLendingProtocol (rules (env v)) in
  negb (existsb entry_changed (changedEntries l) && enforce).

(** ** Loan brokers: [ValidLoanBroker] *)

(** Deleted brokers too. *)
Definition visited_brokers (l : list Visit) : list (option LoanBroker * LoanBroker) :=
  omap (fun x => match after x with
                 | Some (e_broker _ a) =>
                     Some (match before x with Some (e_broker _ b) => Some b | _ => None end, a)
                 | _ => None
                 end) l.

Section Brokers.
Context `{Keylets}.

(** The key of a trust line or of a token in the ledger. *)
Definition holding_key (v : View) (index : Z) : bool :=
  existsb (fun k => line_key k =? index) (map_to_list (lines v)).*1 ||
  existsb (fun k => mptoken_key k =? index) (map_to_list (tokens v)).*1.

Definition goodZeroDirectory (v : View) (dir : Page) : bool :=
  if negb (prevOf dir =? 0) || negb (nextOf dir =? 0) then false
  else match sfIndexes dir with
  | [] => true
  | [index] => holding_key v index
  | _ => false
  end.

Definition broker_valid (v : View) (p : option LoanBroker * LoanBroker) : bool :=
  let '(b, a) := p in
  (if broker_OwnerCount a =? 0 then
     match ownerDirs v !! broker_Account a with
     | Some pages => match pages !! 0 with Some dir => goodZeroDirectory v dir | None => true end
     | None => true
     end
   else true) &&
  match b with Some b => negb (broker_LoanSequence a <? broker_LoanSequence b) | None => true end &&
  negb (number_ltb (broker_DebtTotal a) zero) && negb (number_ltb (broker_CoverAvailable a) zero).

Definition ValidLoanBroker_finalize (v : View) (l : list Visit) : bool := forallb (broker_valid v) (visited_brokers l).

End Brokers.

(** ** Loans: [ValidLoan] *)

Definition visited_loans (l : list Visit) : list (option LoanEntry * LoanEntry) :=
  omap (fun x => match after x with
                 | Some (e_loan _ a) => Some (match before x with Some (e_loan _ b) => Some b | _ => None end, a)
                 | _ => None
                 end) l.

Definition loan_valid (p : option LoanEntry * LoanEntry) : bool :=
  let '(b, a) := p in
  let y := loan_fields a in
  negb ((sfPaymentRemaining y =? 0) && negb (number_eqb (sfPrincipalOutstanding y) zero)) &&
  match b with
  | Some b => Bool.eqb (lsfLoanOverpayment (loan_fields b)) (lsfLoanOverpayment y)
  | None => true
  end &&
  forallb (fun n => negb (number_ltb n zero))
    [sfLoanServiceFee y; sfLatePaymentFee y; sfClosePaymentFee y; sfPrincipalOutstanding y;
     sfTotalValueOutstanding y; sfManagementFeeOutstanding y] &&
  negb (number_leb (sfPeriodicPayment y) zero).

Definition ValidLoan_finalize (l : list Visit) : bool := forallb loan_valid (visited_loans l).

(** ** Vaults: [ValidVault] *)

(** [ValidVault::Vault] and [ValidVault::Shares]. *)
Record VaultData : Set := mkVaultData {
  vd_key : Z;
  vd_asset : Asset;
  vd_pseudoId : Z;
  vd_shareMPTID : Z;
  vd_assetsTotal : Number;
  vd_assetsAvailable : Number;
  vd_assetsMaximum : Number;
  vd_lossUnrealized : Number }.

Record ShareData : Set := mkShareData {
  sd_share : Z;
  sd_sharesTotal : Z;
  sd_sharesMaximum : Z }.

Definition VaultData_make (key : Z) (x : Vault) : VaultData :=
  mkVaultData key (vault_Asset x) (vault_Account x) (vault_ShareMPTID x) (vault_AssetsTotal x)
    (vault_AssetsAvailable x) (vault_AssetsMaximum x) (vault_LossUnrealized x).

Definition ShareData_make (i : MPTokenIssuance) : ShareData :=
  mkShareData (makeMptID (iss_Sequence i) (iss_Issuer i)) (iss_OutstandingAmount i)
    (default maxMPTokenAmount (iss_MaximumAmount i)).

(** The fields of the checker.  [deltas_] is a map; the latest value of a key is in front. *)
Record ValidVault : Set := mkValidVault {
  afterVault_ : list VaultData;
  afterMPTs_ : list ShareData;
  beforeVault_ : list VaultData;
  beforeMPTs_ : list ShareData;
  deltas_ : list (EntryKey * Number) }.

Definition ValidVault_init : ValidVault := mkValidVault [] [] [] [] [].

Section Vaults.
Context (cfg : Settings).

(** A balance of the entry and its sign; entries without one have no sign. *)
Definition entry_balance (e : Entry) : option (Z * result Number) :=
  match e with
  | e_issuance _ i => Some (1, of_rep (round_mode cfg) (i64 (iss_OutstandingAmount i)))
  | e_token _ t => Some (-1, of_rep (round_mode cfg) (i64 (tok_MPTAmount t)))
  | e_account _ a => Some (-1, number_of_st cfg (acct_Balance a))
  | e_line _ l => Some (-1, number_of_st cfg (line_Balance l))
  | _ => None
  end.

Definition signed_number (n : Number) (sign : Z) : result Number :=
  let* s := of_rep (round_mode cfg) sign in number_mul (round_mode cfg) n s.

Definition ValidVault_visitEntry (st : ValidVault) (x : Visit) : result ValidVault :=
  let shown := if isDelete x then None else after x in
  let st :=
    match before x with
    | Some (e_vault k b) =>
        mkValidVault (afterVault_ st) (afterMPTs_ st) (beforeVault_ st ++ [VaultData_make k b]) (beforeMPTs_ st) (deltas_ st)
    | Some (e_issuance _ i) =>
        mkValidVault (afterVault_ st) (afterMPTs_ st) (beforeVault_ st) (beforeMPTs_ st ++ [ShareData_make i]) (deltas_ st)
    | _ => st
    end in
  let st :=
    match shown with
    | Some (e_vault k a) =>
        mkValidVault (afterVault_ st ++ [VaultData_make k a]) (afterMPTs_ st) (beforeVault_ st) (beforeMPTs_ st) (deltas_ st)
    | Some (e_issuance _ i) =>
        mkValidVault (afterVault_ st) (afterMPTs_ st ++ [ShareData_make i]) (beforeVault_ st) (beforeMPTs_ st) (deltas_ st)
    | _ => st
    end in
  let* (balance, sign) :=
    match before x ≫= entry_balance with
    | Some (s, n) => let* n := n in Ok (n, s)
    | None => Ok (zero, 0)
    end in
  let* (balance, sign) :=
    match shown ≫= entry_balance with
    | Some (s, n) => let* n := n in let* balance := number_sub (round_mode cfg) balance n in Ok (balance, s)
    | None => Ok (balance, sign)
    end in
  if negb (sign =? 0) && negb (number_eqb balance zero) then
    match from_option (fun e => Some (entry_key e)) (entry_key <$> after x) (before x) with
    | Some key =>
        let* delta := signed_number balance sign in
        Ok (mkValidVault (afterVault_ st) (afterMPTs_ st) (beforeVault_ st) (beforeMPTs_ st) ((key, delta) :: deltas_ st))
    | None => Ok st
    end
  else Ok st.

Fixpoint ValidVault_visit (st : ValidVault) (l : list Visit) : result ValidVault :=
  match l with
  | [] => Ok st
  | x :: l => let* st := ValidVault_visitEntry st x in ValidVault_visit st l
  end.

Definition find_shares (share : Z) (l : list ShareData) : option ShareData :=
  List.find (fun s => sd_share s =? share) l.

Definition find_delta (st : ValidVault) (k : EntryKey) : option Number :=
  snd <$> List.find (fun p => bool_decide (p.1 = k)) (deltas_ st).

(** [deltaAssets] and [deltaShares]. *)
Definition deltaAssets (st : ValidVault) (asset : Asset) (id : Z) : result (option Number) :=
  match asset with
  | AIssue i =>
      let '(k, sign) :=
        if asset_native asset then (k_account id, 1)
        else (k_line (line_keylet id (account i) (currency i)), if account i <? id then -1 else 1) in
      match find_delta st k with
      | None => Ok None
      | Some n => let* n := signed_number n sign in Ok (Some n)
      end
  | AMPT m =>
      match find_delta st (k_token (m, id)) with
      | None => Ok None
      | Some n => let* n := signed_number n 1 in Ok (Some n)
      end
  end.

Definition deltaShares (st : ValidVault) (vault : VaultData) (id : Z) : option Number :=
  if id =? vd_pseudoId vault then find_delta st (k_issuance (vd_shareMPTID vault))
  else find_delta st (k_token (vd_shareMPTID vault, id)).

(** *** The checks of [finalize] *)

(** A vault that is gone. *)
Definition deleted_valid (st : ValidVault) (vault : VaultData) (enforce : bool) : bool :=
  match find_shares (vd_shareMPTID vault) (beforeMPTs_ st) with
  | None => negb enforce
  | Some s =>
      (sd_sharesTotal s =? 0) && number_eqb (vd_assetsTotal vault) zero && number_eqb (vd_assetsAvailable vault) zero
  end.

Definition immutable_data (b a : VaultData) : bool :=
  asset_eqb (vd_asset a) (vd_asset b) && (vd_pseudoId a =? vd_pseudoId b) && (vd_shareMPTID a =? vd_shareMPTID b).

(** What holds of a vault after any transaction. *)
Definition universal_valid (a : VaultData) (s : ShareData) : result bool :=
  let sized :=
    if sd_sharesTotal s =? 0
    then number_eqb (vd_assetsTotal a) zero && number_eqb (vd_assetsAvailable a) zero
    else negb (sd_sharesMaximum s <? sd_sharesTotal s) in
  let* lent :=
    if number_gtb (vd_assetsAvailable a) (vd_assetsTotal a) then Ok false
    else
      let* n := number_sub (round_mode cfg) (vd_assetsTotal a) (vd_assetsAvailable a) in
      Ok (negb (number_gtb (vd_lossUnrealized a) n)) in
  Ok (sized && negb (number_ltb (vd_assetsAvailable a) zero) && lent &&
      negb (number_ltb (vd_assetsTotal a) zero) && negb (number_ltb (vd_assetsMaximum a) zero)).

Definition created_valid (v : View) (fresh : bool) (a : VaultData) (s : ShareData) : bool :=
  let issuer := mptIssuer (sd_share s) in
  match accounts v !! issuer with
  | None => false
  | Some acct =>
      fresh &&
      (number_eqb (vd_assetsAvailable a) zero && number_eqb (vd_assetsTotal a) zero &&
       number_eqb (vd_lossUnrealized a) zero && (sd_sharesTotal s =? 0)) &&
      (vd_pseudoId a =? issuer) && isPseudoAccount acct && bool_decide (acct_VaultID acct = Some (vd_key a))
  end.

Definition within_maximum (a : VaultData) : bool :=
  negb (number_gtb (vd_assetsMaximum a) zero && number_gtb (vd_assetsTotal a) (vd_assetsMaximum a)).

Definition set_valid (st : ValidVault) (b a : VaultData) (beforeShares : option ShareData) (s : ShareData) : result bool :=
  let* d := deltaAssets st (vd_asset a) (vd_pseudoId a) in
  Ok (negb (bool_decide (is_Some d)) && number_eqb (vd_assetsTotal b) (vd_assetsTotal a) && within_maximum a &&
      number_eqb (vd_assetsAvailable b) (vd_assetsAvailable a) &&
      match beforeShares with Some t => sd_sharesTotal t =? sd_sharesTotal s | None => true end).

(** The change of the balance of the account of the transaction, without the fee. *)
Definition account_delta (st : ValidVault) (asset : Asset) (acct fee : Z) : result (option Number) :=
  let* d := deltaAssets st asset acct in
  match d with
  | None => Ok None
  | Some n =>
      let* n := if asset_native asset
                then let* f := of_rep (round_mode cfg) fee in number_add (round_mode cfg) n f
                else Ok n in
      Ok (if number_eqb n zero then None else Some n)
  end.

(** Shares of an account and of the vault change by the same amount. *)
Definition shares_match (account vault : Number) : result bool :=
  let* n := signed_number vault (-1) in Ok (number_eqb n account).

(** Assets of the vault and its books change by the same amount. *)
Definition books_add_up (b a : VaultData) (delta : Number) : result bool :=
  let* total := number_add (round_mode cfg) (vd_assetsTotal b) delta in
  let* available := number_add (round_mode cfg) (vd_assetsAvailable b) delta in
  Ok (number_eqb total (vd_assetsTotal a) && number_eqb available (vd_assetsAvailable a)).

Definition is_issuer (asset : Asset) (acct : Z) : bool := negb (asset_native asset) && (acct =? getIssuer asset).

(** The depositor pays what the vault gets, and whoever receives a withdrawal gets what the
    vault pays; not checked of an issuer.  [None] when no change was recorded. *)
Definition deposit_paid (st : ValidVault) (asset : Asset) (tx : CheckedTx) (fee : Z) (delta : Number)
    : result (option bool) :=
  if is_issuer asset (ct_Account tx) then Ok (Some true)
  else
    let* d := account_delta st asset (ct_Account tx) fee in
    match d with
    | None => Ok None
    | Some n =>
        let* m := signed_number n (-1) in
        Ok (Some (negb (number_geb n zero) && number_eqb m delta))
    end.

Definition withdraw_paid (st : ValidVault) (asset : Asset) (tx : CheckedTx) (fee : Z) (delta : Number)
    : result (option bool) :=
  if is_issuer asset (default (ct_Account tx) (ct_Destination tx)) then Ok (Some true)
  else
    let* own := account_delta st asset (ct_Account tx) fee in
    let* other :=
      match ct_Destination tx with
      | Some dst => if dst =? ct_Account tx then Ok None else deltaAssets st asset dst
      | None => Ok None
      end in
    match own, other with
    | Some n, None | None, Some n =>
        let* m := signed_number delta (-1) in
        Ok (Some (negb (number_leb n zero) && number_eqb m n))
    | _, _ => Ok None
    end.

Definition deposit_valid (st : ValidVault) (tx : CheckedTx) (fee : Z) (b a : VaultData) : result bool :=
  let asset := vd_asset a in
  let* d := deltaAssets st asset (vd_pseudoId a) in
  match d with
  | None => Ok false
  | Some delta =>
      let* amount := number_of_st cfg (ct_Amount tx) in
      let moved := negb (number_gtb delta amount) && negb (number_leb delta zero) in
      let* paid := deposit_paid st asset tx fee delta in
      match paid, deltaShares st a (ct_Account tx), deltaShares st a (vd_pseudoId a) with
      | Some paid, Some n, Some m =>
          let* same := shares_match n m in
          let* sums := books_add_up b a delta in
          Ok (moved && paid && within_maximum a && negb (number_leb n zero) && same && sums)
      | _, _, _ => Ok false
      end
  end.

Definition withdraw_valid (st : ValidVault) (tx : CheckedTx) (fee : Z) (b a : VaultData) : result bool :=
  let asset := vd_asset a in
  let* d := deltaAssets st asset (vd_pseudoId a) in
  match d with
  | None => Ok false
  | Some delta =>
      let* paid := withdraw_paid st asset tx fee delta in
      match paid, deltaShares st a (ct_Account tx), deltaShares st a (vd_pseudoId a) with
      | Some paid, Some n, Some m =>
          let* same := shares_match n m in
          let* sums := books_add_up b a delta in
          Ok (negb (number_geb delta zero) && paid && negb (number_geb n zero) && same && sums)
      | _, _, _ => Ok false
      end
  end.

Definition clawback_valid (st : ValidVault) (tx : CheckedTx) (b a : VaultData) : result bool :=
  let asset := vd_asset a in
  if asset_native asset || negb (getIssuer asset =? ct_Account tx) then Ok false
  else
    let* d := deltaAssets st asset (vd_pseudoId a) in
    match d, deltaShares st a (default 0 (ct_Holder tx)), deltaShares st a (vd_pseudoId a) with
    | Some delta, Some n, Some m =>
        let* same := shares_match n m in
        let* sums := books_add_up b a delta in
        Ok (negb (number_geb delta zero) && negb (number_geb n zero) && same && sums)
    | _, _, _ => Ok false
    end.

(** The checks of one type of transaction. *)
Definition operation_valid (st : ValidVault) (v : View) (tx : CheckedTx) (fee : Z) (before_ : option VaultData)
    (a : VaultData) (beforeShares : option ShareData) (s : ShareData) : result bool :=
  match ct_type tx, before_ with
  | ttVAULT_CREATE, _ => Ok (created_valid v (negb (bool_decide (is_Some before_))) a s)
  | ttVAULT_SET, Some b => set_valid st b a beforeShares s
  | ttVAULT_DEPOSIT, Some b => deposit_valid st tx fee b a
  | ttVAULT_WITHDRAW, Some b => withdraw_valid st tx fee b a
  | ttVAULT_CLAWBACK, Some b => clawback_valid st tx b a
  | ttLOAN_SET, _ | ttLOAN_MANAGE, _ | ttLOAN_PAY, _ => Ok true
  | _, _ => Ok false
  end.

Definition updates_shares (t : TxType) : bool :=
  match t with ttVAULT_DEPOSIT | ttVAULT_WITHDRAW | ttVAULT_CLAWBACK => true | _ => false end.

Definition changes_loss (t : TxType) : bool := match t with ttLOAN_MANAGE | ttLOAN_PAY => true | _ => false end.

(** One vault was created or changed. *)
Definition updated_valid (st : ValidVault) (v : View) (tx : CheckedTx) (fee : Z) (enforce : bool)
    (before_ : option VaultData) (a : VaultData) : result bool :=
  let updatedShares :=
    match find_shares (vd_shareMPTID a) (afterMPTs_ st) with
    | Some s => Some s
    | None => ShareData_make <$> issuances v !! vd_shareMPTID a
    end in
  let immutable := match before_ with Some b => immutable_data b a | None => true end in
  match updatedShares with
  | None => Ok (negb enforce)
  | Some s =>
      let* universal := universal_valid a s in
      if negb (bool_decide (is_Some before_)) && negb (bool_decide (ct_type tx = ttVAULT_CREATE)) then Ok (negb enforce)
      else
        let loss :=
          match before_ with
          | Some b => number_eqb (vd_lossUnrealized a) (vd_lossUnrealized b) || changes_loss (ct_type tx)
          | None => true
          end in
        let beforeShares := match before_ with Some b => find_shares (vd_shareMPTID b) (beforeMPTs_ st) | None => None end in
        if negb (bool_decide (is_Some beforeShares)) && updates_shares (ct_type tx) then Ok (negb enforce)
        else
          let* operation := operation_valid st v tx fee before_ a beforeShares s in
          Ok (if immutable && universal && loss && operation then true else negb enforce)
  end.

Definition ValidVault_finalize (st : ValidVault) (v : View) (tx : CheckedTx) (ret : TER) (fee : Z) : result bool :=
  let enforce := featureSingleAssetVault (rules (env v)) in
  if negb (isTesSuccess ret) then Ok true
  else match beforeVault_ st, afterVault_ st with
  | [], [] => Ok (if hasPrivilege (ct_type tx) mustModifyVault then negb enforce else true)
  | bs, as_ =>
      if negb (hasPrivilege (ct_type tx) mustModifyVault || hasPrivilege (ct_type tx) mayModifyVault) then Ok (negb enforce)
      else match bs, as_ with
      | _ :: _ :: _, _ | _, _ :: _ :: _ => Ok (negb enforce)
      | b :: _, [] =>
          Ok (if bool_decide (ct_type tx = ttVAULT_DELETE) then deleted_valid st b enforce else negb enforce)
      | bs, a :: _ =>
          if bool_decide (ct_type tx = ttVAULT_DELETE) then Ok (negb enforce)
          else updated_valid st v tx fee enforce (head bs) a
      | [], [] => Ok true
      end
  end.

(** The whole check. *)
Definition ValidVault_check (v : View) (l : list Visit) (tx : CheckedTx) (ret : TER) (fee : Z) : result bool :=
  let* st := ValidVault_visit ValidVault_init l in ValidVault_finalize st v tx ret fee.

End Vaults.
