(* ===== verification/InvariantFacts.v ===== *)
(** * What the checker of vaults computes

    The balances that the checker of vaults records, in whole units, for a list of visited
    entries that describes a change of the ledger. *)

From S2P Require Import Prelude.
From S2P Require Import Ter.
From S2P Require Import XrplNumber.
From S2P Require Import XrplNumberFacts.
From S2P Require Import XrplNumberCorrect.
From S2P Require Import XrplNumberGrid.
From S2P Require Import Amounts.
From S2P Require Import AmountsFacts.
From S2P Require Import AmountsRound.
From S2P Require Import AmountsWhole.
From S2P Require Import Lending.
From S2P Require Import NumberRatios.
From S2P Require Import LedgerState.
From S2P Require Import Holdings.
From S2P Require Import Transfers.
From S2P Require Import TransfersMPT.
From S2P Require Import Vaults.
From S2P Require Import LoanBooks.
From S2P Require Import LoanCoverFacts.
From S2P Require Import VaultFacts.
From S2P Require Import Invariants.
From stdpp Require Import gmap list.

Local Open Scope Z_scope.

(** ** Visits *)

(** The entry at a key. *)
Definition entry_at (v : View) (k : EntryKey) : option Entry :=
  match k with
  | k_account id => e_account id <$> accounts v !! id
  | k_line k => e_line k <$> lines v !! k
  | k_issuance id => e_issuance id <$> issuances v !! id
  | k_token k => e_token k <$> tokens v !! k
  | k_vault id => e_vault id <$> vaults v !! id
  | k_broker id => e_broker id <$> brokers v !! id
  | k_loan id => e_loan id <$> loans v !! id
  | k_other _ => None
  end.

(** The entry is shown before and after; of one that was deleted its last state too. *)
Definition shows (v v' : View) (k : EntryKey) (x : Visit) : Prop :=
  before x = entry_at v k /\
  (if isDelete x then is_Some (before x) /\ entry_at v' k = None /\ exists e, after x = Some e /\ entry_key e = k
   else after x = entry_at v' k /\ is_Some (after x)).

Definition visit_key (x : Visit) : option EntryKey :=
  from_option (fun e => Some (entry_key e)) (entry_key <$> after x) (before x).

Definition other_visit (x : Visit) : Prop := exists k, visit_key x = Some (k_other k) /\
  (forall e, before x = Some e \/ after x = Some e -> e = e_other k).

(** [l] shows each entry at most once, and every entry that changed. *)
Record describes (v v' : View) (l : list Visit) : Prop := {
  ds_distinct : NoDup (visit_key <$> l);
  ds_shows : forall x, x ∈ l -> other_visit x \/ exists k, shows v v' k x;
  ds_complete : forall k, entry_at v' k <> entry_at v k -> exists x, x ∈ l /\ shows v v' k x }.

(** The visits of entries that are not deleted. *)
Definition visit_of (v v' : View) (k : EntryKey) : Visit := mkVisit false (entry_at v k) (entry_at v' k).

(** The visits of all entries at [keys], deleted ones with their last state. *)
Definition visits_at (v v' : View) (keys : list EntryKey) : list Visit :=
  omap (fun k => match entry_at v k, entry_at v' k with
                 | None, None => None
                 | Some b, None => Some (mkVisit true (Some b) (Some b))
                 | b, a => Some (mkVisit false b a)
                 end) keys.

#[export] Instance Issue_eq : EqDecision Issue.
Proof. solve_decision. Defined.

#[export] Instance Asset_eq : EqDecision Asset.
Proof. solve_decision. Defined.

#[export] Instance STAmount_eq : EqDecision STAmount.
Proof. solve_decision. Defined.

#[export] Instance AccountRoot_eq : EqDecision AccountRoot.
Proof. solve_decision. Defined.

(** ** Balances in whole units *)

Definition entry_units (e : Entry) : Z :=
  match e with
  | e_issuance _ i => iss_OutstandingAmount i
  | e_token _ t => tok_MPTAmount t
  | e_account _ a => signed_value (acct_Balance a)
  | _ => 0
  end.

Definition key_sign (k : EntryKey) : Z :=
  match k with k_issuance _ => 1 | k_token _ | k_account _ => -1 | _ => 0 end.

(** Balances that are exact as numbers; trust lines, whose amounts are not whole, are not
    among the entries. *)
Definition small (e : Entry) : Prop :=
  match e with
  | e_issuance _ i => 0 <= iss_OutstandingAmount i <= maxMantissa
  | e_token _ t => 0 <= tok_MPTAmount t <= maxMantissa
  | e_account _ a => exists n, acct_Balance a = st_whole (AIssue xrpIssue) n /\ 0 <= n <= maxMantissa
  | e_line _ _ => False
  | _ => True
  end.

Definition units_at (v : View) (k : EntryKey) : Z := from_option entry_units 0 (entry_at v k).

Definition small_visit (x : Visit) : Prop := forall e, before x = Some e \/ after x = Some e -> small e.

Lemma entry_at_key v k e : entry_at v k = Some e -> entry_key e = k.
Proof. destruct k; simpl; try destruct (_ !! _); by intros [= <-]. Qed.

Lemma shows_key v v' k x : shows v v' k x -> visit_key x = Some k.
Proof.
  intros [Hb Hx]. unfold visit_key. destruct (before x) as [e|] eqn:E; simpl.
  - f_equal. by eapply entry_at_key.
  - destruct (isDelete x); [by destruct Hx as ([? [=]] & _)|]. destruct Hx as [Ha [e He]]. rewrite He. simpl. f_equal.
    eapply entry_at_key. by rewrite <- Ha.
Qed.

Lemma visit_of_shows v v' k : is_Some (entry_at v' k) -> shows v v' k (visit_of v v' k).
Proof. done. Qed.

Lemma visits_describe v v' keys :
  NoDup keys -> (forall k, k ∈ keys -> is_Some (entry_at v' k)) -> (forall k, k ∉ keys -> entry_at v' k = entry_at v k) ->
  describes v v' (visit_of v v' <$> keys).
Proof.
  intros Hn Hs Hc. split.
  - assert (visit_key <$> (visit_of v v' <$> keys) = Some <$> keys) as ->.
    { rewrite <- list_fmap_compose. apply list_fmap_ext. intros j k Hk. simpl.
      eapply shows_key, visit_of_shows, Hs, list_elem_of_lookup_2, Hk. }
    by apply NoDup_fmap_2; [intros ?? [=]|].
  - intros x (k & -> & Hk)%list_elem_of_fmap. right. exists k. by apply visit_of_shows, Hs.
  - intros k Hk. destruct (decide (k ∈ keys)) as [Hin|]; [|by destruct Hk; apply Hc].
    exists (visit_of v v' k). split; [by apply list_elem_of_fmap_2|by apply visit_of_shows, Hs].
Qed.

Section Balances.
Context (cfg : Settings).

Lemma of_rep_small n : 0 <= n <= maxMantissa -> exists z, of_rep (round_mode cfg) n = Ok z /\ gridded 0 z /\ units 0 z = n.
Proof.
  intros Hn. destruct (make_grid (round_mode cfg) n 0) as (z & E & G); [lia|apply grid_zero|].
  exists z. unfold of_rep. splits; [done|by apply (grid_gridded 0 n)|by apply units_grid].
Qed.

Lemma i64_small n : 0 <= n <= maxMantissa -> i64 n = n.
Proof. unfold maxMantissa. intros. by apply i64_id; lia. Qed.

(** A balance of a small entry. *)
Lemma entry_balance_small e :
  small e ->
  match entry_balance cfg e with
  | Some (s, r) => s = key_sign (entry_key e) /\ s <> 0 /\ exists z, r = Ok z /\ gridded 0 z /\ units 0 z = entry_units e
  | None => key_sign (entry_key e) = 0 /\ entry_units e = 0
  end.
Proof.
  destruct e as [id a|k l|id i|k t|id x|id b|id l|k]; simpl; try done.
  - intros (n & -> & Hn). splits; [done|done|]. rewrite number_of_st_whole by (done || unfold maxMantissa in *; lia).
    destruct (of_rep_small n Hn) as (z & E & G & U). exists z. splits; [done|done|].
    rewrite U. unfold signed_value, st_whole. simpl. destruct (Z.ltb_spec n 0); [lia|].
    rewrite Z.abs_eq by lia. by rewrite i64_small.
  - intros Hi. splits; [done|done|]. rewrite i64_small by done. apply (of_rep_small _ Hi).
  - intros Ht. splits; [done|done|]. rewrite i64_small by done. apply (of_rep_small _ Ht).
Qed.

Lemma entry_units_small e : small e -> 0 <= entry_units e <= maxMantissa.
Proof.
  destruct e as [id a|k l|id i|k t|id x|id b|id l|k]; simpl; try done.
  intros (n & -> & Hn). unfold signed_value, st_whole. simpl. destruct (Z.ltb_spec n 0); [lia|].
  rewrite Z.abs_eq by lia. by rewrite i64_small.
Qed.

(** Plus or minus a number. *)
Lemma signed_number_units z s :
  gridded 0 z -> s = 1 \/ s = -1 -> exists y, signed_number cfg z s = Ok y /\ gridded 0 y /\ units 0 y = s * units 0 z.
Proof.
  intros G Hs. unfold signed_number.
  assert (exists neg : bool, s = if neg then -1 else 1) as [neg ->] by (destruct Hs as [-> | ->]; [by exists false|by exists true]).
  rewrite of_rep_unit. cbn [bind]. rewrite number_mul_unit by (by eapply on_grid_wf).
  eexists. split; [done|]. destruct neg; [|split; [done|lia]].
  destruct (Z.eq_dec (units 0 z) 0) as [E0|E0].
  - assert (z = zero) as -> by (unfold gridded in G; rewrite E0 in G; by eapply on_grid_zero_inv).
    split; [apply gridded_zero|done].
  - pose proof (on_grid_neg 0 _ z G E0) as Gn. split; [by eapply grid_gridded|]. rewrite (units_grid 0 _ _ Gn). lia.
Qed.

(** ** One visit *)

Definition shown (x : Visit) : option Entry := if isDelete x then None else after x.

Definition vault_data (o : option Entry) : list VaultData :=
  match o with Some (e_vault k a) => [VaultData_make k a] | _ => [] end.
Definition share_data (o : option Entry) : list ShareData :=
  match o with Some (e_issuance _ i) => [ShareData_make i] | _ => [] end.

(** The change that one visit records. *)
Definition recorded (k : EntryKey) (d : Z) (ds : list (EntryKey * Number)) : Prop :=
  (d = 0 /\ ds = []) \/ (d <> 0 /\ exists z, ds = [(k, z)] /\ gridded 0 z /\ units 0 z = d).

Lemma visitEntry_spec st x k :
  small_visit x -> visit_key x = Some k -> (forall e, before x = Some e \/ after x = Some e -> entry_key e = k) ->
  exists ds, recorded k (key_sign k * (from_option entry_units 0 (before x) - from_option entry_units 0 (shown x))) ds /\
    ValidVault_visitEntry cfg st x =
    Ok (mkValidVault (afterVault_ st ++ vault_data (shown x)) (afterMPTs_ st ++ share_data (shown x))
          (beforeVault_ st ++ vault_data (before x)) (beforeMPTs_ st ++ share_data (before x)) (ds ++ deltas_ st)).
Proof.
  intros Hs Hk He. unfold ValidVault_visitEntry. fold (shown x). unfold visit_key in Hk. rewrite Hk. clear Hk.
  assert (forall e, before x = Some e \/ shown x = Some e -> small e /\ entry_key e = k) as Hse.
  { intros e Hx. assert (before x = Some e \/ after x = Some e) as Hx'.
    { destruct Hx as [|Hx]; [by left|]. unfold shown in Hx. destruct (isDelete x); [done|by right]. }
    split; [by apply Hs|by apply He]. }
  set (st' := match shown x with Some (e_vault k a) => _ | _ => _ end).
  assert (st' = mkValidVault (afterVault_ st ++ vault_data (shown x)) (afterMPTs_ st ++ share_data (shown x))
          (beforeVault_ st ++ vault_data (before x)) (beforeMPTs_ st ++ share_data (before x)) (deltas_ st)) as ->.
  { unfold st'. destruct (before x) as [[]|], (shown x) as [[]|]; simpl; rewrite ?app_nil_r; by destruct st. }
  assert (exists z, match before x ≫= entry_balance cfg with Some (s, n) => let* n := n in Ok (n, s) | None => Ok (zero, 0) end =
    Ok (z, from_option (fun _ => key_sign k) 0 (before x)) /\ gridded 0 z /\ units 0 z = from_option entry_units 0 (before x))
    as (z & -> & Gz & Uz).
  { destruct (before x) as [e|]; simpl; [|exists zero; split; [done|apply gridded_zero]].
    destruct (Hse e (or_introl eq_refl)) as [Se <-]. pose proof (entry_balance_small e Se) as Eb.
    destruct (entry_balance cfg e) as [[s n]|].
    - destruct Eb as (-> & _ & z & -> & G & U). by exists z.
    - destruct Eb as [-> ->]. exists zero. split; [done|apply gridded_zero]. }
  cbn [bind]. set (s0 := from_option (fun _ => key_sign k) 0 (before x)).
  set (d := from_option entry_units 0 (before x) - from_option entry_units 0 (shown x)).
  assert (exists y s, match shown x ≫= entry_balance cfg with
      | Some (s, n) => let* n := n in let* balance := number_sub (round_mode cfg) z n in Ok (balance, s)
      | None => Ok (z, s0) end = Ok (y, s) /\ gridded 0 y /\ units 0 y = d /\ (s = key_sign k \/ d = 0))
    as (y & s & -> & Gy & Uy & Es).
  { unfold d. destruct (shown x) as [e|] eqn:Ex; simpl.
    - destruct (Hse e (or_intror eq_refl)) as [Se Ke]. pose proof (entry_balance_small e Se) as Eb.
      pose proof (entry_units_small e Se) as Ru.
      assert (0 <= units 0 z <= maxMantissa) as Rz.
      { rewrite Uz. destruct (before x) as [b|]; simpl; [|unfold maxMantissa; lia].
        apply entry_units_small. by apply (Hse b); left. }
      destruct (entry_balance cfg e) as [[s n]|].
      + destruct Eb as (-> & _ & n' & -> & G & U). cbn [bind].
        destruct (units_sub (round_mode cfg) 0 grid_zero z n' Gz G) as (y & -> & Gy & Uy); [lia|]. cbn [bind].
        exists y, (key_sign k). splits; [by rewrite Ke|done|lia|by left].
      + destruct Eb as [E1 E2]. exists z, s0. splits; [done|done|lia|]. left. unfold s0.
        destruct (before x); simpl; [done|]. congruence.
    - exists z, s0. splits; [done|done|lia|]. unfold s0. destruct (before x) as [b|] eqn:Eb; simpl; [by left|by right]. }
  cbn [bind]. rewrite (grid_eqb 0 _ 0 y zero Gy (on_grid_zero 0)), Uy.
  destruct (Z.eqb_spec d 0) as [E0|E0].
  { rewrite andb_false_r. exists []. split; [left; split; [lia|done]|done]. }
  destruct Es as [-> |]; [|done]. cbn [negb]. rewrite andb_true_r. destruct (Z.eqb_spec (key_sign k) 0) as [K0|K0].
  { exists []. split; [left; split; [lia|done]|done]. }
  assert (key_sign k = 1 \/ key_sign k = -1) as Ks by (destruct k; simpl in *; lia).
  destruct (signed_number_units y (key_sign k) Gy Ks) as (w & Ew & Gw & Uw). cbn [negb]. rewrite Ew. cbn [bind].
  exists [(k, w)]. split; [|done]. right. split; [lia|]. exists w. splits; [done|done|lia].
Qed.

(** ** All visits *)

Definition of_key (x : Visit) (k : EntryKey) : Prop :=
  visit_key x = Some k /\ forall e, before x = Some e \/ after x = Some e -> entry_key e = k.

Definition lookup_delta (ds : list (EntryKey * Number)) (k : EntryKey) : option Number :=
  snd <$> List.find (fun p => bool_decide (p.1 = k)) ds.

Lemma lookup_delta_app ds ds' k :
  lookup_delta (ds ++ ds') k = match lookup_delta ds k with Some z => Some z | None => lookup_delta ds' k end.
Proof.
  unfold lookup_delta. induction ds as [|p ds IH]; simpl; [done|]. destruct (bool_decide _); [done|]. apply IH.
Qed.

(** The change of [d] that the list records for [k]. *)
Definition delta_is (o : option Number) (d : Z) : Prop :=
  (d = 0 /\ o = None) \/ (d <> 0 /\ exists z, o = Some z /\ gridded 0 z /\ units 0 z = d).

Lemma recorded_other k d ds k' : recorded k d ds -> k' <> k -> lookup_delta ds k' = None.
Proof.
  intros [[_ ->]|(_ & z & -> & _)] Hk; [done|]. unfold lookup_delta. simpl.
  case_bool_decide; [congruence|done].
Qed.

Lemma recorded_same k d ds : recorded k d ds -> delta_is (lookup_delta ds k) d.
Proof.
  intros [[-> ->]|(Hd & z & -> & G & U)]; [by left|]. right. split; [done|]. exists z. unfold lookup_delta. simpl.
  by rewrite bool_decide_true by done.
Qed.

Definition visit_shift (x : Visit) (k : EntryKey) : Z :=
  key_sign k * (from_option entry_units 0 (before x) - from_option entry_units 0 (shown x)).

Lemma visit_spec l st :
  NoDup (visit_key <$> l) -> (forall x, x ∈ l -> small_visit x /\ exists k, of_key x k) ->
  exists ds,
    ValidVault_visit cfg st l =
    Ok (mkValidVault (afterVault_ st ++ (l ≫= (vault_data ∘ shown))) (afterMPTs_ st ++ (l ≫= (share_data ∘ shown)))
          (beforeVault_ st ++ (l ≫= (vault_data ∘ before))) (beforeMPTs_ st ++ (l ≫= (share_data ∘ before)))
          (ds ++ deltas_ st)) /\
    (forall k, (forall x, x ∈ l -> visit_key x <> Some k) -> lookup_delta ds k = None) /\
    (forall x k, x ∈ l -> visit_key x = Some k -> delta_is (lookup_delta ds k) (visit_shift x k)).
Proof.
  revert st. induction l as [|x l IH]; intros st Hn Hl.
  { exists []. simpl. rewrite !app_nil_r. split; [by destruct st|]. split; [done|]. by intros x k Hx%elem_of_nil. }
  apply NoDup_cons in Hn as [Hx Hn]. destruct (Hl x (list_elem_of_here _ _)) as [Sx (k & Kx & Ex)].
  destruct (visitEntry_spec st x k Sx Kx Ex) as (d1 & R1 & E1).
  simpl ValidVault_visit. rewrite E1. cbn [bind].
  edestruct IH as (ds & E & Hno & Hyes); [done| |].
  { intros y Hy. apply Hl. by right. }
  rewrite E. simpl. exists (ds ++ d1). rewrite <- !app_assoc. split; [done|].
  assert (forall y, y ∈ l -> visit_key y <> Some k) as Hk.
  { intros y Hy Ek. apply Hx, list_elem_of_fmap. exists y. split; [congruence|done]. }
  split.
  - intros k' Hk'. rewrite lookup_delta_app, Hno.
    + eapply recorded_other; [exact R1|]. intros ->. by apply (Hk' x); [left|].
    + intros y Hy. apply Hk'. by right.
  - intros y k' Hy Ky. rewrite lookup_delta_app. apply elem_of_cons in Hy as [-> |Hy].
    + assert (k' = k) as -> by congruence. rewrite (Hno k Hk). by apply recorded_same.
    + destruct (Hyes y k' Hy Ky) as [[E0 ->]|(E0 & z & -> & G & U)].
      * left. split; [done|]. eapply recorded_other; [exact R1|]. intros ->. by apply (Hk y).
      * right. split; [done|]. by exists z.
Qed.

End Balances.

(** ** A described change *)

Lemma bind_unique {A} (f : Visit -> list A) l x0 :
  NoDup (visit_key <$> l) -> x0 ∈ l -> (forall x, x ∈ l -> visit_key x <> visit_key x0 -> f x = []) -> l ≫= f = f x0.
Proof.
  induction l as [|x l IH]; [by intros _ H%elem_of_nil|].
  change ((x :: l) ≫= f) with (f x ++ (l ≫= f)). intros [Hx Hn]%NoDup_cons H0 Hf.
  apply elem_of_cons in H0 as [-> |H0].
  - assert (l ≫= f = []) as ->; [|apply app_nil_r].
    assert (forall y, y ∈ l -> f y = []) as Hl.
    { intros y Hy. apply Hf; [by right|]. intros E. apply Hx. rewrite <- E. by apply list_elem_of_fmap_2. }
    clear -Hl. induction l as [|y l IH]; [done|]. change ((y :: l) ≫= f) with (f y ++ (l ≫= f)). rewrite Hl by left. apply IH. intros z Hz. apply Hl. by right.
  - rewrite Hf; [|left|]; [|intros E; apply Hx; rewrite E; by apply list_elem_of_fmap_2].
    simpl. apply IH; [done|done|]. intros y Hy. apply Hf. by right.
Qed.

Lemma find_unique {A} (f : Visit -> list A) (P : A -> bool) l x0 s :
  NoDup (visit_key <$> l) -> x0 ∈ l -> f x0 = [s] -> P s = true ->
  (forall x a, x ∈ l -> visit_key x <> visit_key x0 -> a ∈ f x -> P a = false) -> List.find P (l ≫= f) = Some s.
Proof.
  induction l as [|x l IH]; [by intros _ H%elem_of_nil|].
  change ((x :: l) ≫= f) with (f x ++ (l ≫= f)). intros [Hx Hn]%NoDup_cons H0 Es HP Hf.
  apply elem_of_cons in H0 as [-> |H0]; [by rewrite Es; simpl; rewrite HP|].
  assert (List.find P (f x) = None) as E.
  { destruct (List.find P (f x)) as [a|] eqn:Ea; [|done]. apply List.find_some in Ea as [Ha Pa].
    apply list_elem_of_In in Ha. rewrite (Hf x a) in Pa; [done|left| |done].
    intros Ek. apply Hx. rewrite Ek. by apply list_elem_of_fmap_2. }
  assert (forall l1 l2, List.find P (l1 ++ l2) = match List.find P l1 with Some a => Some a | None => List.find P l2 end) as Happ.
  { intros l1 l2. induction l1 as [|a l1 IH1]; simpl; [done|]. by destruct (P a). }
  rewrite Happ, E. apply IH; [done|done|done|done|]. intros y a Hy. apply Hf. by right.
Qed.

(** Issuances are named by their issuer and sequence number. *)
Definition named (v : View) : Prop :=
  forall id i, issuances v !! id = Some i -> makeMptID (iss_Sequence i) (iss_Issuer i) = id.

(** The change of one vault, with balances that are exact. *)
Record small_change (v v' : View) (vid : Z) (l : list Visit) : Prop := {
  sc_describes : describes v v' l;
  sc_small : forall x, x ∈ l -> small_visit x;
  sc_vault : forall x id, x ∈ l -> visit_key x = Some (k_vault id) -> id = vid;
  sc_named : named v;
  sc_named' : named v' }.

Section Change.
Context (cfg : Settings) (v v' : View) (vid : Z) (l : list Visit) (C : small_change v v' vid l).

Lemma shows_of_key k x : shows v v' k x -> of_key x k.
Proof.
  intros S. split; [by eapply shows_key|]. destruct S as [Hb Hx]. intros e [E|E].
  - rewrite Hb in E. by eapply entry_at_key.
  - destruct (isDelete x).
    + destruct Hx as (_ & _ & e' & Ea & Ke). congruence.
    + destruct Hx as [Ea _]. rewrite Ea in E. by eapply entry_at_key.
Qed.

Lemma shows_shown k x : shows v v' k x -> shown x = entry_at v' k.
Proof. intros [_ Hx]. unfold shown. destruct (isDelete x); [by destruct Hx as (_ & -> & _)|by destruct Hx]. Qed.

Lemma visits_of_key x : x ∈ l -> exists k, of_key x k.
Proof.
  intros Hx. destruct (ds_shows _ _ _ (sc_describes _ _ _ _ C) x Hx) as [(k & Ek & He)|[k S]].
  - exists (k_other k). split; [done|]. intros e E. by rewrite (He e E).
  - exists k. by apply shows_of_key.
Qed.

Lemma visits_show x k : x ∈ l -> visit_key x = Some k -> key_sign k <> 0 \/ (exists id, k = k_vault id) -> shows v v' k x.
Proof.
  intros Hx Ek Hk. destruct (ds_shows _ _ _ (sc_describes _ _ _ _ C) x Hx) as [(k' & Ek' & _)|[k' S]].
  - assert (k = k_other k') as -> by congruence. destruct Hk as [Hk|[id Hk]]; done.
  - assert (k' = k) as -> by (apply shows_key in S; congruence). done.
Qed.

(** What the checker has after all visits. *)
Lemma visited_state :
  exists st, ValidVault_visit cfg ValidVault_init l = Ok st /\
    afterVault_ st = l ≫= (vault_data ∘ shown) /\ afterMPTs_ st = l ≫= (share_data ∘ shown) /\
    beforeVault_ st = l ≫= (vault_data ∘ before) /\ beforeMPTs_ st = l ≫= (share_data ∘ before) /\
    forall k, key_sign k <> 0 -> delta_is (find_delta st k) (key_sign k * (units_at v k - units_at v' k)).
Proof.
  destruct C as [D Sm Sv Na Nb].
  destruct (visit_spec cfg l ValidVault_init (ds_distinct _ _ _ D)) as (ds & E & Hno & Hyes).
  { intros x Hx. split; [by apply Sm|by apply visits_of_key]. }
  eexists. split; [exact E|]. simpl. splits; [done|done|done|done|]. intros k Hk.
  change (find_delta _ k) with (lookup_delta (ds ++ []) k). rewrite app_nil_r.
  destruct (decide (Exists (fun x => visit_key x = Some k) l)) as [Hex|Hex].
  - apply Exists_exists in Hex as (x & Hx & Ek). pose proof (Hyes x k Hx Ek) as Hd.
    assert (shows v v' k x) as S by (apply visits_show; auto). unfold visit_shift in Hd.
    rewrite (shows_shown _ _ S), (proj1 S) in Hd. exact Hd.
  - left. assert (forall x, x ∈ l -> visit_key x <> Some k) as Hn.
    { intros x Hx Ek. apply Hex, Exists_exists. eauto. }
    split; [|by apply Hno]. destruct (Z.eq_dec (units_at v k) (units_at v' k)) as [|Hne]; [lia|].
    destruct (ds_complete _ _ _ D k) as (x & Hx & S); [unfold units_at in Hne; congruence|]. exfalso. apply (Hn x Hx). by eapply shows_key.
Qed.

(** The vault is the only one. *)
Lemma visited_vault x x' :
  vaults v !! vid = Some x -> vaults v' !! vid = Some x' -> x <> x' ->
  l ≫= (vault_data ∘ shown) = [VaultData_make vid x'] /\ l ≫= (vault_data ∘ before) = [VaultData_make vid x].
Proof.
  intros Hx Hx' Hne. destruct C as [D Sm Sv Na Nb].
  destruct (ds_complete _ _ _ D (k_vault vid)) as (y & Hy & S); [simpl; rewrite Hx, Hx'; simpl; congruence|].
  assert (forall (o : Visit -> option Entry), (forall z, o z = before z \/ o z = shown z) ->
    l ≫= (vault_data ∘ o) = vault_data (o y)) as Hb.
  { intros o Ho. apply (bind_unique (vault_data ∘ o)); [apply D|done|]. intros z Hz Hk. simpl.
    destruct (o z) as [e|] eqn:Eo; [|done]. destruct e; try done. exfalso. apply Hk.
    rewrite (shows_key _ _ _ _ S). destruct (visits_of_key z Hz) as (k & Kz & Kez).
    assert (k = k_vault id) as ->.
    { symmetry. change (entry_key (e_vault id x0) = k). apply Kez. destruct (Ho z) as [E|E]; rewrite E in Eo; [by left|].
      right. unfold shown in Eo. by destruct (isDelete z). }
    rewrite Kz. do 2 f_equal. by apply (Sv z). }
  rewrite (Hb shown) by auto. rewrite (Hb before) by auto.
  rewrite (shows_shown _ _ S), (proj1 S). simpl. by rewrite Hx, Hx'.
Qed.

(** The shares are found by their name. *)
Lemma visited_shares t i i' :
  issuances v !! t = Some i -> issuances v' !! t = Some i' -> i <> i' ->
  find_shares t (l ≫= (share_data ∘ shown)) = Some (ShareData_make i') /\
  find_shares t (l ≫= (share_data ∘ before)) = Some (ShareData_make i).
Proof.
  intros Hi Hi' Hne. destruct C as [D Sm Sv Na Nb].
  destruct (ds_complete _ _ _ D (k_issuance t)) as (y & Hy & S); [simpl; rewrite Hi, Hi'; simpl; congruence|].
  assert (forall (o : Visit -> option Entry) w, (forall z k, shows v v' k z -> o z = entry_at w k) -> (w = v \/ w = v') ->
    (forall z, o z = before z \/ o z = shown z) -> forall j, issuances w !! t = Some j ->
    find_shares t (l ≫= (share_data ∘ o)) = Some (ShareData_make j)) as Hf.
  { intros o w Ho Hw Hoz j Hj. assert (named w) as Nw by (by destruct Hw as [-> | ->]).
    eapply (find_unique (share_data ∘ o) _ l y); [apply D|done| | |].
    - simpl. rewrite (Ho y _ S). simpl. by rewrite Hj.
    - simpl. apply Z.eqb_eq. by apply Nw.
    - intros z a Hz Hk Ha. simpl in Ha. destruct (o z) as [[]|] eqn:Eo; simpl in Ha; try by apply elem_of_nil in Ha.
      apply list_elem_of_singleton in Ha as ->. simpl. apply Z.eqb_neq. intros E. apply Hk. rewrite (shows_key _ _ _ _ S).
      destruct (visits_of_key z Hz) as (k & Kz & Kez).
      assert (k = k_issuance id) as ->.
      { symmetry. change (entry_key (e_issuance id i0) = k). apply Kez. destruct (Hoz z) as [E'|E']; rewrite E' in Eo; [by left|].
        right. unfold shown in Eo. by destruct (isDelete z). }
      assert (shows v v' (k_issuance id) z) as Sz by (apply visits_show; [done|done|by left]). rewrite (Ho z _ Sz) in Eo. simpl in Eo.
      destruct (issuances w !! id) as [i1|] eqn:Ei; [|done]. simpl in Eo. injection Eo as ->. rewrite (Nw _ _ Ei) in E. congruence. }
  split; [apply (Hf shown v'); auto; intros z k; apply shows_shown|apply (Hf before v); auto; by intros z k []].
Qed.

End Change.
