(* ===== verification/InvariantVaults.v ===== *)
(** * Vault transactions pass the checker of vaults *)

From S2P Require Import Prelude.
From S2P Require Import Ter.
From S2P Require Import XrplNumber.
From S2P Require Import XrplNumberFacts.
From S2P Require Import XrplNumberGrid.
From S2P Require Import Amounts.
From S2P Require Import AmountsFacts.
From S2P Require Import AmountsRound.
From S2P Require Import AmountsWhole.
From S2P Require Import Lending.
From S2P Require Import LedgerState.
From S2P Require Import Holdings.
From S2P Require Import Transfers.
From S2P Require Import TransfersMPT.
From S2P Require Import TransfersHoldings.
From S2P Require Import Vaults.
From S2P Require Import VaultFunds.
From S2P Require Import LoanManage.
From S2P Require Import LoanBooks.
From S2P Require Import LoanCoverFacts.
From S2P Require Import VaultFacts.
From S2P Require Import VaultBooks.
From S2P Require Import Invariants.
From S2P Require Import InvariantFacts.
From stdpp Require Import gmap list.

Local Open Scope Z_scope.

(** ** Comparisons in units *)

Lemma units_eqb x y : gridded 0 x -> gridded 0 y -> number_eqb x y = (units 0 x =? units 0 y).
Proof. apply grid_eqb. Qed.

Lemma units_ltb_zero x : gridded 0 x -> number_ltb x zero = (units 0 x <? 0).
Proof. destruct (gridded_zero 0) as [Gz Uz]. intros G. by rewrite (units_ltb 0 _ _ G Gz), Uz. Qed.

Lemma units_gtb_zero x : gridded 0 x -> number_gtb x zero = (0 <? units 0 x).
Proof. destruct (gridded_zero 0) as [Gz Uz]. intros G. unfold number_gtb. by rewrite (units_ltb 0 _ _ Gz G), Uz. Qed.

Lemma units_leb_zero x : gridded 0 x -> number_leb x zero = (units 0 x <=? 0).
Proof.
  intros G. unfold number_leb. change (number_ltb zero x) with (number_gtb x zero). rewrite units_gtb_zero by done.
  symmetry. apply Z.leb_antisym.
Qed.

Lemma units_geb_zero x : gridded 0 x -> number_geb x zero = (0 <=? units 0 x).
Proof. intros G. unfold number_geb. rewrite units_ltb_zero by done. symmetry. apply Z.leb_antisym. Qed.

Lemma units_eqb_zero x : gridded 0 x -> number_eqb x zero = (units 0 x =? 0).
Proof. destruct (gridded_zero 0) as [Gz Uz]. intros G. by rewrite (units_eqb _ _ G Gz), Uz. Qed.

Lemma delta_some o d : delta_is o d -> d <> 0 -> exists z, o = Some z /\ gridded 0 z /\ units 0 z = d.
Proof. intros [[E _]|[_ H]] Hd; done. Qed.

Lemma delta_none o : delta_is o 0 -> o = None.
Proof. by intros [[_ E]|[E _]]. Qed.

(** ** Parts of the check *)

Section Parts.
Context (cfg : Settings).

Lemma deltaAssets_units st t y d :
  delta_is (find_delta st (k_token (t, y))) d ->
  exists o, deltaAssets cfg st (AMPT t) y = Ok o /\ delta_is o d.
Proof.
  intros [[-> E]|(Hd & z & E & G & U)]; unfold deltaAssets; rewrite E.
  - exists None. split; [done|by left].
  - destruct (signed_number_units cfg z 1 G) as (w & -> & Gw & Uw); [by left|]. exists (Some w). split; [done|].
    right. split; [done|]. exists w. splits; [done|done|lia].
Qed.

Lemma account_delta_units st t y d fee :
  delta_is (find_delta st (k_token (t, y))) d ->
  exists o, account_delta cfg st (AMPT t) y fee = Ok o /\ delta_is o d.
Proof.
  intros Hd. destruct (deltaAssets_units _ _ _ _ Hd) as (o & E & Ho). unfold account_delta. rewrite E. cbn [bind].
  destruct Ho as [[-> ->]|(H0 & z & -> & G & U)]; [exists None; split; [done|by left]|]. cbn [asset_native bind].
  rewrite units_eqb_zero by done. destruct (Z.eqb_spec (units 0 z) 0); [lia|].
  exists (Some z). split; [done|]. right. split; [done|]. by exists z.
Qed.

Lemma shares_match_units z w :
  gridded 0 z -> gridded 0 w -> units 0 w = - units 0 z -> shares_match cfg z w = Ok true.
Proof.
  intros Gz Gw U. unfold shares_match. destruct (signed_number_units cfg w (-1) Gw) as (y & -> & Gy & Uy); [by right|].
  cbn [bind]. rewrite units_eqb by done. do 2 f_equal. apply Z.eqb_eq. lia.
Qed.

(** A vault before and after a change of its assets. *)
Record assets_changed (b a : VaultData) (d : Z) : Prop := {
  ac_total : gridded 0 (vd_assetsTotal b);
  ac_available : gridded 0 (vd_assetsAvailable b);
  ac_total' : gridded 0 (vd_assetsTotal a);
  ac_available' : gridded 0 (vd_assetsAvailable a);
  ac_totals : units 0 (vd_assetsTotal a) = units 0 (vd_assetsTotal b) + d;
  ac_availables : units 0 (vd_assetsAvailable a) = units 0 (vd_assetsAvailable b) + d }.

Lemma books_add_up_units b a d z :
  assets_changed b a d -> gridded 0 z -> units 0 z = d -> books_add_up cfg b a z = Ok true.
Proof.
  intros [G1 G2 G3 G4 U1 U2] Gz Uz. unfold books_add_up.
  pose proof (gridded_bound 0 _ G3). pose proof (gridded_bound 0 _ G4).
  destruct (units_add (round_mode cfg) 0 grid_zero _ _ G1 Gz) as (t & -> & Gt & Ut); [lia|]. cbn [bind].
  destruct (units_add (round_mode cfg) 0 grid_zero _ _ G2 Gz) as (w & -> & Gw & Uw); [lia|]. cbn [bind].
  rewrite !units_eqb by done. do 2 f_equal. apply andb_true_iff. split; apply Z.eqb_eq; lia.
Qed.

End Parts.

(** ** A move that the checker sees *)

(** The shares are issued by the account of the vault, which does not issue the asset; the
    parties are other accounts; and something moved. *)
Record visible (v v' : View) (vid : Z) (x : Vault) (id party d owner n : Z) (l : list Visit) : Prop := {
  vs_change : small_change v v' vid l;
  vs_issuer : mptIssuer (vault_ShareMPTID x) = vault_Account x;
  vs_asset : vault_Account x <> mptIssuer id;
  vs_party : party <> vault_Account x;
  vs_owner : owner <> vault_Account x;
  vs_assets : d <> 0;
  vs_shares : n <> 0;
  vs_maximum : number_ltb (vault_AssetsMaximum x) zero = false;
  vs_bound : outstanding v (vault_ShareMPTID x) <= maximum_of v (vault_ShareMPTID x) }.

Section Checked.
Context (cfg : Settings) (v v' : View) (vid : Z) (x : Vault) (i : MPTokenIssuance) (id party d owner n : Z)
  (l : list Visit).
Context (B : banking cfg v vid x i id) (M : vault_moved v v' vid x id party d owner n)
  (V : visible v v' vid x id party d owner n l).

Let share := vault_ShareMPTID x.
Let pseudo := vault_Account x.

Lemma pseudo_owner : (owner =? pseudo) = false /\ (pseudo =? owner) = false.
Proof. pose proof (vs_owner _ _ _ _ _ _ _ _ _ _ V). unfold pseudo. split; apply Z.eqb_neq; congruence. Qed.

Lemma pseudo_party : (party =? pseudo) = false /\ (pseudo =? party) = false.
Proof. pose proof (vs_party _ _ _ _ _ _ _ _ _ _ V). unfold pseudo. split; apply Z.eqb_neq; congruence. Qed.

Lemma outstanding_moved : outstanding v' share = outstanding v share + n.
Proof.
  pose proof (vm_owners _ _ _ _ _ _ _ _ _ M (mptIssuer share)) as E. fold share in E. rewrite !balance_issuer in E.
  unfold share at 3 4 in E. rewrite (vs_issuer _ _ _ _ _ _ _ _ _ _ V) in E. fold pseudo in E.
  rewrite Z.eqb_refl, (proj1 pseudo_owner) in E. lia.
Qed.

(** Holdings of accounts that do not issue are balances. *)
Lemma token_units w t y : y <> mptIssuer t -> units_at w (k_token (t, y)) = mpt_balance w t y.
Proof.
  intros Hy. unfold units_at, mpt_balance, holding. apply Z.eqb_neq in Hy. rewrite Hy. simpl.
  by destruct (tokens w !! (t, y)).
Qed.

Lemma issuance_units w t : units_at w (k_issuance t) = outstanding w t.
Proof. unfold units_at, outstanding. simpl. by destruct (issuances w !! t). Qed.

(** What the checker knows after its visits. *)
Record checked (st : ValidVault) (a : Vault) (s : MPTokenIssuance) : Prop := {
  ck_visit : ValidVault_visit cfg ValidVault_init l = Ok st;
  ck_after : afterVault_ st = [VaultData_make vid a];
  ck_before : beforeVault_ st = [VaultData_make vid x];
  ck_shares : find_shares share (afterMPTs_ st) = Some (ShareData_make s);
  ck_shares_before : find_shares share (beforeMPTs_ st) = Some (ShareData_make i);
  ck_vault : exists t av, a = set_vault_assets x t av /\ assets_changed (VaultData_make vid x) (VaultData_make vid a) d;
  ck_found : vaults v' !! vid = Some a;
  ck_outstanding : iss_OutstandingAmount s = outstanding v share + n;
  ck_maximum : iss_OutstandingAmount s <= maximum s;
  ck_books : vault_books 0 vid v' a;
  ck_assets : forall y, y <> mptIssuer id ->
    delta_is (find_delta st (k_token (id, y))) ((if pseudo =? y then d else 0) - (if party =? y then d else 0));
  ck_owner : delta_is (find_delta st (k_token (share, owner))) n;
  ck_issued : delta_is (find_delta st (k_issuance share)) (- n) }.

Lemma move_checked : exists st a s, checked st a s.
Proof.
  destruct M as [(t & av & Ev & Ut & Ua) Eb El Bk Wa Ws Tm Hbound Ba Bs]. fold share in Ws, Hbound, Bs.
  pose proof (banking_vault _ _ _ _ _ _ B) as TV. pose proof outstanding_moved as Eo.
  destruct (visited_state cfg v v' vid l (vs_change _ _ _ _ _ _ _ _ _ _ V)) as (st & E & E1 & E2 & E3 & E4 & Hd).
  destruct (bk_issuance _ _ _ Ws) as [s Hs].
  assert (outstanding v' share = iss_OutstandingAmount s) as Os by (unfold outstanding; by rewrite Hs).
  assert (outstanding v share = iss_OutstandingAmount i) as Oi
    by (unfold outstanding; by rewrite (bv_shares _ _ _ _ _ _ B : issuances v !! share = _)).
  pose proof (vs_shares _ _ _ _ _ _ _ _ _ _ V) as Hn. pose proof (vs_assets _ _ _ _ _ _ _ _ _ _ V) as Hdd.
  set (a := set_vault_assets x t av) in *.
  assert (vaults v' !! vid = Some a) as Ha by (by rewrite Ev, lookup_insert_eq).
  destruct (visited_vault v v' vid l (vs_change _ _ _ _ _ _ _ _ _ _ V) x a (bv_vault _ _ _ _ _ _ B) Ha) as [A1 A2].
  { intros Ex. assert (vault_AssetsTotal x = t) as Et by (by rewrite Ex). rewrite <- Et in Ut. lia. }
  destruct (visited_shares v v' vid l (vs_change _ _ _ _ _ _ _ _ _ _ V) share i s (bv_shares _ _ _ _ _ _ B) Hs)
    as [S1 S2]; [intros ->; lia|].
  destruct (bal_vault _ _ _ Bk) as (a' & Ha' & Vb). assert (a' = a) as -> by congruence.
  exists st, a, s. split.
  - done.
  - by rewrite E1.
  - by rewrite E3.
  - by rewrite E2.
  - by rewrite E4.
  - exists t, av. split; [done|]. split; simpl; [apply TV|apply TV|apply Vb|apply Vb|done|done].
  - done.
  - lia.
  - pose proof (vs_bound _ _ _ _ _ _ _ _ _ _ V) as Hb. fold share in Hb.
    assert (maximum s = maximum_of v share) as ->; [|lia].
    rewrite <- (terms_maximum _ _ _ (Tm share)). unfold maximum_of. by rewrite Hs.
  - done.
  - intros y Hy. pose proof (Hd (k_token (id, y)) ltac:(done)) as D. rewrite !token_units, Ba in D by done.
    fold pseudo in D. simpl key_sign in D.
    match goal with D : delta_is _ ?e |- delta_is _ ?f => replace f with e by lia; exact D end.
  - pose proof (Hd (k_token (share, owner)) ltac:(done)) as D.
    assert (owner <> mptIssuer share) as Hy.
    { unfold share. rewrite (vs_issuer _ _ _ _ _ _ _ _ _ _ V). apply (vs_owner _ _ _ _ _ _ _ _ _ _ V). }
    rewrite !token_units, Bs in D by done. fold pseudo in D. rewrite Z.eqb_refl, (proj2 pseudo_owner) in D. simpl key_sign in D.
    match goal with D : delta_is _ ?e |- delta_is _ ?f => replace f with e by lia; exact D end.
  - pose proof (Hd (k_issuance share) ltac:(done)) as D. rewrite !issuance_units, Eo in D. simpl key_sign in D.
    match goal with D : delta_is _ ?e |- delta_is _ ?f => replace f with e by lia; exact D end.
Qed.

Section State.
Context (st : ValidVault) (a : Vault) (s : MPTokenIssuance) (K : checked st a s).

Lemma asset_moved : vd_asset (VaultData_make vid a) = AMPT id /\ vd_pseudoId (VaultData_make vid a) = pseudo.
Proof. destruct (ck_vault _ _ _ K) as (t & av & -> & _). split; [apply (bv_asset _ _ _ _ _ _ B)|done]. Qed.

(** The changes that all three transactions look at. *)
Lemma deltas_moved :
  exists z m w, deltaAssets cfg st (AMPT id) pseudo = Ok (Some z) /\ gridded 0 z /\ units 0 z = d /\
    deltaShares st (VaultData_make vid a) owner = Some m /\ gridded 0 m /\ units 0 m = n /\
    deltaShares st (VaultData_make vid a) pseudo = Some w /\ gridded 0 w /\ units 0 w = - n.
Proof.
  destruct asset_moved as [_ Ep]. destruct (ck_vault _ _ _ K) as (t & av & Ea & _).
  pose proof (vs_shares _ _ _ _ _ _ _ _ _ _ V) as Hn. pose proof (vs_assets _ _ _ _ _ _ _ _ _ _ V) as Hd.
  pose proof (ck_assets _ _ _ K pseudo (vs_asset _ _ _ _ _ _ _ _ _ _ V)) as D. rewrite Z.eqb_refl, (proj1 pseudo_party) in D.
  destruct (deltaAssets_units cfg _ _ _ _ D) as (o & Eo & Ho). destruct (delta_some _ _ Ho) as (z & -> & Gz & Uz); [lia|].
  destruct (delta_some _ _ (ck_owner _ _ _ K) Hn) as (m & Em & Gm & Um).
  destruct (delta_some _ _ (ck_issued _ _ _ K)) as (w & Ew & Gw & Uw); [lia|].
  exists z, m, w. unfold deltaShares. rewrite Ep, Z.eqb_refl, (proj1 pseudo_owner).
  assert (vd_shareMPTID (VaultData_make vid a) = share) as -> by (by rewrite Ea).
  splits; [done|done|lia|done|done|done|done|done|done].
Qed.

(** A vault without shares has no assets. *)
Context (Empty : iss_OutstandingAmount s = 0 -> units 0 (vault_AssetsTotal a) = 0 /\ units 0 (vault_AssetsAvailable a) = 0).

Lemma universal_checked : universal_valid cfg (VaultData_make vid a) (ShareData_make s) = Ok true.
Proof.
  destruct (ck_books _ _ _ K) as [G1 G2 G3 A0 Al Ap]. destruct (ck_vault _ _ _ K) as (t & av & Ea & _).
  pose proof (paper_lent vid v' (vm_books _ _ _ _ _ _ _ _ _ M)) as PL. pose proof (gridded_bound 0 _ G1).
  pose proof (gridded_bound 0 _ G2). pose proof (ck_maximum _ _ _ K) as Hmax.
  unfold universal_valid. simpl. rewrite (units_gtb 0 _ _ G2 G1).
  destruct (Z.ltb_spec (units 0 (vault_AssetsTotal a)) (units 0 (vault_AssetsAvailable a))); [lia|].
  destruct (units_sub (round_mode cfg) 0 grid_zero _ _ G1 G2) as (z & -> & Gz & Uz); [lia|]. cbn [bind].
  rewrite (units_gtb 0 _ _ G3 Gz), !units_ltb_zero by done.
  assert (number_ltb (vault_AssetsMaximum a) zero = false) as ->
    by (rewrite Ea; apply (vs_maximum _ _ _ _ _ _ _ _ _ _ V)).
  destruct (Z.ltb_spec (units 0 z) (units 0 (vault_LossUnrealized a))); [lia|].
  destruct (Z.ltb_spec (units 0 (vault_AssetsAvailable a)) 0); [lia|].
  destruct (Z.ltb_spec (units 0 (vault_AssetsTotal a)) 0); [lia|]. f_equal. rewrite !andb_true_r.
  destruct (Z.eqb_spec (iss_OutstandingAmount s) 0) as [E0|].
  - destruct (Empty E0) as [E1 E2]. rewrite !units_eqb_zero, E1, E2 by done. done.
  - unfold maximum in Hmax. destruct (Z.ltb_spec (default maxMPTokenAmount (iss_MaximumAmount s)) (iss_OutstandingAmount s)); [lia|done].
Qed.

Lemma updated_checked tx fee :
  updates_shares (ct_type tx) = true ->
  operation_valid cfg st v' tx fee (Some (VaultData_make vid x)) (VaultData_make vid a) (Some (ShareData_make i)) (ShareData_make s)
    = Ok true ->
  ValidVault_check cfg v' l tx tesSUCCESS fee = Ok true.
Proof.
  intros Ht Ho. destruct (ck_vault _ _ _ K) as (t & av & Ea & _).
  unfold ValidVault_check. rewrite (ck_visit _ _ _ K). cbn [bind]. unfold ValidVault_finalize. cbn [isTesSuccess negb].
  rewrite (ck_before _ _ _ K), (ck_after _ _ _ K).
  assert (hasPrivilege (ct_type tx) mustModifyVault = true) as -> by (by destruct (ct_type tx)). cbn [orb negb].
  rewrite bool_decide_false by (intros E; by rewrite E in Ht). change (head [VaultData_make vid x]) with (Some (VaultData_make vid x)). unfold updated_valid.
  assert (vd_shareMPTID (VaultData_make vid a) = share) as Es by (by rewrite Ea). rewrite Es, (ck_shares _ _ _ K).
  rewrite universal_checked. cbn [bind]. rewrite bool_decide_true by done. cbn [negb andb].
  change (vd_shareMPTID (VaultData_make vid x)) with share. rewrite (ck_shares_before _ _ _ K), bool_decide_true by done.
  cbn [negb andb]. rewrite Ho. cbn [bind]. f_equal.
  assert (immutable_data (VaultData_make vid x) (VaultData_make vid a) = true) as ->.
  { rewrite Ea. unfold immutable_data. simpl. rewrite !Z.eqb_refl, !andb_true_r. rewrite (bv_asset _ _ _ _ _ _ B). apply Z.eqb_refl. }
  assert (number_eqb (vd_lossUnrealized (VaultData_make vid a)) (vd_lossUnrealized (VaultData_make vid x)) = true) as ->; [|done].
  rewrite Ea. simpl. unfold number_eqb. by rewrite !Z.eqb_refl.
Qed.

End State.

(** ** The three transactions *)

Lemma within_over y : over_maximum y = false -> within_maximum (VaultData_make vid y) = true.
Proof.
  unfold over_maximum, within_maximum. simpl. destruct (number_eqb (vault_AssetsMaximum y) zero) eqn:E; simpl.
  - assert (vault_AssetsMaximum y = zero) as ->; [|done].
    unfold number_eqb in E. zbool. destruct (vault_AssetsMaximum y). simpl in *. by subst.
  - intros ->. by rewrite andb_false_r.
Qed.

Lemma deposit_paid_checked st a s tx fee z :
  checked st a s -> ct_Account tx = party -> 0 < d -> gridded 0 z -> units 0 z = d ->
  deposit_paid cfg st (AMPT id) tx fee z = Ok (Some true).
Proof.
  intros K Ep Hd Gz Uz. unfold deposit_paid, is_issuer. cbn [asset_native negb andb getIssuer].
  rewrite Ep. destruct (Z.eqb_spec party (mptIssuer id)) as [|Hne]; [done|].
  pose proof (ck_assets _ _ _ K party Hne) as D. rewrite (proj2 pseudo_party), Z.eqb_refl in D.
  destruct (account_delta_units cfg _ _ _ _ fee D) as (o & -> & Ho). cbn [bind].
  destruct (delta_some _ _ Ho) as (p & -> & Gp & Up); [lia|].
  destruct (signed_number_units cfg p (-1) Gp) as (r & -> & Gr & Ur); [by right|]. cbn [bind].
  rewrite units_geb_zero, units_eqb by done. do 2 f_equal. apply andb_true_iff.
  split; [apply negb_true_iff, Z.leb_gt|apply Z.eqb_eq]; lia.
Qed.

(** The account of the transaction does not get the assets when another account does. *)
Lemma withdraw_paid_checked st a s tx fee z :
  checked st a s -> default (ct_Account tx) (ct_Destination tx) = party -> ct_Account tx <> pseudo ->
  d < 0 -> gridded 0 z -> units 0 z = d -> (ct_Account tx <> mptIssuer id \/ ct_Account tx = party) ->
  withdraw_paid cfg st (AMPT id) tx fee z = Ok (Some true).
Proof.
  intros K Ep Hps Hd Gz Uz Hi. unfold withdraw_paid, is_issuer. cbn [asset_native negb andb getIssuer].
  rewrite Ep. destruct (Z.eqb_spec party (mptIssuer id)) as [|Hne]; [done|].
  pose proof (ck_assets _ _ _ K party Hne) as D. rewrite (proj2 pseudo_party), Z.eqb_refl in D.
  destruct (signed_number_units cfg z (-1) Gz) as (r & Er & Gr & Ur); [by right|].
  assert (forall p, gridded 0 p -> units 0 p = - d -> negb (number_leb p zero) && number_eqb r p = true) as Hp.
  { intros p Gp Up. rewrite units_leb_zero, units_eqb by done. apply andb_true_iff.
    split; [apply negb_true_iff, Z.leb_gt|apply Z.eqb_eq]; lia. }
  destruct (Z.eq_dec (ct_Account tx) party) as [Eq|Nq].
  - rewrite Eq. destruct (account_delta_units cfg _ _ _ _ fee D) as (o & -> & Ho). cbn [bind].
    destruct (delta_some _ _ Ho) as (p & -> & Gp & Up); [lia|].
    assert (match ct_Destination tx with Some dst => if dst =? party then Ok None else deltaAssets cfg st (AMPT id) dst
            | None => Ok None end = Ok None) as ->.
    { destruct (ct_Destination tx); [|done]. simpl in Ep. by rewrite Ep, Z.eqb_refl. }
    cbn [bind]. rewrite Er. cbn [bind]. rewrite Hp by (done || lia). done.
  - destruct Hi as [Hi|Hi]; [|contradiction]. pose proof (ck_assets _ _ _ K (ct_Account tx) Hi) as Do.
    destruct (Z.eqb_spec pseudo (ct_Account tx)); [congruence|]. destruct (Z.eqb_spec party (ct_Account tx)); [congruence|].
    destruct (account_delta_units cfg _ _ _ _ fee Do) as (o & -> & Ho%delta_none). cbn [bind]. rewrite Ho.
    destruct (ct_Destination tx) as [dst|]; [change (dst = party) in Ep; subst dst|change (ct_Account tx = party) in Ep; contradiction].
    destruct (Z.eqb_spec party (ct_Account tx)); [congruence|].
    destruct (deltaAssets_units cfg _ _ _ _ D) as (o' & -> & Ho'). destruct (delta_some _ _ Ho') as (p & -> & Gp & Up); [lia|].
    cbn [bind]. rewrite Er. cbn [bind]. rewrite Hp by (done || lia). done.
Qed.

Lemma deposit_checked tx fee amt y :
  ct_type tx = ttVAULT_DEPOSIT -> ct_Account tx = party -> owner = party -> ct_Amount tx = mpt_amount id amt ->
  0 < d <= amt -> amt <= maxMantissa -> 0 < n -> vaults v' !! vid = Some y -> over_maximum y = false ->
  ValidVault_check cfg v' l tx tesSUCCESS fee = Ok true.
Proof.
  intros Et Ep Eow Eamt Hd Hm Hn Hy Hover. destruct move_checked as (st & a & s & K).
  assert (y = a) as -> by (pose proof (ck_found _ _ _ K); congruence).
  pose proof (ck_outstanding _ _ _ K) as Eo. pose proof (books_outstanding_pos _ _ _ (bv_share_tokens _ _ _ _ _ _ B)) as O0.
  fold share in O0. apply (updated_checked st a s K); [lia|by rewrite Et|]. unfold operation_valid. rewrite Et.
  destruct (deltas_moved st a s K) as (z & m & w & E1 & Gz & Uz & E2 & Gm & Um & E3 & Gw & Uw).
  destruct (asset_moved st a s K) as [Ea Epp]. unfold deposit_valid. rewrite Ea, Epp, E1, Eamt. cbn [bind].
  destruct (number_of_mpt cfg id amt) as (q & Eq & Gq & Uq); [lia|]. rewrite Eq. cbn [bind].
  rewrite (units_gtb 0 _ _ Gz Gq), Uq, Uz, units_leb_zero, Uz by done.
  destruct (Z.ltb_spec amt d); [lia|]. destruct (Z.leb_spec d 0); [lia|]. cbn [negb andb].
  rewrite (deposit_paid_checked st a s tx fee z K) by (done || lia).
  cbn [bind]. rewrite Ep, <- Eow, E2, E3, (shares_match_units cfg m w) by (done || lia). cbn [bind].
  destruct (ck_vault _ _ _ K) as (t & av & _ & Ac). rewrite (books_add_up_units cfg _ _ _ z Ac) by done. cbn [bind].
  rewrite (within_over a Hover), units_leb_zero, Um by done. destruct (Z.leb_spec n 0); [lia|]. done.
Qed.

(** A withdrawal and a clawback burn shares, which may leave the vault without any. *)
Definition empties : Prop :=
  forall y, vaults v' !! vid = Some y -> outstanding v' share = 0 ->
    units 0 (vault_AssetsTotal y) = 0 /\ units 0 (vault_AssetsAvailable y) = 0.

Lemma empties_checked st a s :
  empties -> checked st a s -> iss_OutstandingAmount s = 0 ->
  units 0 (vault_AssetsTotal a) = 0 /\ units 0 (vault_AssetsAvailable a) = 0.
Proof.
  intros Hm K E. apply Hm; [apply (ck_found _ _ _ K)|]. rewrite outstanding_moved, <- (ck_outstanding _ _ _ K). exact E.
Qed.

Lemma withdraw_checked tx fee :
  empties -> ct_type tx = ttVAULT_WITHDRAW -> ct_Account tx = owner ->
  default (ct_Account tx) (ct_Destination tx) = party -> (owner <> mptIssuer id \/ owner = party) -> d < 0 -> n < 0 ->
  ValidVault_check cfg v' l tx tesSUCCESS fee = Ok true.
Proof.
  intros Hemp Et Eow Ep Hi Hd Hn. destruct move_checked as (st & a & s & K).
  apply (updated_checked st a s K); [by apply (empties_checked st)|by rewrite Et|]. unfold operation_valid. rewrite Et.
  destruct (deltas_moved st a s K) as (z & m & w & E1 & Gz & Uz & E2 & Gm & Um & E3 & Gw & Uw).
  destruct (asset_moved st a s K) as [Ea Epp]. unfold withdraw_valid. rewrite Ea, Epp, E1. cbn [bind].
  rewrite (withdraw_paid_checked st a s tx fee z K); [|done|rewrite Eow; apply (vs_owner _ _ _ _ _ _ _ _ _ _ V)|done..|].
  2: { by rewrite Eow. }
  cbn [bind]. rewrite Eow, E2, E3, (shares_match_units cfg m w) by (done || lia). cbn [bind].
  destruct (ck_vault _ _ _ K) as (t & av & _ & Ac). rewrite (books_add_up_units cfg _ _ _ z Ac) by done. cbn [bind].
  rewrite !units_geb_zero, Um, Uz by done. destruct (Z.leb_spec 0 n), (Z.leb_spec 0 d); [lia..|]. done.
Qed.

Lemma clawback_checked tx fee :
  empties -> ct_type tx = ttVAULT_CLAWBACK -> ct_Account tx = mptIssuer id -> ct_Holder tx = Some owner -> d < 0 -> n < 0 ->
  ValidVault_check cfg v' l tx tesSUCCESS fee = Ok true.
Proof.
  intros Hemp Et Ei Eh Hd Hn. destruct move_checked as (st & a & s & K).
  apply (updated_checked st a s K); [by apply (empties_checked st)|by rewrite Et|]. unfold operation_valid. rewrite Et.
  destruct (deltas_moved st a s K) as (z & m & w & E1 & Gz & Uz & E2 & Gm & Um & E3 & Gw & Uw).
  destruct (asset_moved st a s K) as [Ea Epp]. unfold clawback_valid. rewrite Ea, Epp, E1, Eh. change (default 0 (Some owner)) with owner. rewrite E2, E3.
  cbn [asset_native getIssuer orb]. rewrite Ei, Z.eqb_refl. cbn [negb bind].
  rewrite (shares_match_units cfg m w) by (done || lia). cbn [bind].
  destruct (ck_vault _ _ _ K) as (t & av & _ & Ac). rewrite (books_add_up_units cfg _ _ _ z Ac) by done. cbn [bind].
  rewrite !units_geb_zero, Um, Uz by done. destruct (Z.leb_spec 0 n), (Z.leb_spec 0 d); [lia..|]. done.
Qed.

End Checked.
