(* ===== verification/InvariantLoans.v ===== *)
(** * Terms of loans and brokers that no transaction changes

    Every transaction of the lending protocol leaves the fields that
    [NoModifiedUnmodifiableFields] watches as they are. *)

From S2P Require Import Prelude.
From S2P Require Import Ter.
From S2P Require Import XrplNumber.
From S2P Require Import XrplNumberGrid.
From S2P Require Import Amounts.
From S2P Require Import AmountsRound.
From S2P Require Import AmountsWhole.
From S2P Require Import Lending.
From S2P Require Import LendingSpec.
From S2P Require Import LendingRefine.
From S2P Require Import LedgerState.
From S2P Require Import Holdings.
From S2P Require Import Transfers.
From S2P Require Import Transactors.
From S2P Require Import TransfersFrame.
From S2P Require Import LoanManage.
From S2P Require Import LoanBrokers.
From S2P Require Import LoanPay.
From S2P Require Import LoanSet.
From S2P Require Import LoanBooks.
From S2P Require Import LoanManageFacts.
From S2P Require Import LoanPayFacts.
From S2P Require Import LoanSetFacts.
From S2P Require Import LoanMachine.
From S2P Require Import LoanProps.
From S2P Require Import Invariants.
From S2P Require Import InvariantFacts.
From stdpp Require Import gmap list.

Local Open Scope Z_scope.

(** ** Terms *)

(** The terms of a loan that the payment functions do not write. *)
Definition conditions (x : Loan) :=
  (lsfLoanOverpayment x, sfInterestRate x, sfLateInterestRate x, sfCloseInterestRate x, sfOverpaymentInterestRate x,
   sfOverpaymentFee x, sfLoanServiceFee x, sfLatePaymentFee x, sfClosePaymentFee x, sfStartDate x, sfPaymentInterval x,
   sfLoanScale x).

Definition contract (l : LoanEntry) :=
  (conditions (loan_fields l), loan_Borrower l, loan_LoanBrokerID l, loan_GracePeriod l, loan_OriginationFee l,
   loan_LoanSequence l, loan_OwnerNode l, loan_LoanBrokerNode l).

Definition charter (b : LoanBroker) :=
  (broker_Owner b, broker_Account b, broker_VaultID b, broker_ManagementFeeRate b, broker_CoverRateMinimum b,
   broker_CoverRateLiquidation b, broker_Sequence b, broker_OwnerNode b, broker_VaultNode b).

(** Loans and brokers that stay keep their terms. *)
Record terms_kept (v v' : View) : Prop := {
  tk_loans : forall k l l', loans v !! k = Some l -> loans v' !! k = Some l' -> contract l' = contract l;
  tk_brokers : forall k b b', brokers v !! k = Some b -> brokers v' !! k = Some b' -> charter b' = charter b }.

Lemma terms_kept_refl v : terms_kept v v.
Proof. split; congruence. Qed.

Lemma terms_kept_frame v v1 v' : frame v' = frame v1 -> terms_kept v v1 -> terms_kept v v'.
Proof. intros (_ & Eb & El)%frame_parts [K1 K2]. by split; rewrite ?Eb, ?El. Qed.

Lemma terms_kept_loan v v1 k l :
  terms_kept v v1 -> (forall l0, loans v !! k = Some l0 -> contract l = contract l0) -> terms_kept v (update_loan v1 k l).
Proof.
  intros [K1 K2] Hl. split; simpl; [|done]. intros j x y Hx. rewrite lookup_insert. case_decide; [|by apply K1].
  intros [= <-]. subst j. by apply Hl.
Qed.

Lemma terms_kept_broker v v1 k b :
  terms_kept v v1 -> (forall b0, brokers v !! k = Some b0 -> charter b = charter b0) -> terms_kept v (update_broker v1 k b).
Proof.
  intros [K1 K2] Hb. split; simpl; [done|]. intros j x y Hx. rewrite lookup_insert. case_decide; [|by apply K2].
  intros [= <-]. subst j. by apply Hb.
Qed.

Lemma terms_kept_vault v v1 k x : terms_kept v v1 -> terms_kept v (update_vault v1 k x).
Proof. by intros [K1 K2]. Qed.

(** What [ValidLoan] asks of the numbers of a loan. *)
Definition sound (x : Loan) : bool :=
  negb ((sfPaymentRemaining x =? 0) && negb (number_eqb (sfPrincipalOutstanding x) zero)) &&
  forallb (fun n => negb (number_ltb n zero))
    [sfLoanServiceFee x; sfLatePaymentFee x; sfClosePaymentFee x; sfPrincipalOutstanding x;
     sfTotalValueOutstanding x; sfManagementFeeOutstanding x] &&
  negb (number_leb (sfPeriodicPayment x) zero).

Definition sound_loans (v : View) : Prop := forall k l, loans v !! k = Some l -> sound (loan_fields l) = true.

Lemma loan_valid_sound b a : contract a = contract b -> sound (loan_fields a) = true -> loan_valid (Some b, a) = true.
Proof.
  unfold contract, conditions, sound, loan_valid. intros [= E _ _ _ _ _ _ _ _ _ _ _ _ _ _ _ _ _ _].
  rewrite E, Bool.eqb_reflx, andb_true_r. done.
Qed.

(** A loan with the same fees and payment. *)
Lemma sound_paid x y :
  conditions y = conditions x -> sfPeriodicPayment y = sfPeriodicPayment x ->
  (sfPaymentRemaining y = 0 -> sfPrincipalOutstanding y = zero) -> number_ltb (sfPrincipalOutstanding y) zero = false ->
  number_ltb (sfTotalValueOutstanding y) zero = false -> number_ltb (sfManagementFeeOutstanding y) zero = false ->
  sound x = true -> sound y = true.
Proof.
  unfold conditions, sound. intros [= _ _ _ _ _ _ -> -> -> _ _ _] -> H0. simpl. intros -> -> ->.
  assert (negb ((sfPaymentRemaining y =? 0) && negb (number_eqb (sfPrincipalOutstanding y) zero)) = true) as ->
    by (destruct (Z.eqb_spec (sfPaymentRemaining y) 0) as [E|]; [by rewrite (H0 E)|done]).
  destruct (number_ltb (sfLoanServiceFee x) zero), (number_ltb (sfLatePaymentFee x) zero),
    (number_ltb (sfClosePaymentFee x) zero), (number_leb (sfPeriodicPayment x) zero); simpl; rewrite ?andb_false_r; done.
Qed.

Lemma sound_closed x y :
  conditions y = conditions x -> sfPeriodicPayment y = sfPeriodicPayment x -> sfPrincipalOutstanding y = zero ->
  sfTotalValueOutstanding y = zero -> sfManagementFeeOutstanding y = zero -> sound x = true -> sound y = true.
Proof. intros E1 E2 E3 E4 E5. apply sound_paid; auto; by rewrite ?E3, ?E4, ?E5. Qed.

(** One that has only its dates changed. *)
Lemma sound_dates x next : sound (set_nextDue x next) = sound x.
Proof. done. Qed.

(** ** Payments *)

Section Payments.
Context (cfg : Settings).

(** What the writes of a payment leave alone the payments leave alone. *)
Section Written.
Context {A : Type} (f : Loan -> A).
Context (f_schedule : forall x prev next n, f (set_schedule x prev next n) = f x).
Context (f_outstanding : forall x t p m, f (set_outstanding x t p m) = f x).

Lemma doPayment_keeps p x interval parts y : doPayment cfg p x interval = Ok (parts, y) -> f y = f x.
Proof.
  unfold doPayment. intros (z & Hz & Hr)%bind_ok. follow Hr. destruct (special_eqb _ final).
  { apply bind_ok in Hz as (n & _ & [= <-]). by rewrite f_outstanding, f_schedule. }
  apply bind_ok in Hz as (w & Hw & Hz). assert (f w = f x) as <-; [|follow Hz; apply f_outstanding].
  destruct (negb _); [apply bind_ok in Hw as (n & _ & [= <-]); apply f_schedule|by injection Hw as <-].
Qed.

Lemma pay_keeps p x interval parts y : pay cfg p x interval = Ok (parts, y) -> f y = f x.
Proof. unfold pay. intros ([q z] & Hp%doPayment_keeps & [= _ <-])%bind_ok. done. Qed.

Lemma payment_loop_keeps k a pp pr m amt paid parts x k' paid' parts' y :
  payment_loop cfg k a pp pr m amt paid parts x = Ok (k', paid', parts', y) -> f y = f x.
Proof.
  revert paid parts x. induction k as [|k IH]; intros paid parts x; simpl; [by intros [= _ _ _ <-]|].
  destruct (_ && _); [|by intros [= _ _ _ <-]]. intros (next & _ & Hr)%bind_ok. apply bind_ok in Hr as (t & _ & Hr).
  destruct (number_ltb _ _); [by injection Hr as _ _ _ <-|].
  apply bind_ok in Hr as ([q z] & Hp%doPayment_keeps & Hr). apply bind_ok in Hr as (w & _ & Hr).
  apply IH in Hr. congruence.
Qed.

Lemma loanMakeFullPayment_keeps a now x m amt res y : loanMakeFullPayment cfg a now x m amt = Ok (res, y) -> f y = f x.
Proof.
  unfold loanMakeFullPayment. destruct (_ || _); [by intros [= _ <-]|]. destruct (sfNextPaymentDueDate x); [|by intros [= _ <-]].
  intros Hr. do 4 apply bind_ok in Hr as (? & _ & Hr). destruct x3 as [full|t]; [by apply pay_keeps in Hr|].
  destruct (negb _); by injection Hr as _ <-.
Qed.

(** An overpayment may write a new periodic payment. *)
Lemma loanMakePayment_keeps a now x m amt over res y :
  (over = true -> forall z p, f (set_periodicPayment z p) = f z) ->
  loanMakePayment cfg a now x m amt over = Ok (res, y) -> f y = f x.
Proof.
  intros Ho. unfold loanMakePayment. destruct (_ || _); [by intros [= _ <-]|].
  destruct (sfNextPaymentDueDate x); [|by intros [= _ <-]].
  intros Hr. do 3 apply bind_ok in Hr as (? & _ & Hr). destruct x2 as [late|t]; [by apply pay_keeps in Hr|].
  destruct (negb _); [by injection Hr as _ <-|]. apply bind_ok in Hr as (n & _ & Hr).
  destruct (number_ltb _ _); [by injection Hr as _ <-|]. apply bind_ok in Hr as ([q y1] & H1%doPayment_keeps & Hr).
  apply bind_ok in Hr as ([[[k paid] parts] y2] & H2%payment_loop_keeps & Hr).
  assert (f y = f y2) as Hy; [|congruence]. destruct over; simpl in Hr; [|by injection Hr as _ <-].
  destruct (_ && _); [|by injection Hr as _ <-]. unfold makeOverpayment in Hr.
  do 2 apply bind_ok in Hr as (? & _ & Hr). destruct (_ && _); [|by injection Hr as _ <-].
  apply bind_ok in Hr as ([r w] & Hp & Hr). assert (f w = f y2) as <-; [|by follow Hr].
  unfold doOverpayment in Hp. follow Hp; try done. by rewrite Ho, f_outstanding.
Qed.

End Written.

Lemma makePayment_contract v tx a l b res l' : makePayment cfg v tx a l b = Ok (res, l') -> contract l' = contract l.
Proof.
  unfold makePayment. intros ([parts y] & Hp & [= _ <-])%bind_ok.
  assert (conditions y = conditions (loan_fields l)) as E
    by (destruct (isFlag _ _); [by eapply (loanMakeFullPayment_keeps conditions)|by eapply (loanMakePayment_keeps conditions)]).
  unfold contract. simpl. by rewrite E.
Qed.

End Payments.

(** ** Transactions *)

Section Transactions.
Context `{Keylets} (cfg : Settings).

Lemma impair_contract v l x t l' x' : impairLoan cfg v l x = Ok (t, l', x') -> contract l' = contract l.
Proof. unfold impairLoan. intros Hr. by follow Hr. Qed.

Lemma unimpair_contract v l x t l' x' : unimpairLoan cfg v l x = Ok (t, l', x') -> contract l' = contract l.
Proof. unfold unimpairLoan. intros Hr. by follow Hr. Qed.

Lemma manage_kept v tx v' : LoanManage_doApply cfg v tx = Ok (tesSUCCESS, v') -> terms_kept v v'.
Proof.
  unfold LoanManage_doApply. intros Hr. destruct (loans v !! lm_LoanID tx) as [l|] eqn:Hl; [|done].
  destruct (brokers v !! _) as [b|] eqn:Hb; [|done]. destruct (vaults v !! _) as [x|] eqn:Hx; [|done].
  assert (forall l' x', contract l' = contract l -> terms_kept v (update_loan (update_vault v (broker_VaultID b) x') (lm_LoanID tx) l')) as Hw.
  { intros l' x' E. apply terms_kept_loan; [apply terms_kept_vault, terms_kept_refl|congruence]. }
  destruct (lm_isFlag tx tfLoanDefault).
  { unfold defaultLoan in Hr. follow Hr. apply accountSend_frame in Hr. apply (terms_kept_frame _ _ _ Hr).
    apply terms_kept_loan; [apply terms_kept_broker; [apply terms_kept_vault, terms_kept_refl|]|];
      intros ? Hs; rewrite ?Hl, ?Hb in Hs; by injection Hs as <-. }
  destruct (lm_isFlag tx tfLoanImpair).
  { apply bind_ok in Hr as ([[t l'] x'] & Hi%impair_contract & Hr). injection Hr as -> <-. by apply Hw. }
  destruct (lm_isFlag tx tfLoanUnimpair); [|injection Hr as <-; apply terms_kept_refl].
  apply bind_ok in Hr as ([[t l'] x'] & Hi%unimpair_contract & Hr). injection Hr as -> <-. by apply Hw.
Qed.

Lemma unimpaired_contract v l x l' x' : unimpaired cfg v l x = Ok (l', x') -> contract l' = contract l.
Proof.
  unfold unimpaired. destruct (loan_Impaired l); [|congruence].
  by intros ([[ter l1] x1] & Hu%unimpair_contract & [= <- _])%bind_ok.
Qed.

Lemma book_payment_charter asset b x parts toOwner b' x' z :
  book_payment cfg asset b x parts toOwner = Ok (b', x', z) -> charter b' = charter b.
Proof. unfold book_payment. intros Hr. follow Hr; done. Qed.

Lemma pay_kept v tx v' : LoanPay_doApply cfg v tx = Ok (tesSUCCESS, v') -> terms_kept v v'.
Proof.
  intros Hr. unfold LoanPay_doApply in Hr. destruct (loans v !! pay_LoanID tx) as [l|] eqn:Hl; [|done].
  destruct (brokers v !! _) as [b|] eqn:Hb; [|done]. destruct (vaults v !! _) as [x|] eqn:Hx; [|done].
  apply bind_ok in Hr as (toOwner & _ & Hr).
  destruct (isTesSuccess _) eqn:Ef; cbn [negb] in Hr; [|apply failed_code in Ef; congruence].
  apply bind_ok in Hr as ([l1 x1] & Hu%unimpaired_contract & Hr).
  apply bind_ok in Hr as ([[parts|e] l2] & Hm%makePayment_contract & Hr).
  2: { injection Hr as _ <-. apply terms_kept_refl. }
  destruct (_ || _); [done|]. apply bind_ok in Hr as ([[b' x'] z] & Hbk%book_payment_charter & Hr).
  apply move_funds_frame in Hr. apply (terms_kept_frame _ _ _ Hr).
  apply terms_kept_vault, terms_kept_broker; [apply terms_kept_loan; [apply terms_kept_refl|]|].
  - intros l0. rewrite Hl. intros [= <-]. by rewrite Hm.
  - intros b0. rewrite Hb. intros [= <-]. exact Hbk.
Qed.

Lemma cover_kept v v' : cover_written v v' -> terms_kept v v'.
Proof.
  intros (bid & b & c & Hb & F). apply (terms_kept_frame _ _ _ F), terms_kept_broker; [apply terms_kept_refl|].
  intros b0. rewrite Hb. by intros [= <-].
Qed.

Lemma broker_set_kept v v' : broker_written v v' -> terms_kept v v'.
Proof.
  intros (bid & b' & F & Hb). apply (terms_kept_frame _ _ _ F), terms_kept_broker; [apply terms_kept_refl|].
  intros b0 E. rewrite E in Hb. by destruct Hb as (data & m & ->).
Qed.

Lemma loan_set_kept v tx prior v' : LoanSet_doApply cfg v tx prior = Ok (tesSUCCESS, v') -> terms_kept v v'.
Proof.
  intros (b & x & props & w & T & A & D & on & bn & d & Hb & Hx & F & Hk & -> & _)%loan_set_writes.
  assert (terms_kept v (update_loan
    (update_broker (update_vault w (broker_VaultID b) (set_vault_assets x T A)) (ls_LoanBrokerID tx)
       (set_broker_loans b D (confineOwnerCount (broker_OwnerCount b) 1) (u32 (broker_LoanSequence b + 1))))
    (loan_keylet (ls_LoanBrokerID tx) (broker_LoanSequence b)) (made_loan v tx props b on bn))) as [K1 K2]; [|by split].
  apply terms_kept_loan; [|intros l0; by rewrite Hk].
  apply terms_kept_broker; [apply terms_kept_vault, (terms_kept_frame _ _ _ F), terms_kept_refl|].
  intros b0. rewrite Hb. by intros [= <-].
Qed.

Lemma loan_delete_kept v tx v' : LoanDelete_doApply v tx = Ok (tesSUCCESS, v') -> terms_kept v v'.
Proof.
  intros (l & b & Hl & Hb & F)%loan_delete_writes. apply (terms_kept_frame _ _ _ F), terms_kept_broker.
  - split; simpl; [|congruence]. intros k l0 l1 E [_ E']%lookup_delete_Some. congruence.
  - intros b0. rewrite Hb. by intros [= <-].
Qed.

Lemma transition_kept engine v v' :
  (forall v s d a m ter v', engine v s d a m = Ok (ter, v') -> frame v' = frame v) ->
  transition cfg engine v v' -> terms_kept v v'.
Proof.
  intros He Ht. destruct Ht.
  - by eapply broker_set_kept, broker_set_writes.
  - eapply broker_delete_writes in H1 as (bid & b & Hb & Hc & F); [|done]. apply (terms_kept_frame _ _ _ F).
    split; simpl; [congruence|]. intros k b0 b1 E [_ E']%lookup_delete_Some. congruence.
  - by eapply cover_kept, deposit_writes.
  - by eapply cover_kept, withdraw_writes.
  - by eapply cover_kept, clawback_writes.
  - by eapply loan_set_kept.
  - by eapply manage_kept.
  - by eapply pay_kept.
  - by eapply loan_delete_kept.
  - eapply terms_kept_frame; [done|apply terms_kept_refl].
Qed.

End Transactions.

(** ** Loans stay sound *)

(** What the loans are after the transaction, and what the checker says when none is
    deleted. *)
Definition loans_accepted (v v' : View) : Prop :=
  sound_loans v' /\
  forall l, describes v v' l -> (forall x, x ∈ l -> isDelete x = false) -> ValidLoan_finalize l = true.

Lemma sound_accepted v v' : terms_kept v v' -> sound_loans v' -> loans_accepted v v'.
Proof.
  intros [K _] S. split; [done|]. intros l D Hd. apply forallb_forall. intros p Hp%list_elem_of_In.
  unfold visited_loans in Hp. apply list_elem_of_omap in Hp as (x & Hx & Hp).
  destruct (after x) as [e|] eqn:Ea; [|done]. destruct e as [| | | | | |id a|]; try done. injection Hp as <-.
  destruct (ds_shows _ _ _ D x Hx) as [(k & _ & He)|(k & Sb & Sa)]; [by specialize (He _ (or_intror Ea))|].
  rewrite (Hd x Hx) in Sa. destruct Sa as [Sa _]. rewrite Ea in Sa. symmetry in Sa.
  assert (k = k_loan id) as -> by (symmetry; apply (entry_at_key _ _ _ Sa)). simpl in Sa, Sb.
  destruct (loans v' !! id) as [a'|] eqn:Ea'; [|done]. injection Sa as ->. pose proof (S id a Ea') as Sa.
  rewrite Sb. destruct (loans v !! id) as [b|] eqn:Eb; simpl.
  - apply loan_valid_sound; [by apply (K id)|done].
  - unfold sound in Sa. unfold loan_valid. rewrite andb_true_r. exact Sa.
Qed.

Section Sound.
Context `{Keylets} (cfg : Settings).

Lemma sound_update v v' k l :
  sound_loans v -> loans v' = <[k := l]> (loans v) -> sound (loan_fields l) = true -> sound_loans v'.
Proof. intros S E Hl j y. rewrite E, lookup_insert. case_decide; [by intros [= <-]|apply S]. Qed.

Lemma manage_sound v tx v' : LoanManage_doApply cfg v tx = Ok (tesSUCCESS, v') -> sound_loans v -> sound_loans v'.
Proof.
  intros Hr S. unfold LoanManage_doApply in Hr. destruct (loans v !! lm_LoanID tx) as [l|] eqn:Hl; [|done].
  destruct (brokers v !! _) as [b|]; [|done]. destruct (vaults v !! _) as [x|]; [|done]. pose proof (S _ _ Hl) as Sl.
  destruct (lm_isFlag tx tfLoanDefault).
  { unfold defaultLoan in Hr. follow Hr. apply accountSend_frame, frame_parts in Hr as (_ & _ & El).
    apply (sound_update v _ _ _ S El). by apply (sound_closed (loan_fields l)). }
  destruct (lm_isFlag tx tfLoanImpair).
  { apply bind_ok in Hr as ([[t l'] x'] & Hi & Hr). injection Hr as -> <-. apply (sound_update v _ (lm_LoanID tx) l' S); [done|].
    unfold impairLoan in Hi. by follow Hi. }
  destruct (lm_isFlag tx tfLoanUnimpair); [|by injection Hr as <-].
  apply bind_ok in Hr as ([[t l'] x'] & Hi & Hr). injection Hr as -> <-. apply (sound_update v _ (lm_LoanID tx) l' S); [done|].
  unfold unimpairLoan in Hi. by follow Hi.
Qed.

(** A payment changes the loan as the payment function does, after its impairment has been
    reversed. *)
Lemma pay_loan v tx v' :
  LoanPay_doApply cfg v tx = Ok (tesSUCCESS, v') ->
  v' = v \/ exists l l1 x b parts l2, loans v !! pay_LoanID tx = Some l /\ sound (loan_fields l1) = sound (loan_fields l) /\
    makePayment cfg v tx (vault_Asset x) l1 b = Ok (Value parts, l2) /\ loans v' = <[pay_LoanID tx := l2]> (loans v).
Proof.
  intros Hr. unfold LoanPay_doApply in Hr. destruct (loans v !! pay_LoanID tx) as [l|] eqn:Hl; [|done].
  destruct (brokers v !! _) as [b|] eqn:Hb; [|done]. destruct (vaults v !! _) as [x|] eqn:Hx; [|done].
  apply bind_ok in Hr as (toOwner & _ & Hr).
  destruct (isTesSuccess _) eqn:Ef; cbn [negb] in Hr; [|apply failed_code in Ef; congruence].
  apply bind_ok in Hr as ([l1 x1] & Hu & Hr).
  apply bind_ok in Hr as ([[parts|e] l2] & Hm & Hr); [right|by left; injection Hr as _ <-].
  destruct (_ || _); [done|]. apply bind_ok in Hr as ([[b' x'] z] & _ & Hr).
  apply move_funds_frame, frame_parts in Hr as (_ & _ & El). exists l, l1, x, b, parts, l2. splits; [done| |done|done].
  unfold unimpaired in Hu. destruct (loan_Impaired l); [|by injection Hu as <- _].
  apply bind_ok in Hu as ([[ter l0] x0] & Hu & [= -> ->]). unfold unimpairLoan in Hu. by follow Hu.
Qed.

Lemma make_plus_components p f i c : make_plus cfg p f i = Ok c -> components c = p.
Proof. unfold make_plus. intros (a & _ & Hr)%bind_ok. by apply bind_ok in Hr as (t & _ & [= <-]). Qed.

Lemma loanMakeFullPayment_closes a now x m amt parts y :
  loanMakeFullPayment cfg a now x m amt = Ok (Value parts, y) ->
  exists next, y = set_outstanding (set_schedule x next None 0) zero zero zero.
Proof.
  unfold loanMakeFullPayment. destruct (_ || _); [done|]. destruct (sfNextPaymentDueDate x) as [n|] eqn:En; [|done].
  intros Hr. do 3 apply bind_ok in Hr as (? & _ & Hr). apply bind_ok in Hr as ([full|t] & Hf & Hr);
    [|by destruct (negb _)].
  assert (specialCase (components full) = final) as Es.
  { unfold computeFullPayment in Hf. follow Hf.
    match goal with Hp : make_plus _ _ _ _ = Ok full |- _ => by apply make_plus_components in Hp as -> end. }
  unfold pay, doPayment in Hr. rewrite Es, En in Hr. cbn [special_eqb read_optional bind] in Hr.
  apply bind_ok in Hr as ([q z] & Hq & [= _ <-]). do 3 apply bind_ok in Hq as (? & _ & Hq). injection Hq as _ <-. by eexists.
Qed.

Lemma full_payment_sound v tx v' :
  isFlag (pay_Flags tx) tfLoanFullPayment = true -> LoanPay_doApply cfg v tx = Ok (tesSUCCESS, v') ->
  sound_loans v -> sound_loans v'.
Proof.
  intros Hf [-> |(l & l1 & x & b & parts & l2 & Hl & Es & Hm & El)]%pay_loan S; [done|].
  apply (sound_update v _ _ _ S El). unfold makePayment in Hm. rewrite Hf in Hm.
  apply bind_ok in Hm as ([pp y] & Hp & [= -> <-]). apply loanMakeFullPayment_closes in Hp as (next & ->). simpl.
  apply (sound_closed (loan_fields l1)); try done. rewrite Es. by apply (S (pay_LoanID tx)).
Qed.

(** The last regular payment clears the principal. *)
Lemma pay_steps_done k u a w : pay_steps k u a w -> (1 <= k)%nat -> u_remaining w = 0 -> u_principal w = 0.
Proof.
  induction 1 as [u|k u a w b z Hs Hr IH]; intros Hk H0; [lia|]. destruct k; [|apply IH; [lia|done]].
  inversion Hr; subst. inversion Hs; subst; simpl in *; lia.
Qed.

Lemma grid_not_negative s k n : on_grid s k n -> 0 <= k -> number_ltb n zero = false.
Proof.
  intros G Hk. destruct (gridded_zero s) as [Gz Uz]. rewrite (units_ltb s n zero (grid_gridded s k n G) Gz), Uz, (units_grid s k n G).
  by apply Z.ltb_ge.
Qed.

Lemma regular_payment_sound s vid v tx l b x u sf amt v' :
  paying cfg s vid v tx l b x u sf amt -> LoanPay_doApply cfg v tx = Ok (tesSUCCESS, v') ->
  (forall l', loans v' !! pay_LoanID tx = Some l' -> number_ltb (sfTotalValueOutstanding (loan_fields l')) zero = false) ->
  sound_loans v -> sound_loans v'.
Proof.
  intros P Hr Ht S. pose proof Hr as [-> |(l0 & l1 & x1 & b1 & parts & l2 & Hl & Es & Hm & El)]%pay_loan; [done|].
  apply (sound_update v _ _ _ S El). rewrite El, lookup_insert_eq in Ht. specialize (Ht l2 eq_refl).
  destruct P as [P1 P2 P3 P4 P5 P6 P7 [R1 R2] P9 P10].
  destruct (LoanPay_regular cfg s vid (asset_scale_grid _ _ (deep_scale_asset _ _ P2)) v tx l b x u sf amt v'
    P1 P2 P3 P4 P5 P6 P7 (conj R1 R2) P9 P10 Hr)
    as (j & a & w & t & loss & A & D & C & z & fee & toOwner & HJ & SS & R' & St & _ & _ & _ & _ & _ & _ & _ & _ & _ & _ & _ & Hmove).
  apply move_funds_frame, frame_parts in Hmove as (_ & _ & El'). rewrite El in El'. simpl in El'.
  assert (loan_fields l2 = t) as Et.
  { assert (<[pay_LoanID tx:=l2]> (loans v) !! pay_LoanID tx = Some l2) as E by apply lookup_insert_eq.
    rewrite El', lookup_insert_eq in E. by injection E as <-. }
  unfold makePayment in Hm. rewrite R1, R2 in Hm. apply bind_ok in Hm as ([pp y] & Hp & [= -> <-]). cbn [loan_fields set_loan_fields] in *. subst y.
  assert (conditions t = conditions (loan_fields l1)) as Ec by (by eapply (loanMakePayment_keeps _ conditions)).
  assert (sfPeriodicPayment t = sfPeriodicPayment (loan_fields l1)) as Ep 
    by (eapply (loanMakePayment_keeps _ sfPeriodicPayment); [done|done| |exact Hp]; done).
  pose proof (pay_steps_ok _ _ _ _ SS (pay_ok _ _ _ _ _ _ P6)) as Ok'.
  destruct R' as [G1 G2 G3 G4 G5].
  apply (sound_paid (loan_fields l1)); [done|done| | | | |by rewrite Es; apply (S (pay_LoanID tx))].
  - rewrite G4. intros E0. pose proof (pay_steps_done _ _ _ _ SS ltac:(lia) E0) as E. rewrite E in G2.
    by eapply on_grid_zero_inv.
  - apply (grid_not_negative _ _ _ G2). apply Ok'.
  - exact Ht.
  - apply (grid_not_negative _ _ _ G3). apply Ok'.
Qed.

Lemma positive_not_negative n : number_leb n zero = false -> number_ltb n zero = false.
Proof.
  unfold number_leb, number_ltb. simpl. destruct (mantissa_ n <? 0); simpl; [done|]. by destruct (mantissa_ n =? 0).
Qed.

Lemma minimum_not_negative o : validNumericMinimum_number o zero = true -> number_ltb (default zero o) zero = false.
Proof. destruct o as [n|]; simpl; [|done]. unfold number_geb. apply negb_true_iff. Qed.

Lemma preflight_terms r dry tx : LoanSet_preflight r dry tx = tesSUCCESS -> LoanSet_terms_valid tx = true.
Proof.
  unfold LoanSet_preflight. destruct (_ && _ && _); [done|]. destruct (_ && _); [done|]. intros Hf.
  destruct (negb (isTesSuccess _)) eqn:E; [by rewrite Hf in E|]. by destruct (LoanSet_terms_valid tx).
Qed.

Lemma guards_positive asset tx props :
  loan_guards cfg asset tx props = Ok tesSUCCESS ->
  number_ltb (lp_managementFeeOwedToBroker props) zero = false /\ number_leb (lp_totalValueOutstanding props) zero = false /\
  number_leb (lp_periodicPayment props) zero = false.
Proof.
  unfold loan_guards. intros (ok & _ & Hg)%bind_ok. destruct (negb ok); [done|]. apply bind_ok in Hg as (i & _ & Hg).
  do 3 (destruct (_ && _) || destruct (number_leb (lp_firstPaymentPrincipal props) zero); [done|]).
  apply bind_ok in Hg as (rp & _ & Hg). destruct (number_eqb _ _); [done|]. apply bind_ok in Hg as (q & _ & Hg).
  apply bind_ok in Hg as (c & _ & Hg). destruct (_ <? _); [done|].
  destruct (number_ltb _ zero), (number_leb (lp_totalValueOutstanding props) zero), (number_leb (lp_periodicPayment props) zero); done.
Qed.

Lemma new_loan_sound r dry v tx prior v' :
  LoanSet_preflight r dry tx = tesSUCCESS -> LoanSet_doApply cfg v tx prior = Ok (tesSUCCESS, v') ->
  sound_loans v -> sound_loans v'.
Proof.
  intros Hf%preflight_terms
    (b & x & props & w & T & A & D & on & bn & d & _ & _ & (_ & _ & Fl)%frame_parts & _ & -> & Hg)%loan_set_writes S.
  eapply (sound_update v _ _ _ S); [simpl; by rewrite Fl|]. destruct (guards_positive _ _ _ Hg) as (G1 & G2 & G3).
  unfold LoanSet_terms_valid in Hf. rewrite !andb_true_iff in Hf.
  destruct Hf as (((((((((((((_ & F1) & F2) & F3) & F4) & _) & _) & _) & _) & _) & _) & F5) & _) & _).
  apply minimum_not_negative in F1, F2, F3. apply negb_true_iff in F4, F5.
  unfold sound. simpl. rewrite F1, F2, F3, G1, G3, !positive_not_negative by done. simpl.
  unfold paymentTotal. destruct (ls_PaymentTotal tx) as [n|]; simpl; [|done]. by destruct (Z.eqb_spec n 0) as [->|].
Qed.

End Sound.

(** ** The checker *)

Lemma number_eqb_refl n : number_eqb n n = true.
Proof. unfold number_eqb. by rewrite !Z.eqb_refl. Qed.

Lemma contract_unchanged b a : contract a = contract b -> loan_changed b a = false.
Proof.
  unfold contract, conditions, loan_changed. intros [= _ -> -> -> -> -> -> -> -> -> -> -> -> -> -> -> _ -> ->].
  by rewrite !number_eqb_refl, !Z.eqb_refl.
Qed.

Lemma charter_unchanged b a : charter a = charter b -> broker_changed b a = false.
Proof. unfold charter, broker_changed. intros [= -> -> -> -> -> -> -> -> ->]. by rewrite !Z.eqb_refl. Qed.

Lemma kept_unmodified v v' l : terms_kept v v' -> describes v v' l -> existsb entry_changed (changedEntries l) = false.
Proof.
  intros [K1 K2] D. apply not_true_iff_false. intros (p & Hp & Hc)%existsb_exists. apply list_elem_of_In in Hp.
  unfold changedEntries in Hp. apply list_elem_of_omap in Hp as (x & Hx & Hp).
  destruct (before x) as [b|] eqn:Eb; [|done]. destruct (after x) as [a|] eqn:Ea; [|done].
  destruct (isDelete x) eqn:Ed; [done|]. injection Hp as <-.
  destruct (ds_shows _ _ _ D x Hx) as [(k & _ & He)|(k & Sb & Sa)].
  - rewrite (He b (or_introl Eb)), (He a (or_intror Ea)) in Hc. unfold entry_changed in Hc. simpl in Hc.
    by rewrite bool_decide_true in Hc by done.
  - rewrite Ed in Sa. destruct Sa as [Sa _]. rewrite Eb in Sb. rewrite Ea in Sa. symmetry in Sb, Sa.
    unfold entry_changed in Hc. simpl in Hc.
    rewrite bool_decide_true in Hc by (by rewrite (entry_at_key _ _ _ Sb), (entry_at_key _ _ _ Sa)). simpl in Hc.
    destruct k as [k|k|k|k|k|k|k|k]; simpl in Sb, Sa; try done;
      apply fmap_Some in Sb as (y & Hy & ->), Sa as (z & Hz & ->); try done.
    + by rewrite (charter_unchanged y z (K2 _ _ _ Hy Hz)) in Hc.
    + by rewrite (contract_unchanged y z (K1 _ _ _ Hy Hz)) in Hc.
Qed.
