(* ===== verification/InvariantProps.v ===== *)
(** * Vault transactions and the checker of vaults

    The theorem that what deposits, withdrawals and clawbacks leave is accepted by the
    checker that runs after them, and the cases in which it is not.

    ** Loan transactions and the checkers of loans

    The theorems that the fields which must not change do not change, and that loans pass
    [ValidLoan]. *)

From S2P Require Import Prelude.
From S2P Require Import Ter.
From S2P Require Import XrplNumber.
From S2P Require Import XrplNumberFacts.
From S2P Require Import XrplNumberGrid.
From S2P Require Import Amounts.
From S2P Require Import AmountsFacts.
From S2P Require Import AmountsRound.
From S2P Require Import AmountsWhole.
From S2P Require Import Lending.
From S2P Require Import LendingSpec.
From S2P Require Import LendingProps.
From S2P Require Import Directories.
From S2P Require Import LedgerState.
From S2P Require Import Holdings.
From S2P Require Import Transfers.
From S2P Require Import Transactors.
From S2P Require Import TransfersFrame.
From S2P Require Import TransfersMPT.
From S2P Require Import TransfersHoldings.
From S2P Require Import SampleLedger.
From S2P Require Import LoanManage.
From S2P Require Import Vaults.
From S2P Require Import VaultFunds.
From S2P Require Import LoanPay.
From S2P Require Import LoanSet.
From S2P Require Import LoanBooks.
From S2P Require Import LoanCoverFacts.
From S2P Require Import LoanMachine.
From S2P Require Import LoanProps.
From S2P Require Import VaultFacts.
From S2P Require Import VaultBooks.
From S2P Require Import VaultProps.
From S2P Require Import Invariants.
From S2P Require Import InvariantFacts.
From S2P Require Import InvariantVaults.
From S2P Require Import InvariantLoans.
From stdpp Require Import gmap list.

Local Open Scope Z_scope.

(** ** What the checker sees *)

Definition deposit_seen (tx : VaultDepositTx) : CheckedTx :=
  mkCheckedTx ttVAULT_DEPOSIT (vp_Account tx) (vp_Amount tx) None None 10.
Definition withdraw_seen (tx : VaultWithdrawTx) : CheckedTx :=
  mkCheckedTx ttVAULT_WITHDRAW (vw_Account tx) (vw_Amount tx) (vw_Destination tx) None 10.
Definition clawback_seen (tx : VaultClawbackTx) : CheckedTx :=
  mkCheckedTx ttVAULT_CLAWBACK (vk_Account tx) (default (st_clear (AIssue xrpIssue)) (vk_Amount tx)) None (Some (vk_Holder tx)) 10.

(** The visits show the change; the shares are issued by the account of the vault, which
    does not issue the asset; and the limits of the vault make sense. *)
Record watched (v v' : View) (vid : Z) (x : Vault) (id : Z) (l : list Visit) : Prop := {
  wt_change : small_change v v' vid l;
  wt_issuer : mptIssuer (vault_ShareMPTID x) = vault_Account x;
  wt_asset : vault_Account x <> mptIssuer id;
  wt_maximum : number_ltb (vault_AssetsMaximum x) zero = false;
  wt_bound : outstanding v (vault_ShareMPTID x) <= maximum_of v (vault_ShareMPTID x) }.

Definition assets_of (w : View) (vid : Z) : Z := from_option (fun y => units 0 (vault_AssetsTotal y)) 0 (vaults w !! vid).

Section Moves.
Context (cfg : Settings) (v v' : View) (vid : Z) (x : Vault) (i : MPTokenIssuance) (id party d owner n : Z)
  (l : list Visit).
Context (B : banking cfg v vid x i id) (M : vault_moved v v' vid x id party d owner n) (W : watched v v' vid x id l).
Context (Hp : party <> vault_Account x) (Ho : owner <> vault_Account x).

Lemma assets_moved : assets_of v' vid = assets_of v vid + d.
Proof.
  destruct (vm_vaults _ _ _ _ _ _ _ _ _ M) as (t & a & E & Ut & _). unfold assets_of.
  rewrite E, lookup_insert_eq, (bv_vault _ _ _ _ _ _ B). exact Ut.
Qed.

Lemma shares_moved : outstanding v' (vault_ShareMPTID x) = outstanding v (vault_ShareMPTID x) + n.
Proof.
  pose proof (vm_owners _ _ _ _ _ _ _ _ _ M (vault_Account x)) as E. rewrite <- (wt_issuer _ _ _ _ _ _ W) in E.
  rewrite !balance_issuer in E. rewrite (wt_issuer _ _ _ _ _ _ W), Z.eqb_refl in E. apply Z.eqb_neq in Ho.
  rewrite Ho in E. lia.
Qed.

Lemma watched_visible : d <> 0 -> n <> 0 -> visible v v' vid x id party d owner n l.
Proof. intros Hd Hn. destruct W. by split. Qed.

(** A vault that pays its worth for the last shares has nothing left. *)
Lemma paid_out_empties :
  (n < 0 -> - n = outstanding v (vault_ShareMPTID x) -> - d = worth x) -> n < 0 ->
  (outstanding v' (vault_ShareMPTID x) = 0 -> units 0 (vault_LossUnrealized x) = 0) -> empties v' vid x.
Proof.
  intros Hw Hn Hl y Hy H0. pose proof shares_moved as E. pose proof assets_moved as Ea.
  unfold assets_of in Ea. rewrite Hy, (bv_vault _ _ _ _ _ _ B) in Ea. simpl in Ea.
  specialize (Hw Hn). unfold worth in Hw. rewrite (Hl H0) in Hw.
  destruct (bal_vault _ _ _ (vm_books _ _ _ _ _ _ _ _ _ M)) as (y' & Hy' & Vb). assert (y' = y) as -> by congruence.
  pose proof (paper_lent vid v' (vm_books _ _ _ _ _ _ _ _ _ M)). destruct Vb. lia.
Qed.

End Moves.

(** Only the issuer of the asset claws back. *)
Lemma clawback_issuer v tx x id :
  VaultClawback_preclaim v tx = tesSUCCESS -> vaults v !! vk_VaultID tx = Some x -> vault_Asset x = AMPT id ->
  vk_Account tx = mptIssuer id.
Proof.
  unfold VaultClawback_preclaim. intros Hc Hx Ea. rewrite Hx in Hc. destruct (accounts v !! _); [|done].
  destruct (match vk_Amount tx with Some a => _ | None => _ end); [done|]. rewrite Ea in Hc.
  cbn [asset_native getIssuer] in Hc. destruct (Z.eqb_spec (mptIssuer id) (vk_Account tx)); done.
Qed.

(** ** A deposit *)

Definition more : Number := mkNumber 1250000000000000 (-12).

(** Alice bought two hundred and fifty shares of the vault. *)
Definition saved_view : View :=
  mkLedger sample_env
    (<[alice := mkAccount (st_whole (AIssue xrpIssue) 60000000) 1 lsfDefaultRipple None None None None 1]> (accounts bank_view))
    ∅ (<[share := shares_of 1250]> (issuances bank_view))
    (<[(token, alice) := mkToken 0 350 0]> (<[(token, saver) := mkToken 0 1250 0]>
       (<[(share, alice) := mkToken 0 250 0]> (tokens bank_view))))
    {[alice := {[0 := mkPage [mptoken_key (share, alice)] None None]}]} {[1 := set_vault_assets bank more more]} ∅ ∅ {[token; share]}.

Lemma saved_view_ok : VaultDeposit_doApply sample_settings bank_view save_tx 60000000 = Ok (tesSUCCESS, saved_view).
Proof. vm_compute. reflexivity. Qed.

Definition saved_keys : list EntryKey :=
  [k_account alice; k_vault 1; k_issuance share; k_token (token, alice); k_token (token, saver); k_token (share, alice)].

Definition saved_visits : list Visit := visit_of bank_view saved_view <$> saved_keys.

Lemma saved_described : describes bank_view saved_view saved_visits.
Proof.
  apply visits_describe.
  - apply (bool_decide_unpack _). vm_compute. exact I.
  - apply Forall_forall. repeat constructor; eexists; vm_compute; reflexivity.
  - intros k Hk. unfold saved_keys in Hk. rewrite !not_elem_of_cons in Hk. destruct Hk as (H1 & H2 & H3 & H4 & H5 & H6 & _).
    destruct k as [k|k|k|k|k|k|k|k]; try done; simpl.
   + rewrite lookup_insert_ne by congruence. done.
   + rewrite lookup_insert_ne by congruence. done.
   + rewrite !lookup_insert_ne by congruence. done.
    + rewrite !lookup_singleton_ne by congruence. done.
Qed.

Lemma saved_small : small_change bank_view saved_view 1 saved_visits.
Proof.
  assert (forall w, w = bank_view \/ w = saved_view -> named w) as Hn.
  { intros w Hw id i. assert (issuances w !! id = Some i -> id = token \/ id = share) as Hid.
    { destruct Hw as [-> | ->]; simpl; rewrite !lookup_insert_Some, ?lookup_singleton_Some; intuition auto. }
    intros E. destruct (Hid E) as [-> | ->]; destruct Hw as [-> | ->]; vm_compute in E; injection E as <-; by vm_compute. }
  split; [apply saved_described| | |by apply Hn; left|by apply Hn; right].
  - intros x (k & -> & Hk)%list_elem_of_fmap. intros e He. unfold saved_keys in Hk.
    repeat (apply elem_of_cons in Hk as [-> |Hk];
      [destruct He as [He|He]; vm_compute in He; try done; injection He as <-; try done;
         first [by split; vm_compute|exists 60000000; split; [reflexivity|by split; vm_compute]]|]).
    by apply elem_of_nil in Hk.
  - intros x id (k & -> & Hk)%list_elem_of_fmap. intros E. unfold saved_keys in Hk.
    repeat (apply elem_of_cons in Hk as [-> |Hk]; [by vm_compute in E; injection E|]). by apply elem_of_nil in Hk.
Qed.

Lemma saved_watched : watched bank_view saved_view 1 bank token saved_visits.
Proof. split; [apply saved_small|by vm_compute..]. Qed.

(** ** Theorems *)

(** C8. The ledger that a deposit, a withdrawal or a clawback leaves is accepted by the
    checker of vaults, provided assets and shares moved, no balance has more than sixteen
    digits and, when the last shares go, no loss is pending. *)
Theorem vault_funds_pass_checks `{Keylets} cfg v v' vid x i id l fee :
  banking cfg v vid x i id -> watched v v' vid x id l -> assets_of v' vid <> assets_of v vid ->
  outstanding v' (vault_ShareMPTID x) <> outstanding v (vault_ShareMPTID x) ->
  (outstanding v' (vault_ShareMPTID x) = 0 -> units 0 (vault_LossUnrealized x) = 0) ->
  (forall tx prior a, vp_VaultID tx = vid -> vp_Amount tx = mpt_amount id a -> 0 <= a ->
     units 0 (vault_AssetsTotal x) + a <= maxMantissa -> vp_Account tx <> vault_Account x ->
     VaultDeposit_doApply cfg v tx prior = Ok (tesSUCCESS, v') ->
     ValidVault_check cfg v' l (deposit_seen tx) tesSUCCESS fee = Ok true) /\
  (forall tx prior q a, vw_VaultID tx = vid -> vw_Amount tx = mpt_amount q a -> q = id \/ q = vault_ShareMPTID x ->
     0 <= a <= maxMPTokenAmount -> vw_Account tx <> vault_Account x ->
     default (vw_Account tx) (vw_Destination tx) <> vault_Account x ->
     vw_Account tx <> mptIssuer id \/ vw_Account tx = default (vw_Account tx) (vw_Destination tx) ->
     VaultWithdraw_doApply cfg v tx prior = Ok (tesSUCCESS, v') ->
     ValidVault_check cfg v' l (withdraw_seen tx) tesSUCCESS fee = Ok true) /\
  (forall tx, vk_VaultID tx = vid ->
     (forall t, vk_Amount tx = Some t -> exists a, t = mpt_amount id a /\ 0 <= a <= maxMPTokenAmount) ->
     vk_Holder tx <> vault_Account x -> VaultClawback_preclaim v tx = tesSUCCESS ->
     VaultClawback_doApply cfg v tx = Ok (tesSUCCESS, v') ->
     ValidVault_check cfg v' l (clawback_seen tx) tesSUCCESS fee = Ok true).
Proof.
  intros B W Hd Hn Hl. splits; intros tx.
  - intros prior a Ev Ea Ha Hm Hp Hr.
    destruct (deposit_vault_moved cfg v vid x i id B tx prior a v' Ev Ea Ha Hm Hr) as (d & n & Hda & Hn0 & M & y & Hy & Ho).
    pose proof (assets_moved _ _ _ _ _ _ _ _ _ _ _ B M) as E.
    pose proof (tv_loss_range _ _ _ _ (banking_vault _ _ _ _ _ _ B)) as A0.
    eapply (deposit_checked cfg v v' vid x i id _ _ _ _ l B M); [by apply watched_visible; auto; lia|done..|lia|lia|done|exact Hy|done].
  - intros prior q a Ev Ea Hq Ha Hp Hp' Hi Hr.
    destruct (withdraw_vault_moved cfg v vid x i id B tx prior q a v' Ev Ea Hq Ha Hr) as (d & n & Hda & Hn0 & M & Hw).
    pose proof (assets_moved _ _ _ _ _ _ _ _ _ _ _ B M) as E. pose proof (shares_moved _ _ _ _ _ _ _ _ _ _ M W Hp) as En.
    eapply (withdraw_checked cfg v v' vid x i id _ _ _ _ l B M); [by apply watched_visible; auto; lia| |done..|lia|lia].
    eapply (paid_out_empties _ _ _ _ _ _ _ _ _ _ _ _ B M W); auto; lia.
  - intros Ev Ha Hp Hc Hr.
    destruct (clawback_vault_moved cfg v vid x i id B tx v' Ev Ha Hr) as (d & n & Hda & Hn0 & M & Hw).
    pose proof (assets_moved _ _ _ _ _ _ _ _ _ _ _ B M) as E. pose proof (shares_moved _ _ _ _ _ _ _ _ _ _ M W Hp) as En.
    assert (vk_Account tx = mptIssuer id) as Ei
      by (eapply clawback_issuer; [done|rewrite Ev; apply (bv_vault _ _ _ _ _ _ B)|apply (bv_asset _ _ _ _ _ _ B)]).
    assert (vk_Account tx <> vault_Account x) as Hi by (rewrite Ei; apply not_eq_sym, (wt_asset _ _ _ _ _ _ W)).
    eapply (clawback_checked cfg v v' vid x i id _ _ _ _ l B M); [by apply watched_visible; auto; lia| |done..|lia|lia].
    eapply (paid_out_empties _ _ _ _ _ _ _ _ _ _ _ _ B M W); auto; lia.
Qed.

Lemma vault_funds_pass_checks_witness :
  VaultDeposit_doApply sample_settings bank_view save_tx 60000000 = Ok (tesSUCCESS, saved_view) /\
  ValidVault_check sample_settings saved_view saved_visits (deposit_seen save_tx) tesSUCCESS 10 = Ok true.
Proof.
  split; [exact saved_view_ok|].
  assert (assets_of saved_view 1 <> assets_of bank_view 1) as Ha by (vm_compute; congruence).
  assert (outstanding saved_view (vault_ShareMPTID bank) <> outstanding bank_view (vault_ShareMPTID bank)) as Hs
    by (vm_compute; congruence).
  assert (outstanding saved_view (vault_ShareMPTID bank) = 0 -> units 0 (vault_LossUnrealized bank) = 0) as Hl by done.
  destruct (vault_funds_pass_checks sample_settings bank_view saved_view 1 bank (shares_of 1000) token saved_visits 10
    bank_banking saved_watched Ha Hs Hl) as (P & _ & _).
  apply (P save_tx 60000000 250); [done|done|lia|vm_compute; congruence|vm_compute; congruence|exact saved_view_ok].
Defined.

(** ** Transactions that the checker undoes *)

(** The entries of the vault, its shares and the holdings of its account and bob. *)
Definition holder_keys : list EntryKey :=
  [k_vault 1; k_issuance share; k_token (token, bob); k_token (token, saver); k_token (share, bob)].

(** The result of a withdrawal by bob and what the checker says of it. *)
Definition withdrawn (v : View) (tx : VaultWithdrawTx) : result (TER * bool) :=
  let* (ter, w) := VaultWithdraw_doApply sample_settings v tx 70000000 in
  let* ok := ValidVault_check sample_settings w (visit_of v w <$> holder_keys) (withdraw_seen tx) ter 10 in
  Ok (ter, ok).

(** Bob has [shares] of the shares, alice [others]. *)
Definition vault_view (x : Vault) (held shares others : Z) : View :=
  mkLedger sample_env (accounts bank_view) ∅
    {[token := mkIssuance gateway lsfMPTCanTransfer (held + 600) None None None 0 0 0 None 0; share := shares_of (shares + others)]}
    {[(token, alice) := mkToken 0 600 0; (token, saver) := mkToken 0 held 0; (share, bob) := mkToken 0 shares 0;
      (share, alice) := mkToken 0 others 0]}
    ∅ {[1 := x]} ∅ ∅ ∅.

Definition redeem_tx (n : Z) : VaultWithdrawTx := mkVaultWithdraw bob 1 (mpt_amount share n) None false.

Definition four_hundred : Number := mkNumber 4000000000000000 (-13).
Definition six_hundred : Number := mkNumber 6000000000000000 (-13).

(** Six hundred of a thousand tokens are lent and the loan is impaired.  The only holder
    redeems all shares for the four hundred that are left: the vault would have assets and
    no shares. *)
Example impaired_last_withdrawal_undone :
  withdrawn (vault_view (mkVault bob saver (AMPT token) thousand four_hundred six_hundred share 0 zero 0 1 4 0 None) 400 1000 0)
    (redeem_tx 1000) = Ok (tesSUCCESS, false).
Proof. vm_compute. reflexivity. Qed.

(** One of three shares of a vault of one token is worth none. *)
Example worthless_withdrawal_undone :
  withdrawn (vault_view (mkVault bob saver (AMPT token) one one zero share 0 zero 0 1 4 0 None) 1 1 2) (redeem_tx 1)
  = Ok (tesSUCCESS, false).
Proof. vm_compute. reflexivity. Qed.

(** Bob has 33 of the 10^17 + 33 shares, which are worth three tokens; with sixteen digits
    the number of shares does not change. *)
Example many_shares_withdrawal_undone :
  let worth := mkNumber 9000000000000000 0 in
  withdrawn (vault_view (mkVault bob saver (AMPT token) worth worth zero share 0 zero 0 1 4 0 None) 9000000000000000 33
               100000000000000000) (redeem_tx 33) = Ok (tesSUCCESS, false).
Proof. vm_compute. reflexivity. Qed.

(** ** Loan transactions and the checkers of loans *)

Local Open Scope Z_scope.

(** ** An impaired loan *)

Definition million_lent : View := lending_view half_million sample_entry.

Definition impaired_vault : Vault := set_vault_loss sample_vault (mkNumber 1064611000000000 (-9)).
Definition impaired_entry : LoanEntry :=
  set_loan_fields (set_loan_flags sample_entry false true) (set_nextDue sample_loan (Some 1000)).

Definition impaired_view : View := update_loan (update_vault million_lent 1 impaired_vault) 3 impaired_entry.

Lemma impaired_view_ok : LoanManage_doApply sample_settings million_lent impair_tx = Ok (tesSUCCESS, impaired_view).
Proof. vm_compute. reflexivity. Qed.

Definition impaired_visits : list Visit := visit_of million_lent impaired_view <$> [k_vault 1; k_loan 3].

Lemma impaired_described : describes million_lent impaired_view impaired_visits.
Proof.
  apply visits_describe.
  - apply (bool_decide_unpack _). vm_compute. exact I.
  - apply Forall_forall. repeat constructor; eexists; vm_compute; reflexivity.
  - intros k Hk. rewrite !not_elem_of_cons in Hk. destruct Hk as (H1 & H2 & _).
    destruct k as [k|k|k|k|k|k|k|k]; try done; simpl; by rewrite !lookup_insert_ne by congruence.
Qed.

Lemma million_sound : sound_loans million_lent.
Proof. intros k l. simpl. rewrite lookup_singleton_Some. intros [_ <-]. by vm_compute. Qed.

(** ** Theorems *)

(** C9. No transaction of the lending protocol changes a field of a loan or of a broker
    that the server calls unmodifiable, so the check for such fields accepts what every
    one of them leaves.  The sequence number of a loan, which the check does not look at,
    does not change either. *)
Theorem lending_terms_immutable `{Keylets} cfg engine v v' l :
  (forall v s d a m ter v', engine v s d a m = Ok (ter, v') -> frame v' = frame v) ->
  transition cfg engine v v' -> describes v v' l ->
  NoModifiedUnmodifiableFields_finalize v' l = true /\
  (forall k x y, loans v !! k = Some x -> loans v' !! k = Some y -> contract y = contract x) /\
  (forall k x y, brokers v !! k = Some x -> brokers v' !! k = Some y -> charter y = charter x).
Proof.
  intros He Ht D. pose proof (transition_kept cfg engine v v' He Ht) as K.
  split; [|split; apply K]. unfold NoModifiedUnmodifiableFields_finalize. by rewrite (kept_unmodified v v' l K D).
Qed.

Lemma lending_terms_immutable_witness :
  transition sample_settings no_path million_lent impaired_view /\
  NoModifiedUnmodifiableFields_finalize impaired_view impaired_visits = true.
Proof.
  assert (transition sample_settings no_path million_lent impaired_view) as Ht
    by (apply (tr_loan_manage _ _ _ impair_tx); [by vm_compute|by vm_compute|exact impaired_view_ok]).
  split; [exact Ht|].
  apply (lending_terms_immutable sample_settings no_path million_lent impaired_view impaired_visits);
    [unfold no_path; congruence|exact Ht|exact impaired_described].
Defined.

(** C26. When every loan satisfies the conditions of [ValidLoan], every loan satisfies
    them after a loan is made, impaired, restored, declared in default, paid in full, or
    paid by regular payments that leave a total not below zero, and the check accepts
    what the transaction leaves. *)
Theorem loans_pass_checks `{Keylets} cfg v v' :
  sound_loans v ->
  (forall r dry tx prior, LoanSet_preflight r dry tx = tesSUCCESS ->
     LoanSet_doApply cfg v tx prior = Ok (tesSUCCESS, v') -> loans_accepted v v') /\
  (forall tx, LoanManage_doApply cfg v tx = Ok (tesSUCCESS, v') -> loans_accepted v v') /\
  (forall tx, isFlag (pay_Flags tx) tfLoanFullPayment = true ->
     LoanPay_doApply cfg v tx = Ok (tesSUCCESS, v') -> loans_accepted v v') /\
  (forall s vid tx l b x u sf amt, paying cfg s vid v tx l b x u sf amt ->
     (forall l', loans v' !! pay_LoanID tx = Some l' ->
        number_ltb (sfTotalValueOutstanding (loan_fields l')) zero = false) ->
     LoanPay_doApply cfg v tx = Ok (tesSUCCESS, v') -> loans_accepted v v').
Proof.
  intros S. splits.
  - intros r dry tx prior Hf Hr. apply sound_accepted; [by eapply loan_set_kept|by eapply new_loan_sound].
  - intros tx Hr. apply sound_accepted; [by eapply manage_kept|by eapply manage_sound].
  - intros tx Hf Hr. apply sound_accepted; [by eapply pay_kept|by eapply full_payment_sound].
  - intros s vid tx l b x u sf amt P Ht Hr. apply sound_accepted; [by eapply pay_kept|by eapply regular_payment_sound].
Qed.

Lemma loans_pass_checks_witness :
  LoanManage_doApply sample_settings million_lent impair_tx = Ok (tesSUCCESS, impaired_view) /\
  ValidLoan_finalize impaired_visits = true.
Proof.
  split; [exact impaired_view_ok|].
  destruct (loans_pass_checks sample_settings million_lent impaired_view million_sound) as (_ & Manage & _).
  destruct (Manage impair_tx impaired_view_ok) as [_ A]. apply A; [exact impaired_described|].
  intros x (k & -> & _)%list_elem_of_fmap. done.
Defined.

(** The check names [sfSequence], which a loan does not have; a change of its
    [sfLoanSequence] is not noticed. *)
Example loan_sequence_unwatched :
  let renumbered := mkLoanEntry sample_loan alice 2 60 false false zero 2 0 0 in
  loan_LoanSequence sample_entry = 1 /\ loan_LoanSequence renumbered = 2 /\
  NoModifiedUnmodifiableFields_finalize million_lent
    [mkVisit false (Some (e_loan 3 sample_entry)) (Some (e_loan 3 renumbered))] = true.
Proof. splits; by vm_compute. Qed.
