(* ===== verification/InvariantChecks.v ===== *)
(** * The checks on accounts, trust lines and tokens, and all checks together

    The checkers that do not concern the lending protocol alone, and the function that
    runs them ([src/xrpld/app/tx/detail/InvariantCheck.cpp], [ApplyContext.cpp]).  Offers,
    escrows, payment channels, tokens that are not fungible, domains and liquidity pools
    are not entries of the model; the checkers for them are left out. *)

From S2P Require Import Prelude.
From S2P Require Import Ter.
From S2P Require Import XrplNumber.
From S2P Require Import Amounts.
From S2P Require Import Lending.
From S2P Require Import Directories.
From S2P Require Import LedgerState.
From S2P Require Import Holdings.
From S2P Require Import Transfers.
From S2P Require Import Invariants.
From stdpp Require Import gmap list.

Local Open Scope Z_scope.
Local Open Scope xrpl_scope.

(** ** XRP *)

Definition INITIAL_XRP : Z := 100000000000 * 1000000.

Definition TransactionFeeCheck_finalize (tx : CheckedTx) (fee : Z) : bool :=
  negb (fee <? 0) && negb (INITIAL_XRP <=? fee) && negb (ct_Fee tx <? fee).

(** The drops of an account; other entries of the model have none. *)
Definition entry_drops (e : option Entry) : result Z :=
  match e with Some (e_account _ a) => xrp (acct_Balance a) | _ => Ok 0 end.

(** [drops_] is a signed 64-bit counter. *)
Fixpoint XRPNotCreated_visit (drops_ : Z) (l : list Visit) : result Z :=
  match l with
  | [] => Ok drops_
  | x :: l =>
      let* b := entry_drops (before x) in
      let drops_ := i64 (drops_ - b) in
      let* a := entry_drops (after x) in
      XRPNotCreated_visit (i64 (drops_ + a)) l
  end.

Definition XRPNotCreated_finalize (drops_ fee : Z) : bool := negb (0 <? drops_) && (i64 (- drops_) =? fee).

Definition XRPNotCreated_check (l : list Visit) (fee : Z) : result bool :=
  let* drops_ := XRPNotCreated_visit 0 l in Ok (XRPNotCreated_finalize drops_ fee).

Definition bad_balance (e : option Entry) : bool :=
  match e with
  | Some (e_account _ a) =>
      match xrp (acct_Balance a) with
      | Ok drops => (INITIAL_XRP <? drops) || (drops <? 0)
      | Throw _ => true
      end
  | _ => false
  end.

Definition XRPBalanceChecks (l : list Visit) : bool :=
  negb (existsb (fun x => bad_balance (before x) || bad_balance (after x)) l).

(** ** Accounts *)

Definition is_account (e : option Entry) : bool := match e with Some (e_account _ _) => true | _ => false end.

Definition accountsDeleted (l : list Visit) : Z :=
  Z.of_nat (length (List.filter (fun x => isDelete x && is_account (before x)) l)).

Definition AccountRootsNotDeleted (l : list Visit) (tx : CheckedTx) (ret : TER) : bool :=
  let n := accountsDeleted l in
  if hasPrivilege (ct_type tx) mustDeleteAcct && isTesSuccess ret then n =? 1
  else if hasPrivilege (ct_type tx) mayDeleteAcct && isTesSuccess ret && (n =? 1) then true
  else n =? 0.

(** Of what may be left behind the model has the account, its directory and the entry that
    a pseudo-account belongs to. *)
Definition left_behind (v : View) (id : Z) (b : AccountRoot) : bool :=
  bool_decide (is_Some (accounts v !! id)) || bool_decide (is_Some (ownerDirs v !! id)) ||
  match acct_AMMID b with Some k => bool_decide (is_Some (amms (env v) !! k)) | None => false end ||
  match acct_VaultID b with Some k => bool_decide (is_Some (vaults v !! k)) | None => false end ||
  match acct_LoanBrokerID b with Some k => bool_decide (is_Some (brokers v !! k)) | None => false end.

Definition deleted_clean (v : View) (x : Visit) : bool :=
  match isDelete x, before x, after x with
  | true, Some (e_account id b), Some (e_account _ a) =>
      st_is_zero (acct_Balance a) && (acct_OwnerCount a =? 0) && negb (left_behind v id b)
  | _, _, _ => true
  end.

Definition AccountRootsDeletedClean (v : View) (l : list Visit) : bool :=
  if featureSingleAssetVault (rules (env v)) || featureLendingProtocol (rules (env v))
  then forallb (deleted_clean v) l else true.

(** The accounts that are new; the last one is remembered. *)
Definition accountsCreated (l : list Visit) : list AccountRoot :=
  omap (fun x => match before x, after x with None, Some (e_account _ a) => Some a | _, _ => None end) l.

Definition ValidNewAccountRoot (v : View) (l : list Visit) (tx : CheckedTx) (ret : TER) : bool :=
  let r := rules (env v) in
  match accountsCreated l with
  | [] => true
  | [a] =>
      if (hasPrivilege (ct_type tx) createAcct || hasPrivilege (ct_type tx) createPseudoAcct) && isTesSuccess ret then
        let pseudo := isPseudoAccount a && (featureSingleAssetVault r || featureLendingProtocol r) in
        if pseudo && negb (hasPrivilege (ct_type tx) createPseudoAcct) then false
        else
          let startingSeq := if pseudo then 0 else if featureDeletableAccounts r then ledgerSeq (env v) else 1 in
          (acct_Sequence a =? startingSeq) &&
          negb (pseudo && negb (acct_Flags a =? Z.lor (Z.lor lsfDisableMaster lsfDefaultRipple) lsfDepositAuth))
      else false
  | _ => false
  end.

(** Accounts of the model have no regular key. *)
Definition pseudo_fields (a : AccountRoot) : Z :=
  (if bool_decide (is_Some (acct_AMMID a)) then 1 else 0) + (if bool_decide (is_Some (acct_VaultID a)) then 1 else 0) +
  (if bool_decide (is_Some (acct_LoanBrokerID a)) then 1 else 0).

Definition pseudo_error (x : Visit) : bool :=
  match isDelete x, after x with
  | false, Some (e_account _ a) =>
      (isPseudoAccount a || (acct_Sequence a =? 0)) &&
      (negb (pseudo_fields a =? 1) ||
       match before x with
       | Some (e_account _ b) => negb (acct_Sequence b =? acct_Sequence a)
       | _ => false
       end ||
       negb (isFlag (acct_Flags a) (Z.lor (Z.lor lsfDisableMaster lsfDefaultRipple) lsfDepositAuth)))
  | _, _ => false
  end.

Definition ValidPseudoAccounts (v : View) (l : list Visit) : bool :=
  negb (existsb pseudo_error l && featureSingleAssetVault (rules (env v))).

(** ** Types *)

Definition same_type (b a : Entry) : bool :=
  match b, a with
  | e_account _ _, e_account _ _ | e_line _ _, e_line _ _ | e_issuance _ _, e_issuance _ _ | e_token _ _, e_token _ _
  | e_vault _ _, e_vault _ _ | e_broker _ _, e_broker _ _ | e_loan _ _, e_loan _ _ | e_other _, e_other _ => true
  | _, _ => false
  end.

Definition LedgerEntryTypesMatch (l : list Visit) : bool :=
  forallb (fun x => match before x, after x with Some b, Some a => same_type b a | _, _ => true end) l.

(** ** Trust lines *)

Definition visited_lines (l : list Visit) : list RippleState :=
  omap (fun x => match after x with Some (e_line _ y) => Some y | _ => None end) l.

Definition xrp_line (y : RippleState) : bool :=
  asset_eqb (mAsset (line_LowLimit y)) (AIssue xrpIssue) || asset_eqb (mAsset (line_HighLimit y)) (AIssue xrpIssue).

(** The flag is assigned at every line: the last one counts. *)
Definition NoXRPTrustLines (l : list Visit) : bool :=
  negb (List.fold_left (fun _ y => xrp_line y) (visited_lines l) false).

Definition deep_without_freeze (y : RippleState) : bool :=
  let f := line_Flags y in
  (hasFlag f lsfLowDeepFreeze && negb (hasFlag f lsfLowFreeze)) ||
  (hasFlag f lsfHighDeepFreeze && negb (hasFlag f lsfHighFreeze)).

Definition NoDeepFreezeTrustLinesWithoutFreeze (l : list Visit) : bool :=
  negb (List.fold_left (fun _ y => deep_without_freeze y) (visited_lines l) false).

(** *** [TransfersNotFrozen] *)

Definition lsfAMMNode : Z := 0x01000000.

Record BalanceChange : Set := mkBalanceChange { bc_line : RippleState; balanceChangeSign : Z }.
Record IssuerChanges : Set := mkIssuerChanges { senders : list BalanceChange; receivers : list BalanceChange }.

Record TransfersNotFrozen := mkTransfersNotFrozen {
  balanceChanges_ : gmap (Z * Z) IssuerChanges;       (* by currency and issuer *)
  possibleIssuers_ : gmap Z AccountRoot }.

Definition low_account (y : RippleState) : Z := getIssuer (mAsset (line_LowLimit y)).
Definition high_account (y : RippleState) : Z := getIssuer (mAsset (line_HighLimit y)).
Definition line_currency (y : RippleState) : Z :=
  match mAsset (line_Balance y) with AIssue i => currency i | AMPT _ => 0 end.

Definition recordBalance (m : gmap (Z * Z) IssuerChanges) (issue : Z * Z) (c : BalanceChange)
  : gmap (Z * Z) IssuerChanges :=
  let old := default (mkIssuerChanges [] []) (m !! issue) in
  <[issue := if balanceChangeSign c <? 0 then mkIssuerChanges (senders old ++ [c]) (receivers old)
             else mkIssuerChanges (senders old) (receivers old ++ [c])]> m.

Definition recordBalanceChanges (m : gmap (Z * Z) IssuerChanges) (y : RippleState) (sign : Z)
  : gmap (Z * Z) IssuerChanges :=
  let m := recordBalance m (line_currency y, high_account y) (mkBalanceChange y sign) in
  recordBalance m (line_currency y, low_account y) (mkBalanceChange y (- sign)).

Section Frozen.
Context (cfg : Settings).

Definition calculateBalanceChange (b : option RippleState) (a : RippleState) (isDelete : bool) : result STAmount :=
  let* balanceBefore := match b with Some b => Ok (line_Balance b) | None => st_zeroed cfg (mAsset (line_Balance a)) end in
  let* balanceAfter := if isDelete then st_zeroed cfg (mAsset (line_Balance a)) else Ok (line_Balance a) in
  st_sub cfg balanceAfter balanceBefore.

Definition TransfersNotFrozen_visitEntry (st : TransfersNotFrozen) (x : Visit) : result TransfersNotFrozen :=
  match after x with
  | Some (e_account id a) =>
      Ok (mkTransfersNotFrozen (balanceChanges_ st)
            (match possibleIssuers_ st !! id with Some _ => possibleIssuers_ st | None => <[id := a]> (possibleIssuers_ st) end))
  | Some (e_line _ a) =>
      let change (b : option RippleState) :=
        let* c := calculateBalanceChange b a (isDelete x) in
        Ok (if st_signum c =? 0 then st
            else mkTransfersNotFrozen (recordBalanceChanges (balanceChanges_ st) a (st_signum c)) (possibleIssuers_ st)) in
      match before x with
      | None => change None
      | Some (e_line _ b) => change (Some b)
      | Some _ => Ok st
      end
  | _ => Ok st
  end.

Fixpoint TransfersNotFrozen_visit (st : TransfersNotFrozen) (l : list Visit) : result TransfersNotFrozen :=
  match l with
  | [] => Ok st
  | x :: l => let* st := TransfersNotFrozen_visitEntry st x in TransfersNotFrozen_visit st l
  end.

(** None of the types modelled overrides a freeze but by its privileges. *)
Definition validateFrozenState (tx : CheckedTx) (enforce globalFreeze high : bool) (c : BalanceChange) : bool :=
  let f := line_Flags (bc_line c) in
  let freeze := (balanceChangeSign c <? 0) && isFlag f (if high then lsfLowFreeze else lsfHighFreeze) in
  let deepFreeze := isFlag f (if high then lsfLowDeepFreeze else lsfHighDeepFreeze) in
  if negb (globalFreeze || deepFreeze || freeze) then true
  else if (negb (isFlag f lsfAMMNode) || globalFreeze) && hasPrivilege (ct_type tx) overrideFreeze then true
  else negb enforce.

Definition validateIssuerChanges (tx : CheckedTx) (enforce : bool) (id : Z) (issuer : AccountRoot) (c : IssuerChanges) : bool :=
  let globalFreeze := isFlag (acct_Flags issuer) lsfGlobalFreeze in
  match receivers c, senders c with
  | [], _ | _, [] => true
  | rs, ss =>
      forallb (fun c => validateFrozenState tx enforce globalFreeze (low_account (bc_line c) =? id) c) (ss ++ rs)
  end.

Definition findIssuer (st : TransfersNotFrozen) (v : View) (id : Z) : option AccountRoot :=
  match possibleIssuers_ st !! id with Some a => Some a | None => accounts v !! id end.

(** [enforce] is whether the amendment for deep freezes is enabled. *)
Definition TransfersNotFrozen_finalize (st : TransfersNotFrozen) (v : View) (tx : CheckedTx) (enforce : bool) : bool :=
  forallb (fun p : (Z * Z) * IssuerChanges =>
             match findIssuer st v p.1.2 with
             | None => negb enforce
             | Some issuer => validateIssuerChanges tx enforce p.1.2 issuer p.2
             end) (map_to_list (balanceChanges_ st)).

Definition TransfersNotFrozen_check (v : View) (l : list Visit) (tx : CheckedTx) (enforce : bool) : result bool :=
  let* st := TransfersNotFrozen_visit (mkTransfersNotFrozen ∅ ∅) l in Ok (TransfersNotFrozen_finalize st v tx enforce).

End Frozen.

(** ** Multi-purpose tokens *)

(** The part of [NoZeroEscrow] for tokens; the model has no locked amounts. *)
Definition bad_amount (amount : Z) : bool := (maxMPTokenAmount <? i64 amount) || (i64 amount <? 0).

Definition NoZeroEscrow (l : list Visit) : bool :=
  negb (existsb (fun x => match after x with
                          | Some (e_issuance _ i) => bad_amount (iss_OutstandingAmount i)
                          | Some (e_token _ t) => bad_amount (tok_MPTAmount t)
                          | _ => false
                          end) l).

(** The counters of [ValidMPTIssuance]. *)
Record MPTCounts : Set := mkMPTCounts {
  mptIssuancesCreated_ : Z;
  mptIssuancesDeleted_ : Z;
  mptokensCreated_ : Z;
  mptokensDeleted_ : Z;
  mptCreatedByIssuer_ : bool }.

Definition ValidMPTIssuance_visitEntry (c : MPTCounts) (x : Visit) : MPTCounts :=
  let '(mkMPTCounts ic id tc td by_issuer) := c in
  let fresh := negb (bool_decide (is_Some (before x))) in
  match after x with
  | Some (e_issuance _ _) =>
      if isDelete x then mkMPTCounts ic (id + 1) tc td by_issuer
      else if fresh then mkMPTCounts (ic + 1) id tc td by_issuer else c
  | Some (e_token (t, holder) _) =>
      if isDelete x then mkMPTCounts ic id tc (td + 1) by_issuer
      else if fresh then mkMPTCounts ic id (tc + 1) td (by_issuer || (mptIssuer t =? holder)) else c
  | _ => c
  end.

Definition mpt_counts (l : list Visit) : MPTCounts :=
  List.fold_left ValidMPTIssuance_visitEntry l (mkMPTCounts 0 0 0 0 false).

Definition untouched (c : MPTCounts) : bool :=
  (mptIssuancesCreated_ c =? 0) && (mptIssuancesDeleted_ c =? 0) && (mptokensCreated_ c =? 0) && (mptokensDeleted_ c =? 0).

Definition authorized_valid (lending : bool) (tx : CheckedTx) (c : MPTCounts) : bool :=
  let submittedByIssuer := bool_decide (is_Some (ct_Holder tx)) in
  if 0 <? mptIssuancesCreated_ c then false
  else if 0 <? mptIssuancesDeleted_ c then false
  else if lending && (1 <? mptokensCreated_ c + mptokensDeleted_ c) then false
  else if submittedByIssuer && ((0 <? mptokensCreated_ c) || (0 <? mptokensDeleted_ c)) then false
  else negb (negb submittedByIssuer && hasPrivilege (ct_type tx) mustAuthorizeMPT &&
             negb (mptokensCreated_ c + mptokensDeleted_ c =? 1)).

(** None of the types modelled finishes an escrow. *)
Definition ValidMPTIssuance_finalize (v : View) (tx : CheckedTx) (ret : TER) (c : MPTCounts) : bool :=
  let r := rules (env v) in
  let t := ct_type tx in
  if isTesSuccess ret then
    if mptCreatedByIssuer_ c && (featureSingleAssetVault r || featureLendingProtocol r) then false
    else if hasPrivilege t createMPTIssuance then (mptIssuancesCreated_ c =? 1) && (mptIssuancesDeleted_ c =? 0)
    else if hasPrivilege t destroyMPTIssuance then (mptIssuancesCreated_ c =? 0) && (mptIssuancesDeleted_ c =? 1)
    else if hasPrivilege t mustAuthorizeMPT || hasPrivilege t mayAuthorizeMPT
    then authorized_valid (featureLendingProtocol r) tx c
    else if hasPrivilege t mayDeleteMPT && (mptokensDeleted_ c =? 1) && (mptokensCreated_ c =? 0) &&
            (mptIssuancesCreated_ c =? 0) && (mptIssuancesDeleted_ c =? 0)
    then true
    else untouched c
  else untouched c.

Definition ValidMPTIssuance_check (v : View) (l : list Visit) (tx : CheckedTx) (ret : TER) : bool :=
  ValidMPTIssuance_finalize v tx ret (mpt_counts l).

(** ** All checks *)

Definition failInvariantCheck (ret : TER) : TER :=
  match ret with
  | tecINVARIANT_FAILED | tefINVARIANT_FAILED => tefINVARIANT_FAILED
  | _ => tecINVARIANT_FAILED
  end.

(** Every check runs; an exception counts as a failure. *)
Definition checkInvariants `{Keylets} (cfg : Settings) (v : View) (l : list Visit) (tx : CheckedTx)
    (ret : TER) (fee : Z) : TER :=
  let checks :=
    let* xrp := XRPNotCreated_check l fee in
    let* frozen := TransfersNotFrozen_check cfg v l tx (featureDeepFreeze (rules (env v))) in
    let* vault := ValidVault_check cfg v l tx ret fee in
    Ok (TransactionFeeCheck_finalize tx fee && AccountRootsNotDeleted l tx ret && AccountRootsDeletedClean v l &&
        LedgerEntryTypesMatch l && XRPBalanceChecks l && xrp && NoXRPTrustLines l &&
        NoDeepFreezeTrustLinesWithoutFreeze l && frozen && NoZeroEscrow l && ValidNewAccountRoot v l tx ret &&
        ValidMPTIssuance_check v l tx ret && NoModifiedUnmodifiableFields_finalize v l && ValidPseudoAccounts v l &&
        ValidLoanBroker_finalize v l && ValidLoan_finalize l && vault) in
  match checks with Ok true => ret | _ => failInvariantCheck ret end.
