(* ===== verification/InvariantXRP.v ===== *)
(** * The check for XRP, and transactions that checks undo

    The check for created XRP adds up the changes of the entries that it is shown; it
    accepts a transaction exactly when the XRP of all accounts together falls by the fee.
    At the end, results of transactors that the checks refuse. *)

From S2P Require Import Prelude.
From S2P Require Import Ter.
From S2P Require Import XrplNumber.
From S2P Require Import Amounts.
From S2P Require Import AmountsRound.
From S2P Require Import Lending.
From S2P Require Import LendingProps.
From S2P Require Import Directories.
From S2P Require Import LedgerState.
From S2P Require Import Holdings.
From S2P Require Import Transfers.
From S2P Require Import Transactors.
From S2P Require Import TransfersMPT.
From S2P Require Import TransfersXRP.
From S2P Require Import SampleLedger.
From S2P Require Import LoanManage.
From S2P Require Import LoanBrokers.
From S2P Require Import LoanPay.
From S2P Require Import LoanSet.
From S2P Require Import LoanProps.
From S2P Require Import LoanSetProps.
From S2P Require Import Vaults.
From S2P Require Import VaultFunds.
From S2P Require Import VaultProps.
From S2P Require Import Invariants.
From S2P Require Import InvariantChecks.
From S2P Require Import InvariantFacts.
From S2P Require Import InvariantProps.
From stdpp Require Import gmap list.

Local Open Scope Z_scope.
Local Open Scope xrpl_scope.

(** ** Sums of changes *)

Fixpoint zsum {A} (f : A -> Z) (l : list A) : Z :=
  match l with [] => 0 | x :: l => f x + zsum f l end.

Lemma sum_ext {A} (f g : A -> Z) l : (forall x, x ∈ l -> f x = g x) -> zsum f l = zsum g l.
Proof.
  induction l as [|x l IH]; intros E; simpl; [done|]. rewrite (E x) by left. rewrite IH; [done|].
  intros y Hy. apply E. by right.
Qed.

(** A sum over a map after the entries of a list of keys have changed. *)
Lemma msum_changed {A} (f : A -> Z) (m m' : gmap Z A) ks :
  NoDup ks -> (forall k, k ∉ ks -> m' !! k = m !! k) ->
  msum (fun _ x => f x) m' =
  msum (fun _ x => f x) m + zsum (fun k => from_option f 0 (m' !! k) - from_option f 0 (m !! k)) ks.
Proof.
  revert m. induction ks as [|k ks IH]; intros m Hn Hk.
  - assert (m' = m) as -> by (apply map_eq; intros j; apply Hk, not_elem_of_nil). simpl. lia.
  - apply NoDup_cons in Hn as [Hx Hn]. rewrite (IH (partial_alter (fun _ => m' !! k) k m) Hn).
    + rewrite (msum_altered (fun _ x => f x)) by done. cbn [zsum].
      repeat match goal with |- context [from_option (fun y => f y) 0 ?o] => change (from_option (fun y => f y) 0 o) with (from_option f 0 o) end.
      rewrite (sum_ext _ (fun k => from_option f 0 (m' !! k) - from_option f 0 (m !! k)) ks); [lia|].
      intros j Hj. rewrite lookup_partial_alter_ne by congruence. done.
    + intros j Hj. rewrite lookup_partial_alter. case_decide; [by subst|]. apply Hk. by apply not_elem_of_cons.
Qed.

Lemma i64_add_l a b : i64 (i64 a + b) = i64 (a + b).
Proof.
  unfold i64. f_equal. replace ((a + 2 ^ 63) mod 2 ^ 64 - 2 ^ 63 + b + 2 ^ 63) with ((a + 2 ^ 63) mod 2 ^ 64 + b) by lia.
  rewrite Zplus_mod_idemp_l. f_equal. lia.
Qed.

(** ** The drops that are shown *)

Definition drops_at (e : option Entry) : Z := match e with Some (e_account _ a) => drops_of a | _ => 0 end.

Definition native_entry (e : option Entry) : Prop :=
  match e with Some (e_account _ a) => native (acct_Balance a) = true | _ => True end.

Lemma entry_drops_at e : native_entry e -> entry_drops e = Ok (drops_at e).
Proof. destruct e as [[]|]; simpl; try done. intros Hn. unfold xrp. by rewrite Hn. Qed.

Lemma XRPNotCreated_visit_sum l d :
  (forall x, x ∈ l -> native_entry (before x) /\ native_entry (after x)) ->
  XRPNotCreated_visit (i64 d) l = Ok (i64 (d + zsum (fun x => drops_at (after x) - drops_at (before x)) l)).
Proof.
  revert d. induction l as [|x l IH]; intros d Hl; simpl; [by rewrite Z.add_0_r|].
  destruct (Hl x (list_elem_of_here _ _)) as [Nb Na]. rewrite (entry_drops_at _ Nb), (entry_drops_at _ Na). cbn [bind].
  change (i64 d - drops_at (before x)) with (i64 d + - drops_at (before x)). rewrite (i64_add_l d), i64_add_l, IH.
  - do 2 f_equal. lia.
  - intros y Hy. apply Hl. by right.
Qed.

(** The accounts among the visits. *)
Definition account_ids (l : list Visit) : list Z :=
  omap (fun x => match visit_key x with Some (k_account id) => Some id | _ => None end) l.

Section Described.
Context (v v' : View) (l : list Visit) (D : describes v v' l).

(** Deleted accounts have no XRP left. *)
Context (Clean : forall x, x ∈ l -> isDelete x = true -> drops_at (after x) = 0).

Lemma visit_drops x : x ∈ l ->
  drops_at (after x) - drops_at (before x) =
  match visit_key x with
  | Some (k_account id) =>
      from_option drops_of 0 (accounts v' !! id) - from_option drops_of 0 (accounts v !! id)
  | _ => 0
  end.
Proof.
  intros Hx. destruct (ds_shows _ _ _ D x Hx) as [(k & -> & He)|[k S]].
  - assert (forall o, (o = before x \/ o = after x) -> drops_at o = 0) as H0; [|rewrite !H0 by auto; done].
    intros o Ho. destruct o as [e|]; [|done]. rewrite (He e); [done|]. by destruct Ho as [<- | <-]; [left|right].
  - rewrite (shows_key _ _ _ _ S). destruct S as [Sb Sa].
    assert (drops_at (after x) = drops_at (entry_at v' k)) as Ea.
    { destruct (isDelete x) eqn:Ed; [|by destruct Sa as [-> _]]. destruct Sa as (_ & -> & _). by rewrite Clean. }
    rewrite Ea, Sb. destruct k; simpl; by try destruct (_ !! _), (_ !! _).
Qed.

Lemma described_native B B' :
  xrp_wf v B -> xrp_wf v' B' -> (forall x, x ∈ l -> isDelete x = true -> native_entry (after x)) ->
  forall x, x ∈ l -> native_entry (before x) /\ native_entry (after x).
Proof.
  intros W W' Hd x Hx. destruct (ds_shows _ _ _ D x Hx) as [(k & _ & He)|[k [Sb Sa]]].
  - split; [destruct (before x) as [e|] eqn:E|destruct (after x) as [e|] eqn:E]; try done; rewrite (He e); auto; done.
  - assert (forall w C, xrp_wf w C -> native_entry (entry_at w k)) as Hw.
    { intros w C [F _ _]. destruct k; simpl; try (by destruct (_ !! _)); [|done].
      destruct (accounts w !! id) as [a|] eqn:Ea; simpl; [|done]. by rewrite (F id a Ea). }
    rewrite Sb. split; [by eapply Hw|]. destruct (isDelete x) eqn:Ed; [by apply Hd|]. destruct Sa as [-> _]. by eapply Hw.
Qed.

Lemma ids_sum (f : Z -> Z) k :
  zsum (fun x => match visit_key x with Some (k_account id) => f id | _ => 0 end) k = zsum f (account_ids k).
Proof.
  induction k as [|x k IH]; simpl; [done|]. unfold account_ids in *. simpl. rewrite IH.
  destruct (visit_key x) as [[]|]; simpl; lia.
Qed.

Lemma ids_nodup : NoDup (account_ids l).
Proof.
  pose proof (ds_distinct _ _ _ D) as Hn. clear D Clean. induction l as [|x k IH]; [constructor|].
  simpl in Hn. apply NoDup_cons in Hn as [Hx Hn]. unfold account_ids in *. simpl.
  destruct (visit_key x) as [[id| | | | | | |]|] eqn:E; auto. constructor; [|by apply IH].
  intros (y & Hy & Ey)%list_elem_of_omap. apply Hx, list_elem_of_fmap. exists y. split; [|done].
  by destruct (visit_key y) as [[id'| | | | | | |]|]; simplify_eq.
Qed.

Lemma ids_complete id : id ∉ account_ids l -> accounts v' !! id = accounts v !! id.
Proof.
  intros Hid. destruct (decide (accounts v' !! id = accounts v !! id)) as [E|E]; [done|].
  destruct (ds_complete _ _ _ D (k_account id)) as (x & Hx & S).
  - simpl. destruct (accounts v' !! id), (accounts v !! id); simpl; congruence.
  - destruct Hid. apply list_elem_of_omap. exists x. split; [done|].
    by rewrite (shows_key _ _ _ _ S).
Qed.

Lemma described_drops : zsum (fun x => drops_at (after x) - drops_at (before x)) l = xrp_total v' - xrp_total v.
Proof.
  rewrite (sum_ext _ _ _ (fun x Hx => visit_drops x Hx)).
  rewrite (ids_sum (fun id => from_option drops_of 0 (accounts v' !! id) - from_option drops_of 0 (accounts v !! id))).
  unfold xrp_total. rewrite (msum_changed drops_of (accounts v) (accounts v') (account_ids l) ids_nodup ids_complete). lia.
Qed.

End Described.

(** The check compares the totals, as long as their difference fits in 64 bits. *)
Lemma xrp_check_sum v v' l fee :
  describes v v' l -> (forall x, x ∈ l -> native_entry (before x) /\ native_entry (after x)) ->
  (forall x, x ∈ l -> isDelete x = true -> drops_at (after x) = 0) ->
  0 <= xrp_total v <= INITIAL_XRP -> 0 <= xrp_total v' < 2 ^ 62 -> 0 <= fee <= INITIAL_XRP ->
  exists ok, XRPNotCreated_check l fee = Ok ok /\ (ok = true <-> xrp_total v' = xrp_total v - fee).
Proof.
  intros D Hn Hc Hv Hv' Hf. unfold INITIAL_XRP in *.
  unfold XRPNotCreated_check. change 0 with (i64 0) at 1. rewrite XRPNotCreated_visit_sum by done. cbn [bind].
  rewrite (described_drops v v' l D) by done. eexists. split; [done|].
  unfold XRPNotCreated_finalize. rewrite !i64_id by lia. rewrite andb_true_iff, negb_true_iff, Z.ltb_ge, Z.eqb_eq. lia.
Qed.

(** ** Theorems *)


(** Alice has paid a fee of ten drops. *)
Definition charged_view : View := update_account sample_view alice (sample_account 59999990).

Definition charged_visits : list Visit := visit_of sample_view charged_view <$> [k_account alice].

Lemma charged_described : describes sample_view charged_view charged_visits.
Proof.
  apply visits_describe.
  - apply (bool_decide_unpack _). vm_compute. exact I.
  - apply Forall_forall. repeat constructor. eexists. vm_compute. reflexivity.
  - intros k Hk. rewrite not_elem_of_cons in Hk. destruct Hk as [H1 _].
    destruct k as [k|k|k|k|k|k|k|k]; try done; simpl. by rewrite lookup_insert_ne by congruence.
Qed.

Lemma charged_xrp : xrp_wf sample_view INITIAL_XRP /\ xrp_wf charged_view INITIAL_XRP.
Proof.
  split; (split; [| |by vm_compute]; intros x a; simpl; rewrite !lookup_insert; repeat (case_decide; [by intros [= <-]|]);
    rewrite lookup_singleton_Some; by intros [_ <-]).
Qed.


(** ** Results that the checks refuse *)

Definition applied (v : View) (r : result (TER * View)) (keys : list EntryKey) : result (TER * list Visit * View) :=
  let* (ter, w) := r in Ok (ter, visits_at v w keys, w).

(** The payment of [own_fee_destroyed], whose fee goes to the borrower: the check for XRP
    undoes it.  So such a borrower cannot pay at all. *)
Example own_payment_undone :
  let keys := [k_account alice; k_account vault_account; k_account broker_account; k_vault 1; k_broker 2; k_loan 3] in
  match applied self_view
          (LoanPay_doApply sample_settings self_view (mkLoanPay alice 3 (mkSTAmount (AIssue xrpIssue) 220000 0 false) 0)) keys with
  | Ok (ter, l, w) =>
      ter = tesSUCCESS /\ XRPNotCreated_check l 0 = Ok false /\
      checkInvariants sample_settings w l (mkCheckedTx ttLOAN_PAY alice (st_clear (AIssue xrpIssue)) None None 10) ter 0
        = tecINVARIANT_FAILED
  | Throw _ => False
  end.
Proof. vm_compute. by split_and!. Qed.

(** A loan for a borrower who has no tokens yet, with a fee for an owner of the broker who
    has none either: two holdings are made where the check allows one. *)
Definition bare_view : View :=
  mkLedger sample_env
    (<[vault_account := sample_account 0]> (<[broker_account := sample_account 0]> (accounts sample_view))) ∅
    {[token := mkIssuance gateway lsfMPTCanTransfer 2500000 None None None 0 1 0 None 0]}
    {[(token, vault_account) := mkToken 0 2000000 0; (token, broker_account) := mkToken 0 500000 0]}
    ∅ {[1 := fresh_vault]} {[2 := fresh_broker 1000]} ∅ ∅.

Example two_holdings_undone :
  let keys := [k_account alice; k_account bob; k_token (token, alice); k_token (token, bob); k_token (token, vault_account);
               k_vault 1; k_broker 2] in
  match applied bare_view (LoanSet_doApply sample_settings bare_view borrow_tx 60000000) keys with
  | Ok (ter, l, w) =>
      ter = tesSUCCESS /\ mptokensCreated_ (mpt_counts l) = 2 /\
      ValidMPTIssuance_check w l (mkCheckedTx ttLOAN_SET alice (st_clear (AIssue xrpIssue)) None None 10) ter = false
  | Throw _ => False
  end.
Proof. vm_compute. by split_and!. Qed.

(** Alice redeems all her shares and has no holding of the asset: one holding goes and one
    is made. *)
Definition leaving_view : View :=
  mkLedger sample_env (accounts bank_view) ∅
    {[token := mkIssuance gateway lsfMPTCanTransfer 1000 None None None 0 0 0 None 0; share := shares_of 1000]}
    {[(token, saver) := mkToken 0 1000 0; (share, bob) := mkToken 0 750 0; (share, alice) := mkToken 0 250 0]}
    {[alice := {[0 := mkPage [mptoken_key (share, alice)] None None]}]} {[1 := bank]} ∅ ∅ ∅.

Example leaving_undone :
  let keys := [k_account alice; k_vault 1; k_issuance share; k_token (share, alice); k_token (token, alice); k_token (token, saver)] in
  let tx := mkVaultWithdraw alice 1 (mpt_amount share 250) None false in
  match applied leaving_view (VaultWithdraw_doApply sample_settings leaving_view tx 60000000) keys with
  | Ok (ter, l, w) =>
      ter = tesSUCCESS /\ ValidVault_check sample_settings w l (withdraw_seen tx) ter 10 = Ok true /\
      ValidMPTIssuance_check w l (withdraw_seen tx) ter = false
  | Throw _ => False
  end.
Proof. vm_compute. by split_and!. Qed.

(** A trust line in XRP that is shown before another line is forgotten. *)
Example xrp_line_unnoticed :
  let line a := mkLine (st_clear a) (st_clear a) (st_clear a) 0 0 0 0 0 0 0 in
  let made a := mkVisit false None (Some (e_line (1, 2, 3) (line a))) in
  NoXRPTrustLines [made (AIssue xrpIssue)] = false /\ NoXRPTrustLines [made (AIssue xrpIssue); made dollars] = true.
Proof. by vm_compute. Qed.
