(* ===== verification/SignaturesProps.v ===== *)
(** * Who may sign

    The walk over two sorted lists that weighs the signers of a transaction computes the
    weight of the set of signers, and a transaction whose signature passes both checks
    was signed for its account. *)

From S2P Require Import Prelude.
From S2P Require Import Ter.
From S2P Require Import Amounts.
From S2P Require Import LedgerState.
From S2P Require Import Holdings.
From S2P Require Import SampleLedger.
From S2P Require Import PublicKeys.
From S2P Require Import Signatures.
From stdpp Require Import gmap list sorting.

Local Open Scope Z_scope.

(** ** Lists of signers *)

Definition ascending (l : list SignerEntry) : Prop := StronglySorted (fun a b => se_account a < se_account b) l.

Definition in_order (l : list Signer) : Prop := StronglySorted (fun a b => sgn_Account a < sgn_Account b) l.

(** The weight of the entries whose accounts are among [ids]; each entry counts once. *)
Fixpoint weight (ids : list Z) (l : list SignerEntry) : Z :=
  match l with
  | [] => 0
  | e :: l => (if bool_decide (se_account e ∈ ids) then se_weight e else 0) + weight ids l
  end.

Definition listed (l : list SignerEntry) (s : Signer) : Prop := exists e, e ∈ l /\ se_account e = sgn_Account s.

(** Weights have 16 bits, and there are at most 32 signers. *)
Definition signer_list_wf (l : list SignerEntry) : Prop :=
  ascending l /\ Forall (fun e => 0 <= se_weight e < 2 ^ 16) l /\ (length l <= 32)%nat.

Lemma weight_bound ids l : Forall (fun e => 0 <= se_weight e < 2 ^ 16) l -> 0 <= weight ids l <= Z.of_nat (length l) * 2 ^ 16.
Proof. induction 1 as [|e l He _ IH]; cbn [weight length]; [done|]. case_bool_decide; lia. Qed.

Lemma weight_none ids l : (forall e, e ∈ l -> se_account e ∉ ids) -> weight ids l = 0.
Proof.
  induction l as [|e l IH]; intros Hn; [done|]. cbn [weight]. rewrite bool_decide_eq_false_2 by (apply Hn; left).
  rewrite IH; [done|]. intros e' He'. apply Hn. by right.
Qed.

Lemma weight_app ids l l' : weight ids (l ++ l') = weight ids l + weight ids l'.
Proof. induction l as [|e l IH]; cbn [weight app]; [done|]. lia. Qed.

Lemma weight_skip id ids l : (forall e, e ∈ l -> se_account e <> id) -> weight (id :: ids) l = weight ids l.
Proof.
  induction l as [|e l IH]; intros Hn; [done|]. cbn [weight]. rewrite IH by (intros e' He'; apply Hn; by right). f_equal.
  assert (se_account e <> id) by (apply Hn; left).
  destruct (decide (se_account e ∈ ids)) as [I|I].
  - by rewrite !bool_decide_eq_true_2 by (try done; by right).
  - rewrite !bool_decide_eq_false_2; [done..|]. by apply not_elem_of_cons.
Qed.

(** The search stops at the first entry that is not below. *)
Lemma seek_signer_spec iter id :
  match seek_signer iter id with
  | None => forall e, e ∈ iter -> se_account e < id
  | Some (e, rest) => id <= se_account e /\ exists pre rest', iter = pre ++ rest /\ rest = e :: rest' /\ (forall e, e ∈ pre -> se_account e < id)
  end.
Proof.
  induction iter as [|e iter IH]; cbn [seek_signer]; [by intros e He%not_elem_of_nil|].
  destruct (Z.ltb_spec (se_account e) id) as [L|L].
  - destruct (seek_signer iter id) as [[e' rest]|].
    + destruct IH as (H1 & pre & rest' & -> & -> & Hp). split; [done|]. exists (e :: pre), rest'. split_and!; [done..|].
      intros x [->|Hx]%elem_of_cons; auto.
    + intros x [->|Hx]%elem_of_cons; auto.
  - split; [done|]. exists [], iter. split_and!; [done..|]. by intros x Hx%not_elem_of_nil.
Qed.

Section Weigh.
Context `{Crypto} (v : View) (keys : Keys).

Definition key_ok (s : Signer) : Prop := checkSignerKey v keys s = tesSUCCESS.

Lemma ascending_app pre e rest : ascending (pre ++ e :: rest) -> ascending (e :: rest) /\ (forall x, x ∈ rest -> se_account e < se_account x).
Proof.
  intros A. assert (ascending (e :: rest)) as A' by (by apply StronglySorted_app_1_r in A). split; [done|].
  apply StronglySorted_cons in A' as [F _]. intros x Hx. by apply (proj1 (Forall_forall _ _) F).
Qed.

Lemma in_order_cons s l : in_order (s :: l) -> in_order l /\ (forall x, x ∈ l -> sgn_Account s < sgn_Account x).
Proof. intros [F O]%StronglySorted_cons. split; [done|]. intros x Hx. by apply (proj1 (Forall_forall _ _) F). Qed.

(** What is left to look at after the entry [e] of the signer [s] has been found. *)
Lemma matched pre e rest s l :
  ascending (pre ++ e :: rest) -> in_order (s :: l) -> se_account e = sgn_Account s -> (forall x, x ∈ pre -> se_account x < sgn_Account s) ->
  weight (sgn_Account <$> s :: l) (pre ++ e :: rest) = se_weight e + weight (sgn_Account <$> l) (e :: rest) /\
  (forall x, x ∈ l -> listed (pre ++ e :: rest) x <-> listed (e :: rest) x).
Proof.
  intros A O E P. apply ascending_app in A as [_ R]. apply in_order_cons in O as [_ L].
  assert (forall id, id ∈ (sgn_Account <$> l) -> sgn_Account s < id) as L' by (intros id (x & -> & Hx)%list_elem_of_fmap; auto).
  split.
  - rewrite weight_app, (weight_none _ pre).
    2: { intros x Hx. specialize (P x Hx). intros [?|I]%elem_of_cons; [lia|]. specialize (L' _ I). lia. }
    cbn [weight fmap list_fmap]. change (list_fmap Signer Z sgn_Account l) with (sgn_Account <$> l).
    rewrite bool_decide_eq_true_2 by (rewrite E; left).
    rewrite bool_decide_eq_false_2 by (intros I; specialize (L' _ I); lia).
    rewrite weight_skip by (intros x Hx; specialize (R x Hx); lia). lia.
  - intros x Hx. specialize (L x Hx). unfold listed. split; intros (y & Hy & Ey); exists y; (split; [|done]).
    + apply elem_of_app in Hy as [Hy|Hy]; [|done]. specialize (P y Hy). lia.
    + apply elem_of_app. by right.
Qed.

Lemma weigh_signers_spec signers iter sum w :
  ascending iter -> in_order signers -> 0 <= sum -> Forall (fun e => 0 <= se_weight e) iter ->
  sum + weight (sgn_Account <$> signers) iter < 2 ^ 32 ->
  weigh_signers v keys iter sum signers = Value w <->
  Forall (fun s => key_ok s /\ listed iter s) signers /\ w = sum + weight (sgn_Account <$> signers) iter.
Proof.
  revert iter sum. induction signers as [|s signers IH]; intros iter sum A O Hs Hw Hb.
  - cbn [weigh_signers]. rewrite weight_none by (intros e _; apply not_elem_of_nil). rewrite Z.add_0_r. split.
    + intros [= ->]. auto.
    + by intros [_ ->].
  - cbn [weigh_signers]. pose proof (seek_signer_spec iter (sgn_Account s)) as K.
    destruct (seek_signer iter (sgn_Account s)) as [[e rest]|].
    2: { split; [done|]. intros [[[_ (e & He & Ee)] _]%Forall_cons _]. specialize (K e He). lia. }
    destruct K as (Ke & pre & rest' & -> & -> & P). destruct (Z.eqb_spec (se_account e) (sgn_Account s)) as [E|E]; cbn [negb].
    2: { split; [done|]. intros [[[_ (x & Hx & Ex)] _]%Forall_cons _]. apply ascending_app in A as [_ R].
         apply elem_of_app in Hx as [Hx|[->|Hx]%elem_of_cons]; [specialize (P x Hx); lia|lia|specialize (R x Hx); lia]. }
    destruct (matched pre e rest' s signers A O E P) as [W L]. rewrite W in *.
    apply Forall_app in Hw as [_ Hw]. pose proof (proj1 (Forall_cons _ _ _) Hw) as [He _].
    assert (Forall (fun x => key_ok x /\ listed (pre ++ e :: rest') x) signers <-> Forall (fun x => key_ok x /\ listed (e :: rest') x) signers) as F.
    { rewrite !Forall_forall. split; intros F x Hx; destruct (F x Hx); split; auto; by apply L. }
    assert (0 <= weight (sgn_Account <$> signers) (e :: rest')) as Wn.
    { clear -Hw. induction Hw as [|x l Hx _ IH]; cbn [weight]; [done|]. case_bool_decide; lia. }
    rewrite Forall_cons, F. apply ascending_app in A as [A _]. apply in_order_cons in O as [O _].
    assert (key_ok s -> checkSignerKey v keys s = tesSUCCESS) as Ks by done.
    assert (listed (pre ++ e :: rest') s) as Ls by (exists e; split; [apply elem_of_app; right; left|done]).
    destruct (isTesSuccess (checkSignerKey v keys s)) eqn:C.
    + assert (checkSignerKey v keys s = tesSUCCESS) as C' by (by destruct (checkSignerKey v keys s)). rewrite C'. rewrite IH; try done; unfold u32; rewrite ?Z.mod_small by lia; try lia.
      split; [intros [F' ->]|intros [[_ F'] ->]]; split; auto; lia.
    + split; [by destruct (checkSignerKey v keys s)|]. intros [[[K _] _] _]. by rewrite (Ks K) in C.
Qed.

Lemma weigh_signers_error signers iter sum ter : weigh_signers v keys iter sum signers = Unexpected ter -> ter <> tesSUCCESS.
Proof.
  revert iter sum. induction signers as [|s signers IH]; intros iter sum E; [done|]. cbn [weigh_signers] in E.
  destruct (seek_signer _ _) as [[e rest]|]; [|by injection E as <-]. destruct (negb _); [by injection E as <-|].
  destruct (checkSignerKey v keys s); try (by injection E as <-). by eapply IH.
Qed.

End Weigh.

(** ** The right to sign, declared *)

Section Authority.
Context `{Crypto}.

(** One of several signers signs with the master key of its account, which need not be in
    the ledger, or with its regular key. *)
Definition may_sign (v : View) (keys : Keys) (s : Signer) : Prop :=
  let id := if empty_key (sgn_SigningPubKey s) then sgn_Account s else calcAccountID (sgn_SigningPubKey s) in
  (sgn_SigningPubKey s = [] \/ known_key (sgn_SigningPubKey s) = true) /\
  ((id = sgn_Account s /\ forall a, accounts v !! sgn_Account s = Some a -> hasFlag (acct_Flags a) lsfDisableMaster = false) \/
   (id <> sgn_Account s /\ is_Some (accounts v !! sgn_Account s) /\ regularKeys keys !! sgn_Account s = Some id)).

Lemma key_ok_may_sign v keys s : key_ok v keys s <-> may_sign v keys s.
Proof.
  unfold key_ok, may_sign, checkSignerKey, empty_key. set (key := sgn_SigningPubKey s). set (acct := sgn_Account s).
  assert (negb (bool_decide (key = [])) && negb (known_key key) = false <-> (key = [] \/ known_key key = true)) as K.
  { case_bool_decide; destruct (known_key key); cbn; intuition congruence. }
  destruct (negb (bool_decide (key = [])) && negb (known_key key)).
  { split; [done|]. intros [Hk _]. by apply K in Hk. }
  assert (key = [] \/ known_key key = true) as K' by (by apply K). clear K.
  set (id := if bool_decide (key = []) then acct else calcAccountID key). cbv zeta.
  destruct (Z.eqb_spec id acct) as [E|E].
  - destruct (accounts v !! acct) as [a|]; [|split; [|done]; intros _; split; [done|]; left; naive_solver].
    destruct (hasFlag (acct_Flags a) lsfDisableMaster) eqn:F.
    + split; [done|]. intros [_ [[_ G]|[G _]]]; [by rewrite (G a) in F|done].
    + split; [|done]. intros _. split; [done|]. left. split; [done|]. naive_solver.
  - destruct (accounts v !! acct) as [a|] eqn:A; [|split; [done|]; intros [_ [[? _]|(_ & [? ?] & _)]]; done].
    destruct (regularKeys keys !! acct) as [r|] eqn:R; [|split; [done|]; intros [_ [[? _]|(_ & _ & ?)]]; done].
    destruct (Z.eqb_spec id r) as [->|N]; cbn [negb].
    + split; [|done]. intros _. split; [done|]. right. eauto.
    + split; [done|]. intros [_ [[? _]|(_ & _ & [= G])]]; done.
Qed.

(** The signature objects that pass the check of signatures. *)
Lemma signers_verify_spec own full makeMsg last signers :
  signers_verify own full makeMsg last signers = true ->
  in_order signers /\ Forall (fun s => last < sgn_Account s /\ own <> Some (sgn_Account s) /\
    known_key (sgn_SigningPubKey s) = true /\
    verify (sgn_SigningPubKey s) (makeMsg (sgn_Account s)) (default [] (sgn_TxnSignature s)) full = true) signers.
Proof.
  revert last. induction signers as [|s signers IH]; intros last E; [by repeat constructor|]. cbn [signers_verify] in E.
  destruct (bool_decide (own = Some (sgn_Account s))) eqn:B; [done|]. apply bool_decide_eq_false in B.
  destruct (Z.eqb_spec last (sgn_Account s)); [done|]. destruct (Z.ltb_spec (sgn_Account s) last); [done|].
  destruct (known_key (sgn_SigningPubKey s) && _) eqn:G; [|done]. apply andb_true_iff in G as [G1 G2].
  destruct (IH _ E) as [O F]. split.
  - constructor; [done|]. eapply Forall_impl; [exact F|]. by intros x (? & _).
  - constructor; [split_and!; try done; lia|]. eapply Forall_impl; [exact F|]. intros x (? & ? & ? & ?). split_and!; try done. lia.
Qed.

(** The account [id] has signed: one key that is its regular key or its enabled master
    key, or signers of its list whose weights, each counted once, reach the quorum. *)
Inductive authorised (v : View) (keys : Keys) (full : bool) (data : list Z) (makeMsg : Z -> list Z) (id : Z) (sig : SigObject) : Prop :=
| by_one a :
    verify (sig_SigningPubKey sig) data (default [] (sig_TxnSignature sig)) full = true ->
    accounts v !! id = Some a ->
    regularKeys keys !! id = Some (calcAccountID (sig_SigningPubKey sig)) \/
    (calcAccountID (sig_SigningPubKey sig) = id /\ isFlag (acct_Flags a) lsfDisableMaster = false) ->
    authorised v keys full data makeMsg id sig
| by_many l signers :
    sig_Signers sig = Some signers -> signerLists keys !! id = Some l ->
    NoDup (sgn_Account <$> signers) ->
    Forall (fun s => verify (sgn_SigningPubKey s) (makeMsg (sgn_Account s)) (default [] (sgn_TxnSignature s)) full = true /\
                     may_sign v keys s /\ listed (sl_SignerEntries l) s) signers ->
    sl_SignerQuorum l <= weight (sgn_Account <$> signers) (sl_SignerEntries l) ->
    authorised v keys full data makeMsg id sig.

Lemma in_order_nodup signers : in_order signers -> NoDup (sgn_Account <$> signers).
Proof.
  induction signers as [|s signers IH]; intros O; [constructor|]. apply in_order_cons in O as [O L]. cbn. constructor; [|by apply IH].
  intros (x & E & Hx)%list_elem_of_fmap. specialize (L x Hx). lia.
Qed.

Lemma single_sign_speaks v keys idSigner id a : checkSingleSign v keys idSigner id a = tesSUCCESS ->
  regularKeys keys !! id = Some idSigner \/ (idSigner = id /\ isFlag (acct_Flags a) lsfDisableMaster = false).
Proof.
  unfold checkSingleSign. intros E. destruct (fixMasterKeyAsRegularKey _).
  - case_bool_decide; [auto|]. destruct (isFlag (acct_Flags a) lsfDisableMaster); cbn in E;
      destruct (Z.eqb_spec id idSigner); naive_solver.
  - destruct (Z.eqb_spec idSigner id); [destruct (isFlag (acct_Flags a) lsfDisableMaster); naive_solver|].
    case_bool_decide; [auto|]. by case_bool_decide.
Qed.

Definition key_lists_wf (keys : Keys) : Prop := forall id l, signerLists keys !! id = Some l -> signer_list_wf (sl_SignerEntries l).

Lemma multi_sign_iff v keys id l signers :
  signerLists keys !! id = Some l -> signer_list_wf (sl_SignerEntries l) -> in_order signers ->
  checkMultiSign v keys id signers = tesSUCCESS <->
  Forall (fun s => may_sign v keys s /\ listed (sl_SignerEntries l) s) signers /\
  sl_SignerQuorum l <= weight (sgn_Account <$> signers) (sl_SignerEntries l).
Proof.
  intros El (A & W & L) O. unfold checkMultiSign. rewrite El.
  assert (Forall (fun e => 0 <= se_weight e) (sl_SignerEntries l)) as W0 by (eapply Forall_impl; [exact W|]; simpl; lia).
  pose proof (weight_bound (sgn_Account <$> signers) _ W) as B.
  pose proof (weigh_signers_spec v keys signers (sl_SignerEntries l) 0) as S.
  assert (forall w, weigh_signers v keys (sl_SignerEntries l) 0 signers = Value w <->
    Forall (fun s => may_sign v keys s /\ listed (sl_SignerEntries l) s) signers /\ w = weight (sgn_Account <$> signers) (sl_SignerEntries l)) as S'.
  { intros w. rewrite (S w) by (try done; lia). rewrite Z.add_0_l. f_equiv. apply Forall_proper; [|done]. intros s. by rewrite key_ok_may_sign. }
  pose proof (weigh_signers_error v keys signers (sl_SignerEntries l) 0) as N.
  destruct (weigh_signers v keys (sl_SignerEntries l) 0 signers) as [w|ter]; [|specialize (N ter eq_refl)].
  - destruct (proj1 (S' w) eq_refl) as [F ->]. destruct (Z.ltb_spec (weight (sgn_Account <$> signers) (sl_SignerEntries l)) (sl_SignerQuorum l)).
    + split; [done|]. intros [_ Q]. lia.
    + split; [|done]. auto.
  - split; [done|]. intros [F _]. pose proof (proj2 (S' _) (conj F eq_refl)). done.
Qed.

(** Both checks together: the signatures are good, and they are those of the account. *)
Lemma signature_authorises v keys r flags require data makeMsg own id sig :
  key_lists_wf keys ->
  checkSign_object r flags require data makeMsg own sig = true -> checkSign v keys false false id sig = tesSUCCESS ->
  authorised v keys (hasFlag flags tfFullyCanonicalSig || require) data makeMsg id sig /\
  (featureLendingProtocol (rules (env v)) = true -> forall a, accounts v !! id = Some a -> isPseudoAccount a = false).
Proof.
  intros Wk S C. unfold checkSign_object in S. set (full := hasFlag flags tfFullyCanonicalSig || require) in *.
  unfold checkSign in C. cbn [andb] in C.
  destruct (featureLendingProtocol (rules (env v)) && from_option isPseudoAccount false (accounts v !! id)) eqn:P; [done|].
  split; [|intros F a Ha; rewrite F, Ha in P; exact P].
  destruct (empty_key (sig_SigningPubKey sig)) eqn:K.
  - unfold multiSignHelper in S. destruct (sig_Signers sig) as [signers|] eqn:Es; [|done].
    destruct (bool_decide (is_Some (sig_TxnSignature sig))); [done|]. destruct (_ || (maxMultiSigners r <? _)); [done|].
    apply signers_verify_spec in S as [O F].
    destruct (signerLists keys !! id) as [l|] eqn:El; [|by unfold checkMultiSign in C; rewrite El in C].
    pose proof (proj1 (multi_sign_iff v keys id l signers El (Wk id l El) O) C) as [F' Q].
    apply (by_many _ _ _ _ _ _ _ l signers); try done; [by apply in_order_nodup|].
    rewrite Forall_forall in F, F' |- *. intros s Hs. specialize (F s Hs). specialize (F' s Hs). tauto.
  - unfold singleSignHelper in S. destruct (sig_Signers sig) as [signers|] eqn:Es; [done|].
    apply andb_true_iff in S as [S1 S2]. rewrite S1 in C. cbn [negb] in C.
    destruct (accounts v !! id) as [a|] eqn:Ha; [|done]. apply single_sign_speaks in C. by apply (by_one _ _ _ _ _ _ _ a).
Qed.

(** ** Theorems *)

(** C24. Several signers may sign for an account exactly when every one of them is on its
    list and signs with a key of its own, and the weights of these accounts reach the
    quorum; the walk over both lists finds all entries and counts each once, and the sum
    of the weights does not wrap around. *)
Theorem multi_sign_exact v keys id l signers :
  signerLists keys !! id = Some l -> signer_list_wf (sl_SignerEntries l) -> in_order signers ->
  checkMultiSign v keys id signers = tesSUCCESS <->
  Forall (fun s => may_sign v keys s /\ listed (sl_SignerEntries l) s) signers /\
  sl_SignerQuorum l <= weight (sgn_Account <$> signers) (sl_SignerEntries l).
Proof. apply multi_sign_iff. Qed.

End Authority.

(** Keys whose second byte is the account they belong to; a signature repeats that byte. *)
#[export] Instance sample_crypto : Crypto := {|
  calcAccountID key := nth 1 key 0;
  sha512Half _ := 0;
  secp_key_parses _ := true;
  ecdsa_der _ := true;
  ecdsa_normalizes _ := true;
  ecdsa_ok _ _ _ _ := true;
  ed25519_sign_open _ key sig := nth 0 key 0 =? nth 0 sig 0 |}.

Definition sample_key (id : Z) : list Z := 0xED :: id :: replicate 31 0.
Definition sample_signature (id : Z) : list Z := id :: replicate 63 0.

(** Alice and Bob sign for the gateway. *)
Definition gateway_signers : SignerList := mkSignerList 3 [mkSignerEntry alice 2; mkSignerEntry bob 1].

Definition sample_keys : Keys := mkKeys ∅ {[gateway := gateway_signers]} ∅.

Definition sample_signers : list Signer :=
  [mkSigner alice (sample_key alice) (Some (sample_signature alice)); mkSigner bob (sample_key bob) (Some (sample_signature bob))].

Lemma gateway_signers_wf : signer_list_wf (sl_SignerEntries gateway_signers).
Proof. split_and!; [by repeat constructor|by repeat constructor|cbn; lia]. Qed.

Lemma multi_sign_exact_witness :
  checkMultiSign sample_view sample_keys gateway sample_signers = tesSUCCESS /\
  Forall (fun s => may_sign sample_view sample_keys s /\ listed (sl_SignerEntries gateway_signers) s) sample_signers /\
  ~ (3 <= weight [alice] (sl_SignerEntries gateway_signers)).
Proof.
  assert (in_order sample_signers) as O by (repeat constructor).
  assert (checkMultiSign sample_view sample_keys gateway sample_signers = tesSUCCESS) as C by (vm_compute; reflexivity).
  split; [exact C|]. split.
  - by apply (multi_sign_exact sample_view sample_keys gateway gateway_signers sample_signers eq_refl gateway_signers_wf O).
  - vm_compute. intros N. by apply N.
Defined.
