(* ===== verification/Pipeline.v ===== *)
(** * From a transaction to the ledger

    What happens to a transaction of any type: the checks of its fields, of its place in
    the sequence of its account, of its fee and of its signature, the application of its
    own changes, the check of the invariants, the reset that leaves only the fee, and
    batches ([src/xrpld/app/tx/detail/Transactor.cpp], [Transactor.h], [applySteps.cpp],
    [apply.cpp], [ApplyContext.cpp], [src/xrpld/app/misc/detail/DelegateUtils.cpp]).

    What depends on the type of a transaction is a record [Transactor].  Offers, NFT
    offers and the trust lines of liquidity pools, which some codes remove after a reset,
    are not entries of the model. *)

From S2P Require Import Prelude.
From S2P Require Import Ter.
From S2P Require Import XrplNumber.
From S2P Require Import Amounts.
From S2P Require Import Lending.
From S2P Require Import Directories.
From S2P Require Import LedgerState.
From S2P Require Import Holdings.
From S2P Require Import Transfers.
From S2P Require Import Transactors.
From S2P Require Import PublicKeys.
From S2P Require Import Signatures.
From S2P Require Import Invariants.
From S2P Require Import InvariantChecks.
From stdpp Require Import gmap list sorting.

Local Open Scope Z_scope.
Local Open Scope xrpl_scope.

(** ** Data *)

(** The fields that every transaction may have.  What its keys sign are the bytes
    [tx_signing], and for each of several signers [tx_multiSigning]. *)
Record STTx := mkTx {
  tx_ID : Z;
  tx_type : Z;
  tx_Account : Z;
  tx_Fee : STAmount;
  tx_Sequence : Z;
  tx_TicketSequence : option Z;
  tx_Delegate : option Z;
  tx_AccountTxnID : option Z;
  tx_LastLedgerSequence : option Z;
  tx_NetworkID : option Z;
  tx_Flags : Z;
  tx_sig : SigObject;
  tx_Counterparty : option Z;
  tx_CounterpartySignature : option SigObject;
  tx_signing : list Z;
  tx_multiSigning : Z -> list Z }.

(** The entries that are looked at after the changes of a transaction, or after a reset. *)
Inductive Stage : Set := after_apply | after_reset.

(** What depends on the type of a transaction.  [t_visits] are the entries that were
    inserted, modified or erased. *)
Record Transactor := mkTransactor {
  t_feature : Rules -> bool;
  t_checkExtraFeatures : Rules -> bool;
  t_flagsMask : Z;
  t_preflight : Rules -> bool -> result TER;
  t_preflightSigValidated : Rules -> TER;
  t_baseFee : View -> Z -> result Z;
  t_checkSign : View -> Keys -> TER -> (Z -> SigObject -> TER) -> TER;
  t_preclaim : View -> result TER;
  t_doApply : View -> Z -> result (TER * View);
  t_checked : CheckedTx;
  t_visits : Stage -> View -> View -> list Visit }.

(** The flags of an application. *)
Record ApplyFlags : Set := mkFlags {
  tapFAIL_HARD : bool;
  tapRETRY : bool;
  tapUNLIMITED : bool;
  tapBATCH : bool;
  tapDRY_RUN : bool }.

(** The ledger that transactions are applied to: the entries of the view, the keys, the
    tickets by owner and number with the page they are listed on, the fields
    [sfTicketCount] and [sfAccountTxnID] of accounts, the transactions of this ledger, and
    the drops that its header counts. *)
Record OpenLedger := mkOpen {
  ol_view : View;
  ol_keys : Keys;
  ol_tickets : gmap (Z * Z) Z;
  ol_ticketCounts : gmap Z Z;
  ol_txnIDs : gmap Z Z;
  ol_txs : gset Z;
  ol_drops : Z }.

Definition set_view (l : OpenLedger) (v : View) : OpenLedger :=
  mkOpen v (ol_keys l) (ol_tickets l) (ol_ticketCounts l) (ol_txnIDs l) (ol_txs l) (ol_drops l).
Definition set_tickets (l : OpenLedger) t c : OpenLedger :=
  mkOpen (ol_view l) (ol_keys l) t c (ol_txnIDs l) (ol_txs l) (ol_drops l).
Definition set_txnIDs (l : OpenLedger) i : OpenLedger :=
  mkOpen (ol_view l) (ol_keys l) (ol_tickets l) (ol_ticketCounts l) i (ol_txs l) (ol_drops l).
Definition set_txs (l : OpenLedger) t : OpenLedger :=
  mkOpen (ol_view l) (ol_keys l) (ol_tickets l) (ol_ticketCounts l) (ol_txnIDs l) t (ol_drops l).
Definition set_drops (l : OpenLedger) d : OpenLedger :=
  mkOpen (ol_view l) (ol_keys l) (ol_tickets l) (ol_ticketCounts l) (ol_txnIDs l) (ol_txs l) d.

Definition ol_account (l : OpenLedger) (id : Z) : option AccountRoot := accounts (ol_view l) !! id.

Definition ol_update (l : OpenLedger) (id : Z) (a : AccountRoot) : OpenLedger :=
  set_view l (update_account (ol_view l) id a).

Definition set_acct_Sequence (a : AccountRoot) (n : Z) : AccountRoot :=
  mkAccount (acct_Balance a) (acct_OwnerCount a) (acct_Flags a) (acct_TransferRate a) (acct_AMMID a)
    (acct_VaultID a) (acct_LoanBrokerID a) n.

(** The settings of the server: its network and its load. *)
Record App : Set := mkApp {
  NETWORK_ID : Z;
  localTxnLoadFee_ : Z;
  remoteTxnLoadFee_ : Z;
  clusterTxnLoadFee_ : Z }.

(** The key under which a ticket is listed. *)
Class TicketKeys := ticket_key : Z * Z -> Z.

(** ** Sequence numbers and tickets *)

Inductive SeqProxy : Set := sp_seq (n : Z) | sp_ticket (n : Z).

Definition getSeqProxy (tx : STTx) : SeqProxy :=
  if negb (tx_Sequence tx =? 0) then sp_seq (tx_Sequence tx)
  else match tx_TicketSequence tx with
  | None => sp_seq (tx_Sequence tx)
  | Some n => sp_ticket n
  end.

Definition checkSeqProxy (l : OpenLedger) (tx : STTx) : TER :=
  let id := tx_Account tx in
  match ol_account l id with
  | None => terNO_ACCOUNT
  | Some sle =>
      let a_seq := acct_Sequence sle in
      match getSeqProxy tx with
      | sp_seq t_seq =>
          if bool_decide (is_Some (tx_TicketSequence tx)) && featureTicketBatch (rules (env (ol_view l)))
          then temSEQ_AND_TICKET
          else if negb (t_seq =? a_seq) then if a_seq <? t_seq then terPRE_SEQ else tefPAST_SEQ
          else tesSUCCESS
      | sp_ticket t_seq =>
          if a_seq <=? t_seq then terPRE_TICKET
          else if negb (bool_decide (is_Some (ol_tickets l !! (id, t_seq)))) then tefNO_TICKET
          else tesSUCCESS
      end
  end.

Definition checkPriorTxAndLastLedger (l : OpenLedger) (tx : STTx) : TER :=
  match ol_account l (tx_Account tx) with
  | None => terNO_ACCOUNT
  | Some _ =>
      if match tx_AccountTxnID tx with
         | Some prior => negb (default 0 (ol_txnIDs l !! tx_Account tx) =? prior)
         | None => false
         end then tefWRONG_PRIOR
      else if match tx_LastLedgerSequence tx with
              | Some last => last <? ledgerSeq (env (ol_view l))
              | None => false
              end then tefMAX_LEDGER
      else if bool_decide (tx_ID tx ∈ ol_txs l) then tefALREADY
      else tesSUCCESS
  end.

Section Tickets.
Context `{TicketKeys}.

Definition ticketDelete (l : OpenLedger) (account n : Z) : result (TER * OpenLedger) :=
  match ol_tickets l !! (account, n) with
  | None => Ok (tefBAD_LEDGER, l)
  | Some page =>
      let v := ol_view l in
      let* (found, d) := dirRemove (ownerDir v account) page (ticket_key (account, n)) true in
      if negb found then Ok (tefBAD_LEDGER, l)
      else
        let v := set_ownerDirs v (<[account := d]> (ownerDirs v)) in
        match accounts v !! account, ol_ticketCounts l !! account with
        | Some _, Some count =>
            let counts := if count =? 1 then delete account (ol_ticketCounts l)
                          else <[account := u32 (count - 1)]> (ol_ticketCounts l) in
            Ok (tesSUCCESS, set_view (set_tickets l (delete (account, n) (ol_tickets l)) counts) (adjustOwnerCount v account (-1)))
        | _, _ => Ok (tefBAD_LEDGER, set_view l v)
        end
  end.

Definition consumeSeqProxy (l : OpenLedger) (tx : STTx) (sleAccount : AccountRoot) : result (TER * OpenLedger) :=
  match getSeqProxy tx with
  | sp_seq n => Ok (tesSUCCESS, ol_update l (tx_Account tx) (set_acct_Sequence sleAccount (u32 (n + 1))))
  | sp_ticket n => ticketDelete l (tx_Account tx) n
  end.

End Tickets.

(** ** Fees *)

Definition lftNormalFee : Z := 256.

(** The amount in fee units grows with the number of signers. *)
Definition calculateBaseFee (v : View) (tx : STTx) : Z :=
  let baseFee := fee_base (fees (env v)) in
  let signerCount := match sig_Signers (tx_sig tx) with Some l => Z.of_nat (length l) | None => 0 end in
  i64 (baseFee + i64 (signerCount * baseFee)).

Definition scaleFeeLoad (app : App) (fee : Z) (bUnlimited : bool) : result Z :=
  if fee =? 0 then Ok fee
  else
    let feeFactor := Z.max (localTxnLoadFee_ app) (remoteTxnLoadFee_ app) in
    let uRemFee := Z.max (remoteTxnLoadFee_ app) (clusterTxnLoadFee_ app) in
    let feeFactor := if bUnlimited && (uRemFee <? feeFactor) && (feeFactor <? u32 (4 * uRemFee)) then uRemFee
                     else feeFactor in
    match mulDiv (u64 fee) feeFactor lftNormalFee with
    | None => Throw overflow_error
    | Some result => Ok (i64 result)
    end.

(** The account that pays the fee, and whose signature the transaction needs. *)
Definition payer (tx : STTx) : Z := default (tx_Account tx) (tx_Delegate tx).

Definition checkFee (app : App) (flags : ApplyFlags) (l : OpenLedger) (tx : STTx) (baseFee : Z) : result TER :=
  if negb (native (tx_Fee tx)) then Ok temBAD_FEE
  else
    let* feePaid := xrp (tx_Fee tx) in
    if tapBATCH flags then Ok (if feePaid =? 0 then tesSUCCESS else temBAD_FEE)
    else if (INITIAL_XRP <? feePaid) || (feePaid <? 0) then Ok temBAD_FEE
    else
      let* insufficient :=
        if is_open (env (ol_view l)) then
          let* feeDue := scaleFeeLoad app baseFee (tapUNLIMITED flags) in Ok (feePaid <? feeDue)
        else Ok false in
      if insufficient then Ok telINSUF_FEE_P
      else if feePaid =? 0 then Ok tesSUCCESS
      else match ol_account l (payer tx) with
      | None => Ok terNO_ACCOUNT
      | Some sle =>
          let* balance := xrp (acct_Balance sle) in
          Ok (if balance <? feePaid then
                if (0 <? balance) && negb (is_open (env (ol_view l))) then tecINSUFF_FEE else terINSUF_FEE_B
              else tesSUCCESS)
      end.

(** ** Permissions *)

Definition checkTxPermission (permissions : list Z) (tx : STTx) : TER :=
  if existsb (fun permission => permission =? tx_type tx + 1) permissions then tesSUCCESS
  else tecNO_DELEGATE_PERMISSION.

Definition checkPermission (l : OpenLedger) (tx : STTx) : TER :=
  match tx_Delegate tx with
  | None => tesSUCCESS
  | Some delegate =>
      match delegates (ol_keys l) !! (tx_Account tx, delegate) with
      | None => tecNO_DELEGATE_PERMISSION
      | Some permissions => checkTxPermission permissions tx
      end
  end.

(** ** Checks that do not look at the ledger *)

Definition preflight0 (app : App) (tx : STTx) (flagMask : Z) : TER :=
  let network :=
    if NETWORK_ID app <=? 1024 then
      match tx_NetworkID tx with Some _ => telNETWORK_ID_MAKES_TX_NON_CANONICAL | None => tesSUCCESS end
    else match tx_NetworkID tx with
    | None => telREQUIRES_NETWORK_ID
    | Some id => if negb (id =? NETWORK_ID app) then telWRONG_NETWORK else tesSUCCESS
    end in
  if negb (isTesSuccess network) then network
  else if tx_ID tx =? 0 then temINVALID
  else if hasFlag (tx_Flags tx) flagMask then temINVALID_FLAG
  else tesSUCCESS.

Definition preflight1 (app : App) (r : Rules) (tx : STTx) (flagMask : Z) : result TER :=
  if bool_decide (is_Some (tx_TicketSequence tx)) && negb (featureTicketBatch r) then Ok temMALFORMED
  else if bool_decide (is_Some (tx_Delegate tx)) && negb (featurePermissionDelegation r) then Ok temDISABLED
  else if bool_decide (tx_Delegate tx = Some (tx_Account tx)) then Ok temBAD_SIGNER
  else
    let ret := preflight0 app tx flagMask in
    if negb (isTesSuccess ret) then Ok ret
    else if tx_Account tx =? 0 then Ok temBAD_SRC_ACCOUNT
    else if negb (native (tx_Fee tx)) || mIsNegative (tx_Fee tx) then Ok temBAD_FEE
    else
      let* fee := xrp (tx_Fee tx) in
      if INITIAL_XRP <? fee then Ok temBAD_FEE
      else
        let ret := preflightCheckSigningKey (tx_sig tx) in
        if negb (isTesSuccess ret) then Ok ret
        else if match getSeqProxy tx with sp_ticket _ => bool_decide (is_Some (tx_AccountTxnID tx)) | sp_seq _ => false end
        then Ok temINVALID
        else if isFlag (tx_Flags tx) tfInnerBatchTxn && negb (featureBatch r) then Ok temINVALID_FLAG
        else Ok tesSUCCESS.

Section Sign.
Context `{Crypto}.

(** [STTx::checkSign]: the signature, and that of the counterparty. *)
Definition STTx_checkSign (r : Rules) (tx : STTx) : bool :=
  let check := checkSign_object r (tx_Flags tx) (featureRequireFullyCanonicalSig r) (tx_signing tx) (tx_multiSigning tx) in
  check (Some (tx_Account tx)) (tx_sig tx) &&
  match tx_CounterpartySignature tx with Some sig => check None sig | None => true end.

(** The part of [checkValidity] that concerns signatures, without the memory of results
    that were computed before. *)
Definition signature_bad (r : Rules) (tx : STTx) : bool :=
  if isFlag (tx_Flags tx) tfInnerBatchTxn && featureBatch r &&
     (bool_decide (is_Some (sig_TxnSignature (tx_sig tx))) || negb (empty_key (sig_SigningPubKey (tx_sig tx))) ||
      bool_decide (is_Some (sig_Signers (tx_sig tx))))
  then true
  else negb (STTx_checkSign r tx).

Definition preflight2 (r : Rules) (flags : ApplyFlags) (tx : STTx) : TER :=
  match preflightCheckSimulateKeys (tapDRY_RUN flags) (tx_sig tx) with
  | Some ret => ret
  | None =>
      if negb (isFlag (tx_Flags tx) tfInnerBatchTxn) || negb (featureBatch r) then
        if signature_bad r tx then temINVALID else tesSUCCESS
      else tesSUCCESS
  end.

Definition invokePreflight (app : App) (r : Rules) (flags : ApplyFlags) (tx : STTx) (t : Transactor) : result TER :=
  if negb (t_feature t r) then Ok temDISABLED
  else if negb (t_checkExtraFeatures t r) then Ok temDISABLED
  else
    let* ret := preflight1 app r tx (t_flagsMask t) in
    if negb (isTesSuccess ret) then Ok ret
    else
      let* ret := t_preflight t r (tapDRY_RUN flags) in
      if negb (isTesSuccess ret) then Ok ret
      else
        let ret := preflight2 r flags tx in
        if negb (isTesSuccess ret) then Ok ret else Ok (t_preflightSigValidated t r).

(** ** Checks that look at the ledger *)

(** [inBatch] when the transaction is part of a batch. *)
Definition invoke_preclaim (app : App) (flags : ApplyFlags) (inBatch : bool) (l : OpenLedger) (tx : STTx) (t : Transactor)
  : result TER :=
  let v := ol_view l in
  let check := checkSign v (ol_keys l) (tapDRY_RUN flags) inBatch in
  let* result :=
    if tx_Account tx =? 0 then Ok tesSUCCESS
    else
      let result := checkSeqProxy l tx in
      if negb (isTesSuccess result) then Ok result
      else
        let result := checkPriorTxAndLastLedger l tx in
        if negb (isTesSuccess result) then Ok result
        else
          let* baseFee := t_baseFee t v (calculateBaseFee v tx) in
          let* result := checkFee app flags l tx baseFee in
          if negb (isTesSuccess result) then Ok result
          else
            let result := checkPermission l tx in
            if negb (isTesSuccess result) then Ok result
            else Ok (t_checkSign t v (ol_keys l) (check (payer tx) (tx_sig tx)) check) in
  if negb (isTesSuccess result) then Ok result else t_preclaim t v.

End Sign.

(** ** Application *)

Section Engine.
Context `{Keylets} `{TicketKeys} `{Crypto} (cfg : Settings) (app : App).

Definition payFee (l : OpenLedger) (tx : STTx) (mSourceBalance : Z) : result (TER * OpenLedger) :=
  let* feePaid := xrp (tx_Fee tx) in
  match tx_Delegate tx with
  | Some delegate =>
      match ol_account l delegate with
      | None => Ok (tefINTERNAL, l)
      | Some delegatedSle =>
          let* amount := st_of_xrp cfg feePaid in
          let* balance := st_sub cfg (acct_Balance delegatedSle) amount in
          Ok (tesSUCCESS, ol_update l delegate (set_acct_Balance delegatedSle balance))
      end
  | None =>
      match ol_account l (tx_Account tx) with
      | None => Ok (tefINTERNAL, l)
      | Some sle =>
          let* balance := st_of_xrp cfg (i64 (mSourceBalance - feePaid)) in
          Ok (tesSUCCESS, ol_update l (tx_Account tx) (set_acct_Balance sle balance))
      end
  end.

Definition and_then_ledger (m : result (TER * OpenLedger)) (k : OpenLedger -> result (TER * OpenLedger))
  : result (TER * OpenLedger) :=
  let* (ter, l) := m in if isTesSuccess ter then k l else Ok (ter, l).

(** [Transactor::apply] *)
Definition apply_changes (l : OpenLedger) (tx : STTx) (t : Transactor) : result (TER * OpenLedger) :=
  let own (l : OpenLedger) (mPriorBalance : Z) :=
    let* (ter, v) := t_doApply t (ol_view l) mPriorBalance in Ok (ter, set_view l v) in
  match ol_account l (tx_Account tx) with
  | None => own l 0
  | Some sle =>
      let* mPriorBalance := xrp (acct_Balance sle) in
      and_then_ledger (consumeSeqProxy l tx sle) (fun l =>
      and_then_ledger (payFee l tx mPriorBalance) (fun l =>
      own (if bool_decide (is_Some (ol_txnIDs l !! tx_Account tx))
           then set_txnIDs l (<[tx_Account tx := tx_ID tx]> (ol_txnIDs l)) else l) mPriorBalance))
  end.

(** The changes are discarded; the fee is what the payer has if that is less. *)
Definition reset (base : OpenLedger) (tx : STTx) (fee : Z) : result (TER * Z * OpenLedger) :=
  match ol_account base (tx_Account tx), ol_account base (payer tx) with
  | Some _, Some payerSle =>
      let* balance := xrp (acct_Balance payerSle) in
      let fee := if balance <? fee then balance else fee in
      let* rest := st_of_xrp cfg (i64 (balance - fee)) in
      let l := ol_update base (payer tx) (set_acct_Balance payerSle rest) in
      match ol_account l (tx_Account tx) with
      | None => Ok (tefINTERNAL, 0, base)
      | Some txnAcct =>
          let* (ter, l) := consumeSeqProxy l tx txnAcct in
          Ok (ter, fee, l)
      end
  | _, _ => Ok (tefINTERNAL, 0, base)
  end.

Definition credential_le (k k' : Z * Z * Z) : Prop := credential_key k <= credential_key k'.

#[local] Instance credential_le_dec : RelDecision credential_le := fun k k' => Z_le_dec _ _.

(** The credentials that were deleted, in the order of their keys. *)
Definition deleted_credentials (v v' : View) : list (Z * Z * Z) :=
  merge_sort credential_le (elements (dom (credentials (env v)) ∖ dom (credentials (env v')))).

Fixpoint removeExpiredCredentials (v : View) (creds : list (Z * Z * Z)) : result View :=
  match creds with
  | [] => Ok v
  | k :: creds =>
      let* (_, v) := if bool_decide (is_Some (credentials (env v) !! k)) then deleteSLE v k else Ok (tesSUCCESS, v) in
      removeExpiredCredentials v creds
  end.

Definition oversizeMetaDataCap : Z := 5200.

Definition isTecClaimHardFail (ter : TER) (flags : ApplyFlags) : bool := isTecClaim ter && negb (tapRETRY flags).

Definition expired (ter : TER) : bool := match ter with tecEXPIRED => true | _ => false end.

Definition invariant_failed (ter : TER) : bool := match ter with tecINVARIANT_FAILED => true | _ => false end.

(** The codes after which something is done although the transaction failed; the fourth,
    [tecINCOMPLETE], is that of liquidity pools. *)
Definition reapplies (ter : TER) : bool := match ter with tecOVERSIZE | tecKILLED | tecEXPIRED => true | _ => false end.

Record ApplyResult := mkResult { ar_ter : TER; ar_applied : bool; ar_ledger : OpenLedger }.

(** The result of the checks on the ledger [l] that the changes of [base] led to. *)
Definition check (t : Transactor) (stage : Stage) (base l : OpenLedger) (result : TER) (fee : Z) : TER :=
  let visits := t_visits t stage (ol_view base) (ol_view l) in
  checkInvariants cfg (ol_view l) visits (t_checked t) result fee.

(** The fee is taken off the drops of a closed ledger, and the transaction is recorded. *)
Definition commit (base l : OpenLedger) (tx : STTx) (fee : Z) : OpenLedger :=
  let l := if negb (is_open (env (ol_view base))) && negb (fee =? 0) then set_drops l (ol_drops l - fee) else l in
  set_txs l ({[tx_ID tx]} ∪ ol_txs l).

(** What is left of a transaction whose code claims a fee.  Of the entries that are removed
    again the model has the credentials. *)
Definition claim_fee (base l : OpenLedger) (tx : STTx) (ret : TER) (fee : Z) : result (TER * Z * OpenLedger) :=
  let creds := if expired ret then deleted_credentials (ol_view base) (ol_view l) else [] in
  let* (ter, fee, l) := reset base tx fee in
  let result := if isTesSuccess ter then ret else ter in
  if expired result then
    let* v := removeExpiredCredentials (ol_view l) creds in Ok (result, fee, set_view l v)
  else Ok (result, fee, l).

(** The checks; when they fail, the changes are discarded and the claim of the fee is
    checked. *)
Definition checked (t : Transactor) (stage : Stage) (base l : OpenLedger) (tx : STTx) (ret : TER) (fee : Z)
  : result (TER * Z * OpenLedger) :=
  let result := check t stage base l ret fee in
  if invariant_failed result then
    let* (ter, fee, l) := reset base tx fee in
    let result := if isTesSuccess ter then result else ter in
    Ok (if isTesSuccess result || isTecClaim result then check t after_reset base l result fee else result, fee, l)
  else Ok (result, fee, l).

(** [Transactor::operator()] *)
Definition transact (flags : ApplyFlags) (preclaimResult : TER) (base : OpenLedger) (tx : STTx) (t : Transactor)
  : result ApplyResult :=
  let* (result, l) := if isTesSuccess preclaimResult then apply_changes base tx t else Ok (preclaimResult, base) in
  let* fee := xrp (tx_Fee tx) in
  let visits := if isTesSuccess preclaimResult then t_visits t after_apply (ol_view base) (ol_view l) else [] in
  let applied := isTesSuccess result in
  let result := if oversizeMetaDataCap <? Z.of_nat (length visits) then tecOVERSIZE else result in
  let* (applied, stage, result, fee, l) :=
    if isTecClaim result && tapFAIL_HARD flags then Ok (false, after_apply, result, fee, base)
    else if reapplies result || isTecClaimHardFail result flags then
      let* (result, fee, l) := claim_fee base l tx result fee in
      Ok (isTecClaim result, after_reset, result, fee, l)
    else Ok (applied, after_apply, result, fee, l) in
  if negb applied then Ok (mkResult result false base)
  else
    let* (result, fee, l) := checked t stage base l tx result fee in
    if negb (isTecClaim result) && negb (isTesSuccess result) then Ok (mkResult result false base)
    else if fee <? 0 then Throw logic_error
    else if tapDRY_RUN flags then Ok (mkResult result false base)
    else Ok (mkResult result true (commit base l tx fee)).

(** [preflight], [preclaim] and [doApply] of [applySteps.cpp]: an exception becomes a code. *)
Definition or_exception (m : result TER) : TER := match m with Ok ter => ter | Throw _ => tefEXCEPTION end.

Definition preclaim (flags : ApplyFlags) (inBatch : bool) (l : OpenLedger) (tx : STTx) (t : Transactor) : TER :=
  let ter := or_exception (invokePreflight app (rules (env (ol_view l))) flags tx t) in
  if negb (isTesSuccess ter) then ter else or_exception (invoke_preclaim app flags inBatch l tx t).

Definition likelyToClaimFee (ter : TER) (flags : ApplyFlags) : bool := isTesSuccess ter || isTecClaimHardFail ter flags.

Definition apply_tx (flags : ApplyFlags) (inBatch : bool) (l : OpenLedger) (tx : STTx) (t : Transactor) : ApplyResult :=
  let ter := preclaim flags inBatch l tx t in
  if negb (likelyToClaimFee ter flags) then mkResult ter false l
  else
    match
      let* _ := t_baseFee t (ol_view l) (calculateBaseFee (ol_view l) tx) in
      transact flags ter l tx t
    with
    | Ok r => r
    | Throw _ => mkResult tefEXCEPTION false l
    end.

(** ** Batches *)

Definition tfAllOrNothing : Z := 0x00010000.
Definition tfOnlyOne : Z := 0x00020000.
Definition tfUntilFailure : Z := 0x00040000.
Definition tfIndependent : Z := 0x00080000.

Definition batch_flags : ApplyFlags := mkFlags false false false true false.

(** Each transaction has a view of its own over the view of the batch; a view sees only
    its own transactions. *)
Definition applyOneTransaction (batchView : OpenLedger) (tx : STTx) (t : Transactor) : ApplyResult :=
  let ret := apply_tx batch_flags true (set_txs batchView ∅) tx t in
  if ar_applied ret && (isTesSuccess (ar_ter ret) || isTecClaim (ar_ter ret))
  then mkResult (ar_ter ret) (ar_applied ret) (set_txs (ar_ledger ret) (ol_txs (ar_ledger ret) ∪ ol_txs batchView))
  else mkResult (ar_ter ret) (ar_applied ret) batchView.

(** [applied] counts the transactions that were applied. *)
Fixpoint batch_loop (mode : Z) (batchView : OpenLedger) (txs : list (STTx * Transactor)) (applied : Z)
  : bool * OpenLedger :=
  match txs with
  | [] => (negb (applied =? 0), batchView)
  | (tx, t) :: txs =>
      let result := applyOneTransaction batchView tx t in
      let batchView := ar_ledger result in
      let applied := if ar_applied result then applied + 1 else applied in
      if negb (isTesSuccess (ar_ter result)) then
        if hasFlag mode tfAllOrNothing then (false, batchView)
        else if hasFlag mode tfUntilFailure then (negb (applied =? 0), batchView)
        else batch_loop mode batchView txs applied
      else if hasFlag mode tfOnlyOne then (negb (applied =? 0), batchView)
      else batch_loop mode batchView txs applied
  end.

Definition applyBatchTransactions (batchView : OpenLedger) (mode : Z) (txs : list (STTx * Transactor)) : bool * OpenLedger :=
  batch_loop mode batchView txs 0.

Inductive ApplyTransactionResult : Set := Success | Fail | Retry.

(** [inner] are the transactions of a batch. *)
Definition applyTransaction (l : OpenLedger) (txn : STTx) (t : Transactor) (inner : option (list (STTx * Transactor)))
    (retryAssured : bool) (flags : ApplyFlags) : ApplyTransactionResult * OpenLedger :=
  let flags := if retryAssured
               then mkFlags (tapFAIL_HARD flags) true (tapUNLIMITED flags) (tapBATCH flags) (tapDRY_RUN flags) else flags in
  let result := apply_tx flags false l txn t in
  let l := ar_ledger result in
  if ar_applied result then
    match inner with
    | Some txs =>
        if isTesSuccess (ar_ter result) then
          let '(ok, wholeBatchView) := applyBatchTransactions (set_txs l ∅) (tx_Flags txn) txs in
          (Success, if ok then set_txs wholeBatchView (ol_txs wholeBatchView ∪ ol_txs l) else l)
        else (Success, l)
    | None => (Success, l)
    end
  else if isTefFailure (ar_ter result) || isTemMalformed (ar_ter result) || isTelLocal (ar_ter result) then (Fail, l)
  else (Retry, l).

End Engine.
