(* ===== verification/Batch.v ===== *)
(** * The batch transaction

    A transaction that carries others ([src/xrpld/app/tx/detail/Batch.cpp]): its fee, the
    checks of what it carries, the accounts that must sign it and the check of their
    signatures ([Transactor.cpp], [src/libxrpl/protocol/STTx.cpp],
    [include/xrpl/protocol/Batch.h]).  The transactions it carries are applied by
    [Pipeline.applyBatchTransactions]. *)

From S2P Require Import Prelude.
From S2P Require Import Ter.
From S2P Require Import Bytes.
From S2P Require Import Amounts.
From S2P Require Import LedgerState.
From S2P Require Import Holdings.
From S2P Require Import PublicKeys.
From S2P Require Import Signatures.
From S2P Require Import LoanManage.
From S2P Require Import Invariants.
From S2P Require Import InvariantChecks.
From S2P Require Import Pipeline.
From stdpp Require Import gmap list.

Local Open Scope Z_scope.
Local Open Scope xrpl_scope.

Definition maxBatchTxCount : Z := 8.
Definition ttBATCH : Z := 71.
Definition tfBatchMask : Z :=
  Z.lor (Z.lxor 0xFFFFFFFF (Z.lor tfUniversal (Z.lor tfAllOrNothing (Z.lor tfOnlyOne (Z.lor tfUntilFailure tfIndependent)))))
    tfInnerBatchTxn.

(** An element of [sfBatchSigners]. *)
Record BatchSigner : Set := mkBatchSigner { bsg_Account : Z; bsg_sig : SigObject }.

Record BatchTx := mkBatch {
  bt_RawTransactions : list (STTx * Transactor);
  bt_BatchSigners : option (list BatchSigner) }.

(** ** Fee *)

Definition maxAmount : Z := 2 ^ 63 - 1.

(** The sum of the fees of the transactions of the batch, unless it is out of range. *)
Fixpoint inner_fees (v : View) (txns : list (STTx * Transactor)) (txnFees : Z) : result (option Z) :=
  match txns with
  | [] => Ok (Some txnFees)
  | (stx, t) :: txns =>
      if tx_type stx =? ttBATCH then Ok None
      else
        let* fee := t_baseFee t v (calculateBaseFee v stx) in
        if maxAmount - fee <? txnFees then Ok None else inner_fees v txns (txnFees + fee)
  end.

Definition batch_signatures (s : BatchSigner) : Z :=
  if bool_decide (is_Some (sig_TxnSignature (bsg_sig s))) then 1
  else match sig_Signers (bsg_sig s) with Some l => Z.of_nat (length l) | None => 0 end.

Definition Batch_calculateBaseFee (v : View) (tx : BatchTx) (baseFee : Z) : result Z :=
  let base := fee_base (fees (env v)) in
  if maxAmount - base <? baseFee then Ok INITIAL_XRP
  else
    let batchBase := base + baseFee in
    if maxBatchTxCount <? Z.of_nat (length (bt_RawTransactions tx)) then Ok INITIAL_XRP
    else
      let* txnFees := inner_fees v (bt_RawTransactions tx) 0 in
      let signers := default [] (bt_BatchSigners tx) in
      match txnFees with
      | None => Ok INITIAL_XRP
      | Some txnFees =>
          if maxBatchTxCount <? Z.of_nat (length signers) then Ok INITIAL_XRP
          else
            let signerCount := fold_left (fun n s => n + batch_signatures s) signers 0 in
            if (0 <? signerCount) && (maxAmount / signerCount <? base) then Ok INITIAL_XRP
            else
              let signerFees := signerCount * base in
              if maxAmount - txnFees <? signerFees then Ok INITIAL_XRP
              else if maxAmount - batchBase <? txnFees + signerFees then Ok INITIAL_XRP
              else Ok (signerFees + txnFees + batchBase)
      end.

(** ** Checks of what is carried *)

Definition checkSignatureFields (sig : SigObject) : TER :=
  if bool_decide (is_Some (sig_TxnSignature sig)) then temBAD_SIGNATURE
  else if bool_decide (is_Some (sig_Signers sig)) then temBAD_SIGNER
  else if negb (empty_key (sig_SigningPubKey sig)) then temBAD_REGKEY
  else tesSUCCESS.

(** How many of the four modes are set. *)
Definition mode_count (flags : Z) : Z :=
  (if hasFlag flags tfAllOrNothing then 1 else 0) + (if hasFlag flags tfOnlyOne then 1 else 0) +
  (if hasFlag flags tfUntilFailure then 1 else 0) + (if hasFlag flags tfIndependent then 1 else 0).

Section Batch.
Context `{Crypto} (app : App).

(** The values of a sequence and of a ticket are in one set for each account. *)
Definition note_sequence (stx : STTx) (accountSeqTicket : gset (Z * Z)) : option (gset (Z * Z)) :=
  let acct := tx_Account stx in
  let seq := tx_Sequence stx in
  let note k s := if bool_decide (k ∈ s) then None else Some ({[k]} ∪ s) in
  let noted := if negb (seq =? 0) then note (acct, seq) accountSeqTicket else Some accountSeqTicket in
  match noted, tx_TicketSequence stx with
  | Some s, Some ticket => note (acct, ticket) s
  | o, _ => o
  end.

Fixpoint check_inner (r : Rules) (flags : Z) (uniqueHashes : gset Z) (accountSeqTicket : gset (Z * Z))
    (txns : list (STTx * Transactor)) : TER :=
  match txns with
  | [] => tesSUCCESS
  | (stx, t) :: txns =>
      if bool_decide (tx_ID stx ∈ uniqueHashes) then temREDUNDANT
      else if tx_type stx =? ttBATCH then temINVALID
      else if negb (hasFlag (tx_Flags stx) tfInnerBatchTxn) then temINVALID_FLAG
      else if negb (isTesSuccess (checkSignatureFields (tx_sig stx))) then checkSignatureFields (tx_sig stx)
      else
        let counter := match tx_CounterpartySignature stx with Some sig => checkSignatureFields sig | None => tesSUCCESS end in
        if negb (isTesSuccess counter) then counter
        else if negb (isTesSuccess (or_exception (invokePreflight app r batch_flags stx t))) then temINVALID_INNER_BATCH
        else if negb (native (tx_Fee stx)) || negb (signed_value (tx_Fee stx) =? 0) then temBAD_FEE
        else
          let ticket := bool_decide (is_Some (tx_TicketSequence stx)) in
          if ticket && negb (tx_Sequence stx =? 0) then temSEQ_AND_TICKET
          else if negb ticket && (tx_Sequence stx =? 0) then temSEQ_AND_TICKET
          else
            let noted := if hasFlag flags (Z.lor tfAllOrNothing tfUntilFailure) then note_sequence stx accountSeqTicket
                         else Some accountSeqTicket in
            match noted with
            | None => temREDUNDANT
            | Some s => check_inner r flags ({[tx_ID stx]} ∪ uniqueHashes) s txns
            end
  end.

Definition Batch_preflight (r : Rules) (flags : Z) (tx : BatchTx) : TER :=
  let size := Z.of_nat (length (bt_RawTransactions tx)) in
  if negb (mode_count flags =? 1) then temINVALID_FLAG
  else if size <=? 1 then temARRAY_EMPTY
  else if maxBatchTxCount <? size then temARRAY_TOO_LARGE
  else check_inner r flags ∅ ∅ (bt_RawTransactions tx).

(** ** Signatures *)

(** The accounts of the transactions, and the counterparties they name, but for the
    account of the batch. *)
Definition requiredSigners (outer : Z) (tx : BatchTx) : gset Z :=
  list_to_set (filter (fun id => id <> outer)
    (concat ((fun x : STTx * Transactor => tx_Account x.1 :: option_list (tx_Counterparty x.1)) <$> bt_RawTransactions tx))).

Fixpoint match_signers (outer : Z) (batchSigners required : gset Z) (signers : list BatchSigner) : Expected (gset Z) :=
  match signers with
  | [] => Value required
  | signer :: signers =>
      let id := bsg_Account signer in
      if id =? outer then Unexpected temBAD_SIGNER
      else if bool_decide (id ∈ batchSigners) then Unexpected temREDUNDANT
      else if negb (bool_decide (id ∈ required)) then Unexpected temBAD_SIGNER
      else match_signers outer ({[id]} ∪ batchSigners) (required ∖ {[id]}) signers
  end.

Definition HashPrefix_batch : Z := 0x42434800.

(** What the signers of a batch sign. *)
Definition serializeBatch (flags : Z) (txids : list Z) : list Z :=
  be_bytes 4 HashPrefix_batch ++ be_bytes 4 flags ++ be_bytes 4 (Z.of_nat (length txids)) ++ concat (be_bytes 32 <$> txids).

Definition getBatchTransactionIDs (tx : BatchTx) : list Z := (fun x : STTx * Transactor => tx_ID x.1) <$> bt_RawTransactions tx.

Definition finishMultiSigningData (signingID : Z) (s : list Z) : list Z := s ++ be_bytes 20 signingID.

(** [STTx::checkBatchSign], with fully canonical signatures. *)
Definition STTx_checkBatchSign (r : Rules) (flags : Z) (tx : BatchTx) (signers : list BatchSigner) : bool :=
  let msg := serializeBatch flags (getBatchTransactionIDs tx) in
  forallb (fun s => if empty_key (sig_SigningPubKey (bsg_sig s))
                    then multiSignHelper r (bsg_sig s) None true (fun id => finishMultiSigningData id msg)
                    else singleSignHelper (bsg_sig s) msg true) signers.

Definition Batch_preflightSigValidated (r : Rules) (outer flags : Z) (tx : BatchTx) : TER :=
  let required := requiredSigners outer tx in
  match bt_BatchSigners tx with
  | None => if bool_decide (required = ∅) then tesSUCCESS else temBAD_SIGNER
  | Some signers =>
      if maxBatchTxCount <? Z.of_nat (length signers) then temARRAY_TOO_LARGE
      else match match_signers outer ∅ required signers with
      | Unexpected ter => ter
      | Value required =>
          if negb (STTx_checkBatchSign r flags tx signers) then temBAD_SIGNATURE
          else if bool_decide (required = ∅) then tesSUCCESS else temBAD_SIGNER
      end
  end.

(** The check that the keys are those of the accounts; an account that is not in the
    ledger ends it. *)
Fixpoint checkBatchSign (v : View) (keys : Keys) (signers : list BatchSigner) : TER :=
  match signers with
  | [] => tesSUCCESS
  | signer :: signers =>
      let idAccount := bsg_Account signer in
      let pkSigner := sig_SigningPubKey (bsg_sig signer) in
      if empty_key pkSigner then
        let ret := checkMultiSign v keys idAccount (default [] (sig_Signers (bsg_sig signer))) in
        if isTesSuccess ret then checkBatchSign v keys signers else ret
      else if negb (known_key pkSigner) then tefBAD_AUTH
      else
        let idSigner := calcAccountID pkSigner in
        match accounts v !! idAccount with
        | None => if negb (idAccount =? idSigner) then tefBAD_AUTH else tesSUCCESS
        | Some sleAccount =>
            let ret := checkSingleSign v keys idSigner idAccount sleAccount in
            if isTesSuccess ret then checkBatchSign v keys signers else ret
        end
  end.

Definition Batch_checkSign (v : View) (keys : Keys) (own : TER) (tx : BatchTx) : TER :=
  if negb (isTesSuccess own) then own else checkBatchSign v keys (default [] (bt_BatchSigners tx)).

(** The batch itself changes nothing. *)
Definition Batch_doApply (v : View) : result (TER * View) := Ok (tesSUCCESS, v).

Definition Batch_transactor (outer flags fee : Z) (tx : BatchTx) (visits : Stage -> View -> View -> list Visit) : Transactor :=
  mkTransactor featureBatch (fun _ => true) tfBatchMask (fun r _ => Ok (Batch_preflight r flags tx))
    (fun r => Batch_preflightSigValidated r outer flags tx) (fun v n => Batch_calculateBaseFee v tx n)
    (fun v keys own _ => Batch_checkSign v keys own tx) (fun _ => Ok tesSUCCESS) (fun v _ => Batch_doApply v)
    (mkCheckedTx ttOTHER outer (st_clear (AIssue xrpIssue)) None None fee) visits.

End Batch.
