(* ===== verification/PipelineFacts.v ===== *)
(** * Theory of the pipeline

    What an application that ends in a change of the ledger went through, what the reset
    leaves, and what the checks of the invariants say about XRP. *)

From S2P Require Import Prelude.
From S2P Require Import Ter.
From S2P Require Import XrplNumber.
From S2P Require Import Amounts.
From S2P Require Import AmountsFacts.
From S2P Require Import AmountsRound.
From S2P Require Import AmountsWhole.
From S2P Require Import Lending.
From S2P Require Import Directories.
From S2P Require Import LedgerState.
From S2P Require Import Holdings.
From S2P Require Import Transfers.
From S2P Require Import Transactors.
From S2P Require Import TransfersMPT.
From S2P Require Import TransfersXRP.
From S2P Require Import PublicKeys.
From S2P Require Import Signatures.
From S2P Require Import Invariants.
From S2P Require Import InvariantFacts.
From S2P Require Import InvariantChecks.
From S2P Require Import InvariantXRP.
From S2P Require Import Pipeline.
From stdpp Require Import gmap list.

Local Open Scope Z_scope.
Local Open Scope xrpl_scope.

(** The code is one with which a transaction enters the ledger. *)
Definition enters (ter : TER) : Prop := isTecClaim ter = true \/ ter = tesSUCCESS.

Lemma success_eq ter : isTesSuccess ter = true -> ter = tesSUCCESS.
Proof. by destruct ter. Qed.

(** ** What the pipeline relies on *)

(** Checks that come before the fee is due do not claim one ([NotTEC] in the code), and a
    transactor asks for the signature of the base class at least. *)
Class NotTEC (t : Transactor) : Prop := {
  nt_preflight : forall r dry ter, t_preflight t r dry = Ok ter -> isTecClaim ter = false;
  nt_sig : forall r, isTecClaim (t_preflightSigValidated t r) = false;
  nt_checkSign : forall v keys own check, isTecClaim own = false -> (forall id s, isTecClaim (check id s) = false) ->
    isTecClaim (t_checkSign t v keys own check) = false;
  nt_own : forall v keys own check, t_checkSign t v keys own check = tesSUCCESS -> own = tesSUCCESS }.

(** What the pipeline is shown of the changes is what changed. *)
Class Shown (t : Transactor) : Prop := shown : forall stage v v', describes v v' (t_visits t stage v v').

Section Applied.
Context `{Keylets} `{TicketKeys} `{Crypto} (cfg : Settings) (app : App).
Implicit Types (base l : OpenLedger) (tx : STTx) (t : Transactor).

(** ** What the checks let through *)

Definition passed t (stage : Stage) base l (ter : TER) (fee : Z) : Prop := check cfg t stage base l ter fee = ter.

Lemma check_cases t stage base l ret fee :
  check cfg t stage base l ret fee = ret \/ check cfg t stage base l ret fee = failInvariantCheck ret.
Proof. unfold check, checkInvariants. repeat case_match; auto. Qed.

Lemma consume_ter l tx a ter l' : consumeSeqProxy l tx a = Ok (ter, l') -> ter = tesSUCCESS \/ ter = tefBAD_LEDGER.
Proof.
  unfold consumeSeqProxy, ticketDelete. intros E. case_match; [left; by injection E as <- _|].
  case_match; [|injection E as <- _; auto]. bind_inv E. destruct a0 as [found d].
  repeat case_match; injection E as <- _; auto.
Qed.

Lemma reset_ter base tx f ter fee l : reset cfg base tx f = Ok (ter, fee, l) ->
  ter = tesSUCCESS \/ ter = tefBAD_LEDGER \/ ter = tefINTERNAL.
Proof.
  unfold reset. intros E. destruct (ol_account base (tx_Account tx)) as [x|]; [|injection E as <- _ _; auto].
  destruct (ol_account base (payer tx)) as [y|]; [|injection E as <- _ _; auto].
  bind_inv E. bind_inv E. destruct (ol_account _ (tx_Account tx)) as [z|]; [|injection E as <- _ _; auto].
  bind_inv E. destruct a1 as [ter' l'].
  injection E as <- _ _. apply consume_ter in Hb1. tauto.
Qed.

(** A reset for what a reset has charged charges the same. *)
Lemma reset_again base tx f fee l : reset cfg base tx f = Ok (tesSUCCESS, fee, l) -> reset cfg base tx fee = Ok (tesSUCCESS, fee, l).
Proof.
  unfold reset. intros E. destruct (ol_account base (tx_Account tx)) as [x|]; [|done].
  destruct (ol_account base (payer tx)) as [y|]; [|done]. bind_inv E. rewrite Hb. cbn [bind]. rename a into b.
  set (f' := if b <? f then b else f) in *. bind_inv E.
  assert (fee = f') as ->.
  { destruct (ol_account _ (tx_Account tx)) as [z|]; [|done]. bind_inv E. destruct a0 as [ter' l']. by injection E. }
  assert ((if b <? f' then b else f') = f') as -> by (unfold f'; destruct (Z.ltb_spec b f); destruct (Z.ltb_spec b b); destruct (Z.ltb_spec b f); lia).
  rewrite Hb0. exact E.
Qed.

(** The claim of the fee after a failure is checked as well. *)
Lemma rechecked t base tx f ter fee l' :
  (let* (ter, fee, l) := reset cfg base tx f in
   let result := if isTesSuccess ter then tecINVARIANT_FAILED else ter in
   Ok (if isTesSuccess result || isTecClaim result then check cfg t after_reset base l result fee else result, fee, l))
  = Ok (ter, fee, l') -> enters ter ->
  ter = tecINVARIANT_FAILED /\ reset cfg base tx f = Ok (tesSUCCESS, fee, l') /\ passed t after_reset base l' ter fee.
Proof.
  intros E Hter. bind_inv E. destruct a as [[ter0 fee0] l0]. unfold passed.
  destruct (reset_ter _ _ _ _ _ _ Hb) as [->|[->| ->]]; cbn [isTesSuccess orb] in E;
    [|injection E as <- _ _; by destruct Hter..].
  change (isTecClaim tecINVARIANT_FAILED) with true in E. injection E as E <- <-.
  destruct (check_cases t after_reset base l0 tecINVARIANT_FAILED fee0) as [C|C]; rewrite C in E; subst ter; [auto|].
  by destruct Hter.
Qed.

Lemma checked_cases t stage base l tx ret f ter fee l' :
  checked cfg t stage base l tx ret f = Ok (ter, fee, l') -> enters ter ->
  (ter = ret /\ fee = f /\ l' = l /\ passed t stage base l ter fee) \/
  (ter = tecINVARIANT_FAILED /\ reset cfg base tx f = Ok (tesSUCCESS, fee, l') /\ passed t after_reset base l' ter fee).
Proof.
  unfold checked. intros E Hter. set (c := check cfg t stage base l ret f) in *.
  destruct (invariant_failed c) eqn:I.
  - assert (c = tecINVARIANT_FAILED) as C by (by destruct c). rewrite C in E. right. by apply rechecked.
  - injection E as <- <- <-. left. destruct (check_cases t stage base l ret f) as [C|C]; fold c in C.
    + unfold passed. rewrite C. auto.
    + exfalso. rewrite C in I, Hter. destruct ret, Hter; done.
Qed.

(** ** What an application went through *)

(** The ledger after a reset, and after the deletion of expired credentials. *)
Definition claimed base tx (f fee : Z) (ter : TER) l : Prop :=
  exists l0, reset cfg base tx f = Ok (tesSUCCESS, fee, l0) /\
    (l = l0 \/ (ter = tecEXPIRED /\ exists creds v, removeExpiredCredentials (ol_view l0) creds = Ok v /\ l = set_view l0 v)).

Lemma claim_fee_claimed base l tx ret f ter fee l' :
  isTecClaim ret = true -> claim_fee cfg base l tx ret f = Ok (ter, fee, l') -> isTecClaim ter = true ->
  claimed base tx f fee ter l'.
Proof.
  unfold claim_fee, claimed. intros Hret E Hter. bind_inv E. destruct a as [[ter0 fee0] l0].
  destruct (reset_ter _ _ _ _ _ _ Hb) as [->|[->| ->]]; cbn in E; [|injection E as <- _ _; done..].
  destruct (expired ret) eqn:X; [|injection E as <- <- <-; eauto]. assert (ret = tecEXPIRED) as -> by (by destruct ret).
  bind_inv E. injection E as <- <- <-. exists l0. eauto 10.
Qed.

Lemma transact_applied flags pc base tx t ter l' :
  transact cfg flags pc base tx t = Ok (mkResult ter true l') ->
  exists f fee l stage, xrp (tx_Fee tx) = Ok f /\ l' = commit base l tx fee /\ 0 <= fee /\ passed t stage base l ter fee /\
    ((ter = tesSUCCESS /\ fee = f /\ pc = tesSUCCESS /\ apply_changes cfg base tx t = Ok (tesSUCCESS, l)) \/
     (isTecClaim ter = true /\ claimed base tx f fee ter l)).
Proof.
  unfold transact. intros E. bind_inv E. destruct a as [ret l1]. bind_inv E. rename a into f. cbn zeta in E.
  set (ret' := if oversizeMetaDataCap <? _ then tecOVERSIZE else ret) in *. bind_inv E.
  destruct a as [[[[applied stage] ter1] fee1] l2].
  destruct applied; [cbn [negb] in E|done]. bind_inv E. destruct a as [[ter2 fee2] l3].
  destruct (negb (isTecClaim ter2) && negb (isTesSuccess ter2)) eqn:Hen; [done|]. destruct (fee2 <? 0) eqn:Hpos; [done|].
  destruct (tapDRY_RUN flags); [done|]. injection E as -> <-. zbool.
  assert (enters ter) as Hin.
  { unfold enters. destruct (isTecClaim ter); [auto|]. destruct (isTesSuccess ter) eqn:S; [|done]. right. by apply success_eq. }
  exists f, fee2, l3. destruct (isTecClaim ret' && tapFAIL_HARD flags) eqn:FH; [done|].
  destruct (reapplies ret' || isTecClaimHardFail ret' flags) eqn:RE.
  - assert (isTecClaim ret' = true) as Hret.
    { apply orb_true_iff in RE as [RE|RE]; [by destruct ret'|]. unfold isTecClaimHardFail in RE. by apply andb_true_iff in RE as [? _]. }
    bind_inv Hb1. destruct a as [[ter3 fee3] l4]. injection Hb1 as Happ <- -> -> ->.
    pose proof (claim_fee_claimed _ _ _ _ _ _ _ _ Hret Hb3 Happ) as CL.
    destruct (checked_cases _ _ _ _ _ _ _ _ _ _ Hb2 Hin) as [(-> & -> & -> & P)|(-> & R & P)].
    + exists after_reset. split_and!; auto; lia.
    + exists after_reset. split_and!; [auto|auto|lia|auto|]. right. split; [done|]. exists l3. split; [|auto].
      destruct CL as (l0 & R0 & _). pose proof (reset_again _ _ _ _ _ R0) as R1. rewrite R in R1. injection R1 as -> <-. done.
  - injection Hb1 as Happ <- <- <- <-. apply success_eq in Happ as ->.
    assert (ret' = tesSUCCESS) as Eret by (unfold ret' in *; by case_match).
    assert (pc = tesSUCCESS) as ->.
    { destruct (isTesSuccess pc) eqn:S; [by apply success_eq|]. by injection Hb as -> _. }
    cbn [isTesSuccess] in Hb.
    destruct (checked_cases _ _ _ _ _ _ _ _ _ _ Hb2 Hin) as [(-> & -> & -> & P)|(-> & R & P)].
    + exists after_apply. split_and!; [auto|auto|lia|auto|]. left. auto.
    + exists after_reset. split_and!; [auto|auto|lia|auto|]. right. split; [done|]. exists l3. auto.
Qed.

Lemma apply_applied flags inBatch base tx t ter l' :
  apply_tx cfg app flags inBatch base tx t = mkResult ter true l' ->
  transact cfg flags (preclaim app flags inBatch base tx t) base tx t = Ok (mkResult ter true l').
Proof.
  unfold apply_tx. destruct (negb _); [done|]. destruct (t_baseFee _ _ _); [|done]. cbn [bind].
  by destruct (transact _ _ _ _ _ _) as [r|]; [intros ->|].
Qed.

(** What is not applied changes nothing. *)
Lemma apply_not_applied flags inBatch base tx t r :
  apply_tx cfg app flags inBatch base tx t = r -> ar_applied r = false -> ar_ledger r = base.
Proof.
  unfold apply_tx. intros <- Hr. destruct (negb _); [done|]. destruct (t_baseFee _ _ _); [|done]. cbn [bind] in *.
  destruct (transact _ _ _ _ _ _) as [r|] eqn:E; [|done]. unfold transact in E.
  bind_inv E. destruct a0 as [ret l1]. bind_inv E. bind_inv E. destruct a1 as [[[[applied stage] ter1] fee1] l2].
  destruct (negb applied); [by injection E as <-|]. bind_inv E. destruct a1 as [[ter2 fee2] l3].
  repeat (case_match; [by simplify_eq|]). by simplify_eq.
Qed.

End Applied.

(** ** XRP *)

(** Every balance is an amount of XRP that is not negative, and together they are at most
    all the XRP there is. *)
Record held (v : View) : Prop := {
  held_native : forall id a, accounts v !! id = Some a -> native (acct_Balance a) = true;
  held_pos : forall id a, accounts v !! id = Some a -> 0 <= drops_of a;
  held_bound : xrp_total v <= INITIAL_XRP }.

Lemma held_total v : held v -> 0 <= xrp_total v <= INITIAL_XRP.
Proof. intros [_ P B]. split; [|done]. apply msum_nonneg. intros id a Ha. by apply (P id). Qed.

Lemma held_drops v id a : held v -> accounts v !! id = Some a -> 0 <= drops_of a <= INITIAL_XRP.
Proof.
  intros W Ha. split; [by apply (held_pos v W id)|]. pose proof (held_bound v W) as B.
  pose proof (msum_term (fun _ a => drops_of a) (accounts v) id a (held_pos v W) Ha) as M. unfold xrp_total in B. simpl in M. lia.
Qed.

Lemma held_xrp v id a : held v -> accounts v !! id = Some a -> xrp (acct_Balance a) = Ok (drops_of a).
Proof. intros W Ha. unfold xrp. by rewrite (held_native v W id a Ha). Qed.

Lemma st_of_xrp_ok cfg n : current cfg -> 0 <= n <= INITIAL_XRP -> st_of_xrp cfg n = Ok (xrp_amount n).
Proof.
  intros C Hn. unfold st_of_xrp, st_make, INITIAL_XRP in *. rewrite (proj2 (Z.ltb_ge n 0)), u64_id by lia.
  assert (mkSTAmount (AIssue xrpIssue) n 0 false = xrp_amount n) as ->.
  { unfold xrp_amount, st_whole. rewrite Z.abs_eq, (proj2 (Z.ltb_ge n 0)) by lia. done. }
  apply canonicalize_whole; [done|done|]. rewrite Z.abs_eq by lia.
  change (integral_limit (AIssue xrpIssue)) with 100000000000000000. lia.
Qed.

(** The checks that concern XRP. *)
Lemma checks_passed `{Keylets} cfg v l tx ret fee :
  checkInvariants cfg v l tx ret fee = ret -> ret <> tefINVARIANT_FAILED ->
  XRPNotCreated_check l fee = Ok true /\ TransactionFeeCheck_finalize tx fee = true /\
  AccountRootsDeletedClean v l = true /\ XRPBalanceChecks l = true.
Proof.
  unfold checkInvariants. intros E Hret.
  assert (failInvariantCheck ret = ret -> False) as F by (by destruct ret).
  destruct (XRPNotCreated_check l fee) as [xrp|]; cbn [bind] in E; [|by destruct F].
  destruct (TransfersNotFrozen_check _ _ _ _ _) as [frozen|]; cbn [bind] in E; [|by destruct F].
  destruct (ValidVault_check _ _ _ _ _ _) as [vault|]; cbn [bind] in E; [|by destruct F].
  match type of E with (if ?b then _ else _) = _ => destruct b eqn:B; [|by destruct F] end.
  rewrite !andb_true_iff in B. destruct_and?. split_and?; by subst.
Qed.

Lemma good_balance e a id : e = Some (e_account id a) -> bad_balance e = false ->
  native (acct_Balance a) = true /\ 0 <= drops_of a <= INITIAL_XRP.
Proof.
  intros -> G. unfold bad_balance, xrp in G. destruct (native (acct_Balance a)) eqn:N; [|done].
  apply orb_false_iff in G as [G1%Z.ltb_ge G2%Z.ltb_ge]. unfold drops_of. auto.
Qed.

Lemma good_entry e : bad_balance e = false -> native_entry e.
Proof. destruct e as [[]|]; try done. intros G. by eapply good_balance. Qed.

Lemma balances_good l x : XRPBalanceChecks l = true -> x ∈ l -> bad_balance (before x) = false /\ bad_balance (after x) = false.
Proof.
  unfold XRPBalanceChecks. intros B Hx. apply negb_true_iff in B.
  destruct (bad_balance (before x) || bad_balance (after x)) eqn:G; [|by apply orb_false_iff in G].
  assert (existsb (fun x => bad_balance (before x) || bad_balance (after x)) l = true) as T; [|by rewrite T in B].
  apply existsb_exists. exists x. split; [by apply list_elem_of_In|done].
Qed.

(** An account of the new view is an old one or is shown by a visit. *)
Lemma shown_account v v' l id a : describes v v' l -> accounts v' !! id = Some a ->
  accounts v !! id = Some a \/ exists x, x ∈ l /\ after x = Some (e_account id a).
Proof.
  intros D Ha. destruct (decide (accounts v !! id = Some a)) as [E|E]; [auto|]. right.
  destruct (ds_complete v v' l D (k_account id)) as (x & Hx & Sb & Sa).
  - simpl. rewrite Ha. destruct (accounts v !! id) eqn:E'; simpl; congruence.
  - exists x. split; [done|]. simpl in Sa. rewrite Ha in Sa. destruct (isDelete x); [by destruct Sa as (_ & ? & _)|]. by destruct Sa.
Qed.

Lemma deleted_empty v l x v0 : describes v0 v l -> AccountRootsDeletedClean v l = true ->
  featureSingleAssetVault (rules (env v)) || featureLendingProtocol (rules (env v)) = true ->
  x ∈ l -> isDelete x = true -> drops_at (after x) = 0.
Proof.
  intros D C F Hx Hd. unfold AccountRootsDeletedClean in C. rewrite F in C.
  rewrite forallb_forall in C. specialize (C x (proj1 (list_elem_of_In _ _) Hx)). unfold deleted_clean in C. rewrite Hd in C.
  destruct (after x) as [[id a| | | | | | |]|] eqn:Ea; try done. cbn [drops_at].
  assert (exists b, before x = Some (e_account id b)) as [b Eb].
  { destruct (ds_shows _ _ _ D x Hx) as [(k & _ & He)|(k & Sb & Sa)]; [by specialize (He _ (or_intror Ea))|].
    rewrite Hd in Sa. destruct Sa as ([e Ee] & _ & e' & Ee' & Hk). rewrite Ea in Ee'. injection Ee' as <-. cbn in Hk. subst k.
    rewrite Sb in Ee |- *. simpl in *. destruct (accounts v0 !! id); simpl in *; [eauto|done]. }
  rewrite Eb in C. rewrite !andb_true_iff in C. destruct C as [[C _] _]. unfold st_is_zero, st_signum in C. unfold drops_of, signed_value.
  destruct (mValue (acct_Balance a) =? 0) eqn:Z0; [|by destruct (mIsNegative _)]. apply Z.eqb_eq in Z0. rewrite Z0. by destruct (mIsNegative _).
Qed.

(** Accepted changes keep the balances in range and take the fee from their sum. *)
Lemma accepted_xrp `{Keylets} cfg v v' l tx ret fee :
  describes v v' l -> held v -> xrp_total v' < 2 ^ 62 ->
  featureSingleAssetVault (rules (env v')) || featureLendingProtocol (rules (env v')) = true ->
  checkInvariants cfg v' l tx ret fee = ret -> ret <> tefINVARIANT_FAILED ->
  held v' /\ xrp_total v' = xrp_total v - fee /\ 0 <= fee.
Proof.
  intros D W Ht Hr C Hret. destruct (checks_passed _ _ _ _ _ _ C Hret) as (X & Fee & Del & Bal).
  assert (forall id a, accounts v' !! id = Some a -> native (acct_Balance a) = true /\ 0 <= drops_of a) as Hv'.
  { intros id a Ha. destruct (shown_account _ _ _ _ _ D Ha) as [E|(x & Hx & E)].
    - split; [by eapply (held_native v W)|by eapply (held_pos v W)].
    - destruct (balances_good _ _ Bal Hx) as [_ G]. destruct (good_balance _ _ _ E G). split; [done|lia]. }
  unfold TransactionFeeCheck_finalize in Fee. rewrite !andb_true_iff, !negb_true_iff, !Z.ltb_ge, Z.leb_gt in Fee.
  pose proof (held_total v W) as Tv. assert (0 <= xrp_total v') as Tv'.
  { apply msum_nonneg. intros id a Ha. by eapply Hv'. }
  destruct (xrp_check_sum v v' l fee D) as (ok & E & Hok).
  - intros x Hx. destruct (balances_good _ _ Bal Hx). split; by apply good_entry.
  - intros x Hx Hd. by eapply deleted_empty.
  - done.
  - lia.
  - lia.
  - rewrite X in E. injection E as <-. assert (xrp_total v' = xrp_total v - fee) as T by (by apply Hok).
    split_and!; [|done|lia]. split; [by intros id a Ha; apply (Hv' id)|by intros id a Ha; eapply Hv'|lia].
Qed.

(** ** What the reset leaves *)

(** The sequence number or the ticket of [tx] is used up between [l] and [l']; nothing
    else changes but the count of tickets, the directory and the reserve of the owner. *)
Record consumed (l l' : OpenLedger) (tx : STTx) : Prop := {
  cs_keys : ol_keys l' = ol_keys l;
  cs_txs : ol_txs l' = ol_txs l;
  cs_txnIDs : ol_txnIDs l' = ol_txnIDs l;
  cs_drops : ol_drops l' = ol_drops l;
  cs_env : env (ol_view l') = env (ol_view l);
  cs_lines : lines (ol_view l') = lines (ol_view l);
  cs_issuances : issuances (ol_view l') = issuances (ol_view l);
  cs_tokens : tokens (ol_view l') = tokens (ol_view l);
  cs_vaults : vaults (ol_view l') = vaults (ol_view l);
  cs_brokers : brokers (ol_view l') = brokers (ol_view l);
  cs_loans : loans (ol_view l') = loans (ol_view l);
  cs_dirs : forall id, id <> tx_Account tx -> ownerDirs (ol_view l') !! id = ownerDirs (ol_view l) !! id;
  cs_account : exists x y, ol_account l (tx_Account tx) = Some x /\ acct_Balance y = acct_Balance x /\
    accounts (ol_view l') = <[tx_Account tx := y]> (accounts (ol_view l)) /\
    match getSeqProxy tx with
    | sp_seq n => y = set_acct_Sequence x (u32 (n + 1)) /\ ol_tickets l' = ol_tickets l /\
                  ol_ticketCounts l' = ol_ticketCounts l /\ ownerDirs (ol_view l') = ownerDirs (ol_view l)
    | sp_ticket n => acct_Sequence y = acct_Sequence x /\ is_Some (ol_tickets l !! (tx_Account tx, n)) /\
                     ol_tickets l' = delete (tx_Account tx, n) (ol_tickets l)
    end }.

Lemma consume_consumed `{TicketKeys} l tx x l' :
  ol_account l (tx_Account tx) = Some x -> consumeSeqProxy l tx x = Ok (tesSUCCESS, l') -> consumed l l' tx.
Proof.
  unfold consumeSeqProxy, ticketDelete. intros Hx E. destruct (getSeqProxy tx) as [n|n] eqn:S.
  - injection E as <-. split; try done. exists x, (set_acct_Sequence x (u32 (n + 1))). rewrite S. done.
  - destruct (ol_tickets l !! (tx_Account tx, n)) as [page|] eqn:T; [|done]. bind_inv E. destruct a as [found d].
    destruct (negb found); [done|]. unfold ol_account in Hx. simpl in E. rewrite Hx in E.
    destruct (ol_ticketCounts l !! tx_Account tx) as [count|]; [|done]. injection E as <-.
    unfold adjustOwnerCount. simpl. rewrite Hx. split; try done; simpl.
    + intros id Hid. by rewrite lookup_insert_ne.
    + unfold ol_account. rewrite Hx. eexists x, _. rewrite S. split_and!; [done| |done| |done|done]; done.
Qed.

Section Reset.
Context `{TicketKeys} (cfg : Settings) (Hcfg : current cfg).

Lemma reset_spec base tx f fee l : held (ol_view base) -> 0 <= f -> reset cfg base tx f = Ok (tesSUCCESS, fee, l) ->
  exists a, ol_account base (payer tx) = Some a /\ fee = Z.min f (drops_of a) /\ 0 <= fee /\
    consumed (ol_update base (payer tx) (set_acct_Balance a (xrp_amount (drops_of a - fee)))) l tx.
Proof.
  intros W Hf E. unfold reset in E. destruct (ol_account base (tx_Account tx)) as [x|] eqn:Hx; [|done].
  destruct (ol_account base (payer tx)) as [a|] eqn:Ha; [|done]. exists a.
  pose proof (held_drops _ _ _ W Ha) as B. rewrite (held_xrp _ _ _ W Ha) in E. cbn [bind] in E. cbv zeta in E.
  assert ((if drops_of a <? f then drops_of a else f) = Z.min f (drops_of a)) as M by (destruct (Z.ltb_spec (drops_of a) f); lia).
  rewrite M in E. unfold INITIAL_XRP in *. rewrite i64_id in E by lia.
  rewrite st_of_xrp_ok in E by (first [done | unfold INITIAL_XRP; lia]). cbn [bind] in E.
  destruct (ol_account (ol_update base _ _) (tx_Account tx)) as [y|] eqn:Hy; [|done].
  bind_inv E. destruct a0 as [ter l0]. injection E as -> <- ->. split_and!; [done|done|lia|].
  by eapply consume_consumed.
Qed.

End Reset.

(** The sum of the balances after an account has got another one. *)
Lemma total_update v id a b : accounts v !! id = Some a ->
  xrp_total (update_account v id b) = xrp_total v - drops_of a + drops_of b.
Proof. intros Ha. unfold xrp_total. simpl. rewrite (msum_update _ _ _ a) by done. lia. Qed.

Lemma total_accounts v v' : accounts v' = accounts v -> xrp_total v' = xrp_total v.
Proof. intros E. unfold xrp_total. by rewrite E. Qed.

Lemma consumed_total l l' tx : consumed l l' tx -> xrp_total (ol_view l') = xrp_total (ol_view l).
Proof.
  intros C. destruct (cs_account _ _ _ C) as (x & y & Hx & Hb & E & _).
  rewrite (total_accounts (update_account (ol_view l) (tx_Account tx) y)) by done.
  rewrite (total_update _ _ x) by done. unfold drops_of. rewrite Hb. lia.
Qed.

(** The deletion of credentials leaves every balance and sequence number and the rules
    alone. *)
Definition purse (a : AccountRoot) : STAmount * Z := (acct_Balance a, acct_Sequence a).

Definition same_balances (v v' : View) : Prop :=
  purse <$> accounts v' = purse <$> accounts v /\
  rules (env v') = rules (env v) /\ is_open (env v') = is_open (env v).

#[export] Instance same_balances_preorder : PreOrder same_balances.
Proof.
  split; [done|]. intros v1 v2 v3 (A & B & C) (A' & B' & C'). unfold same_balances. by rewrite A', B', C'.
Qed.

Lemma adjust_same_balances v id n : same_balances v (adjustOwnerCount v id n).
Proof.
  unfold adjustOwnerCount. destruct (accounts v !! id) as [a|] eqn:E; [|done]. split; [|done]. simpl.
  rewrite fmap_insert. apply insert_id. by rewrite lookup_fmap, E.
Qed.

Lemma unlink_same_balances `{Keylets} v k acct page own ter v' :
  unlink_credential v k acct page own = Ok (ter, v') -> same_balances v v'.
Proof.
  unfold unlink_credential, ownerDirRemove. intros E. destruct (accounts v !! acct); [|by injection E as _ <-].
  bind_inv E. destruct a0 as [found w]. bind_inv Hb. destruct a0 as [found' d]. injection Hb as <- <-.
  destruct (negb found'); [by injection E as _ <-|]. injection E as _ <-.
  destruct own; [|done]. etransitivity; [|apply adjust_same_balances]. done.
Qed.

Lemma deleteSLE_same_balances `{Keylets} v k ter v' : deleteSLE v k = Ok (ter, v') -> same_balances v v'.
Proof.
  unfold deleteSLE, and_then. intros E. destruct (credentials (env v) !! k) as [c|]; [|by injection E as _ <-].
  destruct k as [[subject issuer] type]. bind_inv E. destruct a as [t1 v1]. apply unlink_same_balances in Hb.
  destruct (isTesSuccess t1); [|by injection E as _ <-]. bind_inv E. destruct a as [t2 v2].
  assert (same_balances v1 v2) as S by (destruct (subject =? issuer); [by injection Hb0 as _ <-|by eapply unlink_same_balances]).
  destruct (isTesSuccess t2); injection E as _ <-; [|by etransitivity]. etransitivity; [exact Hb|exact S].
Qed.

Lemma removeExpired_same_balances `{Keylets} creds v v' : removeExpiredCredentials v creds = Ok v' -> same_balances v v'.
Proof.
  revert v. induction creds as [|k creds IH]; intros v E; [by injection E as <-|]. cbn [removeExpiredCredentials] in E.
  bind_inv E. destruct a as [ter w]. etransitivity; [|by apply IH].
  destruct (bool_decide _); [by eapply deleteSLE_same_balances|by injection Hb as _ <-].
Qed.

Lemma same_balances_total v v' : same_balances v v' -> xrp_total v' = xrp_total v.
Proof.
  intros (E & _). assert (forall w, xrp_total w = msum (fun _ b => signed_value b.1) (purse <$> accounts w)) as F
    by (intros w; unfold xrp_total, msum; by rewrite map_fold_fmap).
  by rewrite !F, E.
Qed.
