(* ===== verification/TransactorTable.v ===== *)
(** * The transactors in the pipeline

    Every transaction of the vaults and of the lending protocol as a [Transactor]: the
    amendment it needs, its flags, its checks, its fee, its changes, and what the checks of
    the invariants read of it ([include/xrpl/protocol/detail/transactions.macro] and the
    classes of [src/xrpld/app/tx/detail]).  The entries that were changed are computed by
    comparing the views; [touched] are entries that a transaction writes back even when
    they are as before. *)

From S2P Require Import Prelude.
From S2P Require Import Ter.
From S2P Require Import XrplNumber.
From S2P Require Import Amounts.
From S2P Require Import Lending.
From S2P Require Import Directories.
From S2P Require Import LedgerState.
From S2P Require Import Holdings.
From S2P Require Import Transfers.
From S2P Require Import Transactors.
From S2P Require Import LoanManage.
From S2P Require Import LoanBrokers.
From S2P Require Import Vaults.
From S2P Require Import VaultFunds.
From S2P Require Import LoanPay.
From S2P Require Import Signatures.
From S2P Require Import LoanSet.
From S2P Require Import Invariants.
From S2P Require Import InvariantFacts.
From S2P Require Import InvariantChecks.
From S2P Require Import InvariantXRP.
From S2P Require Import Pipeline.
From S2P Require Import PipelineFacts.
From stdpp Require Import gmap list.

Local Open Scope Z_scope.

(** ** The entries that changed *)

#[export] Instance Number_eq : EqDecision Number.
Proof. solve_decision. Defined.

#[export] Instance RippleState_eq : EqDecision RippleState.
Proof. solve_decision. Defined.

#[export] Instance MPTokenIssuance_eq : EqDecision MPTokenIssuance.
Proof. solve_decision. Defined.

#[export] Instance MPToken_eq : EqDecision MPToken.
Proof. solve_decision. Defined.

#[export] Instance Vault_eq : EqDecision Vault.
Proof. solve_decision. Defined.

#[export] Instance LoanBroker_eq : EqDecision LoanBroker.
Proof. solve_decision. Defined.

#[export] Instance Loan_eq : EqDecision Loan.
Proof. solve_decision. Defined.

#[export] Instance LoanEntry_eq : EqDecision LoanEntry.
Proof. solve_decision. Defined.

#[export] Instance Entry_eq : EqDecision Entry.
Proof. solve_decision. Defined.

Definition entry_keys (v : View) : list EntryKey :=
  (k_account <$> elements (dom (accounts v))) ++ (k_line <$> elements (dom (lines v))) ++
  (k_issuance <$> elements (dom (issuances v))) ++ (k_token <$> elements (dom (tokens v))) ++
  (k_vault <$> elements (dom (vaults v))) ++ (k_broker <$> elements (dom (brokers v))) ++
  (k_loan <$> elements (dom (loans v))).

Definition changed_keys (v v' : View) : list EntryKey :=
  filter (fun k => entry_at v' k <> entry_at v k) (entry_keys v ++ entry_keys v').

Definition recorded (touched : list EntryKey) (stage : Stage) (v v' : View) : list Visit :=
  visits_at v v' (remove_dups (match stage with after_apply => touched | after_reset => [] end ++ changed_keys v v')).

(** ** The table *)

Definition tfVaultCreateMask : Z := Z.lxor 0xFFFFFFFF (Z.lor tfUniversal (Z.lor tfVaultPrivate tfVaultShareNonTransferable)).

(** No amount is read of transactions that have none. *)
Definition no_amount : STAmount := st_clear (AIssue xrpIssue).

(** The base class. *)
Definition no_more (r : Rules) : TER := tesSUCCESS.
Definition own_sign (v : View) (keys : Keys) (own : TER) (check : Z -> SigObject -> TER) : TER := own.
Definition own_fee (v : View) (normalCost : Z) : result Z := Ok normalCost.

Section Table.
Context `{Keylets} (cfg : Settings) (fee : Z).

(** A transaction of the lending protocol, with the base class for what is not given. *)
Definition lending (mask : Z) (preflight : result TER) (preclaim : View -> result TER)
    (doApply : View -> Z -> result (TER * View)) (seen : CheckedTx) : Transactor :=
  mkTransactor featureLendingProtocol (fun r => checkLendingProtocolDependencies r false) mask
    (fun _ _ => preflight) no_more own_fee own_sign preclaim doApply seen (recorded []).

(** A transaction of a vault, which writes the entry of the vault. *)
Definition vaulted (extra : Rules -> bool) (mask : Z) (preflight : TER) (baseFee : View -> Z -> result Z) (preclaim : View -> result TER)
    (doApply : View -> Z -> result (TER * View)) (seen : CheckedTx) (touched : list EntryKey) : Transactor :=
  mkTransactor featureSingleAssetVault extra mask (fun _ _ => Ok preflight) no_more baseFee own_sign preclaim doApply seen (recorded touched).

Definition VaultCreate_transactor (tx : VaultCreateTx) : Transactor :=
  vaulted (fun r => VaultCreate_checkExtraFeatures r tx) tfVaultCreateMask (VaultCreate_preflight tx)
    (fun v _ => Ok (VaultCreate_calculateBaseFee v)) (fun v => Ok (VaultCreate_preclaim v tx)) (fun v prior => VaultCreate_doApply cfg v tx prior)
    (mkCheckedTx ttVAULT_CREATE (vc_Account tx) no_amount None None fee) [].

Definition VaultSet_transactor (tx : VaultSetTx) : Transactor :=
  vaulted (fun r => VaultSet_checkExtraFeatures r tx) tfUniversalMask (VaultSet_preflight tx) own_fee
    (fun v => Ok (VaultSet_preclaim v tx)) (fun v _ => VaultSet_doApply v tx)
    (mkCheckedTx ttVAULT_SET (vs_Account tx) no_amount None None fee) [k_vault (vs_VaultID tx)].

Definition VaultDelete_transactor (tx : VaultDeleteTx) : Transactor :=
  vaulted (fun _ => true) tfUniversalMask (VaultDelete_preflight tx) own_fee
    (fun v => Ok (VaultDelete_preclaim v tx)) (fun v _ => VaultDelete_doApply cfg v tx)
    (mkCheckedTx ttVAULT_DELETE (vd_Account tx) no_amount None None fee) [].

Definition VaultDeposit_transactor (tx : VaultDepositTx) : Transactor :=
  vaulted (fun _ => true) tfUniversalMask (VaultDeposit_preflight tx) own_fee
    (fun v => VaultDeposit_preclaim cfg v tx) (fun v prior => VaultDeposit_doApply cfg v tx prior)
    (mkCheckedTx ttVAULT_DEPOSIT (vp_Account tx) (vp_Amount tx) None None fee) [k_vault (vp_VaultID tx)].

Definition VaultWithdraw_transactor (tx : VaultWithdrawTx) : Transactor :=
  vaulted (fun _ => true) tfUniversalMask (VaultWithdraw_preflight tx) own_fee
    (fun v => Ok (VaultWithdraw_preclaim v tx)) (fun v prior => VaultWithdraw_doApply cfg v tx prior)
    (mkCheckedTx ttVAULT_WITHDRAW (vw_Account tx) (vw_Amount tx) (vw_Destination tx) None fee) [k_vault (vw_VaultID tx)].

Definition VaultClawback_transactor (tx : VaultClawbackTx) : Transactor :=
  vaulted (fun _ => true) tfUniversalMask (VaultClawback_preflight tx) own_fee
    (fun v => Ok (VaultClawback_preclaim v tx)) (fun v _ => VaultClawback_doApply cfg v tx)
    (mkCheckedTx ttVAULT_CLAWBACK (vk_Account tx) (default no_amount (vk_Amount tx)) None (Some (vk_Holder tx)) fee)
    [k_vault (vk_VaultID tx)].

Definition LoanBrokerSet_transactor (tx : LoanBrokerSetTx) : Transactor :=
  lending tfUniversalMask (LoanBrokerSet_preflight cfg tx) (fun v => Ok (LoanBrokerSet_preclaim v tx))
    (fun v prior => LoanBrokerSet_doApply cfg v tx prior)
    (mkCheckedTx ttLOAN_BROKER_SET (bs_Account tx) no_amount None None fee).

Definition LoanBrokerDelete_transactor (tx : LoanBrokerDeleteTx) : Transactor :=
  lending tfUniversalMask (Ok tesSUCCESS) (fun v => Ok (LoanBrokerDelete_preclaim v tx))
    (fun v _ => LoanBrokerDelete_doApply cfg v tx)
    (mkCheckedTx ttLOAN_BROKER_DELETE (bd_Account tx) no_amount None None fee).

Definition CoverDeposit_transactor (tx : CoverDepositTx) : Transactor :=
  lending tfUniversalMask (Ok (CoverDeposit_preflight tx)) (fun v => CoverDeposit_preclaim cfg v tx)
    (fun v _ => CoverDeposit_doApply cfg v tx)
    (mkCheckedTx ttLOAN_BROKER_COVER_DEPOSIT (cd_Account tx) (cd_Amount tx) None None fee).

Definition CoverWithdraw_transactor (makeRipplePayment : payment_engine) (tx : CoverWithdrawTx) : Transactor :=
  lending tfUniversalMask (Ok (CoverWithdraw_preflight tx)) (fun v => CoverWithdraw_preclaim cfg v tx)
    (fun v _ => CoverWithdraw_doApply cfg makeRipplePayment v tx)
    (mkCheckedTx ttLOAN_BROKER_COVER_WITHDRAW (cw_Account tx) (cw_Amount tx) (cw_Destination tx) None fee).

Definition CoverClawback_transactor (tx : CoverClawbackTx) : Transactor :=
  lending tfUniversalMask (Ok (CoverClawback_preflight tx)) (fun v => CoverClawback_preclaim cfg v tx)
    (fun v _ => CoverClawback_doApply cfg v tx)
    (mkCheckedTx ttLOAN_BROKER_COVER_CLAWBACK (cc_Account tx) (default no_amount (cc_Amount tx)) None None fee).

(** The counterparty signs as well. *)
Definition LoanSet_transactor (tx : LoanSetTx) : Transactor :=
  mkTransactor featureLendingProtocol (fun r => checkLendingProtocolDependencies r false) tfLoanSetMask
    (fun r dryRun => Ok (LoanSet_preflight r dryRun tx)) no_more (fun v n => Ok (LoanSet_calculateBaseFee v n tx))
    (fun v _ own check => LoanSet_checkSign v own check tx) (fun v => LoanSet_preclaim cfg v tx)
    (fun v prior => LoanSet_doApply cfg v tx prior)
    (mkCheckedTx ttLOAN_SET (ls_Account tx) no_amount None None fee) (recorded []).

Definition LoanDelete_transactor (tx : LoanDeleteTx) : Transactor :=
  lending tfUniversalMask (Ok (LoanDelete_preflight tx)) (fun v => Ok (LoanDelete_preclaim v tx))
    (fun v _ => LoanDelete_doApply v tx)
    (mkCheckedTx ttLOAN_DELETE (ld_Account tx) no_amount None None fee).

Definition LoanManage_transactor (tx : LoanManageTx) : Transactor :=
  lending tfLoanManageMask (Ok (LoanManage_preflight tx)) (fun v => LoanManage_preclaim v tx)
    (fun v _ => LoanManage_doApply cfg v tx)
    (mkCheckedTx ttLOAN_MANAGE (lm_Account tx) no_amount None None fee).

Definition LoanPay_transactor (tx : LoanPayTx) : Transactor :=
  mkTransactor featureLendingProtocol (fun r => checkLendingProtocolDependencies r false) tfLoanPayMask
    (fun _ _ => Ok (LoanPay_preflight tx)) no_more (fun v n => LoanPay_calculateBaseFee cfg v tx n) own_sign
    (fun v => LoanPay_preclaim cfg v tx) (fun v _ => LoanPay_doApply cfg v tx)
    (mkCheckedTx ttLOAN_PAY (pay_Account tx) (pay_Amount tx) None None fee) (recorded []).

End Table.

(** ** The comparison of views describes the change *)

Lemma entry_keys_complete v k : is_Some (entry_at v k) -> k ∈ entry_keys v.
Proof.
  assert (forall {A B} (f : A -> B) (o : option A), is_Some (f <$> o) -> is_Some o) as F by (intros A B f []; [eauto|by intros [? ?]]).
  intros Hk. unfold entry_keys. rewrite !elem_of_app, !list_elem_of_fmap.
  destruct k; simpl in Hk; try apply F in Hk; [..|by destruct Hk].
  all: setoid_rewrite elem_of_elements; setoid_rewrite elem_of_dom; eauto 10.
Qed.

Lemma recorded_key v v' keys x : x ∈ visits_at v v' keys -> exists k, k ∈ keys /\ shows v v' k x.
Proof.
  intros (k & Hk & E)%list_elem_of_omap. exists k. split; [done|]. unfold shows.
  destruct (entry_at v k) as [b|] eqn:Eb, (entry_at v' k) as [a|] eqn:Ea; try done; injection E as <-; simpl; try (by eauto).
  split; [done|]. split; [eauto|]. split; [done|]. exists b. split; [done|]. by eapply entry_at_key.
Qed.

Lemma visits_distinct v v' keys : NoDup keys -> NoDup (visit_key <$> visits_at v v' keys).
Proof.
  induction 1 as [|k keys Hk Hn IH]; [constructor|]. unfold visits_at in *. cbn [omap list_omap].
  destruct (match entry_at v k with Some _ => _ | None => _ end) as [x|] eqn:E; [|done]. cbn [fmap list_fmap]. constructor; [|done].
  assert (shows v v' k x) as S.
  { destruct (recorded_key v v' [k] x) as (k' & ->%list_elem_of_singleton & S); [|done].
    unfold visits_at. cbn [omap list_omap]. rewrite E. left. }
  intros (y & Ey & Hy)%list_elem_of_fmap. apply recorded_key in Hy as (k' & Hk' & S').
  rewrite (shows_key _ _ _ _ S), (shows_key _ _ _ _ S') in Ey. by injection Ey as <-.
Qed.

Lemma recorded_describes touched stage v v' : describes v v' (recorded touched stage v v').
Proof.
  unfold recorded. split.
  - apply visits_distinct, NoDup_remove_dups.
  - intros x (k & _ & S)%recorded_key. eauto.
  - intros k Hk. assert (k ∈ changed_keys v v') as Hc.
    { apply list_elem_of_filter. split; [done|]. apply elem_of_app.
      destruct (entry_at v k) eqn:E; [left|right]; apply entry_keys_complete; [by rewrite E|].
      destruct (entry_at v' k) eqn:E'; [by eexists|congruence]. }
    set (keys := remove_dups _). assert (k ∈ keys) as Hin by (apply elem_of_remove_dups, elem_of_app; by right).
    assert (exists x, x ∈ visits_at v v' [k]) as [x Hx].
    { unfold visits_at. cbn [omap list_omap]. destruct (entry_at v k), (entry_at v' k); try done; eexists; left. }
    exists x. split; [|by apply recorded_key in Hx as (k' & ->%list_elem_of_singleton & S)].
    apply list_elem_of_omap in Hx as (k' & ->%list_elem_of_singleton & E). apply list_elem_of_omap. eauto.
Qed.

#[export] Instance recorded_shown f x m p s b c q d k touched : Shown (mkTransactor f x m p s b c q d k (recorded touched)).
Proof. intros stage v v'. apply recorded_describes. Qed.

(** ** No fee is claimed before it is due *)

Section Codes.
Context `{Keylets} (cfg : Settings) (fee : Z).

Lemma lending_not_tec mask preflight preclaim doApply seen :
  (forall ter, preflight = Ok ter -> isTecClaim ter = false) -> NotTEC (lending mask preflight preclaim doApply seen).
Proof. intros P. split; cbn; auto. Qed.

Lemma vaulted_not_tec extra mask preflight baseFee preclaim doApply seen touched :
  isTecClaim preflight = false -> NotTEC (vaulted extra mask preflight baseFee preclaim doApply seen touched).
Proof. intros P. split; cbn; auto. by intros _ _ ter [= <-]. Qed.

Ltac plain := repeat case_match; done.

#[export] Instance VaultCreate_not_tec tx : NotTEC (VaultCreate_transactor cfg fee tx).
Proof. apply vaulted_not_tec. unfold VaultCreate_preflight. plain. Qed.

#[export] Instance VaultSet_not_tec tx : NotTEC (VaultSet_transactor fee tx).
Proof. apply vaulted_not_tec. unfold VaultSet_preflight. plain. Qed.

#[export] Instance VaultDelete_not_tec tx : NotTEC (VaultDelete_transactor cfg fee tx).
Proof. apply vaulted_not_tec. unfold VaultDelete_preflight. plain. Qed.

#[export] Instance VaultDeposit_not_tec tx : NotTEC (VaultDeposit_transactor cfg fee tx).
Proof. apply vaulted_not_tec. unfold VaultDeposit_preflight. plain. Qed.

#[export] Instance VaultWithdraw_not_tec tx : NotTEC (VaultWithdraw_transactor cfg fee tx).
Proof. apply vaulted_not_tec. unfold VaultWithdraw_preflight. plain. Qed.

#[export] Instance VaultClawback_not_tec tx : NotTEC (VaultClawback_transactor cfg fee tx).
Proof. apply vaulted_not_tec. unfold VaultClawback_preflight. plain. Qed.

#[export] Instance LoanBrokerSet_not_tec tx : NotTEC (LoanBrokerSet_transactor cfg fee tx).
Proof.
  apply lending_not_tec. unfold LoanBrokerSet_preflight. intros ter E. bind_inv E. injection E as <-. cbv zeta.
  by repeat match goal with |- context [if ?b then temINVALID else _] => destruct b end.
Qed.

#[export] Instance LoanBrokerDelete_not_tec tx : NotTEC (LoanBrokerDelete_transactor cfg fee tx).
Proof. apply lending_not_tec. by intros ter [= <-]. Qed.

#[export] Instance CoverDeposit_not_tec tx : NotTEC (CoverDeposit_transactor cfg fee tx).
Proof. apply lending_not_tec. intros ter [= <-]. unfold CoverDeposit_preflight. plain. Qed.

#[export] Instance CoverWithdraw_not_tec pay tx : NotTEC (CoverWithdraw_transactor cfg fee pay tx).
Proof. apply lending_not_tec. intros ter [= <-]. unfold CoverWithdraw_preflight. plain. Qed.

#[export] Instance CoverClawback_not_tec tx : NotTEC (CoverClawback_transactor cfg fee tx).
Proof. apply lending_not_tec. intros ter [= <-]. unfold CoverClawback_preflight. plain. Qed.

#[export] Instance LoanDelete_not_tec tx : NotTEC (LoanDelete_transactor fee tx).
Proof. apply lending_not_tec. intros ter [= <-]. unfold LoanDelete_preflight. plain. Qed.

#[export] Instance LoanManage_not_tec tx : NotTEC (LoanManage_transactor cfg fee tx).
Proof. apply lending_not_tec. intros ter [= <-]. unfold LoanManage_preflight. plain. Qed.

#[export] Instance LoanPay_not_tec tx : NotTEC (LoanPay_transactor cfg fee tx).
Proof. split; cbn; auto. intros _ _ ter [= <-]. unfold LoanPay_preflight. plain. Qed.

#[export] Instance LoanSet_not_tec tx : NotTEC (LoanSet_transactor cfg fee tx).
Proof.
  split; cbn; auto.
  - intros r dry ter [= <-]. unfold LoanSet_preflight, preflightCheckSigningKey, preflightCheckSimulateKeys.
    repeat case_match; simplify_eq; done.
  - intros v _ own check No Nc. unfold LoanSet_checkSign. repeat case_match; auto.
  - intros v _ own check E. unfold LoanSet_checkSign in E. destruct (isTesSuccess own) eqn:S; [by apply success_eq|].
    cbn in E. by rewrite E in S.
Qed.

End Codes.
