(* ===== verification/PipelineSamples.v ===== *)
(** * Transactions on a sample ledger

    A ledger, keys and transactions to run the whole pipeline on. *)

From S2P Require Import Prelude.
From S2P Require Import Ter.
From S2P Require Import XrplNumber.
From S2P Require Import Amounts.
From S2P Require Import AmountsRound.
From S2P Require Import Lending.
From S2P Require Import LedgerState.
From S2P Require Import Holdings.
From S2P Require Import SampleLedger.
From S2P Require Import TransfersMPT.
From S2P Require Import TransfersXRP.
From S2P Require Import LoanManage.
From S2P Require Import LoanPay.
From S2P Require Import Vaults.
From S2P Require Import VaultFunds.
From S2P Require Import LoanProps.
From S2P Require Import VaultProps.
From S2P Require Import InvariantProps.
From S2P Require Import PublicKeys.
From S2P Require Import Signatures.
From S2P Require Import SignaturesProps.
From S2P Require Import InvariantChecks.
From S2P Require Import InvariantXRP.
From S2P Require Import Pipeline.
From S2P Require Import Batch.
From S2P Require Import PipelineFacts.
From S2P Require Import TransactorTable.
From stdpp Require Import gmap list.

Local Open Scope Z_scope.

#[export] Instance sample_ticket_keys : TicketKeys := fun k => k.1 * 2 ^ 40 + k.2.

Definition sample_app : App := mkApp 0 256 256 256.
Definition sample_flags : ApplyFlags := mkFlags false false false false false.

(** A closed ledger without a transaction; nobody has given a permission to anybody. *)
Definition sample_ledger (v : View) : OpenLedger := mkOpen v sample_keys ∅ ∅ ∅ ∅ (xrp_total v).

(** A transaction with a fee of ten drops and the sequence number one, signed by its own
    account. *)
Definition sample_tx (type id : Z) : STTx :=
  mkTx 77 type id (st_whole (AIssue xrpIssue) 10) 1 None None None None None 0
    (mkSig (sample_key id) (Some (sample_signature id)) None) None None [] (fun _ => []).

(** The payment of a borrower whose fee would be destroyed. *)
Definition own_payment : Transactor :=
  LoanPay_transactor sample_settings 10 (mkLoanPay alice 3 (mkSTAmount (AIssue xrpIssue) 220000 0 false) 0).

Definition own_payment_result : ApplyResult :=
  apply_tx sample_settings sample_app sample_flags false (sample_ledger self_view) (sample_tx 84 alice) own_payment.

Definition deposit : Transactor := VaultDeposit_transactor sample_settings 10 save_tx.

Definition deposit_result : ApplyResult :=
  apply_tx sample_settings sample_app sample_flags false (sample_ledger bank_view) (sample_tx 68 alice) deposit.

Definition new_terms (n : Z) : Transactor := VaultSet_transactor 10 (mkVaultSet bob 1 (Some zero) None (Some [n])).

Definition new_terms_result : ApplyResult :=
  apply_tx sample_settings sample_app sample_flags false (sample_ledger bank_view) (sample_tx 66 bob) (new_terms 1).

(** Bob changes the terms of his vault twice in a batch. *)
Definition inner_tx (seq : Z) : STTx :=
  mkTx (100 + seq) 66 bob (st_whole (AIssue xrpIssue) 0) seq None None None None None tfInnerBatchTxn
    (mkSig [] None None) None None [] (fun _ => []).

Definition sample_inner : list (STTx * Transactor) := [(inner_tx 2, new_terms 1); (inner_tx 3, new_terms 2)].

Definition batch_tx : STTx :=
  mkTx 77 ttBATCH bob (st_whole (AIssue xrpIssue) 10) 1 None None None None None tfAllOrNothing
    (mkSig (sample_key bob) (Some (sample_signature bob)) None) None None [] (fun _ => []).

Definition batch : Transactor := Batch_transactor sample_app bob tfAllOrNothing 10 (mkBatch sample_inner None) (recorded []).

Definition batch_result : ApplyTransactionResult * OpenLedger :=
  applyTransaction sample_settings sample_app (sample_ledger bank_view) batch_tx batch (Some sample_inner) false sample_flags.

(** Bob's batch with a transaction of an account that is not in the ledger, which has
    signed with its own key, and a deposit of alice that [signer] has signed for her. *)
Definition other_inner (id type : Z) : STTx :=
  mkTx (200 + id) type id (st_whole (AIssue xrpIssue) 0) 1 None None None None None tfInnerBatchTxn
    (mkSig [] None None) None None [] (fun _ => []).

Definition batch_signer (id signer : Z) : BatchSigner :=
  mkBatchSigner id (mkSig (sample_key signer) (Some (sample_signature signer)) None).

Definition joint_inner : list (STTx * Transactor) := [(other_inner 99 66, new_terms 1); (other_inner alice 68, deposit)].

Definition joint_batch (signer : Z) : BatchTx := mkBatch joint_inner (Some [batch_signer 99 99; batch_signer alice signer]).

Definition joint_tx : STTx :=
  mkTx 77 ttBATCH bob (st_whole (AIssue xrpIssue) 10) 1 None None None None None tfIndependent
    (mkSig (sample_key bob) (Some (sample_signature bob)) None) None None [] (fun _ => []).

Definition joint_result (signer : Z) : ApplyTransactionResult * OpenLedger :=
  applyTransaction sample_settings sample_app (sample_ledger bank_view) joint_tx
    (Batch_transactor sample_app bob tfIndependent 10 (joint_batch signer) (recorded [])) (Some joint_inner) false sample_flags.

(** A deposit in the name of alice at the expense of bob, signed by the gateway. *)
Definition forged_tx : STTx :=
  mkTx 77 68 alice (st_whole (AIssue xrpIssue) 10) 1 None (Some bob) None None None 0
    (mkSig (sample_key gateway) (Some (sample_signature gateway)) None) None None [] (fun _ => []).

Definition forged_result : ApplyResult :=
  apply_tx sample_settings sample_app sample_flags false (sample_ledger bank_view) forged_tx deposit.

(** ** Checks by computation *)

#[export] Instance Rules_eq_dec : EqDecision Rules.
Proof. solve_decision. Defined.

Definition held_check (v : View) : bool :=
  bool_decide (map_Forall (fun _ a => native (acct_Balance a) = true /\ 0 <= drops_of a) (accounts v)) && (xrp_total v <=? INITIAL_XRP).

Lemma held_checked v : held_check v = true -> held v.
Proof.
  unfold held_check. rewrite andb_true_iff, bool_decide_eq_true, Z.leb_le. intros [F B].
  split; [intros id a Ha; by apply (F id a Ha)|intros id a Ha; by apply (F id a Ha)|done].
Qed.

Lemma applied_result r ter : ar_ter r = ter -> ar_applied r = true -> r = mkResult ter true (ar_ledger r).
Proof. destruct r. cbn. by intros -> ->. Qed.

(** The new terms of a vault change no account. *)
Lemma VaultSet_accounts v tx ter v' : VaultSet_doApply v tx = Ok (ter, v') -> accounts v' = accounts v.
Proof. unfold VaultSet_doApply. intros E. repeat case_match; by simplify_eq. Qed.
