(* ===== verification/BatchProps.v ===== *)
(** * Who signs a batch

    The accounts that must sign a batch, what their signatures cover, and the signer that
    is not looked at. *)

From S2P Require Import Prelude.
From S2P Require Import Ter.
From S2P Require Import Bytes.
From S2P Require Import Amounts.
From S2P Require Import AmountsRound.
From S2P Require Import LedgerState.
From S2P Require Import Holdings.
From S2P Require Import PublicKeys.
From S2P Require Import Signatures.
From S2P Require Import SampleLedger.
From S2P Require Import SignaturesProps.
From S2P Require Import Pipeline.
From S2P Require Import Batch.
From S2P Require Import VaultProps.
From S2P Require Import PipelineSamples.
From stdpp Require Import gmap list.

Local Open Scope Z_scope.

(** ** The message *)

Lemma concat_bytes_inj n (xs ys : list Z) :
  Forall (fun x => 0 <= x < 256 ^ Z.of_nat n) xs -> Forall (fun x => 0 <= x < 256 ^ Z.of_nat n) ys -> length xs = length ys ->
  concat (be_bytes n <$> xs) = concat (be_bytes n <$> ys) -> xs = ys.
Proof.
  intros Hx. revert ys. induction Hx as [|x xs B Hx IH]; intros ys Hy Hl E; [by destruct ys|].
  destruct Hy as [|y ys B' Hy]; [done|]. cbn [fmap list_fmap concat] in E.
  apply app_inj_1 in E as [E1 E2]; [|by rewrite !be_bytes_length]. apply be_bytes_inj in E1 as ->; [|done..].
  f_equal. apply IH; [done| |exact E2]. by injection Hl.
Qed.

Lemma serializeBatch_inj flags flags' ids ids' :
  0 <= flags < 2 ^ 32 -> 0 <= flags' < 2 ^ 32 ->
  Forall (fun x => 0 <= x < 2 ^ 256) ids -> Forall (fun x => 0 <= x < 2 ^ 256) ids' ->
  Z.of_nat (length ids) < 2 ^ 32 -> Z.of_nat (length ids') < 2 ^ 32 ->
  serializeBatch flags ids = serializeBatch flags' ids' -> flags = flags' /\ ids = ids'.
Proof.
  intros Hf Hf' Hi Hi' Hl Hl' E. unfold serializeBatch in E.
  apply app_inj_1 in E as [_ E]; [|done]. apply app_inj_1 in E as [E1 E]; [|by rewrite !be_bytes_length].
  apply app_inj_1 in E as [E2 E]; [|by rewrite !be_bytes_length].
  apply be_bytes_inj in E1; [|done..]. apply be_bytes_inj in E2; [|change (256 ^ Z.of_nat 4) with (2 ^ 32); lia..].
  split; [done|]. apply (concat_bytes_inj 32) in E; [done|done|done|lia].
Qed.

(** ** The accounts *)

Definition accounts_of (signers : list BatchSigner) : list Z := bsg_Account <$> signers.

Lemma match_signers_spec outer done_ required signers rest :
  match_signers outer done_ required signers = Value rest <->
  NoDup (accounts_of signers) /\ (forall id, id ∈ accounts_of signers -> id <> outer /\ id ∉ done_ /\ id ∈ required) /\
  rest = (required ∖ list_to_set (accounts_of signers)).
Proof.
  revert done_ required. induction signers as [|s signers IH]; intros done_ required; cbn [match_signers accounts_of fmap list_fmap].
  - split.
    + intros [= <-]. split_and!; [constructor|by intros id Hid%not_elem_of_nil|]. cbn. set_solver.
    + intros (_ & _ & ->). f_equal. cbn. set_solver.
  - change (list_fmap BatchSigner Z bsg_Account signers) with (accounts_of signers). set (id := bsg_Account s). rewrite NoDup_cons. cbn [list_to_set].
    destruct (Z.eqb_spec id outer) as [E|E]; [split; [done|]; intros (_ & F & _); destruct (F id); [by left|done]|].
    case_bool_decide as D; [split; [done|]; intros (_ & F & _); by destruct (F id) as (_ & ? & _); [left|]|].
    case_bool_decide as R; cbn [negb]; [|split; [done|]; intros (_ & F & _); by destruct (F id) as (_ & _ & ?); [left|]].
    rewrite IH. split.
    + intros (N & F & ->). split_and!; [|done| |set_solver].
      * intros I. destruct (F _ I) as (_ & X & _). set_solver.
      * intros x [->|Hx]%elem_of_cons; [done|]. destruct (F x Hx) as (? & ? & ?). set_solver.
    + intros ((N1 & N2) & F & ->). split_and!; [done| |set_solver].
      intros x Hx. destruct (F x) as (? & ? & ?); [by right|]. split_and!; [done| |]; set_solver.
Qed.

Lemma match_signers_error outer done_ required signers ter : match_signers outer done_ required signers = Unexpected ter -> ter <> tesSUCCESS.
Proof.
  revert done_ required. induction signers as [|s signers IH]; intros done_ required E; cbn [match_signers] in E; [done|].
  destruct (_ =? _); [by injection E as <-|]. destruct (bool_decide _); [by injection E as <-|].
  destruct (negb _); [by injection E as <-|]. by eapply IH.
Qed.

Section Signers.
Context `{Crypto}.

(** A signature of the batch by one of its signers. *)
Definition signs_batch (r : Rules) (flags : Z) (tx : BatchTx) (s : BatchSigner) : Prop :=
  let msg := serializeBatch flags (getBatchTransactionIDs tx) in
  if empty_key (sig_SigningPubKey (bsg_sig s)) then
    multiSignHelper r (bsg_sig s) None true (fun id => finishMultiSigningData id msg) = true
  else singleSignHelper (bsg_sig s) msg true = true.

(** The right to sign for the account of a signer. *)
Definition signs_for (v : View) (keys : Keys) (s : BatchSigner) : Prop :=
  let key := sig_SigningPubKey (bsg_sig s) in
  if empty_key key then checkMultiSign v keys (bsg_Account s) (default [] (sig_Signers (bsg_sig s))) = tesSUCCESS
  else known_key key = true /\
       match accounts v !! bsg_Account s with
       | None => calcAccountID key = bsg_Account s
       | Some a => checkSingleSign v keys (calcAccountID key) (bsg_Account s) a = tesSUCCESS
       end.

(** The account of the signer is not in the ledger, and the key is its own. *)
Definition phantom (v : View) (s : BatchSigner) : Prop :=
  let key := sig_SigningPubKey (bsg_sig s) in
  empty_key key = false /\ known_key key = true /\ accounts v !! bsg_Account s = None /\ calcAccountID key = bsg_Account s.

Lemma checkBatchSign_spec v keys signers :
  checkBatchSign v keys signers = tesSUCCESS <->
  Forall (signs_for v keys) signers \/
  exists pre p post, signers = pre ++ p :: post /\ Forall (signs_for v keys) pre /\ phantom v p.
Proof.
  induction signers as [|s signers IH]; cbn [checkBatchSign]; [split; [by left|done]|].
  assert (forall ter, signs_for v keys s <-> ter = tesSUCCESS -> ~ phantom v s ->
    (if isTesSuccess ter then checkBatchSign v keys signers else ter) = tesSUCCESS <->
    Forall (signs_for v keys) (s :: signers) \/
    exists pre p post, s :: signers = pre ++ p :: post /\ Forall (signs_for v keys) pre /\ phantom v p) as Step.
  { intros ter Hs Np. rewrite Forall_cons. destruct (isTesSuccess ter) eqn:T.
    - assert (signs_for v keys s) as Hs' by (apply Hs; by destruct ter). rewrite IH. split.
      + intros [F|(pre & p & post & -> & F & P)]; [by left|right]. exists (s :: pre), p, post. split_and!; [done|by constructor|done].
      + intros [[_ F]|([|x pre] & p & post & E & F & P)]; [by left| |].
        * injection E as <- _. done.
        * injection E as <- ->. right. exists pre, p, post. apply Forall_cons in F as [_ F]. done.
    - split; [by intros ->|]. intros [[F _]|([|x pre] & p & post & E & F & P)].
      + apply Hs in F. by rewrite F in T.
      + injection E as <- _. done.
      + injection E as <- ->. apply Forall_cons in F as [F _]. apply Hs in F. by rewrite F in T. }
  unfold signs_for, phantom in Step |- *. destruct (empty_key (sig_SigningPubKey (bsg_sig s))) eqn:K.
  { apply Step; [done|]. by intros (? & _). }
  destruct (known_key (sig_SigningPubKey (bsg_sig s))) eqn:Kn; cbn [negb].
  2: { split; [done|]. intros [F|([|x pre] & p & post & E & F & P)].
       - apply Forall_cons in F as [F _]. rewrite K in F. destruct F. congruence.
       - injection E as <- _. destruct P as (_ & ? & _). congruence.
       - injection E as <- ->. apply Forall_cons in F as [F _]. rewrite K in F. destruct F. congruence. }
  destruct (accounts v !! bsg_Account s) as [a|] eqn:A.
  { apply Step; [|by intros (_ & _ & ? & _)]. split; [by intros [_ ?]|done]. }
  destruct (Z.eqb_spec (bsg_Account s) (calcAccountID (sig_SigningPubKey (bsg_sig s)))) as [E|E]; cbn [negb].
  - split; [|done]. intros _. right. exists [], s, signers. split_and!; try done; by constructor.
  - split; [done|]. intros [F|([|x pre] & p & post & E' & F & P)].
    + apply Forall_cons in F as [F _]. rewrite K, A in F. destruct F. congruence.
    + injection E' as <- _. destruct P as (_ & _ & _ & ?). congruence.
    + injection E' as <- ->. apply Forall_cons in F as [F _]. rewrite K, A in F. destruct F. congruence.
Qed.

(** ** Theorems *)

(** C22. The checks of the signers of a batch accept it exactly when the signers are,
    without repetition, the accounts other than that of the batch that its transactions
    come from or name as counterparty, every one has signed the flags of the batch and the
    list of its transactions, and this message determines both. *)
Theorem batch_signers_exact r outer flags tx signers :
  bt_BatchSigners tx = Some signers ->
  (Batch_preflightSigValidated r outer flags tx = tesSUCCESS <->
   Z.of_nat (length signers) <= maxBatchTxCount /\ NoDup (accounts_of signers) /\
   list_to_set (accounts_of signers) = requiredSigners outer tx /\ Forall (signs_batch r flags tx) signers) /\
  (forall flags' tx', 0 <= flags < 2 ^ 32 -> 0 <= flags' < 2 ^ 32 ->
     Forall (fun id => 0 <= id < 2 ^ 256) (getBatchTransactionIDs tx) ->
     Forall (fun id => 0 <= id < 2 ^ 256) (getBatchTransactionIDs tx') ->
     Z.of_nat (length (getBatchTransactionIDs tx)) < 2 ^ 32 -> Z.of_nat (length (getBatchTransactionIDs tx')) < 2 ^ 32 ->
     serializeBatch flags (getBatchTransactionIDs tx) = serializeBatch flags' (getBatchTransactionIDs tx') ->
     flags = flags' /\ getBatchTransactionIDs tx = getBatchTransactionIDs tx').
Proof.
  intros Es. split; [|by intros; apply serializeBatch_inj]. unfold Batch_preflightSigValidated. rewrite Es.
  assert (STTx_checkBatchSign r flags tx signers = true <-> Forall (signs_batch r flags tx) signers) as S.
  { unfold STTx_checkBatchSign. rewrite forallb_forall, Forall_forall. setoid_rewrite list_elem_of_In.
    split; intros F x Hx; specialize (F x Hx); unfold signs_batch in *; by destruct (empty_key _). }
  destruct (Z.ltb_spec maxBatchTxCount (Z.of_nat (length signers))) as [L|L].
  { split; [done|]. intros (? & _). lia. }
  assert (forall id, id ∈ requiredSigners outer tx -> id <> outer) as O.
  { intros id Hid. unfold requiredSigners in Hid. rewrite elem_of_list_to_set, list_elem_of_filter in Hid. tauto. }
  pose proof (match_signers_spec outer ∅ (requiredSigners outer tx) signers) as M.
  destruct (match_signers outer ∅ (requiredSigners outer tx) signers) as [rest|ter] eqn:Em.
  - destruct (proj1 (M rest) eq_refl) as (N & F & ->). destruct (STTx_checkBatchSign r flags tx signers); cbn [negb].
    + case_bool_decide as R.
      * split; [|done]. intros _. split_and!; [done|done| |by apply S]. apply set_eq. intros id.
        rewrite elem_of_list_to_set. split; [intros Hid; by apply F|]. intros Hid. destruct (decide (id ∈ accounts_of signers)); [done|].
        assert (id ∈ requiredSigners outer tx ∖ list_to_set (accounts_of signers)) as X by (rewrite elem_of_difference, elem_of_list_to_set; done).
        rewrite R in X. set_solver.
      * split; [done|]. intros (_ & _ & E & _). destruct R. rewrite E. set_solver.
    + split; [done|]. intros (_ & _ & _ & F'). by apply S in F'.
  - split; [|intros (_ & N & E & _); exfalso].
    + intros ->. by destruct (match_signers_error _ _ _ _ _ Em).
    + assert (Unexpected ter = Value (requiredSigners outer tx ∖ list_to_set (accounts_of signers))) as X; [|done].
      apply M. split_and!; [done| |done]. intros id Hid. assert (id ∈ requiredSigners outer tx) as I by (rewrite <- E; by apply elem_of_list_to_set).
      split_and!; [by apply O|set_solver|done].
Qed.

(** C23. When the keys of a batch are accepted, every signer up to the first one whose
    account is not in the ledger signs for its account, and that one with its own key; all
    signers do when all accounts are in the ledger.  The signers behind it are not looked
    at: any keys at all are accepted for them. *)
Theorem batch_keys_checked v keys signers :
  (checkBatchSign v keys signers = tesSUCCESS <->
   Forall (signs_for v keys) signers \/
   exists pre p post, signers = pre ++ p :: post /\ Forall (signs_for v keys) pre /\ phantom v p) /\
  (Forall (fun s => ~ phantom v s) signers ->
   checkBatchSign v keys signers = tesSUCCESS <-> Forall (signs_for v keys) signers).
Proof.
  pose proof (checkBatchSign_spec v keys signers) as S. split; [done|]. intros N. rewrite S. split; [|by left].
  intros [F|(pre & p & post & -> & _ & P)]; [done|]. apply Forall_app in N as [_ [N _]%Forall_cons]. done.
Qed.

End Signers.

Lemma batch_signers_exact_witness :
  list_to_set (accounts_of [batch_signer 99 99; batch_signer alice alice]) = requiredSigners bob (joint_batch alice).
Proof.
  apply (batch_signers_exact sample_rules bob tfIndependent (joint_batch alice) [batch_signer 99 99; batch_signer alice alice] eq_refl).
  vm_compute. reflexivity.
Defined.

(** Alice has not signed: bob has signed in her place, with his own key.  The account 99
    that is not in the ledger comes first, so nobody looks at his key, and her deposit is
    made. *)
Example batch_signer_skipped :
  ~ signs_for bank_view sample_keys (batch_signer alice bob) /\ phantom bank_view (batch_signer 99 99) /\
  fst (joint_result bob) = Success /\
  (tok_MPTAmount <$> tokens (ol_view (snd (joint_result bob))) !! (token, alice)) = Some 350.
Proof. split_and!; [|by vm_compute..]. vm_compute. by intros []. Qed.

(** In the other order the batch is refused. *)
Example batch_signer_refused :
  checkBatchSign bank_view sample_keys [batch_signer alice bob; batch_signer 99 99] <> tesSUCCESS.
Proof. by vm_compute. Qed.
