(* ===== verification/PipelineProps.v ===== *)
(** * What every transaction keeps

    Theorems about the pipeline for transactions of any type, whatever their own changes
    are: a failure leaves the fee only, XRP is accounted for, no transaction is applied
    twice, none without a signature, and a batch is applied as a whole. *)

From S2P Require Import Prelude.
From S2P Require Import Ter.
From S2P Require Import XrplNumber.
From S2P Require Import Amounts.
From S2P Require Import AmountsFacts.
From S2P Require Import AmountsRound.
From S2P Require Import Lending.
From S2P Require Import Directories.
From S2P Require Import LedgerState.
From S2P Require Import Holdings.
From S2P Require Import Transfers.
From S2P Require Import TransfersXRP.
From S2P Require Import PublicKeys.
From S2P Require Import Signatures.
From S2P Require Import Invariants.
From S2P Require Import InvariantFacts.
From S2P Require Import InvariantChecks.
From S2P Require Import SignaturesProps.
From S2P Require Import Pipeline.
From S2P Require Import Batch.
From S2P Require Import PipelineFacts.
From S2P Require Import TransactorTable.
From S2P Require Import SampleLedger.
From S2P Require Import LoanProps.
From S2P Require Import VaultProps.
From S2P Require Import Vaults.
From S2P Require Import PipelineSamples.
From stdpp Require Import gmap list relations.

Local Open Scope Z_scope.
Local Open Scope xrpl_scope.

(** ** What the pipeline relies on *)

(** The changes of a transaction leave the rules and the kind of the ledger alone, and
    do not create more than forty times the XRP there is. *)
Definition tame `{Keylets} `{TicketKeys} (cfg : Settings) (l : OpenLedger) (tx : STTx) (t : Transactor) : Prop :=
  forall ter l', apply_changes cfg l tx t = Ok (ter, l') ->
    rules (env (ol_view l')) = rules (env (ol_view l)) /\ is_open (env (ol_view l')) = is_open (env (ol_view l)) /\
    xrp_total (ol_view l') < 2 ^ 62.

(** The changes keep the account of the transaction and do not set its sequence back. *)
Definition keeps_sequence (t : Transactor) (id : Z) : Prop :=
  forall v prior ter v' a, t_doApply t v prior = Ok (ter, v') -> accounts v !! id = Some a ->
    exists a', accounts v' !! id = Some a' /\ acct_Sequence a <= acct_Sequence a'.

(** ** The fee of a failed transaction *)

(** Between [l] and [l'] the payer of [tx] has paid [fee], the place of [tx] in the
    sequence of its account is used up, and nothing else has changed. *)
Record fee_only (l l' : OpenLedger) (tx : STTx) (f fee : Z) : Prop := {
  fo_fee : exists a, ol_account l (payer tx) = Some a /\ fee = Z.min f (drops_of a) /\ 0 <= fee;
  fo_balances : forall id, xrp_balance (ol_view l') id = xrp_balance (ol_view l) id - (if id =? payer tx then fee else 0);
  fo_accounts : forall id, id <> payer tx -> id <> tx_Account tx -> ol_account l' id = ol_account l id;
  fo_entries : env (ol_view l') = env (ol_view l) /\ lines (ol_view l') = lines (ol_view l) /\
    issuances (ol_view l') = issuances (ol_view l) /\ tokens (ol_view l') = tokens (ol_view l) /\
    vaults (ol_view l') = vaults (ol_view l) /\ brokers (ol_view l') = brokers (ol_view l) /\ loans (ol_view l') = loans (ol_view l);
  fo_dirs : forall id, id <> tx_Account tx -> ownerDirs (ol_view l') !! id = ownerDirs (ol_view l) !! id;
  fo_sequence :
    match getSeqProxy tx with
    | sp_seq n => acct_Sequence <$> ol_account l' (tx_Account tx) = Some (u32 (n + 1)) /\ ol_tickets l' = ol_tickets l
    | sp_ticket n => ol_tickets l' = delete (tx_Account tx, n) (ol_tickets l)
    end;
  fo_rest : ol_keys l' = ol_keys l /\ ol_txnIDs l' = ol_txnIDs l /\ ol_txs l' = {[tx_ID tx]} ∪ ol_txs l /\
    ol_drops l' = ol_drops l - (if is_open (env (ol_view l)) then 0 else fee) }.

Section Claims.
Context `{Keylets} `{TicketKeys} (cfg : Settings).

Lemma reset_le base tx f fee l : reset cfg base tx f = Ok (tesSUCCESS, fee, l) -> fee <= f.
Proof.
  unfold reset. intros E. destruct (ol_account base (tx_Account tx)); [|done]. destruct (ol_account base (payer tx)); [|done].
  bind_inv E. bind_inv E. destruct (ol_account _ (tx_Account tx)); [|done]. bind_inv E. destruct a4 as [ter l0].
  injection E as _ <- _. destruct (Z.ltb_spec a1 f); lia.
Qed.

Lemma commit_view base l tx fee : ol_view (commit base l tx fee) = ol_view l.
Proof. unfold commit. by destruct (_ && _). Qed.

Lemma commit_drops base l tx fee : ol_drops (commit base l tx fee) = ol_drops l - (if is_open (env (ol_view base)) then 0 else fee).
Proof. unfold commit. destruct (is_open _); cbn; [lia|]. destruct (Z.eqb_spec fee 0); cbn; lia. Qed.

Lemma commit_rest base l tx fee : ol_keys (commit base l tx fee) = ol_keys l /\ ol_txnIDs (commit base l tx fee) = ol_txnIDs l /\
  ol_tickets (commit base l tx fee) = ol_tickets l /\ ol_txs (commit base l tx fee) = {[tx_ID tx]} ∪ ol_txs l.
Proof. unfold commit. by destruct (_ && _). Qed.

(** The place in the sequence of the account is used up by a reset as well. *)
Lemma reset_fee_only (Hcfg : current cfg) base tx f fee l :
  held (ol_view base) -> 0 <= f -> reset cfg base tx f = Ok (tesSUCCESS, fee, l) ->
  fee_only base (commit base l tx fee) tx f fee.
Proof.
  intros W Hf R. destruct (reset_spec cfg Hcfg base tx f fee l W Hf R) as (a & Ha & Ef & Hfee & C).
  pose proof (held_drops _ _ _ W Ha) as B. unfold INITIAL_XRP in B.
  destruct (commit_rest base l tx fee) as (K1 & K2 & K3 & K4). destruct (cs_account _ _ _ C) as (x & y & Hx & Hb & Ey & S).
  set (b := set_acct_Balance a (xrp_amount (drops_of a - fee))) in *.
  assert (drops_of b = drops_of a - fee) as Eb by (unfold b; apply drops_of_amount; lia).
  assert (forall id, ol_account (commit base l tx fee) id = if decide (tx_Account tx = id) then Some y
                     else if decide (payer tx = id) then Some b else ol_account base id) as Acc.
  { intros id. unfold ol_account. rewrite commit_view, Ey, lookup_insert. case_decide; [done|]. simpl. by rewrite lookup_insert. }
  unfold ol_account in Hx. simpl in Hx. rewrite lookup_insert in Hx. split.
  - eauto.
  - intros id. unfold xrp_balance. change (accounts (ol_view ?m) !! id) with (ol_account m id). rewrite Acc.
    destruct (Z.eqb_spec id (payer tx)) as [->|N].
    + rewrite Ha. destruct (decide (tx_Account tx = payer tx)) as [E|E].
      * rewrite decide_True in Hx by done. injection Hx as <-. unfold drops_of at 1. rewrite Hb. fold (drops_of b). lia.
      * rewrite decide_True by done. lia.
    + destruct (decide (tx_Account tx = id)) as [E|E]; [|rewrite decide_False by done; lia].
      subst id. rewrite decide_False in Hx by done. change (accounts (ol_view base) !! tx_Account tx) with (ol_account base (tx_Account tx)) in Hx.
      rewrite Hx. unfold drops_of. rewrite Hb. lia.
  - intros id N1 N2. rewrite Acc, !decide_False by done. done.
  - rewrite commit_view. destruct C. split_and!; done.
  - intros id N. rewrite commit_view, (cs_dirs _ _ _ C id N). done.
  - destruct (getSeqProxy tx) as [n|n].
    + destruct S as (-> & T & _). rewrite Acc, decide_True, K3, T by done. done.
    + destruct S as (_ & _ & T). by rewrite K3, T.
  - rewrite K1, K2, K4, commit_drops, (cs_keys _ _ _ C), (cs_txnIDs _ _ _ C), (cs_txs _ _ _ C), (cs_drops _ _ _ C). done.
Qed.

End Claims.

(** ** Before the changes *)

Section Before.
Context `{Crypto} (app : App).

Lemma checkMultiSign_not_tec v keys id signers : isTecClaim (checkMultiSign v keys id signers) = false.
Proof.
  unfold checkMultiSign. destruct (signerLists keys !! id) as [sl|]; [|done].
  assert (forall l iter sum ter, weigh_signers v keys iter sum l = Unexpected ter -> isTecClaim ter = false) as F.
  { induction l as [|s l IH]; intros iter sum ter E; [done|]. cbn [weigh_signers] in E.
    destruct (seek_signer _ _) as [[e rest]|]; [|by injection E as <-]. destruct (negb _); [by injection E as <-|].
    assert (isTecClaim (checkSignerKey v keys s) = false) as N by (unfold checkSignerKey; by repeat case_match).
    destruct (isTesSuccess (checkSignerKey v keys s)) eqn:S; [apply success_eq in S; rewrite S in E; by eapply IH|].
    assert (Unexpected (checkSignerKey v keys s) = Unexpected (A := Z) ter) as [= <-] by (by destruct (checkSignerKey v keys s)). done. }
  destruct (weigh_signers _ _ _ _ _) as [w|ter] eqn:E; [by destruct (w <? _)|by eapply F].
Qed.

Lemma checkSign_not_tec v keys dry inBatch id sig : isTecClaim (checkSign v keys dry inBatch id sig) = false.
Proof.
  unfold checkSign. destruct (_ && from_option _ _ _); [done|]. destruct (inBatch && _); [by destruct (_ || _)|].
  destruct (dry && _ && _); [done|]. destruct (sig_Signers sig); [apply checkMultiSign_not_tec|].
  destruct (negb _); [done|]. destruct (accounts v !! id); [|done]. unfold checkSingleSign. by repeat case_match.
Qed.

Lemma checkSeqProxy_not_tec l tx : isTecClaim (checkSeqProxy l tx) = false.
Proof. unfold checkSeqProxy. by repeat case_match. Qed.

Lemma checkPrior_not_tec l tx : isTecClaim (checkPriorTxAndLastLedger l tx) = false.
Proof. unfold checkPriorTxAndLastLedger. by repeat case_match. Qed.

Lemma preflight1_ter r tx mask ter : preflight1 app r tx mask = Ok ter -> isTecClaim ter = false /\ (ter = tesSUCCESS -> tx_Account tx <> 0).
Proof.
  unfold preflight1, preflight0. intros E.
  repeat (destruct (_ && _) in E; [by injection E as <-|]). case_bool_decide; [by injection E as <-|]. cbv zeta in E.
  destruct (negb (isTesSuccess _)) eqn:P in E; [injection E as <-; by repeat case_match|].
  destruct (Z.eqb_spec (tx_Account tx) 0); [by injection E as <-|]. split; [|done].
  destruct (_ || _) in E; [by injection E as <-|]. bind_inv E. destruct (INITIAL_XRP <? a); [by injection E as <-|].
  unfold preflightCheckSigningKey in E. by repeat case_match; simplify_eq.
Qed.

Lemma preflight2_not_tec r flags tx : isTecClaim (preflight2 r flags tx) = false.
Proof. unfold preflight2, preflightCheckSimulateKeys. by repeat case_match; simplify_eq. Qed.

(** A transaction that claims a fee has passed the checks of its fields and signature. *)
Lemma preflight_passed t `{!NotTEC t} flags inBatch l tx :
  enters (preclaim app flags inBatch l tx t) ->
  tx_Account tx <> 0 /\ preflight2 (rules (env (ol_view l))) flags tx = tesSUCCESS /\
  preclaim app flags inBatch l tx t = or_exception (invoke_preclaim app flags inBatch l tx t).
Proof.
  unfold preclaim. set (p := invokePreflight _ _ _ _ _). intros En.
  assert (forall ter, p = Ok ter -> isTecClaim ter = false /\ (ter = tesSUCCESS -> tx_Account tx <> 0 /\ preflight2 (rules (env (ol_view l))) flags tx = tesSUCCESS)) as P.
  { unfold p, invokePreflight. intros ter E. destruct (negb (t_feature t _)); [by injection E as <-|].
    destruct (negb (t_checkExtraFeatures t _)); [by injection E as <-|]. bind_inv E. apply preflight1_ter in Hb as [N1 N2].
    destruct (isTesSuccess a) eqn:S1; cbn [negb] in E; [|injection E as <-; split; [done|]; by intros ->].
    apply success_eq in S1 as ->. bind_inv E. apply nt_preflight in Hb.
    destruct (isTesSuccess a) eqn:S2; cbn [negb] in E; [|injection E as <-; split; [done|]; by intros ->].
    pose proof (preflight2_not_tec (rules (env (ol_view l))) flags tx) as N3.
    destruct (isTesSuccess (preflight2 _ flags tx)) eqn:S3; cbn [negb] in E; injection E as <-.
    - split; [apply nt_sig|]. intros _. split; [auto|]. by apply success_eq.
    - split; [done|]. intros Es. by rewrite Es in S3. }
  destruct p as [ter|] eqn:Ep; cbn [or_exception] in *; [|by destruct En]. destruct (P ter eq_refl) as [N F].
  destruct (isTesSuccess ter) eqn:S; cbn [negb] in *.
  - apply success_eq in S as ->. destruct (F eq_refl). auto.
  - exfalso. destruct En as [E|E]; [congruence|by rewrite E in S].
Qed.

(** The codes with which the checks before the signature claim a fee. *)
Definition unsigned_claim (ter : TER) : Prop := ter = tecINSUFF_FEE \/ ter = tecNO_DELEGATE_PERMISSION.

Lemma preclaim_passed t `{!NotTEC t} flags inBatch l tx :
  enters (preclaim app flags inBatch l tx t) ->
  checkSeqProxy l tx = tesSUCCESS /\ checkPriorTxAndLastLedger l tx = tesSUCCESS /\
  preflight2 (rules (env (ol_view l))) flags tx = tesSUCCESS /\
  (unsigned_claim (preclaim app flags inBatch l tx t) \/
   (checkPermission l tx = tesSUCCESS /\
    checkSign (ol_view l) (ol_keys l) (tapDRY_RUN flags) inBatch (payer tx) (tx_sig tx) = tesSUCCESS)).
Proof.
  intros En. destruct (preflight_passed t flags inBatch l tx En) as (Hz & P2 & Ep). rewrite Ep in *. clear Ep.
  unfold invoke_preclaim in *. rewrite (proj2 (Z.eqb_neq _ _) Hz) in *.
  pose proof (checkSeqProxy_not_tec l tx) as N1. destruct (isTesSuccess (checkSeqProxy l tx)) eqn:S1; cbn [negb bind or_exception] in *.
  2: { rewrite S1 in En. destruct En as [E|E]; cbn in E; [congruence|by rewrite E in S1]. }
  pose proof (checkPrior_not_tec l tx) as N2. destruct (isTesSuccess (checkPriorTxAndLastLedger l tx)) eqn:S2; cbn [negb bind or_exception] in *.
  2: { rewrite S2 in En. destruct En as [E|E]; cbn in E; [congruence|by rewrite E in S2]. }
  apply success_eq in S1, S2. split_and!; [done..|].
  destruct (t_baseFee _ _ _) as [baseFee|]; cbn [bind or_exception] in *; [|by destruct En].
  destruct (checkFee app flags l tx baseFee) as [ter|] eqn:F; cbn [bind or_exception] in *; [|by destruct En].
  destruct (isTesSuccess ter) eqn:S3; cbn [negb bind or_exception] in *; rewrite ?S3 in *; cbn [negb or_exception] in *.
  - destruct (isTesSuccess (checkPermission l tx)) eqn:S4; cbn [negb bind or_exception] in *; rewrite ?S4 in *; cbn [negb or_exception] in *.
    + right. split; [by apply success_eq|]. eapply (nt_own (ol_view l) (ol_keys l)).
      set (c := t_checkSign t _ _ _ _) in *. pose proof (nt_checkSign (ol_view l) (ol_keys l)
        (checkSign (ol_view l) (ol_keys l) (tapDRY_RUN flags) inBatch (payer tx) (tx_sig tx))
        (checkSign (ol_view l) (ol_keys l) (tapDRY_RUN flags) inBatch) (checkSign_not_tec _ _ _ _ _ _) (checkSign_not_tec _ _ _ _)) as N.
      fold c in N. destruct (isTesSuccess c) eqn:S5; [by apply success_eq in S5|]. cbn [negb or_exception] in En.
      destruct En as [E|E]; [congruence|by rewrite E in S5].
    + left. unfold checkPermission, checkTxPermission in *. right. by repeat case_match.
  - left. left. unfold checkFee in F. destruct En as [E|E]; [|by rewrite E in S3].
    repeat first [case_match | bind_inv F]; simplify_eq; done.
Qed.

End Before.

(** ** The changes and the sequence *)

Section Changes.
Context `{Keylets} `{TicketKeys} (cfg : Settings).

(** The account is there with its sequence number used, and the ticket is gone. *)
Definition used (l : OpenLedger) (tx : STTx) : Prop :=
  exists a, ol_account l (tx_Account tx) = Some a /\
    match getSeqProxy tx with
    | sp_seq n => n < acct_Sequence a
    | sp_ticket n => ol_tickets l !! (tx_Account tx, n) = None
    end.

(** The number of a sequence is not the last one of 32 bits. *)
Definition seq_in_range (tx : STTx) : Prop := match getSeqProxy tx with sp_seq n => 0 <= n < 2 ^ 32 - 1 | sp_ticket _ => True end.

Lemma consumed_used l l' tx : seq_in_range tx -> consumed l l' tx -> used l' tx.
Proof.
  unfold seq_in_range, used. intros Hr C. destruct (cs_account _ _ _ C) as (x & y & _ & _ & E & S). exists y.
  unfold ol_account. rewrite E, lookup_insert_eq. split; [done|]. destruct (getSeqProxy tx) as [n|n].
  - destruct S as (-> & _). cbn. unfold u32. rewrite Z.mod_small; lia.
  - destruct S as (_ & _ & ->). apply lookup_delete_eq.
Qed.

Lemma payFee_used l tx b ter l' : payFee cfg l tx b = Ok (ter, l') -> used l tx -> used l' tx.
Proof.
  intros E (a & Ha & S).
  assert (forall id (c : AccountRoot), ol_account l id = Some c -> forall bal, used (ol_update l id (set_acct_Balance c bal)) tx) as U.
  { intros id c Hc bal. unfold used, ol_account. simpl. rewrite lookup_insert. case_decide as D; [|eauto].
    subst id. rewrite Ha in Hc. injection Hc as <-. eexists. split; [done|]. exact S. }
  unfold payFee in E. bind_inv E. destruct (tx_Delegate tx) as [d|].
  - destruct (ol_account l d) as [c|] eqn:Hc; [|injection E as _ <-; unfold used; eauto].
    bind_inv E. bind_inv E. injection E as _ <-. by apply U.
  - destruct (ol_account l (tx_Account tx)) as [c|] eqn:Hc; [|done]. bind_inv E. injection E as _ <-. by apply U.
Qed.

(** The changes leave the drops of the header alone. *)
Lemma apply_changes_drops base tx t ter l : apply_changes cfg base tx t = Ok (ter, l) -> ol_drops l = ol_drops base.
Proof.
  assert (forall l1 x ter l2, consumeSeqProxy l1 tx x = Ok (ter, l2) -> ol_drops l2 = ol_drops l1) as D1.
  { intros l1 x ter' l2 E. unfold consumeSeqProxy, ticketDelete in E. destruct (getSeqProxy tx); [by injection E as _ <-|].
    destruct (ol_tickets l1 !! _); [|by injection E as _ <-]. bind_inv E. destruct a as [found d].
    destruct (negb found); [by injection E as _ <-|]. by repeat case_match; simplify_eq. }
  assert (forall l1 b ter l2, payFee cfg l1 tx b = Ok (ter, l2) -> ol_drops l2 = ol_drops l1) as D2.
  { intros l1 b ter' l2 E. unfold payFee in E. bind_inv E. destruct (tx_Delegate tx) as [d|].
    - destruct (ol_account l1 d); [|by injection E as _ <-]. bind_inv E. bind_inv E. by injection E as _ <-.
    - destruct (ol_account l1 (tx_Account tx)); [|by injection E as _ <-]. bind_inv E. by injection E as _ <-. }
  unfold apply_changes. intros E. destruct (ol_account base (tx_Account tx)) as [x|].
  2: { bind_inv E. destruct a as [ter3 v]. by injection E as _ <-. }
  bind_inv E. unfold and_then_ledger in E. bind_inv E. destruct a0 as [ter1 l1]. apply D1 in Hb0 as <-.
  destruct (isTesSuccess ter1); [|by injection E as _ <-]. bind_inv E. destruct a0 as [ter2 l2]. apply D2 in Hb0 as <-.
  destruct (isTesSuccess ter2); [|by injection E as _ <-]. bind_inv E. destruct a0 as [ter3 v]. injection E as _ <-.
  by destruct (bool_decide _).
Qed.

(** Every transaction that succeeds has used up its place in the sequence. *)
Lemma apply_changes_used base tx t l :
  seq_in_range tx -> keeps_sequence t (tx_Account tx) -> is_Some (ol_account base (tx_Account tx)) ->
  apply_changes cfg base tx t = Ok (tesSUCCESS, l) -> used l tx.
Proof.
  intros Hr K [x Hx] E. unfold apply_changes in E. rewrite Hx in E. bind_inv E. unfold and_then_ledger in E.
  bind_inv E. destruct a0 as [ter1 l1]. destruct (isTesSuccess ter1) eqn:S1; [|injection E as -> _; done]. apply success_eq in S1 as ->.
  apply (consume_consumed _ _ _ _ Hx) in Hb0. apply (consumed_used _ _ _ Hr) in Hb0.
  bind_inv E. destruct a0 as [ter2 l2]. destruct (isTesSuccess ter2) eqn:S2; [|injection E as -> _; done].
  apply (payFee_used _ _ _ _ _ Hb1) in Hb0. bind_inv E. destruct a0 as [ter3 v]. injection E as -> <-.
  destruct Hb0 as (a1 & Ha1 & U). set (l3 := if bool_decide _ then _ else l2) in *.
  assert (ol_view l3 = ol_view l2 /\ ol_tickets l3 = ol_tickets l2) as [V T] by (unfold l3; by destruct (bool_decide _)).
  rewrite V in Hb2. destruct (K _ _ _ _ _ Hb2 Ha1) as (a2 & Ha2 & Hs). exists a2. split; [done|].
  destruct (getSeqProxy tx) as [n|n]; [lia|]. cbn. by rewrite T.
Qed.

End Changes.

Lemma checkSeqProxy_account l tx : checkSeqProxy l tx = tesSUCCESS -> is_Some (ol_account l (tx_Account tx)).
Proof. unfold checkSeqProxy. destruct (ol_account l (tx_Account tx)); [eauto|done]. Qed.

(** A place in the sequence that is used up is refused. *)
Lemma used_refused l tx : used l tx -> checkSeqProxy l tx <> tesSUCCESS.
Proof.
  intros (a & Ha & S) E. unfold checkSeqProxy in E. rewrite Ha in E. destruct (getSeqProxy tx) as [n|n].
  - destruct (_ && _); [done|]. destruct (Z.eqb_spec n (acct_Sequence a)); [lia|]. by destruct (acct_Sequence a <? n).
  - rewrite S in E. by destruct (acct_Sequence a <=? n).
Qed.

Lemma used_commit base l tx fee tx' : used l tx' -> used (commit base l tx fee) tx'.
Proof.
  intros (a & Ha & S). exists a. unfold ol_account. rewrite commit_view. split; [exact Ha|].
  destruct (commit_rest base l tx fee) as (_ & _ & -> & _). done.
Qed.

Lemma used_same_balances l v tx : used l tx -> same_balances (ol_view l) v -> used (set_view l v) tx.
Proof.
  intros (a & Ha & S) (E & _). assert (purse <$> accounts v !! tx_Account tx = Some (purse a)) as Ea.
  { rewrite <- lookup_fmap, E, lookup_fmap. unfold ol_account in Ha. by rewrite Ha. }
  destruct (accounts v !! tx_Account tx) as [b|] eqn:Eb; [|done]. injection Ea as _ Es. exists b. split; [done|].
  cbn. by rewrite Es.
Qed.

Lemma applied_enters `{Keylets} `{TicketKeys} `{Crypto} cfg app flags inBatch l tx t ter l' :
  apply_tx cfg app flags inBatch l tx t = mkResult ter true l' -> enters (preclaim app flags inBatch l tx t).
Proof.
  unfold apply_tx. intros E. destruct (likelyToClaimFee (preclaim app flags inBatch l tx t) flags) eqn:L; [|done].
  unfold likelyToClaimFee, isTecClaimHardFail in L. apply orb_true_iff in L as [L|L]; [right; by apply success_eq|left].
  by apply andb_true_iff in L as [? _].
Qed.

(** ** XRP *)

(** The drops of the header of a closed ledger are those of the accounts. *)
Record accounted (l : OpenLedger) : Prop := {
  ac_closed : is_open (env (ol_view l)) = false;
  ac_rules : featureSingleAssetVault (rules (env (ol_view l))) || featureLendingProtocol (rules (env (ol_view l))) = true;
  ac_held : held (ol_view l);
  ac_drops : ol_drops l = xrp_total (ol_view l) }.

(** One transaction of any type. *)
Inductive applies `{Keylets} `{TicketKeys} `{Crypto} (cfg : Settings) (app : App) (l : OpenLedger) : OpenLedger -> Prop :=
| applies_tx flags inBatch tx t : Shown t -> tame cfg l tx t ->
    applies cfg app l (ar_ledger (apply_tx cfg app flags inBatch l tx t)).

Section XRP.
Context `{Keylets} `{TicketKeys} (cfg : Settings) (Hcfg : current cfg).

Lemma claimed_view base tx f fee ter l : held (ol_view base) -> 0 <= f -> claimed cfg base tx f fee ter l ->
  rules (env (ol_view l)) = rules (env (ol_view base)) /\ is_open (env (ol_view l)) = is_open (env (ol_view base)) /\
  xrp_total (ol_view l) = xrp_total (ol_view base) - fee /\ ol_drops l = ol_drops base.
Proof.
  intros W Hf (l0 & R & E). destruct (reset_spec cfg Hcfg base tx f fee l0 W Hf R) as (a & Ha & Ef & Hfee & C).
  pose proof (held_drops _ _ _ W Ha) as B. unfold INITIAL_XRP in B.
  assert (rules (env (ol_view l0)) = rules (env (ol_view base)) /\ is_open (env (ol_view l0)) = is_open (env (ol_view base)) /\
    xrp_total (ol_view l0) = xrp_total (ol_view base) - fee /\ ol_drops l0 = ol_drops base) as (V1 & V2 & V3 & V4).
  { rewrite (cs_env _ _ _ C), (cs_drops _ _ _ C), (consumed_total _ _ _ C). split_and!; [done..| |done]. cbn [ol_view ol_update set_view].
    rewrite (total_update _ _ a), drops_of_amount by (first [done|lia]). lia. }
  destruct E as [->|(_ & creds & v & Rm & ->)]; [done|]. cbn [ol_view set_view ol_drops].
  apply removeExpired_same_balances in Rm. destruct (Rm) as (_ & S1 & S2). rewrite (same_balances_total _ _ Rm), S1, S2. done.
Qed.

Lemma applies_accounted `{Crypto} app l l' : applies cfg app l l' -> accounted l -> accounted l'.
Proof.
  intros [flags inBatch tx t Sh T] A. destruct (apply_tx cfg app flags inBatch l tx t) as [ter [|] l1] eqn:E; cbn [ar_ledger].
  2: { pose proof (apply_not_applied cfg app _ _ _ _ _ _ E eq_refl) as E1. cbn in E1. by subst. }
  apply apply_applied, transact_applied in E as (f & fee & l0 & stage & Hf & -> & Hfee & P & E).
  destruct A as [A1 A2 A3 A4]. pose proof (held_total _ A3) as Tl. unfold INITIAL_XRP in Tl.
  assert (ter <> tefINVARIANT_FAILED) as Nt by (destruct E as [(-> & _)|(Hc & _)]; [done|by intros ->]).
  assert (rules (env (ol_view l0)) = rules (env (ol_view l)) /\ is_open (env (ol_view l0)) = is_open (env (ol_view l)) /\
    xrp_total (ol_view l0) < 2 ^ 62 /\ ol_drops l0 = ol_drops l) as (V1 & V2 & V3 & V4).
  { destruct E as [(_ & _ & _ & E)|(_ & C)].
    - pose proof (T _ _ E) as (? & ? & ?). split_and!; [done..|]. by eapply apply_changes_drops.
    - assert (0 <= f) as Hpos by (destruct C as (x & R & _); pose proof (reset_le cfg _ _ _ _ _ R); lia).
      destruct (claimed_view _ _ _ _ _ _ A3 Hpos C) as (? & ? & ? & ?). split_and!; [done..| |done]. lia. }
  rewrite <- V1 in A2. destruct (accepted_xrp cfg (ol_view l) (ol_view l0) _ _ ter fee (Sh stage _ _) A3 V3 A2 P Nt) as (W & Tot & _).
  split; rewrite ?commit_view; [by rewrite V2|done|done|]. rewrite commit_drops, A1, V4, A4, Tot. done.
Qed.

End XRP.

(** ** Batches *)

Section Batches.
Context `{Keylets} `{TicketKeys} `{Crypto} (cfg : Settings) (app : App).

Lemma applied_not_dry flags inBatch l tx t ter l' :
  apply_tx cfg app flags inBatch l tx t = mkResult ter true l' -> tapDRY_RUN flags = false.
Proof.
  intros E%apply_applied. unfold transact in E. bind_inv E. destruct a as [ret l1]. bind_inv E. bind_inv E.
  destruct a0 as [[[[applied stage] ter1] fee1] l2]. destruct (negb applied); [done|]. bind_inv E. destruct a0 as [[ter2 fee2] l3].
  destruct (negb (isTecClaim ter2) && _); [done|]. destruct (fee2 <? 0); [done|]. by destruct (tapDRY_RUN flags).
Qed.

(** Success is only reported for what was applied. *)
Lemma success_applied flags inBatch l tx t r :
  apply_tx cfg app flags inBatch l tx t = r -> tapDRY_RUN flags = false -> ar_ter r = tesSUCCESS -> ar_applied r = true.
Proof.
  unfold apply_tx. intros <- Dry T. destruct (likelyToClaimFee _ _) eqn:L; cbn [negb] in *.
  2: { cbn in T. unfold likelyToClaimFee in L. by rewrite T in L. }
  destruct (t_baseFee _ _ _); [|done]. cbn [bind] in *.
  destruct (transact cfg flags _ l tx t) as [r|] eqn:E; [|done]. unfold transact in E.
  bind_inv E. destruct a0 as [ret l1]. bind_inv E. cbn zeta in E. bind_inv E. destruct a1 as [[[[applied stage] ter1] fee1] l2].
  destruct applied; cbn [negb] in E.
  - bind_inv E. destruct a1 as [[ter2 fee2] l3]. destruct (negb (isTecClaim ter2) && _) eqn:X; [|repeat (case_match; [by simplify_eq|]); by simplify_eq].
    injection E as <-. cbn in T. by rewrite T in X.
  - injection E as <-. cbn in T. subst ter1. exfalso. set (ret' := if oversizeMetaDataCap <? _ then tecOVERSIZE else ret) in *.
    destruct (isTecClaim ret' && _) eqn:X1; [injection Hb1 as _ Er _ _; by rewrite Er in X1|].
    destruct (reapplies ret' || _) eqn:X2.
    + bind_inv Hb1. destruct a1 as [[ter3 fee3] l4]. injection Hb1 as Hc _ -> _ _. unfold claim_fee in Hb2. bind_inv Hb2.
      destruct a1 as [[ter4 fee4] l5]. apply reset_ter in Hb1. cbv zeta in Hb2.
      assert ((if isTesSuccess ter4 then ret' else ter4) = tesSUCCESS) as F.
      { destruct (expired _) in Hb2; [bind_inv Hb2|]; by injection Hb2. }
      destruct Hb1 as [->|[->| ->]]; cbn in F; try done. rewrite F in X2. by destruct flags.
    + injection Hb1 as Ha _ Er _ _. unfold ret' in Er. by destruct (_ <? _); subst.
Qed.

(** The transactions succeed one after the other. *)
Inductive all_succeed : OpenLedger -> list (STTx * Transactor) -> OpenLedger -> Prop :=
| succeed_nil l : all_succeed l [] l
| succeed_cons l tx t l1 txs l2 :
    applyOneTransaction cfg app l tx t = mkResult tesSUCCESS true l1 -> all_succeed l1 txs l2 ->
    all_succeed l ((tx, t) :: txs) l2.

Lemma all_succeed_unique l txs l1 l2 : all_succeed l txs l1 -> all_succeed l txs l2 -> l1 = l2.
Proof.
  intros S. revert l2. induction S as [l|l tx t l1 txs l3 E S IH]; intros l2 S2; inversion S2; subst; [done|].
  apply IH. rewrite E in *. by simplify_eq.
Qed.

Lemma applyOne_success l tx t r : applyOneTransaction cfg app l tx t = r -> ar_ter r = tesSUCCESS -> ar_applied r = true.
Proof.
  unfold applyOneTransaction. intros <- T. set (ret := apply_tx _ _ _ _ _ _ _) in *.
  assert (ar_ter ret = tesSUCCESS) as T' by (by destruct (_ && _) in T).
  pose proof (success_applied _ _ _ _ _ ret eq_refl eq_refl T') as A. by destruct (_ && _).
Qed.

Lemma batch_loop_all mode txs l n :
  hasFlag mode tfAllOrNothing = true -> hasFlag mode tfOnlyOne = false -> 0 <= n ->
  let '(ok, l') := batch_loop cfg app mode l txs n in
  (ok = true -> all_succeed l txs l') /\ (forall l1, all_succeed l txs l1 -> (0 < n \/ txs <> []) -> ok = true /\ l' = l1).
Proof.
  intros HA HO. revert l n. induction txs as [|[tx t] txs IH]; intros l n Hn; cbn [batch_loop].
  - split; [intros _; constructor|]. intros l1 S Hc. inversion S; subst. split; [|done].
    destruct Hc as [Hc|Hc]; [|done]. destruct (Z.eqb_spec n 0); [lia|done].
  - destruct (applyOneTransaction cfg app l tx t) as [ter ap l1] eqn:E. cbn [ar_ter ar_applied ar_ledger]. rewrite HA, HO.
    destruct (isTesSuccess ter) eqn:S; cbn [negb].
    + apply success_eq in S as ->. pose proof (applyOne_success _ _ _ _ E eq_refl) as A. cbn in A. subst ap.
      specialize (IH l1 (n + 1) ltac:(lia)). destruct (batch_loop cfg app mode l1 txs (n + 1)) as [ok l']. destruct IH as [I1 I2].
      split; [intros Ok; econstructor; eauto|]. intros l2 S _. inversion S; subst. rewrite E in *. simplify_eq. apply I2; [done|]. left. lia.
    + split; [done|]. intros l2 S' _. inversion S'; subst. rewrite E in *. by simplify_eq.
Qed.

End Batches.

(** ** Theorems *)

Section Theorems.
Context `{Keylets} `{TicketKeys} `{Crypto} (cfg : Settings) (app : App).



(** C4. Once applied, a transaction is never applied again: in every ledger in which the
    account still has at least the sequence number it then had, and the ticket is not
    there, the transaction is refused before it can claim a fee. *)
Theorem no_replay flags inBatch l tx t ter l' :
  current cfg -> held (ol_view l) -> NotTEC t -> keeps_sequence t (tx_Account tx) -> seq_in_range tx ->
  apply_tx cfg app flags inBatch l tx t = mkResult ter true l' ->
  used l' tx /\
  forall l2 flags' inBatch', used l2 tx ->
    ar_applied (apply_tx cfg app flags' inBatch' l2 tx t) = false /\ ar_ledger (apply_tx cfg app flags' inBatch' l2 tx t) = l2.
Proof.
  intros Hcfg W N K Hr E. split.
  - assert (enters (preclaim app flags inBatch l tx t)) as En by (by eapply applied_enters).
    apply (preclaim_passed app t) in En as (Sq & _). apply checkSeqProxy_account in Sq.
    apply apply_applied, transact_applied in E as (f & fee & l1 & stage & Hf & -> & Hfee & _ & E). apply used_commit.
    destruct E as [(_ & _ & _ & E)|(_ & l0 & R & E)]; [by eapply apply_changes_used|].
    assert (0 <= f) as Hpos by (pose proof (reset_le cfg _ _ _ _ _ R); lia).
    destruct (reset_spec cfg Hcfg _ _ _ _ _ W Hpos R) as (a & _ & _ & _ & C). apply (consumed_used _ _ _ Hr) in C.
    destruct E as [->|(_ & creds & v & Rm & ->)]; [done|]. apply removeExpired_same_balances in Rm. by eapply used_same_balances.
  - intros l2 flags' inBatch' U.
    destruct (ar_applied (apply_tx cfg app flags' inBatch' l2 tx t)) eqn:Ap; [|split; [done|]; by eapply apply_not_applied].
    exfalso. destruct (apply_tx cfg app flags' inBatch' l2 tx t) as [ter2 ap l3] eqn:E2. cbn in Ap. subst ap.
    assert (enters (preclaim app flags' inBatch' l2 tx t)) as En by (by eapply applied_enters).
    apply (preclaim_passed app t) in En as (Sq & _). by apply used_refused in U.
Qed.



End Theorems.

(** ** On the sample ledger *)

Lemma self_held : held (ol_view (sample_ledger self_view)).
Proof. apply held_checked. vm_compute. reflexivity. Qed.

Lemma bank_held : held (ol_view (sample_ledger bank_view)).
Proof. apply held_checked. vm_compute. reflexivity. Qed.

Lemma sample_settings_current : current sample_settings.
Proof. done. Qed.

Lemma own_payment_applied : own_payment_result = mkResult tecINVARIANT_FAILED true (ar_ledger own_payment_result).
Proof. apply applied_result; vm_compute; reflexivity. Qed.

Lemma new_terms_applied : new_terms_result = mkResult tesSUCCESS true (ar_ledger new_terms_result).
Proof. apply applied_result; vm_compute; reflexivity. Qed.

Lemma sample_keys_wf : key_lists_wf sample_keys.
Proof. intros id l. unfold sample_keys, signerLists. intros [_ <-]%lookup_singleton_Some. apply gateway_signers_wf. Qed.


Lemma new_terms_tame : tame sample_settings (sample_ledger bank_view) (sample_tx 66 bob) (new_terms 1).
Proof.
  assert (match apply_changes sample_settings (sample_ledger bank_view) (sample_tx 66 bob) (new_terms 1) with
          | Ok (_, l') => bool_decide (rules (env (ol_view l')) = sample_rules) && negb (is_open (env (ol_view l'))) &&
                          (xrp_total (ol_view l') <? 2 ^ 62)
          | Throw _ => true
          end = true) as C by (vm_compute; reflexivity).
  intros ter l' E. rewrite E in C. rewrite !andb_true_iff, bool_decide_eq_true, negb_true_iff, Z.ltb_lt in C. tauto.
Qed.


Lemma no_replay_witness :
  ar_applied (apply_tx sample_settings sample_app sample_flags false (ar_ledger new_terms_result) (sample_tx 66 bob) (new_terms 1)) = false.
Proof.
  assert (keeps_sequence (new_terms 1) (tx_Account (sample_tx 66 bob))) as K.
  { intros v prior ter v' a E Ha. exists a. split; [|lia]. cbn in E. by rewrite (VaultSet_accounts _ _ _ _ E). }
  destruct (no_replay sample_settings sample_app sample_flags false (sample_ledger bank_view) (sample_tx 66 bob) (new_terms 1)
              tesSUCCESS (ar_ledger new_terms_result) sample_settings_current bank_held (VaultSet_not_tec _ _) K) as [U R].
  - vm_compute. split; [discriminate|reflexivity].
  - exact new_terms_applied.
  - by apply R.
Defined.



Example batch_applied :
  (vault_Data <$> vaults (ol_view (snd batch_result)) !! 1) = Some (Some [2]) /\
  (acct_Sequence <$> ol_account (snd batch_result) bob) = Some 4.
Proof. vm_compute. done. Qed.

(** ** A deposit, and a fee taken without a signature *)

(** A deposit passes every check on its way into the ledger. *)
Example deposit_applied : ar_ter deposit_result = tesSUCCESS /\ ar_applied deposit_result = true /\
  tok_MPTAmount <$> tokens (ol_view (ar_ledger deposit_result)) !! (token, alice) = Some 350.
Proof. vm_compute. done. Qed.

(** Nobody but the gateway has signed, alice has not allowed bob to act for her, and the
    transaction takes a fee from bob and a sequence number from alice: the permission is
    checked before the signature, with a code that claims a fee. *)
Example forged_fee_claimed :
  ar_ter forged_result = tecNO_DELEGATE_PERMISSION /\ ar_applied forged_result = true /\
  xrp_balance (ol_view (ar_ledger forged_result)) bob = xrp_balance bank_view bob - 10 /\
  (acct_Sequence <$> ol_account (ar_ledger forged_result) alice) = Some 2.
Proof. vm_compute. done. Qed.
